(* ===== verification/_CoqProject ===== *)
-Q . S2P
Prelude.v
Heap.v
Schedule.v
CommonMath.v
Params.v
Opcodes.v
Rlp.v
RlpSpec.v
StateIface.v
ConcreteCrypto.v
TrieKey.v
TrieNode.v
Trie.v
TrieSpec.v
TrieProps.v
TrieDatabase.v
Hasher.v
TrieCodec.v
HasherProps.v
DatabaseProps.v
TrieStore.v
TrieCommit.v
TrieFlush.v
TrieGc.v
ChainGc.v
GcDemo.v
TrieProof.v
TrieThreads.v
SecureTrie.v
Transaction.v
Receipt.v
Machine.v
EvmTypes.v
Precompiles.v
GasTable.v
GasProps.v
Evm.v
Instructions.v
JumpTable.v
InstrSpec.v
Interpreter.v
EvmInv.v
InstrSafe.v
GasSafe.v
PrecompileSafe.v
CallSafe.v
OpSafe.v
TableSafe.v
LoopSafe.v
CoreState.v
CoreStateOk.v
TransferLock.v
TxSet.v
TxSetProps.v
GasPool.v
Verifier.v
VerifierProps.v
CoreEvm.v
Concrete.v
EthashSizes.v
Hashimoto.v
HashimotoProps.v
StateCopy.v
Dao.v
Ethash.v
EthashProps.v
Clique.v
CliqueProps.v
FinaliseProps.v
StateDirty.v
StateDatabase.v
StateCommit.v
StateRoot.v
StateTransition.v
StateProcessor.v
StateProps.v
EvmProps.v
TransitionProps.v
