(* ===== verification/Prelude.v ===== *)
(** * A verification development for concurrent_geth

    The program is a fork of go-ethereum in which the miner executes the
    transactions of a block by several threads. The development models, as
    executable functions over [Z] and finite maps, the path of a transaction
    through it: the set the threads take it from, the signature that names its
    sender, the purchase of gas, the virtual machine with all its
    instructions, the state database with its journal, the Merkle Patricia
    tries and the database of their nodes, the receipt with its bloom filter,
    the header of a new block and the two consensus engines, what the block
    chain keeps of the tries, and the checker of the resulting history.
    Definitions have
    the names of the Go functions; where Go has methods of one name, the type
    comes first ([StateDB_GetBalance]).

    ** Conventions

    A [*big.Int] is a [Z]; a [uint64], [int64] or [int32] is a [Z] with its
    wrap-around written out ([u64], [i64], [i32]); a byte slice is a list of
    [Z]; a hash or an address is a [Z] of 256 or 160 bits. Code that can panic
    returns an [outcome]; code with state is in the monad [M S], and [wp] of
    this file is its weakest precondition. Go's error results are options or
    sums. Protocol constants of one line are abbreviations.

    Concurrency: [Schedule] has threads that take turns under an arbitrary
    schedule, one atomic operation (an atomic load or swap, an operation on a
    [sync.Map]) a step. The theorems about threads hold for every schedule.

    ** Files and sources

    - [Prelude] (this file), [Heap] (container/heap), [Schedule],
      [CommonMath] (common/math, common): outcomes, the monad, priority queues,
      threads, machine arithmetic.
    - [Params] (params/config.go, gas_table.go, protocol_params.go), [Opcodes]
      (core/vm/opcodes.go).
    - [Rlp], [RlpSpec] (rlp/encode.go, raw.go): the encoder and the splitter.
    - [StateIface] (core/vm/interface.go, crypto/crypto.go): the interface
      between the virtual machine and a state database: a class of operations
      and a class of laws that speak of worlds, the accounts a state stands
      for. [ConcreteCrypto] and [Concrete] are instances to run examples on.
    - [Transaction] (core/types/transaction.go, transaction_signing.go),
      [Receipt] (core/types/receipt.go, bloom9.go).
    - The virtual machine, core/vm: [Machine] (stack, memory, contract and
      jump analysis), [EvmTypes], [Precompiles] (contracts.go), [GasTable]
      (gas_table.go, memory_table.go, gas.go), [Instructions], [JumpTable],
      [Interpreter], [Evm] (evm.go). Calls and the interpreter call each
      other; the model ties the knot with fuel.
    - Its proofs: [GasProps], [InstrSpec], [EvmInv], [InstrSafe], [GasSafe],
      [PrecompileSafe], [CallSafe], [OpSafe], [TableSafe], [LoopSafe],
      [EvmProps].
    - The tries, trie/: [TrieKey] (encoding.go), [TrieNode] (node.go,
      errors.go), [Trie] (trie.go), [Hasher] (hasher.go), [TrieDatabase]
      (database.go, ethdb/memory_database.go), [TrieProof] (proof.go),
      [SecureTrie] (secure_trie.go). [TrieSpec] says which map a tree of nodes
      stands for, with nodes that are loaded on demand; [TrieProps],
      [TrieCodec], [HasherProps], [DatabaseProps] and [TrieCommit] are the
      proofs for one trie. [TrieStore], [TrieFlush] and [TrieGc] are those of
      the database with many: its structure, the writes to disk, and the
      counting of references. [TrieThreads] has the concurrent updates of one
      trie.
    - [ChainGc] (core/blockchain.go, common/prque): the tries the block chain
      keeps, flushes and collects. [GcDemo] runs it on two small tries.
    - The state database, core/state: [CoreState] (statedb.go,
      state_object.go, journal.go), [CoreStateOk] (its invariant and the
      worlds behind it), [StateProps], [FinaliseProps], [StateDirty] (which
      accounts are dirty at the end of a transaction), [StateCopy] (copies,
      and the states of the miner's threads), [StateDatabase] (database.go),
      [StateCommit] (commit and reopening), [StateRoot]. [CoreState] uses a
      trie through the class [Database]; [FinaliseProps] states the laws it
      needs as a class, which [StateDatabase] proves for the tries of trie/.
    - [CoreEvm] and [TransferLock] (core/evm.go): the context of a message,
      and the transfer that marks accounts as in use.
    - [GasPool] (core/gaspool.go), [StateTransition], [TransitionProps]
      (core/state_transition.go), [StateProcessor] (core/state_processor.go),
      [Dao] (params/dao.go, consensus/misc/dao.go).
    - The ethash engine, consensus/ethash: [EthashSizes] and [Hashimoto]
      (algorithm.go) with [HashimotoProps]; [Ethash] (consensus.go, the search
      of sealer.go, misc/forks.go, the gas limit of core/block_validator.go and
      the header of miner/worker.go) with [EthashProps].
    - The clique engine, consensus/clique: [Clique] (snapshot.go, the snapshots
      and seals of clique.go) with [CliqueProps].
    - [TxSet], [TxSetProps]: the shared set of transactions
      ([TransactionsByPriceAndNonce]) and the threads [txnWorker] of
      miner/worker.go that use it.
    - [Verifier], [VerifierProps] (concurrent/verifier): the record of the
      history and the checker.

    ** What is shown

    - State database: [state_refines_world], [revert_restores],
      [Finalise_persists], [Copy_faithful]. The objects, the dirty storage,
      the journal and the nested snapshots together implement a world with
      checkpoints, and what is written to the trie is read back.
    - Tries: [trie_is_map] (updates and look-ups are those of a finite map,
      whatever is in memory), [hash_of_contents] (the hash depends on nothing
      but the contents), [contents_of_hash] (and determines them),
      [Commit_reopens] (a committed trie is read back from its hash). A proof
      that is accepted is right ([VerifyProof_sound]) and the proofs that are
      made are accepted ([Prove_verifies]).
    - Database of nodes: [Commit_durable] (what is written to disk can be read
      without the memory), [Cap_keeps] (the flush of the oldest nodes loses
      nothing), [Dereference_safe] (a trie another reference keeps stays
      whole). They carry over to the chain: [recent_tries_readable] holds of
      every run of blocks, forks included, and [Stop_persists] of its end.
    - State root: [Commit_persists] (a committed state is read back from its
      root), [Finalise_order_irrelevant] (the root does not depend on the order
      of a Go map).
    - Virtual machine: [evm_finishes], [call_gas_bound], [no_funds_created],
      [failed_call_restores], [static_call_preserves], [loop_invariant]. They
      are proved against the interface of the state database, for all code
      and all nesting, and hold for the state database by its instance. Two
      panics are not excluded: that of the refund counter under EIP-1283, and
      a jump with the cached analysis of another program of the same hash.
      [instructions_compute] has the meaning of the instructions on words.
    - Transactions: [transition_accounts_gas], [transition_conserves_funds],
      [failed_message_only_pays], [IntrinsicGas_exact],
      [ApplyTransaction_receipt], [signed_sender].
    - Consensus: [verifyHeader_spec] (which headers are accepted),
      [mined_block_accepted] (those of the miner are), [dataset_agrees_with_cache]
      (full and light verification agree, whatever the goroutines do),
      [block_issuance] (what a block with uncles pays);
      [signers_change_by_majority], [signers_take_turns] and
      [snapshot_from_any_cache] (the cached snapshots do not matter) for clique.
    - Threads: [accounts_exclusive], [handed_in_order], [crash_only_in_Peek],
      [transfers_exclusive], [transfers_exact] (on one state),
      [transfers_finish], [gas_pool_exact], [gas_pool_lock_free],
      [history_recorded], [updates_serialized], [updates_finish].
    - Checker: [Verify_decides] says what it decides.
    - Some theorems show where the code does not do what it means to:
      [self_transfer_breaks_exclusion], [shared_trie_loses_payment],
      [Copy_loses_code], [Peek_races_with_Remove], [nonce_is_never_checked],
      [second_round_rejects], [finalise_panics_on_reverted_touch],
      [TryUpdate_returns_early], [TryGet_loses_update],
      [dataset_above_4GiB_is_empty], [full_small_block_rejected],
      [early_recent_signer_verified].

    ** Bounds and fuel

    A call on [gas] is given fuel above [gas]: every round of the interpreter
    loop and every nested call costs gas, so that the fuel is enough
    ([evm_finishes]). Gas is at most [MaxGas] = 2^60, above any block limit,
    so that sums of costs stay below 2^64. Encodings are shorter than 2^64
    bytes. The checker is treated for up to 63 transactions, whose
    denominators fit an int64. An operation on a trie is given fuel above the
    length of the key in nibbles: every step goes down by at least one, except
    for the load of a node, which is followed by one that does. A walk through
    the database goes down a chain of different nodes, and is given the number
    of the nodes in memory as fuel ([walk_fuel]); the theorems say that it
    ends. The mining dataset is treated up to the 4 GiB at which the offsets of
    its items wrap around. The search for a snapshot goes back at most to the
    genesis block.

    ** Not modelled

    The cryptographic primitives and the pairing curve are parameters with laws
    about the shape of their results; that the hash has no collisions among
    the nodes at hand is a hypothesis where it is needed. Tracing, logging,
    metrics and JSON are left out. Of the state database, iteration and proofs
    are not modelled; of the database of nodes, the errors of the disk; of the
    block chain, everything but the tries: the blocks, headers and receipts on
    disk, the insertion of chains and reorganisations; of the miner, channels,
    and timers; of the engines, remote sealing, the files of caches and
    snapshots, and the goroutines that verify many headers. The transaction
    pool, networking, accounts, RPC and the command line are not modelled: they
    are I/O, or goroutines around the parts above. *)

From stdpp Require Export base tactics numbers list gmap strings.
From Stdlib Require Export ZArith Lia.

(** The arithmetic of this development is over [Z]; every file opens the
    scope itself. *)
Local Open Scope Z_scope.

(** Splits conjunctions without unfolding definitions. *)
Ltac split_conj := repeat match goal with |- _ /\ _ => split end.

(** ** Outcomes of Go code

    A Go function either returns, panics (explicit [panic], an index out of
    range, a nil dereference, a failed type assertion) or, in the models that
    carry fuel, is cut off. *)
Abbreviation bytes := (list Z).

(** What a panic carries. [BadAnalysis code bits] is the index error of a look
    up in the jump destination analysis [bits] made for the program [code]; it
    is told apart from the other index errors because the analysis is cached
    under a hash of the program. *)
Inductive reason : Type :=
| Index
| NilDeref
| TypeAssertion
| Msg (m : string)
| BadAnalysis (code bits : bytes).

Inductive outcome (A : Type) : Type :=
| Ok (a : A)
| Panic (r : reason)
| OutOfFuel.
Arguments Ok {A} _.
Arguments Panic {A} _.
Arguments OutOfFuel {A}.

#[export] Instance outcome_ret : MRet outcome := fun A a => Ok a.
#[export] Instance outcome_bind : MBind outcome := fun A B f m =>
  match m with
  | Ok a => f a
  | Panic r => Panic r
  | OutOfFuel => OutOfFuel
  end.

(** Stateful code over a state [S] that may panic. *)
Definition M (S A : Type) : Type := S -> outcome (A * S).

#[export] Instance M_ret {S} : MRet (M S) := fun A a s => Ok (a, s).
#[export] Instance M_bind {S} : MBind (M S) := fun A B f m s =>
  match m s with
  | Ok (a, s') => f a s'
  | Panic r => Panic r
  | OutOfFuel => OutOfFuel
  end.

Definition gets {S A} (f : S -> A) : M S A := fun s => Ok (f s, s).
Definition modify {S} (f : S -> S) : M S unit := fun s => Ok (tt, f s).
Definition panic {S A} (r : reason) : M S A := fun _ => Panic r.
Definition out_of_fuel {S A} : M S A := fun _ => OutOfFuel.
(** [of_option r o] panics on [None]: the shape of an index or a map access that
    the code does not guard. *)
Definition of_option {S A} (r : reason) (o : option A) : M S A :=
  match o with Some a => mret a | None => panic r end.
(** Runs code of a component on its part of a larger state. *)
Definition zoom {S T A} (g : S -> T) (u : T -> S -> S) (m : M T A) : M S A :=
  fun s => match m (g s) with
           | Ok (a, t) => Ok (a, u t s)
           | Panic r => Panic r
           | OutOfFuel => OutOfFuel
           end.
Definition when {S} (b : bool) (m : M S unit) : M S unit :=
  if b then m else mret tt.

(** A call that returns a value and an error: [inl] is a non-nil error. The
    notation is the [if err != nil { return 0, err }] that follows such calls. *)
Definition ebind {S E A B} (m : M S (E + A)) (k : A -> M S (E + B)) : M S (E + B) :=
  m ≫= fun r => match r with inl e => mret (inl e) | inr a => k a end.

Declare Scope go_scope.
Delimit Scope go_scope with go.
Notation "x <~ m ; k" := (ebind m (fun x => k))
  (at level 100, m at level 90, k at level 200, right associativity,
   format "x  <~  m ; '//' k") : go_scope.

(** ** Weakest preconditions

    [wp PN FU m Q s]: run from [s], the code returns into [Q]; it panics only
    with a reason in [PN] and runs out of fuel only if [FU]. Total correctness
    is [wp never False]. *)
Definition never (r : reason) : Prop := False.
Definition wp {S A} (PN : reason -> Prop) (FU : Prop) (m : M S A) (Q : A -> S -> Prop) (s : S) : Prop :=
  match m s with
  | Ok (a, s') => Q a s'
  | Panic r => PN r
  | OutOfFuel => FU
  end.

Section wp_rules.
Context {S : Type} (PN : reason -> Prop) (FU : Prop).
Implicit Types s : S.

Lemma wp_ret {A} (a : A) Q s : Q a s -> wp PN FU (mret a) Q s.
Proof. done. Qed.

Lemma wp_bind {A B} (m : M S A) (f : A -> M S B) Q s :
  wp PN FU m (fun a s' => wp PN FU (f a) Q s') s -> wp PN FU (m ≫= f) Q s.
Proof. unfold wp, mbind, M_bind. by destruct (m s) as [[a s']| |]. Qed.

Lemma wp_mono {A} (m : M S A) (Q Q' : A -> S -> Prop) s :
  wp PN FU m Q s -> (forall a s', Q a s' -> Q' a s') -> wp PN FU m Q' s.
Proof. unfold wp. destruct (m s) as [[a s']| |]; auto. Qed.

Lemma wp_gets {A} (f : S -> A) Q s : Q (f s) s -> wp PN FU (gets f) Q s.
Proof. done. Qed.

Lemma wp_modify (f : S -> S) Q s : Q tt (f s) -> wp PN FU (modify f) Q s.
Proof. done. Qed.

Lemma wp_panic {A} r (Q : A -> S -> Prop) s : PN r -> wp PN FU (panic r) Q s.
Proof. done. Qed.

Lemma wp_of_option {A} r (o : option A) a Q s :
  o = Some a -> Q a s -> wp PN FU (of_option r o) Q s.
Proof. by intros ->. Qed.

Lemma wp_ebind {E A B} (m : M S (E + A)) (k : A -> M S (E + B)) Q s :
  wp PN FU m (fun r s' => match r with
                          | inl e => Q (inl e) s'
                          | inr a => wp PN FU (k a) Q s'
                          end) s ->
  wp PN FU (ebind m k) Q s.
Proof.
  intros H. apply wp_bind. eapply wp_mono; [exact H|].
  by intros [e|a] s' H'.
Qed.

Lemma wp_when (b : bool) (m : M S unit) Q s :
  (b = true -> wp PN FU m Q s) -> (b = false -> Q tt s) ->
  wp PN FU (when b m) Q s.
Proof. destruct b; [by auto|intros _ H; by apply H]. Qed.

Lemma wp_zoom {T A} (g : S -> T) (u : T -> S -> S) (m : M T A) Q s :
  wp PN FU m (fun a t => Q a (u t s)) (g s) -> wp PN FU (zoom g u m) Q s.
Proof. unfold wp, zoom. by destruct (m (g s)) as [[a t]| |]. Qed.
End wp_rules.

Lemma wp_ok_inv {S A} PN FU (m : M S A) Q s a s' :
  wp PN FU m Q s -> m s = Ok (a, s') -> Q a s'.
Proof. unfold wp. intros H Hm. by rewrite Hm in H. Qed.

Lemma wp_weaken {S A} (PN PN' : reason -> Prop) (FU FU' : Prop) (m : M S A) Q s :
  wp PN FU m Q s -> (forall r, PN r -> PN' r) -> (FU -> FU') -> wp PN' FU' m Q s.
Proof. unfold wp. destruct (m s) as [[a s']| |]; auto. Qed.

Arguments wp : simpl never.

(** ** Machine integers

    Go's [uint64], [int64], [uint8] are [Z] values kept in range by an explicit
    reduction at every operation that can leave it. *)
Definition MaxUint64 : Z := 2 ^ 64 - 1.
Definition u64 (x : Z) : Z := x mod 2 ^ 64.
Definition u8 (x : Z) : Z := x mod 256.
(** [int64(x)]: two's complement reinterpretation. *)
Definition i64 (x : Z) : Z :=
  let y := x mod 2 ^ 64 in if y <? 2 ^ 63 then y else y - 2 ^ 64.

Definition is_u64 (x : Z) : Prop := 0 <= x < 2 ^ 64.
Definition is_u256 (x : Z) : Prop := 0 <= x < 2 ^ 256.
Definition is_byte (x : Z) : Prop := 0 <= x < 256.

Lemma u8_id x : is_byte x -> u8 x = x.
Proof. apply Z.mod_small. Qed.
Lemma u64_id x : is_u64 x -> u64 x = x.
Proof. intros H. by apply Z.mod_small. Qed.
Lemma u64_range x : is_u64 (u64 x).
Proof. by apply Z.mod_pos_bound. Qed.
Lemma i64_id x : 0 <= x < 2 ^ 63 -> i64 x = x.
Proof.
  intros H. unfold i64. rewrite Z.mod_small by lia.
  case (Z.ltb_spec x (2 ^ 63)); lia.
Qed.

(** [big.Int.BitLen], [big.Int.Uint64] and [big.Int.Sign]. *)
Definition BitLen (x : Z) : Z := if x =? 0 then 0 else Z.log2 (Z.abs x) + 1.
Definition Uint64 (x : Z) : Z := u64 (Z.abs x).
Lemma Uint64_id x : is_u64 x -> Uint64 x = x.
Proof. intros Hx. unfold Uint64. rewrite Z.abs_eq by apply Hx. by apply u64_id. Qed.

Lemma BitLen_le x n : 0 <= n -> 0 <= x -> (BitLen x <= n <-> x < 2 ^ n).
Proof.
  intros Hn Hx. unfold BitLen. case (Z.eqb_spec x 0) as [->|Hne].
  - split; intros; [by apply Z.pow_pos_nonneg|lia].
  - rewrite Z.abs_eq by done. split; intros H.
    + apply Z.log2_lt_pow2; lia.
    + apply Z.log2_lt_pow2 in H; lia.
Qed.

Lemma div_mod_mul y p q : 0 < p -> 0 < q -> y mod (p * q) / p = (y / p) mod q.
Proof.
  intros. rewrite Z.rem_mul_r, (Z.mul_comm p), Z.add_comm, Z.div_add_l by lia.
  rewrite (Z.div_small (y mod p)) by (apply Z.mod_pos_bound; lia). lia.
Qed.
Lemma mod_mul_mod y p q : 0 < p -> 0 < q -> (y mod (p * q)) mod p = y mod p.
Proof.
  intros. rewrite Z.rem_mul_r, (Z.mul_comm p), Z.mod_add by lia. by rewrite Z.mod_mod by lia.
Qed.

(** ** Byte slices

    A [[]byte] is the list of its bytes; [len] is [zlen] and [l[a:b]] is
    [slice l a b], used only where the bounds hold. *)

Definition zlen {A} (l : list A) : Z := Z.of_nat (length l).
Definition slice {A} (l : list A) (a b : Z) : list A :=
  take (Z.to_nat (b - a)) (drop (Z.to_nat a) l).
(** [l[i]] with Go's bounds check. *)
Definition zindex {A} (l : list A) (i : Z) : option A :=
  if (0 <=? i) then l !! Z.to_nat i else None.
Definition zeros (n : Z) : bytes := replicate (Z.to_nat n) 0.
(** [copy(dst[off:off+n], src)]: the destination with [min n (len src)] bytes
    overwritten from [off] on. *)
Definition copy_at (dst : bytes) (off n : Z) (src : bytes) : bytes :=
  let src' := take (Z.to_nat n) src in
  take (Z.to_nat off) dst ++ src' ++ drop (Z.to_nat off + length src') dst.

Definition bytes_ok (l : bytes) : Prop := Forall is_byte l.

(** [big.Int.SetBytes] and the fixed-width big-endian encoding. *)
Definition be_dec (l : bytes) : Z := fold_left (fun acc b => acc * 256 + b) l 0.
Fixpoint be_enc (n : nat) (x : Z) : bytes :=
  match n with
  | O => []
  | S n' => (x / 256 ^ Z.of_nat n') mod 256 :: be_enc n' x
  end.
(** [big.Int.Bytes]: the shortest big-endian encoding of [|x|]. *)
Definition big_bytes (x : Z) : bytes :=
  be_enc (Z.to_nat ((BitLen x + 7) / 8)) (Z.abs x).

Lemma zlen_nonneg {A} (l : list A) : 0 <= zlen l.
Proof. unfold zlen. lia. Qed.
Lemma zlen_nil {A} : zlen (@nil A) = 0.
Proof. done. Qed.
Lemma zlen_app {A} (l k : list A) : zlen (l ++ k) = zlen l + zlen k.
Proof. unfold zlen. rewrite length_app. lia. Qed.
Lemma zlen_cons {A} (x : A) l : zlen (x :: l) = zlen l + 1.
Proof. unfold zlen. simpl. lia. Qed.
Lemma zlen_zeros n : 0 <= n -> zlen (zeros n) = n.
Proof. intros. unfold zlen, zeros. rewrite length_replicate. lia. Qed.
Lemma zlen_slice {A} (l : list A) a b :
  0 <= a -> a <= b -> b <= zlen l -> zlen (slice l a b) = b - a.
Proof. unfold zlen, slice. intros. rewrite length_take, length_drop. lia. Qed.
Lemma zlen_copy_at dst off n src :
  0 <= off -> 0 <= n -> off + n <= zlen dst -> zlen (copy_at dst off n src) = zlen dst.
Proof.
  unfold zlen, copy_at. intros.
  rewrite !length_app, length_take, length_drop, length_take. lia.
Qed.

Lemma bytes_ok_app l k : bytes_ok (l ++ k) <-> bytes_ok l /\ bytes_ok k.
Proof. apply Forall_app. Qed.
Lemma bytes_ok_take n l : bytes_ok l -> bytes_ok (take n l).
Proof. apply Forall_take. Qed.
Lemma bytes_ok_drop n l : bytes_ok l -> bytes_ok (drop n l).
Proof. apply Forall_drop. Qed.
Lemma bytes_ok_slice l a b : bytes_ok l -> bytes_ok (slice l a b).
Proof. intros. by apply bytes_ok_take, bytes_ok_drop. Qed.
Lemma bytes_ok_zeros n : bytes_ok (zeros n).
Proof. apply Forall_replicate. unfold is_byte. lia. Qed.
Lemma bytes_ok_copy_at dst off n src :
  bytes_ok dst -> bytes_ok src -> bytes_ok (copy_at dst off n src).
Proof.
  intros. unfold copy_at. rewrite !bytes_ok_app.
  auto using bytes_ok_take, bytes_ok_drop.
Qed.

Lemma pow256_succ n : 256 ^ Z.of_nat (S n) = 256 * 256 ^ Z.of_nat n.
Proof. rewrite Nat2Z.inj_succ, Z.pow_succ_r; lia. Qed.
Lemma pow256_pos n : 0 < 256 ^ Z.of_nat n.
Proof. apply Z.pow_pos_nonneg; lia. Qed.

Lemma length_be_enc n x : length (be_enc n x) = n.
Proof. induction n; simpl; congruence. Qed.
Lemma be_enc_ok n x : bytes_ok (be_enc n x).
Proof.
  induction n; constructor; [|done]. apply Z.mod_pos_bound. lia.
Qed.

Lemma be_dec_acc l acc :
  fold_left (fun a b => a * 256 + b) l acc = acc * 256 ^ Z.of_nat (length l) + be_dec l.
Proof.
  unfold be_dec. revert acc. induction l as [|b l IH]; intros acc; cbn [fold_left length].
  - change (256 ^ Z.of_nat 0) with 1. lia.
  - rewrite IH, (IH (0 * 256 + b)), pow256_succ. lia.
Qed.
Lemma be_dec_cons b l : be_dec (b :: l) = b * 256 ^ Z.of_nat (length l) + be_dec l.
Proof. unfold be_dec at 1. cbn [fold_left]. by rewrite be_dec_acc. Qed.
Lemma be_dec_app l k :
  be_dec (l ++ k) = be_dec l * 256 ^ Z.of_nat (length k) + be_dec k.
Proof. unfold be_dec at 1. by rewrite fold_left_app, be_dec_acc. Qed.

Lemma be_dec_bound l : bytes_ok l -> 0 <= be_dec l < 256 ^ Z.of_nat (length l).
Proof.
  induction 1 as [|b l Hb Hl IH]; [done|]. rewrite be_dec_cons. cbn [length].
  rewrite pow256_succ. unfold is_byte in Hb. nia.
Qed.

Lemma be_dec_zeros n : be_dec (replicate n 0) = 0.
Proof. induction n; [done|]. cbn [replicate]. rewrite be_dec_cons. lia. Qed.

Lemma be_dec_enc n x : be_dec (be_enc n x) = x mod 256 ^ Z.of_nat n.
Proof.
  induction n as [|n IH]; cbn [be_enc].
  - by rewrite Z.mod_1_r.
  - rewrite be_dec_cons, length_be_enc, IH, pow256_succ, (Z.mul_comm 256).
    pose proof (pow256_pos n). rewrite Z.rem_mul_r by lia. lia.
Qed.

Lemma be_enc_mod n x : be_enc n (x mod 256 ^ Z.of_nat n) = be_enc n x.
Proof.
  assert (forall m, (m <= n)%nat -> be_enc m (x mod 256 ^ Z.of_nat n) = be_enc m x) as H.
  { induction m as [|m IH]; intros Hm; [done|]. cbn [be_enc]. f_equal; [|apply IH; lia].
    replace n with (m + S (n - S m))%nat by lia.
    rewrite Nat2Z.inj_add, Z.pow_add_r by lia. pose proof (pow256_pos m).
    pose proof (pow256_pos (n - S m)).
    rewrite Z.rem_mul_r, pow256_succ by (rewrite ?pow256_succ; lia).
    rewrite Z.add_comm, (Z.mul_comm (256 ^ Z.of_nat m)), Z.div_add_l by lia.
    rewrite (Z.div_small (x mod _)) by (apply Z.mod_pos_bound; lia).
    rewrite Z.add_0_r, Z.rem_mul_r by lia.
    rewrite Z.mul_comm, Z.mod_add by lia. by rewrite Z.mod_mod by lia. }
  by apply H.
Qed.

Lemma be_enc_dec l : bytes_ok l -> be_enc (length l) (be_dec l) = l.
Proof.
  induction 1 as [|b l Hb Hl IH]; [done|]. pose proof (be_dec_bound l Hl).
  pose proof (pow256_pos (length l)).
  cbn [length be_enc]. rewrite be_dec_cons. f_equal.
  - rewrite Z.div_add_l, Z.div_small by lia. rewrite Z.add_0_r.
    apply Z.mod_small, Hb.
  - rewrite <- be_enc_mod, Z.add_comm, Z.mod_add by lia.
    by rewrite be_enc_mod.
Qed.

Lemma pow_256_2 n : 256 ^ Z.of_nat n = 2 ^ (8 * Z.of_nat n).
Proof. rewrite Z.pow_mul_r by lia. done. Qed.

Lemma length_big_bytes_le x n :
  0 <= x -> 0 <= n -> x < 2 ^ (8 * n) -> zlen (big_bytes x) <= n.
Proof.
  intros Hx Hn Hlt. unfold zlen, big_bytes. rewrite length_be_enc.
  apply BitLen_le in Hlt; [|lia..]. rewrite Z2Nat.id.
  - apply Z.lt_succ_r, Z.div_lt_upper_bound; lia.
  - apply Z.div_pos; [|lia]. unfold BitLen. case_match; pose proof (Z.log2_nonneg (Z.abs x)); lia.
Qed.

Lemma be_dec_big_bytes x : 0 <= x -> be_dec (big_bytes x) = x.
Proof.
  intros Hx. unfold big_bytes. rewrite be_dec_enc, Z.abs_eq by done.
  apply Z.mod_small. split; [done|]. rewrite pow_256_2.
  apply BitLen_le; [lia..|]. rewrite Z2Nat.id.
  - pose proof (Z.div_mod (BitLen x + 7) 8). pose proof (Z.mod_pos_bound (BitLen x + 7) 8). lia.
  - apply Z.div_pos; [|lia]. unfold BitLen. case_match; pose proof (Z.log2_nonneg (Z.abs x)); lia.
Qed.

Lemma be_enc_app n m x :
  be_enc (n + m) x = be_enc n (x / 256 ^ Z.of_nat m) ++ be_enc m x.
Proof.
  induction n as [|n IH]; [done|]. cbn [Nat.add be_enc app]. rewrite IH. f_equal.
  rewrite Nat2Z.inj_add, Z.add_comm, Z.pow_add_r by lia.
  pose proof (pow256_pos n). pose proof (pow256_pos m).
  by rewrite Z.div_div by lia.
Qed.
Lemma be_enc_snoc n x : be_enc (S n) x = be_enc n (x / 256) ++ [x mod 256].
Proof.
  replace (S n) with (n + 1)%nat by lia. rewrite be_enc_app. cbn [be_enc].
  change (256 ^ Z.of_nat 1) with 256. by rewrite Z.pow_0_r, Z.div_1_r.
Qed.
Lemma be_enc_0 n : be_enc n 0 = replicate n 0.
Proof. induction n as [|n IH]; [done|]. cbn [be_enc replicate]. by rewrite IH, Z.div_0_l by (pose proof (pow256_pos n); lia). Qed.
Lemma be_enc_mod_le k n x :
  (k <= n)%nat -> be_enc k (x mod 256 ^ Z.of_nat n) = be_enc k x.
Proof.
  intros Hk. rewrite <- be_enc_mod, <- (be_enc_mod k x). f_equal.
  replace n with (k + (n - k))%nat by lia. rewrite Nat2Z.inj_add, Z.pow_add_r by lia.
  pose proof (pow256_pos k). pose proof (pow256_pos (n - k)).
  rewrite Z.rem_mul_r by lia. rewrite (Z.mul_comm (256 ^ Z.of_nat k)), Z.mod_add by lia.
  by rewrite Z.mod_mod by lia.
Qed.
Lemma be_enc_small k n x :
  0 <= x < 256 ^ Z.of_nat k -> (k <= n)%nat ->
  be_enc n x = replicate (n - k) 0 ++ be_enc k x.
Proof.
  intros Hx Hk. replace n with ((n - k) + k)%nat at 1 by lia.
  by rewrite be_enc_app, Z.div_small, be_enc_0 by lia.
Qed.
