(* ===== verification/Heap.v ===== *)
(** * container/heap

    The binary heaps of Go's [container/heap] over a list, which the set of
    transactions of the miner and the priority queue of [common/prque] use.
    Building a heap, [Push] and [Pop] keep the elements and the order of the
    heap; [Pop] gives an element that none comes before. *)

From stdpp Require Import prelude.
From S2P Require Import Prelude.

Section heap.
Context {A : Type} (Less : A -> A -> bool).

Definition heap_swap (i j : nat) (h : list A) : list A :=
  match h !! i, h !! j with
  | Some x, Some y => <[j := x]> (<[i := y]> h)
  | _, _ => h
  end.
Definition heap_less (h : list A) (i j : nat) : bool :=
  match h !! i, h !! j with Some x, Some y => Less x y | _, _ => false end.
(** Every round at least doubles the index, so the length bounds the rounds. *)
Fixpoint heap_down (fuel : nat) (i n : nat) (h : list A) : list A :=
  match fuel with
  | O => h
  | S fuel' =>
      let j1 := (2 * i + 1)%nat in
      if (n <=? j1)%nat then h
      else
        let j2 := (j1 + 1)%nat in
        let j := if (j2 <? n)%nat && heap_less h j2 j1 then j2 else j1 in
        if negb (heap_less h j i) then h
        else heap_down fuel' j n (heap_swap i j h)
  end.
Definition heap_Init (h : list A) : list A :=
  let n := length h in
  fold_left (fun h i => heap_down n i n h) (rev (seq 0 (n / 2))) h.
(** The parent of the first element is itself: Go divides towards zero. *)
Fixpoint heap_up (fuel : nat) (j : nat) (h : list A) : list A :=
  match fuel with
  | O => h
  | S fuel' =>
      let i := ((j - 1) / 2)%nat in
      if (i =? j)%nat || negb (heap_less h j i) then h else heap_up fuel' i (heap_swap i j h)
  end.
Definition heap_Push (x : A) (h : list A) : list A :=
  let h := h ++ [x] in heap_up (length h) (length h - 1) h.
Definition heap_Pop (h : list A) : option (A * list A) :=
  let n := (length h - 1)%nat in
  let h := heap_down n 0 n (heap_swap 0 n h) in
  match last h with Some x => Some (x, take n h) | None => None end.

(** ** The elements stay *)

Lemma heap_swap_perm i j h : heap_swap i j h ≡ₚ h.
Proof. unfold heap_swap. destruct (h !! i) as [x|] eqn:Hx; [|done]. destruct (h !! j) eqn:Hy; [|done]. by apply Permutation_insert_swap. Qed.
Lemma heap_down_perm fuel i n h : heap_down fuel i n h ≡ₚ h.
Proof.
  revert i h. induction fuel as [|fuel IH]; intros i h; cbn [heap_down]; [done|].
  destruct (n <=? _)%nat; [done|]. destruct (negb _); [done|]. by rewrite IH, heap_swap_perm.
Qed.
Lemma heap_Init_perm h : heap_Init h ≡ₚ h.
Proof.
  unfold heap_Init. cbn zeta. generalize (length h) as n. intros n. generalize (rev (seq 0 (n / 2))) as l.
  intros l. revert h. induction l as [|i l IH]; intros h; cbn [fold_left]; [done|]. by rewrite IH, heap_down_perm.
Qed.
Lemma heap_up_perm fuel j h : heap_up fuel j h ≡ₚ h.
Proof.
  revert j h. induction fuel as [|fuel IH]; intros j h; cbn [heap_up]; [done|]. destruct (_ || _); [done|]. by rewrite IH, heap_swap_perm.
Qed.
Lemma heap_Push_perm x h : heap_Push x h ≡ₚ x :: h.
Proof. unfold heap_Push. rewrite heap_up_perm. symmetry. apply Permutation_cons_append. Qed.

(** ** The order *)

Lemma swap_lookup i j x y h k : h !! i = Some x -> h !! j = Some y ->
  heap_swap i j h !! k = if decide (k = j) then Some x else if decide (k = i) then Some y else h !! k.
Proof.
  intros Hx Hy. unfold heap_swap. rewrite Hx, Hy. destruct (decide (k = j)) as [->|Hj].
  - apply list_lookup_insert_eq. rewrite length_insert. by apply lookup_lt_Some in Hy.
  - rewrite list_lookup_insert_ne by done. destruct (decide (k = i)) as [->|Hi]; [apply list_lookup_insert_eq; by apply lookup_lt_Some in Hx|by rewrite list_lookup_insert_ne].
Qed.
Definition below (p c : nat) : Prop := (c = 2 * p + 1 \/ c = 2 * p + 2)%nat.
Lemma below_parent j : (0 < j)%nat -> below ((j - 1) / 2) j.
Proof. intros Hj. unfold below. pose proof (Nat.div_mod_eq (j - 1) 2). pose proof (Nat.mod_upper_bound (j - 1) 2). lia. Qed.

(** The elements for which [Less] is an order. *)
Context (P : A -> Prop).
Definition before (x y : A) : Prop := Less y x = false.
Context (Less_asym : forall x y, P x -> P y -> Less x y = true -> Less y x = false).
Context (Less_trans : forall x y z, P x -> P y -> P z -> before x y -> before y z -> before x z).

Lemma before_refl x : P x -> before x x.
Proof. intros Hx. unfold before. destruct (Less x x) eqn:Hxx; [|done]. by rewrite <- Hxx, (Less_asym x x Hx Hx Hxx). Qed.

(** The first [n] elements are a heap from the index [lo] on, but for the edges
    below [hole]. *)
Definition heap_but (hole : option nat) (lo n : nat) (h : list A) : Prop := forall p c x y,
  below p c -> (lo <= p)%nat -> (c < n)%nat -> hole <> Some p -> h !! c = Some x -> h !! p = Some y -> before y x.
Definition heap_ok (h : list A) : Prop := heap_but None 0 (length h) h.
(** What is below the hole may be put in its place. *)
Definition hole_ok (i lo n : nat) (h : list A) : Prop := forall q c x y,
  below i c -> below q i -> (lo <= q)%nat -> (c < n)%nat -> h !! c = Some x -> h !! q = Some y -> before y x.

Lemma in_heap h n k : Forall P h -> (n <= length h)%nat -> (k < n)%nat -> exists x, h !! k = Some x /\ P x.
Proof. intros HP Hn Hk. destruct (lookup_lt_is_Some_2 h k) as [x Hx]; [lia|]. exists x. split; [done|]. rewrite Forall_lookup in HP. by apply (HP k). Qed.
(** The child that comes first. *)
Definition first_child (i n : nat) (h : list A) : nat :=
  if (2 * i + 1 + 1 <? n)%nat && heap_less h (2 * i + 1 + 1) (2 * i + 1) then (2 * i + 1 + 1)%nat else (2 * i + 1)%nat.
Lemma first_child_ok i n h : Forall P h -> (n <= length h)%nat -> (2 * i + 1 < n)%nat ->
  below i (first_child i n h) /\ (first_child i n h < n)%nat /\
  exists xj, h !! first_child i n h = Some xj /\ P xj /\ forall c x, below i c -> (c < n)%nat -> h !! c = Some x -> before xj x.
Proof.
  intros HP Hn Hlt. destruct (in_heap h n (2 * i + 1) HP Hn) as (x1 & H1 & HP1); [lia|].
  unfold first_child, heap_less, below. rewrite H1. destruct (Nat.ltb_spec (2 * i + 1 + 1) n) as [H2n|H2n]; cbn [andb].
  - destruct (in_heap h n (2 * i + 1 + 1) HP Hn) as (x2 & H2 & HP2); [lia|]. rewrite H2.
    assert (forall c x, c = (2 * i + 2)%nat -> h !! c = Some x -> x = x2) as H22 by (intros c x ->; replace (2 * i + 2)%nat with (2 * i + 1 + 1)%nat by lia; congruence).
    destruct (Less x2 x1) eqn:Hl; (split; [lia|]; split; [lia|]).
    + exists x2. split; [done|]. split; [done|]. intros c x [->|Hc] _ Hx; [rewrite H1 in Hx; injection Hx as <-; by apply Less_asym|]. rewrite (H22 c x Hc Hx). by apply before_refl.
    + exists x1. split; [done|]. split; [done|]. intros c x [->|Hc] _ Hx; [rewrite H1 in Hx; injection Hx as <-; by apply before_refl|]. by rewrite (H22 c x Hc Hx).
  - split; [lia|]. split; [lia|]. exists x1. split; [done|]. split; [done|]. intros c x [->| ->] Hc' Hc; [|lia]. rewrite H1 in Hc. injection Hc as <-. by apply before_refl.
Qed.
Lemma down_ok fuel : forall i lo n h, Forall P h -> (n <= length h)%nat -> (n - i <= fuel)%nat -> (lo <= i)%nat ->
  heap_but (Some i) lo n h -> hole_ok i lo n h -> heap_but None lo n (heap_down fuel i n h).
Proof.
  induction fuel as [|fuel IH]; intros i lo n h HP Hn Hf Hlo Hb Hh; cbn [heap_down].
  { intros p c x y Hpc Hp Hc _. apply (Hb p c); try done. intros [= ->]. destruct Hpc; lia. }
  destruct (Nat.leb_spec n (2 * i + 1)) as [Hle|Hlt].
  { intros p c x y Hpc Hp Hc _. apply (Hb p c); try done. intros [= ->]. destruct Hpc; lia. }
  destruct (in_heap h n i HP Hn) as (xi & Hi & HPi); [lia|]. fold (first_child i n h).
  destruct (first_child_ok i n h HP Hn Hlt) as (Hij & Hjn & xj & Hj & HPj & Hmax). set (j := first_child i n h) in *.
  pose proof HP as HPs. rewrite Forall_lookup in HPs.
  unfold heap_less at 1. rewrite Hj, Hi. destruct (Less xj xi) eqn:Hl; cbn [negb].
  2:{ intros p c x y Hpc Hp Hc _ Hx Hy. destruct (decide (p = i)) as [->|Hne]; [|apply (Hb p c); try done; congruence]. rewrite Hi in Hy. injection Hy as <-.
      apply (Less_trans xi xj x); try done; [by apply (HPs c)|by apply (Hmax c)]. }
  assert (i <> j) as Hne by (destruct Hij; lia).
  apply IH; [by rewrite heap_swap_perm|by rewrite heap_swap_perm|destruct Hij; lia|destruct Hij; lia| |].
  - intros p c x y Hpc Hp Hc Hpj. rewrite !(swap_lookup i j xi xj) by done. destruct (decide (p = j)) as [->|_]; [done|].
    destruct (decide (p = i)) as [->|Hpi].
    + intros Hx [= <-]. destruct (decide (c = j)) as [->|Hcj]; [injection Hx as <-; by apply Less_asym|]. rewrite decide_False in Hx by (destruct Hpc; lia). by apply (Hmax c).
    + rewrite (decide_False (P := c = j)) by (intros ->; apply Hpi; destruct Hpc, Hij; lia). intros Hx Hy. destruct (decide (c = i)) as [->|Hci]; [|apply (Hb p c); try done; congruence].
      injection Hx as <-. by apply (Hh p j).
  - intros q c x y Hjc Hqj Hq Hc. rewrite !(swap_lookup i j xi xj) by done. assert (q = i) as -> by (destruct Hqj, Hij; lia).
    rewrite (decide_False (P := c = j)), (decide_False (P := c = i)), (decide_False (P := i = j)), (decide_True (P := i = i)) by (try done; destruct Hjc, Hij; lia).
    intros Hx [= <-]. apply (Hb j c); try done; congruence || (destruct Hij; lia).
Qed.
Lemma heap_Init_ok h : Forall P h -> heap_ok (heap_Init h).
Proof.
  intros HP. unfold heap_Init, heap_ok. set (n := length h).
  assert (forall n m h, Forall P h -> length h = n -> heap_but None m n h -> heap_but None 0 n (fold_left (fun h i => heap_down n i n h) (rev (seq 0 m)) h)) as Hall.
  { clear n h HP. intros n. induction m as [|m IH]; intros h HP Hl Hb; [done|]. rewrite seq_S, rev_app_distr. cbn [rev app fold_left]. apply IH; [by rewrite heap_down_perm|by rewrite heap_down_perm|].
    apply down_ok; try done; [lia..| |].
    - intros p c x y Hpc Hp Hc Hne. apply (Hb p c); try done. assert (p <> m) by (by intros ->). lia.
    - intros q c x y _ Hq Hlo. destruct Hq; lia. }
  assert (length (fold_left (fun h i => heap_down n i n h) (rev (seq 0 (n / 2))) h) = n) as Hlen.
  { change (length (heap_Init h) = n). by rewrite heap_Init_perm. }
  cbv zeta. rewrite Hlen. apply Hall; [done..|]. intros p c x y Hpc Hp Hc. pose proof (Nat.div_mod_eq n 2). pose proof (Nat.mod_upper_bound n 2). destruct Hpc; lia.
Qed.

Lemma up_ok fuel : forall j h, Forall P h -> (j < length h)%nat -> (j <= fuel)%nat ->
  (forall p c x y, below p c -> c <> j -> h !! c = Some x -> h !! p = Some y -> before y x) ->
  (forall q c x y, below j c -> below q j -> h !! c = Some x -> h !! q = Some y -> before y x) -> heap_ok (heap_up fuel j h).
Proof.
  induction fuel as [|fuel IH]; intros j h HP Hj Hf Hb Hh; cbn [heap_up].
  { intros p c x y Hpc _ _ _. apply (Hb p c); [done|]. destruct Hpc; lia. }
  destruct (Nat.eqb_spec ((j - 1) / 2) j) as [Hij|Hij]; cbn [orb].
  { intros p c x y Hpc _ _ _. apply (Hb p c); [done|]. assert (j = 0)%nat by (destruct (decide (0 < j)%nat) as [H0|]; [destruct (below_parent j H0); lia|lia]). destruct Hpc; lia. }
  assert (0 < j)%nat as H0 by (destruct j; [done|lia]). pose proof (below_parent j H0) as Hbelow. set (i := ((j - 1) / 2)%nat) in *.
  assert (i < j)%nat as Hlt by (destruct Hbelow; lia). pose proof HP as HPs. rewrite Forall_lookup in HPs.
  destruct (in_heap h (length h) i HP) as (xi & Hi & HPi); [lia..|]. destruct (in_heap h (length h) j HP) as (xj & Hxj & HPj); [lia..|].
  unfold heap_less. rewrite Hi, Hxj. destruct (Less xj xi) eqn:Hl; cbn [negb].
  2:{ intros p c x y Hpc _ _ _ Hx Hy. destruct (decide (c = j)) as [->|Hne]; [|by apply (Hb p c)]. assert (p = i) as -> by (destruct Hpc, Hbelow; lia). congruence. }
  assert (before xj xi) as Hji by (by apply Less_asym).
  apply IH; [by rewrite heap_swap_perm|rewrite heap_swap_perm; lia|lia| |].
  - intros p c x y Hpc Hci. rewrite !(swap_lookup i j xi xj) by done. rewrite (decide_False (P := c = i)) by done. intros Hx Hy.
    destruct (decide (p = j)) as [->|Hpj].
    { injection Hy as <-. rewrite decide_False in Hx by (destruct Hpc; lia). by apply (Hh i c). }
    destruct (decide (p = i)) as [->|Hpi].
    + injection Hy as <-. destruct (decide (c = j)) as [->|Hcj]; [congruence|]. apply (Less_trans xj xi x); try done; [by apply (HPs c)|by apply (Hb i c)].
    + rewrite decide_False in Hx by (intros ->; destruct Hpc, Hbelow; lia). apply (Hb p c); try done. intros ->. destruct Hpc, Hbelow; lia.
  - intros q c x y Hic Hqi. rewrite !(swap_lookup i j xi xj) by done.
    rewrite (decide_False (P := q = j)), (decide_False (P := q = i)), (decide_False (P := c = i)) by (destruct Hqi, Hic; lia). intros Hx Hy.
    assert (before y xi) as Hyi by (apply (Hb q i); try done; lia). destruct (decide (c = j)) as [->|Hcj]; [congruence|].
    apply (Less_trans y xi x); try done; [by apply (HPs q)|by apply (HPs c)|by apply (Hb i c)].
Qed.
Lemma heap_Push_ok x h : P x -> Forall P h -> heap_ok h -> heap_ok (heap_Push x h).
Proof.
  intros Hx HP Hh. unfold heap_Push. rewrite length_app. cbn. replace (length h + 1 - 1)%nat with (length h) by lia.
  apply up_ok; [apply Forall_app; by split; [|constructor]|rewrite length_app; cbn; lia|lia| |].
  - intros p c y z Hpc Hc Hy Hz. assert (c < length h)%nat as Hlt by (apply lookup_lt_Some in Hy; rewrite length_app in Hy; cbn in Hy; lia).
    rewrite lookup_app_l in Hy by done. rewrite lookup_app_l in Hz by (destruct Hpc; lia). by apply (Hh p c); [done|lia|done..].
  - intros q c y z Hc _ Hy. apply lookup_lt_Some in Hy. rewrite length_app in Hy. cbn in Hy. destruct Hc; lia.
Qed.

(** Nothing comes before the first element. *)
Lemma heap_top h x : Forall P h -> heap_ok h -> h !! 0%nat = Some x -> forall y, y ∈ h -> before x y.
Proof.
  intros HP Hh Hx y [k Hk]%list_elem_of_lookup. pose proof HP as HPs. rewrite Forall_lookup in HPs. revert y Hk.
  induction (lt_wf k) as [k _ IH]; intros y Hk. destruct (decide (0 < k)%nat) as [H0|H0]; [|assert (k = 0)%nat as -> by lia; rewrite Hx in Hk; injection Hk as <-; apply before_refl; by apply (HPs 0%nat)].
  pose proof (below_parent k H0) as Hb. apply lookup_lt_Some in Hk as Hlt. destruct (in_heap h (length h) ((k - 1) / 2) HP) as (z & Hz & HPz); [lia|destruct Hb; lia|].
  apply (Less_trans x z y); [by apply (HPs 0%nat)|done|by apply (HPs k)|apply (IH ((k - 1) / 2)%nat); [destruct Hb; lia|done]|]. by apply (Hh ((k - 1) / 2)%nat k); [done|lia|done..].
Qed.
Lemma heap_down_above fuel : forall i n h k, (i < n <= length h)%nat -> (n <= k)%nat -> heap_down fuel i n h !! k = h !! k.
Proof.
  induction fuel as [|fuel IH]; intros i n h k Hi Hk; [done|]. cbn [heap_down]. destruct (Nat.leb_spec n (2 * i + 1)) as [|Hlt]; [done|]. fold (first_child i n h).
  assert (first_child i n h < n)%nat as Hj by (unfold first_child; destruct (Nat.ltb_spec (2 * i + 1 + 1) n); cbn [andb]; [destruct (heap_less _ _ _)|]; lia).
  destruct (negb _); [done|]. rewrite IH by (rewrite ?heap_swap_perm; lia). unfold heap_swap. destruct (h !! i) as [x|]; [|done]. destruct (h !! first_child i n h); [|done].
  by rewrite !list_lookup_insert_ne by lia.
Qed.
Lemma heap_Pop_ok x h : Forall P (x :: h) -> heap_ok (x :: h) ->
  exists h', heap_Pop (x :: h) = Some (x, h') /\ h' ≡ₚ h /\ heap_ok h' /\ forall y, y ∈ h -> before x y.
Proof.
  intros HP Hh. unfold heap_Pop. cbn [length]. replace (S (length h) - 1)%nat with (length h) by lia. set (n := length h).
  set (h1 := heap_swap 0 n (x :: h)). set (h2 := heap_down n 0 n h1).
  assert (length h1 = S n) as Hl1 by (unfold h1; by rewrite heap_swap_perm). assert (length h2 = S n) as Hl2 by (unfold h2; by rewrite heap_down_perm).
  destruct (in_heap (x :: h) (S n) n HP) as (xn & Hxn & HPn); [done|lia|].
  assert (h1 !! n = Some x) as H1n by (unfold h1; rewrite (swap_lookup 0 n x xn) by done; by rewrite decide_True).
  assert (h2 !! n = Some x) as H2n by (unfold h2; destruct (decide (n = 0)%nat) as [->|]; [done|]; rewrite heap_down_above by lia; done).
  assert (h2 = take n h2 ++ [x]) as Hsplit by (rewrite <- (take_drop n h2) at 1; f_equal; rewrite (drop_S _ x n H2n); f_equal; apply drop_ge; lia).
  assert (last h2 = Some x) as Hlast by (rewrite Hsplit; apply last_snoc). rewrite Hlast. exists (take n h2). split; [done|].
  assert (take n h2 ≡ₚ h) as Hp.
  { apply (Permutation_cons_inv (a := x)). rewrite Permutation_cons_append, <- Hsplit. unfold h2, h1. by rewrite heap_down_perm, heap_swap_perm. }
  split; [done|]. split; [|intros y Hy; by apply (heap_top (x :: h)); [done..|right]].
  assert (heap_but None 0 n h2) as Hb2.
  { apply down_ok; [unfold h1; by rewrite heap_swap_perm|lia..| |].
    - intros p c y z Hpc _ Hc Hne. unfold h1. rewrite !(swap_lookup 0 n x xn) by done. assert (p <> 0%nat) by (by intros ->).
      rewrite (decide_False (P := c = n)), (decide_False (P := c = 0%nat)), (decide_False (P := p = n)), (decide_False (P := p = 0%nat)) by (destruct Hpc; lia).
      intros Hy Hz. apply (Hh p c); try done; [lia|]. cbn. fold n. lia.
    - intros q c y z _ Hq. destruct Hq; lia. }
  intros p c y z Hpc Hp0 Hc _ Hy Hz. assert (c < n)%nat as Hcn by (apply lookup_lt_Some in Hy; rewrite length_take in Hy; lia).
  rewrite lookup_take_lt in Hy, Hz by (destruct Hpc; lia). by apply (Hb2 p c).
Qed.
End heap.
