(* ===== verification/Schedule.v ===== *)
(** * Threads under a schedule

    A configuration is a list of threads and the memory they share; a schedule
    says which thread takes the next atomic step. The component files give the
    step function of a thread; here are the runs, induction over them, and the
    sums over threads their invariants need. *)

From S2P Require Import Prelude.
Local Open Scope Z_scope.

Section schedules.
Context {T Sh : Type} (step : T -> Sh -> option (T * Sh)).

Definition config : Type := list T * Sh.
Definition step_thread (i : nat) (c : config) : option config :=
  match c.1 !! i with
  | None => None
  | Some t =>
      match step t c.2 with
      | None => None
      | Some (t', m') => Some (<[i := t']> c.1, m')
      end
  end.
Fixpoint run_schedule (sched : list nat) (c : config) : option config :=
  match sched with
  | [] => Some c
  | i :: sched' => match step_thread i c with Some c' => run_schedule sched' c' | None => None end
  end.

Lemma step_thread_inv i c c' :
  step_thread i c = Some c' ->
  exists t t' m', c.1 !! i = Some t /\ step t c.2 = Some (t', m') /\ c' = (<[i := t']> c.1, m').
Proof.
  unfold step_thread. intros Hst. destruct (c.1 !! i) as [t|]; [|done].
  destruct (step t c.2) as [[t' m']|] eqn:He; [|done]. injection Hst as <-. by exists t, t', m'.
Qed.
Lemma step_thread_intro i ts m t t' m' :
  ts !! i = Some t -> step t m = Some (t', m') -> step_thread i (ts, m) = Some (<[i := t']> ts, m').
Proof. intros Hi Hs. unfold step_thread. cbn [fst snd]. by rewrite Hi, Hs. Qed.

Lemma run_schedule_app s1 s2 c :
  run_schedule (s1 ++ s2) c = match run_schedule s1 c with Some c' => run_schedule s2 c' | None => None end.
Proof.
  revert c. induction s1 as [|i s1 IH]; intros c; cbn; [done|]. destruct (step_thread i c); [apply IH|done].
Qed.

(** What every step keeps, a run keeps. *)
Lemma run_schedule_ind (P : config -> Prop) :
  (forall i c t t' m', P c -> c.1 !! i = Some t -> step t c.2 = Some (t', m') -> P (<[i := t']> c.1, m')) ->
  forall sched c c', P c -> run_schedule sched c = Some c' -> P c'.
Proof.
  intros Hstep sched. induction sched as [|i sched IH]; intros c c' Hc Hr; cbn in Hr; [by simplify_eq|].
  destruct (step_thread i c) as [c1|] eqn:Hst; [|done]. eapply IH; [|done].
  apply step_thread_inv in Hst as (t & t' & m' & Hi & Ht & ->). by apply (Hstep i c t).
Qed.
End schedules.
Arguments config : clear implicits.

(** ** Sums over threads *)

Section sums.
Context {T : Type}.
Implicit Types (ts : list T) (f : T -> Z) (n : T -> nat).

Fixpoint zsum f ts : Z := match ts with [] => 0 | t :: ts' => f t + zsum f ts' end.
Fixpoint nsum n ts : nat := match ts with [] => O | t :: ts' => (n t + nsum n ts')%nat end.

Lemma zsum_insert f ts i t t' : ts !! i = Some t -> zsum f (<[i := t']> ts) = zsum f ts + (f t' - f t).
Proof.
  revert i. induction ts as [|u ts IH]; intros [|i] Hi; [done|done|injection Hi as ->; cbn; lia|].
  change (f u + zsum f (<[i := t']> ts) = f u + zsum f ts + (f t' - f t)). rewrite (IH i Hi). lia.
Qed.
Lemma nsum_insert n ts i t t' : ts !! i = Some t -> (nsum n (<[i := t']> ts) + n t = nsum n ts + n t')%nat.
Proof.
  revert i. induction ts as [|u ts IH]; intros [|i] Hi; [done|done|injection Hi as ->; cbn; lia|].
  change ((n u + nsum n (<[i := t']> ts)) + n t = (n u + nsum n ts) + n t')%nat. specialize (IH i Hi). lia.
Qed.
Lemma zsum_app f ts ts' : zsum f (ts ++ ts') = zsum f ts + zsum f ts'.
Proof. induction ts as [|t ts IH]; cbn; [done|]. rewrite IH. lia. Qed.
Lemma nsum_app n ts ts' : nsum n (ts ++ ts') = (nsum n ts + nsum n ts')%nat.
Proof. induction ts as [|t ts IH]; cbn; [done|]. rewrite IH. lia. Qed.
Lemma nsum_pos n ts : (0 < nsum n ts)%nat -> exists i t, ts !! i = Some t /\ (0 < n t)%nat.
Proof.
  induction ts as [|u ts IH]; cbn; [lia|]. intros Hp. destruct (decide (0 < n u)%nat) as [Hu|Hu].
  - by exists O, u.
  - destruct IH as (i & t & Hi & Ht); [lia|]. by exists (S i), t.
Qed.
Lemma nsum_zero n ts i t : nsum n ts = O -> ts !! i = Some t -> n t = O.
Proof.
  revert i. induction ts as [|u ts IH]; intros [|i] Hz Hi; cbn in *; [done|done|simplify_eq; lia|].
  eapply IH; [lia|done].
Qed.
Lemma zsum_ext f g ts : Forall (fun t => f t = g t) ts -> zsum f ts = zsum g ts.
Proof. induction 1 as [|t ts Ht _ IH]; cbn; [done|]. by rewrite Ht, IH. Qed.
Lemma zsum_zero f ts : Forall (fun t => f t = 0) ts -> zsum f ts = 0.
Proof. induction 1 as [|t ts Ht _ IH]; cbn; lia. Qed.
Lemma zsum_nonneg f ts : Forall (fun t => 0 <= f t) ts -> 0 <= zsum f ts.
Proof. induction 1 as [|t ts Ht _ IH]; cbn; lia. Qed.
Lemma zsum_lookup f ts i t : Forall (fun t => 0 <= f t) ts -> ts !! i = Some t -> f t <= zsum f ts.
Proof.
  intros Hf. revert i. induction Hf as [|u ts Hu Hts IH]; intros [|i] Hi; cbn in *; [done|done| |].
  - injection Hi as ->. pose proof (zsum_nonneg f ts Hts). lia.
  - specialize (IH i Hi). lia.
Qed.
End sums.

(** An invariant with a measure of the threads that every step decreases: it
    bounds the length of a run. *)
Lemma run_schedule_bound {T Sh} (step : T -> Sh -> option (T * Sh)) (P : config T Sh -> Prop) (w : T -> nat) :
  (forall i c t t' m', P c -> c.1 !! i = Some t -> step t c.2 = Some (t', m') -> P (<[i := t']> c.1, m') /\ (w t' < w t)%nat) ->
  forall sched c c', P c -> run_schedule step sched c = Some c' -> P c' /\ (length sched + nsum w c'.1 <= nsum w c.1)%nat.
Proof.
  intros Hstep sched. induction sched as [|i sched IH]; intros c c' Hc Hr; cbn in Hr; [by injection Hr as <-|].
  destruct (step_thread step i c) as [c1|] eqn:Hst; [|done]. apply step_thread_inv in Hst as (t & t' & m' & Hi & Ht & ->).
  destruct (Hstep i c t t' m' Hc Hi Ht) as [Hc' Hw]. destruct (IH _ _ Hc' Hr) as [HP Hle]. split; [done|].
  pose proof (nsum_insert w c.1 i t t' Hi). cbn in *. lia.
Qed.
