(* ===== verification/CommonMath.v ===== *)
(** * Shared integer, byte and hash helpers

    Models [common/math/integer.go], [common/math/big.go], the padding helpers
    of [common/bytes.go], the hash and address conversions of
    [common/types.go] and [core/vm/common.go].

    A [*big.Int] is a [Z]. A [common.Hash] ([[32]byte]) and a
    [common.Address] ([[20]byte]) are the unsigned integers their bytes spell
    in big-endian order. [big.Word] has 64 bits. *)

From S2P Require Import Prelude.
Local Open Scope Z_scope.

Abbreviation Hash := Z (only parsing).
Abbreviation Address := Z (only parsing).

Definition is_hash (h : Hash) : Prop := 0 <= h < 2 ^ 256.
Definition is_address (a : Address) : Prop := 0 <= a < 2 ^ 160.

(** ** common/math/integer.go *)

(** Each returns the wrapped result and whether it overflowed. *)
Definition SafeSub (x y : Z) : Z * bool := (u64 (x - y), x <? y).
Definition SafeAdd (x y : Z) : Z * bool := (u64 (x + y), MaxUint64 - x <? y).
Definition SafeMul (x y : Z) : Z * bool :=
  if (x =? 0) || (y =? 0) then (0, false) else (u64 (x * y), MaxUint64 / x <? y).

(** ** common/math/big.go *)

Abbreviation tt255 := (2 ^ 255) (only parsing).
Abbreviation tt256 := (2 ^ 256) (only parsing).
Definition tt256m1 : Z := tt256 - 1.
Abbreviation wordBits := 64%Z (only parsing).
Abbreviation wordBytes := 8%Z (only parsing).

Definition BigPow (a b : Z) : Z := a ^ b.
Definition BigMax (x y : Z) : Z := if x <? y then y else x.
Definition BigMin (x y : Z) : Z := if y <? x then y else x.

(** [big.Int.Bits]: the little-endian words of [|x|]. *)
Fixpoint le_words (n : nat) (x : Z) : list Z :=
  match n with
  | O => []
  | S n' => x mod 2 ^ 64 :: le_words n' (x / 2 ^ 64)
  end.
Definition Bits (x : Z) : list Z :=
  le_words (Z.to_nat ((BitLen x + 63) / 64)) (Z.abs x).

Fixpoint FirstBitSet_from (n : nat) (i v : Z) : Z :=
  match n with
  | O => BitLen v
  | S n' => if Z.testbit v i then i else FirstBitSet_from n' (i + 1) v
  end.
(** The loop runs [i] over [0 .. BitLen - 1]. *)
Definition FirstBitSet (v : Z) : Z :=
  FirstBitSet_from (Z.to_nat (BitLen v)) 0 v.

(** The inner loop of [ReadBits]: [j] more bytes of the word [d], written
    downwards from position [i]. *)
Fixpoint ReadBits_word (j : nat) (d : Z) (i : nat) (buf : bytes) : nat * bytes :=
  match j, i with
  | S j', S i' => ReadBits_word j' (Z.shiftr d 8) i' (<[i' := u8 d]> buf)
  | _, _ => (i, buf)
  end.
Fixpoint ReadBits_words (words : list Z) (i : nat) (buf : bytes) : nat * bytes :=
  match words with
  | [] => (i, buf)
  | d :: ds =>
      let '(i', buf') := ReadBits_word (Z.to_nat wordBytes) d i buf in
      ReadBits_words ds i' buf'
  end.
Definition ReadBits (bigint : Z) (buf : bytes) : bytes :=
  snd (ReadBits_words (Bits bigint) (length buf) buf).

Definition PaddedBigBytes (bigint n : Z) : bytes :=
  if n <=? BitLen bigint / 8 then big_bytes bigint
  else ReadBits bigint (zeros n).

Definition bigEndianByteAt (bigint n : Z) : Z :=
  let words := Bits bigint in
  let i := n / wordBytes in
  if zlen words <=? i then 0
  else u8 (Z.shiftr (default 0 (zindex words i)) (8 * (n mod wordBytes))).

Definition Byte (bigint padlength n : Z) : Z :=
  if padlength <=? n then 0 else bigEndianByteAt bigint (padlength - 1 - n).

Definition U256 (x : Z) : Z := Z.land x tt256m1.
Definition S256 (x : Z) : Z := if x <? tt255 then x else x - tt256.

(** The two loops of [Exp]; the pair is ([result], [base]) since both integers
    are updated in place. *)
Fixpoint Exp_word (i : nat) (word : Z) (st : Z * Z) : Z * Z :=
  match i with
  | O => st
  | S i' =>
      let '(result, base) := st in
      let result := if Z.land word 1 =? 1 then U256 (result * base) else result in
      Exp_word i' (Z.shiftr word 1) (result, U256 (base * base))
  end.
Fixpoint Exp_words (words : list Z) (st : Z * Z) : Z * Z :=
  match words with
  | [] => st
  | w :: ws => Exp_words ws (Exp_word (Z.to_nat wordBits) w st)
  end.
(** The returned integer and the value left in [base]. *)
Definition Exp (base exponent : Z) : Z * Z := Exp_words (Bits exponent) (1, base).

(** ** common/bytes.go *)

Definition RightPadBytes (s : bytes) (l : Z) : bytes :=
  if l <=? zlen s then s else s ++ zeros (l - zlen s).
Definition LeftPadBytes (s : bytes) (l : Z) : bytes :=
  if l <=? zlen s then s else zeros (l - zlen s) ++ s.

(** ** common/types.go *)

Abbreviation HashLength := 32%Z (only parsing).
Abbreviation AddressLength := 20%Z (only parsing).

(** [copy(h[HashLength-len(b):], b)] after cropping [b] from the left: the
    bytes of [h] that [b] does not reach stay. *)
Definition SetBytes (width : Z) (h : Z) (b : bytes) : Z :=
  let b := if width <? zlen b then slice b (zlen b - width) (zlen b) else b in
  h / 256 ^ zlen b * 256 ^ zlen b + be_dec b.
Definition BytesToHash (b : bytes) : Hash := SetBytes HashLength 0 b.
Definition BigToHash (b : Z) : Hash := BytesToHash (big_bytes b).
Definition Hash_Bytes (h : Hash) : bytes := be_enc 32 h.
Definition BytesToAddress (b : bytes) : Address := SetBytes AddressLength 0 b.
Definition BigToAddress (b : Z) : Address := BytesToAddress (big_bytes b).
Definition Address_Bytes (a : Address) : bytes := be_enc 20 a.
(** [Hash.Big] and [Address.Big] read the bytes back; on this representation
    both are the identity, see [Hash_Big_spec]. *)
Definition Hash_Big (h : Hash) : Z := be_dec (Hash_Bytes h).
Definition Address_Big (a : Address) : Z := be_dec (Address_Bytes a).

(** ** core/vm/common.go *)

Definition calcMemSize (off l : Z) : Z := if l =? 0 then 0 else off + l.

(** [None] is the slice-bounds panic of [data[start:end]]. *)
Definition getData (data : bytes) (start size : Z) : option bytes :=
  let length := zlen data in
  let start := if length <? start then length else start in
  let end_ := u64 (start + size) in
  let end_ := if length <? end_ then length else end_ in
  if end_ <? start then None
  else Some (RightPadBytes (slice data start end_) (i64 size)).

Definition getDataBig (data : bytes) (start size : Z) : bytes :=
  let dlen := zlen data in
  let s := BigMin start dlen in
  let e := BigMin (s + size) dlen in
  RightPadBytes (slice data (Uint64 s) (Uint64 e)) (i64 (Uint64 size)).

Definition bigUint64 (v : Z) : Z * bool := (Uint64 v, 64 <? BitLen v).

Definition toWordSize (size : Z) : Z :=
  if MaxUint64 - 31 <? size then MaxUint64 / 32 + 1 else u64 (size + 31) / 32.

Fixpoint allZero (b : bytes) : bool :=
  match b with
  | [] => true
  | x :: b' => if x =? 0 then allZero b' else false
  end.

(** ** Lemmas: checked arithmetic *)

Lemma SafeAdd_ok x y z :
  is_u64 x -> is_u64 y -> SafeAdd x y = (z, false) -> z = x + y /\ is_u64 z.
Proof.
  unfold SafeAdd, is_u64, MaxUint64, u64. intros Hx Hy [= <- H].
  apply Z.ltb_ge in H. rewrite Z.mod_small; lia.
Qed.
Lemma SafeAdd_overflow x y :
  is_u64 x -> is_u64 y -> snd (SafeAdd x y) = true <-> 2 ^ 64 <= x + y.
Proof.
  unfold SafeAdd, is_u64, MaxUint64. intros Hx Hy. cbn [snd]. rewrite Z.ltb_lt. lia.
Qed.
Lemma SafeSub_overflow x y :
  is_u64 x -> is_u64 y -> snd (SafeSub x y) = true <-> x - y < 0.
Proof. unfold SafeSub. intros. cbn [snd]. rewrite Z.ltb_lt. lia. Qed.

Lemma SafeMul_overflow x y :
  is_u64 x -> is_u64 y -> snd (SafeMul x y) = true <-> 2 ^ 64 <= x * y.
Proof.
  unfold SafeMul, is_u64, MaxUint64. intros Hx Hy.
  destruct (Z.eqb_spec x 0); [cbn; lia|]. destruct (Z.eqb_spec y 0); [cbn; lia|].
  cbn [orb snd]. rewrite Z.ltb_lt. split; intros H.
  - assert (2 ^ 64 - 1 < x * y); [|lia].
    destruct (Z.lt_ge_cases (2 ^ 64 - 1) (x * y)) as [|Hle]; [done|].
    exfalso. assert (y <= (2 ^ 64 - 1) / x); [|lia].
    apply Z.div_le_lower_bound; lia.
  - apply Z.div_lt_upper_bound; lia.
Qed.
Lemma SafeMul_ok x y z :
  is_u64 x -> is_u64 y -> SafeMul x y = (z, false) -> z = x * y /\ is_u64 z.
Proof.
  intros Hx Hy H. pose proof (SafeMul_overflow x y Hx Hy) as Ho. rewrite H in Ho. cbn in Ho.
  assert (x * y < 2 ^ 64) as Hlt.
  { destruct (Z.lt_ge_cases (x * y) (2 ^ 64)) as [|Hge]; [done|]. by apply Ho in Hge. }
  unfold SafeMul in H. unfold is_u64 in *.
  destruct (Z.eqb_spec x 0); [simplify_eq/=; lia|].
  destruct (Z.eqb_spec y 0); [simplify_eq/=; lia|]. cbn [orb] in H.
  injection H as <- _. unfold u64. rewrite Z.mod_small; nia.
Qed.

Lemma toWordSize_spec size : is_u64 size -> toWordSize size = (size + 31) / 32.
Proof.
  unfold is_u64, toWordSize, MaxUint64, u64. intros H.
  case (Z.ltb_spec (2 ^ 64 - 1 - 31) size); intros Hc; [|by rewrite Z.mod_small by lia].
  change (2 ^ 64 - 1) with 18446744073709551615 in *.
  change (18446744073709551615 / 32 + 1) with 576460752303423488.
  apply Z.div_unique with (r := size + 31 - 32 * 576460752303423488); lia.
Qed.

Lemma bigUint64_ok v z : 0 <= v -> bigUint64 v = (z, false) -> z = v /\ is_u64 v.
Proof.
  unfold bigUint64. intros Hv [= <- H]. apply Z.ltb_ge in H.
  apply BitLen_le in H; [|lia..]. unfold Uint64, is_u64.
  rewrite Z.abs_eq, u64_id by (unfold is_u64; lia). lia.
Qed.

(** ** Lemmas: 256-bit arithmetic *)

Lemma U256_mod x : U256 x = x mod 2 ^ 256.
Proof.
  unfold U256, tt256m1. replace (2 ^ 256 - 1) with (Z.ones 256) by done.
  by rewrite Z.land_ones.
Qed.
Lemma U256_range x : is_u256 (U256 x).
Proof. rewrite U256_mod. by apply Z.mod_pos_bound. Qed.
Lemma U256_id x : is_u256 x -> U256 x = x.
Proof. intros. rewrite U256_mod. by apply Z.mod_small. Qed.
Lemma S256_range x : is_u256 x -> - 2 ^ 255 <= S256 x < 2 ^ 255.
Proof.
  unfold is_u256, S256. intros. case (Z.ltb_spec x (2 ^ 255)); lia.
Qed.
Lemma U256_S256 x : is_u256 x -> U256 (S256 x) = x.
Proof.
  intros H. rewrite U256_mod. unfold S256.
  case (Z.ltb_spec x (2 ^ 255)); intros; [by apply Z.mod_small|].
  rewrite <- (Z.mod_add _ 1) by lia. rewrite Z.mul_1_l, Z.sub_add.
  by apply Z.mod_small.
Qed.

(** Words: their value, and the number there are. *)
Fixpoint le_dec (ws : list Z) : Z :=
  match ws with [] => 0 | w :: ws' => w + 2 ^ 64 * le_dec ws' end.
Lemma le_dec_words n x : 0 <= x -> x < 2 ^ (64 * Z.of_nat n) -> le_dec (le_words n x) = x.
Proof.
  revert x. induction n as [|n IH]; intros x Hx Hlt; cbn [le_words le_dec].
  - change (64 * Z.of_nat 0) with 0 in Hlt. lia.
  - rewrite IH.
    + pose proof (Z.div_mod x (2 ^ 64)). lia.
    + apply Z.div_pos; lia.
    + apply Z.div_lt_upper_bound; [lia|]. rewrite <- Z.pow_add_r by lia.
      by replace (64 + 64 * Z.of_nat n) with (64 * Z.of_nat (S n)) by lia.
Qed.
Lemma BitLen_nonneg x : 0 <= BitLen x.
Proof. unfold BitLen. case_match; pose proof (Z.log2_nonneg (Z.abs x)); lia. Qed.
Lemma div_up_bounds a k : 0 <= a -> 0 < k -> a <= k * ((a + (k - 1)) / k) < a + k.
Proof.
  intros. pose proof (Z.div_mod (a + (k - 1)) k). pose proof (Z.mod_pos_bound (a + (k - 1)) k).
  lia.
Qed.
Lemma le_dec_Bits x : 0 <= x -> le_dec (Bits x) = x.
Proof.
  intros Hx. unfold Bits. rewrite Z.abs_eq by done. apply le_dec_words; [done|].
  pose proof (BitLen_nonneg x) as Hb. pose proof (div_up_bounds (BitLen x) 64 Hb) as Hd.
  change (64 - 1) with 63 in Hd. rewrite Z2Nat.id by (apply Z.div_pos; lia).
  apply BitLen_le; lia.
Qed.
Lemma le_words_u64 n x : 0 <= x -> Forall is_u64 (le_words n x).
Proof.
  revert x. induction n; intros x Hx; constructor.
  - apply Z.mod_pos_bound. lia.
  - apply IHn, Z.div_pos; lia.
Qed.

(** Square and multiply computes the power. *)
Lemma pow_square b k : 0 <= k -> (b * b) ^ k = b ^ (2 * k).
Proof. intros. by rewrite Z.pow_mul_r, Z.pow_2_r by lia. Qed.

Lemma Exp_word_spec i w r b :
  0 <= w ->
  Exp_word i w (r mod 2 ^ 256, b mod 2 ^ 256) =
    (r * b ^ (w mod 2 ^ Z.of_nat i) mod 2 ^ 256, b ^ (2 ^ Z.of_nat i) mod 2 ^ 256).
Proof.
  revert w r b. induction i as [|i IH]; intros w r b Hw; cbn [Exp_word].
  - by rewrite Z.mod_1_r, Z.pow_0_r, Z.mul_1_r, Z.pow_1_r.
  - change (Z.land w 1) with (Z.land w (Z.ones 1)). rewrite Z.land_ones by lia.
    rewrite Z.shiftr_div_pow2, !U256_mod, <- !Z.mul_mod by lia.
    change (2 ^ 1) with 2. pose proof (Z.mod_pos_bound w 2).
    assert (0 < 2 ^ Z.of_nat i) by (apply Z.pow_pos_nonneg; lia).
    pose proof (Z.mod_pos_bound (w / 2) (2 ^ Z.of_nat i)).
    rewrite Nat2Z.inj_succ, Z.pow_succ_r, Z.rem_mul_r by lia.
    rewrite Z.pow_add_r by lia. rewrite <- !pow_square by lia.
    case (Z.eqb_spec (w mod 2) 1); intros Hm.
    + rewrite IH by (apply Z.div_pos; lia). rewrite Hm, Z.pow_1_r.
      f_equal. f_equal. lia.
    + rewrite IH by (apply Z.div_pos; lia). replace (w mod 2) with 0 by lia.
      rewrite Z.pow_0_r. f_equal. f_equal. lia.
Qed.

Lemma Exp_words_step r b w l z :
  0 <= w < 2 ^ 64 -> 0 <= l -> 0 <= z ->
  (r * b ^ (w mod 2 ^ 64) * (b ^ (2 ^ 64)) ^ l mod 2 ^ 256,
   (b ^ (2 ^ 64)) ^ (2 ^ (64 * z)) mod 2 ^ 256) =
  (r * b ^ (w + 2 ^ 64 * l) mod 2 ^ 256, b ^ (2 ^ (64 * (z + 1))) mod 2 ^ 256).
Proof.
  intros Hw Hl Hz. rewrite (Z.mod_small w) by lia.
  assert (2 ^ 64 * 2 ^ (64 * z) = 2 ^ (64 * (z + 1))) as <-.
  { rewrite <- Z.pow_add_r by lia. f_equal. lia. }
  assert (0 <= 2 ^ (64 * z)) by (apply Z.pow_nonneg; lia).
  rewrite <- !Z.pow_mul_r by lia. rewrite (Z.pow_add_r b) by lia.
  by rewrite Z.mul_assoc.
Qed.

Lemma le_dec_nonneg ws : Forall is_u64 ws -> 0 <= le_dec ws.
Proof. induction 1; cbn [le_dec]; unfold is_u64 in *; lia. Qed.

Lemma Exp_words_cons w ws st :
  Exp_words (w :: ws) st = Exp_words ws (Exp_word (Z.to_nat wordBits) w st).
Proof. unfold Exp_words at 1. fold Exp_words. reflexivity. Qed.

Lemma Exp_words_spec ws r b :
  Forall is_u64 ws ->
  Exp_words ws (r mod 2 ^ 256, b mod 2 ^ 256) =
    (r * b ^ le_dec ws mod 2 ^ 256, b ^ (2 ^ (64 * zlen ws)) mod 2 ^ 256).
Proof.
  intros Hws. revert r b. induction Hws as [|w ws Hw Hws IH]; intros r b.
  - cbn [Exp_words le_dec]. by rewrite Z.pow_0_r, Z.mul_1_r, Z.pow_1_r.
  - rewrite zlen_cons, Exp_words_cons, Exp_word_spec by apply Hw. rewrite IH.
    assert (Z.of_nat (Z.to_nat wordBits) = 64) as -> by done.
    apply Exp_words_step; [done|by apply le_dec_nonneg|apply zlen_nonneg].
Qed.

Lemma Exp_result base e :
  is_u256 base -> 0 <= e -> fst (Exp base e) = base ^ e mod 2 ^ 256.
Proof.
  intros Hb He. unfold Exp.
  replace (1, base) with (1 mod 2 ^ 256, base mod 2 ^ 256) by (by rewrite (Z.mod_small base)).
  rewrite Exp_words_spec by (apply le_words_u64; lia).
  cbn [fst]. by rewrite le_dec_Bits, Z.mul_1_l.
Qed.

(** ** Lemmas: big-endian output *)

Lemma ReadBits_word_spec j d i buf :
  (i <= length buf)%nat ->
  ReadBits_word j d i buf =
    ((i - min j i)%nat, take (i - min j i) buf ++ be_enc (min j i) d ++ drop i buf).
Proof.
  revert d i buf. induction j as [|j IH]; intros d i buf Hi; cbn [ReadBits_word].
  - rewrite Nat.min_0_l, Nat.sub_0_r. cbn [be_enc app]. by rewrite take_drop.
  - destruct i as [|i]; [by rewrite Nat.min_0_r; cbn; rewrite drop_0|].
    rewrite IH by (rewrite length_insert; lia).
    replace (S i - min (S j) (S i))%nat with (i - min j i)%nat by lia.
    replace (min (S j) (S i)) with (S (min j i)) by lia.
    rewrite be_enc_snoc, Z.shiftr_div_pow2 by lia. change (2 ^ 8) with 256.
    f_equal. rewrite take_insert_ge by lia. f_equal. rewrite <- app_assoc. f_equal.
    rewrite drop_insert_ge by lia. rewrite Nat.sub_diag.
    erewrite (drop_S buf) by (apply list_lookup_lookup_total_lt; lia). done.
Qed.

Lemma be_enc_low k w r : (k <= 8)%nat -> be_enc k (w + 2 ^ 64 * r) = be_enc k w.
Proof.
  intros Hk. rewrite <- (be_enc_mod_le k 8 (w + _)), <- (be_enc_mod_le k 8 w) by done.
  change (256 ^ Z.of_nat 8) with (2 ^ 64). by rewrite Z.mul_comm, Z.mod_add by lia.
Qed.

Lemma ReadBits_words_spec ws i buf :
  Forall is_u64 ws -> (i <= length buf)%nat ->
  let k := min (8 * length ws) i in
  ReadBits_words ws i buf =
    ((i - k)%nat, take (i - k) buf ++ be_enc k (le_dec ws) ++ drop i buf).
Proof.
  intros Hws. revert i buf. induction Hws as [|w ws Hw Hws IH]; intros i buf Hi k.
  - subst k. cbn. rewrite Nat.sub_0_r. by rewrite take_drop.
  - cbn [ReadBits_words le_dec]. change (Z.to_nat wordBytes) with 8%nat.
    rewrite ReadBits_word_spec by done. rewrite IH.
    2:{ rewrite !length_app, length_take, length_be_enc. lia. }
    subst k. cbn [length].
    replace (i - min (8 * S (length ws)) i)%nat
      with (i - min 8 i - min (8 * length ws) (i - min 8 i))%nat by lia.
    f_equal. rewrite take_app_le by (rewrite length_take; lia).
    rewrite take_take. f_equal; [f_equal; lia|].
    rewrite drop_app_le by (rewrite length_take; lia).
    rewrite drop_ge, app_nil_l by (rewrite ?length_take; lia).
    rewrite <- (be_enc_low (min 8 i) w (le_dec ws)) by lia. rewrite app_assoc. f_equal.
    replace (min (8 * S (length ws)) i)
      with (min (8 * length ws) (i - min 8 i) + min 8 i)%nat by lia.
    rewrite be_enc_app. f_equal.
    destruct (Nat.le_gt_cases 8 i) as [H8|H8].
    + replace (min 8 i) with 8%nat by lia. f_equal.
      change (256 ^ Z.of_nat 8) with (2 ^ 64). unfold is_u64 in Hw.
      rewrite Z.mul_comm, Z.div_add by lia. rewrite Z.div_small; lia.
    + by replace (min (8 * length ws) (i - min 8 i)) with 0%nat by lia.
Qed.

Lemma ReadBits_ok x buf : 0 <= x -> bytes_ok buf -> bytes_ok (ReadBits x buf).
Proof.
  intros Hx Hb. unfold ReadBits.
  rewrite ReadBits_words_spec; [|apply le_words_u64, Z.abs_nonneg|done]. cbn [snd].
  rewrite !bytes_ok_app. auto using bytes_ok_take, bytes_ok_drop, be_enc_ok.
Qed.

Lemma length_le_words n x : length (le_words n x) = n.
Proof. revert x. induction n; intros x; cbn; congruence. Qed.

(** On a zeroed buffer [ReadBits] writes the fixed-width encoding. *)
Lemma ReadBits_zeros x n : 0 <= x -> ReadBits x (replicate n 0) = be_enc n x.
Proof.
  intros Hx. unfold ReadBits.
  rewrite ReadBits_words_spec; [|apply le_words_u64, Z.abs_nonneg|by rewrite length_replicate].
  cbn [snd]. rewrite length_replicate, drop_ge, app_nil_r by (by rewrite length_replicate).
  rewrite take_replicate, le_dec_Bits by done.
  set (k := min (8 * length (Bits x)) n).
  replace (min (n - k) n) with (n - k)%nat by lia.
  destruct (Nat.eq_dec k n) as [->|Hne]; [by rewrite Nat.sub_diag|].
  rewrite (be_enc_small k n x); [done| |lia]. split; [done|].
  replace k with (8 * length (Bits x))%nat by lia. rewrite pow_256_2.
  unfold Bits. rewrite length_le_words.
  pose proof (BitLen_nonneg x) as Hb. pose proof (div_up_bounds (BitLen x) 64 Hb) as Hd.
  change (64 - 1) with 63 in Hd. assert (0 <= (BitLen x + 63) / 64) by (apply Z.div_pos; lia).
  apply BitLen_le; lia.
Qed.

(** Both branches of [PaddedBigBytes] encode the number in at least [n] bytes. *)
Lemma PaddedBigBytes_spec x n :
  0 <= x -> 0 <= n ->
  be_dec (PaddedBigBytes x n) = x /\ n <= zlen (PaddedBigBytes x n).
Proof.
  intros Hx Hn. unfold PaddedBigBytes.
  pose proof (BitLen_nonneg x) as Hb. pose proof (div_up_bounds (BitLen x) 8 Hb) as Hd.
  change (8 - 1) with 7 in Hd. pose proof (Z.div_mod (BitLen x) 8).
  pose proof (Z.mod_pos_bound (BitLen x) 8).
  case (Z.leb_spec n (BitLen x / 8)); intros Hc.
  - split; [by apply be_dec_big_bytes|]. unfold zlen, big_bytes. rewrite length_be_enc. lia.
  - unfold zeros. rewrite ReadBits_zeros, be_dec_enc by done.
    unfold zlen. rewrite length_be_enc. split; [|lia]. apply Z.mod_small. split; [done|].
    rewrite pow_256_2. apply BitLen_le; lia.
Qed.

Lemma le_words_lookup n x i :
  0 <= x -> (i < n)%nat -> le_words n x !! i = Some (x / 2 ^ (64 * Z.of_nat i) mod 2 ^ 64).
Proof.
  revert x i. induction n as [|n IH]; intros x i Hx Hi; [lia|].
  destruct i as [|i]; cbn [le_words lookup list_lookup].
  - change (64 * Z.of_nat 0) with 0. by rewrite Z.pow_0_r, Z.div_1_r.
  - rewrite IH by (try apply Z.div_pos; lia).
    rewrite Z.div_div, <- Z.pow_add_r by (try apply Z.pow_pos_nonneg; lia).
    do 3 f_equal. f_equal. lia.
Qed.

Lemma bigEndianByteAt_spec x n :
  0 <= x -> 0 <= n -> bigEndianByteAt x n = x / 256 ^ n mod 256.
Proof.
  intros Hx Hn. unfold bigEndianByteAt, zindex. change wordBytes with 8.
  assert (0 <= n / 8) as Hn8 by (apply Z.div_pos; lia).
  pose proof (Z.div_mod n 8). pose proof (Z.mod_pos_bound n 8).
  assert (256 ^ n = 2 ^ (64 * (n / 8)) * 2 ^ (8 * (n mod 8))) as Hp.
  { rewrite <- Z.pow_add_r by lia. change 256 with (2 ^ 8). rewrite <- Z.pow_mul_r by lia.
    f_equal. lia. }
  unfold zlen, Bits. rewrite length_le_words, Z.abs_eq by done.
  pose proof (BitLen_nonneg x) as Hb. pose proof (div_up_bounds (BitLen x) 64 Hb) as Hd.
  change (64 - 1) with 63 in Hd. assert (0 <= (BitLen x + 63) / 64) by (apply Z.div_pos; lia).
  assert (0 < 2 ^ (8 * (n mod 8))) by (apply Z.pow_pos_nonneg; lia).
  assert (0 < 2 ^ (64 * (n / 8))) by (apply Z.pow_pos_nonneg; lia).
  case (Z.leb_spec (Z.of_nat (Z.to_nat ((BitLen x + 63) / 64))) (n / 8)); intros Hc.
  - assert (x < 2 ^ (64 * (n / 8))) by (apply BitLen_le; lia).
    rewrite Z.div_small; [done|]. rewrite Hp. nia.
  - rewrite (proj2 (Z.leb_le _ _)) by done. rewrite le_words_lookup by lia. unfold default, from_option, id.
    rewrite Z2Nat.id, Z.shiftr_div_pow2, Hp, <- Z.div_div by lia. unfold u8.
    set (y := x / 2 ^ (64 * (n / 8))).
    replace (2 ^ 64) with (2 ^ (8 * (n mod 8)) * 2 ^ (64 - 8 * (n mod 8)))
      by (rewrite <- Z.pow_add_r by lia; f_equal; lia).
    assert (0 < 2 ^ (64 - 8 * (n mod 8))) by (apply Z.pow_pos_nonneg; lia).
    rewrite div_mod_mul by lia.
    replace (64 - 8 * (n mod 8)) with (8 + (56 - 8 * (n mod 8))) by lia.
    rewrite Z.pow_add_r by lia. change (2 ^ 8) with 256.
    apply mod_mul_mod; [lia|]. apply Z.pow_pos_nonneg; lia.
Qed.

Lemma Byte_spec x n : 0 <= x -> 0 <= n < 32 -> Byte x 32 n = x / 256 ^ (31 - n) mod 256.
Proof.
  intros Hx Hn. unfold Byte. case (Z.leb_spec 32 n); [lia|]. intros _.
  by rewrite bigEndianByteAt_spec by lia.
Qed.

(** [FirstBitSet] is the position of the lowest set bit. *)
Lemma FirstBitSet_from_spec n i v :
  0 <= i -> i + Z.of_nat n = BitLen v ->
  (forall j, 0 <= j < i -> Z.testbit v j = false) ->
  let r := FirstBitSet_from n i v in
  (forall j, 0 <= j < r -> Z.testbit v j = false) /\ (r < BitLen v -> Z.testbit v r = true).
Proof.
  revert i. induction n as [|n IH]; intros i Hi Hn Hlow; cbn [FirstBitSet_from].
  - replace i with (BitLen v) in Hlow by lia. split; [done|lia].
  - destruct (Z.testbit v i) eqn:Hbit; [done|].
    apply IH; [lia..|]. intros j Hj. destruct (decide (j = i)) as [->|]; [done|].
    apply Hlow. lia.
Qed.

(** ** Lemmas: hashes and addresses *)

Lemma SetBytes_fresh w b :
  0 <= w -> bytes_ok b ->
  SetBytes w 0 b = be_dec b mod 256 ^ w.
Proof.
  intros Hw Hb. unfold SetBytes.
  assert (forall c : bytes, 0 / 256 ^ zlen c * 256 ^ zlen c + be_dec c = be_dec c) as Hz.
  { intros c. unfold zlen. pose proof (pow256_pos (length c)).
    rewrite Z.div_0_l by lia. lia. }
  rewrite Hz. clear Hz. case (Z.ltb_spec w (zlen b)); intros Hc.
  - unfold slice. rewrite take_ge.
    2:{ unfold zlen in *. rewrite length_drop. lia. }
    unfold zlen in *.
    rewrite <- (take_drop (Z.to_nat (Z.of_nat (length b) - w)) b) at 3.
    rewrite be_dec_app, length_drop.
    replace (Z.of_nat (length b - Z.to_nat (Z.of_nat (length b) - w))) with w by lia.
    rewrite Z.add_comm, Z.mod_add by (pose proof (pow256_pos (Z.to_nat w)); rewrite Z2Nat.id in *; lia).
    symmetry. apply Z.mod_small.
    pose proof (be_dec_bound _ (bytes_ok_drop (Z.to_nat (Z.of_nat (length b) - w)) b Hb)) as Hd.
    rewrite length_drop in Hd.
    by replace (Z.of_nat (length b - Z.to_nat (Z.of_nat (length b) - w))) with w in Hd by lia.
  - symmetry. apply Z.mod_small. pose proof (be_dec_bound b Hb).
    unfold zlen in Hc. pose proof (Z.pow_le_mono_r 256 (Z.of_nat (length b)) w). lia.
Qed.

Lemma big_bytes_ok x : bytes_ok (big_bytes x).
Proof. apply be_enc_ok. Qed.

Lemma BigToHash_spec x : 0 <= x -> BigToHash x = x mod 2 ^ 256.
Proof.
  intros. unfold BigToHash, BytesToHash.
  rewrite SetBytes_fresh, be_dec_big_bytes by (auto using big_bytes_ok; lia). done.
Qed.
Lemma BigToAddress_spec x : 0 <= x -> BigToAddress x = x mod 2 ^ 160.
Proof.
  intros. unfold BigToAddress, BytesToAddress.
  rewrite SetBytes_fresh, be_dec_big_bytes by (auto using big_bytes_ok; lia). done.
Qed.
Lemma BigToHash_id x : is_u256 x -> BigToHash x = x.
Proof. intros H. rewrite BigToHash_spec by apply H. by apply Z.mod_small. Qed.
Lemma BigToAddress_range x : 0 <= x -> is_address (BigToAddress x).
Proof. intros H. rewrite BigToAddress_spec by done. by apply Z.mod_pos_bound. Qed.
Lemma Hash_Big_spec h : is_hash h -> Hash_Big h = h.
Proof. intros H. unfold Hash_Big, Hash_Bytes. rewrite be_dec_enc. by apply Z.mod_small. Qed.
Lemma Address_Big_spec a : is_address a -> Address_Big a = a.
Proof. intros H. unfold Address_Big, Address_Bytes. rewrite be_dec_enc. by apply Z.mod_small. Qed.
Lemma Address_Big_range a : 0 <= Address_Big a < 2 ^ 160.
Proof. unfold Address_Big, Address_Bytes. rewrite be_dec_enc. by apply Z.mod_pos_bound. Qed.
Lemma Hash_Big_range h : is_u256 (Hash_Big h).
Proof. unfold Hash_Big, Hash_Bytes. rewrite be_dec_enc. by apply Z.mod_pos_bound. Qed.
Lemma Hash_Bytes_range h : is_u256 (be_dec (Hash_Bytes h)).
Proof. unfold Hash_Bytes. rewrite be_dec_enc. by apply Z.mod_pos_bound. Qed.

(** ** Lemmas: padded reads *)

Lemma RightPadBytes_ok s l : bytes_ok s -> bytes_ok (RightPadBytes s l).
Proof.
  intros. unfold RightPadBytes. case_match; [done|]. rewrite bytes_ok_app.
  auto using bytes_ok_zeros.
Qed.
Lemma LeftPadBytes_ok s l : bytes_ok s -> bytes_ok (LeftPadBytes s l).
Proof.
  intros. unfold LeftPadBytes. case_match; [done|]. rewrite bytes_ok_app.
  auto using bytes_ok_zeros.
Qed.
Lemma zlen_RightPadBytes s l : zlen (RightPadBytes s l) = Z.max l (zlen s).
Proof.
  unfold RightPadBytes. case (Z.leb_spec l (zlen s)); intros; [lia|].
  rewrite zlen_app, zlen_zeros; lia.
Qed.
Lemma getDataBig_ok data start size : bytes_ok data -> bytes_ok (getDataBig data start size).
Proof. intros. by apply RightPadBytes_ok, bytes_ok_slice. Qed.
Lemma getData_ok data start size b :
  bytes_ok data -> getData data start size = Some b -> bytes_ok b.
Proof.
  unfold getData. intros Hd H. destruct (_ <? _) eqn:E in H; [done|]. injection H as <-.
  by apply RightPadBytes_ok, bytes_ok_slice.
Qed.

Lemma BigMin_spec x y : BigMin x y = Z.min x y.
Proof. unfold BigMin. case (Z.ltb_spec y x); lia. Qed.
Lemma BigMax_spec x y : BigMax x y = Z.max x y.
Proof. unfold BigMax. case (Z.ltb_spec x y); lia. Qed.

(** The reference read: byte [i] of the window, zero past the end. *)
Definition padded_byte (data : bytes) (i : Z) : Z := default 0 (zindex data i).

Lemma lookup_slice_pad (data : bytes) s e size (i : nat) :
  0 <= s <= e -> e <= zlen data -> e = Z.min (s + size) (zlen data) ->
  0 <= size -> Z.of_nat i < size ->
  RightPadBytes (slice data s e) size !! i = Some (padded_byte data (s + Z.of_nat i)).
Proof.
  intros Hse He Heq Hsz Hi. unfold RightPadBytes, padded_byte, zindex.
  rewrite (proj2 (Z.leb_le 0 (s + _))) by lia.
  assert (zlen (slice data s e) = e - s) as Hl by (apply zlen_slice; lia).
  destruct (Z.lt_ge_cases (s + Z.of_nat i) e) as [Hin|Hout].
  - assert (forall k : bytes, (slice data s e ++ k) !! i = slice data s e !! i) as Ha.
    { intros k. apply lookup_app_l. unfold zlen in *. lia. }
    assert (slice data s e !! i = data !! Z.to_nat (s + Z.of_nat i)) as Hd.
    { unfold slice. rewrite lookup_take_lt by lia. rewrite lookup_drop. f_equal. lia. }
    rewrite Z2Nat.inj_add in * by lia.
    case_match; rewrite ?Ha, Hd, Nat2Z.id in *;
      (destruct (lookup_lt_is_Some_2 data (Z.to_nat s + i)) as [x Hx];
       [unfold zlen in *; lia|by rewrite Hx]).
  - rewrite Hl. case (Z.leb_spec size (e - s)); intros; [lia|].
    rewrite lookup_app_r by (unfold zlen in *; lia).
    unfold zeros. rewrite lookup_replicate_2 by (unfold zlen in *; lia).
    rewrite lookup_ge_None_2; [done|]. unfold zlen in *. lia.
Qed.

Lemma zlen_getDataBig data start size :
  0 <= start -> 0 <= size < 2 ^ 63 -> zlen data < 2 ^ 63 ->
  zlen (getDataBig data start size) = size.
Proof.
  intros Hs Hz Hd. pose proof (zlen_nonneg data). unfold getDataBig.
  rewrite !BigMin_spec. set (s := Z.min start (zlen data)).
  set (e := Z.min (s + size) (zlen data)).
  assert (0 <= s <= e /\ e <= zlen data /\ e <= s + size) as (? & ? & ?) by (subst s e; lia).
  unfold Uint64. rewrite !Z.abs_eq, !u64_id, i64_id by (unfold is_u64; lia).
  rewrite zlen_RightPadBytes, zlen_slice; lia.
Qed.

Lemma getDataBig_spec data start size (i : nat) :
  0 <= start -> 0 <= size < 2 ^ 63 -> zlen data < 2 ^ 63 -> Z.of_nat i < size ->
  getDataBig data start size !! i =
    Some (padded_byte data (Z.min start (zlen data) + Z.of_nat i)).
Proof.
  intros Hs Hsz Hd Hi. unfold getDataBig, Uint64. rewrite !BigMin_spec.
  pose proof (zlen_nonneg data).
  rewrite !Z.abs_eq, !u64_id, i64_id by (unfold is_u64; lia).
  apply lookup_slice_pad; lia.
Qed.

(** ** Hashes as bytes *)

Definition hash_ok (h : bytes) : Prop := bytes_ok h /\ length h = 32%nat.
Lemma BytesToHash_Bytes h : is_hash h -> BytesToHash (Hash_Bytes h) = h.
Proof.
  intros Hh. unfold BytesToHash, Hash_Bytes. rewrite SetBytes_fresh by (done || apply be_enc_ok).
  rewrite be_dec_enc. change (256 ^ HashLength) with (2 ^ 256). change (256 ^ Z.of_nat 32) with (2 ^ 256).
  rewrite Zmod_mod. by apply Z.mod_small.
Qed.
Lemma Bytes_BytesToHash h : hash_ok h -> Hash_Bytes (BytesToHash h) = h.
Proof.
  intros [Hb Hl]. unfold BytesToHash, Hash_Bytes. rewrite SetBytes_fresh by done.
  change (256 ^ HashLength) with (256 ^ Z.of_nat 32). rewrite be_enc_mod. rewrite <- Hl.
  by apply be_enc_dec.
Qed.
Lemma is_hash_BytesToHash h : hash_ok h -> is_hash (BytesToHash h).
Proof.
  intros [Hb _]. unfold BytesToHash. rewrite SetBytes_fresh by done.
  change (256 ^ HashLength) with (2 ^ 256). apply Z.mod_pos_bound. lia.
Qed.
Lemma hash_ok_Bytes h : hash_ok (Hash_Bytes h).
Proof. split; [apply be_enc_ok|apply length_be_enc]. Qed.
