(* ===== verification/Params.v ===== *)
(** * Chain parameters

    Models [params/protocol_params.go], [params/gas_table.go] and the fork
    logic of [params/config.go]: the chain configuration, which forks are
    active at a block, the gas table of a block and the compatibility check
    between a stored and a new configuration. *)

From S2P Require Import Prelude.
Local Open Scope Z_scope.

(** ** protocol_params.go *)

Abbreviation CallValueTransferGas := 9000%Z (only parsing).
Abbreviation CallNewAccountGas := 25000%Z (only parsing).
Abbreviation TxGas := 21000%Z (only parsing).
Abbreviation TxGasContractCreation := 53000%Z (only parsing).
Abbreviation TxDataZeroGas := 4%Z (only parsing).
Abbreviation QuadCoeffDiv := 512%Z (only parsing).
Abbreviation LogDataGas := 8%Z (only parsing).
Abbreviation CallStipend := 2300%Z (only parsing).
Abbreviation Sha3Gas := 30%Z (only parsing).
Abbreviation Sha3WordGas := 6%Z (only parsing).
Abbreviation SstoreSetGas := 20000%Z (only parsing).
Abbreviation SstoreResetGas := 5000%Z (only parsing).
Abbreviation SstoreClearGas := 5000%Z (only parsing).
Abbreviation SstoreRefundGas := 15000%Z (only parsing).
Abbreviation NetSstoreNoopGas := 200%Z (only parsing).
Abbreviation NetSstoreInitGas := 20000%Z (only parsing).
Abbreviation NetSstoreCleanGas := 5000%Z (only parsing).
Abbreviation NetSstoreDirtyGas := 200%Z (only parsing).
Abbreviation NetSstoreClearRefund := 15000%Z (only parsing).
Abbreviation NetSstoreResetRefund := 4800%Z (only parsing).
Abbreviation NetSstoreResetClearRefund := 19800%Z (only parsing).
Abbreviation JumpdestGas := 1%Z (only parsing).
Abbreviation CreateDataGas := 200%Z (only parsing).
Abbreviation CallCreateDepth := 1024%Z (only parsing).
Abbreviation ExpGas := 10%Z (only parsing).
Abbreviation LogGas := 375%Z (only parsing).
Abbreviation CopyGas := 3%Z (only parsing).
Abbreviation StackLimit := 1024%Z (only parsing).
Abbreviation LogTopicGas := 375%Z (only parsing).
Abbreviation CreateGas := 32000%Z (only parsing).
Abbreviation Create2Gas := 32000%Z (only parsing).
Abbreviation SuicideRefundGas := 24000%Z (only parsing).
Abbreviation MemoryGas := 3%Z (only parsing).
Abbreviation TxDataNonZeroGas := 68%Z (only parsing).
Abbreviation MaxCodeSize := 24576%Z (only parsing).
Abbreviation EcrecoverGas := 3000%Z (only parsing).
Abbreviation Sha256BaseGas := 60%Z (only parsing).
Abbreviation Sha256PerWordGas := 12%Z (only parsing).
Abbreviation Ripemd160BaseGas := 600%Z (only parsing).
Abbreviation Ripemd160PerWordGas := 120%Z (only parsing).
Abbreviation IdentityBaseGas := 15%Z (only parsing).
Abbreviation IdentityPerWordGas := 3%Z (only parsing).
Abbreviation ModExpQuadCoeffDiv := 20%Z (only parsing).
Abbreviation Bn256AddGas := 500%Z (only parsing).
Abbreviation Bn256ScalarMulGas := 40000%Z (only parsing).
Abbreviation Bn256PairingBaseGas := 100000%Z (only parsing).
Abbreviation Bn256PairingPerPointGas := 80000%Z (only parsing).

(** ** gas_table.go *)

Record GasTable := mkGasTable {
  gt_ExtcodeSize : Z;
  gt_ExtcodeCopy : Z;
  gt_ExtcodeHash : Z;
  gt_Balance : Z;
  gt_SLoad : Z;
  gt_Calls : Z;
  gt_Suicide : Z;
  gt_ExpByte : Z;
  gt_CreateBySuicide : Z;
}.

(** Fields the source leaves out are zero. *)
Definition GasTableHomestead : GasTable := {|
  gt_ExtcodeSize := 20; gt_ExtcodeCopy := 20; gt_ExtcodeHash := 0; gt_Balance := 20;
  gt_SLoad := 50; gt_Calls := 40; gt_Suicide := 0; gt_ExpByte := 10; gt_CreateBySuicide := 0;
|}.
Definition GasTableEIP150 : GasTable := {|
  gt_ExtcodeSize := 700; gt_ExtcodeCopy := 700; gt_ExtcodeHash := 0; gt_Balance := 400;
  gt_SLoad := 200; gt_Calls := 700; gt_Suicide := 5000; gt_ExpByte := 10;
  gt_CreateBySuicide := 25000;
|}.
Definition GasTableEIP158 : GasTable := {|
  gt_ExtcodeSize := 700; gt_ExtcodeCopy := 700; gt_ExtcodeHash := 0; gt_Balance := 400;
  gt_SLoad := 200; gt_Calls := 700; gt_Suicide := 5000; gt_ExpByte := 50;
  gt_CreateBySuicide := 25000;
|}.
Definition GasTableConstantinople : GasTable := {|
  gt_ExtcodeSize := 700; gt_ExtcodeCopy := 700; gt_ExtcodeHash := 400; gt_Balance := 400;
  gt_SLoad := 200; gt_Calls := 700; gt_Suicide := 5000; gt_ExpByte := 50;
  gt_CreateBySuicide := 25000;
|}.

(** ** config.go *)

(** A nil [*big.Int] is [None]. The settings of the consensus engines play no
    part in the fork logic and are left out. *)
Record ChainConfig := mkChainConfig {
  ChainID : option Z;
  HomesteadBlock : option Z;
  DAOForkBlock : option Z;
  DAOForkSupport : bool;
  EIP150Block : option Z;
  EIP150Hash : Z;
  EIP155Block : option Z;
  EIP158Block : option Z;
  ByzantiumBlock : option Z;
  ConstantinopleBlock : option Z;
  PetersburgBlock : option Z;
  EWASMBlock : option Z;
}.

Definition isForked (s head : option Z) : bool :=
  match s, head with
  | Some s, Some head => s <=? head
  | _, _ => false
  end.

Definition IsHomestead (c : ChainConfig) (num : option Z) : bool := isForked (HomesteadBlock c) num.
Definition IsDAOFork (c : ChainConfig) (num : option Z) : bool := isForked (DAOForkBlock c) num.
Definition IsEIP150 (c : ChainConfig) (num : option Z) : bool := isForked (EIP150Block c) num.
Definition IsEIP155 (c : ChainConfig) (num : option Z) : bool := isForked (EIP155Block c) num.
Definition IsEIP158 (c : ChainConfig) (num : option Z) : bool := isForked (EIP158Block c) num.
Definition IsByzantium (c : ChainConfig) (num : option Z) : bool := isForked (ByzantiumBlock c) num.
Definition IsConstantinople (c : ChainConfig) (num : option Z) : bool :=
  isForked (ConstantinopleBlock c) num.
Definition IsPetersburg (c : ChainConfig) (num : option Z) : bool :=
  isForked (PetersburgBlock c) num ||
  (match PetersburgBlock c with None => true | Some _ => false end &&
   isForked (ConstantinopleBlock c) num).
Definition IsEWASM (c : ChainConfig) (num : option Z) : bool := isForked (EWASMBlock c) num.

Definition ChainConfig_GasTable (c : ChainConfig) (num : option Z) : GasTable :=
  match num with
  | None => GasTableHomestead
  | Some _ =>
      if IsConstantinople c num then GasTableConstantinople
      else if IsEIP158 c num then GasTableEIP158
      else if IsEIP150 c num then GasTableEIP150
      else GasTableHomestead
  end.

Record Rules := mkRules {
  R_ChainID : Z;
  R_IsHomestead : bool;
  R_IsEIP150 : bool;
  R_IsEIP155 : bool;
  R_IsEIP158 : bool;
  R_IsByzantium : bool;
  R_IsConstantinople : bool;
  R_IsPetersburg : bool;
}.

Definition ChainConfig_Rules (c : ChainConfig) (num : option Z) : Rules := {|
  R_ChainID := default 0 (ChainID c);
  R_IsHomestead := IsHomestead c num;
  R_IsEIP150 := IsEIP150 c num;
  R_IsEIP155 := IsEIP155 c num;
  R_IsEIP158 := IsEIP158 c num;
  R_IsByzantium := IsByzantium c num;
  R_IsConstantinople := IsConstantinople c num;
  R_IsPetersburg := IsPetersburg c num;
|}.

Definition configNumEqual (x y : option Z) : bool :=
  match x, y with
  | None, None => true
  | None, Some _ | Some _, None => false
  | Some x, Some y => x =? y
  end.

Definition isForkIncompatible (s1 s2 head : option Z) : bool :=
  (isForked s1 head || isForked s2 head) && negb (configNumEqual s1 s2).

Record ConfigCompatError := mkConfigCompatError {
  What : string;
  StoredConfig : option Z;
  NewConfig : option Z;
  RewindTo : Z;
}.

Definition newCompatError (what : string) (storedblock newblock : option Z) : ConfigCompatError :=
  let rew :=
    match storedblock, newblock with
    | None, _ => newblock
    | Some _, None => storedblock
    | Some s, Some n => if s <? n then storedblock else newblock
    end in
  {| What := what; StoredConfig := storedblock; NewConfig := newblock;
     RewindTo := match rew with
                 | Some r => if 0 <? r then u64 (Uint64 r - 1) else 0
                 | None => 0
                 end |}.

Definition checkCompatible (c newcfg : ChainConfig) (head : option Z) : option ConfigCompatError :=
  if isForkIncompatible (HomesteadBlock c) (HomesteadBlock newcfg) head then
    Some (newCompatError "Homestead fork block" (HomesteadBlock c) (HomesteadBlock newcfg))
  else if isForkIncompatible (DAOForkBlock c) (DAOForkBlock newcfg) head then
    Some (newCompatError "DAO fork block" (DAOForkBlock c) (DAOForkBlock newcfg))
  else if IsDAOFork c head && negb (Bool.eqb (DAOForkSupport c) (DAOForkSupport newcfg)) then
    Some (newCompatError "DAO fork support flag" (DAOForkBlock c) (DAOForkBlock newcfg))
  else if isForkIncompatible (EIP150Block c) (EIP150Block newcfg) head then
    Some (newCompatError "EIP150 fork block" (EIP150Block c) (EIP150Block newcfg))
  else if isForkIncompatible (EIP155Block c) (EIP155Block newcfg) head then
    Some (newCompatError "EIP155 fork block" (EIP155Block c) (EIP155Block newcfg))
  else if isForkIncompatible (EIP158Block c) (EIP158Block newcfg) head then
    Some (newCompatError "EIP158 fork block" (EIP158Block c) (EIP158Block newcfg))
  else if IsEIP158 c head && negb (configNumEqual (ChainID c) (ChainID newcfg)) then
    Some (newCompatError "EIP158 chain ID" (EIP158Block c) (EIP158Block newcfg))
  else if isForkIncompatible (ByzantiumBlock c) (ByzantiumBlock newcfg) head then
    Some (newCompatError "Byzantium fork block" (ByzantiumBlock c) (ByzantiumBlock newcfg))
  else if isForkIncompatible (ConstantinopleBlock c) (ConstantinopleBlock newcfg) head then
    Some (newCompatError "Constantinople fork block" (ConstantinopleBlock c) (ConstantinopleBlock newcfg))
  else if isForkIncompatible (PetersburgBlock c) (PetersburgBlock newcfg) head then
    Some (newCompatError "ConstantinopleFix fork block" (PetersburgBlock c) (PetersburgBlock newcfg))
  else if isForkIncompatible (EWASMBlock c) (EWASMBlock newcfg) head then
    Some (newCompatError "ewasm fork block" (EWASMBlock c) (EWASMBlock newcfg))
  else None.

(** The loop of [CheckCompatible]; [None] is out of fuel. *)
Fixpoint CheckCompatible_loop (fuel : nat) (c newcfg : ChainConfig) (bhead : Z)
    (lasterr : option ConfigCompatError) : option (option ConfigCompatError) :=
  match fuel with
  | O => None
  | S fuel' =>
      match checkCompatible c newcfg (Some bhead) with
      | None => Some lasterr
      | Some err =>
          if match lasterr with Some l => RewindTo err =? RewindTo l | None => false end
          then Some lasterr
          else CheckCompatible_loop fuel' c newcfg (RewindTo err) (Some err)
      end
  end.
Definition CheckCompatible (fuel : nat) (c newcfg : ChainConfig) (height : Z) :=
  CheckCompatible_loop fuel c newcfg height None.

(** ** Lemmas *)

Lemma newCompatError_rewind what s n head :
  0 <= head < 2 ^ 64 -> isForked s (Some head) || isForked n (Some head) = true ->
  let r := RewindTo (newCompatError what s n) in
  0 <= r /\ (r < head \/ (r = 0 /\ head = 0) ).
Proof.
  intros Hh Hf. unfold newCompatError. cbn [RewindTo].
  assert (forall r, r <= head -> let x := (if 0 <? r then u64 (Uint64 r - 1) else 0) in
            0 <= x /\ (x < head \/ (x = 0 /\ head = 0))) as Hr.
  { intros r Hle. cbn zeta. case (Z.ltb_spec 0 r); intros; [|lia].
    unfold Uint64. rewrite Z.abs_eq, (u64_id r) by (unfold is_u64; lia).
    rewrite u64_id by (unfold is_u64; lia). lia. }
  destruct s as [s|], n as [n|]; cbn [isForked orb] in Hf; try done;
    rewrite ?orb_true_iff, ?orb_false_r, ?Z.leb_le in Hf; try (apply Hr; lia).
  case (Z.ltb_spec s n); intros; apply Hr; lia.
Qed.

Lemma checkCompatible_rewind c n head err :
  0 <= head < 2 ^ 64 -> checkCompatible c n (Some head) = Some err ->
  0 <= RewindTo err /\ (RewindTo err < head \/ (RewindTo err = 0 /\ head = 0)).
Proof.
  intros Hh. unfold checkCompatible, isForkIncompatible, IsDAOFork, IsEIP158.
  repeat (case_match;
    [intros [= <-]; match goal with H : _ && _ = true |- _ => apply andb_true_iff in H as [H _] end;
     apply newCompatError_rewind; [done|]; first [done | match goal with H : isForked _ _ = true |- _ => by rewrite H end]|]).
  done.
Qed.

Lemma CheckCompatible_loop_spec fuel c n bhead lasterr :
  0 <= bhead < 2 ^ 64 ->
  match lasterr with Some l => RewindTo l = bhead | None => True end ->
  bhead + 1 + match lasterr with Some _ => 0 | None => 1 end < Z.of_nat fuel ->
  exists r, CheckCompatible_loop fuel c n bhead lasterr = Some r /\
    match r with
    | None => lasterr = None /\ checkCompatible c n (Some bhead) = None
    | Some e => RewindTo e = 0 \/ checkCompatible c n (Some (RewindTo e)) = None
    end.
Proof.
  revert bhead lasterr. induction fuel as [|fuel IH]; intros bhead lasterr Hb Hl Hf; [destruct lasterr; lia|].
  cbn [CheckCompatible_loop].
  destruct (checkCompatible c n (Some bhead)) as [err|] eqn:Hc.
  2:{ exists lasterr. split; [done|]. destruct lasterr as [l|]; [right; congruence|done]. }
  destruct (checkCompatible_rewind _ _ _ _ Hb Hc) as [Hr0 Hr].
  destruct lasterr as [l|].
  - case (Z.eqb_spec (RewindTo err) (RewindTo l)); intros He.
    + exists (Some l). split; [done|]. left. lia.
    + destruct (IH (RewindTo err) (Some err)) as (r & Hrr & Hrs); [lia..|].
      exists r. split; [done|]. by destruct r as [e|]; [|destruct Hrs].
  - destruct (IH (RewindTo err) (Some err)) as (r & Hrr & Hrs); [lia..|].
    exists r. split; [done|]. by destruct r as [e|]; [|destruct Hrs].
Qed.

(** The search for a common configuration ends, at the latest when it is
    back at the first block, and what it asks to rewind to is right: the two
    configurations are compatible there, or there is nothing left to rewind. If
    it reports nothing, they are compatible at the given height. *)
Theorem CheckCompatible_rewinds fuel c n height :
  0 <= height < 2 ^ 64 -> height + 2 < Z.of_nat fuel ->
  exists r, CheckCompatible fuel c n height = Some r /\
    match r with
    | None => checkCompatible c n (Some height) = None
    | Some e => RewindTo e = 0 \/ checkCompatible c n (Some (RewindTo e)) = None
    end.
Proof.
  intros Hh Hf. destruct (CheckCompatible_loop_spec fuel c n height None) as (r & Hr & Hs); [done|done|lia|].
  exists r. split; [done|]. destruct r; [done|apply Hs].
Qed.

(** A configuration that moves Homestead from block 10 to block 30, met at
    height 25: back to the block before the tenth. *)
Definition homestead_at (n : Z) : ChainConfig :=
  mkChainConfig (Some 1) (Some n) None false None 0 None None None None None None.
Lemma CheckCompatible_rewinds_witness :
  exists r, CheckCompatible 30%nat (homestead_at 10) (homestead_at 30) 25 = Some r /\
    match r with
    | None => checkCompatible (homestead_at 10) (homestead_at 30) (Some 25) = None
    | Some e => RewindTo e = 0 \/ checkCompatible (homestead_at 10) (homestead_at 30) (Some (RewindTo e)) = None
    end.
Proof. apply (CheckCompatible_rewinds 30%nat); lia. Defined.
