(* ===== verification/Opcodes.v ===== *)
(** * Opcodes

    Models [core/vm/opcodes.go]: the opcode values, the two predicates on
    them, and the two tables between opcodes and their names. An opcode is a
    byte, kept as a [Z] in [0, 255]. Go maps that are only read are
    association lists in the order of the source. *)

From S2P Require Import Prelude.
Local Open Scope string_scope.
Local Open Scope Z_scope.
Local Open Scope list_scope.

Abbreviation OpCode := Z (only parsing).

(** The members of a numbered family after its first are abbreviations. *)

Abbreviation STOP := 0x00 (only parsing).
Abbreviation ADD := 0x01 (only parsing).
Abbreviation MUL := 0x02 (only parsing).
Abbreviation SUB := 0x03 (only parsing).
Abbreviation DIV := 0x04 (only parsing).
Abbreviation SDIV := 0x05 (only parsing).
Abbreviation MOD := 0x06 (only parsing).
Abbreviation SMOD := 0x07 (only parsing).
Abbreviation ADDMOD := 0x08 (only parsing).
Abbreviation MULMOD := 0x09 (only parsing).
Abbreviation EXP := 0x0a (only parsing).
Abbreviation SIGNEXTEND := 0x0b (only parsing).
Abbreviation LT := 0x10 (only parsing).
Abbreviation GT := 0x11 (only parsing).
Abbreviation SLT := 0x12 (only parsing).
Abbreviation SGT := 0x13 (only parsing).
Abbreviation EQ := 0x14 (only parsing).
Abbreviation ISZERO := 0x15 (only parsing).
Abbreviation AND := 0x16 (only parsing).
Abbreviation OR := 0x17 (only parsing).
Abbreviation XOR := 0x18 (only parsing).
Abbreviation NOT := 0x19 (only parsing).
Abbreviation BYTE := 0x1a (only parsing).
Abbreviation SHL := 0x1b (only parsing).
Abbreviation SHR := 0x1c (only parsing).
Abbreviation SAR := 0x1d (only parsing).
Abbreviation SHA3 := 0x20 (only parsing).
Abbreviation ADDRESS := 0x30 (only parsing).
Abbreviation BALANCE := 0x31 (only parsing).
Abbreviation ORIGIN := 0x32 (only parsing).
Abbreviation CALLER := 0x33 (only parsing).
Abbreviation CALLVALUE := 0x34 (only parsing).
Abbreviation CALLDATALOAD := 0x35 (only parsing).
Abbreviation CALLDATASIZE := 0x36 (only parsing).
Abbreviation CALLDATACOPY := 0x37 (only parsing).
Abbreviation CODESIZE := 0x38 (only parsing).
Abbreviation CODECOPY := 0x39 (only parsing).
Abbreviation GASPRICE := 0x3a (only parsing).
Abbreviation EXTCODESIZE := 0x3b (only parsing).
Abbreviation EXTCODECOPY := 0x3c (only parsing).
Abbreviation RETURNDATASIZE := 0x3d (only parsing).
Abbreviation RETURNDATACOPY := 0x3e (only parsing).
Abbreviation EXTCODEHASH := 0x3f (only parsing).
Abbreviation BLOCKHASH := 0x40 (only parsing).
Abbreviation COINBASE := 0x41 (only parsing).
Abbreviation TIMESTAMP := 0x42 (only parsing).
Abbreviation NUMBER := 0x43 (only parsing).
Abbreviation DIFFICULTY := 0x44 (only parsing).
Abbreviation GASLIMIT := 0x45 (only parsing).
Abbreviation POP := 0x50 (only parsing).
Abbreviation MLOAD := 0x51 (only parsing).
Abbreviation MSTORE := 0x52 (only parsing).
Abbreviation MSTORE8 := 0x53 (only parsing).
Abbreviation SLOAD := 0x54 (only parsing).
Abbreviation SSTORE := 0x55 (only parsing).
Abbreviation JUMP := 0x56 (only parsing).
Abbreviation JUMPI := 0x57 (only parsing).
Abbreviation PC := 0x58 (only parsing).
Abbreviation MSIZE := 0x59 (only parsing).
Abbreviation GAS := 0x5a (only parsing).
Abbreviation JUMPDEST := 0x5b (only parsing).
Abbreviation PUSH1 := 0x60 (only parsing).
Abbreviation PUSH2 := 0x61 (only parsing).
Abbreviation PUSH3 := 0x62 (only parsing).
Abbreviation PUSH4 := 0x63 (only parsing).
Abbreviation PUSH5 := 0x64 (only parsing).
Abbreviation PUSH6 := 0x65 (only parsing).
Abbreviation PUSH7 := 0x66 (only parsing).
Abbreviation PUSH8 := 0x67 (only parsing).
Abbreviation PUSH9 := 0x68 (only parsing).
Abbreviation PUSH10 := 0x69 (only parsing).
Abbreviation PUSH11 := 0x6a (only parsing).
Abbreviation PUSH12 := 0x6b (only parsing).
Abbreviation PUSH13 := 0x6c (only parsing).
Abbreviation PUSH14 := 0x6d (only parsing).
Abbreviation PUSH15 := 0x6e (only parsing).
Abbreviation PUSH16 := 0x6f (only parsing).
Abbreviation PUSH17 := 0x70 (only parsing).
Abbreviation PUSH18 := 0x71 (only parsing).
Abbreviation PUSH19 := 0x72 (only parsing).
Abbreviation PUSH20 := 0x73 (only parsing).
Abbreviation PUSH21 := 0x74 (only parsing).
Abbreviation PUSH22 := 0x75 (only parsing).
Abbreviation PUSH23 := 0x76 (only parsing).
Abbreviation PUSH24 := 0x77 (only parsing).
Abbreviation PUSH25 := 0x78 (only parsing).
Abbreviation PUSH26 := 0x79 (only parsing).
Abbreviation PUSH27 := 0x7a (only parsing).
Abbreviation PUSH28 := 0x7b (only parsing).
Abbreviation PUSH29 := 0x7c (only parsing).
Abbreviation PUSH30 := 0x7d (only parsing).
Abbreviation PUSH31 := 0x7e (only parsing).
Abbreviation PUSH32 := 0x7f (only parsing).
Abbreviation DUP1 := 0x80 (only parsing).
Abbreviation DUP2 := 0x81 (only parsing).
Abbreviation DUP3 := 0x82 (only parsing).
Abbreviation DUP4 := 0x83 (only parsing).
Abbreviation DUP5 := 0x84 (only parsing).
Abbreviation DUP6 := 0x85 (only parsing).
Abbreviation DUP7 := 0x86 (only parsing).
Abbreviation DUP8 := 0x87 (only parsing).
Abbreviation DUP9 := 0x88 (only parsing).
Abbreviation DUP10 := 0x89 (only parsing).
Abbreviation DUP11 := 0x8a (only parsing).
Abbreviation DUP12 := 0x8b (only parsing).
Abbreviation DUP13 := 0x8c (only parsing).
Abbreviation DUP14 := 0x8d (only parsing).
Abbreviation DUP15 := 0x8e (only parsing).
Abbreviation DUP16 := 0x8f (only parsing).
Abbreviation SWAP1 := 0x90 (only parsing).
Abbreviation SWAP2 := 0x91 (only parsing).
Abbreviation SWAP3 := 0x92 (only parsing).
Abbreviation SWAP4 := 0x93 (only parsing).
Abbreviation SWAP5 := 0x94 (only parsing).
Abbreviation SWAP6 := 0x95 (only parsing).
Abbreviation SWAP7 := 0x96 (only parsing).
Abbreviation SWAP8 := 0x97 (only parsing).
Abbreviation SWAP9 := 0x98 (only parsing).
Abbreviation SWAP10 := 0x99 (only parsing).
Abbreviation SWAP11 := 0x9a (only parsing).
Abbreviation SWAP12 := 0x9b (only parsing).
Abbreviation SWAP13 := 0x9c (only parsing).
Abbreviation SWAP14 := 0x9d (only parsing).
Abbreviation SWAP15 := 0x9e (only parsing).
Abbreviation SWAP16 := 0x9f (only parsing).
Abbreviation LOG0 := 0xa0 (only parsing).
Abbreviation LOG1 := 0xa1 (only parsing).
Abbreviation LOG2 := 0xa2 (only parsing).
Abbreviation LOG3 := 0xa3 (only parsing).
Abbreviation LOG4 := 0xa4 (only parsing).
Abbreviation PUSH := 0xb0 (only parsing).
Abbreviation DUP := 0xb1 (only parsing).
Abbreviation SWAP := 0xb2 (only parsing).
Abbreviation CREATE := 0xf0 (only parsing).
Abbreviation CALL := 0xf1 (only parsing).
Abbreviation CALLCODE := 0xf2 (only parsing).
Abbreviation RETURN := 0xf3 (only parsing).
Abbreviation DELEGATECALL := 0xf4 (only parsing).
Abbreviation CREATE2 := 0xf5 (only parsing).
Abbreviation STATICCALL := 0xfa (only parsing).
Abbreviation REVERT := 0xfd (only parsing).
Abbreviation SELFDESTRUCT := 0xff (only parsing).

Definition IsPush (op : OpCode) : bool :=
  existsb (Z.eqb op)
    [PUSH1; PUSH2; PUSH3; PUSH4; PUSH5; PUSH6; PUSH7; PUSH8; PUSH9; PUSH10; PUSH11;
     PUSH12; PUSH13; PUSH14; PUSH15; PUSH16; PUSH17; PUSH18; PUSH19; PUSH20; PUSH21;
     PUSH22; PUSH23; PUSH24; PUSH25; PUSH26; PUSH27; PUSH28; PUSH29; PUSH30; PUSH31;
     PUSH32].

Definition IsStaticJump (op : OpCode) : bool := op =? JUMP.

Definition opCodeToString : list (OpCode * string) :=
  [(STOP, "STOP");
   (ADD, "ADD");
   (MUL, "MUL");
   (SUB, "SUB");
   (DIV, "DIV");
   (SDIV, "SDIV");
   (MOD, "MOD");
   (SMOD, "SMOD");
   (EXP, "EXP");
   (NOT, "NOT");
   (LT, "LT");
   (GT, "GT");
   (SLT, "SLT");
   (SGT, "SGT");
   (EQ, "EQ");
   (ISZERO, "ISZERO");
   (SIGNEXTEND, "SIGNEXTEND");
   (AND, "AND");
   (OR, "OR");
   (XOR, "XOR");
   (BYTE, "BYTE");
   (SHL, "SHL");
   (SHR, "SHR");
   (SAR, "SAR");
   (ADDMOD, "ADDMOD");
   (MULMOD, "MULMOD");
   (SHA3, "SHA3");
   (ADDRESS, "ADDRESS");
   (BALANCE, "BALANCE");
   (ORIGIN, "ORIGIN");
   (CALLER, "CALLER");
   (CALLVALUE, "CALLVALUE");
   (CALLDATALOAD, "CALLDATALOAD");
   (CALLDATASIZE, "CALLDATASIZE");
   (CALLDATACOPY, "CALLDATACOPY");
   (CODESIZE, "CODESIZE");
   (CODECOPY, "CODECOPY");
   (GASPRICE, "GASPRICE");
   (EXTCODESIZE, "EXTCODESIZE");
   (EXTCODECOPY, "EXTCODECOPY");
   (RETURNDATASIZE, "RETURNDATASIZE");
   (RETURNDATACOPY, "RETURNDATACOPY");
   (EXTCODEHASH, "EXTCODEHASH");
   (BLOCKHASH, "BLOCKHASH");
   (COINBASE, "COINBASE");
   (TIMESTAMP, "TIMESTAMP");
   (NUMBER, "NUMBER");
   (DIFFICULTY, "DIFFICULTY");
   (GASLIMIT, "GASLIMIT");
   (POP, "POP");
   (MLOAD, "MLOAD");
   (MSTORE, "MSTORE");
   (MSTORE8, "MSTORE8");
   (SLOAD, "SLOAD");
   (SSTORE, "SSTORE");
   (JUMP, "JUMP");
   (JUMPI, "JUMPI");
   (PC, "PC");
   (MSIZE, "MSIZE");
   (GAS, "GAS");
   (JUMPDEST, "JUMPDEST");
   (PUSH1, "PUSH1");
   (PUSH2, "PUSH2");
   (PUSH3, "PUSH3");
   (PUSH4, "PUSH4");
   (PUSH5, "PUSH5");
   (PUSH6, "PUSH6");
   (PUSH7, "PUSH7");
   (PUSH8, "PUSH8");
   (PUSH9, "PUSH9");
   (PUSH10, "PUSH10");
   (PUSH11, "PUSH11");
   (PUSH12, "PUSH12");
   (PUSH13, "PUSH13");
   (PUSH14, "PUSH14");
   (PUSH15, "PUSH15");
   (PUSH16, "PUSH16");
   (PUSH17, "PUSH17");
   (PUSH18, "PUSH18");
   (PUSH19, "PUSH19");
   (PUSH20, "PUSH20");
   (PUSH21, "PUSH21");
   (PUSH22, "PUSH22");
   (PUSH23, "PUSH23");
   (PUSH24, "PUSH24");
   (PUSH25, "PUSH25");
   (PUSH26, "PUSH26");
   (PUSH27, "PUSH27");
   (PUSH28, "PUSH28");
   (PUSH29, "PUSH29");
   (PUSH30, "PUSH30");
   (PUSH31, "PUSH31");
   (PUSH32, "PUSH32");
   (DUP1, "DUP1");
   (DUP2, "DUP2");
   (DUP3, "DUP3");
   (DUP4, "DUP4");
   (DUP5, "DUP5");
   (DUP6, "DUP6");
   (DUP7, "DUP7");
   (DUP8, "DUP8");
   (DUP9, "DUP9");
   (DUP10, "DUP10");
   (DUP11, "DUP11");
   (DUP12, "DUP12");
   (DUP13, "DUP13");
   (DUP14, "DUP14");
   (DUP15, "DUP15");
   (DUP16, "DUP16");
   (SWAP1, "SWAP1");
   (SWAP2, "SWAP2");
   (SWAP3, "SWAP3");
   (SWAP4, "SWAP4");
   (SWAP5, "SWAP5");
   (SWAP6, "SWAP6");
   (SWAP7, "SWAP7");
   (SWAP8, "SWAP8");
   (SWAP9, "SWAP9");
   (SWAP10, "SWAP10");
   (SWAP11, "SWAP11");
   (SWAP12, "SWAP12");
   (SWAP13, "SWAP13");
   (SWAP14, "SWAP14");
   (SWAP15, "SWAP15");
   (SWAP16, "SWAP16");
   (LOG0, "LOG0");
   (LOG1, "LOG1");
   (LOG2, "LOG2");
   (LOG3, "LOG3");
   (LOG4, "LOG4");
   (CREATE, "CREATE");
   (CALL, "CALL");
   (RETURN, "RETURN");
   (CALLCODE, "CALLCODE");
   (DELEGATECALL, "DELEGATECALL");
   (CREATE2, "CREATE2");
   (STATICCALL, "STATICCALL");
   (REVERT, "REVERT");
   (SELFDESTRUCT, "SELFDESTRUCT");
   (PUSH, "PUSH");
   (DUP, "DUP");
   (SWAP, "SWAP")].

(** Lookup in a Go map literal: the value of the key, if it has one. *)
Fixpoint assoc {A B} (eqb : A -> A -> bool) (k : A) (l : list (A * B)) : option B :=
  match l with
  | [] => None
  | (k', v) :: l' => if eqb k k' then Some v else assoc eqb k l'
  end.

(** [%x] of a byte. *)
Definition hex_digit (d : Z) : string :=
  default "f" (["0"; "1"; "2"; "3"; "4"; "5"; "6"; "7"; "8"; "9"; "a"; "b"; "c"; "d"; "e"]
                 !! Z.to_nat d).
Definition hex_byte (b : Z) : string :=
  if b <? 16 then hex_digit b else hex_digit (b / 16) +:+ hex_digit (b mod 16).

(** [OpCode.String]. The map returns the empty string for a missing key. *)
Definition OpCode_String (op : OpCode) : string :=
  let str := default EmptyString (assoc Z.eqb op opCodeToString) in
  match str with
  | EmptyString => "Missing opcode 0x" +:+ hex_byte op
  | _ => str
  end.

Definition stringToOp : list (string * OpCode) :=
  [("STOP", STOP);
   ("ADD", ADD);
   ("MUL", MUL);
   ("SUB", SUB);
   ("DIV", DIV);
   ("SDIV", SDIV);
   ("MOD", MOD);
   ("SMOD", SMOD);
   ("EXP", EXP);
   ("NOT", NOT);
   ("LT", LT);
   ("GT", GT);
   ("SLT", SLT);
   ("SGT", SGT);
   ("EQ", EQ);
   ("ISZERO", ISZERO);
   ("SIGNEXTEND", SIGNEXTEND);
   ("AND", AND);
   ("OR", OR);
   ("XOR", XOR);
   ("BYTE", BYTE);
   ("SHL", SHL);
   ("SHR", SHR);
   ("SAR", SAR);
   ("ADDMOD", ADDMOD);
   ("MULMOD", MULMOD);
   ("SHA3", SHA3);
   ("ADDRESS", ADDRESS);
   ("BALANCE", BALANCE);
   ("ORIGIN", ORIGIN);
   ("CALLER", CALLER);
   ("CALLVALUE", CALLVALUE);
   ("CALLDATALOAD", CALLDATALOAD);
   ("CALLDATASIZE", CALLDATASIZE);
   ("CALLDATACOPY", CALLDATACOPY);
   ("DELEGATECALL", DELEGATECALL);
   ("STATICCALL", STATICCALL);
   ("CODESIZE", CODESIZE);
   ("CODECOPY", CODECOPY);
   ("GASPRICE", GASPRICE);
   ("EXTCODESIZE", EXTCODESIZE);
   ("EXTCODECOPY", EXTCODECOPY);
   ("RETURNDATASIZE", RETURNDATASIZE);
   ("RETURNDATACOPY", RETURNDATACOPY);
   ("EXTCODEHASH", EXTCODEHASH);
   ("BLOCKHASH", BLOCKHASH);
   ("COINBASE", COINBASE);
   ("TIMESTAMP", TIMESTAMP);
   ("NUMBER", NUMBER);
   ("DIFFICULTY", DIFFICULTY);
   ("GASLIMIT", GASLIMIT);
   ("POP", POP);
   ("MLOAD", MLOAD);
   ("MSTORE", MSTORE);
   ("MSTORE8", MSTORE8);
   ("SLOAD", SLOAD);
   ("SSTORE", SSTORE);
   ("JUMP", JUMP);
   ("JUMPI", JUMPI);
   ("PC", PC);
   ("MSIZE", MSIZE);
   ("GAS", GAS);
   ("JUMPDEST", JUMPDEST);
   ("PUSH1", PUSH1);
   ("PUSH2", PUSH2);
   ("PUSH3", PUSH3);
   ("PUSH4", PUSH4);
   ("PUSH5", PUSH5);
   ("PUSH6", PUSH6);
   ("PUSH7", PUSH7);
   ("PUSH8", PUSH8);
   ("PUSH9", PUSH9);
   ("PUSH10", PUSH10);
   ("PUSH11", PUSH11);
   ("PUSH12", PUSH12);
   ("PUSH13", PUSH13);
   ("PUSH14", PUSH14);
   ("PUSH15", PUSH15);
   ("PUSH16", PUSH16);
   ("PUSH17", PUSH17);
   ("PUSH18", PUSH18);
   ("PUSH19", PUSH19);
   ("PUSH20", PUSH20);
   ("PUSH21", PUSH21);
   ("PUSH22", PUSH22);
   ("PUSH23", PUSH23);
   ("PUSH24", PUSH24);
   ("PUSH25", PUSH25);
   ("PUSH26", PUSH26);
   ("PUSH27", PUSH27);
   ("PUSH28", PUSH28);
   ("PUSH29", PUSH29);
   ("PUSH30", PUSH30);
   ("PUSH31", PUSH31);
   ("PUSH32", PUSH32);
   ("DUP1", DUP1);
   ("DUP2", DUP2);
   ("DUP3", DUP3);
   ("DUP4", DUP4);
   ("DUP5", DUP5);
   ("DUP6", DUP6);
   ("DUP7", DUP7);
   ("DUP8", DUP8);
   ("DUP9", DUP9);
   ("DUP10", DUP10);
   ("DUP11", DUP11);
   ("DUP12", DUP12);
   ("DUP13", DUP13);
   ("DUP14", DUP14);
   ("DUP15", DUP15);
   ("DUP16", DUP16);
   ("SWAP1", SWAP1);
   ("SWAP2", SWAP2);
   ("SWAP3", SWAP3);
   ("SWAP4", SWAP4);
   ("SWAP5", SWAP5);
   ("SWAP6", SWAP6);
   ("SWAP7", SWAP7);
   ("SWAP8", SWAP8);
   ("SWAP9", SWAP9);
   ("SWAP10", SWAP10);
   ("SWAP11", SWAP11);
   ("SWAP12", SWAP12);
   ("SWAP13", SWAP13);
   ("SWAP14", SWAP14);
   ("SWAP15", SWAP15);
   ("SWAP16", SWAP16);
   ("LOG0", LOG0);
   ("LOG1", LOG1);
   ("LOG2", LOG2);
   ("LOG3", LOG3);
   ("LOG4", LOG4);
   ("CREATE", CREATE);
   ("CREATE2", CREATE2);
   ("CALL", CALL);
   ("RETURN", RETURN);
   ("CALLCODE", CALLCODE);
   ("REVERT", REVERT);
   ("SELFDESTRUCT", SELFDESTRUCT)].

(** The map returns opcode 0 for a missing key. *)
Definition StringToOp (str : string) : OpCode :=
  default 0 (assoc String.eqb str stringToOp).

(** ** Lemmas *)

(** Every byte, to check a fact about opcodes one by one. *)
Definition all_bytes : list Z := seqZ 0 256.

Lemma all_bytes_forallb (P : Z -> bool) :
  forallb P all_bytes = true -> forall b, is_byte b -> P b = true.
Proof.
  intros HP b Hb. rewrite forallb_forall in HP. apply HP.
  apply list_elem_of_In, elem_of_seqZ. unfold is_byte in Hb. lia.
Qed.

Lemma IsPush_spec op : is_byte op -> IsPush op = (96 <=? op) && (op <=? 127).
Proof.
  intros Hb. apply Bool.eqb_prop.
  apply (all_bytes_forallb (fun op => Bool.eqb (IsPush op) ((96 <=? op) && (op <=? 127))));
    [by vm_compute|done].
Qed.

(** The opcodes that have a name in both tables. *)
Definition named (op : OpCode) : bool :=
  match assoc Z.eqb op opCodeToString with
  | Some _ => negb (existsb (Z.eqb op) [PUSH; DUP; SWAP])
  | None => false
  end.

(** Printing an opcode and reading the name back gives the opcode for every
    named opcode; every other byte, the pseudo opcodes [PUSH], [DUP] and [SWAP]
    included, reads back as [STOP]. *)
Theorem StringToOp_String op :
  is_byte op -> StringToOp (OpCode_String op) = if named op then op else STOP.
Proof.
  intros Hb. apply Z.eqb_eq.
  apply (all_bytes_forallb (fun op =>
    StringToOp (OpCode_String op) =? (if named op then op else STOP))); [by vm_compute|done].
Qed.

Lemma StringToOp_String_witness :
  is_byte SELFDESTRUCT /\ StringToOp (OpCode_String SELFDESTRUCT) = SELFDESTRUCT /\
  StringToOp (OpCode_String 0xb0) = STOP.
Proof.
  assert (is_byte SELFDESTRUCT /\ is_byte 0xb0) as [H1 H2] by (split; split; by vm_compute).
  split; [exact H1|]. split; [exact (StringToOp_String SELFDESTRUCT H1)|].
  exact (StringToOp_String 0xb0 H2).
Defined.
