(* ===== verification/Rlp.v ===== *)
(** * Recursive length prefix encoding

    Models [rlp/encode.go] and [rlp/raw.go]: the encoder buffer, which keeps
    string data and list headers apart until the sizes of the lists are known,
    the writers of the basic types, and the splitting of encoded data. The
    choice of a writer by reflection is the constructor of [Item]. *)

From S2P Require Import Prelude CommonMath.
Local Open Scope Z_scope.

(** ** encode.go *)

(** A value by the kind the reflection of [makeWriter] finds. *)
#[warnings="-register-all"]
Inductive Item : Type :=
| IBytes (b : bytes)
| IUint (i : Z)
| IBool (b : bool)
| IBig (i : Z)
| IRaw (b : bytes)
| IList (l : list Item).

Record listhead : Type := mkListhead { lh_offset : Z; lh_size : Z }.
Record encbuf : Type := mkEncbuf {
  str : bytes;
  lheads : list listhead;
  lhsize : Z;
}.

(** The least number of bytes of a number, big endian. *)
Definition putint (i : Z) : bytes :=
  if i <? 2 ^ 8 then be_enc 1 i
  else if i <? 2 ^ 16 then be_enc 2 i
  else if i <? 2 ^ 24 then be_enc 3 i
  else if i <? 2 ^ 32 then be_enc 4 i
  else if i <? 2 ^ 40 then be_enc 5 i
  else if i <? 2 ^ 48 then be_enc 6 i
  else if i <? 2 ^ 56 then be_enc 7 i
  else be_enc 8 i.

(** [intsize] counts how often the number can be shifted right by a byte; it
    is called on numbers of at most 64 bits, which eight rounds use up. *)
Fixpoint intsize_loop (fuel : nat) (i : Z) (size : Z) : Z :=
  match fuel with
  | O => size
  | S fuel' =>
      let i := Z.shiftr i 8 in
      if i =? 0 then size else intsize_loop fuel' i (size + 1)
  end.
Definition intsize (i : Z) : Z := intsize_loop 8 i 1.

Definition headsize (size : Z) : Z := if size <? 56 then 1 else 1 + intsize size.
Definition puthead (smalltag largetag size : Z) : bytes :=
  if size <? 56 then [u8 (smalltag + u8 size)]
  else let s := putint size in u8 (largetag + u8 (zlen s)) :: s.
Definition listhead_encode (head : listhead) : bytes := puthead 0xc0 0xf7 (lh_size head).

Definition encbuf_reset : encbuf := {| str := []; lheads := []; lhsize := 0 |}.
Definition encbuf_size (w : encbuf) : Z := zlen (str w) + lhsize w.
(** [w.str = append(w.str, b...)] *)
Definition append_str (b : bytes) (w : encbuf) : encbuf :=
  {| str := str w ++ b; lheads := lheads w; lhsize := lhsize w |}.

Definition encodeStringHeader (size : Z) (w : encbuf) : encbuf :=
  if size <? 56 then append_str [u8 (0x80 + u8 size)] w
  else let s := putint size in append_str (u8 (0xb7 + u8 (zlen s)) :: s) w.
Definition encodeString (b : bytes) (w : encbuf) : encbuf :=
  match b with
  | [x] => if x <=? 0x7f then append_str [x] w else append_str b (encodeStringHeader (zlen b) w)
  | _ => append_str b (encodeStringHeader (zlen b) w)
  end.

(** [list] returns the index of the new header; [listEnd] updates it. *)
Definition encbuf_list (w : encbuf) : nat * encbuf :=
  (length (lheads w),
   {| str := str w; lheads := lheads w ++ [{| lh_offset := zlen (str w); lh_size := lhsize w |}];
      lhsize := lhsize w |}).
Definition listEnd (i : nat) (w : encbuf) : option encbuf :=
  lh ← lheads w !! i;
  let sz := encbuf_size w - lh_offset lh - lh_size lh in
  Some {| str := str w;
          lheads := <[i := {| lh_offset := lh_offset lh; lh_size := sz |}]> (lheads w);
          lhsize := lhsize w + (if sz <? 56 then 1 else 1 + intsize sz) |}.

Definition writeUint (i : Z) (w : encbuf) : encbuf :=
  if i =? 0 then append_str [0x80] w
  else if i <? 128 then append_str [u8 i] w
  else let s := putint i in append_str (u8 (0x80 + u8 (zlen s)) :: s) w.
Definition writeBool (b : bool) (w : encbuf) : encbuf :=
  append_str [if b then 0x01 else 0x80] w.
(** [None]: negative integers cannot be encoded. *)
Definition writeBigInt (i : Z) (w : encbuf) : option encbuf :=
  if i <? 0 then None
  else if i =? 0 then Some (append_str [0x80] w)
  else Some (encodeString (big_bytes i) w).

(** The writer of an item; a list writes a header, its elements and closes the
    header, as the writers of slices and structs do. *)
Fixpoint write_item (it : Item) (w : encbuf) : option encbuf :=
  match it with
  | IBytes b => Some (encodeString b w)
  | IUint i => Some (writeUint i w)
  | IBool b => Some (writeBool b w)
  | IBig i => writeBigInt i w
  | IRaw b => Some (append_str b w)
  | IList l =>
      let '(lh, w) := encbuf_list w in
      w ← (fix write_items (l : list Item) (w : encbuf) : option encbuf :=
             match l with
             | [] => Some w
             | it :: l' => w ← write_item it w; write_items l' w
             end) l w;
      listEnd lh w
  end.

(** One round of the loop of [toBytes]: the string data before the header, then
    the header, copied into [out]; [None] is an index past the end of [out]. *)
Definition put (out : bytes) (pos : Z) (b : bytes) : option bytes :=
  if pos + zlen b <=? zlen out then Some (copy_at out pos (zlen b) b) else None.
Fixpoint toBytes_loop (w : encbuf) (heads : list listhead) (out : bytes) (pos strpos : Z)
    : option (bytes * Z * Z) :=
  match heads with
  | [] => Some (out, pos, strpos)
  | head :: heads' =>
      let piece := slice (str w) strpos (lh_offset head) in
      let n := Z.min (zlen out - pos) (zlen piece) in
      let out := copy_at out pos n piece in
      let pos := pos + n in
      let strpos := strpos + n in
      let enc := listhead_encode head in
      out ← put out pos enc;
      toBytes_loop w heads' out (pos + zlen enc) strpos
  end.
Definition toBytes (w : encbuf) : option bytes :=
  let out := zeros (encbuf_size w) in
  '(out, pos, strpos) ← toBytes_loop w (lheads w) out 0 0;
  let piece := slice (str w) strpos (zlen (str w)) in
  Some (copy_at out pos (zlen out - pos) piece).

Definition EncodeToBytes (it : Item) : option bytes :=
  w ← write_item it encbuf_reset; toBytes w.

(** ** raw.go *)

Inductive Kind : Type := KByte | KString | KList.
Inductive rlpError : Type :=
| ErrUnexpectedEOF
| ErrCanonSize
| ErrValueTooLarge
| ErrExpectedString
| ErrExpectedList.

Definition ListSize (contentSize : Z) : Z := u64 (headsize contentSize + contentSize).

Definition readSize (b : bytes) (slen : Z) : rlpError + Z :=
  if zlen b <? slen then inl ErrUnexpectedEOF
  else
    let s := if (1 <=? slen) && (slen <=? 8) then be_dec (take (Z.to_nat slen) b) else 0 in
    if (s <? 56) || (default 0 (head b) =? 0) then inl ErrCanonSize
    else inr s.

Definition readKind (buf : bytes) : rlpError + (Kind * Z * Z) :=
  match buf with
  | [] => inl ErrUnexpectedEOF
  | b :: rest =>
      let r :=
        if b <? 0x80 then inr (KByte, 0, 1)
        else if b <? 0xb8 then
          let contentsize := b - 0x80 in
          if (contentsize =? 1) && (match rest with x :: _ => x <? 128 | [] => false end)
          then inl ErrCanonSize
          else inr (KString, 1, contentsize)
        else if b <? 0xc0 then
          match readSize rest (b - 0xb7) with
          | inl e => inl e
          | inr s => inr (KString, b - 0xb7 + 1, s)
          end
        else if b <? 0xf8 then inr (KList, 1, b - 0xc0)
        else
          match readSize rest (b - 0xf7) with
          | inl e => inl e
          | inr s => inr (KList, b - 0xf7 + 1, s)
          end in
      match r with
      | inl e => inl e
      | inr (k, tagsize, contentsize) =>
          if u64 (zlen buf - tagsize) <? contentsize then inl ErrValueTooLarge
          else inr (k, tagsize, contentsize)
      end
  end.

Definition Split (b : bytes) : rlpError + (Kind * bytes * bytes) :=
  match readKind b with
  | inl e => inl e
  | inr (k, ts, cs) => inr (k, slice b ts (ts + cs), drop (Z.to_nat (ts + cs)) b)
  end.
Definition SplitString (b : bytes) : rlpError + (bytes * bytes) :=
  match Split b with
  | inl e => inl e
  | inr (KList, _, _) => inl ErrExpectedString
  | inr (_, content, rest) => inr (content, rest)
  end.
Definition SplitList (b : bytes) : rlpError + (bytes * bytes) :=
  match Split b with
  | inl e => inl e
  | inr (KList, content, rest) => inr (content, rest)
  | inr (_, _, _) => inl ErrExpectedList
  end.

(** Every round drops at least one byte, so the length bounds the rounds. *)
Fixpoint CountValues_loop (fuel : nat) (b : bytes) (i : Z) : option (rlpError + Z) :=
  match fuel with
  | O => None
  | S fuel' =>
      if 0 <? zlen b then
        match readKind b with
        | inl e => Some (inl e)
        | inr (_, tagsize, size) => CountValues_loop fuel' (drop (Z.to_nat (tagsize + size)) b) (i + 1)
        end
      else Some (inr i)
  end.
Definition CountValues (b : bytes) : option (rlpError + Z) :=
  CountValues_loop (S (length b)) b 0.
