(* ===== verification/RlpSpec.v ===== *)
(** * The encoding is the recursive definition

    The encoder of [rlp/encode.go] against the definition of the encoding by
    recursion on the value, and [Split] and [CountValues] of [rlp/raw.go] on
    what it produces. *)

From S2P Require Import Prelude CommonMath Rlp.
Local Open Scope Z_scope.

(** ** Reference *)

(** The header of a string or list of [n] bytes. *)
Definition rlp_head (small large n : Z) : bytes :=
  if n <? 56 then [small + n] else large + zlen (big_bytes n) :: big_bytes n.
Definition rlp_string (b : bytes) : bytes :=
  match b with
  | [x] => if x <? 0x80 then [x] else [0x81; x]
  | _ => rlp_head 0x80 0xb7 (zlen b) ++ b
  end.
Definition rlp_list (payload : bytes) : bytes := rlp_head 0xc0 0xf7 (zlen payload) ++ payload.

Fixpoint rlp (it : Item) : option bytes :=
  match it with
  | IBytes b => Some (rlp_string b)
  | IUint i => Some (rlp_string (big_bytes i))
  | IBool b => Some (rlp_string (if b then [1] else []))
  | IBig i => if i <? 0 then None else Some (rlp_string (big_bytes i))
  | IRaw b => Some b
  | IList l =>
      payload ← (fix rlps (l : list Item) : option bytes :=
        match l with
        | [] => Some []
        | it :: l' => a ← rlp it; b ← rlps l'; Some (a ++ b)
        end) l;
      Some (rlp_list payload)
  end.
Fixpoint rlps (l : list Item) : option bytes :=
  match l with
  | [] => Some []
  | it :: l' => a ← rlp it; b ← rlps l'; Some (a ++ b)
  end.
Lemma rlp_IList l : rlp (IList l) = payload ← rlps l; Some (rlp_list payload).
Proof. done. Qed.

(** The integers fit their type and byte slices their elements. *)
Fixpoint item_ok (it : Item) : Prop :=
  match it with
  | IBytes b | IRaw b => bytes_ok b
  | IUint i => is_u64 i
  | IBool _ | IBig _ => True
  | IList l => (fix all (l : list Item) : Prop := match l with [] => True | it :: l' => item_ok it /\ all l' end) l
  end.
Fixpoint items_ok (l : list Item) : Prop :=
  match l with [] => True | it :: l' => item_ok it /\ items_ok l' end.

(** Induction on items, with the elements of lists. *)
Section item_induction.
Context (P : Item -> Prop) (Q : list Item -> Prop).
Context (Hbytes : forall b, P (IBytes b)) (Huint : forall i, P (IUint i)) (Hbool : forall b, P (IBool b)).
Context (Hbig : forall i, P (IBig i)) (Hraw : forall b, P (IRaw b)) (Hlist : forall l, Q l -> P (IList l)).
Context (Hnil : Q []) (Hcons : forall it l, P it -> Q l -> Q (it :: l)).

Fixpoint item_ind2 (it : Item) : P it :=
  match it with
  | IBytes b => Hbytes b
  | IUint i => Huint i
  | IBool b => Hbool b
  | IBig i => Hbig i
  | IRaw b => Hraw b
  | IList l => Hlist l ((fix go (l : list Item) : Q l :=
      match l with [] => Hnil | it :: l' => Hcons it l' (item_ind2 it) (go l') end) l)
  end.
Lemma items_ind2 l : Q l.
Proof. induction l; [apply Hnil|apply Hcons; [apply item_ind2|done]]. Qed.
End item_induction.

(** ** Sizes *)

(** [k] bytes are what a number needs. *)
Definition needs (k : nat) (i : Z) : Prop := 256 ^ (Z.of_nat k - 1) <= i < 256 ^ Z.of_nat k.

Lemma pow_256 n : 0 <= n -> 256 ^ n = 2 ^ (8 * n).
Proof. intros. by rewrite Z.pow_mul_r by lia. Qed.
Lemma big_bytes_needs k i : (1 <= k)%nat -> needs k i -> big_bytes i = be_enc k i.
Proof.
  intros Hk [Hlo Hhi]. unfold big_bytes.
  assert (0 < 256 ^ (Z.of_nat k - 1)) by (apply Z.pow_pos_nonneg; lia).
  rewrite Z.abs_eq by lia. f_equal. rewrite !pow_256 in * by lia.
  assert (BitLen i <= 8 * Z.of_nat k) by (apply BitLen_le; lia).
  assert (8 * (Z.of_nat k - 1) < BitLen i).
  { apply Z.lt_nge. intros Hle. apply BitLen_le in Hle; lia. }
  apply Nat2Z.inj. rewrite Z2Nat.id by (apply Z.div_pos; lia).
  symmetry. apply (Z.div_unique_pos _ _ _ (BitLen i + 7 - 8 * Z.of_nat k)); lia.
Qed.

Lemma needs_exists i : 0 < i < 2 ^ 64 -> exists k, (1 <= k <= 8)%nat /\ needs k i.
Proof.
  intros Hi. unfold needs.
  destruct (Z.lt_ge_cases i (256 ^ 1)); [exists 1%nat; cbn; lia|].
  destruct (Z.lt_ge_cases i (256 ^ 2)); [exists 2%nat; cbn in *; lia|].
  destruct (Z.lt_ge_cases i (256 ^ 3)); [exists 3%nat; cbn in *; lia|].
  destruct (Z.lt_ge_cases i (256 ^ 4)); [exists 4%nat; cbn in *; lia|].
  destruct (Z.lt_ge_cases i (256 ^ 5)); [exists 5%nat; cbn in *; lia|].
  destruct (Z.lt_ge_cases i (256 ^ 6)); [exists 6%nat; cbn in *; lia|].
  destruct (Z.lt_ge_cases i (256 ^ 7)); [exists 7%nat; cbn in *; lia|].
  exists 8%nat. cbn in *. lia.
Qed.

Lemma putint_spec i : 0 < i < 2 ^ 64 -> putint i = big_bytes i.
Proof.
  intros Hi. destruct (needs_exists i Hi) as (k & Hk & Hn). rewrite (big_bytes_needs k) by (done || lia).
  unfold needs in Hn. unfold putint.
  destruct k as [|[|[|[|[|[|[|[|[|k]]]]]]]]]; try lia; cbn in Hn;
    repeat match goal with |- context [?a <? ?b] => destruct (Z.ltb_spec a b); [lia || reflexivity|try lia] end;
    reflexivity.
Qed.

Lemma intsize_loop_spec k fuel i size :
  (1 <= k <= fuel)%nat -> needs k i -> intsize_loop fuel i size = size + Z.of_nat k - 1.
Proof.
  revert k i size. induction fuel as [|fuel IH]; intros k i size Hk [Hlo Hhi]; [lia|]. cbn [intsize_loop].
  rewrite Z.shiftr_div_pow2 by lia. change (2 ^ 8) with 256.
  destruct (decide (k = 1%nat)) as [->|Hk1].
  - rewrite Z.div_small by (cbn in *; lia). cbn. lia.
  - assert (needs (k - 1) (i / 256)) as Hn.
    { split; [apply Z.div_le_lower_bound|apply Z.div_lt_upper_bound]; try lia; rewrite <- Z.pow_succ_r by lia;
        (eapply Z.le_trans || eapply Z.lt_le_trans); try eassumption; apply Z.eq_le_incl; f_equal; lia. }
    assert (0 < 256 ^ (Z.of_nat (k - 1) - 1)) by (apply Z.pow_pos_nonneg; lia).
    destruct (Z.eqb_spec (i / 256) 0) as [Hz|_]; [destruct Hn; lia|]. rewrite (IH (k - 1)%nat) by (done || lia). lia.
Qed.
Lemma intsize_spec i : 0 < i < 2 ^ 64 -> intsize i = zlen (big_bytes i).
Proof.
  intros Hi. destruct (needs_exists i Hi) as (k & Hk & Hn). rewrite (big_bytes_needs k) by (done || lia).
  unfold intsize. rewrite (intsize_loop_spec k) by (done || lia). unfold zlen. rewrite length_be_enc. lia.
Qed.
Lemma zlen_big_bytes_u64 i : 0 < i < 2 ^ 64 -> 1 <= zlen (big_bytes i) <= 8.
Proof.
  intros Hi. destruct (needs_exists i Hi) as (k & Hk & Hn). rewrite (big_bytes_needs k) by (done || lia).
  unfold zlen. rewrite length_be_enc. lia.
Qed.

(** ** Headers and strings *)

Lemma puthead_spec small large n :
  0 <= n < 2 ^ 64 -> 0 <= small <= 0xc0 -> 0 <= large <= 0xf7 -> puthead small large n = rlp_head small large n.
Proof.
  intros Hn Hs Hl. unfold puthead, rlp_head. destruct (Z.ltb_spec n 56).
  - rewrite (u8_id n), u8_id by (unfold is_byte; lia). done.
  - rewrite putint_spec by lia. pose proof (zlen_big_bytes_u64 n). rewrite (u8_id (zlen _)), u8_id by (unfold is_byte; lia).
    done.
Qed.
Lemma zlen_rlp_head small large n : 0 <= n < 2 ^ 64 -> zlen (rlp_head small large n) = headsize n.
Proof.
  intros Hn. unfold rlp_head, headsize. destruct (Z.ltb_spec n 56); [done|].
  rewrite zlen_cons, intsize_spec by lia. lia.
Qed.

Lemma append_str_app a b w : append_str b (append_str a w) = append_str (a ++ b) w.
Proof. unfold append_str. cbn. by rewrite app_assoc. Qed.

Lemma encodeStringHeader_spec n w :
  0 <= n < 2 ^ 64 -> encodeStringHeader n w = append_str (rlp_head 0x80 0xb7 n) w.
Proof.
  intros Hn. rewrite <- puthead_spec by lia. unfold encodeStringHeader, puthead. by destruct (n <? 56).
Qed.
Lemma encodeString_spec b w :
  zlen b < 2 ^ 64 -> encodeString b w = append_str (rlp_string b) w.
Proof.
  intros Hl. unfold encodeString, rlp_string. pose proof (zlen_nonneg b).
  destruct b as [|x [|y b]].
  - rewrite encodeStringHeader_spec by done. by rewrite append_str_app.
  - destruct (Z.leb_spec x 0x7f), (Z.ltb_spec x 0x80); try lia; [done|].
    rewrite encodeStringHeader_spec by done. by rewrite append_str_app.
  - rewrite encodeStringHeader_spec by lia. by rewrite append_str_app.
Qed.

Lemma writeUint_spec i w : is_u64 i -> writeUint i w = append_str (rlp_string (big_bytes i)) w.
Proof.
  unfold is_u64. intros Hi. unfold writeUint. destruct (Z.eqb_spec i 0) as [->|Hne]; [done|].
  destruct (needs_exists i) as (k & Hk & Hn); [lia|].
  pose proof (zlen_big_bytes_u64 i ltac:(lia)) as Hl. rewrite (big_bytes_needs k) in * by (done || lia).
  destruct (Z.ltb_spec i 128).
  - assert (k = 1%nat) as ->.
    { destruct k as [|[|k]]; [lia|done|]. exfalso. destruct Hn as [Hn _].
      assert (256 ^ 1 <= 256 ^ (Z.of_nat (S (S k)) - 1)) by (apply Z.pow_le_mono_r; lia). lia. }
    cbn [be_enc rlp_string]. rewrite Z.pow_0_r, Z.div_1_r, Z.mod_small by lia.
    destruct (Z.ltb_spec i 0x80); [|lia]. by rewrite u8_id by (unfold is_byte; lia).
  - rewrite putint_spec, (big_bytes_needs k) by (done || lia).
    rewrite (u8_id (zlen _)), u8_id by (unfold is_byte; lia). f_equal.
    unfold rlp_string. destruct (be_enc k i) as [|x [|y b]] eqn:He.
    + by rewrite zlen_nil in Hl.
    + assert (k = 1%nat) as -> by (apply (f_equal length) in He; by rewrite length_be_enc in He).
      cbn in He. injection He as <-. rewrite Z.div_1_r. destruct Hn as [_ Hn]. cbn in Hn.
      rewrite Z.mod_small by lia. by destruct (Z.ltb_spec i 0x80); [lia|].
    + unfold rlp_head. destruct (Z.ltb_spec (zlen (x :: y :: b)) 56); [done|lia].
Qed.

(** ** The buffer *)

(** What the string data [s] from [pos] on and the list headers [hs] stand for. *)
Fixpoint render (s : bytes) (hs : list listhead) (pos : Z) : bytes :=
  match hs with
  | [] => slice s pos (zlen s)
  | h :: hs' => slice s pos (lh_offset h) ++ rlp_head 0xc0 0xf7 (lh_size h) ++ render s hs' (lh_offset h)
  end.
(** The headers lie between two positions, in order. *)
Fixpoint heads_in (lo : Z) (hs : list listhead) (hi : Z) : Prop :=
  match hs with
  | [] => lo <= hi
  | h :: hs' => lo <= lh_offset h /\ 0 <= lh_size h < 2 ^ 64 /\ heads_in (lh_offset h) hs' hi
  end.
Fixpoint heads_len (hs : list listhead) : Z :=
  match hs with [] => 0 | h :: hs' => headsize (lh_size h) + heads_len hs' end.

Lemma heads_in_le lo hs hi : heads_in lo hs hi -> lo <= hi.
Proof. revert lo. induction hs as [|h hs IH]; intros lo; cbn; [done|]. intros (? & ? & ?%IH). lia. Qed.
Lemma heads_in_app lo hs1 mid hs2 hi :
  heads_in lo hs1 mid -> heads_in mid hs2 hi -> heads_in lo (hs1 ++ hs2) hi.
Proof.
  revert lo. induction hs1 as [|h hs1 IH]; intros lo; cbn.
  - intros Hl Hh. destruct hs2; cbn in *; [lia|]. split; [lia|apply Hh].
  - intros (? & ? & ?) ?. auto.
Qed.
Lemma heads_len_app hs1 hs2 : heads_len (hs1 ++ hs2) = heads_len hs1 + heads_len hs2.
Proof. induction hs1 as [|h hs1 IH]; cbn; [lia|]. rewrite IH. lia. Qed.

Lemma slice_split (s : bytes) a b c : 0 <= a <= b -> b <= c -> slice s a c = slice s a b ++ slice s b c.
Proof.
  intros Hab Hbc. unfold slice. replace (Z.to_nat (c - a)) with (Z.to_nat (b - a) + Z.to_nat (c - b))%nat by lia.
  rewrite <- take_take_drop, drop_drop. do 3 f_equal. lia.
Qed.
Lemma slice_app_l (s t : bytes) a b : 0 <= a -> b <= zlen s -> slice (s ++ t) a b = slice s a b.
Proof.
  intros Ha Hb. unfold slice, zlen in *. destruct (Z.le_gt_cases a (Z.of_nat (length s))).
  - rewrite drop_app_le by lia. rewrite take_app_le; [done|]. rewrite length_drop. lia.
  - replace (Z.to_nat (b - a)) with O by lia. done.
Qed.

Lemma zlen_render s hs pos :
  0 <= pos -> heads_in pos hs (zlen s) -> zlen (render s hs pos) = zlen s - pos + heads_len hs.
Proof.
  revert pos. induction hs as [|h hs IH]; intros pos Hp; cbn [render heads_in heads_len].
  - intros Hl. rewrite zlen_slice by lia. lia.
  - intros (Ho & Hs & Hh). pose proof (heads_in_le _ _ _ Hh). rewrite !zlen_app, zlen_slice, zlen_rlp_head, IH by (done || lia). lia.
Qed.

(** Starting earlier, or with more data after the headers. *)
Lemma render_from s hs lo p :
  0 <= lo <= p -> heads_in p hs (zlen s) -> render s hs lo = slice s lo p ++ render s hs p.
Proof.
  intros Hl Hh. pose proof (heads_in_le _ _ _ Hh). destruct hs as [|h hs]; cbn [render].
  - apply slice_split; lia.
  - destruct Hh as (Ho & _). rewrite (slice_split s lo p (lh_offset h)) by lia. by rewrite <- app_assoc.
Qed.
Lemma render_app s1 s2 hs1 hs2 lo :
  0 <= lo -> heads_in lo hs1 (zlen s1) -> heads_in (zlen s1) hs2 (zlen (s1 ++ s2)) ->
  render (s1 ++ s2) (hs1 ++ hs2) lo = render s1 hs1 lo ++ render (s1 ++ s2) hs2 (zlen s1).
Proof.
  revert lo. induction hs1 as [|h hs1 IH]; intros lo Hlo H1 H2; cbn [app render heads_in] in *.
  - rewrite (render_from _ _ lo (zlen s1)) by (done || lia). by rewrite slice_app_l by lia.
  - destruct H1 as (Ho & Hs & Hh). pose proof (heads_in_le _ _ _ Hh).
    rewrite slice_app_l, IH by (done || lia). by rewrite <- !app_assoc.
Qed.

(** From [w] to [w'] the encoding [r] has been written. *)
Definition wrote (w : encbuf) (r : bytes) (w' : encbuf) : Prop :=
  exists s hs, str w' = str w ++ s /\ lheads w' = lheads w ++ hs /\ lhsize w' = lhsize w + heads_len hs /\
    heads_in (zlen (str w)) hs (zlen (str w')) /\ render (str w') hs (zlen (str w)) = r.

Lemma wrote_append w b : wrote w b (append_str b w).
Proof.
  exists b, []. cbn. rewrite zlen_app, app_nil_r. pose proof (zlen_nonneg b).
  split_and!; try done; try lia. unfold slice, zlen. rewrite Nat2Z.id, drop_app_length.
  apply take_ge. lia.
Qed.
Lemma wrote_trans w a w1 b w2 : wrote w a w1 -> wrote w1 b w2 -> wrote w (a ++ b) w2.
Proof.
  intros (s1 & hs1 & Hs1 & Hh1 & Hl1 & Hi1 & <-) (s2 & hs2 & Hs2 & Hh2 & Hl2 & Hi2 & <-).
  exists (s1 ++ s2), (hs1 ++ hs2). pose proof (zlen_nonneg (str w)). split_and!.
  - by rewrite Hs2, Hs1, app_assoc.
  - by rewrite Hh2, Hh1, app_assoc.
  - rewrite heads_len_app. lia.
  - by eapply heads_in_app.
  - rewrite Hs2 in *. by apply render_app.
Qed.

(** Closing a list header turns what was written since into its payload. *)
Lemma wrote_list w w2 payload :
  wrote (encbuf_list w).2 payload w2 -> zlen payload < 2 ^ 64 ->
  exists w3, listEnd (encbuf_list w).1 w2 = Some w3 /\ wrote w (rlp_list payload) w3.
Proof.
  intros (s & hs & Hs & Hh & Hl & Hi & Hr) Hlen. cbn in Hs, Hh, Hl, Hi, Hr. unfold listEnd. cbn [fst encbuf_list].
  rewrite Hh, <- app_assoc, lookup_app_r, Nat.sub_diag by lia. cbn [app lookup list_lookup mbind option_bind lh_offset lh_size].
  assert (encbuf_size w2 - zlen (str w) - lhsize w = zlen payload) as ->.
  { unfold encbuf_size. rewrite <- Hr, zlen_render by (done || apply zlen_nonneg). lia. }
  eexists. split; [reflexivity|]. pose proof (zlen_nonneg payload).
  exists s, ({| lh_offset := zlen (str w); lh_size := zlen payload |} :: hs). cbn [str lheads lhsize].
  split_and!; [done| |cbn [heads_len lh_size]; unfold headsize; lia|cbn; split_and!; done || lia|].
  - rewrite insert_app_r_alt, Nat.sub_diag by lia. done.
  - cbn [render lh_offset lh_size]. rewrite Hr. unfold slice at 1. by rewrite Z.sub_diag.
Qed.

(** ** Writing an item *)

Fixpoint write_items (l : list Item) (w : encbuf) : option encbuf :=
  match l with
  | [] => Some w
  | it :: l' => w ← write_item it w; write_items l' w
  end.
Lemma write_IList l w :
  write_item (IList l) w = w2 ← write_items l (encbuf_list w).2; listEnd (encbuf_list w).1 w2.
Proof. done. Qed.

Lemma zlen_rlp_string b : zlen b <= zlen (rlp_string b).
Proof.
  unfold rlp_string. destruct b as [|x [|y b]]; [done|by case_match|].
  rewrite zlen_app. pose proof (zlen_nonneg (rlp_head 128 183 (zlen (x :: y :: b)))). lia.
Qed.
Lemma zlen_rlp_list b : zlen b <= zlen (rlp_list b).
Proof. unfold rlp_list. rewrite zlen_app. pose proof (zlen_nonneg (rlp_head 192 247 (zlen b))). lia. Qed.
Lemma rlp_head_bytes small large n : 0 <= n < 2 ^ 64 -> 0 <= small <= 200 -> 0 <= large <= 247 -> bytes_ok (rlp_head small large n).
Proof.
  intros Hn Hs Hl. unfold rlp_head. destruct (Z.ltb_spec n 56); constructor; try (unfold is_byte; lia); [constructor| |apply big_bytes_ok].
  pose proof (zlen_big_bytes_u64 n ltac:(lia)). unfold is_byte. lia.
Qed.
Lemma rlp_list_bytes b : bytes_ok b -> zlen b < 2 ^ 64 -> bytes_ok (rlp_list b).
Proof. intros Hb Hl. apply Forall_app. split; [apply rlp_head_bytes; [pose proof (zlen_nonneg b)|..]; lia|done]. Qed.
Lemma rlp_string_bytes b : bytes_ok b -> zlen b < 2 ^ 64 -> bytes_ok (rlp_string b).
Proof.
  intros Hb Hl. pose proof (zlen_nonneg b). assert (bytes_ok (rlp_head 0x80 0xb7 (zlen b) ++ b)) as Hh by (apply Forall_app; split; [apply rlp_head_bytes; lia|done]).
  unfold rlp_string. destruct b as [|x [|y b]]; [done| |done]. by case_match.
Qed.
Lemma writeBigInt_spec i w :
  0 <= i -> zlen (big_bytes i) < 2 ^ 64 -> writeBigInt i w = Some (append_str (rlp_string (big_bytes i)) w).
Proof.
  intros Hi Hl. unfold writeBigInt. destruct (Z.ltb_spec i 0); [lia|].
  destruct (Z.eqb_spec i 0) as [->|]; [done|]. by rewrite encodeString_spec.
Qed.

Lemma write_item_ok it : forall w r,
  item_ok it -> rlp it = Some r -> zlen r < 2 ^ 64 -> exists w', write_item it w = Some w' /\ wrote w r w'.
Proof.
  apply (item_ind2 (fun it => forall w r, item_ok it -> rlp it = Some r -> zlen r < 2 ^ 64 ->
           exists w', write_item it w = Some w' /\ wrote w r w')
         (fun l => forall w r, items_ok l -> rlps l = Some r -> zlen r < 2 ^ 64 ->
           exists w', write_items l w = Some w' /\ wrote w r w')); clear it.
  - intros b w r _ [= <-] Hl. eexists. split; [reflexivity|]. pose proof (zlen_rlp_string b).
    rewrite encodeString_spec by lia. apply wrote_append.
  - intros i w r Hi [= <-] Hl. eexists. split; [reflexivity|]. rewrite writeUint_spec by done. apply wrote_append.
  - intros b w r _ [= <-] Hl. eexists. split; [reflexivity|]. unfold writeBool.
    destruct b; apply wrote_append.
  - intros i w r _ Hr Hl. cbn in Hr. destruct (Z.ltb_spec i 0); [done|]. injection Hr as <-.
    pose proof (zlen_rlp_string (big_bytes i)). eexists. split; [apply writeBigInt_spec; lia|apply wrote_append].
  - intros b w r _ [= <-] Hl. eexists. split; [reflexivity|apply wrote_append].
  - intros l IH w r Hok Hr Hl. rewrite rlp_IList in Hr. destruct (rlps l) as [payload|] eqn:Hp; [|done].
    injection Hr as <-. pose proof (zlen_rlp_list payload).
    destruct (IH (encbuf_list w).2 payload Hok eq_refl ltac:(lia)) as (w2 & Hw2 & Hwr).
    rewrite write_IList, Hw2. apply wrote_list; [done|lia].
  - intros w r _ [= <-] _. exists w. split; [done|].
    exists [], []. cbn. rewrite !app_nil_r. split_and!; try done; try lia. unfold slice. by rewrite Z.sub_diag.
  - intros it l IHi IHl w r [Hi Hl] Hr Hlen. cbn in Hr. destruct (rlp it) as [a|]; [|done].
    destruct (rlps l) as [b|]; [|done]. injection Hr as <-. rewrite zlen_app in Hlen.
    pose proof (zlen_nonneg a). pose proof (zlen_nonneg b).
    destruct (IHi w a Hi eq_refl ltac:(lia)) as (w1 & Hw1 & Hr1).
    destruct (IHl w1 b Hl eq_refl ltac:(lia)) as (w2 & Hw2 & Hr2).
    exists w2. cbn. rewrite Hw1. split; [done|]. by eapply wrote_trans.
Qed.

Lemma write_item_none it : forall w, rlp it = None -> write_item it w = None.
Proof.
  apply (item_ind2 (fun it => forall w, rlp it = None -> write_item it w = None)
           (fun l => forall w, rlps l = None -> write_items l w = None)); clear it; try done.
  - intros i w Hr. cbn in *. unfold writeBigInt. by destruct (i <? 0).
  - intros l IH w Hr. rewrite rlp_IList in Hr. rewrite write_IList. destruct (rlps l); [done|]. by rewrite IH.
  - intros it l IHi IHl w Hr. cbn in *. destruct (rlp it) as [a|]; [|by rewrite IHi].
    destruct (write_item it w); [|done]. cbn in *. apply IHl. by destruct (rlps l).
Qed.

(** ** Rendering the buffer *)

Lemma copy_at_zeros pre p n b :
  zlen b <= n -> zlen b <= p -> copy_at (pre ++ zeros n) (zlen pre) p b = (pre ++ b) ++ zeros (n - zlen b).
Proof.
  intros Hn Hq. unfold copy_at, zlen, zeros in *. rewrite Nat2Z.id, take_app_length, (take_ge b) by lia.
  rewrite drop_app_ge, drop_replicate, <- app_assoc by lia. do 3 f_equal. lia.
Qed.

Lemma toBytes_loop_spec w hs pre strpos : forall rest,
  rest = render (str w) hs strpos -> 0 <= strpos -> heads_in strpos hs (zlen (str w)) ->
  exists out pos strpos', toBytes_loop w hs (pre ++ zeros (zlen rest)) (zlen pre) strpos = Some (out, pos, strpos') /\
    copy_at out pos (zlen out - pos) (slice (str w) strpos' (zlen (str w))) = pre ++ rest.
Proof.
  revert pre strpos. induction hs as [|h hs IH]; intros pre strpos rest -> Hsp Hin; cbn [render heads_in toBytes_loop] in *.
  - eexists _, _, _. split; [reflexivity|]. rewrite zlen_app, zlen_zeros by apply zlen_nonneg.
    rewrite copy_at_zeros, Z.sub_diag by lia. apply app_nil_r.
  - destruct Hin as (Ho & Hsz & Hin). pose proof (heads_in_le _ _ _ Hin).
    set (piece := slice (str w) strpos (lh_offset h)). set (enc := rlp_head 192 247 (lh_size h)).
    set (more := render (str w) hs (lh_offset h)).
    assert (zlen piece = lh_offset h - strpos) as Hp by (apply zlen_slice; lia).
    pose proof (zlen_nonneg piece). pose proof (zlen_nonneg enc). pose proof (zlen_nonneg more).
    assert (listhead_encode h = enc) as -> by (apply puthead_spec; lia).
    rewrite !zlen_app, zlen_zeros by lia. rewrite Z.min_r by lia.
    rewrite copy_at_zeros by lia.
    unfold put. rewrite !zlen_app, zlen_zeros by lia. destruct (Z.leb_spec (zlen pre + zlen piece + zlen enc)
      (zlen pre + zlen piece + (zlen piece + (zlen enc + zlen more) - zlen piece))); [|lia].
    rewrite <- zlen_app, copy_at_zeros by lia. cbn [mbind option_bind].
    rewrite <- (zlen_app (pre ++ piece)).
    replace (zlen piece + (zlen enc + zlen more) - zlen piece - zlen enc) with (zlen more) by lia.
    replace (strpos + zlen piece) with (lh_offset h) by lia.
    destruct (IH ((pre ++ piece) ++ enc) (lh_offset h) more eq_refl) as (out & pos & sp & -> & Hc); [lia|done|].
    eexists _, _, _. split; [reflexivity|]. rewrite Hc. by rewrite <- !app_assoc.
Qed.
Lemma toBytes_spec w r : wrote encbuf_reset r w -> toBytes w = Some r.
Proof.
  intros (s & hs & Hs & Hh & Hl & Hi & Hr). cbn in Hs, Hh, Hl, Hi, Hr. unfold toBytes.
  assert (encbuf_size w = zlen r) as ->.
  { unfold encbuf_size. change (zlen []) with 0 in *. rewrite <- Hr, zlen_render by (done || lia). lia. }
  rewrite Hh. destruct (toBytes_loop_spec w hs [] 0 r) as (out & pos & sp & He & Hc); [done|lia|done|].
  cbn [app] in He. change (zlen []) with 0 in He. rewrite He. cbn. by rewrite Hc.
Qed.

(** A value that has an encoding shorter than 2^64 bytes gets it. *)
Lemma EncodeToBytes_rlp it r : item_ok it -> rlp it = Some r -> zlen r < 2 ^ 64 -> EncodeToBytes it = Some r.
Proof.
  intros Hok Hr Hlen. unfold EncodeToBytes. destruct (write_item_ok it encbuf_reset r Hok Hr Hlen) as (w & -> & Hw).
  by apply toBytes_spec.
Qed.

(** C40. Encoding a value gives exactly the bytes of the recursive definition of
    the encoding, for every value whose encoding is shorter than 2^64 bytes;
    a value has no encoding exactly when it contains a negative big integer. *)
Theorem EncodeToBytes_spec it :
  item_ok it -> (forall r, rlp it = Some r -> zlen r < 2 ^ 64) -> EncodeToBytes it = rlp it.
Proof.
  intros Hok Hlen. destruct (rlp it) as [r|] eqn:Hr; [by apply EncodeToBytes_rlp, Hlen|].
  unfold EncodeToBytes. by rewrite write_item_none.
Qed.

(** ** Splitting *)

(** The head of a number's bytes is not zero, and the bytes decode to it. *)
Lemma readSize_big_bytes n rest :
  56 <= n < 2 ^ 64 -> readSize (big_bytes n ++ rest) (zlen (big_bytes n)) = inr n.
Proof.
  intros Hn. destruct (needs_exists n) as (k & Hk & Hlo & Hhi); [lia|].
  rewrite (big_bytes_needs k) by (done || lia). destruct k as [|k]; [lia|].
  assert (zlen (be_enc (S k) n) = Z.of_nat (S k)) as Hl by (unfold zlen; by rewrite length_be_enc).
  unfold readSize. rewrite zlen_app, Hl. pose proof (zlen_nonneg rest).
  destruct (Z.ltb_spec (Z.of_nat (S k) + zlen rest) (Z.of_nat (S k))); [lia|].
  rewrite Nat2Z.id, take_app_length' by (by rewrite length_be_enc). rewrite be_dec_enc, (Z.mod_small n) by lia.
  destruct (Z.leb_spec 1 (Z.of_nat (S k))), (Z.leb_spec (Z.of_nat (S k)) 8); try lia.
  cbn [andb be_enc app head default]. destruct (Z.ltb_spec n 56); [lia|]. cbn [orb].
  replace (Z.of_nat (S k) - 1) with (Z.of_nat k) in Hlo by lia. rewrite pow256_succ in Hhi.
  pose proof (pow256_pos k). assert (1 <= n / 256 ^ Z.of_nat k) by (apply Z.div_le_lower_bound; lia).
  assert (n / 256 ^ Z.of_nat k < 256) by (apply Z.div_lt_upper_bound; lia).
  rewrite Z.mod_small by lia. cbn. by destruct (Z.eqb_spec (n / 256 ^ Z.of_nat k) 0); [lia|].
Qed.

(** A header in front of at least the bytes it announces. *)
Lemma readKind_string_head body :
  forall n, 0 <= n <= zlen body -> zlen body + 9 < 2 ^ 64 -> (n = 1 -> default 0 (head body) >= 128) ->
  readKind (rlp_head 0x80 0xb7 n ++ body) = inr (KString, headsize n, n).
Proof.
  intros n Hn Hb H1. unfold rlp_head, headsize. destruct (Z.ltb_spec n 56) as [Hs|Hs]; cbn [app readKind].
  - destruct (Z.ltb_spec (128 + n) 0x80), (Z.ltb_spec (128 + n) 0xb8); try lia.
    replace (128 + n - 128) with n by lia.
    assert ((n =? 1) && match body with x :: _ => x <? 128 | [] => false end = false) as ->.
    { destruct (Z.eqb_spec n 1) as [->|]; [|done]. destruct body as [|x body]; [done|]. cbn in *. apply Z.ltb_ge. lia. }
    rewrite zlen_cons, u64_id by (unfold is_u64; lia). by destruct (Z.ltb_spec (zlen body + 1 - 1) n); [lia|].
  - pose proof (zlen_big_bytes_u64 n ltac:(lia)) as Hl. set (m := zlen (big_bytes n)) in *.
    destruct (Z.ltb_spec (183 + m) 0x80), (Z.ltb_spec (183 + m) 0xb8), (Z.ltb_spec (183 + m) 0xc0); try lia.
    replace (183 + m - 183) with m by lia. unfold m. rewrite readSize_big_bytes by lia. fold m.
    rewrite zlen_cons, zlen_app, intsize_spec, u64_id by (unfold is_u64; fold m; lia). fold m.
    destruct (Z.ltb_spec (m + zlen body + 1 - (m + 1)) n); [lia|]. do 3 f_equal. lia.
Qed.
Lemma readKind_list_head body n :
  0 <= n <= zlen body -> zlen body + 9 < 2 ^ 64 ->
  readKind (rlp_head 0xc0 0xf7 n ++ body) = inr (KList, headsize n, n).
Proof.
  intros Hn Hb. unfold rlp_head, headsize. destruct (Z.ltb_spec n 56) as [Hs|Hs]; cbn [app readKind].
  - destruct (Z.ltb_spec (192 + n) 0x80), (Z.ltb_spec (192 + n) 0xb8), (Z.ltb_spec (192 + n) 0xc0),
      (Z.ltb_spec (192 + n) 0xf8); try lia. replace (192 + n - 192) with n by lia.
    rewrite zlen_cons, u64_id by (unfold is_u64; lia). by destruct (Z.ltb_spec (zlen body + 1 - 1) n); [lia|].
  - pose proof (zlen_big_bytes_u64 n ltac:(lia)) as Hl. set (m := zlen (big_bytes n)) in *.
    destruct (Z.ltb_spec (247 + m) 0x80), (Z.ltb_spec (247 + m) 0xb8), (Z.ltb_spec (247 + m) 0xc0),
      (Z.ltb_spec (247 + m) 0xf8); try lia.
    replace (247 + m - 247) with m by lia. unfold m. rewrite readSize_big_bytes by lia. fold m.
    rewrite zlen_cons, zlen_app, intsize_spec, u64_id by (unfold is_u64; fold m; lia). fold m.
    destruct (Z.ltb_spec (m + zlen body + 1 - (m + 1)) n); [lia|]. do 3 f_equal. lia.
Qed.

(** Cutting what a header announces out of the data. *)
Lemma cut_head small large b rest :
  zlen b < 2 ^ 64 ->
  let e := rlp_head small large (zlen b) ++ b ++ rest in let h := headsize (zlen b) in
  slice e h (h + zlen b) = b /\ drop (Z.to_nat (h + zlen b)) e = rest.
Proof.
  intros Hl e h. pose proof (zlen_nonneg b). assert (h = zlen (rlp_head small large (zlen b))) as ->
    by (unfold h; by rewrite zlen_rlp_head). subst e. unfold slice, zlen in *. set (hd := rlp_head _ _ _). split.
  - rewrite Nat2Z.id, drop_app_length, Z.add_simpl_l, Nat2Z.id. apply take_app_length.
  - rewrite app_assoc, <- Nat2Z.inj_add, Nat2Z.id, <- length_app. apply drop_app_length.
Qed.

Lemma Split_list payload rest :
  zlen payload + zlen rest + 9 < 2 ^ 64 -> Split (rlp_list payload ++ rest) = inr (KList, payload, rest).
Proof.
  intros Hl. pose proof (zlen_nonneg rest). pose proof (zlen_nonneg payload). unfold Split, rlp_list.
  rewrite <- app_assoc, readKind_list_head by (rewrite zlen_app; lia).
  destruct (cut_head 192 247 payload rest) as [-> ->]; [lia|done].
Qed.
Lemma Split_string_head b rest :
  zlen b + zlen rest + 9 < 2 ^ 64 -> (zlen b = 1 -> default 0 (head b) >= 128) ->
  Split ((rlp_head 0x80 0xb7 (zlen b) ++ b) ++ rest) = inr (KString, b, rest).
Proof.
  intros Hl H1. pose proof (zlen_nonneg rest). pose proof (zlen_nonneg b). unfold Split.
  rewrite <- app_assoc, readKind_string_head; [|rewrite ?zlen_app; lia..|].
  - destruct (cut_head 128 183 b rest) as [-> ->]; [lia|done].
  - intros Hz. specialize (H1 Hz). by destruct b.
Qed.
(** A string that is not a single byte. *)
Lemma Split_KString b rest :
  zlen b + zlen rest + 9 < 2 ^ 64 -> zlen b <> 1 -> Split (rlp_string b ++ rest) = inr (KString, b, rest).
Proof. intros Hl H1. rewrite <- (Split_string_head b rest Hl) by done. by destruct b as [|x [|y b]]. Qed.
Lemma Split_string b rest :
  bytes_ok b -> zlen b + zlen rest + 9 < 2 ^ 64 ->
  exists k, Split (rlp_string b ++ rest) = inr (k, b, rest) /\ k <> KList.
Proof.
  intros Hb Hl. pose proof (zlen_nonneg rest). pose proof (zlen_nonneg b).
  assert ((exists x, b = [x] /\ x < 128) \/
    (rlp_string b = rlp_head 128 183 (zlen b) ++ b /\ (zlen b = 1 -> default 0 (head b) >= 128))) as [(x & -> & Hx)|[-> H1]].
  { unfold rlp_string. destruct b as [|x [|y b]]; [right; split; [done|]; by intros [=]| |right; split; [done|]].
    - destruct (Z.ltb_spec x 0x80); [left; eauto|right; split; [done|]]. cbn. lia.
    - rewrite !zlen_cons. pose proof (zlen_nonneg b). lia. }
  - exists KByte. split; [|done]. inversion_clear Hb as [|? ? Hx0 _]. unfold is_byte in Hx0. cbn in Hl.
    unfold Split, rlp_string. destruct (Z.ltb_spec x 0x80); [|lia]. cbn [app readKind].
    destruct (Z.ltb_spec x 0x80); [|lia]. rewrite zlen_cons, u64_id by (unfold is_u64; lia).
    destruct (Z.ltb_spec (zlen rest + 1 - 0) 1); [lia|done].
  - exists KString. split; [|done]. by apply Split_string_head.
Qed.

Lemma SplitString_string b rest :
  bytes_ok b -> zlen b + zlen rest + 9 < 2 ^ 64 -> SplitString (rlp_string b ++ rest) = inr (b, rest).
Proof. intros Hb Hl. unfold SplitString. destruct (Split_string b rest Hb Hl) as (k & -> & Hk). by destruct k. Qed.

(** Values that are not raw, pre-encoded data. *)
Definition cooked (it : Item) : Prop := match it with IRaw _ => False | _ => True end.

Lemma Split_item it r rest :
  item_ok it -> cooked it -> rlp it = Some r -> zlen r + zlen rest + 9 < 2 ^ 64 ->
  exists k c, Split (r ++ rest) = inr (k, c, rest).
Proof.
  intros Hok Hc Hr Hl. assert ((exists b, r = rlp_string b /\ bytes_ok b) \/ (exists p, r = rlp_list p)) as [(b & -> & Hb)|[p ->]].
  { destruct it as [b|i|b|i|b|l]; cbn in Hok, Hc; try done.
    - injection Hr as <-. eauto.
    - injection Hr as <-. left. eexists. split; [done|apply big_bytes_ok].
    - injection Hr as <-. left. exists (if b then [1] else []). split; [done|]. by destruct b; repeat constructor.
    - cbn in Hr. destruct (i <? 0); [done|]. injection Hr as <-. left. eexists. split; [done|apply big_bytes_ok].
    - rewrite rlp_IList in Hr. destruct (rlps l); [|done]. injection Hr as <-. eauto. }
  - pose proof (zlen_rlp_string b). destruct (Split_string b rest Hb) as (k & -> & _); [lia|eauto].
  - pose proof (zlen_rlp_list p). rewrite Split_list by lia. eauto.
Qed.

Lemma CountValues_loop_items l : forall fuel r i,
  items_ok l -> Forall cooked l -> rlps l = Some r -> zlen r + 9 < 2 ^ 64 -> (length l < fuel)%nat ->
  CountValues_loop fuel r i = Some (inr (i + zlen l)).
Proof.
  induction l as [|it l IH]; intros fuel r i Hok Hc Hr Hl Hf; (destruct fuel as [|fuel]; [cbn in Hf; lia|]).
  - injection Hr as <-. cbn. by rewrite Z.add_0_r.
  - cbn in Hr. destruct Hok as [Hi Hok]. inversion_clear Hc as [|? ? Hci Hcl]. destruct (rlp it) as [a|] eqn:Ha; [|done].
    destruct (rlps l) as [b|] eqn:Hb; [|done]. injection Hr as <-. rewrite zlen_app in Hl.
    destruct (Split_item it a b Hi Hci Ha Hl) as (k & c & Hs). unfold Split in Hs. cbn [CountValues_loop].
    destruct (Z.ltb_spec 0 (zlen (a ++ b))) as [_|Hz].
    + destruct (readKind (a ++ b)) as [|[[k' ts] cs]]; [done|]. injection Hs as -> _ ->.
      pose proof (zlen_nonneg a). rewrite (IH fuel b) by (done || (cbn in Hf; lia) || lia). rewrite zlen_cons. do 2 f_equal. lia.
    + destruct (a ++ b) as [|x y]; [done|]. rewrite zlen_cons in Hz. pose proof (zlen_nonneg y). lia.
Qed.

Lemma rlps_length l r : items_ok l -> Forall cooked l -> rlps l = Some r -> zlen r + 9 < 2 ^ 64 -> (length l <= length r)%nat.
Proof.
  revert r. induction l as [|it l IH]; intros r Hok Hc Hr Hl; [cbn; lia|]. cbn in Hr. destruct Hok as [Hi Hok].
  inversion_clear Hc as [|? ? Hci Hcl]. destruct (rlp it) as [a|] eqn:Ha; [|done].
  destruct (rlps l) as [b|] eqn:Hb; [|done]. injection Hr as <-. rewrite zlen_app in Hl. rewrite length_app.
  pose proof (zlen_nonneg a). specialize (IH b Hok Hcl eq_refl ltac:(lia)). cbn. enough (length a <> 0)%nat by lia. intros H0.
  apply nil_length_inv in H0 as ->. cbn in Hl.
  by destruct (Split_item it [] [] Hi Hci Ha eq_refl) as (k & c & Hs).
Qed.

(** What the encoder produces is split back: the content of an encoded byte
    string, followed by anything, is the byte string and what follows it; the
    content of an encoded list is the concatenated encodings of its elements,
    and counting the values in it gives the number of elements. *)
Theorem Split_EncodeToBytes b l e f rest :
  item_ok (IBytes b) -> item_ok (IList l) -> Forall cooked l ->
  EncodeToBytes (IBytes b) = Some e -> EncodeToBytes (IList l) = Some f ->
  (forall r, rlps l = Some r -> zlen r + zlen rest + 18 < 2 ^ 64) -> zlen b + zlen rest + 18 < 2 ^ 64 ->
  SplitString (e ++ rest) = inr (b, rest) /\
  exists payload, rlps l = Some payload /\ SplitList (f ++ rest) = inr (payload, rest) /\
    CountValues payload = Some (inr (zlen l)).
Proof.
  intros Hb Hl Hc He Hf Hsl Hsb. pose proof (zlen_nonneg rest).
  assert (e = rlp_string b) as ->.
  { unfold EncodeToBytes in He. cbn [write_item mbind option_bind] in He.
    rewrite encodeString_spec, (toBytes_spec _ (rlp_string b)) in He by (lia || apply wrote_append). by injection He. }
  split.
  { unfold SplitString. destruct (Split_string b rest Hb) as (k & -> & Hk); [lia|]. by destruct k. }
  unfold EncodeToBytes in Hf. destruct (rlps l) as [p|] eqn:Hp.
  2: { rewrite write_item_none in Hf; [done|]. by rewrite rlp_IList, Hp. }
  specialize (Hsl p eq_refl). pose proof (zlen_nonneg p).
  assert (zlen (rlp_list p) <= zlen p + 9).
  { unfold rlp_list, rlp_head. case_match; rewrite zlen_app, zlen_cons, ?zlen_nil; [lia|].
    pose proof (zlen_big_bytes_u64 (zlen p)). apply Z.ltb_ge in H1. lia. }
  destruct (write_item_ok (IList l) encbuf_reset (rlp_list p)) as (w & Hw & Hwr); [done|by rewrite rlp_IList, Hp|lia|].
  rewrite Hw in Hf. cbn [mbind option_bind] in Hf. rewrite (toBytes_spec _ _ Hwr) in Hf. injection Hf as <-.
  exists p. split; [done|]. unfold SplitList. rewrite Split_list by lia. split; [done|].
  pose proof (rlps_length l p Hl Hc Hp). apply (CountValues_loop_items l (S (length p)) p 0); done || lia.
Qed.

Definition demo_item : Item := IList [IBytes [0x64; 0x6f; 0x67]; IUint 1024; IList [IBool true; IBig 0]].
Lemma EncodeToBytes_spec_witness : EncodeToBytes demo_item = rlp demo_item.
Proof.
  apply EncodeToBytes_spec.
  - vm_compute. repeat split; try done; repeat constructor; done.
  - intros r [= <-]. reflexivity.
Defined.
Lemma Split_EncodeToBytes_witness :
  SplitString ([0x83; 0x64; 0x6f; 0x67] ++ [7]) = inr ([0x64; 0x6f; 0x67], [7]) /\
  exists payload, rlps [IUint 5; IBool false] = Some payload /\
    SplitList ([0xc2; 0x05; 0x80] ++ [7]) = inr (payload, [7]) /\ CountValues payload = Some (inr 2).
Proof.
  apply (Split_EncodeToBytes [0x64; 0x6f; 0x67] [IUint 5; IBool false]).
  - repeat constructor; done.
  - vm_compute. repeat split; done.
  - repeat constructor.
  - reflexivity.
  - reflexivity.
  - intros r [= <-]. reflexivity.
  - reflexivity.
Defined.
