(* ===== verification/StateIface.v ===== *)
(** * The state database as the virtual machine sees it

    Models [core/vm/interface.go]: the operations the virtual machine calls on
    a state database, as a class, and a second class with the laws it relies
    on. The laws speak of an abstract world, the accounts and the transaction
    wide data a state stands for, and of the worlds that can still be reverted
    to. The file also holds the cryptographic functions the development takes
    as given and the address and hash functions of [crypto/crypto.go] built on
    them. *)

From S2P Require Import Prelude CommonMath Rlp.
From Stdlib Require Import FunctionalExtensionality.
Local Open Scope Z_scope.

(** ** Cryptographic primitives *)

(** The hash functions, the recovery of a public key from a signature and the
    operations of the pairing curve. Points of the curve are abstract. *)
Class Crypto : Type := {
  keccak : bytes -> bytes;
  sha256_Sum256 : bytes -> bytes;
  ripemd160_Sum : bytes -> bytes;
  secp256k1_Ecrecover : bytes -> bytes -> option bytes;
  bn_G1 : Type;
  bn_G2 : Type;
  G1_Unmarshal : bytes -> option bn_G1;
  G2_Unmarshal : bytes -> option bn_G2;
  G1_Add : bn_G1 -> bn_G1 -> bn_G1;
  G1_ScalarMult : bn_G1 -> Z -> bn_G1;
  G1_Marshal : bn_G1 -> bytes;
  PairingCheck : list bn_G1 -> list bn_G2 -> bool;
}.

(** What their documentation says about the shape of their results. *)
Class CryptoLaws `{Crypto} : Prop := {
  keccak_ok d : bytes_ok (keccak d);
  keccak_length d : length (keccak d) = 32%nat;
  sha256_ok d : bytes_ok (sha256_Sum256 d);
  sha256_length d : length (sha256_Sum256 d) = 32%nat;
  ripemd160_ok d : bytes_ok (ripemd160_Sum d);
  ripemd160_length d : length (ripemd160_Sum d) = 20%nat;
  ecrecover_length h sig k : secp256k1_Ecrecover h sig = Some k -> length k = 65%nat;
  G1_Marshal_ok p : bytes_ok (G1_Marshal p);
  G1_Marshal_length p : length (G1_Marshal p) = 64%nat;
}.

Section crypto.
Context `{Crypto}.

Definition Keccak256 (data : list bytes) : bytes := keccak (concat data).
Definition Keccak256Hash (data : list bytes) : Hash := be_dec (keccak (concat data)).

(** The error of the encoder is dropped. *)
Definition CreateAddress (b : Address) (nonce : Z) : Address :=
  let data := default [] (EncodeToBytes (IList [IBytes (Address_Bytes b); IUint nonce])) in
  BytesToAddress (drop 12 (Keccak256 [data])).
Definition CreateAddress2 (b : Address) (salt : Hash) (inithash : bytes) : Address :=
  BytesToAddress (drop 12 (Keccak256 [[0xff]; Address_Bytes b; Hash_Bytes salt; inithash])).

Definition secp256k1N : Z := 0xfffffffffffffffffffffffffffffffebaaedce6af48a03bbfd25e8cd0364141.
Definition secp256k1halfN : Z := secp256k1N / 2.
Definition ValidateSignatureValues (v r s : Z) (homestead : bool) : bool :=
  if (r <? 1) || (s <? 1) then false
  else if homestead && (secp256k1halfN <? s) then false
  else (r <? secp256k1N) && (s <? secp256k1N) && ((v =? 0) || (v =? 1)).

Definition emptyCodeHash : Hash := Keccak256Hash [[]].
End crypto.

(** ** The interface *)

(** [types.Log]; the fields the state database fills in are zero when the
    virtual machine makes one. *)
Record Log : Type := mkLog {
  log_Address : Address;
  log_Topics : list Hash;
  log_Data : bytes;
  log_BlockNumber : Z;
  log_TxHash : Hash;
  log_TxIndex : Z;
  log_BlockHash : Hash;
  log_Index : Z;
}.

(** [ForEachStorage] is not called by the virtual machine and left out. *)
Class StateDB (S : Type) : Type := {
  CreateAccount : Address -> M S unit;
  SubBalance : Address -> Z -> M S unit;
  AddBalance : Address -> Z -> M S unit;
  GetBalance : Address -> M S Z;
  GetNonce : Address -> M S Z;
  SetNonce : Address -> Z -> M S unit;
  GetCodeHash : Address -> M S Hash;
  GetCode : Address -> M S bytes;
  SetCode : Address -> bytes -> M S unit;
  GetCodeSize : Address -> M S Z;
  AddRefund : Z -> M S unit;
  SubRefund : Z -> M S unit;
  GetRefund : M S Z;
  GetCommittedState : Address -> Hash -> M S Hash;
  GetState : Address -> Hash -> M S Hash;
  SetState : Address -> Hash -> Hash -> M S unit;
  Suicide : Address -> M S bool;
  HasSuicided : Address -> M S bool;
  Exist : Address -> M S bool;
  Empty : Address -> M S bool;
  RevertToSnapshot : Z -> M S unit;
  Snapshot : M S Z;
  AddLog : Log -> M S unit;
  AddPreimage : Hash -> bytes -> M S unit;
}.

(** ** Worlds *)

Record Acct : Type := mkAcct {
  ac_balance : Z;
  ac_nonce : Z;
  ac_code : bytes;
  ac_codehash : Hash;
  ac_state : Hash -> Hash;
  ac_committed : Hash -> Hash;
  ac_suicided : bool;
}.

Record World : Type := mkWorld {
  w_acct : Address -> option Acct;
  w_refund : Z;
  w_logs : list Log;
  w_preimages : gmap Z bytes;
}.

Definition set_balance (v : Z) (x : Acct) : Acct :=
  mkAcct v (ac_nonce x) (ac_code x) (ac_codehash x) (ac_state x) (ac_committed x) (ac_suicided x).
Definition set_nonce (v : Z) (x : Acct) : Acct :=
  mkAcct (ac_balance x) v (ac_code x) (ac_codehash x) (ac_state x) (ac_committed x) (ac_suicided x).
Definition set_code (h : Hash) (c : bytes) (x : Acct) : Acct :=
  mkAcct (ac_balance x) (ac_nonce x) c h (ac_state x) (ac_committed x) (ac_suicided x).
Definition set_state (k v : Hash) (x : Acct) : Acct :=
  mkAcct (ac_balance x) (ac_nonce x) (ac_code x) (ac_codehash x)
    (fun k' => if k' =? k then v else ac_state x k') (ac_committed x) (ac_suicided x).
Definition set_suicided (b : bool) (x : Acct) : Acct :=
  mkAcct (ac_balance x) (ac_nonce x) (ac_code x) (ac_codehash x) (ac_state x) (ac_committed x) b.

Definition w_set (a : Address) (x : option Acct) (w : World) : World :=
  mkWorld (fun a' => if a' =? a then x else w_acct w a') (w_refund w) (w_logs w) (w_preimages w).
Definition w_set_refund (r : Z) (w : World) : World :=
  mkWorld (w_acct w) r (w_logs w) (w_preimages w).
Definition w_set_logs (l : list Log) (w : World) : World :=
  mkWorld (w_acct w) (w_refund w) l (w_preimages w).
Definition w_set_preimages (p : gmap Z bytes) (w : World) : World :=
  mkWorld (w_acct w) (w_refund w) (w_logs w) p.

Section worlds.
Context `{Crypto}.

Definition new_acct : Acct := {|
  ac_balance := 0; ac_nonce := 0; ac_code := []; ac_codehash := emptyCodeHash;
  ac_state := fun _ => 0; ac_committed := fun _ => 0; ac_suicided := false |}.

(** The account at an address, a fresh one if there is none. *)
Definition w_get (w : World) (a : Address) : Acct := default new_acct (w_acct w a).
(** Update an account, creating it first if needed. *)
Definition w_upd (a : Address) (f : Acct -> Acct) (w : World) : World :=
  w_set a (Some (f (w_get w a))) w.

Definition w_balance (w : World) (a : Address) : Z := ac_balance (w_get w a).
Definition w_exist (w : World) (a : Address) : bool :=
  match w_acct w a with Some _ => true | None => false end.
Definition acct_empty (x : Acct) : bool :=
  (ac_nonce x =? 0) && (ac_balance x =? 0) && (ac_codehash x =? emptyCodeHash).

(** What each operation does to a world. *)
Definition w_create (a : Address) (w : World) : World :=
  w_set a (Some (set_balance (w_balance w a) new_acct)) w.
Definition w_add_balance (a : Address) (v : Z) (w : World) : World :=
  w_upd a (fun x => set_balance (ac_balance x + v) x) w.
Definition w_suicide (a : Address) (w : World) : World :=
  match w_acct w a with
  | Some x => w_set a (Some (set_suicided true (set_balance 0 x))) w
  | None => w
  end.
Definition w_add_preimage (h : Hash) (d : bytes) (w : World) : World :=
  match w_preimages w !! h with
  | Some _ => w
  | None => w_set_preimages (<[h := d]> (w_preimages w)) w
  end.
End worlds.

(** ** The laws of the interface *)

(** [inv] is the invariant of the implementation, [view] the world a state
    stands for and [revs] the snapshots that can be reverted to, oldest first,
    each with the world it restores. *)
Section outcomes.
Context {S : Type} (inv : S -> Prop) (view : S -> World) (revs : S -> list (Z * World)).

(** The operation ends in world [w] and keeps the snapshots. *)
Definition becomes (s : S) (w : World) (s' : S) : Prop :=
  inv s' /\ view s' = w /\ revs s' = revs s.
End outcomes.

Definition refund_panic (r : reason) : Prop := r = Msg "Refund counter below zero".

Class StateDBLaws (S : Type) `{StateDB S} `{Crypto} : Type := {
  inv : S -> Prop;
  view : S -> World;
  revs : S -> list (Z * World);
  law_CreateAccount s a : inv s ->
    wp never False (CreateAccount a) (fun _ => becomes inv view revs s (w_create a (view s))) s;
  law_SubBalance s a v : inv s ->
    wp never False (SubBalance a v) (fun _ => becomes inv view revs s (w_add_balance a (- v) (view s))) s;
  law_AddBalance s a v : inv s ->
    wp never False (AddBalance a v) (fun _ => becomes inv view revs s (w_add_balance a v (view s))) s;
  law_GetBalance s a : inv s ->
    wp never False (GetBalance a) (fun v s' =>
      v = w_balance (view s) a /\ becomes inv view revs s (view s) s') s;
  law_GetNonce s a : inv s ->
    wp never False (GetNonce a) (fun v s' =>
      v = ac_nonce (w_get (view s) a) /\ becomes inv view revs s (view s) s') s;
  law_SetNonce s a n : inv s ->
    wp never False (SetNonce a n) (fun _ => becomes inv view revs s (w_upd a (set_nonce n) (view s))) s;
  law_GetCodeHash s a : inv s ->
    wp never False (GetCodeHash a) (fun v s' =>
      v = (if w_exist (view s) a then ac_codehash (w_get (view s) a) else 0) /\
      becomes inv view revs s (view s) s') s;
  law_GetCode s a : inv s ->
    wp never False (GetCode a) (fun v s' =>
      v = ac_code (w_get (view s) a) /\ becomes inv view revs s (view s) s') s;
  law_SetCode s a c : inv s ->
    wp never False (SetCode a c) (fun _ =>
      becomes inv view revs s (w_upd a (set_code (Keccak256Hash [c]) c) (view s))) s;
  law_GetCodeSize s a : inv s ->
    wp never False (GetCodeSize a) (fun v s' =>
      v = zlen (ac_code (w_get (view s) a)) /\ becomes inv view revs s (view s) s') s;
  law_AddRefund s g : inv s ->
    wp never False (AddRefund g) (fun _ =>
      becomes inv view revs s (w_set_refund (u64 (w_refund (view s) + g)) (view s))) s;
  law_SubRefund s g : inv s ->
    wp (fun r => refund_panic r /\ w_refund (view s) < g) False (SubRefund g) (fun _ s' =>
      g <= w_refund (view s) /\
      becomes inv view revs s (w_set_refund (w_refund (view s) - g) (view s)) s') s;
  law_GetRefund s : inv s ->
    wp never False GetRefund (fun v s' =>
      v = w_refund (view s) /\ becomes inv view revs s (view s) s') s;
  law_GetCommittedState s a k : inv s ->
    wp never False (GetCommittedState a k) (fun v s' =>
      v = ac_committed (w_get (view s) a) k /\ becomes inv view revs s (view s) s') s;
  law_GetState s a k : inv s ->
    wp never False (GetState a k) (fun v s' =>
      v = ac_state (w_get (view s) a) k /\ becomes inv view revs s (view s) s') s;
  law_SetState s a k v : inv s ->
    wp never False (SetState a k v) (fun _ =>
      becomes inv view revs s (w_upd a (set_state k v) (view s))) s;
  law_Suicide s a : inv s ->
    wp never False (Suicide a) (fun b s' =>
      b = w_exist (view s) a /\ becomes inv view revs s (w_suicide a (view s)) s') s;
  law_HasSuicided s a : inv s ->
    wp never False (HasSuicided a) (fun v s' =>
      v = ac_suicided (w_get (view s) a) /\ becomes inv view revs s (view s) s') s;
  law_Exist s a : inv s ->
    wp never False (Exist a) (fun v s' =>
      v = w_exist (view s) a /\ becomes inv view revs s (view s) s') s;
  law_Empty s a : inv s ->
    wp never False (Empty a) (fun v s' =>
      v = acct_empty (w_get (view s) a) /\ becomes inv view revs s (view s) s') s;
  law_RevertToSnapshot s id w l1 l2 : inv s -> revs s = l1 ++ (id, w) :: l2 ->
    wp never False (RevertToSnapshot id) (fun _ s' =>
      inv s' /\ view s' = w /\ revs s' = l1) s;
  law_Snapshot s : inv s ->
    wp never False Snapshot (fun id s' =>
      inv s' /\ view s' = view s /\ revs s' = revs s ++ [(id, view s)]) s;
  law_AddLog s l : inv s ->
    wp never False (AddLog l) (fun _ s' => exists l',
      log_Address l' = log_Address l /\ log_Topics l' = log_Topics l /\
      log_Data l' = log_Data l /\ log_BlockNumber l' = log_BlockNumber l /\
      becomes inv view revs s (w_set_logs (w_logs (view s) ++ [l']) (view s)) s') s;
  law_AddPreimage s h d : inv s ->
    wp never False (AddPreimage h d) (fun _ =>
      becomes inv view revs s (w_add_preimage h d (view s))) s;
}.

(** ** Well-formed worlds and what may happen to them *)

Section world_steps.
Context `{Crypto}.

Definition acct_ok (x : Acct) : Prop :=
  0 <= ac_balance x /\ is_u64 (ac_nonce x) /\ bytes_ok (ac_code x) /\ zlen (ac_code x) < 2 ^ 63 /\
  ac_codehash x = Keccak256Hash [ac_code x] /\
  (forall k, is_u256 (ac_state x k)) /\ (forall k, is_u256 (ac_committed x k)).

(** The balance of a list of accounts. *)
Fixpoint total (w : World) (l : list Address) : Z :=
  match l with
  | [] => 0
  | a :: l' => w_balance w a + total w l'
  end.
(** No set of accounts holds more than [n]. *)
Definition supply_le (n : Z) (w : World) : Prop := forall l, NoDup l -> total w l <= n.

Definition world_ok (w : World) : Prop :=
  (forall a x, w_acct w a = Some x -> acct_ok x) /\ is_u64 (w_refund w) /\
  supply_le (2 ^ 256 - 1) w.

(** The effects of the instructions on a world. In a read-only context
    ([ro = true]) only accounts may be touched and preimages recorded. *)
Inductive wstep : bool -> World -> World -> Prop :=
| ws_touch ro a w : wstep ro w (w_add_balance a 0 w)
| ws_preimage ro h d w : wstep ro w (w_add_preimage h d w)
| ws_transfer a b v w : 0 <= v <= w_balance w a ->
    wstep false w (w_add_balance b v (w_add_balance a (- v) w))
| ws_create a w : wstep false w (w_create a w)
| ws_nonce a n w : is_u64 n -> wstep false w (w_upd a (set_nonce n) w)
| ws_code a c w : bytes_ok c -> zlen c < 2 ^ 63 ->
    wstep false w (w_upd a (set_code (Keccak256Hash [c]) c) w)
| ws_state a k v w : is_u256 v -> wstep false w (w_upd a (set_state k v) w)
| ws_refund r w : is_u64 r -> wstep false w (w_set_refund r w)
| ws_log l w : wstep false w (w_set_logs (w_logs w ++ [l]) w)
| ws_suicide a b w : wstep false w (w_suicide a (w_add_balance b (w_balance w a) w)).

Definition wtrace (ro : bool) : World -> World -> Prop := rtc (wstep ro).
End world_steps.

(** ** Facts about worlds *)

Section world_facts.
Context `{Crypto}.

Lemma w_get_set a x w b : w_get (w_set a (Some x) w) b = if b =? a then x else w_get w b.
Proof. unfold w_get, w_set. cbn. by destruct (b =? a). Qed.

Lemma w_balance_set a x w b :
  w_balance (w_set a (Some x) w) b = if b =? a then ac_balance x else w_balance w b.
Proof. unfold w_balance. rewrite w_get_set. by destruct (b =? a). Qed.

Lemma w_balance_add a v w b :
  w_balance (w_add_balance a v w) b = w_balance w b + if b =? a then v else 0.
Proof.
  unfold w_add_balance, w_upd. rewrite w_balance_set. cbn.
  destruct (Z.eqb_spec b a) as [->|]; [done|lia].
Qed.

Lemma total_set a x w l : NoDup l ->
  total (w_set a (Some x) w) l =
  total w l + if decide (a ∈ l) then ac_balance x - w_balance w a else 0.
Proof.
  induction l as [|b l IH]; intros Hnd; cbn [total].
  - rewrite decide_False by apply not_elem_of_nil. lia.
  - apply NoDup_cons in Hnd as [Hb Hnd]. rewrite IH, w_balance_set by done.
    destruct (Z.eqb_spec b a) as [->|Hne].
    + rewrite (decide_False (P := a ∈ l)), decide_True by (done || left). lia.
    + assert (a ∈ b :: l <-> a ∈ l) 
        by (split; [by intros [->|]%elem_of_cons|by right]).
      destruct (decide (a ∈ l)), (decide (a ∈ b :: l)); lia || tauto.
Qed.

(** Lowering a balance, or leaving it as it is, keeps every bound. *)
Lemma supply_le_set n a x w :
  ac_balance x <= w_balance w a -> supply_le n w -> supply_le n (w_set a (Some x) w).
Proof.
  intros Hx Hs l Hl. rewrite total_set by done. specialize (Hs l Hl). destruct (decide _); lia.
Qed.

(** So does moving at most the balance of [a] to [b]. *)
Lemma supply_le_move n a b x y v w :
  0 <= v <= w_balance w a -> ac_balance x = w_balance w a - v ->
  ac_balance y = w_balance (w_set a (Some x) w) b + v ->
  supply_le n w -> supply_le n (w_set b (Some y) (w_set a (Some x) w)).
Proof.
  intros Hv Hx Hy Hs l Hl. rewrite !total_set by done.
  destruct (decide (b ∈ l)), (decide (a ∈ l)) as [Ha|Ha];
    try (specialize (Hs l Hl); lia).
  specialize (Hs (a :: l) (NoDup_cons_2 _ _ Ha Hl)). cbn in Hs. lia.
Qed.

Lemma acct_ok_balance v x : 0 <= v -> acct_ok x -> acct_ok (set_balance v x).
Proof. unfold acct_ok. cbn. tauto. Qed.

Lemma new_acct_ok : acct_ok new_acct.
Proof.
  unfold acct_ok, is_u64, is_u256, bytes_ok, zlen. cbn. split_and!; try lia; done.
Qed.

Lemma w_get_ok w a : world_ok w -> acct_ok (w_get w a).
Proof.
  intros (Ha & _). unfold w_get. destruct (w_acct w a) as [x|] eqn:He; [eauto|apply new_acct_ok].
Qed.

Lemma w_balance_nonneg w a : world_ok w -> 0 <= w_balance w a.
Proof. intros Hw. apply (w_get_ok w a Hw). Qed.

Lemma w_balance_range w a : world_ok w -> is_u256 (w_balance w a).
Proof.
  intros Hw. split; [by apply w_balance_nonneg|]. destruct Hw as (_ & _ & Hs).
  specialize (Hs [a] (NoDup_singleton a)). cbn in Hs. lia.
Qed.

Lemma accts_ok_set w a x :
  (forall b y, w_acct w b = Some y -> acct_ok y) -> acct_ok x ->
  forall b y, w_acct (w_set a (Some x) w) b = Some y -> acct_ok y.
Proof. intros Hw Hx b y. cbn. destruct (b =? a); [by intros [= <-]|apply Hw]. Qed.

Lemma world_ok_set w a x :
  world_ok w -> acct_ok x -> ac_balance x <= w_balance w a -> world_ok (w_set a (Some x) w).
Proof.
  intros (Ha & Hr & Hs) Hx Hb. split; [by apply accts_ok_set|]. split; [done|].
  by apply supply_le_set.
Qed.

Lemma world_ok_upd w a f :
  world_ok w -> (forall x, acct_ok x -> acct_ok (f x)) ->
  (forall x, ac_balance (f x) = ac_balance x) -> world_ok (w_upd a f w).
Proof.
  intros Hw Hf Hb. apply world_ok_set; [done|by apply Hf, w_get_ok|]. rewrite Hb. apply Z.le_refl.
Qed.

Lemma total_acct w w' l : w_acct w' = w_acct w -> total w' l = total w l.
Proof.
  intros He. induction l as [|a l IH]; cbn; [done|]. rewrite IH. unfold w_balance, w_get.
  by rewrite He.
Qed.

(** Only the accounts and the range of the refund counter matter. *)
Lemma world_ok_frame w w' :
  w_acct w' = w_acct w -> is_u64 (w_refund w') -> world_ok w -> world_ok w'.
Proof.
  intros He Hr (Ha & _ & Hs). split; [by rewrite He|]. split; [done|].
  intros l Hl. rewrite (total_acct w) by done. by apply Hs.
Qed.

Lemma world_ok_touch w a : world_ok w -> world_ok (w_add_balance a 0 w).
Proof.
  intros Hw. apply world_ok_upd; [done| |]; intros x; cbn; rewrite ?Z.add_0_r; [|done].
  intros Hx. apply acct_ok_balance; [apply Hx|done].
Qed.

(** Funds that come from outside, as those of a block reward. *)
Lemma supply_le_mint n w a v : 0 <= v -> supply_le n w -> supply_le (n + v) (w_add_balance a v w).
Proof.
  intros Hv Hs l Hl. unfold w_add_balance, w_upd. rewrite total_set by done. cbn. specialize (Hs l Hl).
  unfold w_balance. destruct (decide _); lia.
Qed.
Lemma world_ok_mint n w a v :
  world_ok w -> supply_le n w -> 0 <= v -> n + v <= 2 ^ 256 - 1 -> world_ok (w_add_balance a v w).
Proof.
  intros Hw Hs Hv Hn. pose proof (w_get_ok w a Hw) as Hg. destruct Hw as (Ha & Hr & _).
  split; [|split; [done|]].
  - apply accts_ok_set; [done|]. apply acct_ok_balance; [|done]. destruct Hg as [Hb _]. lia.
  - intros l Hl. pose proof (supply_le_mint n w a v Hv Hs l Hl). lia.
Qed.

(** Funds that are taken away, as those that pay for gas. *)
Lemma supply_le_burn n w a v :
  0 <= v <= w_balance w a -> supply_le n w -> supply_le (n - v) (w_add_balance a (- v) w).
Proof.
  intros Hv Hs l Hl. unfold w_add_balance, w_upd. rewrite total_set by done. cbn.
  unfold w_balance in *. destruct (decide (a ∈ l)) as [Ha|Ha]; [specialize (Hs l Hl); lia|].
  specialize (Hs (a :: l) (NoDup_cons_2 _ _ Ha Hl)). cbn in Hs. unfold w_balance in Hs. lia.
Qed.
Lemma world_ok_burn w a v : world_ok w -> 0 <= v <= w_balance w a -> world_ok (w_add_balance a (- v) w).
Proof.
  intros Hw Hv. apply world_ok_set; [done| |cbn; unfold w_balance in *; lia].
  apply acct_ok_balance; [unfold w_balance in *; lia|by apply w_get_ok].
Qed.

Lemma supply_le_transfer n w a b v :
  0 <= v <= w_balance w a -> supply_le n w ->
  supply_le n (w_add_balance b v (w_add_balance a (- v) w)).
Proof.
  intros Hv. apply (supply_le_move _ a b _ _ v); [done| |]; cbn; unfold w_balance; [lia|done].
Qed.

Lemma world_ok_transfer w a b v :
  world_ok w -> 0 <= v <= w_balance w a ->
  world_ok (w_add_balance b v (w_add_balance a (- v) w)).
Proof.
  intros Hw Hv. pose proof Hw as (Ha & Hr & Hs).
  set (w1 := w_add_balance a (- v) w).
  assert (Hw1 : world_ok w1) by (by apply world_ok_burn).
  split; [|split; [done|by apply supply_le_transfer]].
  apply accts_ok_set; [apply Hw1|]. apply acct_ok_balance; [|by apply w_get_ok].
  pose proof (w_balance_nonneg w1 b Hw1). unfold w_balance in *. lia.
Qed.

Lemma supply_le_suicide n w a b :
  world_ok w -> supply_le n w -> supply_le n (w_suicide a (w_add_balance b (w_balance w a) w)).
Proof.
  intros Hw Hs. pose proof (w_balance_nonneg w a Hw). pose proof (w_balance_nonneg w b Hw).
  unfold w_suicide. destruct (w_acct _ a) as [x|] eqn:He.
  - intros l Hl. unfold w_add_balance, w_upd in *. rewrite !total_set by done.
    rewrite w_balance_set. cbn [ac_balance set_balance set_suicided].
    fold (w_balance w b).
    destruct (decide (b ∈ l)), (decide (a ∈ l)) as [Hal|Hal];
      destruct (Z.eqb_spec a b) as [->|Hab]; try done; try (specialize (Hs l Hl); lia).
    specialize (Hs (a :: l) (NoDup_cons_2 _ _ Hal Hl)). cbn in Hs. lia.
  - apply supply_le_set; [|done]. cbn.
    assert (w_balance w a = 0) as ->; [|unfold w_balance; lia].
    unfold w_balance, w_get. cbn in He. destruct (a =? b); [done|]. by rewrite He.
Qed.

Lemma world_ok_suicide w a b :
  world_ok w -> world_ok (w_suicide a (w_add_balance b (w_balance w a) w)).
Proof.
  intros Hw. pose proof (w_balance_nonneg w a Hw) as Hn. pose proof Hw as (Ha & Hr & Hs).
  assert (Hacc : forall c y, w_acct (w_add_balance b (w_balance w a) w) c = Some y -> acct_ok y).
  { apply accts_ok_set; [done|]. apply acct_ok_balance; [|by apply w_get_ok].
    pose proof (w_balance_nonneg w b Hw). unfold w_balance in *. lia. }
  pose proof (supply_le_suicide _ w a b Hw Hs) as Hs'. revert Hs'. unfold w_suicide.
  destruct (w_acct _ a) as [x|] eqn:He; [|by split].
  intros Hs'. split; [|by split]. apply accts_ok_set; [done|].
  apply Hacc in He as (?&?&?&?&?&?&?). unfold acct_ok. cbn. split_and!; (done || lia).
Qed.

Lemma wstep_ok ro w w' : wstep ro w w' -> world_ok w -> world_ok w'.
Proof.
  intros Hst Hw.
  destruct Hst as [ro a w|ro h d w|a b v w Hv|a w|a n w Hn|a c w Hc Hl|a k v w Hv|r w Hr|l w|a b w].
  - by apply world_ok_touch.
  - unfold w_add_preimage. destruct (w_preimages w !! h); [done|].
    apply (world_ok_frame w); [done|apply Hw|done].
  - by apply world_ok_transfer.
  - apply world_ok_set; [done| |apply Z.le_refl]. apply acct_ok_balance; [|apply new_acct_ok].
    by apply w_balance_nonneg.
  - apply world_ok_upd; [done| |done]. intros x. unfold acct_ok. cbn. tauto.
  - apply world_ok_upd; [done| |done]. intros x. unfold acct_ok. cbn. tauto.
  - apply world_ok_upd; [done| |done]. intros x (?&?&?&?&?&Hs&?). unfold acct_ok. cbn.
    split_and!; try done. intros k'. by destruct (k' =? k).
  - by apply (world_ok_frame w).
  - apply (world_ok_frame w); [done|apply Hw|done].
  - by apply world_ok_suicide.
Qed.

(** No step gives any set of accounts more than all of them held before. *)
Lemma wstep_supply n ro w w' : wstep ro w w' -> world_ok w -> supply_le n w -> supply_le n w'.
Proof.
  intros Hst Hw Hs.
  destruct Hst as [ro a w|ro h d w|a b v w Hv|a w|a m w Hn|a c w Hc Hl|a k v w Hv|r w Hr|l w|a b w];
    try (apply supply_le_set; [cbn; unfold w_balance; lia|done]).
  - unfold w_add_preimage. destruct (w_preimages w !! h); [done|].
    intros l Hl. rewrite (total_acct w) by done. by apply Hs.
  - by apply supply_le_transfer.
  - intros l Hl. rewrite (total_acct w) by done. by apply Hs.
  - intros l' Hl. rewrite (total_acct w) by done. by apply Hs.
  - by apply supply_le_suicide.
Qed.

Lemma wtrace_supply n ro w w' : wtrace ro w w' -> world_ok w -> supply_le n w -> supply_le n w'.
Proof. induction 1; eauto using wstep_ok, wstep_supply. Qed.

(** What a read-only step leaves alone: everything but the existence of
    accounts and the recorded preimages. *)
Definition same_accounts (w w' : World) : Prop :=
  (forall a, w_get w' a = w_get w a) /\ w_refund w' = w_refund w /\ w_logs w' = w_logs w.

Lemma wstep_readonly w w' : wstep true w w' -> same_accounts w w'.
Proof.
  intros Hst. remember true as ro. destruct Hst; try done; subst.
  - split; [|done]. intros b. unfold w_add_balance, w_upd. rewrite w_get_set.
    destruct (Z.eqb_spec b a) as [->|]; [|done].
    rewrite Z.add_0_r. by destruct (w_get w a).
  - unfold w_add_preimage. by destruct (w_preimages w !! h).
Qed.

Lemma wtrace_readonly w w' : wtrace true w w' -> same_accounts w w'.
Proof.
  induction 1 as [w|w1 w2 w3 Hst _ (Ha & Hr & Hl)]; [done|].
  destruct (wstep_readonly _ _ Hst) as (Ha' & Hr' & Hl').
  split; [intros a; by rewrite Ha, Ha'|]. split; congruence.
Qed.

Lemma wtrace_ok ro w w' : wtrace ro w w' -> world_ok w -> world_ok w'.
Proof. induction 1; eauto using wstep_ok. Qed.
End world_facts.
