(* ===== verification/ConcreteCrypto.v ===== *)
(** * Concrete cryptography

    An instance of the cryptographic parameters that can be run: functions that
    keep the shape of their results and nothing else. The theorems with such
    parameters are applied to it. *)

From S2P Require Import Prelude StateIface.
Local Open Scope Z_scope.

#[export] Instance demo_Crypto : Crypto := {|
  keccak := fun d => be_enc 32 (2 ^ 255 + be_dec d + 2 ^ 200 * zlen d);
  sha256_Sum256 := fun d => be_enc 32 (be_dec d);
  ripemd160_Sum := fun d => be_enc 20 (be_dec d);
  secp256k1_Ecrecover := fun _ _ => None;
  bn_G1 := unit;
  bn_G2 := unit;
  G1_Unmarshal := fun _ => Some tt;
  G2_Unmarshal := fun _ => Some tt;
  G1_Add := fun _ _ => tt;
  G1_ScalarMult := fun _ _ => tt;
  G1_Marshal := fun _ => zeros 64;
  PairingCheck := fun _ _ => true;
|}.

#[export] Instance demo_CryptoLaws : CryptoLaws.
Proof.
  split; intros; try apply be_enc_ok; try apply length_be_enc; try done; [apply bytes_ok_zeros].
Qed.
