(* ===== verification/TrieKey.v ===== *)
(** * Keys of the trie

    Models [trie/encoding.go]: keys as bytes, as nibbles with an optional
    terminator 16, and in the compact form that is stored. A slice that Go
    fills by index is the list it ends with. *)

From S2P Require Import Prelude.
Local Open Scope Z_scope.

(** ** Operations *)

Definition hasTerm (s : bytes) : bool :=
  match last s with Some x => x =? 16 | None => false end.

(** Fills [bs] from its start, and panics if that is too short or a nibble is
    left over. *)
Fixpoint decodeNibbles (nibbles bs : bytes) : outcome bytes :=
  match nibbles, bs with
  | [], _ => Ok bs
  | hi :: lo :: nibbles', _ :: bs' => rest ← decodeNibbles nibbles' bs'; Ok (Z.lor (u8 (Z.shiftl hi 4)) lo :: rest)
  | _, _ => Panic Index
  end.

Definition keybytesToHex (str : bytes) : bytes := concat (map (fun b => [b / 16; b mod 16]) str) ++ [16].

Definition hexToKeybytes (hex : bytes) : outcome bytes :=
  let hex := if hasTerm hex then take (length hex - 1) hex else hex in
  if negb (Z.land (zlen hex) 1 =? 0) then Panic (Msg "can't convert hex key of odd length")
  else decodeNibbles hex (zeros (zlen hex / 2)).

Definition hexToCompact (hex : bytes) : outcome bytes :=
  let terminator := if hasTerm hex then 1 else 0 in
  let hex := if hasTerm hex then take (length hex - 1) hex else hex in
  let flag := Z.shiftl terminator 5 in
  let tail := zeros (zlen hex / 2) in
  if Z.land (zlen hex) 1 =? 1 then
    match hex with
    | [] => Panic Index
    | first :: hex' => rest ← decodeNibbles hex' tail; Ok (Z.lor (Z.lor flag (Z.shiftl 1 4)) first :: rest)
    end
  else rest ← decodeNibbles hex tail; Ok (flag :: rest).

(** The first nibble of the expanded key is that of its first byte. *)
Definition compactToHex (compact : bytes) : bytes :=
  match compact with
  | [] => compact
  | b :: _ =>
      let base := keybytesToHex compact in
      let first := b / 16 in
      let base := if first <? 2 then take (length base - 1) base else base in
      drop (Z.to_nat (2 - Z.land first 1)) base
  end.

Fixpoint prefixLen (a b : bytes) : nat :=
  match a, b with
  | x :: a', y :: b' => if x =? y then S (prefixLen a' b') else O
  | _, _ => O
  end.

(** ** Nibbles *)

Definition nibble (x : Z) : Prop := 0 <= x < 16.
Abbreviation nibbles := (Forall nibble).
(** The keys of values end with the terminator, and have it nowhere else. *)
Definition term_key (k : bytes) : Prop := exists p, nibbles p /\ k = p ++ [16].

Definition to_nibbles (s : bytes) : bytes := concat (map (fun b => [b / 16; b mod 16]) s).
Fixpoint from_nibbles (ns : bytes) : bytes :=
  match ns with
  | hi :: lo :: ns' => 16 * hi + lo :: from_nibbles ns'
  | _ => []
  end.

Lemma nibble_pair hi lo : nibble hi -> nibble lo -> Z.lor (u8 (Z.shiftl hi 4)) lo = 16 * hi + lo.
Proof.
  intros Hh Hl.
  assert (forallb (fun hi => forallb (fun lo => Z.lor (u8 (Z.shiftl hi 4)) lo =? 16 * hi + lo) (seqZ 0 16)) (seqZ 0 16) = true)
    as Hall by (vm_compute; done).
  rewrite forallb_forall in Hall. specialize (Hall hi (proj1 (list_elem_of_In _ _) (proj2 (elem_of_seqZ _ _ _) Hh))).
  rewrite forallb_forall in Hall. specialize (Hall lo (proj1 (list_elem_of_In _ _) (proj2 (elem_of_seqZ _ _ _) Hl))).
  by apply Z.eqb_eq.
Qed.
Lemma to_nibbles_ok s : bytes_ok s -> nibbles (to_nibbles s).
Proof.
  induction 1 as [|b s Hb _ IH]; [constructor|]. change (nibbles (b / 16 :: b mod 16 :: to_nibbles s)).
  unfold is_byte in Hb. repeat constructor; [apply Z.div_pos; lia|apply Z.div_lt_upper_bound; lia|apply Z.mod_pos_bound; lia..|done].
Qed.
Lemma length_to_nibbles s : length (to_nibbles s) = (2 * length s)%nat.
Proof. induction s as [|b s IH]; [done|]. change (S (S (length (to_nibbles s))) = 2 * S (length s))%nat. lia. Qed.
Lemma from_to_nibbles s : from_nibbles (to_nibbles s) = s.
Proof.
  induction s as [|b s IH]; [done|]. change (16 * (b / 16) + b mod 16 :: from_nibbles (to_nibbles s) = b :: s).
  rewrite IH. f_equal. pose proof (Z.div_mod b 16). lia.
Qed.

(** Lists of even length, two by two. *)
Lemma pairs_ind {A} (P : list A -> Prop) :
  P [] -> (forall x y l, P l -> P (x :: y :: l)) -> forall m l, length l = (2 * m)%nat -> P l.
Proof.
  intros Hn Hc m. induction m as [|m IH]; intros l Hl; [by destruct l|].
  destruct l as [|x [|y l]]; cbn in Hl; [lia..|]. apply Hc, IH. lia.
Qed.
Lemma to_from_nibbles m ns : length ns = (2 * m)%nat -> nibbles ns -> to_nibbles (from_nibbles ns) = ns.
Proof.
  intros Hm. pattern ns. revert m ns Hm. apply pairs_ind; [done|]. intros x y l IH Hn.
  apply Forall_cons in Hn as [Hx [Hy Hl]%Forall_cons]. unfold nibble in *.
  change ((16 * x + y) / 16 :: (16 * x + y) mod 16 :: to_nibbles (from_nibbles l) = x :: y :: l).
  rewrite IH by done. repeat f_equal; symmetry; [apply (Z.div_unique_pos _ _ _ y)|apply (Z.mod_unique_pos _ _ x)]; lia.
Qed.
Lemma from_nibbles_ok m ns : length ns = (2 * m)%nat -> nibbles ns -> bytes_ok (from_nibbles ns) /\ length (from_nibbles ns) = m.
Proof.
  revert ns. induction m as [|m IH]; intros ns Hl Hn; [destruct ns; [by split; [constructor|]|done]|].
  destruct ns as [|x [|y ns]]; cbn in Hl; [lia..|]. apply Forall_cons in Hn as [Hx [Hy Hn]%Forall_cons].
  destruct (IH ns) as [Hb Hlen]; [lia|done|]. unfold nibble in *. cbn. split; [|by f_equal]. constructor; [unfold is_byte; lia|done].
Qed.
Lemma decodeNibbles_ok m ns bs :
  length ns = (2 * m)%nat -> length bs = m -> nibbles ns -> decodeNibbles ns bs = Ok (from_nibbles ns).
Proof.
  revert ns bs. induction m as [|m IH]; intros ns bs Hl Hb Hn; [by destruct ns, bs|].
  destruct ns as [|x [|y ns]]; cbn in Hl; [lia..|]. destruct bs as [|z bs]; [done|].
  apply Forall_cons in Hn as [Hx [Hy Hn]%Forall_cons]. injection Hb as Hb.
  change ((rest ← decodeNibbles ns bs; Ok (Z.lor (u8 (Z.shiftl x 4)) y :: rest)) = Ok (16 * x + y :: from_nibbles ns)).
  by rewrite (IH ns bs), nibble_pair by (done || lia).
Qed.

(** ** Key bytes *)

Lemma hasTerm_term k : hasTerm (k ++ [16]) = true.
Proof. unfold hasTerm. by rewrite last_snoc. Qed.
Lemma hasTerm_nibbles k : nibbles k -> hasTerm k = false.
Proof.
  intros Hk. unfold hasTerm. destruct (last k) as [x|] eqn:Hl; [|done]. apply last_Some in Hl as [l' ->].
  apply Forall_app in Hk as [_ Hx%Forall_inv]. apply Z.eqb_neq. unfold nibble in Hx. lia.
Qed.
Lemma take_but_last {A} (k : list A) x : take (length (k ++ [x]) - 1) (k ++ [x]) = k.
Proof. rewrite length_app. cbn. by rewrite Nat.add_sub, take_app_length. Qed.
Lemma odd_land n : Z.land (Z.of_nat n) 1 = if Nat.odd n then 1 else 0.
Proof.
  change 1 with (Z.ones 1) at 1. rewrite Z.land_ones by lia. change (2 ^ 1) with 2. rewrite Zmod_odd.
  destruct (Nat.odd n) eqn:Ho.
  - apply Nat.odd_spec in Ho as [m ->]. replace (Z.of_nat (2 * m + 1)) with (1 + 2 * Z.of_nat m) by lia.
    by rewrite Z.odd_add_mul_2.
  - apply (f_equal negb) in Ho. rewrite Nat.negb_odd in Ho. apply Nat.even_spec in Ho as [m ->].
    replace (Z.of_nat (2 * m)) with (0 + 2 * Z.of_nat m) by lia. by rewrite Z.odd_add_mul_2.
Qed.

Lemma keybytesToHex_eq s : keybytesToHex s = to_nibbles s ++ [16].
Proof. done. Qed.
Lemma keybytesToHex_term s : bytes_ok s -> term_key (keybytesToHex s).
Proof. intros Hs. exists (to_nibbles s). by split; [apply to_nibbles_ok|]. Qed.
Lemma keybytesToHex_inj s s' : keybytesToHex s = keybytesToHex s' -> s = s'.
Proof.
  rewrite !keybytesToHex_eq. intros [Heq _]%app_inj_tail. apply (f_equal from_nibbles) in Heq. by rewrite !from_to_nibbles in Heq.
Qed.

(** ** The compact encoding *)

(** The compact form of a key that consists of nibbles, with the terminator or not. *)
Definition compact_flag (term : bool) : Z := if term then 32 else 0.
Definition compact_nibbles (term : bool) (p : bytes) : bytes :=
  match p with
  | first :: p' => if Nat.odd (length p) then compact_flag term + 16 + first :: from_nibbles p' else compact_flag term :: from_nibbles p
  | [] => [compact_flag term]
  end.
Definition with_term (term : bool) (p : bytes) : bytes := if term then p ++ [16] else p.

Lemma odd_tail {A} (x : A) l : Nat.odd (length (x :: l)) = true -> exists m, length l = (2 * m)%nat.
Proof. intros [m Hm]%Nat.odd_spec. exists m. cbn in Hm. lia. Qed.
Lemma even_length {A} (l : list A) : Nat.odd (length l) = false -> exists m, length l = (2 * m)%nat.
Proof. intros Ho. apply (f_equal negb) in Ho. rewrite Nat.negb_odd in Ho. by apply Nat.even_spec. Qed.
Lemma zeros_half m : length (zeros (Z.of_nat (2 * m) / 2)) = m.
Proof. unfold zeros. rewrite length_replicate. replace (Z.of_nat (2 * m)) with (Z.of_nat m * 2) by lia. rewrite Z.div_mul; lia. Qed.
Lemma zeros_half_odd m : length (zeros (Z.of_nat (S (2 * m)) / 2)) = m.
Proof.
  unfold zeros. rewrite length_replicate. replace (Z.of_nat (S (2 * m))) with (1 + Z.of_nat m * 2) by lia.
  rewrite Z.div_add by lia. change (1 / 2) with 0. lia.
Qed.
Lemma flag_first term x : nibble x -> Z.lor (Z.lor (Z.shiftl (if term : bool then 1 else 0) 5) (Z.shiftl 1 4)) x = compact_flag term + 16 + x.
Proof.
  intros Hx. assert (forallb (fun x => forallb (fun term : bool =>
    Z.lor (Z.lor (Z.shiftl (if term : bool then 1 else 0) 5) (Z.shiftl 1 4)) x =? compact_flag term + 16 + x) [true; false]) (seqZ 0 16) = true)
    as Hall by (vm_compute; done).
  rewrite forallb_forall in Hall. specialize (Hall x (proj1 (list_elem_of_In _ _) (proj2 (elem_of_seqZ _ _ _) Hx))).
  rewrite forallb_forall in Hall. apply Z.eqb_eq, Hall. destruct term; [left|right; left]; done.
Qed.
Lemma with_term_strip term p : nibbles p ->
  hasTerm (with_term term p) = term /\ (if term then take (length (with_term term p) - 1) (with_term term p) else with_term term p) = p.
Proof.
  intros Hp. destruct term; cbn [with_term]; [by rewrite hasTerm_term, take_but_last|by rewrite hasTerm_nibbles].
Qed.

Lemma hexToCompact_ok term p : nibbles p -> hexToCompact (with_term term p) = Ok (compact_nibbles term p).
Proof.
  intros Hp. unfold hexToCompact. destruct (with_term_strip term p Hp) as [-> Hs]. rewrite Hs. unfold zlen.
  rewrite odd_land. destruct p as [|x p]; [by destruct term|]. unfold compact_nibbles.
  destruct (Nat.odd (length (x :: p))) eqn:Ho.
  - destruct (odd_tail x p Ho) as [m Hm]. apply Forall_cons in Hp as [Hx Hp].
    change (1 =? 1) with true. cbv iota. rewrite flag_first by done.
    rewrite (decodeNibbles_ok m) by (done || (cbn [length]; rewrite Hm; apply zeros_half_odd)). done.
  - destruct (even_length (x :: p) Ho) as [m Hm]. change (0 =? 1) with false. cbv iota.
    rewrite (decodeNibbles_ok m) by (done || (rewrite Hm; apply zeros_half)). by destruct term.
Qed.
Lemma compactToHex_head term odd x rest :
  nibble x ->
  compactToHex (compact_flag term + (if odd : bool then 16 + x else 0) :: rest) =
    (if odd then [x] else []) ++ with_term term (to_nibbles rest).
Proof.
  intros Hx. unfold compactToHex. set (b := compact_flag term + _).
  assert (b / 16 = (if term then 2 else 0) + (if odd then 1 else 0) /\ (odd = true -> b mod 16 = x)) as [Hd Hm].
  { unfold nibble in Hx. subst b. split.
    - symmetry. apply (Z.div_unique_pos _ _ _ (if odd then x else 0)); destruct term, odd; cbn [compact_flag]; lia.
    - intros ->. symmetry. apply (Z.mod_unique_pos _ _ ((if term then 2 else 0) + 1)); destruct term; cbn [compact_flag]; lia. }
  change (keybytesToHex (b :: rest)) with ((b / 16 :: b mod 16 :: to_nibbles rest) ++ [16]). rewrite take_but_last, Hd.
  destruct odd; [rewrite Hm by done|]; destruct term; cbn; by rewrite ?drop_0.
Qed.
Lemma compactToHex_compact term p : nibbles p -> compactToHex (compact_nibbles term p) = with_term term p.
Proof.
  intros Hp. destruct p as [|x p].
  - pose proof (compactToHex_head term false 0 [] ltac:(unfold nibble; lia)) as Hh. cbn [app] in Hh. rewrite Z.add_0_r in Hh. exact Hh.
  - unfold compact_nibbles. destruct (Nat.odd (length (x :: p))) eqn:Ho.
    + destruct (odd_tail x p Ho) as [m Hm]. apply Forall_cons in Hp as [Hx Hp].
      rewrite <- Z.add_assoc, (compactToHex_head term true), (to_from_nibbles m) by done. by destruct term.
    + destruct (even_length (x :: p) Ho) as [m Hm].
      pose proof (compactToHex_head term false 0 (from_nibbles (x :: p)) ltac:(unfold nibble; lia)) as Hh. cbn [app] in Hh.
      rewrite Z.add_0_r in Hh. by rewrite Hh, (to_from_nibbles m).
Qed.
Lemma compact_nibbles_ok term p : nibbles p -> bytes_ok (compact_nibbles term p) /\ zlen (compact_nibbles term p) <= zlen p + 1.
Proof.
  intros Hp. assert (is_byte (compact_flag term)) as Hf by (unfold is_byte; destruct term; cbn; lia).
  destruct p as [|x p]; [by split; [repeat constructor; apply Hf|]|]. unfold compact_nibbles.
  destruct (Nat.odd (length (x :: p))) eqn:Ho.
  - destruct (odd_tail x p Ho) as [m Hm]. apply Forall_cons in Hp as [Hx Hp].
    destruct (from_nibbles_ok m p Hm Hp) as [Hb Hl]. split; [constructor; [|done]|].
    + unfold nibble in Hx. unfold is_byte. destruct term; cbn [compact_flag]; lia.
    + unfold zlen. cbn [length]. rewrite Hl, Hm. lia.
  - destruct (even_length (x :: p) Ho) as [m Hm]. destruct (from_nibbles_ok m (x :: p) Hm Hp) as [Hb Hl].
    split; [by constructor|]. unfold zlen. cbn [length] in *. rewrite Hl. lia.
Qed.
Lemma hexToKeybytes_ok s : bytes_ok s -> hexToKeybytes (keybytesToHex s) = Ok s.
Proof.
  intros Hs. unfold hexToKeybytes. rewrite keybytesToHex_eq, hasTerm_term, take_but_last. unfold zlen.
  rewrite odd_land, length_to_nibbles. rewrite Nat.odd_mul. cbn [Nat.odd negb andb].
  rewrite (decodeNibbles_ok (length s)), from_to_nibbles by (apply length_to_nibbles || apply zeros_half || by apply to_nibbles_ok). done.
Qed.

(** ** Common prefixes *)

Lemma prefixLen_split a b :
  exists p a' b', a = p ++ a' /\ b = p ++ b' /\ prefixLen a b = length p /\
    match a', b' with x :: _, y :: _ => x <> y | _, _ => True end.
Proof.
  revert b. induction a as [|x a IH]; intros b; [by exists [], [], b|].
  destruct b as [|y b]; [by exists [], (x :: a), []|]. cbn. destruct (Z.eqb_spec x y) as [->|Hne].
  - destruct (IH b) as (p & a' & b' & -> & -> & Hl & Hd). exists (y :: p), a', b'. by rewrite Hl.
  - by exists [], (x :: a), (y :: b).
Qed.

(** No key of a value is a proper prefix of another. *)
Lemma term_key_cons x k : term_key (x :: k) -> (x = 16 /\ k = []) \/ (nibble x /\ term_key k).
Proof.
  intros (p & Hp & Heq). destruct p as [|y p]; cbn in Heq; injection Heq as -> ->; [by left|].
  apply Forall_cons in Hp as [Hy Hp]. right. split; [done|]. by exists p.
Qed.
Lemma term_key_drop p k : nibbles p -> term_key (p ++ k) -> term_key k.
Proof.
  induction p as [|x p IH]; intros Hp Hk; [done|]. apply Forall_cons in Hp as [Hx Hp].
  apply IH; [done|]. apply term_key_cons in Hk as [[-> _]|[_ Hk]]; [unfold nibble in Hx; lia|done].
Qed.
Lemma term_key_nil : ~ term_key [].
Proof. intros (p & _ & Heq). by destruct p. Qed.
Lemma term_key_prefix k k' : term_key k -> term_key (k ++ k') -> k' = [].
Proof.
  intros (p & Hp & ->) Hk. rewrite <- app_assoc in Hk. apply term_key_drop in Hk; [|done].
  apply term_key_cons in Hk as [[_ Hk]|[Hx _]]; [done|unfold nibble in Hx; lia].
Qed.
