(* ===== verification/TrieNode.v ===== *)
(** * The nodes of a trie

    Models [trie/node.go] and [trie/errors.go]: the nodes in memory with their
    cached hash, and the parser of their stored form. A nil interface is
    [nilNode]. The parser makes nodes of encodings within encodings; its model
    has fuel, and the length of the input is enough. *)

From S2P Require Import Prelude CommonMath Rlp TrieKey.
Local Open Scope Z_scope.

(** ** Nodes *)

(** [flag_hash] is the hash of the node if it is known. *)
Record nodeFlag : Type := mkFlag {
  flag_hash : option bytes;
  flag_gen : Z;
  flag_dirty : bool;
}.
Inductive node : Type :=
| nilNode
| fullNode (Children : list node) (flags : nodeFlag)
| shortNode (Key : bytes) (Val : node) (flags : nodeFlag)
| hashNode (h : bytes)
| valueNode (v : bytes).

Record MissingNodeError : Type := mkMissing { NodeHash : Hash; Path : bytes }.

(** The generation is a [uint16], and so is the difference. *)
Definition canUnload (n : node) (cachegen cachelimit : Z) : bool :=
  match n with
  | fullNode _ f | shortNode _ _ f => negb (flag_dirty f) && (cachelimit <=? (cachegen - flag_gen f) mod 2 ^ 16)
  | _ => false
  end.
Definition cache (n : node) : option bytes * bool :=
  match n with
  | fullNode _ f | shortNode _ _ f => (flag_hash f, flag_dirty f)
  | _ => (None, true)
  end.

Section node_induction.
Context (P : node -> Prop).
Context (Hnil : P nilNode) (Hfull : forall cs f, Forall P cs -> P (fullNode cs f)).
Context (Hshort : forall k n f, P n -> P (shortNode k n f)).
Context (Hhash : forall h, P (hashNode h)) (Hvalue : forall v, P (valueNode v)).

Fixpoint node_ind2 (n : node) : P n :=
  match n with
  | nilNode => Hnil
  | fullNode cs f => Hfull cs f ((fix go (cs : list node) : Forall P cs :=
      match cs with [] => Forall_nil_2 P | c :: cs' => Forall_cons_2 P c cs' (node_ind2 c) (go cs') end) cs)
  | shortNode k n f => Hshort k n f (node_ind2 n)
  | hashNode h => Hhash h
  | valueNode v => Hvalue v
  end.
End node_induction.

#[export] Instance node_nil_dec (n : node) : Decision (n = nilNode).
Proof. destruct n; first [by left|by right]. Defined.

(** ** Decoding *)

(** Where in a node an error has been found; innermost first. *)
Inductive decodeStep : Type := InShort | InFull | InVal | InChild (i : Z).
Inductive decodeErr : Type :=
| NodeEOF
| NotAList (e : rlpError)
| BadCount (c : Z)
| BadValue (e : rlpError)
| OversizedNode (size : Z)
| BadSize (size : Z)
| BadRlp (e : rlpError).
Record decodeError : Type := mkDecodeError { what : decodeErr; stack : list decodeStep }.

Abbreviation decode_result A := (outcome (decodeError + A)).
Definition decode_bind {A B} (m : decode_result A) (k : A -> decode_result B) : decode_result B :=
  r ← m; match r with inl e => Ok (inl e) | inr a => k a end.
Definition fails {A} (e : decodeErr) : decode_result A := Ok (inl (mkDecodeError e [])).
Definition of_rlp {A} (wrap : rlpError -> decodeErr) (r : rlpError + A) : decode_result A :=
  match r with inl e => fails (wrap e) | inr a => Ok (inr a) end.
Definition wrapError {A} (ctx : decodeStep) (m : decode_result A) : decode_result A :=
  r ← m; Ok (match r with inl e => inl (mkDecodeError (what e) (stack e ++ [ctx])) | inr a => inr a end).
#[local] Notation "'let!' x := m 'in' k" := (decode_bind m (fun x => k)) (x pattern, at level 10, k at level 200).

Section decode.
Context (cachegen : Z).
(** [decodeNode] for the nodes within a node. *)
Context (decode_embedded : bytes -> decode_result node).

Definition decodeRef (buf : bytes) : decode_result (node * bytes) :=
  let! (k, val, rest) := of_rlp BadRlp (Split buf) in
  match k with
  | KList =>
      let size := zlen buf - zlen rest in
      if 32 <? size then fails (OversizedNode size)
      else let! n := decode_embedded buf in Ok (inr (n, rest))
  | KString =>
      if zlen val =? 0 then Ok (inr (nilNode, rest))
      else if zlen val =? 32 then Ok (inr (hashNode val, rest))
      else fails (BadSize (zlen val))
  | KByte => fails (BadSize (zlen val))
  end.
Definition decodeShort (hash : option bytes) (elems : bytes) : decode_result node :=
  let! (kbuf, rest) := of_rlp BadRlp (SplitString elems) in
  let flag := mkFlag hash cachegen false in
  let key := compactToHex kbuf in
  if hasTerm key then
    let! (val, _) := of_rlp BadValue (SplitString rest) in
    Ok (inr (shortNode key (valueNode val) flag))
  else
    let! (r, _) := wrapError InVal (decodeRef rest) in
    Ok (inr (shortNode key r flag)).
(** The first sixteen children, and what is left. *)
Fixpoint decode_children (m : nat) (i : Z) (elems : bytes) : decode_result (list node * bytes) :=
  match m with
  | O => Ok (inr ([], elems))
  | S m' =>
      let! (cld, rest) := wrapError (InChild i) (decodeRef elems) in
      let! (cs, rest) := decode_children m' (i + 1) rest in
      Ok (inr (cld :: cs, rest))
  end.
Definition decodeFull (hash : option bytes) (elems : bytes) : decode_result node :=
  let! (cs, rest) := decode_children 16 0 elems in
  let! (val, _) := of_rlp BadRlp (SplitString rest) in
  let last := if 0 <? zlen val then valueNode val else nilNode in
  Ok (inr (fullNode (cs ++ [last]) (mkFlag hash cachegen false))).
Definition decodeNode_with (hash : option bytes) (buf : bytes) : decode_result node :=
  if zlen buf =? 0 then fails NodeEOF
  else
    let! (elems, _) := of_rlp NotAList (SplitList buf) in
    let c := match CountValues elems with Some (inr c) => c | _ => 0 end in
    if c =? 2 then wrapError InShort (decodeShort hash elems)
    else if c =? 17 then wrapError InFull (decodeFull hash elems)
    else fails (BadCount c).
End decode.

Fixpoint decodeNode_fuel (fuel : nat) (cachegen : Z) (hash : option bytes) (buf : bytes) : decode_result node :=
  match fuel with
  | O => OutOfFuel
  | S fuel' => decodeNode_with cachegen (decodeNode_fuel fuel' cachegen None) hash buf
  end.
Definition decodeNode (hash : option bytes) (buf : bytes) (cachegen : Z) : decode_result node :=
  decodeNode_fuel (S (length buf)) cachegen hash buf.
Definition mustDecodeNode (hash : option bytes) (buf : bytes) (cachegen : Z) : outcome node :=
  r ← decodeNode hash buf cachegen;
  match r with inl _ => Panic (Msg "node: decode error") | inr n => Ok n end.
