(* ===== verification/Trie.v ===== *)
(** * The Merkle Patricia trie

    Models [trie/trie.go]: look-up, insertion and deletion on nodes that are
    loaded from the database when they are met, and the operations of a [Trie]
    on them. The database is a function from hashes to nodes, for the
    generation of the trie; [nilNode] is a node it does not have. Recursion
    goes down the key and through at most one hash a level, so that fuel of
    twice the length of the key and two is enough. *)

From S2P Require Import Prelude CommonMath TrieKey TrieNode.
Local Open Scope Z_scope.

(** [root] is a pointer, which may be nil, to a node, which may be nil. *)
Record Trie : Type := mkTrie {
  root : option node;
  cachegen : Z;
  cachelimit : Z;
}.
Definition set_root (n : node) (t : Trie) : Trie := mkTrie (Some n) (cachegen t) (cachelimit t).
Definition root_node (t : Trie) : node := default nilNode (root t).

(** The results of [insert] and [delete]: whether the node has changed, the new
    node, the error. *)
Abbreviation change := (bool * node * option MissingNodeError)%type.

Definition is_error {E} (err : option E) : bool := match err with Some _ => true | None => false end.

Section operations.
Context (db_node : Hash -> Z -> outcome node) (gen : Z).

Definition newFlag : nodeFlag := mkFlag None gen true.
Definition with_gen (f : nodeFlag) : nodeFlag := mkFlag (flag_hash f) gen (flag_dirty f).

Definition resolveHash (h prefix : bytes) : outcome (node * option MissingNodeError) :=
  n ← db_node (BytesToHash h) gen;
  Ok (match n with
      | nilNode => (nilNode, Some (mkMissing (BytesToHash h) prefix))
      | _ => (n, None)
      end).
Definition resolve (n : node) (prefix : bytes) : outcome (node * option MissingNodeError) :=
  match n with hashNode h => resolveHash h prefix | _ => Ok (n, None) end.

(** A child of a full node by nibble: the index panics beyond the array. *)
Definition child (cs : list node) (b : option Z) : outcome node :=
  match b with
  | Some b => match zindex cs b with Some c => Ok c | None => Panic Index end
  | None => Panic Index
  end.
Definition set_child (cs : list node) (b : Z) (c : node) : list node := <[Z.to_nat b := c]> cs.

Fixpoint tryGet (fuel : nat) (origNode : node) (key : bytes) (pos : nat) :
    outcome (bytes * node * bool * option MissingNodeError) :=
  match fuel with
  | O => OutOfFuel
  | S fuel =>
      match origNode with
      | nilNode => Ok ([], nilNode, false, None)
      | valueNode v => Ok (v, origNode, false, None)
      | shortNode k n f =>
          if (zlen key - Z.of_nat pos <? zlen k) || negb (bool_decide (k = take (length k) (drop pos key)))
          then Ok ([], origNode, false, None)
          else
            '(value, newnode, didResolve, err) ← tryGet fuel n key (pos + length k)%nat;
            Ok (value, match err with
                       | None => if didResolve : bool then shortNode k newnode (with_gen f) else origNode
                       | _ => origNode
                       end, didResolve, err)
      | fullNode cs f =>
          c ← child cs (key !! pos);
          '(value, newnode, didResolve, err) ← tryGet fuel c key (S pos);
          Ok (value, match err with
                     | None => if didResolve : bool then fullNode (set_child cs (default 0 (key !! pos)) newnode) (with_gen f) else origNode
                     | _ => origNode
                     end, didResolve, err)
      | hashNode h =>
          '(n, err) ← resolveHash h (take pos key);
          match err with
          | Some e => Ok ([], origNode, true, Some e)
          | None => '(value, newnode, _, err) ← tryGet fuel n key pos; Ok (value, newnode, true, err)
          end
      end
  end.

(** A new branch with two children. *)
Definition branch2 (b1 : Z) (n1 : node) (b2 : Z) (n2 : node) : outcome node :=
  let none := replicate 17 nilNode in
  if (0 <=? b1) && (b1 <? 17) && (0 <=? b2) && (b2 <? 17)
  then Ok (fullNode (set_child (set_child none b1 n1) b2 n2) newFlag)
  else Panic Index.

Fixpoint insert (fuel : nat) (n : node) (prefix key : bytes) (value : node) : outcome change :=
  match fuel with
  | O => OutOfFuel
  | S fuel =>
      match key with
      | [] =>
          match n, value with
          | valueNode v, valueNode w => Ok (negb (bool_decide (v = w)), value, None)
          | valueNode v, _ => Panic TypeAssertion
          | _, _ => Ok (true, value, None)
          end
      | b :: key' =>
          match n with
          | shortNode k val f =>
              let matchlen := prefixLen key k in
              if Nat.eqb matchlen (length k) then
                '(dirty, nn, err) ← insert fuel val (prefix ++ take matchlen key) (drop matchlen key) value;
                Ok (if negb dirty || is_error err then (false, n, err)
                    else (true, shortNode k nn newFlag, None))
              else
                match k !! matchlen, key !! matchlen with
                | Some b1, Some b2 =>
                    '(_, n1, err) ← insert fuel nilNode (prefix ++ take (S matchlen) k) (drop (S matchlen) k) val;
                    match err with
                    | Some e => Ok (false, nilNode, Some e)
                    | None =>
                        '(_, n2, err) ← insert fuel nilNode (prefix ++ take (S matchlen) key) (drop (S matchlen) key) value;
                        match err with
                        | Some e => Ok (false, nilNode, Some e)
                        | None =>
                            branch ← branch2 b1 n1 b2 n2;
                            Ok (true, if Nat.eqb matchlen 0 then branch else shortNode (take matchlen key) branch newFlag, None)
                        end
                    end
                | _, _ => Panic Index
                end
          | fullNode cs f =>
              c ← child cs (Some b);
              '(dirty, nn, err) ← insert fuel c (prefix ++ [b]) key' value;
              Ok (if negb dirty || is_error err then (false, n, err)
                  else (true, fullNode (set_child cs b nn) newFlag, None))
          | nilNode => Ok (true, shortNode key value newFlag, None)
          | hashNode h =>
              '(rn, err) ← resolveHash h prefix;
              match err with
              | Some e => Ok (false, nilNode, Some e)
              | None =>
                  '(dirty, nn, err) ← insert fuel rn prefix key value;
                  Ok (if negb dirty || is_error err then (false, rn, err) else (true, nn, None))
              end
          | valueNode _ => Panic (Msg "invalid node")
          end
      end
  end.

(** The index of the one child that is left, -1 if there is none and -2 if there
    are more. *)
Fixpoint only_child (i pos : Z) (cs : list node) : Z :=
  match cs with
  | [] => pos
  | nilNode :: cs' => only_child (i + 1) pos cs'
  | _ :: cs' => if pos =? -1 then only_child (i + 1) i cs' else -2
  end.

(** A full node with a child changed, reduced to a short node if it has one
    child only. *)
Definition reduce (cs : list node) (prefix : bytes) : outcome change :=
  let pos := only_child 0 (-1) cs in
  if 0 <=? pos then
    c ← child cs (Some pos);
    let single := Ok (true, shortNode [u8 pos] c newFlag, None) in
    if negb (pos =? 16) then
      '(cnode, err) ← resolve c prefix;
      match err with
      | Some e => Ok (false, nilNode, Some e)
      | None =>
          match cnode with
          | shortNode k val _ => Ok (true, shortNode (u8 pos :: k) val newFlag, None)
          | _ => single
          end
      end
    else single
  else Ok (true, fullNode cs newFlag, None).

Fixpoint delete (fuel : nat) (n : node) (prefix key : bytes) : outcome change :=
  match fuel with
  | O => OutOfFuel
  | S fuel =>
      match n with
      | shortNode k val f =>
          let matchlen := prefixLen key k in
          if Nat.ltb matchlen (length k) then Ok (false, n, None)
          else if Nat.eqb matchlen (length key) then Ok (true, nilNode, None)
          else
            '(dirty, c, err) ← delete fuel val (prefix ++ take (length k) key) (drop (length k) key);
            Ok (if negb dirty || is_error err then (false, n, err)
                else match c with
                     | shortNode k' val' _ => (true, shortNode (k ++ k') val' newFlag, None)
                     | _ => (true, shortNode k c newFlag, None)
                     end)
      | fullNode cs f =>
          match key with
          | [] => Panic Index
          | b :: key' =>
              c ← child cs (Some b);
              '(dirty, nn, err) ← delete fuel c (prefix ++ [b]) key';
              if negb dirty || is_error err then Ok (false, n, err)
              else reduce (set_child cs b nn) prefix
          end
      | valueNode _ => Ok (true, nilNode, None)
      | nilNode => Ok (false, nilNode, None)
      | hashNode h =>
          '(rn, err) ← resolveHash h prefix;
          match err with
          | Some e => Ok (false, nilNode, Some e)
          | None =>
              '(dirty, nn, err) ← delete fuel rn prefix key;
              Ok (if negb dirty || is_error err then (false, rn, err) else (true, nn, None))
          end
      end
  end.
End operations.

(** ** Operations of a trie *)

Section tries.
Context (db_node : Hash -> Z -> outcome node).

Definition key_fuel (k : bytes) : nat := 2 * length k + 2.

(** Trie.New; [emptyRoot] is the hash of the empty trie. *)
Definition Trie_New (emptyRoot rootHash : Hash) : outcome (Trie + MissingNodeError) :=
  if negb (rootHash =? 0) && negb (rootHash =? emptyRoot) then
    '(rootnode, err) ← resolveHash db_node 0 (Hash_Bytes rootHash) [];
    Ok (match err with Some e => inr e | None => inl (mkTrie (Some rootnode) 0 0) end)
  else Ok (inl (mkTrie None 0 0)).

Definition Trie_TryGet (key : bytes) (t : Trie) : outcome (bytes * option MissingNodeError * Trie) :=
  let k := keybytesToHex key in
  '(value, newroot, didResolve, err) ← tryGet db_node (cachegen t) (key_fuel k) (root_node t) k 0;
  Ok (value, err, match err with None => if didResolve : bool then set_root newroot t else t | _ => t end).

(** One round of the loop of [tryUpdate]: the new root for an old one. *)
Definition tryUpdate_root (gen : Z) (key value : bytes) (rootCpy : node) : outcome (node * option MissingNodeError) :=
  let k := keybytesToHex key in
  '(_, n, err) ← (if negb (zlen value =? 0) then insert db_node gen (key_fuel k) rootCpy [] k (valueNode value)
                  else delete db_node gen (key_fuel k) rootCpy [] k);
  Ok (n, err).
(** Without other threads the swap of the root succeeds in the first round. *)
Definition Trie_TryUpdate (key value : bytes) (t : Trie) : outcome (option MissingNodeError * Trie) :=
  '(n, err) ← tryUpdate_root (cachegen t) key value (root_node t);
  Ok (err, match err with None => set_root n t | Some _ => t end).
Definition Trie_TryDelete (key : bytes) (t : Trie) : outcome (option MissingNodeError * Trie) :=
  let k := keybytesToHex key in
  '(_, n, err) ← delete db_node (cachegen t) (key_fuel k) (root_node t) [] k;
  Ok (err, match err with None => set_root n t | Some _ => t end).
End tries.
