(* ===== verification/TrieSpec.v ===== *)
(** * What a trie stands for

    The invariant of a node relates it to the map from keys to values it
    stands for, through the hashes that the database resolves. It says that
    the node is in minimal form (a full node has two children, a short node is
    not followed by a short node) and that the hashes it has cached are its
    own. Minimal form makes the node, up to what is loaded, a function of the
    map; so the hash of a trie depends on its contents only. *)

From S2P Require Import Prelude CommonMath Rlp RlpSpec StateIface TrieKey TrieNode Trie.
Local Open Scope Z_scope.

(** What else is known of the flags of a node in memory, for the map it stands
    for. It says nothing of nodes that are marked dirty. *)
Class FlagInv (Inv : bool -> nodeFlag -> (bytes -> bytes) -> Prop) : Prop := {
  Inv_dirty fo fl f : flag_dirty fl = true -> Inv fo fl f;
  Inv_gen fo fl g f : Inv fo fl f -> Inv fo (mkFlag (flag_hash fl) g (flag_dirty fl)) f;
  Inv_ext fo fl f f' : Inv fo fl f -> (forall k, f k = f' k) -> Inv fo fl f';
}.

Definition any_flag : bool -> nodeFlag -> (bytes -> bytes) -> Prop := fun _ _ _ => True.
#[export] Instance any_flag_inv : FlagInv any_flag.
Proof. done. Qed.

Section spec.
Context `{Crypto} (db_node : Hash -> Z -> outcome node).

(** ** Encodings *)

Definition strip_term (k : bytes) : bytes := if hasTerm k then take (length k - 1) k else k.
Definition compact_key (k : bytes) : bytes := compact_nibbles (hasTerm k) (strip_term k).
Definition rlp_of (it : Item) : bytes := default [] (rlp it).

(** What stands for a node in its parent: its encoding, or its hash if that is
    shorter. *)
Definition collapse (it : Item) : Item :=
  if zlen (rlp_of it) <? 32 then it else IBytes (keccak (rlp_of it)).
Definition is_inner (n : node) : bool :=
  match n with fullNode _ _ | shortNode _ _ _ => true | _ => false end.
Fixpoint node_item (n : node) : Item :=
  match n with
  | nilNode => IBytes []
  | valueNode v => IBytes v
  | hashNode h => IBytes h
  | shortNode k c _ => IList [IBytes (compact_key k); if is_inner c then collapse (node_item c) else node_item c]
  | fullNode cs _ => IList (map (fun c => if is_inner c then collapse (node_item c) else node_item c) cs)
  end.
Definition node_ref (n : node) : Item := if is_inner n then collapse (node_item n) else node_item n.
Definition node_enc (n : node) : bytes := rlp_of (node_item n).
Definition node_hash (n : node) : bytes :=
  match n with hashNode h => h | _ => keccak (node_enc n) end.

Definition is_hashNode (n : node) : bool := match n with hashNode _ => true | _ => false end.

(** ** The invariant *)

Inductive kind : Type := KValue | KShort | KFull.
#[export] Instance kind_eq_dec : EqDecision kind.
Proof. solve_decision. Defined.

Definition value_ok (v : bytes) : Prop := v <> [] /\ bytes_ok v /\ zlen v < 2 ^ 32.
(** The key of a short node by what follows it. *)
Definition short_shape (K : kind) (k : bytes) : Prop :=
  match K with
  | KValue => term_key k
  | KFull => nibbles k /\ k <> []
  | KShort => False
  end.
Definition two_children (cs : list node) : Prop :=
  exists i j c d, i <> j /\ cs !! i = Some c /\ c <> nilNode /\ cs !! j = Some d /\ d <> nilNode.
(** A cached hash is the hash of the encoding, which is as long as a hash unless
    the node is a root. A node that is not dirty and has no hash is within
    another. *)
Definition flag_ok (Inv : bool -> nodeFlag -> (bytes -> bytes) -> Prop) (force : bool) (n : node) (fl : nodeFlag) (f : bytes -> bytes) : Prop :=
  (forall h, flag_hash fl = Some h -> h = keccak (node_enc n) /\ (force = true \/ 32 <= zlen (node_enc n))) /\
  (flag_dirty fl = false -> flag_hash fl = None -> force = false /\ zlen (node_enc n) < 32) /\ Inv force fl f.

(** The nodes in the database are those of another process: nothing but the
    hash is known of their flags. *)
Inductive node_ok (Inv : bool -> nodeFlag -> (bytes -> bytes) -> Prop) : bool -> kind -> node -> (bytes -> bytes) -> Prop :=
| ok_value force v f :
    value_ok v -> (forall k, f k = match k with [] => v | _ => [] end) -> node_ok Inv force KValue (valueNode v) f
| ok_short force K k n fl g f :
    node_ok Inv false K n g -> short_shape K k -> flag_ok Inv force (shortNode k n fl) fl f ->
    (forall key, f (k ++ key) = g key) -> (forall key, (forall key', key <> k ++ key') -> f key = []) ->
    node_ok Inv force KShort (shortNode k n fl) f
| ok_full force cs Ks fl f :
    length cs = 17%nat ->
    (forall i c, cs !! i = Some c -> c <> nilNode -> node_ok Inv false (Ks i) c (fun key => f (Z.of_nat i :: key))) ->
    (forall i, Ks i = KValue <-> i = 16%nat) ->
    (forall i key, cs !! i = Some nilNode -> f (Z.of_nat i :: key) = []) ->
    f [] = [] -> (forall x key, ~ (0 <= x < 17) -> f (x :: key) = []) ->
    two_children cs -> flag_ok Inv force (fullNode cs fl) fl f ->
    node_ok Inv force KFull (fullNode cs fl) f
| ok_hash force K h (n : Z -> node) f :
    (forall gen, db_node (BytesToHash h) gen = Ok (n gen)) -> (forall gen, is_inner (n gen) = true) -> K <> KValue ->
    (forall gen, node_ok any_flag force K (n gen) f) ->
    (forall gen, h = keccak (node_enc (n gen)) /\ (force = true \/ 32 <= zlen (node_enc (n gen)))) ->
    node_ok Inv force K (hashNode h) f.

Lemma flag_ok_ext Inv `{!FlagInv Inv} force n fl f g :
  flag_ok Inv force n fl f -> (forall k, f k = g k) -> flag_ok Inv force n fl g.
Proof. intros (Hh & Hd & HI) Heq. split; [done|]. split; [done|]. by apply (Inv_ext _ _ f). Qed.
Lemma node_ok_ext Inv `{HI : !FlagInv Inv} force K n f g : node_ok Inv force K n f -> (forall k, f k = g k) -> node_ok Inv force K n g.
Proof.
  intros Hn. revert HI g. induction Hn as [Inv fo v f Hv Hf|Inv fo K k n fl g f Hn IH Hs Hfl Hf Hno|Inv fo cs Ks fl f Hl Hc IH HK Hnil H0 Hout H2 Hfl
    |Inv fo K h n f Hdb Hin HK Hn IH Hh]; intros HI f' Heq.
  - constructor; [done|]. intros k. by rewrite <- Heq.
  - apply (ok_short Inv fo K k n fl g); try done; [by apply (flag_ok_ext Inv _ _ _ f)|intros key; by rewrite <- Heq|].
    intros key Hne. rewrite <- Heq. by apply Hno.
  - apply (ok_full Inv fo cs Ks); try done.
    + intros i c Hi Hne. apply (IH i c Hi Hne HI). intros key. apply Heq.
    + intros i key Hi. rewrite <- Heq. by apply Hnil.
    + by rewrite <- Heq.
    + intros x key Hx. rewrite <- Heq. by apply Hout.
    + by apply (flag_ok_ext Inv _ _ _ f).
  - apply (ok_hash Inv fo K h n); try done. intros gen. by apply IH; [apply any_flag_inv|].
Qed.

(** A node that is loaded has what is asked of the flags of nodes in memory. *)
Class Loads (Inv : bool -> nodeFlag -> (bytes -> bytes) -> Prop) : Prop :=
  load_ok h (m : Z -> node) fo K f gen :
    (forall gen, db_node (BytesToHash h) gen = Ok (m gen)) -> node_ok any_flag fo K (hashNode h) f -> node_ok Inv fo K (m gen) f.
#[export] Instance any_flag_loads : Loads any_flag.
Proof.
  intros h m fo K f gen Hdb Hn. inversion Hn as [| | |fo' K' h' n f' Hdb' Hin HK Hok]; subst.
  specialize (Hdb gen). specialize (Hdb' gen). rewrite Hdb in Hdb'. injection Hdb' as ->. apply Hok.
Qed.

(** ** What the map says about the node *)

Definition has_value (f : bytes -> bytes) : Prop := exists k, f k <> [].

Lemma node_ok_has_value Inv force K n f : node_ok Inv force K n f -> has_value f.
Proof.
  induction 1 as [Inv fo v f Hv Hf|Inv fo K k n fl g f Hn IH Hs Hfl Hf Hno|Inv fo cs Ks fl f Hl Hc IH HK Hnil H0 Hout H2 Hfl
    |Inv fo K h n f Hdb Hin HK Hn IH Hh].
  - exists []. rewrite Hf. apply Hv.
  - destruct IH as [key Hkey]. exists (k ++ key). by rewrite Hf.
  - destruct H2 as (i & _ & c & _ & _ & Hi & Hne & _). destruct (IH i c Hi Hne) as [key Hkey]. by exists (Z.of_nat i :: key).
  - apply (IH 0).
Qed.
Lemma short_shape_nonempty K k : short_shape K k -> k <> [].
Proof. destruct K; cbn; [|done|by intros []]. intros Ht ->. by apply term_key_nil. Qed.
Lemma node_ok_nil Inv force K n f : node_ok Inv force K n f -> K <> KValue -> f [] = [].
Proof.
  induction 1 as [Inv fo v f Hv Hf|Inv fo K k n fl g f Hn IH Hs Hfl Hf Hno|Inv fo cs Ks fl f Hl Hc IH HK Hnil H0 Hout H2 Hfl
    |Inv fo K h n f Hdb Hin HK Hn IH Hh]; intros Hne; [done| |done|].
  - apply Hno. intros key Heq. symmetry in Heq. apply app_eq_nil in Heq as [-> _]. by apply short_shape_nonempty in Hs.
  - by apply (IH 0).
Qed.
Lemma node_ok_value Inv force n f : node_ok Inv force KValue n f -> exists v, n = valueNode v /\ value_ok v /\ f [] = v.
Proof.
  intros Hn. inversion Hn as [fo v f' Hv Hf| | |fo K h n' f' Hdb Hin HK]; subst; [|done].
  exists v. by rewrite Hf.
Qed.
(** The keys of a full node branch at once. *)
Lemma node_ok_branch Inv force n f :
  node_ok Inv force KFull n f -> exists x y a b, x <> y /\ f (x :: a) <> [] /\ f (y :: b) <> [].
Proof.
  intros Hn. remember KFull as K eqn:HK. induction Hn as [| |Inv fo cs Ks fl f Hl Hc _ HKs Hnil H0 Hout H2 Hfl|Inv fo K h n f Hdb Hin HKv Hn IH Hh]; [done..| |].
  - destruct H2 as (i & j & c & d & Hij & Hi & Hci & Hj & Hdj).
    destruct (node_ok_has_value _ _ _ _ _ (Hc i c Hi Hci)) as [a Ha]. destruct (node_ok_has_value _ _ _ _ _ (Hc j d Hj Hdj)) as [b Hb].
    exists (Z.of_nat i), (Z.of_nat j), a, b. split; [lia|done].
  - by apply (IH 0).
Qed.
Lemma short_key_extends Inv k k' K n g f :
  node_ok Inv false K n g -> short_shape K k -> (forall key, f (k ++ key) = g key) ->
  (forall key, f key <> [] -> exists a, key = k' ++ a) -> exists r, k = k' ++ r.
Proof.
  intros Hn Hs Hf Hall. destruct (prefixLen_split k k') as (p & a & b & Hk & Hk' & _ & Hd).
  destruct b as [|y b]; [exists a; by rewrite Hk, Hk', app_nil_r|]. exfalso.
  assert (forall key, g key <> [] -> exists c, a ++ key = y :: b ++ c) as Hg.
  { intros key Hkey. destruct (Hall (k ++ key)) as [c Hc]; [by rewrite Hf|]. rewrite Hk, Hk', <- !app_assoc in Hc.
    apply app_inv_head in Hc. by exists c. }
  destruct a as [|x a].
  - destruct K; [|done|].
    + apply node_ok_value in Hn as (v & -> & Hv & Hg0). destruct (Hg []) as [c Hc]; [rewrite Hg0; apply Hv|done].
    + apply node_ok_branch in Hn as (z & w & c & d & Hzw & Hz & Hw). destruct (Hg _ Hz) as [c1 [= -> _]].
      destruct (Hg _ Hw) as [c2 [= Hwy _]]. done.
  - destruct (node_ok_has_value _ _ _ _ _ Hn) as [key Hkey]. destruct (Hg key Hkey) as [c [= Hxy _]]. done.
Qed.

(** ** A map has one node *)

(** [it] is the encoding of the node, or of the node behind the hash. *)
Definition has_item (force : bool) (n : node) (it : Item) : Prop :=
  match n with
  | hashNode h => h = keccak (rlp_of it) /\ (force = true \/ 32 <= zlen (rlp_of it))
  | _ => node_item n = it
  end.
Lemma has_item_ref n it : has_item false n it -> n <> nilNode -> node_ref n = match n with valueNode _ => it | _ => collapse it end.
Proof.
  unfold node_ref. destruct n; cbn [has_item is_inner]; intros Hit Hne; try by subst. destruct Hit as [-> Hl].
  destruct Hl as [|Hl]; [done|]. unfold collapse. by rewrite (proj2 (Z.ltb_ge _ _) Hl).
Qed.
Lemma has_item_hash force n it : has_item force n it -> node_hash n = keccak (rlp_of it).
Proof. destruct n; cbn; try (by intros <-). by intros [-> _]. Qed.
Lemma unhash Inv force K n f :
  node_ok Inv force K n f -> exists Inv' n', is_hashNode n' = false /\ node_ok Inv' force K n' f /\
    (forall it, node_item n' = it -> has_item force n it).
Proof.
  intros Hn. destruct (is_hashNode n) eqn:Hh; [|exists Inv, n; split; [done|split; [done|by destruct n]]].
  inversion Hn as [| | |fo K' h n' f' Hdb Hin HK Hn' Hhash]; subst; try done.
  exists any_flag, (n' 0). split; [specialize (Hin 0); by destruct (n' 0)|]. split; [done|]. intros it <-. apply (Hhash 0).
Qed.

Lemma node_ok_not_nil Inv force K n f : node_ok Inv force K n f -> n <> nilNode.
Proof. by destruct 1. Qed.
Lemma has_prefix_dec (k key : bytes) : (exists a, key = k ++ a) \/ (forall a, key <> k ++ a).
Proof.
  destruct (decide (take (length k) key = k)) as [Ht|Ht].
  - left. exists (drop (length k) key). by rewrite <- Ht at 1; rewrite take_drop.
  - right. intros a ->. by rewrite take_app_length in Ht.
Qed.
(** A node stands for one map. *)
Lemma node_map Inv force K n f :
  node_ok Inv force K n f -> forall Inv' force' K' f', node_ok Inv' force' K' n f' -> forall key, f key = f' key.
Proof.
  induction 1 as [Inv fo v f Hv Hf|Inv fo K k n fl g f Hn IH Hs Hfl Hf Hno|Inv fo cs Ks fl f Hl Hc IH HK Hnil H0 Hout H2 Hfl
    |Inv fo K h n f Hdb Hin HK Hn IH Hh]; intros Inv' fo' K' f' Hn' key.
  - inversion Hn' as [fo0 v0 f0 Hv0 Hf0| | |]; subst. by rewrite Hf, Hf0.
  - inversion Hn' as [|fo0 K0 k0 n0 fl0 g0 f0 Hn0 Hs0 Hfl0 Hf0 Hno0| |]; subst. destruct (has_prefix_dec k key) as [[a ->]|Ha].
    + rewrite Hf, Hf0. by eapply IH.
    + by rewrite Hno, Hno0.
  - inversion Hn' as [| |fo0 cs0 Ks0 fl0 f0 Hl0 Hc0 HK0 Hnil0 H00 Hout0|]; subst. destruct key as [|x key]; [by rewrite H0, H00|].
    destruct (decide (0 <= x < 17)) as [Hx|Hx]; [|by rewrite Hout, Hout0]. rewrite <- (Z2Nat.id x) by lia.
    destruct (lookup_lt_is_Some_2 cs (Z.to_nat x)) as [c Hi]; [lia|]. destruct (decide (c = nilNode)) as [->|Hne]; [by rewrite Hnil, Hnil0|].
    by apply (IH _ c Hi Hne _ _ _ _ (Hc0 _ c Hi Hne)).
  - inversion Hn' as [| | |fo0 K0 h0 n0 f0 Hdb0 Hin0 HK0 Hok0]; subst. specialize (Hdb 0). rewrite (Hdb0 0) in Hdb. injection Hdb as Heq.
    apply (IH 0 any_flag fo' K'). rewrite <- Heq. apply Hok0.
Qed.
(** A short node and a full node do not stand for the same map. *)
Lemma short_not_full Inv k f f' fo n :
  k <> [] -> (forall key, (forall key', key <> k ++ key') -> f key = []) -> node_ok Inv fo KFull n f' -> (forall k, f k = f' k) -> False.
Proof.
  intros Hk Hno Hn Heq. apply node_ok_branch in Hn as (x & y & a & b & Hxy & Ha & Hb). destruct k as [|z k]; [done|].
  rewrite <- Heq in Ha, Hb. destruct (decide (x = z)) as [->|Hx].
  - apply Hb, Hno. intros key' [= Hyz _]. done.
  - apply Ha, Hno. intros key' [= Hxz _]. done.
Qed.
Lemma no_prefix_covers (f : bytes -> bytes) k :
  (forall key, (forall key', key <> k ++ key') -> f key = []) -> forall key, f key <> [] -> exists a, key = k ++ a.
Proof. intros Hno key Hkey. destruct (has_prefix_dec k key) as [|Hn]; [done|]. by apply Hno in Hn. Qed.

End spec.

Section unique.
Context `{Crypto} (db_node db_node' : Hash -> Z -> outcome node).
Abbreviation node_ok1 := (node_ok db_node).
Abbreviation node_ok2 := (node_ok db_node').

Lemma ref_of_item Inv Inv' K n n' f f' it :
  node_ok1 Inv false K n f -> node_ok2 Inv' false K n' f' -> has_item false n it -> has_item false n' it -> node_ref n = node_ref n'.
Proof.
  intros Hn Hn' Hi Hi'. rewrite (has_item_ref n it), (has_item_ref n' it) by (done || by eapply node_ok_not_nil).
  destruct K.
  - apply node_ok_value in Hn as (v & -> & _). by apply node_ok_value in Hn' as (v' & -> & _).
  - by inversion Hn; subst; inversion Hn'; subst.
  - by inversion Hn; subst; inversion Hn'; subst.
Qed.

Lemma short_unique Inv Inv' K k n g f K' k' n' g' f' :
  node_ok1 Inv false K n g -> short_shape K k -> (forall key, f (k ++ key) = g key) ->
  (forall key, (forall key', key <> k ++ key') -> f key = []) ->
  node_ok2 Inv' false K' n' g' -> short_shape K' k' -> (forall key, f' (k' ++ key) = g' key) ->
  (forall key, (forall key', key <> k' ++ key') -> f' key = []) ->
  (forall key, f key = f' key) -> k = k' /\ (forall key, g key = g' key).
Proof.
  intros Hn Hs Hf Hno Hn' Hs' Hf' Hno' Heq.
  destruct (short_key_extends db_node Inv k k' K n g f) as [r Hr]; [done..| |].
  { intros key. rewrite Heq. apply (no_prefix_covers f' k' Hno'). }
  destruct (short_key_extends db_node' Inv' k' k K' n' g' f') as [r' Hr']; [done..| |].
  { intros key. rewrite <- Heq. apply (no_prefix_covers f k Hno). }
  assert (k = k') as <-.
  { rewrite Hr' in Hr. rewrite <- app_assoc in Hr. rewrite <- (app_nil_r k) in Hr at 1. apply app_inv_head in Hr.
    symmetry in Hr. apply app_eq_nil in Hr as [-> ->]. by rewrite app_nil_r in Hr'. }
  split; [done|]. intros key. by rewrite <- Hf, <- Hf', Heq.
Qed.

Lemma full_unique Inv Inv' cs Ks f cs' Ks' f' :
  length cs = 17%nat ->
  (forall i c, cs !! i = Some c -> c <> nilNode -> node_ok1 Inv false (Ks i) c (fun key => f (Z.of_nat i :: key))) ->
  (forall i key, cs !! i = Some nilNode -> f (Z.of_nat i :: key) = []) ->
  length cs' = 17%nat ->
  (forall i c, cs' !! i = Some c -> c <> nilNode -> node_ok2 Inv' false (Ks' i) c (fun key => f' (Z.of_nat i :: key))) ->
  (forall i key, cs' !! i = Some nilNode -> f' (Z.of_nat i :: key) = []) ->
  (forall i c, cs !! i = Some c -> c <> nilNode -> forall c', node_ok2 Inv' false (Ks' i) c' (fun key => f' (Z.of_nat i :: key)) ->
     Ks i = Ks' i /\ exists it, has_item false c it /\ has_item false c' it) ->
  (forall key, f key = f' key) -> map node_ref cs = map node_ref cs'.
Proof.
  intros Hl Hc Hnil Hl' Hc' Hnil' IH Heq. apply list_eq. intros i. change (map node_ref cs !! i) with ((node_ref <$> cs) !! i).
  change (map node_ref cs' !! i) with ((node_ref <$> cs') !! i). rewrite !list_lookup_fmap.
  destruct (cs !! i) as [c|] eqn:Hi.
  2:{ apply lookup_ge_None in Hi. rewrite (proj2 (lookup_ge_None cs' i)) by lia. done. }
  destruct (lookup_lt_is_Some_2 cs' i) as [c' Hi']; [rewrite Hl', <- Hl; by eapply lookup_lt_Some|].
  rewrite Hi'. cbn. f_equal. destruct (decide (c = nilNode)) as [->|Hne], (decide (c' = nilNode)) as [->|Hne']; [done| | |].
  - destruct (node_ok_has_value _ _ _ _ _ _ (Hc' i c' Hi' Hne')) as [key Hkey]. by rewrite <- Heq, Hnil in Hkey.
  - destruct (node_ok_has_value _ _ _ _ _ _ (Hc i c Hi Hne)) as [key Hkey]. by rewrite Heq, Hnil' in Hkey.
  - destruct (IH i c Hi Hne c' (Hc' i c' Hi' Hne')) as (HK & it & Hit & Hit'). specialize (Hc i c Hi Hne). rewrite HK in Hc.
    by eapply ref_of_item; [exact Hc|apply (Hc' i c' Hi' Hne')|..].
Qed.

Lemma node_unique Inv fo K n f : node_ok1 Inv fo K n f ->
  forall Inv' fo' K' n' f', node_ok2 Inv' fo' K' n' f' -> (forall k, f k = f' k) ->
  K = K' /\ exists it, has_item fo n it /\ has_item fo' n' it.
Proof.
  induction 1 as [Inv fo v f Hv Hf|Inv fo K k n fl g f Hn IH Hs Hfl Hf Hno|Inv fo cs Ks fl f Hl Hc IH HK Hnil H0 Hout H2 Hfl
    |Inv fo K h n f Hdb Hin HK Hn IH Hh]; intros Inv' fo' K' n' f' Hn' Heq.
  - destruct (decide (K' = KValue)) as [->|Hne].
    + apply node_ok_value in Hn' as (v' & -> & _ & Hv'). split; [done|]. exists (IBytes v). split; [done|]. cbn.
      by rewrite <- Hv', <- Heq, Hf.
    + apply node_ok_nil in Hn'; [|done]. rewrite <- Heq, Hf in Hn'. by destruct Hv.
  - destruct (unhash _ _ _ _ _ _ Hn') as (Inv0 & m & Hm & Hmok & Hit). clear Hn'.
    inversion Hmok as [fo0 v f0 Hv Hf0|fo0 K0 k0 n0 fl0 g0 f0 Hn0 Hs0 Hfl0 Hf0 Hno0|fo0 cs0 Ks0 fl0 f0|]; subst; [| |exfalso|done].
    + assert (f [] = []) as Hfn by (apply (node_ok_nil db_node Inv fo KShort (shortNode k n fl)); [by eapply ok_short|done]).
      rewrite Heq, Hf0 in Hfn. by destruct Hv.
    + destruct (short_unique Inv Inv0 K k n g f K0 k0 n0 g0 f') as [<- Hg]; [done..|].
      destruct (IH Inv0 false K0 n0 g0 Hn0 Hg) as (<- & it & Hi & Hi0).
      split; [done|]. exists (node_item (shortNode k n fl)). split; [done|]. apply Hit.
      change (IList [IBytes (compact_key k); node_ref n0] = IList [IBytes (compact_key k); node_ref n]).
      by rewrite (ref_of_item Inv Inv0 K n n0 g g0 it).
    + by eapply short_not_full; [eapply short_shape_nonempty| |exact Hmok|].
  - destruct (unhash _ _ _ _ _ _ Hn') as (Inv0 & m & Hm & Hmok & Hit). clear Hn'.
    inversion Hmok as [fo0 v f0 Hv Hf0|fo0 K0 k0 n0 fl0 g0 f0 Hn0 Hs0 Hfl0 Hf0 Hno0|fo0 cs0 Ks0 fl0 f0 Hl0 Hc0 HK0 Hnil0|]; subst; [|exfalso| |done].
    + rewrite Heq, Hf0 in H0. by destruct Hv.
    + eapply (short_not_full db_node Inv k0 f' f fo (fullNode cs fl)); [by eapply short_shape_nonempty|done|by apply (ok_full db_node Inv fo cs Ks)|done].
    + split; [done|]. exists (node_item (fullNode cs fl)). split; [done|]. apply Hit. cbn. f_equal.
      symmetry. eapply (full_unique Inv Inv0 cs Ks f cs0 Ks0 f'); try done. intros i c Hi Hne c' Hc'. apply (IH i c Hi Hne Inv0 false (Ks0 i) c' _ Hc'). intros key. apply Heq.
  - destruct (IH 0 Inv' fo' K' n' f' Hn' Heq) as (HKK & it & Hi & Hi'). split; [done|]. exists it. split; [|done].
    specialize (Hin 0). specialize (Hh 0). cbn. by destruct (n 0); cbn in Hi; subst.
Qed.
End unique.
