(* ===== verification/TrieProps.v ===== *)
(** * A trie is a map

    Look-up, insertion and deletion of [trie/trie.go] on nodes that satisfy
    the invariant: they return on the fuel they are given, they do not panic,
    and they act on the map the node stands for as look-up, update and removal
    do. *)

From S2P Require Import Prelude CommonMath Rlp RlpSpec StateIface ConcreteCrypto TrieKey TrieNode Trie TrieSpec.
Local Open Scope Z_scope.

(** ** Updates of maps *)

Definition upd (f : bytes -> bytes) (key v : bytes) : bytes -> bytes := fun k => if decide (k = key) then v else f k.
Lemma upd_eq f key v : upd f key v key = v.
Proof. unfold upd. by rewrite decide_True. Qed.
Lemma upd_ne f key v k : k <> key -> upd f key v k = f k.
Proof. intros Hne. unfold upd. by rewrite decide_False. Qed.
Lemma upd_app f p g key v k :
  (forall k, f (p ++ k) = g k) -> upd f (p ++ key) v (p ++ k) = upd g key v k.
Proof.
  intros Hf. unfold upd. destruct (decide (k = key)) as [->|Hne]; [by rewrite !decide_True|].
  rewrite !decide_False by (done || by intros ?%app_inv_head). apply Hf.
Qed.

Section props.
Context `{Crypto} (db_node : Hash -> Z -> outcome node).
Context (Inv : bool -> nodeFlag -> (bytes -> bytes) -> Prop) `{!FlagInv Inv} `{!Loads db_node Inv} (gen : Z).
Abbreviation ok := (node_ok db_node Inv).
Implicit Types (f g : bytes -> bytes) (key : bytes) (n c : node) (fo : bool).

Definition key_for (K : kind) (key : bytes) : Prop := match K with KValue => key = [] | _ => term_key key end.

Lemma newFlag_ok fo n f : flag_ok Inv fo n (newFlag gen) f.
Proof. split; [done|]. split; [done|]. by apply Inv_dirty. Qed.
#[local] Hint Resolve newFlag_ok : core.

Lemma key_for_nonempty K key : K <> KValue -> key_for K key -> exists b key', key = b :: key'.
Proof.
  intros HK Hk. destruct key as [|b key']; [|by exists b, key']. destruct K; [done|by apply term_key_nil in Hk..].
Qed.
Lemma short_key_for K k key : short_shape K k -> term_key (k ++ key) -> key_for K key.
Proof.
  destruct K; cbn; [|done|intros [Hk _]]; [|by apply term_key_drop]. intros Hk Ht. by apply (term_key_prefix k).
Qed.

(** ** Look-up *)

Lemma resolveHash_ok h prefix (m : Z -> node) :
  (forall gen, db_node (BytesToHash h) gen = Ok (m gen)) -> is_inner (m gen) = true ->
  resolveHash db_node gen h prefix = Ok (m gen, None).
Proof. intros Hdb Hin. unfold resolveHash. rewrite Hdb. cbn. by destruct (m gen). Qed.
Lemma child_lookup cs (i : nat) : child cs (Some (Z.of_nat i)) = match cs !! i with Some c => Ok c | None => Panic Index end.
Proof. unfold child, zindex. rewrite (proj2 (Z.leb_le _ _)) by lia. by rewrite Nat2Z.id. Qed.
Lemma inner_not_hash n : is_inner n = true -> is_hashNode n = false.
Proof. by destruct n. Qed.
(** A node that is loaded takes the place of the one it stands for. *)
Lemma ref_reloaded K n n' f : ok false K n f -> ok false K n' f -> node_ref n' = node_ref n.
Proof.
  intros Hn Hn'. destruct (node_unique db_node db_node Inv _ _ _ _ Hn Inv _ _ _ _ Hn' (fun _ => eq_refl)) as (_ & it & Hi & Hi').
  symmetry. by eapply (ref_of_item db_node db_node Inv Inv K).
Qed.

Lemma reload_flag fo n n' fl f : flag_ok Inv fo n fl f -> node_enc n' = node_enc n -> flag_ok Inv fo n' (with_gen gen fl) f.
Proof. intros (Hh & Hd & HI) He. split; [by rewrite He|]. split; [by rewrite He|]. by apply Inv_gen. Qed.

(** The children of a full node. *)
Record children_ok (cs : list node) (Ks : nat -> kind) f : Prop := {
  co_length : length cs = 17%nat;
  co_child i c : cs !! i = Some c -> c <> nilNode -> ok false (Ks i) c (fun key => f (Z.of_nat i :: key));
  co_kind i : Ks i = KValue <-> i = 16%nat;
  co_nil i key : cs !! i = Some nilNode -> f (Z.of_nat i :: key) = [];
  co_empty : f [] = [];
  co_out x key : ~ (0 <= x < 17) -> f (x :: key) = [];
}.
Lemma children_full fo cs Ks fl f :
  children_ok cs Ks f -> two_children cs -> flag_ok Inv fo (fullNode cs fl) fl f -> ok fo KFull (fullNode cs fl) f.
Proof. intros [Hl Hc HK Hn He Ho] H2 Hfl. by apply (ok_full db_node Inv fo cs Ks). Qed.
Lemma children_set cs Ks f f' (i : nat) K c :
  children_ok cs Ks f -> (i < 17)%nat ->
  (c <> nilNode -> ok false K c (fun key => f' (Z.of_nat i :: key))) -> (K = KValue <-> i = 16%nat) ->
  (c = nilNode -> forall key, f' (Z.of_nat i :: key) = []) ->
  (forall key, (forall a, key <> Z.of_nat i :: a) -> f' key = f key) ->
  children_ok (<[i := c]> cs) (fun j => if decide (j = i) then K else Ks j) f'.
Proof.
  intros [Hl Hc HK Hn He Ho] Hi Hcok HKi Hcn Hf. split.
  - by rewrite length_insert.
  - intros j d Hj Hd. destruct (decide (j = i)) as [->|Hne].
    + rewrite list_lookup_insert_eq in Hj by lia. injection Hj as <-. by apply Hcok.
    + rewrite list_lookup_insert_ne in Hj by done. apply (node_ok_ext _ _ _ _ _ _ _ (Hc j d Hj Hd)). intros key. symmetry. apply Hf.
      intros a [= Hji _]. lia.
  - intros j. destruct (decide (j = i)) as [->|Hne]; [done|apply HK].
  - intros j key Hj. destruct (decide (j = i)) as [->|Hne].
    + rewrite list_lookup_insert_eq in Hj by lia. injection Hj as ->. by apply Hcn.
    + rewrite list_lookup_insert_ne in Hj by done. rewrite Hf by (intros a [= Hji _]; lia). by apply Hn.
  - by rewrite Hf.
  - intros x key Hx. rewrite Hf by (intros a [= -> _]; lia). by apply Ho.
Qed.
Lemma two_children_set cs (i : nat) c : (i < length cs)%nat -> c <> nilNode -> two_children cs -> two_children (<[i := c]> cs).
Proof.
  intros Hi Hc (j & k & d & e & Hjk & Hj & Hd & Hk & He).
  assert (forall m x, cs !! m = Some x -> x <> nilNode -> exists y, <[i := c]> cs !! m = Some y /\ y <> nilNode) as Hget.
  { intros m x Hm Hx. destruct (decide (m = i)) as [->|Hne]; [exists c|exists x].
    - by rewrite list_lookup_insert_eq.
    - by rewrite list_lookup_insert_ne. }
  destruct (Hget j d Hj Hd) as (d' & Hj' & Hd'). destruct (Hget k e Hk He) as (e' & Hk' & He').
  by exists j, k, d', e'.
Qed.

(** Where a key goes in a full node. *)
Lemma full_key cs Ks f key :
  children_ok cs Ks f -> term_key key ->
  exists i key' c, key = Z.of_nat i :: key' /\ (i < 17)%nat /\ cs !! i = Some c /\ key_for (Ks i) key'.
Proof.
  intros [Hl _ HK _ _ _] Hkey. destruct (key_for_nonempty KFull key ltac:(done) Hkey) as (b & key' & ->).
  assert (exists i, (i < 17)%nat /\ b = Z.of_nat i /\ key_for (Ks i) key') as (i & Hi & -> & Hk).
  { apply term_key_cons in Hkey as [[-> ->]|[Hnb Ht]].
    - exists 16%nat. split; [lia|]. by rewrite (proj2 (HK 16%nat) eq_refl).
    - unfold nibble in Hnb. exists (Z.to_nat b). split; [lia|]. split; [lia|].
      destruct (Ks (Z.to_nat b)) eqn:HKi; [apply HK in HKi; lia|done..]. }
  destruct (lookup_lt_is_Some_2 cs i) as [c Hci]; [lia|]. by exists i, key', c.
Qed.

Lemma drop_cons (key : bytes) pos b key' : drop pos key = b :: key' -> key !! pos = Some b /\ drop (S pos) key = key'.
Proof.
  intros Hd. assert (key !! pos = Some b) as Hb.
  { rewrite <- (Nat.add_0_r pos), <- lookup_drop, Hd. done. }
  split; [done|]. rewrite (drop_S key b pos Hb) in Hd. by injection Hd.
Qed.

Lemma reload_child cs Ks f fo fl (i : nat) c n' :
  children_ok cs Ks f -> two_children cs -> flag_ok Inv fo (fullNode cs fl) fl f -> cs !! i = Some c -> c <> nilNode ->
  ok false (Ks i) n' (fun key => f (Z.of_nat i :: key)) ->
  ok fo KFull (fullNode (set_child cs (Z.of_nat i) n') (with_gen gen fl)) f.
Proof.
  intros Hco H2 Hfl Hci Hcn Hn'. pose proof (node_ok_not_nil _ _ _ _ _ _ Hn') as Hnn. pose proof (lookup_lt_Some _ _ _ Hci) as Hi.
  unfold set_child. rewrite Nat2Z.id. eapply children_full.
  - apply (children_set cs Ks f f i (Ks i) n'); try done; [by rewrite <- (co_length _ _ _ Hco)|apply (co_kind _ _ _ Hco)].
  - by apply two_children_set.
  - apply reload_flag with (n := fullNode cs fl); [done|]. unfold node_enc.
    change (node_item (fullNode (<[i:=n']> cs) (with_gen gen fl))) with (IList (node_ref <$> <[i:=n']> cs)).
    rewrite list_fmap_insert, (ref_reloaded (Ks i) c n' _ (co_child _ _ _ Hco i c Hci Hcn) Hn'), list_insert_id; [done|].
    by rewrite list_lookup_fmap, Hci.
Qed.

Lemma tryGet_ok fuel : forall n key pos fo K f,
  ok fo K n f -> (pos <= length key)%nat -> key_for K (drop pos key) ->
  (2 * length (drop pos key) + (if is_hashNode n then 2 else 1) <= fuel)%nat ->
  exists n' r, tryGet db_node gen fuel n key pos = Ok (f (drop pos key), n', r, None) /\ ok fo K n' f.
Proof.
  induction fuel as [|fuel IHf]; intros n key pos fo K f Hn Hpos Hkey Hfuel; [destruct (is_hashNode n); lia|].
  destruct Hn as [fo v f Hv Hf|fo K k n fl g f Hn Hs Hfl Hf Hno|fo cs Ks fl f Hl Hc HK Hnil H0 Hout H2 Hfl
    |fo K h m f Hdb Hin HK Hn Hh]; cbn [is_hashNode] in Hfuel.
  - exists (valueNode v), false. cbn in Hkey. rewrite Hkey, Hf. split; [done|by constructor].
  - destruct (has_prefix_dec k (drop pos key)) as [[a Ha]|Hna].
    + assert (length k <> 0)%nat as Hk0 by (apply short_shape_nonempty in Hs; by destruct k).
      assert (drop (pos + length k) key = a) as Hda by (by rewrite <- drop_drop, Ha, drop_app_length).
      pose proof (f_equal length Ha) as Hlen. rewrite length_app, length_drop in Hlen.
      cbn [key_for] in Hkey. rewrite Ha in Hkey. rewrite Ha, length_app in Hfuel.
      destruct (IHf n key (pos + length k)%nat false K g) as (n' & r & He & Hn'); [done|lia|rewrite Hda; by apply (short_key_for K k)| |].
      { rewrite Hda. destruct (is_hashNode n); lia. }
      cbn [tryGet]. rewrite (proj2 (Z.ltb_ge _ _)) by (unfold zlen; lia).
      rewrite Ha, take_app_length, bool_decide_eq_true_2 by done. cbn [orb negb]. rewrite He, Hda, Hf. cbn.
      destruct r; [|by exists (shortNode k n fl), false; split; [|apply (ok_short db_node Inv fo K k n fl g)]].
      exists (shortNode k n' (with_gen gen fl)), true. split; [done|]. apply (ok_short db_node Inv fo K k n' _ g); try done.
      apply reload_flag with (n := shortNode k n fl); [done|]. unfold node_enc. change (node_item (shortNode k n' (with_gen gen fl)))
        with (IList [IBytes (compact_key k); node_ref n']). by rewrite (ref_reloaded K n n' g Hn Hn').
    + exists (shortNode k n fl), false. cbn [tryGet]. rewrite (Hno (drop pos key)) by (intros a; apply Hna).
      split; [|by apply (ok_short db_node Inv fo K k n fl g)].
      rewrite (bool_decide_eq_false_2 (k = _)); [by rewrite orb_true_r|].
      intros Hkk. apply (Hna (drop (length k) (drop pos key))). rewrite Hkk at 1. by rewrite take_drop.
  - assert (children_ok cs Ks f) as Hco by done. destruct (full_key cs Ks f _ Hco Hkey) as (i & key' & c & Hbk & Hi & Hci & Hk').
    destruct (drop_cons key pos _ key' Hbk) as [Hb Hd]. rewrite Hbk in Hfuel. cbn [length] in Hfuel.
    cbn [tryGet]. rewrite Hb, child_lookup, Hci. cbn [mbind outcome_bind default].
    destruct (decide (c = nilNode)) as [->|Hcn].
    + destruct fuel as [|fuel]; [lia|]. cbn. exists (fullNode cs fl), false. rewrite Hbk, Hnil by done.
      split; [done|by apply (ok_full db_node Inv fo cs Ks)].
    + destruct (IHf c key (S pos) false (Ks i) (fun key => f (Z.of_nat i :: key))) as (n' & r & He & Hn'); [by apply Hc|..].
      * apply lookup_lt_Some in Hb. lia.
      * by rewrite Hd.
      * rewrite Hd. destruct (is_hashNode c); lia.
      * rewrite He. cbn [mbind outcome_bind]. rewrite Hd, Hbk.
        destruct r; [|by exists (fullNode cs fl), false; split; [|apply (ok_full db_node Inv fo cs Ks)]].
        exists (fullNode (set_child cs (Z.of_nat i) n') (with_gen gen fl)), true. split; [done|]. by apply (reload_child cs Ks f fo fl i c n').
  - assert (ok fo K (m gen) f) as Hm by (apply (load_ok db_node h m); [done|by apply (ok_hash db_node any_flag fo K h m)]).
    destruct (IHf (m gen) key pos fo K f) as (n' & r & He & Hn'); [done..| |].
    { rewrite (inner_not_hash (m gen)) by done. lia. }
    exists n', true. split; [|done]. cbn [tryGet]. rewrite (resolveHash_ok h _ m) by done. cbn. by rewrite He.
Qed.

(** ** Insertion *)

(** What an insertion makes of a node of kind [K]. *)
Definition grown (K : kind) (n : node) f : Prop :=
  exists K', (K' = KValue <-> K = KValue) /\ (K = KFull -> K' = KFull) /\ forall fo, ok fo K' n f.

Lemma insert_nil fuel prefix key v :
  insert db_node gen (S fuel) nilNode prefix key v =
    Ok (true, match key with [] => v | _ => shortNode key v (newFlag gen) end, None).
Proof. by destruct key. Qed.

(** The end of a key, as the child of a branch. *)
Definition tail_node (k : bytes) n : node := match k with [] => n | _ => shortNode k n (newFlag gen) end.
Lemma tail_node_ok K k n g f y :
  ok false K n g -> short_shape K (y :: k) ->
  (forall key, f (k ++ key) = g key) -> (forall key, (forall key', key <> k ++ key') -> f key = []) ->
  exists K', ok false K' (tail_node k n) f /\ (K' = KValue <-> y = 16) /\ 0 <= y < 17.
Proof.
  intros Hn Hs Hf Hno. assert (0 <= y < 17 /\ (y = 16 <-> K = KValue /\ k = [])) as [Hy Hy16].
  { destruct K; cbn in Hs; [|done|].
    - apply term_key_cons in Hs as [[-> ->]|[Hx Ht]]; [by split; [lia|]|]. unfold nibble in Hx. split; [lia|]. split; [intros ->; lia|].
      intros [_ ->]. by apply term_key_nil in Ht.
    - destruct Hs as [[Hx _]%Forall_cons _]. unfold nibble in Hx. split; [lia|]. split; [intros ->; lia|by intros []]. }
  destruct k as [|x k]; cbn [tail_node].
  - exists K. split; [apply (node_ok_ext db_node Inv _ _ _ g); [done|intros key; by rewrite <- Hf]|]. split; [|done]. rewrite Hy16. by split; [|intros []].
  - exists KShort. split; [|split; [rewrite Hy16; by split; [|intros [_ ?]]|done]]. apply (ok_short db_node Inv false K _ n _ g); try done.
    destruct K; cbn in *; [|done|].
    + apply term_key_cons in Hs as [[_ Hs]|[_ Hs]]; done.
    + destruct Hs as [[_ Hs]%Forall_cons _]. done.
Qed.

Lemma branch2_ok f b1 n1 b2 n2 K1 K2 :
  b1 <> b2 -> 0 <= b1 < 17 -> 0 <= b2 < 17 ->
  ok false K1 n1 (fun key => f (b1 :: key)) -> (K1 = KValue <-> b1 = 16) ->
  ok false K2 n2 (fun key => f (b2 :: key)) -> (K2 = KValue <-> b2 = 16) ->
  f [] = [] -> (forall x key, x <> b1 -> x <> b2 -> f (x :: key) = []) ->
  exists br, branch2 gen b1 n1 b2 n2 = Ok br /\ forall fo, ok fo KFull br f.
Proof.
  intros Hne Hb1 Hb2 H1 HK1 H2 HK2 He Ho. unfold branch2.
  rewrite !(proj2 (Z.leb_le _ _)), !(proj2 (Z.ltb_lt _ _)) by lia. eexists. split; [done|]. intros fo.
  set (none := replicate 17 nilNode). unfold set_child.
  assert (children_ok none (fun i => if decide (i = 16%nat) then KValue else KShort) (fun _ => [])) as H0.
  { split; try done; [|intros i; by destruct (decide (i = 16%nat))].
    intros i c Hi. by apply lookup_replicate in Hi as [-> _]. }
  pose proof (node_ok_not_nil _ _ _ _ _ _ H1) as Hn1. pose proof (node_ok_not_nil _ _ _ _ _ _ H2) as Hn2.
  eapply (children_set _ _ _ (fun key => match key with x :: _ => if decide (x = b1) then f key else [] | [] => [] end) (Z.to_nat b1) K1 n1) in H0;
    [|lia| |rewrite HK1; lia|done|].
  - eapply (children_set _ _ _ f (Z.to_nat b2) K2 n2) in H0; [|lia| |rewrite HK2; lia|done|].
    + eapply children_full; [exact H0| |done].
      exists (Z.to_nat b1), (Z.to_nat b2), n1, n2. split; [lia|].
      rewrite list_lookup_insert_ne, !list_lookup_insert_eq by (rewrite ?length_insert; cbn; lia). done.
    + intros _. by rewrite Z2Nat.id by lia.
    + intros [|x key] Hx; [done|]. destruct (decide (x = b1)) as [->|Hx1]; [done|]. apply Ho; [done|].
      intros ->. apply (Hx key). by rewrite Z2Nat.id by lia.
  - intros _. rewrite Z2Nat.id by lia. apply (node_ok_ext _ _ _ _ _ _ _ H1). intros key. by rewrite decide_True.
  - intros [|x key] Hx; [done|]. rewrite decide_False; [done|]. intros ->. apply (Hx key). by rewrite Z2Nat.id by lia.
Qed.

(** The rest of a key behind the point where it leaves that of a short node. *)
Lemma short_shape_suffix K p y k : short_shape K (p ++ y :: k) -> short_shape K (y :: k).
Proof.
  destruct K; cbn; [|done|].
  - intros Ht. induction p as [|x p IH]; [done|]. apply IH. apply term_key_cons in Ht as [[_ Hn]|[_ Ht]]; [by destruct p|done].
  - intros [[_ Hk]%Forall_app _]. done.
Qed.
Lemma term_key_proper p x k : term_key (p ++ x :: k) -> nibbles p.
Proof.
  induction p as [|y p IH]; intros Ht; [constructor|]. cbn in Ht.
  apply term_key_cons in Ht as [[_ Hn]|[Hy Ht]]; [by destruct p|]. constructor; [done|by apply IH].
Qed.
Lemma term_key_not_shorter K p y k : term_key p -> short_shape K (p ++ y :: k) -> False.
Proof.
  intros Hp. destruct K; cbn; [intros Ht|done|intros [Hk _]].
  - by apply (term_key_prefix p) in Ht.
  - destruct Hp as (q & _ & ->). rewrite <- app_assoc in Hk. apply Forall_app in Hk as [_ Hk].
    apply Forall_cons in Hk as [Hx _]. unfold nibble in Hx. lia.
Qed.

(** A short node that splits. *)
Lemma split_ok K n g f p x key1 y k1 v fuel prefix prefix' :
  ok false K n g -> short_shape K (p ++ y :: k1) ->
  (forall key, f ((p ++ y :: k1) ++ key) = g key) -> (forall key, (forall key', key <> (p ++ y :: k1) ++ key') -> f key = []) ->
  value_ok v -> term_key (p ++ x :: key1) -> x <> y ->
  insert db_node gen (S fuel) nilNode prefix k1 n = Ok (true, tail_node k1 n, None) /\
  insert db_node gen (S fuel) nilNode prefix' key1 (valueNode v) = Ok (true, tail_node key1 (valueNode v), None) /\
  exists br, branch2 gen y (tail_node k1 n) x (tail_node key1 (valueNode v)) = Ok br /\
    grown KShort (if Nat.eqb (length p) 0 then br else shortNode p br (newFlag gen)) (upd f (p ++ x :: key1) v).
Proof.
  intros Hn Hs Hf Hno Hv Hkey Hxy. split; [apply insert_nil|]. split; [apply insert_nil|].
  set (f' := upd f (p ++ x :: key1) v). set (h := fun key => f' (p ++ key)).
  assert (forall key, h (y :: key) = f (p ++ y :: key)) as Hhy.
  { intros key. apply upd_ne. intros [= Heq _]%app_inv_head. done. }
  destruct (tail_node_ok K k1 n g (fun key => h (y :: key)) y) as (K1 & H1 & HK1 & Hy); [done|by apply (short_shape_suffix K p)|..].
  { intros key. rewrite Hhy, <- Hf. by rewrite <- app_assoc. }
  { intros key Hk. rewrite Hhy. apply Hno. intros key'. rewrite <- app_assoc. intros [= Heq]%app_inv_head. by apply (Hk key'). }
  destruct (tail_node_ok KValue key1 (valueNode v) (fun k => match k with [] => v | _ => [] end) (fun key => h (x :: key)) x)
    as (K2 & H2 & HK2 & Hx); [by constructor|by apply (short_shape_suffix KValue p)|..].
  { intros key. unfold h. destruct key as [|z key].
    - rewrite app_nil_r. apply upd_eq.
    - unfold f'. rewrite upd_ne.
      + apply Hno. intros key'. rewrite <- app_assoc. intros [= Heq _]%app_inv_head. done.
      + intros [= Heq]%app_inv_head. rewrite <- (app_nil_r key1) in Heq at 2. by apply app_inv_head in Heq. }
  { intros key Hk. unfold h, f'. rewrite upd_ne.
    - apply Hno. intros key'. rewrite <- app_assoc. intros [= Heq _]%app_inv_head. done.
    - intros [= Heq]%app_inv_head. apply (Hk []). by rewrite app_nil_r. }
  destruct (branch2_ok h y (tail_node k1 n) x (tail_node key1 (valueNode v)) K1 K2) as (br & Hbr & Hok); try done.
  { unfold h, f'. rewrite upd_ne; [|intros Heq%app_inv_head; done]. apply Hno. intros key'. rewrite <- app_assoc. intros Heq%app_inv_head. done. }
  { intros z key Hzy Hzx. unfold h, f'. rewrite upd_ne; [|intros [= Heq _]%app_inv_head; done]. apply Hno.
    intros key'. rewrite <- app_assoc. intros [= Heq _]%app_inv_head. done. }
  exists br. split; [done|]. destruct p as [|z p]; cbn [length Nat.eqb]; [by exists KFull|].
  exists KShort. split; [done|]. split; [done|]. intros fo.
  apply (ok_short db_node Inv fo KFull (z :: p) br _ h); [done|split; [by apply (term_key_proper _ x key1)|done]|done|done|].
  intros key Hk. unfold f'. rewrite upd_ne by (intros ->; by eapply Hk). apply Hno. intros key' ->. apply (Hk ((y :: k1) ++ key')).
  by rewrite <- app_assoc.
Qed.

Definition inserted fo K n f key v (r : outcome change) : Prop :=
  exists (dirty : bool) n', r = Ok (dirty, n', None) /\ if dirty then grown K n' (upd f key v) else f key = v /\ ok fo K n' f.

Lemma insert_short fuel prefix key v fo K k n fl g f :
  (forall prefix key, key_for K key -> (2 * length key + 2 <= fuel)%nat ->
     inserted false K n g key v (insert db_node gen fuel n prefix key (valueNode v))) ->
  ok false K n g -> short_shape K k -> flag_ok Inv fo (shortNode k n fl) fl f ->
  (forall key, f (k ++ key) = g key) -> (forall key, (forall key', key <> k ++ key') -> f key = []) ->
  value_ok v -> term_key key -> (2 * length key <= fuel)%nat ->
  inserted fo KShort (shortNode k n fl) f key v (insert db_node gen (S fuel) (shortNode k n fl) prefix key (valueNode v)).
Proof.
  intros IH Hn Hs Hfl Hf Hno Hv Hkey Hfuel. pose proof (short_shape_nonempty _ _ Hs) as Hk0.
  destruct (key_for_nonempty KShort key ltac:(done) Hkey) as (b & key' & ->). cbn [insert].
  remember (b :: key') as key eqn:Hbk. assert (0 < length key)%nat as Hpos by (rewrite Hbk; cbn; lia). clear b key' Hbk.
  destruct (prefixLen_split key k) as (p & a & c & Ha & Hc & Hp & Hd). rewrite Hp. destruct c as [|y k1].
  - rewrite app_nil_r in Hc. subst p. rewrite Nat.eqb_refl, Ha, take_app_length, drop_app_length.
    assert (length a < length key)%nat as Hla by (rewrite Ha, length_app; destruct k; [done|cbn; lia]).
    rewrite Ha in Hkey.
    destruct (IH (prefix ++ k) a) as (dirty & n' & -> & Hr); [by apply (short_key_for K k)|lia|].
    cbn. destruct dirty; cbn.
    + exists true, (shortNode k n' (newFlag gen)). split; [done|]. destruct Hr as (K' & HKv & HKf & Hok).
      assert (K' = K) as -> by (destruct K; [by apply HKv|done|by apply HKf]).
      exists KShort. split; [done|]. split; [done|]. intros fo'. apply (ok_short db_node Inv fo' K k n' _ (upd g a v)); try done.
      * intros key0. by apply upd_app.
      * intros key0 Hk. rewrite upd_ne by apply Hk. by apply Hno.
    + exists false, (shortNode k n fl). split; [done|]. destruct Hr as [Hr _]. split; [by rewrite Hf|]. by apply (ok_short db_node Inv fo K k n fl g).
  - destruct a as [|x key1].
    { exfalso. rewrite app_nil_r in Ha. rewrite <- Ha in Hc. rewrite Hc in Hs. by apply (term_key_not_shorter K key y k1). }
    rewrite (proj2 (Nat.eqb_neq _ _)) by (rewrite Hc, length_app; cbn; lia).
    assert (k !! length p = Some y) as -> by (rewrite Hc; apply list_lookup_middle; done).
    assert (key !! length p = Some x) as -> by (rewrite Ha; apply list_lookup_middle; done).
    assert (forall z l, drop (S (length p)) (p ++ z :: l) = l) as Hdrop.
    { intros z l. replace (S (length p)) with (length p + 1)%nat by lia. by rewrite drop_app_add. }
    destruct fuel as [|fuel]; [lia|]. subst key. rewrite Hc in Hs, Hf, Hno |- *. rewrite !Hdrop, take_app_length.
    destruct (split_ok K n g f p x key1 y k1 v fuel (prefix ++ take (S (length p)) (p ++ y :: k1)) (prefix ++ take (S (length p)) (p ++ x :: key1)))
      as (-> & H2 & br & Hbr & Hg); try done.
    cbn [mbind outcome_bind]. rewrite H2. cbn [mbind outcome_bind]. rewrite Hbr. cbn [mbind outcome_bind]. eexists true, _. split; [done|exact Hg].
Qed.

(** Insertion into a child of a full node, which may be nil. *)
Lemma insert_child fuel prefix cs Ks f (i : nat) c key v :
  (c <> nilNode -> inserted false (Ks i) c (fun key => f (Z.of_nat i :: key)) key v (insert db_node gen fuel c prefix key (valueNode v))) ->
  children_ok cs Ks f -> cs !! i = Some c -> value_ok v -> key_for (Ks i) key -> (0 < fuel)%nat -> (i < 17)%nat ->
  exists (dirty : bool) n', insert db_node gen fuel c prefix key (valueNode v) = Ok (dirty, n', None) /\
    if dirty then exists K', (K' = KValue <-> i = 16%nat) /\ ok false K' n' (upd (fun key => f (Z.of_nat i :: key)) key v)
    else f (Z.of_nat i :: key) = v.
Proof.
  intros IH Hco Hci Hv Hkey Hfuel Hi. destruct (decide (c = nilNode)) as [->|Hcn].
  - destruct fuel as [|fuel]; [lia|]. eexists true, _. split; [apply insert_nil|].
    destruct (tail_node_ok KValue key (valueNode v) (fun k => match k with [] => v | _ => [] end)
      (upd (fun key => f (Z.of_nat i :: key)) key v) (Z.of_nat i)) as (K' & Hok & HK' & _); [by constructor|..].
    + cbn. destruct (decide (i = 16%nat)) as [->|Hne].
      * rewrite (proj2 (co_kind _ _ _ Hco 16%nat) eq_refl) in Hkey. cbn in Hkey. subst key. by exists [].
      * assert (term_key key) as (p & Hp & ->) by (destruct (Ks i) eqn:HKi; [by apply (co_kind _ _ _ Hco) in HKi|done..]).
        exists (Z.of_nat i :: p). split; [|done]. constructor; [unfold nibble; lia|done].
    + intros k. destruct k as [|x k]; [rewrite app_nil_r; apply upd_eq|]. rewrite upd_ne; [by apply (co_nil _ _ _ Hco)|].
      rewrite <- (app_nil_r key) at 2. by intros ?%app_inv_head.
    + intros k Hk. rewrite upd_ne; [by apply (co_nil _ _ _ Hco)|]. intros ->. apply (Hk []). by rewrite app_nil_r.
    + exists K'. split; [rewrite HK'; lia|exact Hok].
  - destruct (IH Hcn) as (dirty & n' & He & Hr). exists dirty, n'. split; [done|]. destruct dirty; [|apply Hr].
    destruct Hr as (K' & HKv & _ & Hok). exists K'. split; [rewrite HKv; apply (co_kind _ _ _ Hco)|apply Hok].
Qed.

Lemma insert_ok fuel : forall n prefix key v fo K f,
  ok fo K n f -> value_ok v -> key_for K key ->
  (2 * length key + (if is_hashNode n then 2 else 1) <= fuel)%nat ->
  inserted fo K n f key v (insert db_node gen fuel n prefix key (valueNode v)).
Proof.
  induction fuel as [|fuel IHf]; intros n prefix key v fo K f Hn Hv Hkey Hfuel; [destruct (is_hashNode n); lia|].
  destruct Hn as [fo w f Hw Hf|fo K k n fl g f Hn Hs Hfl Hf Hno|fo cs Ks fl f Hl Hc HK Hnil H0 Hout H2 Hfl
    |fo K h m f Hdb Hin HK Hn Hh]; cbn [is_hashNode] in Hfuel.
  - cbn in Hkey. subst key. cbn. destruct (decide (w = v)) as [->|Hne].
    + rewrite bool_decide_eq_true_2 by done. exists false, (valueNode v). split; [done|]. by split; [rewrite Hf|constructor].
    + rewrite bool_decide_eq_false_2 by done. exists true, (valueNode v). split; [done|]. exists KValue. split; [done|]. split; [done|].
      intros fo'. constructor; [done|]. intros [|x k]; [apply upd_eq|]. rewrite upd_ne by done. by rewrite Hf.
  - apply (insert_short fuel prefix key v fo K k n fl g f); try done; [|lia].
    intros prefix' key' Hk' Hfu. apply IHf; try done. destruct (is_hashNode n); lia.
  - assert (children_ok cs Ks f) as Hco by done. destruct (full_key cs Ks f _ Hco Hkey) as (i & key' & c & -> & Hi & Hci & Hk').
    cbn [insert]. rewrite child_lookup, Hci. cbn [mbind outcome_bind].
    cbn [length] in Hfuel.
    destruct (insert_child fuel (prefix ++ [Z.of_nat i]) cs Ks f i c key' v) as (dirty & n' & -> & Hr); try done; [|lia|].
    { intros Hcn. apply IHf; [by apply Hc|done|done|destruct (is_hashNode c); lia]. }
    cbn. destruct dirty; cbn.
    + exists true, (fullNode (set_child cs (Z.of_nat i) n') (newFlag gen)). split; [done|]. destruct Hr as (K' & HK' & Hok).
      exists KFull. split; [done|]. split; [done|]. intros fo'. unfold set_child. rewrite Nat2Z.id.
      pose proof (node_ok_not_nil _ _ _ _ _ _ Hok) as Hn'.
      eapply children_full; [eapply (children_set cs Ks f _ i K' n'); try done|by apply two_children_set; [lia|..]|done].
      * intros _. apply (node_ok_ext _ _ _ _ _ _ _ Hok). intros k. symmetry. by apply (upd_app f [Z.of_nat i]).
      * intros k Hk'i. by apply upd_ne.
    + exists false, (fullNode cs fl). split; [done|]. split; [exact Hr|]. by apply (ok_full db_node Inv fo cs Ks).
  - assert (ok fo K (m gen) f) as Hm by (apply (load_ok db_node h m); [done|by apply (ok_hash db_node any_flag fo K h m)]).
    destruct (IHf (m gen) prefix key v fo K f) as (dirty & n' & He & Hr); [done..| |].
    { rewrite (inner_not_hash (m gen)) by done. lia. }
    destruct (key_for_nonempty K key HK Hkey) as (b & key' & ->). cbn [insert]. rewrite (resolveHash_ok h _ m) by done. cbn. rewrite He. cbn.
    destruct dirty; cbn; [by exists true, n'|]. exists false, (m gen). by split; [|split; [apply Hr|]].
Qed.

(** ** Deletion *)

Definition no_child (cs : list node) : Prop := Forall (fun c => c = nilNode) cs.
Lemma only_child_seen i pos cs : 0 <= pos -> only_child i pos cs = pos /\ no_child cs \/ only_child i pos cs = -2 /\ ~ no_child cs.
Proof.
  intros Hp. revert i. induction cs as [|c cs IH]; intros i; cbn; [left; by split; [|constructor]|].
  rewrite (proj2 (Z.eqb_neq pos (-1))) by lia.
  destruct c; try (right; split; [done|]; intros [? _]%Forall_cons; done).
  destruct (IH (i + 1)) as [[-> Hn]|[-> Hn]]; [left; split; [done|by constructor]|right; split; [done|]]. intros [_ ?]%Forall_cons. done.
Qed.
Lemma some_child cs : ~ no_child cs -> exists j c, cs !! j = Some c /\ c <> nilNode.
Proof.
  induction cs as [|c cs IH]; intros Hn; [exfalso; apply Hn; constructor|].
  destruct (decide (c = nilNode)) as [->|Hc]; [|by exists O, c].
  destruct IH as (j & d & Hj & Hd); [intros Hcs; apply Hn; by constructor|]. by exists (S j), d.
Qed.
Lemma only_child_cases i cs : 0 <= i ->
  only_child i (-1) cs = -1 /\ no_child cs \/
  only_child i (-1) cs = -2 /\ two_children cs \/
  exists (j : nat) c, only_child i (-1) cs = i + Z.of_nat j /\ cs !! j = Some c /\ c <> nilNode /\
    forall j' c', cs !! j' = Some c' -> j' <> j -> c' = nilNode.
Proof.
  revert i. induction cs as [|c cs IH]; intros i Hi; [left; by split; [|constructor]|].
  destruct (decide (c = nilNode)) as [->|Hc].
  - cbn. destruct (IH (i + 1)) as [[-> Hn]|[[-> (j & k & d & e & Hjk & Hj)]|(j & d & -> & Hj & Hd & Ho)]]; [lia|..].
    + left. split; [done|by constructor].
    + right; left. split; [done|]. exists (S j), (S k), d, e. split; [lia|done].
    + right; right. exists (S j), d. split; [lia|]. split; [done|]. split; [done|]. intros [|j'] c' Hj' Hne; [by injection Hj'|].
      apply (Ho j' c' Hj'). lia.
  - assert (only_child i (-1) (c :: cs) = only_child (i + 1) i cs) as -> by (by destruct c).
    destruct (only_child_seen (i + 1) i cs Hi) as [[-> Hn]|[-> (j & d & Hj & Hd)%some_child]].
    + right; right. exists O, c. split; [lia|]. split; [done|]. split; [done|]. intros [|j'] c' Hj' Hne; [done|].
      unfold no_child in Hn. rewrite Forall_lookup in Hn. by apply (Hn j').
    + right; left. split; [done|]. exists O, (S j), c, d. done.
Qed.

(** What a deletion makes of a node of kind [K]: nothing, if the key was its
    only one, or a node in memory. *)
Definition inner_ok (n : node) f : Prop := is_inner n = true /\ exists K, K <> KValue /\ forall fo, ok fo K n f.
Definition shrunk (K : kind) (n : node) f : Prop :=
  n = nilNode /\ K <> KFull /\ (forall k, f k = []) \/ K <> KValue /\ inner_ok n f.

Lemma resolve_ok n prefix fo K f :
  ok fo K n f -> K <> KValue -> exists n', resolve db_node gen n prefix = Ok (n', None) /\ is_inner n' = true /\ ok fo K n' f.
Proof.
  intros Hn HK. destruct Hn as [fo w f Hw Hf|fo K k n fl g f Hn Hs Hfl Hf Hno|fo cs Ks fl f Hl Hc HKs Hnil H0 Hout H2 Hfl
    |fo K h m f Hdb Hin _ Hn Hh]; [done|..].
  - eexists. split; [done|]. split; [done|]. by apply (ok_short db_node Inv fo K k n fl g).
  - eexists. split; [done|]. split; [done|]. by apply (ok_full db_node Inv fo cs Ks).
  - exists (m gen). split; [by apply resolveHash_ok|]. split; [done|].
    apply (load_ok db_node h m); [done|by apply (ok_hash db_node any_flag fo K h m)].
Qed.
(** A short node for one nibble and what follows. *)
Lemma prepend_ok K k n g f (j : nat) :
  ok false K n g -> short_shape K k \/ (k = [] /\ K <> KShort) -> (j < 17)%nat -> (j = 16%nat <-> K = KValue /\ k = []) ->
  (forall key, f (Z.of_nat j :: k ++ key) = g key) -> (forall key, (forall key', key <> (Z.of_nat j :: k) ++ key') -> f key = []) ->
  inner_ok (shortNode (u8 (Z.of_nat j) :: k) n (newFlag gen)) f.
Proof.
  intros Hn Hs Hj Hj16 Hf Hno. rewrite u8_id by (unfold is_byte; lia). split; [done|]. exists KShort. split; [done|]. intros fo.
  apply (ok_short db_node Inv fo K _ n _ g); try done.
  destruct K; cbn in *.
  - destruct (decide (j = 16%nat)) as [->|Hne]; [destruct (proj1 Hj16 eq_refl) as [_ ->]; by exists []|].
    destruct Hs as [(p & Hp & ->)|[-> _]]; [|exfalso; tauto]. exists (Z.of_nat j :: p). split; [|done]. constructor; [unfold nibble; lia|done].
  - by destruct Hs as [[]|[_ []]].
  - assert (j <> 16%nat) by (intros ->; by destruct (proj1 Hj16 eq_refl)).
    split; [|done]. constructor; [unfold nibble; lia|]. destruct Hs as [[Hk _]|[-> _]]; [done|constructor].
Qed.

Lemma one_child_covers cs Ks f (j : nat) :
  children_ok cs Ks f -> (forall j' c', cs !! j' = Some c' -> j' <> j -> c' = nilNode) ->
  forall key, (forall key', key <> [Z.of_nat j] ++ key') -> f key = [].
Proof.
  intros Hco Ho [|x key] Hk; [apply (co_empty _ _ _ Hco)|]. destruct (decide (0 <= x < 17)) as [Hx|Hx]; [|by apply (co_out _ _ _ Hco)].
  destruct (lookup_lt_is_Some_2 cs (Z.to_nat x)) as [c Hc]; [rewrite (co_length _ _ _ Hco); lia|].
  replace x with (Z.of_nat (Z.to_nat x)) by lia. apply (co_nil _ _ _ Hco). rewrite Hc. f_equal. apply (Ho (Z.to_nat x)); [done|].
  intros <-. apply (Hk key). cbn. f_equal. lia.
Qed.
Lemma reduce_ok cs Ks f prefix :
  children_ok cs Ks f -> ~ no_child cs -> exists n, reduce db_node gen cs prefix = Ok (true, n, None) /\ inner_ok n f.
Proof.
  intros Hco Hne. unfold reduce. destruct (only_child_cases 0 cs) as [[_ Hn]|[[-> H2]|(j & c & -> & Hj & Hc & Ho)]]; [lia|done|..].
  { eexists. split; [done|]. split; [done|]. exists KFull. split; [done|]. intros fo. by eapply children_full. }
  pose proof (co_child _ _ _ Hco j c Hj Hc) as Hok. pose proof (one_child_covers cs Ks f j Hco Ho) as Hcov.
  assert (j < 17)%nat as Hj17 by (rewrite <- (co_length _ _ _ Hco); by eapply lookup_lt_Some).
  rewrite !Z.add_0_l, (proj2 (Z.leb_le _ _)), child_lookup, Hj by lia. cbn [mbind outcome_bind].
  destruct (Z.eqb_spec (Z.of_nat j) 16) as [Hj16|Hj16]; cbn [negb].
  { eexists. split; [done|]. pose proof (proj2 (co_kind _ _ _ Hco j) ltac:(lia)) as HK.
    apply (prepend_ok (Ks j) [] c (fun key => f (Z.of_nat j :: key))); try done; [by right; rewrite HK|]. rewrite HK. split; [done|lia]. }
  assert (Ks j <> KValue) as HK by (rewrite (co_kind _ _ _ Hco j); lia).
  destruct (resolve_ok c prefix false (Ks j) _ Hok HK) as (c' & -> & Hin & Hok'). cbn [mbind outcome_bind].
  clear Hco. remember (Ks j) as Kj eqn:HKj. clear HKj. inversion Hok' as [fo w f' Hw Hf|fo K k n fl g f' Hn Hs Hfl Hf Hno|fo cs' Ks' fl f'|fo K h m f']; subst; try done.
  - eexists. split; [done|]. apply (prepend_ok K k n g); try done; [by left| |].
    + split; [lia|intros [_ ->]]. by apply short_shape_nonempty in Hs.
    + intros key Hk. destruct (has_prefix_dec [Z.of_nat j] key) as [[a ->]|Hnp]; [|by apply Hcov]. apply (Hno a). intros key' ->. by apply (Hk key').
  - eexists. split; [done|]. apply (prepend_ok KFull [] c (fun key => f (Z.of_nat j :: key))); try done; [by right|].
    split; [lia|by intros []].
Qed.

(** A short node in front of what a deletion has left. *)
Definition extend (k : bytes) n : node :=
  match n with
  | shortNode k' n' _ => shortNode (k ++ k') n' (newFlag gen)
  | _ => shortNode k n (newFlag gen)
  end.
Lemma extend_ok k n g f :
  nibbles k -> k <> [] -> inner_ok n g -> (forall key, f (k ++ key) = g key) ->
  (forall key, (forall key', key <> k ++ key') -> f key = []) -> inner_ok (extend k n) f.
Proof.
  intros Hk Hk0 (Hin & K & HK & Hok) Hf Hno. split; [by destruct n|]. exists KShort. split; [done|]. intros fo.
  specialize (Hok false). inversion Hok as [|fo' K' k' n' fl g' f' Hn Hs Hfl Hf' Hno'|fo' cs Ks fl f'|]; subst; try done; cbn [extend].
  - apply (ok_short db_node Inv fo K' _ n' _ g'); try done.
    + destruct K'; cbn in *; [|done|].
      * destruct Hs as (p & Hp & ->). exists (k ++ p). split; [by apply Forall_app|by rewrite app_assoc].
      * destruct Hs as [Hs _]. split; [by apply Forall_app|by destruct k].
    + intros key. by rewrite <- app_assoc, Hf, Hf'.
    + intros key Hkey. destruct (has_prefix_dec k key) as [[a ->]|Hnp]; [|by apply Hno]. rewrite Hf. apply Hno'. intros key' ->.
      apply (Hkey key'). by rewrite app_assoc.
  - by apply (ok_short db_node Inv fo KFull k _ _ g).
Qed.

Definition deleted fo K n f key (r : outcome change) : Prop :=
  exists (dirty : bool) n', r = Ok (dirty, n', None) /\
    if dirty then f key <> [] /\ shrunk K n' (upd f key []) else f key = [] /\ ok fo K n' f.

Lemma delete_short fuel prefix key fo K k n fl g f :
  (forall prefix key, key_for K key -> (2 * length key + 2 <= fuel)%nat ->
     deleted false K n g key (delete db_node gen fuel n prefix key)) ->
  ok false K n g -> short_shape K k -> flag_ok Inv fo (shortNode k n fl) fl f ->
  (forall key, f (k ++ key) = g key) -> (forall key, (forall key', key <> k ++ key') -> f key = []) ->
  term_key key -> (2 * length key <= fuel)%nat ->
  deleted fo KShort (shortNode k n fl) f key (delete db_node gen (S fuel) (shortNode k n fl) prefix key).
Proof.
  intros IH Hn Hs Hfl Hf Hno Hkey Hfuel. pose proof (short_shape_nonempty _ _ Hs) as Hk0. cbn [delete].
  assert (ok fo KShort (shortNode k n fl) f) as Hself by (by apply (ok_short db_node Inv fo K k n fl g)).
  destruct (prefixLen_split key k) as (p & a & c & Ha & Hc & Hp & Hd). rewrite Hp. destruct c as [|y k1].
  2:{ rewrite (proj2 (Nat.ltb_lt _ _)) by (rewrite Hc, length_app; cbn; lia). exists false, (shortNode k n fl). split; [done|]. split; [|done].
      apply Hno. intros key' Heq. rewrite Heq, Hc, <- app_assoc in Ha. apply app_inv_head in Ha. subst a. done. }
  rewrite app_nil_r in Hc. subst p. rewrite (proj2 (Nat.ltb_ge _ _)) by lia. subst key. pose proof (short_key_for K k a Hs Hkey) as Hka.
  destruct a as [|x a].
  - rewrite app_nil_r, Nat.eqb_refl. assert (K = KValue) as -> by (destruct K; [done|by apply term_key_nil in Hka..]).
    inversion Hn as [fo' v g' Hv Hg| | |fo' K' h m g' ? ? HK]; subst; [|done]. exists true, nilNode. split; [done|].
    rewrite <- (app_nil_r k) at 1. rewrite Hf, Hg. split; [apply Hv|]. left. split; [done|]. split; [done|]. intros key. unfold upd.
    destruct (decide (key = k)) as [->|Hne]; [done|]. destruct (has_prefix_dec k key) as [[[|x b] ->]|Hnp]; [by rewrite app_nil_r in Hne| |by apply Hno].
    by rewrite Hf, Hg.
  - rewrite (proj2 (Nat.eqb_neq _ _)) by (rewrite length_app; cbn; lia). rewrite take_app_length, drop_app_length.
    assert (K = KFull) as -> by (destruct K; [done|destruct Hs|done]).
    destruct (IH (prefix ++ k) (x :: a)) as (dirty & n' & -> & Hr); [done|rewrite length_app in Hfuel; destruct k; [done|cbn in *; lia]|].
    cbn. destruct dirty; cbn; [|exists false, (shortNode k n fl); split; [done|]; split; [rewrite Hf; apply Hr|done]].
    destruct Hr as [Hgne [(_ & ? & _)|(_ & Hin & K' & HK' & Hok)]]; [done|]. exists true, (extend k n'). split; [by destruct n'|].
    split; [by rewrite Hf|]. right. split; [done|]. apply (extend_ok k n' (upd g (x :: a) [])); [apply Hs|done|by split; [|exists K']|..].
    + intros key. by apply upd_app.
    + intros key Hk. rewrite upd_ne by apply Hk. by apply Hno.
Qed.

Lemma delete_ok fuel : forall n prefix key fo K f,
  ok fo K n f -> key_for K key -> (2 * length key + (if is_hashNode n then 2 else 1) <= fuel)%nat ->
  deleted fo K n f key (delete db_node gen fuel n prefix key).
Proof.
  induction fuel as [|fuel IHf]; intros n prefix key fo K f Hn Hkey Hfuel; [destruct (is_hashNode n); lia|].
  destruct Hn as [fo w f Hw Hf|fo K k n fl g f Hn Hs Hfl Hf Hno|fo cs Ks fl f Hl Hc HK Hnil H0 Hout H2 Hfl
    |fo K h m f Hdb Hin HK Hn Hh]; cbn [is_hashNode] in Hfuel.
  - cbn in Hkey. subst key. exists true, nilNode. split; [done|]. rewrite Hf. split; [apply Hw|]. left. split; [done|]. split; [done|].
    intros [|x k]; [apply upd_eq|]. rewrite upd_ne by done. by rewrite Hf.
  - apply (delete_short fuel prefix key fo K k n fl g f); try done; [|lia].
    intros prefix' key' Hk' Hfu. apply IHf; try done. destruct (is_hashNode n); lia.
  - assert (children_ok cs Ks f) as Hco by done. destruct (full_key cs Ks f _ Hco Hkey) as (i & key' & c & -> & Hi & Hci & Hk').
    cbn [delete]. rewrite child_lookup, Hci. cbn [mbind outcome_bind]. cbn [length] in Hfuel.
    assert (ok fo KFull (fullNode cs fl) f) as Hself by (by apply (ok_full db_node Inv fo cs Ks)).
    destruct (decide (c = nilNode)) as [->|Hcn].
    { destruct fuel as [|fuel]; [lia|]. cbn. exists false, (fullNode cs fl). split; [done|]. by split; [apply Hnil|]. }
    destruct (IHf c (prefix ++ [Z.of_nat i]) key' false (Ks i) (fun key => f (Z.of_nat i :: key))) as (dirty & n' & -> & Hr);
      [by apply Hc|done|destruct (is_hashNode c); lia|].
    cbn. destruct dirty; cbn; [|exists false, (fullNode cs fl); split; [done|]; split; [apply Hr|done]].
    destruct Hr as [Hne Hsh]. unfold set_child. rewrite Nat2Z.id.
    assert (exists Ks', children_ok (<[i := n']> cs) Ks' (upd f (Z.of_nat i :: key') [])) as [Ks' Hco'].
    { destruct Hsh as [(-> & _ & Hall)|(HKv & Hin & K' & HK' & Hok)]; eexists.
      - apply (children_set cs Ks f _ i (Ks i) nilNode); try done; [|intros k Hk; by apply upd_ne].
        intros _ k. etransitivity; [|apply (Hall k)]. by apply (upd_app f [Z.of_nat i]).
      - apply (children_set cs Ks f _ i K' n'); try done; [| |by intros ->|intros k Hk; by apply upd_ne].
        + intros _. apply (node_ok_ext _ _ _ _ _ _ _ (Hok false)). intros k. symmetry. by apply (upd_app f [Z.of_nat i]).
        + rewrite <- (HK i). tauto. }
    destruct (reduce_ok _ _ _ prefix Hco') as (r & -> & Hr).
    { destruct H2 as (j & k & d & e & Hjk & Hj & Hd & Hk & He). unfold no_child. rewrite Forall_lookup. intros Hall.
      destruct (decide (j = i)) as [->|Hji].
      - apply He, (Hall k). by rewrite list_lookup_insert_ne.
      - apply Hd, (Hall j). by rewrite list_lookup_insert_ne. }
    exists true, r. split; [done|]. split; [done|]. by right.
  - assert (ok fo K (m gen) f) as Hm by (apply (load_ok db_node h m); [done|by apply (ok_hash db_node any_flag fo K h m)]).
    destruct (IHf (m gen) prefix key fo K f) as (dirty & n' & He & Hr); [done..| |].
    { rewrite (inner_not_hash (m gen)) by done. lia. }
    cbn [delete]. rewrite (resolveHash_ok h _ m) by done. cbn. rewrite He. cbn.
    destruct dirty; cbn; [by exists true, n'|]. exists false, (m gen). by split; [|split; [apply Hr|]].
Qed.
End props.

(** ** Tries *)

Section tries.
Context `{Crypto} (db_node : Hash -> Z -> outcome node).
Context (Inv : bool -> nodeFlag -> (bytes -> bytes) -> Prop) `{!FlagInv Inv} `{!Loads db_node Inv}.
Implicit Types (t : Trie) (f F : bytes -> bytes).

(** Keys short enough for the encodings of nodes. *)
Definition key_ok (k : bytes) : Prop := bytes_ok k /\ zlen k < 2 ^ 30.
Definition root_ok (n : node) F : Prop :=
  n = nilNode /\ (forall k, F k = []) \/ exists K, K <> KValue /\ node_ok db_node Inv true K n F.
(** [F] is [f] on the keys in nibbles, and is empty elsewhere. *)
Definition spreads f F : Prop :=
  (forall k, key_ok k -> F (keybytesToHex k) = f k) /\ (forall key, F key <> [] -> exists k, key_ok k /\ key = keybytesToHex k).
Definition trie_map t f : Prop := exists F, root_ok (root_node t) F /\ spreads f F.

Lemma spreads_upd f F k v : key_ok k -> spreads f F -> spreads (upd f k v) (upd F (keybytesToHex k) v).
Proof.
  intros Hk [Hf HF]. split.
  - intros k' Hk'. unfold upd. destruct (decide (k' = k)) as [->|Hne]; [by rewrite decide_True|].
    rewrite decide_False by (by intros ?%keybytesToHex_inj). by apply Hf.
  - intros key. unfold upd. destruct (decide (key = keybytesToHex k)) as [->|Hne]; [by exists k|apply HF].
Qed.
Lemma grown_root K n F : K <> KValue -> grown db_node Inv K n F -> root_ok n F.
Proof. intros HK (K' & HKv & _ & Hok). right. exists K'. split; [by rewrite HKv|apply Hok]. Qed.
Lemma shrunk_root K n F : shrunk db_node Inv K n F -> root_ok n F.
Proof. intros [(-> & _ & Hall)|(_ & _ & K' & HK' & Hok)]; [by left|right; by exists K']. Qed.

Lemma root_get gen k n F :
  bytes_ok k -> root_ok n F ->
  exists n' r, tryGet db_node gen (key_fuel (keybytesToHex k)) n (keybytesToHex k) 0 = Ok (F (keybytesToHex k), n', r, None) /\ root_ok n' F.
Proof.
  intros Hk [[-> Hall]|(K & HK & Hn)].
  - exists nilNode, false. unfold key_fuel. rewrite Nat.add_comm. cbn. rewrite Hall. split; [done|by left].
  - destruct (tryGet_ok db_node Inv gen (key_fuel (keybytesToHex k)) n (keybytesToHex k) 0 true K F) as (n' & r & He & Hn'); [done|lia|..].
    + rewrite drop_0. destruct K; [done|by apply keybytesToHex_term..].
    + rewrite drop_0. unfold key_fuel. destruct (is_hashNode n); lia.
    + rewrite drop_0 in He. exists n', r. split; [done|]. right. by exists K.
Qed.
Lemma root_delete gen k n F :
  bytes_ok k -> root_ok n F ->
  exists d n', delete db_node gen (key_fuel (keybytesToHex k)) n [] (keybytesToHex k) = Ok (d, n', None) /\ root_ok n' (upd F (keybytesToHex k) []).
Proof.
  intros Hk Hn. assert (forall m : node, F (keybytesToHex k) = [] -> root_ok m F -> root_ok m (upd F (keybytesToHex k) [])) as Hsame.
  { intros m HF [[-> Hall]|(K & HK & Hm)]; [left|right].
    - split; [done|]. intros key. unfold upd. by case_decide.
    - exists K. split; [done|]. apply (node_ok_ext _ _ _ _ _ _ _ Hm). intros key. unfold upd. by case_decide; subst. }
  destruct Hn as [[-> Hall]|(K & HK & Hn)].
  - exists false, nilNode. unfold key_fuel. rewrite Nat.add_comm. split; [done|]. apply Hsame; [done|by left].
  - destruct (delete_ok db_node Inv gen (key_fuel (keybytesToHex k)) n [] (keybytesToHex k) true K F) as (d & n' & He & Hr); [done|..].
    + destruct K; [done|by apply keybytesToHex_term..].
    + unfold key_fuel. destruct (is_hashNode n); lia.
    + exists d, n'. split; [done|]. destruct d; [by eapply shrunk_root, Hr|]. apply Hsame; [apply Hr|]. right. exists K. by split; [|apply Hr].
Qed.
Lemma root_insert gen k v n F :
  bytes_ok k -> value_ok v -> root_ok n F ->
  exists d n', insert db_node gen (key_fuel (keybytesToHex k)) n [] (keybytesToHex k) (valueNode v) = Ok (d, n', None) /\
    root_ok n' (upd F (keybytesToHex k) v).
Proof.
  intros Hk Hv [[-> Hall]|(K & HK & Hn)].
  - unfold key_fuel. rewrite Nat.add_comm. cbn [Nat.add]. rewrite insert_nil. eexists true, _. split; [done|]. right. exists KShort. split; [done|].
    pose proof (keybytesToHex_term k Hk) as Hterm. destruct (keybytesToHex k) as [|b key] eqn:Hkey; [by apply term_key_nil in Hterm|].
    apply (ok_short db_node Inv true KValue _ (valueNode v) _ (fun k => match k with [] => v | _ => [] end)); [by apply ok_value|done|by apply newFlag_ok|..].
    + intros [|x a]; [rewrite app_nil_r; apply upd_eq|]. rewrite upd_ne; [apply Hall|]. rewrite <- (app_nil_r (b :: key)) at 2. by intros ?%app_inv_head.
    + intros a Ha. rewrite upd_ne; [apply Hall|]. intros ->. apply (Ha []). by rewrite app_nil_r.
  - destruct (insert_ok db_node Inv gen (key_fuel (keybytesToHex k)) n [] (keybytesToHex k) v true K F) as (d & n' & He & Hr); [done|done|..].
    + destruct K; [done|by apply keybytesToHex_term..].
    + unfold key_fuel. destruct (is_hashNode n); lia.
    + exists d, n'. split; [done|]. destruct d; [by eapply grown_root|]. right. exists K. split; [done|]. destruct Hr as [Hr Hok].
      apply (node_ok_ext _ _ _ _ _ _ _ Hok). intros key. unfold upd. by case_decide; subst.
Qed.

Lemma trie_map_empty g l : trie_map (mkTrie None g l) (fun _ => []).
Proof. exists (fun _ => []). split; [by left|]. by split. Qed.
Lemma trie_get_ok t f k :
  trie_map t f -> key_ok k -> exists t', Trie_TryGet db_node k t = Ok (f k, None, t') /\ trie_map t' f.
Proof.
  intros (F & Hr & Hs) Hk. destruct (root_get (cachegen t) k (root_node t) F) as (n' & r & He & Hr'); [apply Hk|done|].
  unfold Trie_TryGet. rewrite He. cbn. rewrite (proj1 Hs) by done. eexists. split; [done|]. exists F. split; [|done]. by destruct r.
Qed.
Lemma update_root_ok gen n f F k v :
  root_ok n F -> spreads f F -> key_ok k -> bytes_ok v -> zlen v < 2 ^ 32 ->
  exists n', tryUpdate_root db_node gen k v n = Ok (n', None) /\ root_ok n' (upd F (keybytesToHex k) v).
Proof.
  intros Hr Hs Hk Hv Hl. unfold tryUpdate_root. destruct (Z.eqb_spec (zlen v) 0) as [H0|H0]; cbn [negb].
  - destruct (root_delete gen k n F) as (d & n' & -> & Hr'); [apply Hk|done|]. exists n'. destruct v as [|x v]; [done|]. rewrite zlen_cons in H0. pose proof (zlen_nonneg v). lia.
  - destruct (root_insert gen k v n F) as (d & n' & -> & Hr'); [apply Hk|split; [by intros ->|done]|done|]. by exists n'.
Qed.
Lemma trie_update_ok t f k v :
  trie_map t f -> key_ok k -> bytes_ok v -> zlen v < 2 ^ 32 ->
  exists t', Trie_TryUpdate db_node k v t = Ok (None, t') /\ trie_map t' (upd f k v).
Proof.
  intros (F & Hr & Hs) Hk Hv Hl. destruct (update_root_ok (cachegen t) (root_node t) f F k v) as (n' & He & Hr'); [done..|].
  unfold Trie_TryUpdate. rewrite He. cbn. eexists. split; [done|]. exists (upd F (keybytesToHex k) v). split; [done|by apply spreads_upd].
Qed.
Lemma trie_delete_ok t f k :
  trie_map t f -> key_ok k -> exists t', Trie_TryDelete db_node k t = Ok (None, t') /\ trie_map t' (upd f k []).
Proof.
  intros (F & Hr & Hs) Hk. destruct (root_delete (cachegen t) k (root_node t) F) as (d & n' & He & Hr'); [apply Hk|done|].
  unfold Trie_TryDelete. rewrite He. cbn. eexists. split; [done|]. exists (upd F (keybytesToHex k) []). split; [done|by apply spreads_upd].
Qed.

(** C4. A trie is a map from keys to values, whatever is in memory and whatever
    is loaded from the database on the way: a look-up gives the value and leaves
    the map as it is, an update changes it at its key, an update with the empty
    value and a deletion remove the key. None of them fails or panics. *)
Theorem trie_is_map t f :
  trie_map t f ->
  (forall k, key_ok k -> exists t', Trie_TryGet db_node k t = Ok (f k, None, t') /\ trie_map t' f) /\
  (forall k v, key_ok k -> bytes_ok v -> zlen v < 2 ^ 32 ->
     exists t', Trie_TryUpdate db_node k v t = Ok (None, t') /\ trie_map t' (upd f k v)) /\
  (forall k, key_ok k -> exists t', Trie_TryDelete db_node k t = Ok (None, t') /\ trie_map t' (upd f k [])).
Proof.
  intros Ht. split; [intros k; by apply trie_get_ok|]. split; [intros k v; by apply trie_update_ok|intros k; by apply trie_delete_ok].
Qed.

(** Updates one after the other. *)
Fixpoint update_all (kvs : list (bytes * bytes)) t : outcome Trie :=
  match kvs with
  | [] => Ok t
  | (k, v) :: kvs' => '(_, t') ← Trie_TryUpdate db_node k v t; update_all kvs' t'
  end.
Definition upd_all (kvs : list (bytes * bytes)) f : bytes -> bytes := foldl (fun f '(k, v) => upd f k v) f kvs.
Lemma update_all_ok kvs : forall t f,
  trie_map t f -> Forall (fun '(k, v) => key_ok k /\ bytes_ok v /\ zlen v < 2 ^ 32) kvs ->
  exists t', update_all kvs t = Ok t' /\ trie_map t' (upd_all kvs f).
Proof.
  induction kvs as [|[k v] kvs IH]; intros t f Ht Hkvs; [by exists t|]. apply Forall_cons in Hkvs as [(Hk & Hv & Hl) Hkvs].
  destruct (trie_update_ok t f k v Ht Hk Hv Hl) as (t1 & He & Ht1). destruct (IH t1 (upd f k v) Ht1 Hkvs) as (t2 & He2 & Ht2).
  exists t2. split; [|done]. cbn. by rewrite He.
Qed.

Lemma spreads_unique f F f' F' : spreads f F -> spreads f' F' -> (forall k, key_ok k -> f k = f' k) -> forall key, F key = F' key.
Proof.
  intros [Hf HF] [Hf' HF'] Heq key. destruct (decide (F key = [])) as [H0|H0].
  - destruct (decide (F' key = [])) as [H0'|H0']; [by rewrite H0, H0'|]. destruct (HF' key H0') as (k & Hk & ->).
    by rewrite Hf, Hf', Heq.
  - destruct (HF key H0) as (k & Hk & ->). by rewrite Hf, Hf', Heq.
Qed.
End tries.

(** ** The node of a trie is determined by its contents *)

Lemma root_unique `{Crypto} db_node db_node' Inv Inv' n n' F F' :
  root_ok db_node Inv n F -> root_ok db_node' Inv' n' F' -> (forall k, F k = F' k) -> (n = nilNode <-> n' = nilNode) /\ (n <> nilNode -> node_hash n = node_hash n').
Proof.
  intros [[-> Hall]|(K & HK & Hn)] [[-> Hall']|(K' & HK' & Hn')] Heq; [done|exfalso..|].
  - destruct (node_ok_has_value _ _ _ _ _ _ Hn') as [k Hk]. by rewrite <- Heq, Hall in Hk.
  - destruct (node_ok_has_value _ _ _ _ _ _ Hn) as [k Hk]. by rewrite Heq, Hall' in Hk.
  - apply node_ok_not_nil in Hn as Hnn. apply node_ok_not_nil in Hn' as Hnn'. split; [done|]. intros _.
    destruct (node_unique db_node db_node' Inv _ _ _ _ Hn Inv' _ _ _ _ Hn' Heq) as (_ & it & Hi & Hi').
    by rewrite (has_item_hash true n it), (has_item_hash true n' it).
Qed.

(** ** A concrete trie *)

Definition demo_kvs : list (bytes * bytes) := [([0x10], [1]); ([0x20; 3], [2; 2]); ([0x10; 7], [3])].
Lemma demo_kvs_ok : Forall (fun '(k, v) => key_ok k /\ bytes_ok v /\ zlen v < 2 ^ 32) demo_kvs.
Proof. repeat constructor; done. Qed.
Definition no_nodes : Hash -> Z -> outcome node := fun _ _ => Ok nilNode.
Lemma trie_is_map_witness :
  exists t, update_all no_nodes demo_kvs (mkTrie None 0 0) = Ok t /\
    (exists t', Trie_TryGet no_nodes [0x20; 3] t = Ok ([2; 2], None, t')) /\
    (exists t', Trie_TryDelete no_nodes [0x10] t = Ok (None, t')).
Proof.
  destruct (update_all_ok no_nodes any_flag demo_kvs (mkTrie None 0 0) (fun _ => []) (trie_map_empty _ _ 0 0) demo_kvs_ok) as (t & He & Ht).
  exists t. split; [done|]. destruct (trie_is_map no_nodes any_flag t _ Ht) as (Hget & _ & Hdel). split.
  - destruct (Hget [0x20; 3]) as (t' & Hg & _); [repeat constructor; done|]. exists t'. rewrite Hg. vm_compute. reflexivity.
  - destruct (Hdel [0x10]) as (t' & Hd & _); [repeat constructor; done|]. by exists t'.
Defined.
