(* ===== verification/TrieDatabase.v ===== *)
(** * The database of nodes

    Models [trie/database.go]: nodes that are not yet on disk are kept without
    their flags, counted by the references to them and chained in the order of
    their arrival. The disk is the map of [ethdb/memory_database.go]. The read
    cache [cleans] may forget entries at any time. Sizes, which are floats, are
    integers. The statistics and the log are left out, and the disk never fails. *)

From stdpp Require Import gmap.
From S2P Require Import Prelude CommonMath Rlp TrieKey TrieNode.
Local Open Scope Z_scope.

(** ** Nodes without flags *)

(** [rawNode] is a blob that is stored as it is. *)
Inductive raw : Type :=
| rawNil
| rawNode (blob : bytes)
| rawFullNode (Children : list raw)
| rawShortNode (Key : bytes) (Val : raw)
| rawHashNode (h : bytes)
| rawValueNode (v : bytes).

Definition unknown_node {A} : outcome A := Panic (Msg "unknown node type").

Fixpoint simplifyNode (n : node) : outcome raw :=
  match n with
  | shortNode k c _ => c' ← simplifyNode c; Ok (rawShortNode k c')
  | fullNode cs _ =>
      cs' ← mapM (fun c => match c with nilNode => Ok rawNil | _ => simplifyNode c end) cs;
      Ok (rawFullNode cs')
  | valueNode v => Ok (rawValueNode v)
  | hashNode h => Ok (rawHashNode h)
  | nilNode => unknown_node
  end.

Fixpoint expandNode (hash : option bytes) (r : raw) (gen : Z) : outcome node :=
  match r with
  | rawShortNode k c => c' ← expandNode None c gen; Ok (shortNode (compactToHex k) c' (mkFlag hash gen false))
  | rawFullNode cs =>
      cs' ← mapM (fun c => match c with rawNil => Ok nilNode | _ => expandNode None c gen end) cs;
      Ok (fullNode cs' (mkFlag hash gen false))
  | rawValueNode v => Ok (valueNode v)
  | rawHashNode h => Ok (hashNode h)
  | rawNode _ | rawNil => unknown_node
  end.

(** The first sixteen children of a full node: the last one is a value. *)
Fixpoint gatherChildren (r : raw) : outcome (list Hash) :=
  match r with
  | rawShortNode _ c => gatherChildren c
  | rawFullNode cs => hs ← mapM gatherChildren cs; Ok (concat (take 16 hs))
  | rawHashNode h => Ok [BytesToHash h]
  | rawValueNode _ | rawNil => Ok []
  | rawNode _ => unknown_node
  end.

(** The value that is encoded; nil is the empty list, and the empty string as a
    child of a full node. *)
Fixpoint raw_item (r : raw) : Item :=
  match r with
  | rawNil => IList []
  | rawNode blob => IBytes blob
  | rawFullNode cs => IList (map (fun c => match c with rawNil => IBytes [] | _ => raw_item c end) cs)
  | rawShortNode k c => IList [IBytes k; raw_item c]
  | rawHashNode h => IBytes h
  | rawValueNode v => IBytes v
  end.

(** ** The database *)

Record cachedNode : Type := mkCached {
  cn_node : raw;
  cn_size : Z;
  cn_parents : Z;
  cn_children : gmap Hash Z;
  cn_flushPrev : Hash;
  cn_flushNext : Hash;
}.
Record TrieDB : Type := mkTrieDB {
  diskdb : gmap bytes bytes;
  cleans : option (gmap Hash bytes);
  dirties : gmap Hash cachedNode;
  oldest : Hash;
  newest : Hash;
  preimages : gmap Hash bytes;
  dirtiesSize : Z;
  preimagesSize : Z;
}.

Definition db_dirties (f : gmap Hash cachedNode -> gmap Hash cachedNode) (db : TrieDB) : TrieDB :=
  mkTrieDB (diskdb db) (cleans db) (f (dirties db)) (oldest db) (newest db) (preimages db) (dirtiesSize db) (preimagesSize db).
Definition db_ends (o n : Hash) (db : TrieDB) : TrieDB :=
  mkTrieDB (diskdb db) (cleans db) (dirties db) o n (preimages db) (dirtiesSize db) (preimagesSize db).
Definition db_size (d : Z) (db : TrieDB) : TrieDB :=
  mkTrieDB (diskdb db) (cleans db) (dirties db) (oldest db) (newest db) (preimages db) (dirtiesSize db + d) (preimagesSize db).
Definition db_disk (f : gmap bytes bytes -> gmap bytes bytes) (db : TrieDB) : TrieDB :=
  mkTrieDB (f (diskdb db)) (cleans db) (dirties db) (oldest db) (newest db) (preimages db) (dirtiesSize db) (preimagesSize db).
Definition db_cleans (c : option (gmap Hash bytes)) (db : TrieDB) : TrieDB :=
  mkTrieDB (diskdb db) c (dirties db) (oldest db) (newest db) (preimages db) (dirtiesSize db) (preimagesSize db).
Definition db_preimages (p : gmap Hash bytes) (size : Z) (db : TrieDB) : TrieDB :=
  mkTrieDB (diskdb db) (cleans db) (dirties db) (oldest db) (newest db) p (dirtiesSize db) size.
Definition cn_with_parents (x : Z) (c : cachedNode) : cachedNode :=
  mkCached (cn_node c) (cn_size c) x (cn_children c) (cn_flushPrev c) (cn_flushNext c).
Definition cn_with_children (x : gmap Hash Z) (c : cachedNode) : cachedNode :=
  mkCached (cn_node c) (cn_size c) (cn_parents c) x (cn_flushPrev c) (cn_flushNext c).
Definition cn_with_prev (x : Hash) (c : cachedNode) : cachedNode :=
  mkCached (cn_node c) (cn_size c) (cn_parents c) (cn_children c) x (cn_flushNext c).
Definition cn_with_next (x : Hash) (c : cachedNode) : cachedNode :=
  mkCached (cn_node c) (cn_size c) (cn_parents c) (cn_children c) (cn_flushPrev c) x.

(** A field of a cached node that is written through its pointer. *)
Definition update_cached (h : Hash) (f : cachedNode -> cachedNode) : M TrieDB unit :=
  c ← gets (fun db => dirties db !! h);
  match c with None => panic NilDeref | Some c => modify (db_dirties <[h := f c]>) end.
Definition lift {A} (o : outcome A) : M TrieDB A :=
  fun db => match o with Ok a => Ok (a, db) | Panic r => Panic r | OutOfFuel => OutOfFuel end.

(** The entry of the zero hash holds the references to roots. *)
Definition no_cached : cachedNode := mkCached rawNil 0 0 ∅ 0 0.
Definition NewDatabase (disk : gmap bytes bytes) : TrieDB := mkTrieDB disk None {[0 := no_cached]} 0 0 ∅ 0 0.

Definition cached_rlp (c : cachedNode) : outcome bytes :=
  match cn_node c with
  | rawNode blob => Ok blob
  | r => match EncodeToBytes (raw_item r) with Some enc => Ok enc | None => Panic (Msg "encode error") end
  end.
Definition cached_obj (c : cachedNode) (hash : Hash) (gen : Z) : outcome node :=
  match cn_node c with
  | rawNode blob => mustDecodeNode (Some (Hash_Bytes hash)) blob gen
  | r => expandNode (Some (Hash_Bytes hash)) r gen
  end.
(** The keys of a map in any order. *)
Definition childs (c : cachedNode) : outcome (list Hash) :=
  hs ← (match cn_node c with rawNode _ => Ok [] | r => gatherChildren r end);
  Ok (map fst (map_to_list (cn_children c)) ++ hs).

(** Loops over lists. *)
Fixpoint for_each {S A} (f : A -> M S unit) (l : list A) : M S unit :=
  match l with [] => mret tt | x :: l' => f x;; for_each f l' end.

Definition db_insert (hash : Hash) (blob : bytes) (simplified : outcome raw) : M TrieDB unit :=
  known ← gets (fun db => dirties db !! hash);
  match known with
  | Some _ => mret tt
  | None =>
      r ← lift simplified;
      prev ← gets newest;
      let entry := mkCached r (zlen blob mod 2 ^ 16) 0 ∅ prev 0 in
      hs ← lift (childs entry);
      for_each (fun child =>
        c ← gets (fun db => dirties db !! child);
        match c with Some c => update_cached child (cn_with_parents ((cn_parents c + 1) mod 2 ^ 32)) | None => mret tt end) hs;;
      modify (db_dirties <[hash := entry]>);;
      old ← gets oldest;
      (if old =? 0 then modify (db_ends hash hash)
       else update_cached prev (cn_with_next hash);; modify (fun db => db_ends (oldest db) hash db));;
      modify (db_size ((32 + cn_size entry) mod 2 ^ 16))
  end.
Definition InsertBlob (hash : Hash) (blob : bytes) : M TrieDB unit := db_insert hash blob (Ok (rawNode blob)).
Definition insertPreimage (hash : Hash) (preimage : bytes) : M TrieDB unit :=
  db ← gets id;
  match preimages db !! hash with
  | Some _ => mret tt
  | None => modify (db_preimages (<[hash := preimage]> (preimages db)) (preimagesSize db + (32 + zlen preimage)))
  end.

(** The cache of clean nodes, if there is one. *)
Definition clean_get (hash : Hash) (db : TrieDB) : option bytes := c ← cleans db; c !! hash.
Definition clean_set (hash : Hash) (enc : bytes) (db : TrieDB) : TrieDB :=
  db_cleans (match cleans db with Some c => Some (<[hash := enc]> c) | None => None end) db.

Definition db_node (hash : Hash) (gen : Z) : M TrieDB node :=
  db ← gets id;
  match clean_get hash db with
  | Some enc => lift (mustDecodeNode (Some (Hash_Bytes hash)) enc gen)
  | None =>
      match dirties db !! hash with
      | Some dirty => lift (cached_obj dirty hash gen)
      | None =>
          match diskdb db !! Hash_Bytes hash with
          | None => mret nilNode
          | Some enc => modify (clean_set hash enc);; lift (mustDecodeNode (Some (Hash_Bytes hash)) enc gen)
          end
      end
  end.
(** [Node]; [None] is the error of the store. *)
Definition db_Node (hash : Hash) : M TrieDB (option bytes) :=
  db ← gets id;
  match clean_get hash db with
  | Some enc => mret (Some enc)
  | None =>
      match dirties db !! hash with
      | Some dirty => enc ← lift (cached_rlp dirty); mret (Some enc)
      | None =>
          match diskdb db !! Hash_Bytes hash with
          | None => mret None
          | Some enc => modify (clean_set hash enc);; mret (Some enc)
          end
      end
  end.

(** ** References *)

Definition add_reference (child parent : Hash) : M TrieDB unit :=
  update_cached child (fun c => cn_with_parents ((cn_parents c + 1) mod 2 ^ 32) c);;
  update_cached parent (fun p =>
    cn_with_children (<[child := (default 0 (cn_children p !! child) + 1) mod 2 ^ 16]> (cn_children p)) p).
Definition db_reference (child parent : Hash) : M TrieDB unit :=
  db ← gets id;
  match dirties db !! child with
  | None => mret tt
  | Some _ =>
      match dirties db !! parent with
      | None => panic NilDeref
      | Some p =>
          match cn_children p !! child with
          | Some _ => if negb (parent =? 0) then mret tt else add_reference child parent
          | None => add_reference child parent
          end
      end
  end.

(** ** Preimages and batches *)

(** [secureKeyPrefix] is "secure-key-". *)
Definition secureKey (key : bytes) : bytes := [115; 101; 99; 117; 114; 101; 45; 107; 101; 121; 45] ++ key.
(** [preimage]; [None] is the error of the store. *)
Definition db_preimage (hash : Hash) (db : TrieDB) : option bytes :=
  match preimages db !! hash with
  | Some p => Some p
  | None => diskdb db !! secureKey (Hash_Bytes hash)
  end.

(** [kv]; [None] is a deletion. *)
Record memBatch : Type := mkBatch { b_writes : list (bytes * option bytes); b_size : Z }.
Definition NewBatch : memBatch := mkBatch [] 0.
Definition batch_Put (key value : bytes) (b : memBatch) : memBatch := mkBatch (b_writes b ++ [(key, Some value)]) (b_size b + zlen value).
Definition batch_Delete (key : bytes) (b : memBatch) : memBatch := mkBatch (b_writes b ++ [(key, None)]) (b_size b + 1).
Definition put_all (writes : list (bytes * option bytes)) (disk : gmap bytes bytes) : gmap bytes bytes :=
  foldl (fun d kv => match kv.2 with Some v => <[kv.1 := v]> d | None => delete kv.1 d end) disk writes.
Definition batch_Write (b : memBatch) : M TrieDB unit := modify (db_disk (put_all (b_writes b))).
(** [ethdb.IdealBatchSize] *)
Abbreviation IdealBatchSize := 102400 (only parsing).
(** A batch that is full is written and starts again. *)
Definition write_if (full : bool) (b : memBatch) : M TrieDB memBatch :=
  if full then batch_Write b;; mret NewBatch else mret b.
Fixpoint put_preimages (l : list (Hash * bytes)) (b : memBatch) : M TrieDB memBatch :=
  match l with
  | [] => mret b
  | (hash, preimage) :: l' =>
      let b := batch_Put (secureKey (Hash_Bytes hash)) preimage b in
      b ← write_if (IdealBatchSize <? b_size b) b;
      put_preimages l' b
  end.

(** ** Removing nodes *)

Definition db_oldest (h : Hash) (db : TrieDB) : TrieDB := db_ends h (newest db) db.
Definition db_newest_to (h : Hash) (db : TrieDB) : TrieDB := db_ends (oldest db) h db.
(** The removal of a node from the flush-list. *)
Definition unlink (hash : Hash) (node : cachedNode) : M TrieDB unit :=
  db ← gets id;
  if hash =? oldest db then
    modify (db_oldest (cn_flushNext node));; update_cached (cn_flushNext node) (cn_with_prev 0)
  else if hash =? newest db then
    modify (db_newest_to (cn_flushPrev node));; update_cached (cn_flushPrev node) (cn_with_next 0)
  else
    update_cached (cn_flushPrev node) (cn_with_next (cn_flushNext node));;
    update_cached (cn_flushNext node) (cn_with_prev (cn_flushPrev node)).
Definition remove_node (hash : Hash) (node : cachedNode) : M TrieDB unit :=
  modify (db_dirties (delete hash));; modify (db_size (- (32 + cn_size node))).

Definition drop_child (child : Hash) (p : cachedNode) : cachedNode :=
  match cn_children p !! child with
  | Some k =>
      if 0 <? k then cn_with_children (if k - 1 =? 0 then delete child (cn_children p) else <[child := k - 1]> (cn_children p)) p else p
  | None => p
  end.
Fixpoint dereference (fuel : nat) (child parent : Hash) : M TrieDB unit :=
  match fuel with
  | O => fun _ => OutOfFuel
  | S fuel =>
      update_cached parent (drop_child child);;
      c ← gets (fun db => dirties db !! child);
      match c with
      | None => mret tt
      | Some node =>
          let parents := if 0 <? cn_parents node then cn_parents node - 1 else cn_parents node in
          update_cached child (cn_with_parents parents);;
          if parents =? 0 then
            unlink child node;;
            hs ← lift (childs node);
            for_each (fun h => dereference fuel h child) hs;;
            remove_node child node
          else mret tt
      end
  end.
(** A chain of nodes that are in memory is not longer than their number. *)
Definition walk_fuel (db : TrieDB) : nat := S (S (size (dirties db))).
Definition Dereference (root : Hash) : M TrieDB unit :=
  if root =? 0 then mret tt else fuel ← gets walk_fuel; dereference fuel root 0.

(** ** Writing to disk *)

(** [Size] *)
Definition db_Size (db : TrieDB) : Z * Z := (dirtiesSize db + (Z.of_nat (size (dirties db)) - 1) * 2 * 32, preimagesSize db).
Fixpoint cap_write (fuel : nat) (limit size : Z) (oldest : Hash) (b : memBatch) : M TrieDB (Hash * memBatch) :=
  match fuel with
  | O => fun _ => OutOfFuel
  | S fuel =>
      if (limit <? size) && negb (oldest =? 0) then
        n ← gets (fun db => dirties db !! oldest);
        match n with
        | None => panic NilDeref
        | Some node =>
            enc ← lift (cached_rlp node);
            let b := batch_Put (Hash_Bytes oldest) enc b in
            b ← write_if (IdealBatchSize <=? b_size b) b;
            cap_write fuel limit (size - (3 * 32 + cn_size node)) (cn_flushNext node) b
        end
      else mret (oldest, b)
  end.
(** The nodes before [upto] go. *)
Fixpoint cap_remove (fuel : nat) (upto : Hash) : M TrieDB unit :=
  match fuel with
  | O => fun _ => OutOfFuel
  | S fuel =>
      db ← gets id;
      if negb (oldest db =? upto) then
        match dirties db !! oldest db with
        | None => panic NilDeref
        | Some node => remove_node (oldest db) node;; modify (db_oldest (cn_flushNext node));; cap_remove fuel upto
        end
      else mret tt
  end.
Definition Cap (limit : Z) : M TrieDB unit :=
  db ← gets id;
  let n := size (dirties db) in
  let flushPreimages := 4 * 1024 * 1024 <? preimagesSize db in
  b ← (if flushPreimages then put_preimages (map_to_list (preimages db)) NewBatch else mret NewBatch);
  '(upto, b) ← cap_write (S n) limit (dirtiesSize db + (Z.of_nat n - 1) * 2 * 32) (oldest db) b;
  batch_Write b;;
  when flushPreimages (modify (db_preimages ∅ 0));;
  cap_remove (S n) upto;;
  db ← gets id;
  when (negb (oldest db =? 0)) (update_cached (oldest db) (cn_with_prev 0)).

Fixpoint commit_children (commit : Hash -> memBatch -> M TrieDB memBatch) (hs : list Hash) (b : memBatch) : M TrieDB memBatch :=
  match hs with [] => mret b | h :: hs' => b ← commit h b; commit_children commit hs' b end.
Fixpoint commit (fuel : nat) (hash : Hash) (b : memBatch) : M TrieDB memBatch :=
  match fuel with
  | O => fun _ => OutOfFuel
  | S fuel =>
      n ← gets (fun db => dirties db !! hash);
      match n with
      | None => mret b
      | Some node =>
          hs ← lift (childs node);
          b ← commit_children (commit fuel) hs b;
          enc ← lift (cached_rlp node);
          let b := batch_Put (Hash_Bytes hash) enc b in
          write_if (IdealBatchSize <=? b_size b) b
      end
  end.
Fixpoint uncache (fuel : nat) (hash : Hash) : M TrieDB unit :=
  match fuel with
  | O => fun _ => OutOfFuel
  | S fuel =>
      n ← gets (fun db => dirties db !! hash);
      match n with
      | None => mret tt
      | Some node =>
          unlink hash node;;
          hs ← lift (childs node);
          for_each (uncache fuel) hs;;
          remove_node hash node
      end
  end.
Definition db_Commit (root : Hash) : M TrieDB unit :=
  db ← gets id;
  let fuel := walk_fuel db in
  b ← put_preimages (map_to_list (preimages db)) NewBatch;
  b ← commit fuel root b;
  batch_Write b;;
  modify (db_preimages ∅ 0);;
  uncache fuel root.
