(* ===== verification/Hasher.v ===== *)
(** * Hashing and committing tries

    Models [trie/hasher.go] and the operations of [trie/trie.go] and
    [trie/secure_trie.go] that use it. A node is collapsed: its key is made
    compact and its children are replaced by their hashes, if these are not
    longer than what they stand for. In the source the steps return an error
    that is always nil; it is left out. *)

From stdpp Require Import gmap.
From S2P Require Import Prelude CommonMath Rlp StateIface TrieKey TrieNode Trie TrieDatabase.
Local Open Scope Z_scope.

(** The value that is encoded for a collapsed node. *)
Fixpoint collapsed_item (n : node) : Item :=
  match n with
  | nilNode => IList []
  | fullNode cs _ => IList (map (fun c => match c with nilNode => IBytes [] | _ => collapsed_item c end) cs)
  | shortNode k c _ => IList [IBytes k; collapsed_item c]
  | hashNode h => IBytes h
  | valueNode v => IBytes v
  end.

Section hasher.
Context `{Crypto}.
(** [h.cachegen], [h.cachelimit], [h.onleaf] and whether there is a database. *)
Context (cachegen cachelimit : Z) (onleaf : bytes -> Hash -> M TrieDB unit) (has_db : bool).

Definition makeHashNode (data : bytes) : bytes := keccak data.

(** The values among the children of a node. *)
Definition leaf_values (n : node) : list bytes :=
  match n with
  | shortNode _ (valueNode v) _ => [v]
  | fullNode cs _ => flat_map (fun c => match c with valueNode v => [v] | _ => [] end) (take 16 cs)
  | _ => []
  end.
Definition store (n : node) (force : bool) : M TrieDB node :=
  match n with
  | nilNode | hashNode _ => mret n
  | _ =>
      match EncodeToBytes (collapsed_item n) with
      | None => panic (Msg "encode error")
      | Some tmp =>
          if (zlen tmp <? 32) && negb force then mret n
          else
            let hash := match fst (cache n) with Some h => h | None => makeHashNode tmp end in
            when has_db (
              db_insert (BytesToHash hash) tmp (simplifyNode n);;
              for_each (fun v => onleaf v (BytesToHash hash)) (leaf_values n));;
            mret (hashNode hash)
      end
  end.

(** The first [m] children one after the other, each with what is left of it
    and what it is replaced by. *)
Fixpoint hash_children (hash : node -> M TrieDB (node * node)) (m : nat) (cs : list node) : M TrieDB (list node * list node) :=
  match cs, m with
  | c :: cs', S m' =>
      '(collapsed, cached) ← (match c with nilNode => mret (nilNode, nilNode) | _ => hash c end);
      '(l, l') ← hash_children hash m' cs';
      mret (collapsed :: l, cached :: l')
  | _, _ => mret (cs, cs)
  end.
Definition hashChildren (hash : node -> M TrieDB (node * node)) (original : node) : M TrieDB (node * node) :=
  match original with
  | shortNode k c f =>
      compact ← lift (hexToCompact k);
      match c with
      | valueNode _ => mret (shortNode compact c f, original)
      | _ => '(collapsed, cached) ← hash c; mret (shortNode compact collapsed f, shortNode k cached f)
      end
  | fullNode cs f =>
      '(l, l') ← hash_children hash 16 cs;
      mret (fullNode l f, fullNode l' f)
  | _ => mret (original, original)
  end.

(** The hash in the cache of a node, and its mark as written. *)
Definition set_hash (hashed n : node) : node :=
  let cachedHash := match hashed with hashNode h => Some h | _ => None end in
  let flag f := mkFlag cachedHash (flag_gen f) (if has_db then false else flag_dirty f) in
  match n with
  | shortNode k c f => shortNode k c (flag f)
  | fullNode cs f => fullNode cs (flag f)
  | _ => n
  end.

(** What a hash that is already known makes unnecessary. *)
Definition cached_result (n : node) : option (node * node) :=
  match cache n with
  | (Some h, dirty) =>
      if negb has_db then Some (hashNode h, n)
      else if canUnload n cachegen cachelimit then Some (hashNode h, hashNode h)
      else if negb dirty then Some (hashNode h, n)
      else None
  | (None, _) => None
  end.

Fixpoint hash (n : node) (force : bool) : M TrieDB (node * node) :=
  match cached_result n with
  | Some r => mret r
  | None =>
      '(collapsed, cached) ← hashChildren (fun c => hash c false) n;
      hashed ← store collapsed force;
      mret (hashed, set_hash hashed cached)
  end.
End hasher.

(** ** Roots *)

Section roots.
Context `{Crypto}.

Definition emptyRoot : Hash := 0x56e81f171bcc55a6ff8345e692c0f86e5b48e01b996cadc001622fb5e363b421.

Definition hashRoot (t : Trie) (onleaf : bytes -> Hash -> M TrieDB unit) (has_db : bool) : M TrieDB (node * node) :=
  match root_node t with
  | nilNode => mret (hashNode (Hash_Bytes emptyRoot), nilNode)
  | n => hash (cachegen t) (cachelimit t) onleaf has_db n true
  end.
Definition hash_of_node (n : node) : M TrieDB Hash :=
  match n with hashNode h => mret (BytesToHash h) | _ => panic TypeAssertion end.
Definition no_leaf : bytes -> Hash -> M TrieDB unit := fun _ _ => mret tt.

Definition TrieHash (t : Trie) : M TrieDB (Hash * Trie) :=
  '(hashed, cached) ← hashRoot t no_leaf false;
  h ← hash_of_node hashed;
  mret (h, set_root cached t).
Definition Trie_Commit (onleaf : bytes -> Hash -> M TrieDB unit) (t : Trie) : M TrieDB (Hash * Trie) :=
  '(hashed, cached) ← hashRoot t onleaf true;
  h ← hash_of_node hashed;
  mret (h, mkTrie (Some cached) ((cachegen t + 1) mod 2 ^ 16) (cachelimit t)).
End roots.
