(* ===== verification/TrieCodec.v ===== *)
(** * Nodes are read back as they were written

    The parser of [trie/node.go] on the encodings of collapsed nodes, the ones
    [trie/hasher.go] makes: what is decoded is what [expandNode] of
    [trie/database.go] makes of the node that is kept in memory. *)

From stdpp Require Import gmap.
From S2P Require Import Prelude CommonMath Rlp RlpSpec StateIface TrieKey TrieNode Trie TrieSpec TrieDatabase Hasher.
Local Open Scope Z_scope.

(** ** Strings and lists *)

Fixpoint plain (it : Item) : Prop :=
  match it with
  | IBytes b => bytes_ok b
  | IList l => (fix all (l : list Item) : Prop := match l with [] => True | it :: l' => plain it /\ all l' end) l
  | _ => False
  end.
Lemma plain_IList l : plain (IList l) <-> Forall plain l.
Proof.
  induction l as [|it l IH]; [by split|]. split.
  - intros [Hi Hl]. constructor; [done|by apply IH].
  - intros [Hi Hl]%Forall_cons. split; [done|by apply IH].
Qed.
Lemma plain_rlp it : plain it -> item_ok it /\ cooked it /\ rlp it = Some (rlp_of it).
Proof.
  revert it. fix IH 1. intros [b|i|b|i|b|l]; try done. rewrite plain_IList. intros Hl. split; [|split; [done|]].
  - revert l Hl. fix IHl 1. intros [|it l] Hl; [done|]. apply Forall_cons in Hl as [Hi Hl]. split; [by apply IH|by apply IHl].
  - unfold rlp_of. rewrite rlp_IList. enough (is_Some (rlps l)) as [p ->] by done.
    revert l Hl. fix IHl 1. intros [|it l] Hl; [by exists []|]. apply Forall_cons in Hl as [Hi Hl]. cbn.
    destruct (IHl l Hl) as [p ->]. destruct (IH it Hi) as (_ & _ & ->). by eexists.
Qed.
Lemma rlps_plain l : Forall plain l -> items_ok l /\ Forall cooked l /\ rlps l = Some (concat (map rlp_of l)).
Proof.
  induction 1 as [|it l Hi _ (IHo & IHc & IHr)]; [done|]. destruct (plain_rlp it Hi) as (Ho & Hc & Hr).
  split; [done|]. split; [by constructor|]. cbn. by rewrite Hr, IHr.
Qed.
Lemma rlp_of_list l : Forall plain l -> rlp_of (IList l) = rlp_list (concat (map rlp_of l)).
Proof. intros Hl. unfold rlp_of. rewrite rlp_IList. by destruct (rlps_plain l Hl) as (_ & _ & ->). Qed.
Lemma zlen_rlp_list_le b : zlen b < 2 ^ 60 -> zlen b < zlen (rlp_list b) <= zlen b + 9.
Proof.
  intros Hb. pose proof (zlen_nonneg b). unfold rlp_list. rewrite zlen_app. unfold rlp_head.
  destruct (Z.ltb_spec (zlen b) 56); rewrite zlen_cons; [rewrite zlen_nil; lia|].
  pose proof (zlen_big_bytes_u64 (zlen b) ltac:(lia)). lia.
Qed.
Lemma zlen_rlp_string_le b : zlen b < 2 ^ 60 -> 1 <= zlen (rlp_string b) <= zlen b + 9.
Proof.
  intros Hb. pose proof (zlen_nonneg b).
  assert (1 <= zlen (rlp_head 128 183 (zlen b) ++ b) <= zlen b + 9) as Hh.
  { rewrite zlen_app. unfold rlp_head. destruct (Z.ltb_spec (zlen b) 56); rewrite zlen_cons; [rewrite zlen_nil; lia|].
    pose proof (zlen_big_bytes_u64 (zlen b) ltac:(lia)). lia. }
  unfold rlp_string. destruct b as [|x [|y b]]; [done| |done]. case_match; rewrite ?zlen_cons, ?zlen_nil; lia.
Qed.

(** ** Collapsed nodes *)

Definition node_size_ok (c : node) : Prop := zlen (rlp_of (collapsed_item c)) < 2 ^ 40.
Inductive coll : node -> Prop :=
| coll_leaf p v fl :
    nibbles p -> value_ok v -> node_size_ok (shortNode (compact_nibbles true p) (valueNode v) fl) ->
    coll (shortNode (compact_nibbles true p) (valueNode v) fl)
| coll_ext p c fl :
    nibbles p -> cref c -> node_size_ok (shortNode (compact_nibbles false p) c fl) -> coll (shortNode (compact_nibbles false p) c fl)
| coll_full cs last fl :
    length cs = 16%nat -> (forall c, c ∈ cs -> c <> nilNode -> cref c) ->
    (last = nilNode \/ exists v, last = valueNode v /\ value_ok v) ->
    node_size_ok (fullNode (cs ++ [last]) fl) -> coll (fullNode (cs ++ [last]) fl)
with cref : node -> Prop :=
| cref_hash h : length h = 32%nat -> bytes_ok h -> cref (hashNode h)
| cref_small c : coll c -> zlen (rlp_of (collapsed_item c)) < 32 -> cref c.
Scheme coll_ind2 := Minimality for coll Sort Prop with cref_ind2 := Minimality for cref Sort Prop.
Combined Scheme coll_cref_ind from coll_ind2, cref_ind2.

(** What a collapsed node is expanded to. *)
Fixpoint expanded (hash : option bytes) (gen : Z) (c : node) : node :=
  match c with
  | shortNode k c' _ => shortNode (compactToHex k) (expanded None gen c') (mkFlag hash gen false)
  | fullNode cs _ => fullNode (map (expanded None gen) cs) (mkFlag hash gen false)
  | _ => c
  end.

Definition child_item (c : node) : Item := match c with nilNode => IBytes [] | _ => collapsed_item c end.
Lemma coll_inner c : coll c -> is_inner c = true.
Proof. by destruct 1. Qed.
Lemma cref_child_item c : cref c -> child_item c = collapsed_item c.
Proof. destruct 1 as [|c Hc]; [done|]. by destruct Hc. Qed.
Lemma last_plain last : last = nilNode \/ (exists v, last = valueNode v /\ value_ok v) -> plain (child_item last).
Proof. intros [->|(v & -> & _ & Hv & _)]; [constructor|done]. Qed.
Lemma coll_plain : (forall c, coll c -> plain (collapsed_item c)) /\ (forall c, cref c -> plain (collapsed_item c)).
Proof.
  apply coll_cref_ind; try done.
  - intros p v fl Hp (_ & Hv & _) _. split; [apply (compact_nibbles_ok true p Hp)|done].
  - intros p c fl Hp _ Hc _. split; [apply (compact_nibbles_ok false p Hp)|done].
  - intros cs last fl _ Hcs IH Hlast _. apply plain_IList. change (Forall plain (map child_item (cs ++ [last]))).
    rewrite map_app. apply Forall_app. split; [|constructor; [by apply last_plain|constructor]]. apply Forall_fmap, Forall_forall. intros c Hc.
    cbn. destruct (decide (c = nilNode)) as [->|Hn]; [constructor|]. rewrite cref_child_item by auto. by apply IH.
Qed.

(** What is kept of a collapsed node in memory. *)
Definition kept_as (c : node) (r : raw) : Prop :=
  simplifyNode c = Ok r /\ raw_item r = collapsed_item c /\ (forall hash gen, expandNode hash r gen = Ok (expanded hash gen c)) /\
  match r with rawNil | rawNode _ => False | _ => True end.
Lemma kept_children cs :
  (forall c, c ∈ cs -> c <> nilNode -> exists r, kept_as c r) ->
  exists rs, mapM (fun c => match c with nilNode => Ok rawNil | _ => simplifyNode c end) cs = Ok rs /\
    map (fun c => match c with rawNil => IBytes [] | _ => raw_item c end) rs = map child_item cs /\
    forall gen, mapM (fun c => match c with rawNil => Ok nilNode | _ => expandNode None c gen end) rs = Ok (map (expanded None gen) cs).
Proof.
  induction cs as [|c cs IH]; intros Hcs; [by exists []|].
  destruct IH as (rs & Hs & Hi & He); [intros d Hd; apply Hcs; by right|].
  destruct (decide (c = nilNode)) as [->|Hn].
  - exists (rawNil :: rs). cbn. rewrite Hs. split; [done|]. split; [by rewrite Hi|]. intros gen. by rewrite He.
  - destruct (Hcs c) as (r & Hr1 & Hr2 & Hr3 & Hr4); [left|done|]. exists (r :: rs). split; [|split].
    + cbn. by destruct c; rewrite ?Hr1; cbn; rewrite ?Hs.
    + cbn. rewrite Hi. f_equal. by destruct r; [destruct Hr4..|destruct c|destruct c|destruct c|destruct c].
    + intros gen. cbn. destruct r; [destruct Hr4..| | | |]; rewrite Hr3; cbn; by rewrite He.
Qed.
Lemma coll_kept : (forall c, coll c -> exists r, kept_as c r) /\ (forall c, cref c -> exists r, kept_as c r).
Proof.
  apply coll_cref_ind; try done.
  - intros p v fl Hp Hv _. by exists (rawShortNode (compact_nibbles true p) (rawValueNode v)).
  - intros p c fl Hp _ (r & Hr1 & Hr2 & Hr3 & _) _. exists (rawShortNode (compact_nibbles false p) r). split; [|split; [|split; [|done]]].
    + cbn. by rewrite Hr1.
    + cbn. by rewrite Hr2.
    + intros hash gen. cbn. by rewrite Hr3.
  - intros cs last fl _ _ IH Hlast _. destruct (kept_children (cs ++ [last])) as (rs & Hs & Hi & He).
    { intros c [Hc|Hc]%elem_of_app Hn; [by apply IH|]. apply list_elem_of_singleton in Hc as ->. destruct Hlast as [->|(v & -> & _)]; [done|].
      by exists (rawValueNode v). }
    exists (rawFullNode rs). split; [|split; [|split; [|done]]].
    + change (simplifyNode (fullNode (cs ++ [last]) fl)) with
        (cs' ← mapM (fun c => match c with nilNode => Ok rawNil | _ => simplifyNode c end) (cs ++ [last]); Ok (rawFullNode cs')). by rewrite Hs.
    + cbn. f_equal. exact Hi.
    + intros hash gen. change (expandNode hash (rawFullNode rs) gen) with
        (cs' ← mapM (fun c => match c with rawNil => Ok nilNode | _ => expandNode None c gen end) rs; Ok (fullNode cs' (mkFlag hash gen false))).
      by rewrite He.
  - intros h Hl Hb. by exists (rawHashNode h).
Qed.

(** ** Decoding *)

Lemma list_splits l rest :
  Forall plain l -> zlen (rlp_of (IList l)) < 2 ^ 40 -> zlen rest < 2 ^ 40 ->
  let payload := concat (map rlp_of l) in
  SplitList (rlp_of (IList l) ++ rest) = inr (payload, rest) /\ CountValues payload = Some (inr (zlen l)) /\
  zlen payload < 2 ^ 40 /\ (zlen (rlp_of (IList l) ++ rest) =? 0) = false.
Proof.
  intros Hl Hs Hr payload. destruct (rlps_plain l Hl) as (Ho & Hc & Hp). rewrite (rlp_of_list l Hl) in *. fold payload in Hs, Hp |- *.
  pose proof (zlen_rlp_list payload). pose proof (zlen_nonneg payload). pose proof (zlen_nonneg rest).
  split; [unfold SplitList; by rewrite Split_list by lia|]. split; [|split; [lia|]].
  - pose proof (rlps_length l payload Ho Hc Hp ltac:(lia)). apply (CountValues_loop_items l (S (length payload)) payload 0); done || lia.
  - apply Z.eqb_neq. rewrite zlen_app. pose proof (zlen_rlp_list_le payload ltac:(lia)). lia.
Qed.

Definition decodes (c : node) : Prop := forall fuel hash gen rest,
  (length (rlp_of (collapsed_item c)) < fuel)%nat -> zlen rest < 2 ^ 40 ->
  decodeNode_fuel fuel gen hash (rlp_of (collapsed_item c) ++ rest) = Ok (inr (expanded hash gen c)).
Definition decodes_ref (c : node) : Prop := forall fuel gen rest,
  (length (rlp_of (child_item c)) < fuel)%nat -> zlen rest < 2 ^ 40 ->
  decodeRef (decodeNode_fuel fuel gen None) (rlp_of (child_item c) ++ rest) = Ok (inr (expanded None gen c, rest)).

Lemma decodes_leaf p v fl :
  nibbles p -> value_ok v -> node_size_ok (shortNode (compact_nibbles true p) (valueNode v) fl) ->
  decodes (shortNode (compact_nibbles true p) (valueNode v) fl).
Proof.
  intros Hp (Hv0 & Hv & Hvl) Hs fuel hash gen rest Hf Hr. destruct fuel as [|fuel]; [lia|]. destruct (compact_nibbles_ok true p Hp) as [Hkb Hkl].
  destruct (list_splits [IBytes (compact_nibbles true p); IBytes v] rest) as (H1 & H2 & H3 & H4); [by repeat constructor|exact Hs|done|].
  change (rlp_of (collapsed_item _)) with (rlp_of (IList [IBytes (compact_nibbles true p); IBytes v])). cbn [decodeNode_fuel]. unfold decodeNode_with.
  rewrite H4, H1. cbn [of_rlp decode_bind mbind outcome_bind]. rewrite H2. cbn [zlen length Z.of_nat Z.eqb Pos.of_succ_nat Pos.succ Pos.eqb].
  cbn [map concat] in *. rewrite app_nil_r in *. change (rlp_of (IBytes ?b)) with (rlp_string b) in *. rewrite zlen_app in H3.
  pose proof (zlen_rlp_string (compact_nibbles true p)). pose proof (zlen_rlp_string v). pose proof (zlen_nonneg (compact_nibbles true p)).
  unfold decodeShort. rewrite SplitString_string by (done || lia). cbn [of_rlp decode_bind mbind outcome_bind].
  rewrite compactToHex_compact by done. cbn [with_term]. rewrite hasTerm_term.
  rewrite <- (app_nil_r (rlp_string v)), SplitString_string by (done || (rewrite zlen_nil; lia)). cbn.
  by rewrite compactToHex_compact.
Qed.
Lemma decodes_ext p c fl :
  nibbles p -> cref c -> decodes_ref c -> node_size_ok (shortNode (compact_nibbles false p) c fl) -> decodes (shortNode (compact_nibbles false p) c fl).
Proof.
  intros Hp Hc IH Hs fuel hash gen rest Hf Hr. destruct fuel as [|fuel]; [lia|]. destruct (compact_nibbles_ok false p Hp) as [Hkb Hkl].
  pose proof (proj2 coll_plain c Hc) as Hpl. unfold decodes_ref in IH. rewrite (cref_child_item c Hc) in IH.
  destruct (list_splits [IBytes (compact_nibbles false p); collapsed_item c] rest) as (H1 & H2 & H3 & H4); [by repeat constructor|exact Hs|done|].
  change (rlp_of (collapsed_item (shortNode _ _ _))) with (rlp_of (IList [IBytes (compact_nibbles false p); collapsed_item c])) in Hf |- *.
  pose proof (rlp_of_list [IBytes (compact_nibbles false p); collapsed_item c] ltac:(by repeat constructor)) as Hrl. rewrite Hrl in Hf.
  cbn [decodeNode_fuel]. unfold decodeNode_with.
  rewrite H4, H1. cbn [of_rlp decode_bind mbind outcome_bind]. rewrite H2. cbn [zlen length Z.of_nat Z.eqb Pos.of_succ_nat Pos.succ Pos.eqb].
  cbn [map concat] in *. rewrite app_nil_r in *. change (rlp_of (IBytes ?b)) with (rlp_string b) in *. rewrite zlen_app in H3.
  pose proof (zlen_rlp_string (compact_nibbles false p)). pose proof (zlen_nonneg (compact_nibbles false p)).
  pose proof (zlen_nonneg (rlp_of (collapsed_item c))).
  unfold decodeShort. rewrite SplitString_string by (done || lia). cbn [of_rlp decode_bind mbind outcome_bind].
  rewrite compactToHex_compact by done. cbn [with_term]. rewrite hasTerm_nibbles by done.
  rewrite <- (app_nil_r (rlp_of (collapsed_item c))), IH;
    [|pose proof (zlen_rlp_string_le (compact_nibbles false p) ltac:(lia)); unfold rlp_list in Hf; rewrite !length_app in Hf; unfold zlen in *; lia|by rewrite zlen_nil].
  cbn. by rewrite compactToHex_compact.
Qed.
Lemma decodes_ref_nil : decodes_ref nilNode.
Proof.
  intros fuel gen rest _ Hr. unfold decodeRef. change (rlp_of (child_item nilNode)) with (rlp_string []).
  rewrite Split_KString by (rewrite zlen_nil; lia || done). done.
Qed.
Lemma decodes_ref_hash h : length h = 32%nat -> decodes_ref (hashNode h).
Proof.
  intros Hl fuel gen rest _ Hr. unfold decodeRef. change (rlp_of (child_item (hashNode h))) with (rlp_string h).
  rewrite Split_KString by (unfold zlen in *; lia). cbn. unfold zlen. by rewrite Hl.
Qed.
Lemma decodes_ref_small c : coll c -> decodes c -> zlen (rlp_of (collapsed_item c)) < 32 -> decodes_ref c.
Proof.
  intros Hc Hd Hs fuel gen rest Hf Hr. rewrite cref_child_item in * by (by apply cref_small).
  pose proof (proj1 coll_plain c Hc) as Hp. specialize (Hd fuel None gen rest Hf Hr).
  assert (exists l, collapsed_item c = IList l) as [l Hl] by (destruct Hc; eexists; reflexivity).
  rewrite Hl in *. apply plain_IList in Hp. unfold decodeRef.
  rewrite (rlp_of_list l Hp) in *. pose proof (zlen_rlp_list (concat (map rlp_of l))). rewrite Split_list by lia.
  cbn [of_rlp decode_bind mbind outcome_bind]. rewrite zlen_app. replace (_ + zlen rest - zlen rest) with (zlen (rlp_list (concat (map rlp_of l)))) by lia.
  rewrite (proj2 (Z.ltb_ge _ _)) by lia. by rewrite Hd.
Qed.
Lemma decode_children_ok fuel gen tail cs : forall i,
  (forall c, c ∈ cs -> decodes_ref c) -> (length (concat (map rlp_of (map child_item cs))) < fuel)%nat ->
  zlen (concat (map rlp_of (map child_item cs)) ++ tail) < 2 ^ 40 ->
  decode_children (decodeNode_fuel fuel gen None) (length cs) i (concat (map rlp_of (map child_item cs)) ++ tail) =
    Ok (inr (map (expanded None gen) cs, tail)).
Proof.
  induction cs as [|c cs IH]; intros i Hcs Hf Hl; [done|]. cbn [map concat length decode_children] in *. rewrite <- app_assoc in *.
  rewrite length_app in Hf. rewrite zlen_app in Hl. pose proof (zlen_nonneg (rlp_of (child_item c))).
  unfold wrapError. rewrite Hcs by (left || lia). cbn [mbind outcome_bind decode_bind].
  rewrite IH by (lia || (intros d Hd; apply Hcs; by right)). done.
Qed.
Lemma decodes_full cs last fl :
  length cs = 16%nat -> (forall c, c ∈ cs -> decodes_ref c) -> (forall c, c ∈ cs -> plain (child_item c)) ->
  (last = nilNode \/ exists v, last = valueNode v /\ value_ok v) ->
  node_size_ok (fullNode (cs ++ [last]) fl) -> decodes (fullNode (cs ++ [last]) fl).
Proof.
  intros Hlen Hcs Hpl Hlast Hs fuel hash gen rest Hf Hr. destruct fuel as [|fuel]; [lia|].
  assert (Forall plain (map child_item (cs ++ [last]))) as Hp.
  { rewrite map_app. apply Forall_app. split; [by apply Forall_fmap, Forall_forall|]. constructor; [by apply last_plain|constructor]. }
  destruct (list_splits (map child_item (cs ++ [last])) rest) as (H1 & H2 & H3 & H4); [done|exact Hs|done|].
  change (rlp_of (collapsed_item (fullNode _ _))) with (rlp_of (IList (map child_item (cs ++ [last])))) in Hf |- *.
  rewrite (rlp_of_list _ Hp) in Hf. cbn [decodeNode_fuel]. unfold decodeNode_with.
  assert (zlen (map child_item (cs ++ [last])) = 17) as H17 by (unfold zlen; by rewrite length_map, length_app, Hlen).
  rewrite H17 in H2. rewrite H4, H1. cbn [of_rlp decode_bind mbind outcome_bind]. rewrite H2. cbn [Z.eqb Pos.eqb]. unfold decodeFull. clear H17.
  rewrite !map_app, concat_app in *. cbn [map concat] in *. rewrite app_nil_r in *.
  rewrite <- Hlen at 1. unfold rlp_list in Hf. rewrite !length_app in Hf.
  assert (bytes_ok (match last with valueNode v => v | _ => [] end) /\ rlp_of (child_item last) = rlp_string (match last with valueNode v => v | _ => [] end))
    as [Hb Hlr] by (destruct Hlast as [->|(v & -> & _ & Hv & _)]; [split; [constructor|done]|done]).
  assert (1 <= zlen (rlp_of (child_item last)) /\ zlen (match last with valueNode v => v | _ => [] end) < 2 ^ 40) as [H1l Hll].
  { rewrite zlen_app in H3. pose proof (zlen_nonneg (concat (map rlp_of (map child_item cs)))). rewrite Hlr in *.
    pose proof (zlen_rlp_string (match last with valueNode v => v | _ => [] end)). split; [|lia]. apply zlen_rlp_string_le. lia. }
  rewrite decode_children_ok by (done || (unfold zlen in *; lia)). cbn [decode_bind mbind outcome_bind].
  rewrite Hlr, <- (app_nil_r (rlp_string _)), SplitString_string by (done || (rewrite zlen_nil; lia)). cbn.
  rewrite map_app. cbn. do 4 f_equal. destruct Hlast as [->|(v & -> & Hv0 & _)]; [done|].
  destruct v as [|x v]; [done|]. pose proof (zlen_nonneg v). by rewrite (proj2 (Z.ltb_lt _ _)) by (rewrite zlen_cons; lia).
Qed.
Lemma decode_collapsed : (forall c, coll c -> decodes c) /\ (forall c, cref c -> decodes_ref c).
Proof.
  apply coll_cref_ind.
  - apply decodes_leaf.
  - intros p c fl Hp Hc Hd Hs. by apply decodes_ext.
  - intros cs last fl Hlen Hc Hd Hlast Hs. apply decodes_full; try done; intros c Hin; destruct (decide (c = nilNode)) as [->|Hn].
    + apply decodes_ref_nil.
    + by apply Hd.
    + constructor.
    + rewrite cref_child_item by auto. by apply coll_plain, Hc.
  - intros h Hl _. by apply decodes_ref_hash.
  - intros c Hc Hd Hs. by apply decodes_ref_small.
Qed.
Lemma decode_coll c hash gen : coll c -> decodeNode hash (rlp_of (collapsed_item c)) gen = Ok (inr (expanded hash gen c)).
Proof.
  intros Hc. unfold decodeNode. rewrite <- (app_nil_r (rlp_of _)) at 2. apply (proj1 decode_collapsed c Hc); [lia|by rewrite zlen_nil].
Qed.
