(* ===== verification/HasherProps.v ===== *)
(** * The hash of a trie

    What [trie/hasher.go] does to a node that satisfies the invariant: it ends,
    the hash is the one of the recursive definition, the node that replaces
    it stands for the same map, and with a database every node that is replaced
    by a hash can be loaded again. *)

From stdpp Require Import gmap.
From S2P Require Import Prelude CommonMath Rlp RlpSpec StateIface TrieKey TrieNode Trie TrieSpec TrieProps TrieDatabase Hasher TrieCodec.
Local Open Scope Z_scope.

Lemma run_bind {S A B} (m : M S A) (k : A -> M S B) s a s' : m s = Ok (a, s') -> (x ← m; k x) s = k a s'.
Proof. intros Hm. unfold mbind, M_bind. by rewrite Hm. Qed.

Definition bounded (f : bytes -> bytes) : Prop := forall key, f key <> [] -> zlen key < 2 ^ 32.
Lemma bounded_app f p : bounded f -> bounded (fun key => f (p ++ key)).
Proof. intros Hb key Hk. specialize (Hb _ Hk). rewrite zlen_app in Hb. pose proof (zlen_nonneg p). lia. Qed.
Lemma bounded_ext f g : bounded f -> (forall k, f k = g k) -> bounded g.
Proof. intros Hb Heq key Hk. apply Hb. by rewrite Heq. Qed.

Section encodings.
Context `{Crypto} {CL : CryptoLaws}.

Lemma strip_with_term term p : nibbles p -> strip_term (with_term term p) = p /\ hasTerm (with_term term p) = term.
Proof. intros Hp. unfold strip_term. destruct (with_term_strip term p Hp) as [-> Hs]. by split. Qed.
Lemma compact_key_with_term term p : nibbles p -> compact_key (with_term term p) = compact_nibbles term p.
Proof. intros Hp. unfold compact_key. by destruct (strip_with_term term p Hp) as [-> ->]. Qed.
(** The key of a short node, with and without the terminator. *)
Lemma short_shape_with_term K k :
  short_shape K k -> exists p, nibbles p /\ k = with_term (match K with KValue => true | _ => false end) p.
Proof. destruct K; cbn; [intros (p & Hp & ->)|done|intros [Hk _]]; eauto. Qed.
Lemma shape_compact K k :
  short_shape K k -> hexToCompact k = Ok (compact_key k) /\ compactToHex (compact_key k) = k /\ compact_key (compactToHex (compact_key k)) = compact_key k.
Proof.
  intros (p & Hp & ->)%short_shape_with_term. rewrite compact_key_with_term by done.
  rewrite hexToCompact_ok, compactToHex_compact, compact_key_with_term by done. done.
Qed.

(** ** Expanding a collapsed node *)

Definition small (it : Item) : Prop := zlen (rlp_of it) < 32.
Lemma collapse_small it : small it -> collapse it = it.
Proof. intros Hs. unfold collapse. by rewrite (proj2 (Z.ltb_lt _ _) Hs). Qed.
Lemma expanded_item :
  (forall c, coll c -> forall hash gen, node_item (expanded hash gen c) = collapsed_item c) /\
  (forall c, cref c -> forall gen, node_ref (expanded None gen c) = collapsed_item c).
Proof.
  apply coll_cref_ind.
  - intros p v fl Hp Hv _ hash gen. cbn. by rewrite compactToHex_compact, compact_key_with_term.
  - intros p c fl Hp Hc IH _ hash gen.
    change (IList [IBytes (compact_key (compactToHex (compact_nibbles false p))); node_ref (expanded None gen c)] =
      IList [IBytes (compact_nibbles false p); collapsed_item c]).
    by rewrite IH, compactToHex_compact, compact_key_with_term.
  - intros cs last fl _ Hc IH Hlast _ hash gen.
    change (IList (map node_ref (map (expanded None gen) (cs ++ [last]))) = IList (map child_item (cs ++ [last]))). f_equal.
    rewrite map_map. apply map_ext_in. intros c [Hin|Hin]%list_elem_of_In%elem_of_app.
    + destruct (decide (c = nilNode)) as [->|Hn]; [done|]. rewrite cref_child_item by auto. by apply IH.
    + apply list_elem_of_singleton in Hin as ->. by destruct Hlast as [->|(v & -> & _)].
  - done.
  - intros c Hc IH Hs gen. unfold node_ref. rewrite IH. rewrite collapse_small by done. by destruct Hc.
Qed.

(** ** Sizes *)

Lemma zlen_keccak d : zlen (keccak d) = 32.
Proof. unfold zlen. by rewrite keccak_length. Qed.
Lemma zlen_concat_le (l : list Item) b :
  0 <= b -> Forall (fun it => zlen (rlp_of it) <= b) l -> zlen (concat (map rlp_of l)) <= zlen l * b.
Proof.
  intros Hb. induction 1 as [|it l Hit _ IH]; cbn [map concat]; [by rewrite !zlen_nil|]. rewrite zlen_app, zlen_cons. lia.
Qed.
Lemma list_size l b : Forall plain l -> zlen l <= 17 -> 0 <= b < 2 ^ 35 -> Forall (fun it => zlen (rlp_of it) <= b) l -> zlen (rlp_of (IList l)) < 2 ^ 40.
Proof.
  intros Hp Hl Hb Hall. rewrite rlp_of_list by done. pose proof (zlen_concat_le l b ltac:(lia) Hall). pose proof (zlen_nonneg l).
  pose proof (zlen_rlp_list_le (concat (map rlp_of l))). nia.
Qed.
Lemma cref_size c : cref c -> zlen (rlp_of (collapsed_item c)) <= 41.
Proof.
  destruct 1 as [h Hl Hb|c Hc Hs]; [|lia]. change (zlen (rlp_string h) <= 41). pose proof (zlen_rlp_string_le h). unfold zlen in *. lia.
Qed.
Lemma value_size v : value_ok v -> plain (IBytes v) /\ zlen (rlp_of (IBytes v)) <= 2 ^ 33.
Proof. intros (_ & Hv & Hl). split; [done|]. change (zlen (rlp_string v) <= 2 ^ 33). pose proof (zlen_rlp_string_le v). lia. Qed.
Lemma key_size term p : nibbles p -> zlen p < 2 ^ 32 -> plain (IBytes (compact_nibbles term p)) /\ zlen (rlp_of (IBytes (compact_nibbles term p))) <= 2 ^ 33.
Proof.
  intros Hp Hl. destruct (compact_nibbles_ok term p Hp) as [Hb Hz]. split; [done|].
  change (zlen (rlp_string (compact_nibbles term p)) <= 2 ^ 33). pose proof (zlen_rlp_string_le (compact_nibbles term p)). lia.
Qed.
Lemma coll_short K k c fl :
  short_shape K k -> zlen k < 2 ^ 32 -> match K with KValue => exists v, c = valueNode v /\ value_ok v | _ => cref c end ->
  coll (shortNode (compact_key k) c fl).
Proof.
  intros Hs Hl Hc. destruct (short_shape_with_term K k Hs) as (p & Hp & ->). rewrite compact_key_with_term by done.
  assert (zlen p < 2 ^ 32) as Hlp by (destruct K; cbn [with_term] in Hl; rewrite ?zlen_app, ?zlen_cons, ?zlen_nil in Hl; pose proof (zlen_nonneg p); lia).
  destruct (key_size (match K with KValue => true | _ => false end) p Hp Hlp) as [Hkp Hkl].
  destruct K; [|destruct Hs|]; cbn [with_term] in *.
  - destruct Hc as (v & -> & Hv). destruct (value_size v Hv) as [Hvp Hvl]. constructor; [done..|].
    apply (list_size _ (2 ^ 33)); [by repeat constructor|done|lia|by repeat constructor].
  - constructor; [done..|]. apply (list_size _ (2 ^ 33)); [|done|lia|].
    + constructor; [exact Hkp|constructor; [by apply coll_plain|constructor]].
    + pose proof (cref_size c Hc). constructor; [exact Hkl|constructor; [change (zlen (rlp_of (collapsed_item c)) <= 2 ^ 33); lia|constructor]].
Qed.
Lemma coll_full_node cs last fl :
  length cs = 16%nat -> (forall c, c ∈ cs -> c <> nilNode -> cref c) ->
  (last = nilNode \/ exists v, last = valueNode v /\ value_ok v) -> coll (fullNode (cs ++ [last]) fl).
Proof.
  intros Hl Hc Hlast. constructor; [done..|]. change (zlen (rlp_of (IList (map child_item (cs ++ [last])))) < 2 ^ 40).
  assert (Forall (fun it => plain it /\ zlen (rlp_of it) <= 2 ^ 33) (map child_item (cs ++ [last]))) as Hall.
  { rewrite map_app. apply Forall_app. split.
    - apply Forall_fmap, Forall_forall. intros c Hin. cbn. destruct (decide (c = nilNode)) as [->|Hn]; [by split; [constructor|]|].
      rewrite cref_child_item by auto. split; [by apply coll_plain, Hc|]. pose proof (cref_size c (Hc c Hin Hn)). lia.
    - constructor; [|constructor]. split; [by apply last_plain|]. destruct Hlast as [->|(v & -> & Hv)]; [done|]. by apply value_size. }
  apply Forall_and in Hall as [Hp Hz]. apply (list_size _ (2 ^ 33)); try done. unfold zlen. rewrite length_map, length_app. cbn. lia.
Qed.
End encodings.

(** ** Helpers on nodes *)

Section helpers.
Context `{Crypto} {CL : CryptoLaws}.

Definition with_flags (n : node) (fl : nodeFlag) : node :=
  match n with
  | shortNode k c _ => shortNode k c fl
  | fullNode cs _ => fullNode cs fl
  | _ => n
  end.
Definition flags_of (n : node) : nodeFlag :=
  match n with shortNode _ _ fl | fullNode _ fl => fl | _ => mkFlag None 0 true end.
Lemma node_item_with_flags n fl : node_item (with_flags n fl) = node_item n.
Proof. by destruct n. Qed.
Lemma with_flags_same n : with_flags n (flags_of n) = n.
Proof. by destruct n. Qed.

Fixpoint all_encs (Q : bytes -> Prop) (n : node) : Prop :=
  match n with
  | shortNode _ c _ => Q (node_enc n) /\ all_encs Q c
  | fullNode cs _ =>
      Q (node_enc n) /\ (fix all (cs : list node) : Prop := match cs with [] => True | c :: cs' => all_encs Q c /\ all cs' end) cs
  | _ => True
  end.
Lemma all_encs_full Q cs fl : all_encs Q (fullNode cs fl) -> Q (node_enc (fullNode cs fl)) /\ Forall (all_encs Q) cs.
Proof.
  intros [Hq Hcs]. split; [done|]. clear Hq. induction cs as [|c cs IH]; [constructor|]. destruct Hcs as [Hc Hcs]. constructor; [done|by apply IH].
Qed.
Lemma all_encs_mono (Q Q' : bytes -> Prop) n : (forall x, Q x -> Q' x) -> all_encs Q n -> all_encs Q' n.
Proof.
  intros HQ. revert n. apply (node_ind2 (fun n => all_encs Q n -> all_encs Q' n)); try done.
  - intros cs f IH Ha. apply all_encs_full in Ha as [Hq Hcs]. split; [by apply HQ|]. clear Hq. induction IH as [|c cs Hc _ IH]; [done|].
    apply Forall_cons in Hcs as [Hqc Hcs]. split; [by apply Hc|by apply IH].
  - intros k n f IH [Hq Hn]. split; [by apply HQ|by apply IH].
Qed.

(** An inner node that satisfies the invariant has flags that do. *)
Lemma inner_flag_ok D Inv fo K n f :
  node_ok D Inv fo K n f -> is_inner n = true -> flag_ok Inv fo n (flags_of n) f.
Proof. by destruct 1. Qed.
(** A hash can be used whatever is asked of the flags of nodes in memory. *)
Lemma hash_any D Inv fo K h f : node_ok D any_flag fo K (hashNode h) f -> node_ok D Inv fo K (hashNode h) f.
Proof. intros Hn. inversion Hn as [| | |fo' K' h' n f' Hdb Hin HK Hok Hh]; subst. by apply (ok_hash D Inv fo K h n). Qed.
Lemma inner_not_value D Inv fo K n f : node_ok D Inv fo K n f -> K <> KValue -> is_hashNode n = false -> is_inner n = true.
Proof. by destruct 1. Qed.
(** Children that are replaced by others for the same maps. *)
Lemma children_replace D D' Inv Inv' cs cs' Ks f :
  children_ok D Inv cs Ks f -> length cs' = length cs ->
  (forall j c c', cs !! j = Some c -> cs' !! j = Some c' ->
     (c = nilNode <-> c' = nilNode) /\ (c <> nilNode -> node_ok D' Inv' false (Ks j) c' (fun key => f (Z.of_nat j :: key)))) ->
  children_ok D' Inv' cs' Ks f /\ (two_children cs -> two_children cs').
Proof.
  intros Hco Hl Hrep. assert (forall j c', cs' !! j = Some c' -> exists c, cs !! j = Some c) as Hback.
  { intros j c' Hj. apply lookup_lt_is_Some_2. rewrite <- Hl. by eapply lookup_lt_Some. }
  assert (forall j c, cs !! j = Some c -> exists c', cs' !! j = Some c') as Hforth.
  { intros j c Hj. apply lookup_lt_is_Some_2. rewrite Hl. by eapply lookup_lt_Some. }
  split; [split|].
  - rewrite Hl. apply (co_length _ _ _ _ _ Hco).
  - intros i c' Hi Hc'. destruct (Hback i c' Hi) as [c Hc]. destruct (Hrep i c c' Hc Hi) as [Hnil Hok]. apply Hok. by rewrite Hnil.
  - apply (co_kind _ _ _ _ _ Hco).
  - intros i key Hi. destruct (Hback i _ Hi) as [c Hc]. apply (co_nil _ _ _ _ _ Hco).
    destruct (Hrep i c nilNode Hc Hi) as [Hnil _]. by rewrite (proj2 Hnil eq_refl) in Hc.
  - apply (co_empty _ _ _ _ _ Hco).
  - apply (co_out _ _ _ _ _ Hco).
  - intros (i & j & c & d & Hij & Hi & Hc & Hj & Hd). destruct (Hforth i c Hi) as [c' Hi']. destruct (Hforth j d Hj) as [d' Hj'].
    exists i, j, c', d'. split_and!; try done.
    + by rewrite <- (proj1 (Hrep i c c' Hi Hi')).
    + by rewrite <- (proj1 (Hrep j d d' Hj Hj')).
Qed.
End helpers.

(** ** Hashing a node

    The two uses of the hasher, with and without a database, are instances of
    one lemma. [D] gives the nodes a database has, [I] what is known of the
    flags of nodes in memory, and [Q] holds of the encodings that occur. *)

Section hashing.
Context `{Crypto} {CL : CryptoLaws}.
Context (cachegen cachelimit : Z) (onleaf : bytes -> Hash -> M TrieDB unit) (has_db : bool).
Context (D : TrieDB -> Hash -> Z -> outcome node) (I : TrieDB -> bool -> nodeFlag -> (bytes -> bytes) -> Prop).
Context {FI : forall db, FlagInv (I db)}.
Context (valid : TrieDB -> Prop) (le : TrieDB -> TrieDB -> Prop) {le_pre : PreOrder le} (Q : bytes -> Prop).
Context (le_ok : forall db db' fo K n f, le db db' -> node_ok (D db) (I db) fo K n f -> node_ok (D db') (I db') fo K n f).
Context (le_any : forall db db' fo K n f, le db db' -> node_ok (D db) any_flag fo K n f -> node_ok (D db') any_flag fo K n f).
Context (I_clean : has_db = true -> forall db fo fl f h, I db fo fl f -> flag_dirty fl = false -> flag_hash fl = Some h ->
  exists K, node_ok (D db) any_flag fo K (hashNode h) f).
Context (I_hash : has_db = true -> forall db fo K gen f h, node_ok (D db) any_flag fo K (hashNode h) f -> I db fo (mkFlag (Some h) gen false) f).
Context (I_none : has_db = true -> forall db fo gen f, I db fo (mkFlag None gen false) f).
(** A node is stored that could be loaded but for itself. *)
Context (store_node : has_db = true -> forall db c, valid db -> coll c -> Q (rlp_of (collapsed_item c)) ->
  let h := keccak (rlp_of (collapsed_item c)) in
  (exists fo K f, forall gen, node_ok (D db) any_flag fo K (expanded (Some h) gen c) f) ->
  exists db', (db_insert (BytesToHash h) (rlp_of (collapsed_item c)) (simplifyNode c);;
               for_each (fun v => onleaf v (BytesToHash h)) (leaf_values c)) db = Ok (tt, db') /\
    valid db' /\ le db db' /\ forall gen, D db' (BytesToHash h) gen = Ok (expanded (Some h) gen c)).

(** What the hasher leaves of a node: its hash at the root, what stands for it
    in its parent below. *)
Definition left_of (fo : bool) (n hashed : node) : Prop :=
  if fo then hashed = hashNode (node_hash n) else cref hashed /\ collapsed_item hashed = node_ref n.
Definition reloads (db : TrieDB) fo K (hashed : node) f : Prop :=
  has_db = true -> forall gen, node_ok (D db) any_flag fo K (expanded None gen hashed) f.
Definition hashes_to (db : TrieDB) fo K n f (r : outcome (node * node * TrieDB)) : Prop :=
  exists hashed cached db', r = Ok (hashed, cached, db') /\ valid db' /\ le db db' /\
    node_ok (D db') (I db') fo K cached f /\ left_of fo n hashed /\ reloads db' fo K hashed f.

Lemma left_of_hash fo n :
  is_inner n = true -> fo = true \/ 32 <= zlen (node_enc n) -> left_of fo n (hashNode (keccak (node_enc n))).
Proof.
  intros Hin Hl. unfold left_of. destruct fo; [by destruct n|]. destruct Hl as [|Hl]; [done|]. split.
  - constructor; [apply keccak_length|apply keccak_ok].
  - unfold node_ref, collapse. rewrite Hin. fold (node_enc n). by rewrite (proj2 (Z.ltb_ge _ _) Hl).
Qed.

(** A hash that is known already. *)
Lemma cached_ok db fo K n f r :
  valid db -> node_ok (D db) (I db) fo K n f -> is_inner n = true -> cached_result cachegen cachelimit has_db n = Some r ->
  hashes_to db fo K n f (Ok (r, db)).
Proof.
  intros Hv Hn Hin Hr. pose proof (inner_flag_ok _ _ _ _ _ _ Hn Hin) as (Hh & _ & HI). 
  assert (cache n = (flag_hash (flags_of n), flag_dirty (flags_of n))) as Hc by (by destruct n). unfold cached_result in Hr. rewrite Hc in Hr.
  destruct (flag_hash (flags_of n)) as [h|] eqn:Hfh; [|done]. destruct (Hh h eq_refl) as [Hhk Hlen].
  pose proof (left_of_hash fo n Hin Hlen) as Hlo. rewrite <- Hhk in Hlo.
  assert (has_db = true -> flag_dirty (flags_of n) = false -> node_ok (D db) any_flag fo K (hashNode h) f) as Hload.
  { intros Hdb Hd. destruct (I_clean Hdb db fo (flags_of n) f h HI Hd Hfh) as [K' HK'].
    destruct (node_unique _ _ _ _ _ _ _ Hn _ _ _ _ _ HK' (fun _ => eq_refl)) as [-> _]. done. }
  destruct has_db eqn:Hdb; cbn [negb] in Hr.
  - destruct (canUnload n cachegen cachelimit) eqn:Hu.
    + injection Hr as <-. exists (hashNode h), (hashNode h), db. split; [done|]. split; [done|]. split; [done|].
      assert (node_ok (D db) any_flag fo K (hashNode h) f) as Hl.
      { apply Hload; [done|]. destruct n; try done; cbn in Hu; by apply andb_prop in Hu as [?%negb_true_iff _]. }
      split; [by apply hash_any|]. split; [done|]. intros _ gen. exact Hl.
    + destruct (flag_dirty (flags_of n)) eqn:Hd; [done|]. injection Hr as <-. exists (hashNode h), n, db.
      split; [done|]. split; [done|]. split; [done|]. split; [done|]. split; [done|]. intros _ gen. by apply Hload.
  - injection Hr as <-. exists (hashNode h), n, db. split; [done|]. split; [done|]. split; [done|]. split; [done|]. split; [done|].
    intros Hf. congruence.
Qed.

(** The last step: the collapsed node is stored, and its hash kept. *)
Lemma store_node_ok db fo K (n c : node) f :
  valid db -> is_inner n = true -> coll c -> node_item n = collapsed_item c -> fst (cache c) = flag_hash (flags_of n) ->
  flag_ok (I db) fo n (flags_of n) f -> flag_hash (flags_of n) = None \/ has_db = true -> Q (node_enc n) ->
  (forall db' fl, le db db' -> flag_ok (I db') fo n fl f -> node_ok (D db') (I db') fo K (with_flags n fl) f) ->
  (has_db = true -> forall db' hash gen, le db db' -> flag_ok any_flag fo (expanded hash gen c) (mkFlag hash gen false) f ->
     node_ok (D db') any_flag fo K (expanded hash gen c) f) -> K <> KValue ->
  exists hashed db', store onleaf has_db c fo db = Ok (hashed, db') /\ valid db' /\ le db db' /\
    node_ok (D db') (I db') fo K (set_hash has_db hashed n) f /\ left_of fo n hashed /\ reloads db' fo K hashed f.
Proof.
  intros Hv Hin Hc Hitem Hcache (Hh & Hd & HI) Hnone HQ Hok Hexp HK.
  assert (EncodeToBytes (collapsed_item c) = Some (node_enc n)) as Henc.
  { destruct (plain_rlp (collapsed_item c) (proj1 coll_plain c Hc)) as (Hio & _ & Hr). unfold node_enc. rewrite Hitem.
    apply EncodeToBytes_rlp; [done..|]. assert (node_size_ok c) as Hs by (by destruct Hc). unfold node_size_ok in Hs. lia. }
  assert (forall hashed, set_hash has_db hashed n = with_flags n (mkFlag (match hashed with hashNode h => Some h | _ => None end)
    (flag_gen (flags_of n)) (if has_db then false else flag_dirty (flags_of n)))) as Hset by (by destruct n).
  assert (forall hash gen, node_enc (expanded hash gen c) = node_enc n) as Hee.
  { intros hash gen. unfold node_enc. by rewrite (proj1 expanded_item c Hc), Hitem. }
  assert (store onleaf has_db c fo db = (if (zlen (node_enc n) <? 32) && negb fo then mret c else
    when has_db (db_insert (BytesToHash (keccak (node_enc n))) (node_enc n) (simplifyNode c);;
      for_each (fun v => onleaf v (BytesToHash (keccak (node_enc n)))) (leaf_values c));; mret (hashNode (keccak (node_enc n)))) db) as Hst.
  { unfold store. rewrite Henc, Hcache. destruct (flag_hash (flags_of n)) as [h|]; [destruct (Hh h eq_refl) as [-> _]|]; by destruct Hc. }
  rewrite Hst. clear Hst. destruct ((zlen (node_enc n) <? 32) && negb fo) eqn:Hsmall.
  - apply andb_prop in Hsmall as [Hsm%Z.ltb_lt ->%negb_true_iff]. exists c, db. split; [done|]. split; [done|]. split; [done|].
    assert (match c with hashNode h => Some h | _ => None end = @None bytes) as Hnh by (by destruct Hc). rewrite Hset, Hnh.
    split; [|split].
    + apply Hok; [done|]. split; [done|]. split; [done|]. destruct has_db; [by apply I_none|]. destruct Hnone as [Hn|]; [|done].
      rewrite <- Hn. by destruct (flags_of n).
    + split; [apply cref_small; [done|]; unfold node_enc in Hsm; by rewrite <- Hitem|]. unfold node_ref. by rewrite Hin, collapse_small, Hitem.
    + intros Hdb gen. apply (Hexp Hdb); [done|]. split; [done|]. split; [by rewrite Hee|done].
  - assert (fo = true \/ 32 <= zlen (node_enc n)) as Hl.
    { destruct fo; [by left|right]. cbn [negb] in Hsmall. rewrite andb_true_r in Hsmall. by apply Z.ltb_ge. }
    set (h := keccak (node_enc n)).
    assert (exists db', when has_db (db_insert (BytesToHash h) (node_enc n) (simplifyNode c);;
      for_each (fun v => onleaf v (BytesToHash h)) (leaf_values c)) db = Ok (tt, db') /\ valid db' /\ le db db' /\
      (has_db = true -> node_ok (D db') any_flag fo K (hashNode h) f)) as (db' & Hrun & Hv' & Hle & Hload).
    { destruct has_db eqn:Hdb; [|exists db; by repeat split].
      assert (rlp_of (collapsed_item c) = node_enc n) as Hne by (unfold node_enc; by rewrite Hitem).
      pose proof (store_node eq_refl db c Hv Hc) as Hsn. cbv zeta in Hsn. rewrite Hne in Hsn.
      destruct (Hsn HQ) as (db' & Hrun & Hv' & Hle & HD).
      { exists fo, K, f. intros gen. apply (Hexp eq_refl); [done|]. split; [|done]. intros h' [= <-]. by rewrite Hee. }
      exists db'. split; [exact Hrun|]. split; [done|]. split; [done|].
      intros _. apply (ok_hash (D db') any_flag fo K _ (fun gen => expanded (Some h) gen c)); try done.
      - intros gen. by destruct Hc.
      - intros gen. apply (Hexp eq_refl); [done|]. split; [|done]. intros h' [= <-]. by rewrite Hee.
      - intros gen. by rewrite Hee. }
    exists (hashNode h), db'. rewrite (run_bind _ _ _ _ _ Hrun). split; [done|]. split; [done|]. split; [done|]. split; [|split].
    + rewrite Hset. apply Hok; [done|]. split; [|split; [done|]]; [by intros h' [= <-]|].
      destruct has_db eqn:Hdb; [by eapply I_hash; [|apply Hload]|]. apply Inv_dirty. destruct Hnone as [Hn|]; [|done].
      cbn. destruct (flag_dirty (flags_of n)) eqn:Hdirty; [done|]. destruct (Hd eq_refl Hn) as [-> Hs]. destruct Hl; [done|lia].
    + by apply left_of_hash.
    + intros Hdb gen. by apply Hload.
Qed.

Abbreviation hash_ := (hash cachegen cachelimit onleaf has_db).
(** What is to be shown of a node. *)
Definition hashable (n : node) : Prop := forall db fo K f,
  valid db -> node_ok (D db) (I db) fo K n f -> K <> KValue -> bounded f -> all_encs Q n -> hashes_to db fo K n f (hash_ n fo db).

(** What becomes of a child. *)
Definition child_hashed (db : TrieDB) K f (c x y : node) : Prop :=
  (c = nilNode -> x = nilNode /\ y = nilNode) /\
  (c <> nilNode -> node_ok (D db) (I db) false K y f /\ left_of false c x /\ reloads db false K x f).
Lemma child_hashed_le db db' K f c x y : le db db' -> child_hashed db K f c x y -> child_hashed db' K f c x y.
Proof.
  intros Hle [Hn Hc]. split; [done|]. intros Hne. destruct (Hc Hne) as (Hy & Hl & Hr). split; [by eapply le_ok|]. split; [done|].
  intros Hdb gen. eapply le_any; [done|by apply Hr].
Qed.

Lemma hash_children_ok cs tail : forall db (Ks : nat -> kind) (fs : nat -> bytes -> bytes),
  valid db -> Forall hashable cs -> Forall (all_encs Q) cs ->
  (forall j c, cs !! j = Some c -> c <> nilNode -> node_ok (D db) (I db) false (Ks j) c (fs j) /\ Ks j <> KValue /\ bounded (fs j)) ->
  exists l l' db', hash_children (fun c => hash_ c false) (length cs) (cs ++ tail) db = Ok (l ++ tail, l' ++ tail, db') /\
    valid db' /\ le db db' /\ length l = length cs /\ length l' = length cs /\
    forall j c, cs !! j = Some c -> exists x y, l !! j = Some x /\ l' !! j = Some y /\ child_hashed db' (Ks j) (fs j) c x y.
Proof.
  induction cs as [|c cs IH]; intros db Ks fs Hv Hh He Hok.
  { exists [], [], db. split; [by destruct tail|]. split_and!; try done. }
  apply Forall_cons in Hh as [Hhc Hh]. apply Forall_cons in He as [Hec He].
  assert (exists x y db1, (match c with nilNode => mret (nilNode, nilNode) | _ => hash_ c false end) db = Ok (x, y, db1) /\
    valid db1 /\ le db db1 /\ child_hashed db1 (Ks 0%nat) (fs 0%nat) c x y) as (x & y & db1 & Hrun & Hv1 & Hle1 & Hch).
  { destruct (decide (c = nilNode)) as [->|Hn]; [by exists nilNode, nilNode, db|].
    destruct (Hok O c eq_refl Hn) as (Hco & HK & Hb). destruct (Hhc db false (Ks O) (fs O) Hv Hco HK Hb Hec) as (x & y & db1 & Hr & Hv1 & Hle & Hcok & Hlo & Hre).
    exists x, y, db1. split; [by destruct c|]. by split_and!. }
  destruct (IH db1 (fun j => Ks (S j)) (fun j => fs (S j))) as (l & l' & db2 & Hrun2 & Hv2 & Hle2 & Hl & Hl' & Hall); [done..| |].
  { intros j d Hj Hd. destruct (Hok (S j) d Hj Hd) as (Hdo & HK & Hb). split; [by eapply le_ok|done]. }
  exists (x :: l), (y :: l'), db2. split; [|split_and!; [done|by etransitivity|by cbn; f_equal|by cbn; f_equal|]].
  - cbn [app length hash_children]. rewrite (run_bind _ _ _ _ _ Hrun). cbn beta iota. rewrite (run_bind _ _ _ _ _ Hrun2). done.
  - intros [|j] d Hj; [|by apply Hall]. injection Hj as <-. exists x, y. split; [done|]. split; [done|]. by eapply child_hashed_le.
Qed.

Lemma hash_unfold n fo : hash_ n fo =
  match cached_result cachegen cachelimit has_db n with
  | Some r => mret r
  | None =>
      '(collapsed, cached) ← hashChildren (fun c => hash_ c false) n;
      hashed ← store onleaf has_db collapsed fo;
      mret (hashed, set_hash has_db hashed cached)
  end.
Proof. by destruct n. Qed.
(** The node [n] is collapsed to [c], and replaced by [n1] in memory. *)
Definition collapses_to db fo K n f c n1 db1 : Prop :=
  hashChildren (fun c => hash_ c false) n db = Ok (c, n1, db1) /\ valid db1 /\ le db db1 /\ is_inner n1 = true /\
  flags_of n1 = flags_of n /\ coll c /\ node_item n1 = node_item n /\ node_item n = collapsed_item c /\
  fst (cache c) = flag_hash (flags_of n) /\ flag_ok (I db1) fo n1 (flags_of n) f /\
  (forall db' fl, le db1 db' -> flag_ok (I db') fo n1 fl f -> node_ok (D db') (I db') fo K (with_flags n1 fl) f) /\
  (has_db = true -> forall db' hash gen, le db1 db' -> flag_ok any_flag fo (expanded hash gen c) (mkFlag hash gen false) f ->
     node_ok (D db') any_flag fo K (expanded hash gen c) f).
Definition collapsible (n : node) : Prop := forall db fo K f,
  valid db -> node_ok (D db) (I db) fo K n f -> K <> KValue -> bounded f -> all_encs Q n ->
  exists c n1 db1, collapses_to db fo K n f c n1 db1.
(** The rest of hashing a node, from its collapsed form on. *)
Lemma hash_finish n : is_inner n = true -> collapsible n -> hashable n.
Proof.
  intros Hin Hcol db fo K f Hv Hn HK Hb Hae. assert (Q (node_enc n)) as HQ by (destruct n; try done; apply Hae).
  destruct (Hcol db fo K f Hv Hn HK Hb Hae) as (c & n1 & db1 & Hrun & Hv1 & Hle & Hin1 & Hfl & Hc & Hi1 & Hi & Hcache & Hflag & Hok & Hexp).
  rewrite hash_unfold.
  destruct (cached_result cachegen cachelimit has_db n) as [r|] eqn:Hr; [by apply cached_ok|].
  rewrite (run_bind _ _ _ _ _ Hrun). cbn beta iota.
  destruct (store_node_ok db1 fo K n1 c f) as (hashed & db2 & Hrun2 & Hv2 & Hle2 & Hok2 & Hlo & Hre); try done.
  - by rewrite Hi1.
  - by rewrite Hfl.
  - by rewrite Hfl.
  - rewrite Hfl. unfold cached_result in Hr. assert (cache n = (flag_hash (flags_of n), flag_dirty (flags_of n))) as Hca by (by destruct n).
    rewrite Hca in Hr. destruct (flag_hash (flags_of n)); [|by left]. right. by destruct has_db.
  - unfold node_enc in *. by rewrite Hi1.
  - exists hashed, (set_hash has_db hashed n1), db2. rewrite (run_bind _ _ _ _ _ Hrun2). split; [done|]. split; [done|]. split; [by etransitivity|].
    split; [done|]. split; [|done]. unfold left_of in *. destruct fo.
    + rewrite Hlo. f_equal. destruct n, n1; try done; unfold node_hash, node_enc; by rewrite Hi1.
    + destruct Hlo as [Hcr ->]. split; [done|]. unfold node_ref. by rewrite Hin, Hin1, Hi1.
Qed.

Lemma key_bounded f k K n g D' Inv : node_ok D' Inv false K n g -> (forall key, f (k ++ key) = g key) -> bounded f -> zlen k < 2 ^ 32.
Proof.
  intros Hn Hf Hb. destruct (node_ok_has_value _ _ _ _ _ _ Hn) as [key Hk]. rewrite <- Hf in Hk. specialize (Hb _ Hk). rewrite zlen_app in Hb.
  pose proof (zlen_nonneg key). lia.
Qed.
Lemma same_ref db K n n' f : node_ok (D db) (I db) false K n f -> node_ok (D db) (I db) false K n' f -> node_ref n' = node_ref n.
Proof. apply ref_reloaded. Qed.
Lemma flags_moved db db' fo K n n' f :
  le db db' -> node_ok (D db) (I db) fo K n f -> is_inner n = true -> node_item n' = node_item n -> flag_ok (I db') fo n' (flags_of n) f.
Proof.
  intros Hle Hn Hin Hi. pose proof (inner_flag_ok _ _ _ _ _ _ (le_ok _ _ _ _ _ _ Hle Hn) Hin) as (Hh & Hd & HI).
  unfold flag_ok, node_enc in *. by rewrite Hi.
Qed.

Lemma collapse_leaf k v fl : collapsible (shortNode k (valueNode v) fl).
Proof.
  intros db fo K f Hv Hn HK Hb [HQ _]. pose proof Hn as Hn'.
  inversion Hn' as [|fo' K' k' n' fl' g f' Hc Hs Hfl Hf Hno| |]; subst. destruct (shape_compact K' k Hs) as (Hcomp & Hexp & _).
  assert (K' = KValue) as -> by (by inversion Hc). destruct (node_ok_value _ _ _ _ _ Hc) as (v' & [= <-] & Hvo & _).
  pose proof (key_bounded f k _ _ g _ _ Hc Hf Hb) as Hkl.
  exists (shortNode (compact_key k) (valueNode v) fl), (shortNode k (valueNode v) fl), db.
  split; [cbn [hashChildren]; unfold lift; rewrite Hcomp; done|]. split_and!; try done.
  - by apply (coll_short KValue); [..|exists v].
  - intros db' fl' Hle Hfl'. apply (ok_short _ _ fo KValue k _ fl' g); try done. by eapply le_ok.
  - intros Hdb db' hash gen Hle Hfl'. cbn [expanded] in *. rewrite Hexp in *. apply (ok_short _ _ fo KValue k _ _ g); try done.
    inversion Hc as [fo0 v0 g0 Hvo0 Hg0| | |]; subst. by constructor.
Qed.
Lemma collapse_ext k c fl : hashable c -> collapsible (shortNode k c fl).
Proof.
  intros IH db fo K f Hv Hn HK Hb Hae. pose proof Hn as Hn'.
  inversion Hn' as [|fo' K' k' n' fl' g f' Hc Hs Hfl Hf Hno| |]; subst.
  destruct (decide (K' = KValue)) as [->|HKv]; [destruct (node_ok_value _ _ _ _ _ Hc) as (v & -> & _); by apply (collapse_leaf k v fl)|].
  assert (K' = KFull) as -> by (by destruct K'). destruct (shape_compact KFull k Hs) as (Hcomp & Hexp & _). destruct Hae as [HQ Hec].
  assert (bounded g) as Hbg by (apply (bounded_ext (fun key => f (k ++ key))); [by apply bounded_app|done]).
  pose proof (key_bounded f k _ _ g _ _ Hc Hf Hb) as Hkl.
  destruct (IH db false KFull g Hv Hc HKv Hbg Hec) as (hashed & cached & db1 & Hrun & Hv1 & Hle1 & Hok1 & [Hcr Hci] & Hre).
  pose proof (same_ref db1 KFull c cached g (le_ok _ _ _ _ _ _ Hle1 Hc) Hok1) as Href.
  assert (node_item (shortNode k cached fl) = node_item (shortNode k c fl)) as Hi1.
  { change (IList [IBytes (compact_key k); node_ref cached] = IList [IBytes (compact_key k); node_ref c]). by rewrite Href. }
  exists (shortNode (compact_key k) hashed fl), (shortNode k cached fl), db1.
  split. { assert (hashChildren (fun c => hash_ c false) (shortNode k c fl) =
      (compact ← lift (hexToCompact k); '(collapsed, cached) ← hash_ c false; mret (shortNode compact collapsed fl, shortNode k cached fl))) as ->.
    { inversion Hc; subst; done. }
    unfold lift. rewrite Hcomp. rewrite (run_bind _ _ _ _ _ eq_refl). cbn beta iota. by rewrite (run_bind _ _ _ _ _ Hrun). }
  split_and!; try done.
  - by apply (coll_short KFull).
  - change (IList [IBytes (compact_key k); node_ref c] = IList [IBytes (compact_key k); collapsed_item hashed]). by rewrite Hci.
  - apply (flags_moved db db1 fo KShort (shortNode k c fl)); done.
  - intros db' fl' Hle Hfl'. apply (ok_short _ _ fo KFull k _ fl' g); try done. by eapply le_ok.
  - intros Hdb db' hash gen Hle Hfl'. cbn [expanded] in *. rewrite Hexp in *. apply (ok_short _ _ fo KFull k _ _ g); try done.
    eapply le_any; [done|]. by apply Hre.
Qed.
Lemma split_last {A} (l : list A) m : length l = S m -> exists l' x, l = l' ++ [x] /\ length l' = m.
Proof.
  intros Hl. destruct (last l) as [x|] eqn:Hx; [|apply last_None in Hx as ->; done].
  apply last_Some in Hx as [l' ->]. rewrite length_app in Hl. cbn in Hl. exists l', x. split; [done|lia].
Qed.
Lemma lookup_snoc {A} (l : list A) x j y : (l ++ [x]) !! j = Some y -> (j < length l)%nat /\ l !! j = Some y \/ j = length l /\ y = x.
Proof.
  intros Hj. apply lookup_app_Some in Hj as [Hj|[Hge Hj]]; [left; by split; [eapply lookup_lt_Some|]|right].
  apply list_lookup_singleton_Some in Hj as [Hj ->]. split; [lia|done].
Qed.

Lemma list_lookup_fmap_Some {A B} (g : A -> B) (l : list A) j y : map g l !! j = Some y -> exists x, l !! j = Some x /\ y = g x.
Proof.
  change (map g l) with (g <$> l). rewrite list_lookup_fmap. destruct (l !! j) as [x|]; [|done]. intros [= <-]. by exists x.
Qed.

(** The children of a full node after hashing. *)
Section hashed_children.
Context (db db1 : TrieDB) (cs : list node) (last : node) (Ks : nat -> kind) (f : bytes -> bytes) (l l' : list node).
Context (Hco : children_ok (D db) (I db) (cs ++ [last]) Ks f) (Hle : le db db1).
Context (Hl0 : length cs = 16%nat) (Hl : length l = 16%nat) (Hl' : length l' = 16%nat).
Context (Hch : forall j c, cs !! j = Some c -> exists x y, l !! j = Some x /\ l' !! j = Some y /\
  child_hashed db1 (Ks j) (fun key => f (Z.of_nat j :: key)) c x y).

Lemma last_child_ok : last = nilNode \/ exists v, last = valueNode v /\ value_ok v.
Proof.
  assert ((cs ++ [last]) !! 16%nat = Some last) as H16 by (rewrite <- Hl0; by apply list_lookup_middle).
  destruct (decide (last = nilNode)) as [->|Hn]; [by left|right]. pose proof (co_child _ _ _ _ _ Hco 16%nat last H16 Hn) as Hlo.
  rewrite (proj2 (co_kind _ _ _ _ _ Hco 16%nat) eq_refl) in Hlo. apply node_ok_value in Hlo as (v & -> & Hv & _). by exists v.
Qed.
Lemma hashed_left j c x y : cs !! j = Some c -> l !! j = Some x -> l' !! j = Some y ->
  child_hashed db1 (Ks j) (fun key => f (Z.of_nat j :: key)) c x y.
Proof. intros Hc Hx Hy. destruct (Hch j c Hc) as (x' & y' & Hx' & Hy' & Hh). rewrite Hx in Hx'. rewrite Hy in Hy'. by simplify_eq. Qed.
Lemma hashed_coll fl : coll (fullNode (l ++ [last]) fl).
Proof.
  apply coll_full_node; [done| |apply last_child_ok]. intros x [j Hj]%list_elem_of_lookup Hn.
  destruct (lookup_lt_is_Some_2 cs j) as [c Hc]; [rewrite Hl0, <- Hl; by eapply lookup_lt_Some|].
  destruct (lookup_lt_is_Some_2 l' j) as [y Hy]; [rewrite Hl', <- Hl; by eapply lookup_lt_Some|].
  destruct (hashed_left j c x y Hc Hj Hy) as [Hnil Hne]. destruct (decide (c = nilNode)) as [Hcn|Hcn]; [by destruct (Hnil Hcn)|].
  by destruct (Hne Hcn) as (_ & [? _] & _).
Qed.
(** The references to the children before and after, and what is left of them. *)
Lemma hashed_refs : map node_ref (l' ++ [last]) = map node_ref (cs ++ [last]) /\ map node_ref (cs ++ [last]) = map child_item (l ++ [last]).
Proof.
  assert (forall j c, cs !! j = Some c -> exists x y, l !! j = Some x /\ l' !! j = Some y /\ node_ref y = node_ref c /\ node_ref c = child_item x) as Hall.
  { intros j c Hc. destruct (Hch j c Hc) as (x & y & Hx & Hy & Hnil & Hne). exists x, y. split; [done|]. split; [done|].
    destruct (decide (c = nilNode)) as [Hcn|Hcn]; [destruct (Hnil Hcn) as [-> ->]; by subst|].
    destruct (Hne Hcn) as (Hyo & [Hcr Hci] & _). split; [|by rewrite cref_child_item]. apply (same_ref db1 (Ks j) c y (fun key => f (Z.of_nat j :: key))); [|done].
    eapply le_ok; [done|]. apply (co_child _ _ _ _ _ Hco); [|done]. by apply lookup_app_l_Some. }
  rewrite !map_app. split; f_equal; [| |by destruct last_child_ok as [->|(v & -> & _)]];
    (apply (list_eq_same_length _ _ 16%nat); [by rewrite length_map|by rewrite length_map|]); intros j a b _ Ha Hb.
  - apply list_lookup_fmap_Some in Ha as (y & Hy & ->). apply list_lookup_fmap_Some in Hb as (c & Hc & ->).
    destruct (Hall j c Hc) as (x & y' & _ & Hy' & Hr & _). by simplify_eq.
  - apply list_lookup_fmap_Some in Ha as (c & Hc & ->). apply list_lookup_fmap_Some in Hb as (x & Hx & ->).
    destruct (Hall j c Hc) as (x' & y & Hx' & _ & _ & Hr). by simplify_eq.
Qed.
Lemma cached_children db' :
  le db1 db' -> children_ok (D db') (I db') (l' ++ [last]) Ks f /\ (two_children (cs ++ [last]) -> two_children (l' ++ [last])).
Proof.
  intros Hle'. apply (children_replace _ _ _ _ (cs ++ [last]) _ Ks f Hco); [by rewrite !length_app, Hl0, Hl'|]. intros j c c' Hj Hj'.
  apply lookup_snoc in Hj as [[Hlt Hj]|[-> ->]].
  - rewrite lookup_app_l in Hj' by lia. destruct (Hch j c Hj) as (x & y & _ & Hy & Hnil & Hne). rewrite Hj' in Hy. injection Hy as <-.
    destruct (decide (c = nilNode)) as [Hcn|Hcn]; [destruct (Hnil Hcn) as [_ ->]; by subst|]. destruct (Hne Hcn) as (Hyo & _).
    pose proof (node_ok_not_nil _ _ _ _ _ _ Hyo). split; [done|]. intros _. by eapply le_ok.
  - pose proof (list_lookup_middle cs [] last _ eq_refl) as H16.
    rewrite Hl0 in Hj'. rewrite <- Hl' in Hj'. rewrite list_lookup_middle in Hj' by done. injection Hj' as <-. split; [done|]. intros Hn.
    eapply le_ok; [exact Hle'|]. eapply le_ok; [exact Hle|]. by apply (co_child _ _ _ _ _ Hco).
Qed.
Lemma reloaded_children db' gen :
  has_db = true -> le db1 db' -> children_ok (D db') any_flag (map (expanded None gen) (l ++ [last])) Ks f /\
    (two_children (cs ++ [last]) -> two_children (map (expanded None gen) (l ++ [last]))).
Proof.
  intros Hdb Hle'. apply (children_replace _ _ _ _ (cs ++ [last]) _ Ks f Hco); [by rewrite length_map, !length_app, Hl0, Hl|].
  intros j c c' Hj (x & Hx' & ->)%list_lookup_fmap_Some. apply lookup_snoc in Hj as [[Hlt Hj]|[-> ->]].
  - rewrite lookup_app_l in Hx' by lia. destruct (Hch j c Hj) as (x0 & y & Hx0 & _ & Hnil & Hne). rewrite Hx' in Hx0. injection Hx0 as <-.
    destruct (decide (c = nilNode)) as [Hcn|Hcn]; [destruct (Hnil Hcn) as [-> _]; by subst|]. destruct (Hne Hcn) as (_ & _ & Hre).
    specialize (Hre Hdb gen). pose proof (node_ok_not_nil _ _ _ _ _ _ Hre). split; [done|]. intros _. by eapply le_any.
  - pose proof (list_lookup_middle cs [] last _ eq_refl) as H16. rewrite Hl0 in Hx', H16 |- *. rewrite <- Hl in Hx'.
    rewrite list_lookup_middle in Hx' by done. injection Hx' as <-. destruct last_child_ok as [->|(v & Hlv & Hv)]; [done|].
    rewrite Hlv in *. split; [done|]. intros Hn.
    pose proof (co_child _ _ _ _ _ Hco 16%nat _ H16 Hn) as Hlo. rewrite (proj2 (co_kind _ _ _ _ _ Hco 16%nat) eq_refl) in *.
    inversion Hlo; subst; try done. by constructor.
Qed.
End hashed_children.

Lemma collapse_full cs fl : Forall hashable cs -> collapsible (fullNode cs fl).
Proof.
  intros IH db fo K f Hv Hn HK Hb Hae. apply all_encs_full in Hae as [HQ Hae]. pose proof Hn as Hn'.
  inversion Hn' as [| |fo' cs' Ks fl' f' Hl Hc HKs Hnil H0 Hout H2 Hfl|]; subst.
  assert (children_ok (D db) (I db) cs Ks f) as Hco by done. destruct (split_last cs 16 Hl) as (cs1 & last & -> & Hl1).
  apply Forall_app in IH as [IH _]. apply Forall_app in Hae as [Hae _].
  destruct (hash_children_ok cs1 [last] db Ks (fun j key => f (Z.of_nat j :: key))) as (l & l' & db1 & Hrun & Hv1 & Hle1 & Hll & Hll' & Hch); [done..| |].
  { intros j c Hj Hcn. split; [apply Hc; [by apply lookup_app_l_Some|done]|]. split; [|by apply (bounded_app f [Z.of_nat j])].
    rewrite HKs. apply lookup_lt_Some in Hj. lia. }
  rewrite Hl1 in Hrun, Hll, Hll'.
  destruct (hashed_refs db db1 cs1 last Ks f l l' Hco Hle1 Hl1 Hll Hll' Hch) as [Hr1 Hr].
  assert (node_item (fullNode (l' ++ [last]) fl) = node_item (fullNode (cs1 ++ [last]) fl)) as Hi1 by exact (f_equal IList Hr1).
  exists (fullNode (l ++ [last]) fl), (fullNode (l' ++ [last]) fl), db1.
  split; [cbn [hashChildren]; by rewrite (run_bind _ _ _ _ _ Hrun)|]. split_and!; try done.
  - by apply (hashed_coll db db1 cs1 last Ks f l l').
  - exact (f_equal IList Hr).
  - by apply (flags_moved db db1 fo KFull (fullNode (cs1 ++ [last]) fl)).
  - intros db' fl' Hle Hfl'. destruct (cached_children db db1 cs1 last Ks f l l' Hco Hle1 Hl1 Hll Hll' Hch db' Hle) as [Hc1 Ht]. by apply (children_full _ _ fo _ Ks); [|apply Ht|].
  - intros Hdb db' hash gen Hle Hfl'. destruct (reloaded_children db db1 cs1 last Ks f l l' Hco Hl1 Hll Hll' Hch db' gen Hdb Hle) as [Hc1 Ht]. by apply (children_full _ _ fo _ Ks); [|apply Ht|].
Qed.
Lemma hash_hash h : hashable (hashNode h).
Proof.
  intros db fo K f Hv Hn HK Hb _. exists (hashNode h), (hashNode h), db. split; [done|]. split; [done|]. split; [done|]. split; [done|].
  inversion Hn as [| | |fo' K' h' n f' Hdb Hin HK' Hok Hh]; subst. split; [|intros _ gen; by apply (ok_hash _ _ _ _ h n)].
  unfold left_of. destruct fo; [done|]. split; [|done]. destruct (Hh 0) as [-> _]. constructor; [apply keccak_length|apply keccak_ok].
Qed.
Lemma hash_node n : hashable n.
Proof.
  revert n. apply node_ind2.
  - intros db fo K f Hv Hn. by apply node_ok_not_nil in Hn.
  - intros cs fl IH. by apply hash_finish, collapse_full.
  - intros k c fl IH. by apply hash_finish, collapse_ext.
  - apply hash_hash.
  - intros v db fo K f Hv Hn HK. by inversion Hn.
Qed.
Lemma node_collapses n : is_inner n = true -> collapsible n.
Proof.
  destruct n; try done; intros _.
  - apply collapse_full, Forall_forall. intros c _. apply hash_node.
  - apply collapse_ext, hash_node.
Qed.
End hashing.
