(* ===== verification/DatabaseProps.v ===== *)
(** * What the database of nodes promises the trie

    The invariant of the database of [trie/database.go]: what it has for a hash
    has that hash, and comes back the same from the node in memory as from its
    encoding. A node that is inserted can be loaded, and nothing that could be
    loaded is lost. *)

From stdpp Require Import gmap.
From S2P Require Import Prelude CommonMath Rlp RlpSpec StateIface TrieKey TrieNode Trie TrieSpec TrieProps TrieDatabase Hasher TrieCodec HasherProps.
Local Open Scope Z_scope.
#[local] Arguments Hash_Bytes _ : simpl never.

(** ** Reading *)

Definition lookup_node (db : TrieDB) (h : Hash) (gen : Z) : outcome node := '(n, _) ← db_node h gen db; Ok n.
(** The encoding the database has for a hash. *)
Definition enc_at (db : TrieDB) (h : Hash) : option bytes :=
  match clean_get h db with
  | Some e => Some e
  | None =>
      match dirties db !! h with
      | Some c => match cached_rlp c with Ok e => Some e | _ => None end
      | None => diskdb db !! Hash_Bytes h
      end
  end.
Lemma lookup_node_cases db h gen : lookup_node db h gen =
  match clean_get h db with
  | Some e => mustDecodeNode (Some (Hash_Bytes h)) e gen
  | None =>
      match dirties db !! h with
      | Some c => cached_obj c h gen
      | None => match diskdb db !! Hash_Bytes h with Some e => mustDecodeNode (Some (Hash_Bytes h)) e gen | None => Ok nilNode end
      end
  end.
Proof.
  assert (forall o : outcome node, ('(n, _) ← lift o db; Ok n) = o) as Hl by (by intros []).
  unfold lookup_node, db_node. rewrite (run_bind (gets id) _ db db db eq_refl).
  destruct (clean_get h db); [apply Hl|]. destruct (dirties db !! h); [apply Hl|]. destruct (diskdb db !! Hash_Bytes h); [|done].
  rewrite (run_bind _ _ _ _ _ eq_refl). unfold lift. by destruct (mustDecodeNode _ _ _).
Qed.

(** Two databases with the same nodes. *)
Record same_content (db db' : TrieDB) : Prop := {
  sc_disk : diskdb db' = diskdb db;
  sc_cleans : cleans db' = cleans db;
  sc_newest : newest db' = newest db;
  sc_oldest : oldest db' = oldest db;
  sc_dirties h : cn_node <$> dirties db' !! h = cn_node <$> dirties db !! h;
}.
#[export] Instance same_content_pre : PreOrder same_content.
Proof.
  split; [by intros db|]. intros a b c [H1 H2 H3 H4 H5] [K1 K2 K3 K4 K5]. split; congruence.
Qed.
Lemma same_is_Some db db' h : same_content db db' -> is_Some (dirties db !! h) -> is_Some (dirties db' !! h).
Proof. intros Hs Hh. pose proof (sc_dirties _ _ Hs h) as Heq. rewrite <- (fmap_is_Some cn_node), Heq. by apply fmap_is_Some. Qed.
Lemma update_cached_same h g db :
  (forall c, cn_node (g c) = cn_node c) -> is_Some (dirties db !! h) ->
  exists db', update_cached h g db = Ok (tt, db') /\ same_content db db'.
Proof.
  intros Hg [c Hc]. unfold update_cached. rewrite (run_bind (gets _) _ db _ db eq_refl), Hc. eexists. split; [done|]. split; try done.
  intros h'. cbn. destruct (decide (h' = h)) as [->|Hne]; [rewrite lookup_insert_eq, Hc; cbn; by rewrite Hg|by rewrite lookup_insert_ne].
Qed.
Lemma add_reference_same child parent db :
  is_Some (dirties db !! child) -> is_Some (dirties db !! parent) ->
  exists db', add_reference child parent db = Ok (tt, db') /\ same_content db db'.
Proof.
  intros Hc Hp. unfold add_reference.
  destruct (update_cached_same child (fun c => cn_with_parents ((cn_parents c + 1) mod 2 ^ 32) c) db) as (db1 & H1 & Hs1); [done..|].
  rewrite (run_bind _ _ _ _ _ H1). edestruct (update_cached_same parent) as (db2 & H2 & Hs2); [| |exists db2; split; [exact H2|by etransitivity]]; [done|].
  by eapply same_is_Some.
Qed.
(** Counting references changes no node. *)
Lemma db_reference_same child parent db :
  is_Some (dirties db !! parent) -> exists db', db_reference child parent db = Ok (tt, db') /\ same_content db db'.
Proof.
  intros [p Hp]. unfold db_reference. rewrite (run_bind (gets id) _ db _ db eq_refl). cbn [id]. destruct (dirties db !! child) as [c|] eqn:Hc; [|by exists db].
  rewrite Hp. destruct (cn_children p !! child) as [x|]; [destruct (negb (parent =? 0)); [by exists db|]|]; apply add_reference_same; by eexists.
Qed.
Lemma parents_loop_same hs db :
  exists db', for_each (fun child =>
    c ← gets (fun db => dirties db !! child);
    match c with Some c => update_cached child (cn_with_parents ((cn_parents c + 1) mod 2 ^ 32)) | None => mret tt end) hs db = Ok (tt, db') /\
  same_content db db'.
Proof.
  revert db. induction hs as [|h hs IH]; intros db; [by exists db|]. cbn [for_each].
  assert (exists db1, (c ← gets (fun db => dirties db !! h);
    match c with Some c => update_cached h (cn_with_parents ((cn_parents c + 1) mod 2 ^ 32)) | None => mret tt end) db = Ok (tt, db1) /\ same_content db db1)
    as (db1 & H1 & Hs1).
  { rewrite (run_bind (gets _) _ db _ db eq_refl). destruct (dirties db !! h) as [c|] eqn:Hc; [|by exists db]. apply update_cached_same; [done|by eexists]. }
  rewrite (run_bind _ _ _ _ _ H1). destruct (IH db1) as (db2 & H2 & Hs2). exists db2. split; [exact H2|by etransitivity].
Qed.

(** ** Inserting *)

Lemma mapM_outcome_ok {A B} (g : A -> outcome B) l : Forall (fun x => exists y, g x = Ok y) l -> exists ys, mapM g l = Ok ys.
Proof. induction 1 as [|x l [y Hy] _ [ys IH]]; [by exists []|]. exists (y :: ys). cbn. rewrite Hy. cbn. by rewrite IH. Qed.
Lemma mapM_outcome_inv {A B} (g : A -> outcome B) l ys : mapM g l = Ok ys -> Forall2 (fun x y => g x = Ok y) l ys.
Proof.
  revert ys. induction l as [|x l IH]; intros ys; cbn; [by intros [= <-]|]. destruct (g x) as [y| |] eqn:Hy; try done. cbn.
  destruct (mapM g l) as [zs| |]; try done. intros [= <-]. constructor; [done|by apply IH].
Qed.
Lemma simplified_children n r : simplifyNode n = Ok r -> exists hs, gatherChildren r = Ok hs.
Proof.
  revert n r. apply (node_ind2 (fun n => forall r, simplifyNode n = Ok r -> exists hs, gatherChildren r = Ok hs)).
  - done.
  - intros cs f IH r. change (simplifyNode (fullNode cs f)) with
      (cs' ← mapM (fun c => match c with nilNode => Ok rawNil | _ => simplifyNode c end) cs; Ok (rawFullNode cs')).
    destruct (mapM _ cs) as [rs| |] eqn:Hrs; try done. intros [= <-]. apply mapM_outcome_inv in Hrs.
    destruct (mapM_outcome_ok gatherChildren rs) as [hs Hhs]; [|exists (concat (take 16 hs)); cbn; by rewrite Hhs].
    induction Hrs as [|c r cs rs Hr _ IHrs]; [constructor|]. apply Forall_cons in IH as [IHc IH]. constructor; [|by apply IHrs].
    destruct (decide (c = nilNode)) as [->|Hn]; [injection Hr as <-; by exists []|]. apply IHc. by destruct c.
  - intros k n f IH r. cbn. destruct (simplifyNode n) as [r'| |]; try done. intros [= <-]. by apply (IH r').
  - intros h r [= <-]. by eexists.
  - intros v r [= <-]. by eexists.
Qed.

(** [db'] is [db] with a node more. *)
Record added (db db' : TrieDB) (h0 : Hash) (r : raw) : Prop := {
  ad_disk : diskdb db' = diskdb db;
  ad_cleans : cleans db' = cleans db;
  ad_newest : newest db' = h0;
  ad_dirties h : cn_node <$> dirties db' !! h = if decide (h = h0) then Some r else cn_node <$> dirties db !! h;
}.
Lemma db_insert_new h0 blob r db hs :
  dirties db !! h0 = None -> (oldest db <> 0 -> is_Some (dirties db !! newest db)) -> childs (mkCached r (zlen blob mod 2 ^ 16) 0 ∅ (newest db) 0) = Ok hs ->
  exists db', db_insert h0 blob (Ok r) db = Ok (tt, db') /\ added db db' h0 r.
Proof.
  intros Hnew Hp Hhs. unfold db_insert. rewrite (run_bind (gets _) _ db _ db eq_refl), Hnew.
  rewrite (run_bind (lift (Ok r)) _ db r db eq_refl), (run_bind (gets newest) _ db _ db eq_refl).
  set (entry := mkCached r (zlen blob mod 2 ^ 16) 0 ∅ (newest db) 0) in *. unfold lift. rewrite Hhs, (run_bind _ _ _ _ _ eq_refl).
  destruct (parents_loop_same hs db) as (db1 & H1 & Hs1). rewrite (run_bind _ _ _ _ _ H1). rewrite (run_bind (modify _) _ _ _ _ eq_refl).
  set (db2 := db_dirties <[h0 := entry]> db1). rewrite (run_bind (gets oldest) _ _ _ _ eq_refl).
  assert (added db (db_ends (oldest db2) h0 db2) h0 r) as Ha.
  { split; [apply Hs1|apply Hs1|done|]. intros h. cbn. destruct (decide (h = h0)) as [->|Hne]; [by rewrite lookup_insert_eq|].
    rewrite lookup_insert_ne by done. apply Hs1. }
  destruct (Z.eqb_spec (oldest db2) 0) as [Ho|Ho].
  - eexists. split; [done|]. by destruct Ha.
  - destruct (update_cached_same (newest db) (cn_with_next h0) db2) as (db3 & H3 & Hs3); [done| |].
    { assert (is_Some (dirties db1 !! newest db)) as [c Hc] by (eapply same_is_Some; [exact Hs1|]; apply Hp; by rewrite <- (sc_oldest _ _ Hs1)). cbn.
      destruct (decide (h0 = newest db)) as [->|Hne]; [by rewrite lookup_insert_eq; eexists|rewrite lookup_insert_ne by done; by exists c]. }
    eexists. split; [unfold mbind, M_bind; by rewrite H3|]. destruct Ha as [Ha1 Ha2 Ha3 Ha4]. destruct Hs3 as [S1 S2 S3 S4 S5].
    split; cbn in *; try congruence. intros h. rewrite <- Ha4. apply S5.
Qed.

(** ** The invariant *)

(** The encodings that occur have different hashes, none of them zero or the one
    of the empty trie. This is a hypothesis about finitely many encodings. *)
Class CollisionFree `{Crypto} (Q : bytes -> Prop) : Prop := {
  cf_inj x y : Q x -> Q y -> keccak x = keccak y -> x = y;
  cf_zero x : Q x -> BytesToHash (keccak x) <> 0;
  cf_empty x : Q x -> BytesToHash (keccak x) <> emptyRoot;
}.

(** ** Flags of nodes that are loaded *)

(** No node within has a hash in its cache. *)
Fixpoint embedded (n : node) : Prop :=
  match n with
  | shortNode _ c fl => flag_hash fl = None /\ embedded c
  | fullNode cs fl =>
      flag_hash fl = None /\ (fix all (cs : list node) : Prop := match cs with [] => True | c :: cs' => embedded c /\ all cs' end) cs
  | _ => True
  end.
Lemma embedded_full cs fl : embedded (fullNode cs fl) <-> flag_hash fl = None /\ Forall embedded cs.
Proof.
  cbn. apply and_iff_compat_l. induction cs as [|c cs IH]; [by split|]. rewrite Forall_cons. by rewrite IH.
Qed.
(** Only the node itself has. *)
Definition decoded (hash : option bytes) (n : node) : Prop :=
  match n with
  | shortNode _ c fl => flag_hash fl = hash /\ embedded c
  | fullNode cs fl => flag_hash fl = hash /\ Forall embedded cs
  | _ => False
  end.
Lemma decoded_embedded n : decoded None n -> embedded n.
Proof. destruct n; try done. by rewrite embedded_full. Qed.

Lemma decode_bind_ok {A B} (m : decode_result A) (k : A -> decode_result B) b :
  decode_bind m k = Ok (inr b) -> exists a, m = Ok (inr a) /\ k a = Ok (inr b).
Proof. unfold decode_bind. destruct m as [[e|a]| |]; try done. intros Hk. by exists a. Qed.
Lemma wrapError_ok {A} ctx (m : decode_result A) a : wrapError ctx m = Ok (inr a) -> m = Ok (inr a).
Proof. unfold wrapError. destruct m as [[e|x]| |]; try done. Qed.

Section decoding.
Context (gen : Z) (decode_embedded : bytes -> decode_result node).
Context (IH : forall buf n, decode_embedded buf = Ok (inr n) -> decoded None n).

Lemma decodeRef_embedded buf n rest : decodeRef decode_embedded buf = Ok (inr (n, rest)) -> embedded n.
Proof.
  unfold decodeRef. intros ([[k val] r] & _ & Hk)%decode_bind_ok. destruct k; [done| |].
  - destruct (zlen val =? 0); [by injection Hk as <- _|]. destruct (zlen val =? 32); [by injection Hk as <- _|done].
  - destruct (32 <? _); [done|]. apply decode_bind_ok in Hk as (m & Hm & Heq). injection Heq as <- _. by apply decoded_embedded, (IH buf).
Qed.
Lemma decode_children_embedded m : forall i buf cs rest, decode_children decode_embedded m i buf = Ok (inr (cs, rest)) -> Forall embedded cs.
Proof.
  induction m as [|m IHm]; intros i buf cs rest; cbn; [by intros [= <- _]|].
  intros ([c r] & Hc%wrapError_ok & ([cs' r'] & Hcs & [= <- _])%decode_bind_ok)%decode_bind_ok. constructor; [by eapply decodeRef_embedded|by eapply IHm].
Qed.
Lemma decodeNode_with_decoded hash buf n : decodeNode_with gen decode_embedded hash buf = Ok (inr n) -> decoded hash n.
Proof.
  unfold decodeNode_with. destruct (zlen buf =? 0); [done|]. intros ([elems r] & _ & Hk)%decode_bind_ok. cbv zeta in Hk.
  set (c := match CountValues elems with Some (inr c) => c | _ => 0 end) in Hk. destruct (c =? 2); [|destruct (c =? 17); [|done]].
  - apply wrapError_ok in Hk. unfold decodeShort in Hk. apply decode_bind_ok in Hk as ([kbuf r2] & _ & Hk). cbv zeta in Hk. destruct (hasTerm _).
    + by apply decode_bind_ok in Hk as ([val r3] & _ & [= <-]).
    + apply decode_bind_ok in Hk as ([c' r3] & Hc%wrapError_ok & [= <-]). split; [done|by eapply decodeRef_embedded].
  - apply wrapError_ok in Hk. unfold decodeFull in Hk. apply decode_bind_ok in Hk as ([cs r2] & Hcs & Hk).
    apply decode_bind_ok in Hk as ([val r3] & _ & [= <-]). split; [done|]. apply Forall_app. split; [by eapply decode_children_embedded|].
    constructor; [by destruct (0 <? _)|constructor].
Qed.
End decoding.
Lemma mustDecodeNode_decoded hash buf gen n : mustDecodeNode hash buf gen = Ok n -> decoded hash n.
Proof.
  assert (forall fuel hash buf n, decodeNode_fuel fuel gen hash buf = Ok (inr n) -> decoded hash n) as Hf.
  { induction fuel as [|fuel IH]; [done|]. intros h b m. apply decodeNode_with_decoded. intros b' m'. apply IH. }
  unfold mustDecodeNode. destruct (decodeNode hash buf gen) as [[e|m]| |] eqn:Hm; try done. intros [= ->]. by eapply Hf.
Qed.

Section database.
Context `{Crypto} {CL : CryptoLaws} (Q : bytes -> Prop) {CF : CollisionFree Q}.
Implicit Types (db : TrieDB) (h : Hash).

Record db_ok db : Prop := {
  db_hash h e : is_hash h -> h <> 0 -> enc_at db h = Some e -> Q e /\ keccak e = Hash_Bytes h;
  db_dirty h c : h <> 0 -> dirties db !! h = Some c ->
    exists e, cached_rlp c = Ok e /\ forall gen, cached_obj c h gen = mustDecodeNode (Some (Hash_Bytes h)) e gen;
  db_newest : oldest db <> 0 -> is_Some (dirties db !! newest db);
  db_meta : clean_get 0 db = None /\ cn_node <$> dirties db !! 0 = Some rawNil;
}.
(** [db'] has what [db] has. *)
Record nodes_le db db' : Prop := {
  le_lookup h gen n : lookup_node db h gen = Ok n -> n <> nilNode -> lookup_node db' h gen = Ok n;
  le_enc h e : enc_at db h = Some e -> enc_at db' h = Some e;
}.
#[export] Instance nodes_le_pre : PreOrder nodes_le.
Proof.
  split; [by intros db|]. intros a b c [H1 K1] [H2 K2]. split; [|auto]. intros h gen n Hn Hne. apply H2; [by apply H1|done].
Qed.

Lemma keccak_hash_ok d : hash_ok (keccak d).
Proof. split; [apply keccak_ok|apply keccak_length]. Qed.
Lemma NewDatabase_ok : db_ok (NewDatabase ∅).
Proof.
  split; [|intros h c Hh Hc|done|done].
  - intros h e _ Hh. unfold enc_at. cbn. rewrite lookup_singleton_ne by done. by rewrite lookup_empty.
  - cbn in Hc. by rewrite lookup_singleton_ne in Hc.
Qed.

Lemma lookup_node_enc db h gen :
  db_ok db -> h <> 0 -> lookup_node db h gen =
    match enc_at db h with Some e => mustDecodeNode (Some (Hash_Bytes h)) e gen | None => Ok nilNode end.
Proof.
  intros Hdb Hh. rewrite lookup_node_cases. unfold enc_at. destruct (clean_get h db); [done|].
  destruct (dirties db !! h) as [c|] eqn:Hc; [|done]. destruct (db_dirty db Hdb h c Hh Hc) as (e & -> & ->). done.
Qed.

(** Databases with the same nodes. *)
Lemma same_cached_rlp c c' : cn_node c = cn_node c' -> cached_rlp c = cached_rlp c'.
Proof. unfold cached_rlp. by intros ->. Qed.
Lemma same_cached_obj c c' h gen : cn_node c = cn_node c' -> cached_obj c h gen = cached_obj c' h gen.
Proof. unfold cached_obj. by intros ->. Qed.
(** The two databases have the same for the hash [h]. *)
Definition same_at db db' h : Prop :=
  clean_get h db' = clean_get h db /\ diskdb db' = diskdb db /\ cn_node <$> dirties db' !! h = cn_node <$> dirties db !! h.
Lemma same_at_enc db db' h : same_at db db' h -> enc_at db' h = enc_at db h /\ forall gen, lookup_node db' h gen = lookup_node db h gen.
Proof.
  intros (Hc & Hd & Hn). unfold enc_at. setoid_rewrite lookup_node_cases. rewrite Hc, Hd.
  destruct (clean_get h db); [done|]. destruct (dirties db' !! h) as [c'|], (dirties db !! h) as [c|]; try done. injection Hn as Hn.
  rewrite (same_cached_rlp c' c Hn). split; [done|]. intros gen. by apply same_cached_obj.
Qed.
Lemma same_content_at db db' h : same_content db db' -> same_at db db' h.
Proof. intros [H1 H2 H3 H4 H5]. unfold same_at, clean_get. by rewrite H2. Qed.
Lemma same_content_ok db db' : same_content db db' -> db_ok db -> db_ok db' /\ nodes_le db db'.
Proof.
  intros Hs Hdb. split; [split|].
  - intros h e Hh H0 He. rewrite (proj1 (same_at_enc db db' h (same_content_at _ _ h Hs))) in He. by apply (db_hash db Hdb).
  - intros h c' H0 Hc'. pose proof (sc_dirties _ _ Hs h) as Hn. rewrite Hc' in Hn. destruct (dirties db !! h) as [c|] eqn:Hc; [|done].
    injection Hn as Hn. destruct (db_dirty db Hdb h c H0 Hc) as (e & He & Ho). exists e. rewrite (same_cached_rlp c' c Hn). split; [done|].
    intros gen. by rewrite (same_cached_obj c' c h gen Hn).
  - rewrite (sc_newest _ _ Hs), (sc_oldest _ _ Hs). intros Ho. by eapply same_is_Some, (db_newest db Hdb).
  - destruct (same_content_at db db' 0 Hs) as (-> & _ & ->). apply (db_meta db Hdb).
  - split; intros h; destruct (same_at_enc db db' h (same_content_at _ _ h Hs)) as [He Hl]; [intros gen n|]; by rewrite ?He, ?Hl.
Qed.

(** Reading changes the cache of clean nodes, but not what is read. *)
Lemma db_node_reads db h gen n db' :
  db_ok db -> db_node h gen db = Ok (n, db') -> lookup_node db h gen = Ok n /\ db_ok db' /\ nodes_le db db'.
Proof.
  intros Hdb Hrun. assert (lookup_node db h gen = Ok n) as Hl by (unfold lookup_node; by rewrite Hrun). split; [done|].
  rewrite lookup_node_cases in Hl. unfold db_node in Hrun. rewrite (run_bind (gets id) _ db _ db eq_refl) in Hrun. cbn [id] in Hrun.
  assert (forall o : outcome node, lift o db = Ok (n, db') -> db' = db) as Hlift by (intros [?| |]; cbn; congruence).
  destruct (clean_get h db) as [e|] eqn:Hc; [apply Hlift in Hrun as ->; done|].
  destruct (dirties db !! h) as [c|] eqn:Hd; [apply Hlift in Hrun as ->; done|].
  destruct (diskdb db !! Hash_Bytes h) as [e|] eqn:He; [|injection Hrun as _ <-; done].
  rewrite (run_bind (modify _) _ _ _ _ eq_refl) in Hrun. unfold lift in Hrun. rewrite Hl in Hrun. injection Hrun as <-.
  destruct (cleans db) as [cl|] eqn:Hcl; [|destruct db; cbn in *; by subst]. unfold clean_set. rewrite Hcl.
  set (db' := db_cleans (Some (<[h := e]> cl)) db).
  assert (forall h', clean_get h' db' = if decide (h' = h) then Some e else clean_get h' db) as Hget.
  { intros h'. unfold clean_get. cbn. rewrite Hcl. cbn. case_decide as Hh; [subst; by rewrite lookup_insert_eq|by rewrite lookup_insert_ne]. }
  assert (forall h', enc_at db' h' = enc_at db h' /\ forall gen, lookup_node db' h' gen = lookup_node db h' gen) as Hsame.
  { intros h'. unfold enc_at. setoid_rewrite lookup_node_cases. rewrite Hget. case_decide as Hh; [|done]. subst. by rewrite Hc, Hd, He. }
  split; [split|].
  - intros h' e' Hh H0. rewrite (proj1 (Hsame h')). by apply (db_hash db Hdb).
  - apply (db_dirty db Hdb).
  - apply (db_newest db Hdb).
  - rewrite Hget, decide_False; [apply (db_meta db Hdb)|]. intros <-. destruct (db_meta db Hdb) as [_ Hm]. by rewrite Hd in Hm.
  - split; intros h'; destruct (Hsame h') as [He' Hl']; [intros gen' n'|]; by rewrite ?He', ?Hl'.
Qed.

(** ** Nodes in memory that need not be written *)

(** What a clean node has as its hash is the hash under which the database has
    it. *)
Definition clean_inv db : bool -> nodeFlag -> (bytes -> bytes) -> Prop := fun fo fl f =>
  forall h : bytes, flag_dirty fl = false -> flag_hash fl = Some h -> exists K, node_ok (lookup_node db) any_flag fo K (hashNode h) f.
#[export] Instance clean_inv_flags db : FlagInv (clean_inv db).
Proof.
  split.
  - intros fo fl f Hd h Hd'. congruence.
  - intros fo fl g f Hi h. apply Hi.
  - intros fo fl f f' Hi Heq h Hd Hh. destruct (Hi h Hd Hh) as [K Hn]. exists K. by eapply node_ok_ext.
Qed.
Lemma embedded_ok db fo K n f : node_ok (lookup_node db) any_flag fo K n f -> embedded n -> node_ok (lookup_node db) (clean_inv db) fo K n f.
Proof.
  assert (forall fo n fl f, flag_ok any_flag fo n fl f -> flag_hash fl = None -> flag_ok (clean_inv db) fo n fl f) as Hflag.
  { intros fo' n' fl f' (Hh & Hd & _) Hn. split; [done|]. split; [done|]. intros h _. by rewrite Hn. }
  remember any_flag as Inv eqn:HI. intros Hn. revert HI. induction Hn as [Inv fo v f Hv Hf|Inv fo K k n fl g f Hn IH Hs Hfl Hf Hno|Inv fo cs Ks fl f Hl Hc IH HK Hnil H0 Hout H2 Hfl
    |Inv fo K h n f Hdb Hin HK Hn IH Hh]; intros -> He.
  - by constructor.
  - destruct He as [Hn' He]. apply (ok_short _ _ fo K k n fl g); auto.
  - apply embedded_full in He as [Hn' He]. rewrite Forall_forall in He. apply (ok_full _ _ fo cs Ks); auto.
    intros i c Hi Hne. apply (IH i c Hi Hne Hflag eq_refl), He. by eapply list_elem_of_lookup_2.
  - by apply (ok_hash _ _ fo K h n).
Qed.
Lemma decoded_ok db fo K (h : bytes) n f :
  node_ok (lookup_node db) any_flag fo K (hashNode h) f -> node_ok (lookup_node db) any_flag fo K n f -> decoded (Some h) n ->
  node_ok (lookup_node db) (clean_inv db) fo K n f.
Proof.
  intros Hh Hn Hd.
  assert (forall fl, flag_ok any_flag fo n fl f -> flag_hash fl = Some h -> flag_ok (clean_inv db) fo n fl f) as Hflag.
  { intros fl (H1 & H2 & _) Hfl. split; [done|]. split; [done|]. intros h' _ Hh'. rewrite Hfl in Hh'. injection Hh' as <-. by exists K. }
  inversion Hn as [fo' v f' Hv Hf|fo' K' k c fl g f' Hc Hs Hfl Hf Hno|fo' cs Ks fl f' Hl Hc HK Hnil H0 Hout H2 Hfl|]; subst; try done.
  - destruct Hd as [Hd He]. apply (ok_short _ _ fo K' k c fl g); auto. by apply embedded_ok.
  - destruct Hd as [Hd He]. rewrite Forall_forall in He. apply (ok_full _ _ fo cs Ks); auto.
    intros i c Hi Hne. apply embedded_ok; [auto|]. apply He. by eapply list_elem_of_lookup_2.
Qed.
Lemma lookup_decoded db h gen n : db_ok db -> lookup_node db h gen = Ok n -> n <> nilNode -> decoded (Some (Hash_Bytes h)) n.
Proof.
  intros Hdb. destruct (decide (h = 0)) as [->|Hh].
  - rewrite lookup_node_cases. destruct (db_meta db Hdb) as [-> Hd]. destruct (dirties db !! 0) as [c|]; [|done]. injection Hd as Hd.
    unfold cached_obj. by rewrite Hd.
  - rewrite lookup_node_enc by done. destruct (enc_at db h); [|congruence]. intros Hm _. by eapply mustDecodeNode_decoded.
Qed.
Lemma clean_inv_loads db : db_ok db -> Loads (lookup_node db) (clean_inv db).
Proof.
  intros Hdb h m fo K f gen Hm Hn. pose proof (any_flag_loads (lookup_node db) h m fo K f gen Hm Hn) as Hok.
  apply (decoded_ok db fo K h); [done..|]. inversion Hn as [| | |fo' K' h' n f' Hdb' Hin HK Hn' Hhash]; subst.
  rewrite <- (Bytes_BytesToHash h) by (destruct (Hhash 0) as [-> _]; apply keccak_hash_ok). apply (lookup_decoded db _ gen); [done..|].
  by eapply node_ok_not_nil.
Qed.

(** What is known stays true when there are more nodes. *)
Lemma nodes_le_any db db' fo K n f : nodes_le db db' -> node_ok (lookup_node db) any_flag fo K n f -> node_ok (lookup_node db') any_flag fo K n f.
Proof.
  intros Hle Hn. induction Hn as [Inv fo v f Hv Hf|Inv fo K k n fl g f Hn IH Hs Hfl Hf Hno|Inv fo cs Ks fl f Hl Hc IH HK Hnil H0 Hout H2 Hfl
    |Inv fo K h n f Hdb Hin HK Hn IH Hh].
  - by constructor.
  - by apply (ok_short _ _ fo K k n fl g).
  - by apply (ok_full _ _ fo cs Ks).
  - apply (ok_hash _ _ fo K h n); try done. intros gen. apply (le_lookup _ _ Hle); [done|]. specialize (Hin gen). by destruct (n gen).
Qed.
Lemma clean_inv_le db db' fo fl f : nodes_le db db' -> clean_inv db fo fl f -> clean_inv db' fo fl f.
Proof. intros Hle Hi h Hd Hh. destruct (Hi h Hd Hh) as [K Hn]. exists K. by eapply nodes_le_any. Qed.
Lemma nodes_le_ok db db' fo K n f :
  nodes_le db db' -> node_ok (lookup_node db) (clean_inv db) fo K n f -> node_ok (lookup_node db') (clean_inv db') fo K n f.
Proof.
  intros Hle Hn. assert (forall fo n fl f, flag_ok (clean_inv db) fo n fl f -> flag_ok (clean_inv db') fo n fl f) as Hflag.
  { intros fo' n' fl f' (H1 & H2 & H3). split; [done|]. split; [done|by eapply clean_inv_le]. }
  remember (clean_inv db) as Inv eqn:HI. revert HI. induction Hn as [Inv fo v f Hv Hf|Inv fo K k n fl g f Hn IH Hs Hfl Hf Hno|Inv fo cs Ks fl f Hl Hc IH HK Hnil H0 Hout H2 Hfl
    |Inv fo K h n f Hdb Hin HK Hn IH Hh]; intros ->.
  - by constructor.
  - apply (ok_short _ _ fo K k n fl g); auto.
  - apply (ok_full _ _ fo cs Ks); auto.
  - apply hash_any, (nodes_le_any db); [done|]. by apply (ok_hash _ _ fo K h n).
Qed.

(** ** Storing a node *)

(** What a callback on the values of a node may do. *)
Definition leaf_ok (onleaf : bytes -> Hash -> M TrieDB unit) : Prop :=
  forall v h db, is_Some (dirties db !! h) -> exists db', onleaf v h db = Ok (tt, db') /\ same_content db db'.
Lemma no_leaf_ok : leaf_ok no_leaf.
Proof. intros v h db _. by exists db. Qed.
Lemma for_each_leaf onleaf h vs db :
  leaf_ok onleaf -> is_Some (dirties db !! h) -> exists db', for_each (fun v => onleaf v h) vs db = Ok (tt, db') /\ same_content db db'.
Proof.
  intros Hl. revert db. induction vs as [|v vs IH]; intros db Hh; [by exists db|]. cbn [for_each].
  destruct (Hl v h db Hh) as (db1 & H1 & Hs1). rewrite (run_bind _ _ _ _ _ H1).
  destruct (IH db1) as (db2 & H2 & Hs2); [by eapply same_is_Some|]. exists db2. split; [done|by etransitivity].
Qed.

Lemma coll_encoded c : coll c -> EncodeToBytes (collapsed_item c) = Some (rlp_of (collapsed_item c)).
Proof.
  intros Hc. destruct (plain_rlp (collapsed_item c) (proj1 coll_plain c Hc)) as (Hio & _ & Hr). apply EncodeToBytes_rlp; [done..|].
  assert (node_size_ok c) as Hs by (by destruct Hc). unfold node_size_ok in Hs. lia.
Qed.
Lemma mustDecode_coll c hash gen : coll c -> mustDecodeNode hash (rlp_of (collapsed_item c)) gen = Ok (expanded hash gen c).
Proof. intros Hc. unfold mustDecodeNode. by rewrite decode_coll. Qed.
(** The node that is kept in memory and its encoding are the same. *)
Lemma kept_cached c r e : kept_as c r -> coll c -> cn_node e = r ->
  cached_rlp e = Ok (rlp_of (collapsed_item c)) /\ forall h gen, cached_obj e h gen = mustDecodeNode (Some (Hash_Bytes h)) (rlp_of (collapsed_item c)) gen.
Proof.
  intros (_ & Hi & He & Hr) Hc Hn. pose proof (coll_encoded c Hc) as Henc. rewrite <- Hi in Henc.
  unfold cached_rlp, cached_obj. rewrite Hn. setoid_rewrite mustDecode_coll; [|done]. rewrite <- Hi in *.
  split; [destruct r; try done; by rewrite Henc|]. intros h gen. destruct r; try done; apply He.
Qed.
Lemma enc_at_unique db e e' :
  db_ok db -> Q e -> enc_at db (BytesToHash (keccak e)) = Some e' -> e' = e.
Proof.
  intros Hdb HQ He. destruct (db_hash db Hdb _ _ (is_hash_BytesToHash _ (keccak_hash_ok _)) (cf_zero e HQ) He) as [HQ' Hk].
  rewrite Bytes_BytesToHash in Hk by apply keccak_hash_ok. by apply cf_inj.
Qed.

(** A node that is kept as [r] is the one of the encoding [e]. *)
Definition raw_of (r : raw) (e : bytes) : Prop := forall c, cn_node c = r ->
  cached_rlp c = Ok e /\ forall h gen, cached_obj c h gen = mustDecodeNode (Some (Hash_Bytes h)) e gen.
Lemma added_ok db db' e r :
  db_ok db -> Q e -> raw_of r e -> dirties db !! BytesToHash (keccak e) = None -> added db db' (BytesToHash (keccak e)) r ->
  db_ok db' /\ nodes_le db db' /\ enc_at db' (BytesToHash (keccak e)) = Some e.
Proof.
  intros Hdb HQ Hr Hnew Ha. set (h0 := BytesToHash (keccak e)) in *. pose proof (cf_zero e HQ) as H0. fold h0 in H0.
  assert (forall h, clean_get h db' = clean_get h db) as Hcl by (intros h; unfold clean_get; by rewrite (ad_cleans _ _ _ _ Ha)).
  assert (forall h, h <> h0 -> same_at db db' h) as Hsame.
  { intros h Hne. split; [apply Hcl|]. split; [apply Ha|]. rewrite (ad_dirties _ _ _ _ Ha). by rewrite decide_False. }
  pose proof (ad_dirties _ _ _ _ Ha h0) as Hc0. rewrite decide_True in Hc0 by done. apply fmap_Some in Hc0 as (c0 & Hc0 & Hcn).
  destruct (Hr c0 (eq_sym Hcn)) as [Hrlp Hobj].
  assert (enc_at db' h0 = Some e) as Hat.
  { unfold enc_at. rewrite Hcl, Hc0, Hrlp. destruct (clean_get h0 db) as [e'|] eqn:He'; [|done]. f_equal. apply (enc_at_unique db); [done..|].
    unfold enc_at. fold h0. by rewrite He'. }
  assert (db_ok db') as Hdb'; [split|split; [done|split; [split|done]]].
  - intros h e' Hh Hne He'. destruct (decide (h = h0)) as [->|Hn].
    + rewrite Hat in He'. injection He' as <-. split; [done|]. unfold h0. symmetry. apply Bytes_BytesToHash, keccak_hash_ok.
    + rewrite (proj1 (same_at_enc db db' h (Hsame h Hn))) in He'. by apply (db_hash db Hdb).
  - intros h c1 Hne Hc1. destruct (decide (h = h0)) as [->|Hn]; [rewrite Hc0 in Hc1; injection Hc1 as <-; by exists e|].
    destruct (Hsame h Hn) as (_ & _ & Hd). rewrite Hc1 in Hd. destruct (dirties db !! h) as [c2|] eqn:Hc2; [|done]. injection Hd as Hd.
    destruct (db_dirty db Hdb h c2 Hne Hc2) as (e' & He' & Ho). exists e'. rewrite (same_cached_rlp c1 c2 Hd). split; [done|].
    intros gen. by rewrite (same_cached_obj c1 c2 h gen Hd).
  - rewrite (ad_newest _ _ _ _ Ha), Hc0. by eexists.
  - rewrite Hcl, (ad_dirties _ _ _ _ Ha), decide_False by done. apply (db_meta db Hdb).
  - intros h gen n Hl Hn. destruct (decide (h = h0)) as [->|Hne]; [|by rewrite (proj2 (same_at_enc db db' h (Hsame h Hne)))].
    rewrite lookup_node_enc, Hat by done. rewrite lookup_node_enc in Hl by done.
    destruct (enc_at db h0) as [e'|] eqn:He'; [|congruence]. by apply enc_at_unique in He' as ->.
  - intros h e' He'. destruct (decide (h = h0)) as [->|Hne]; [|by rewrite (proj1 (same_at_enc db db' h (Hsame h Hne)))].
    by apply enc_at_unique in He' as ->.
Qed.

(** Inserting a node or a blob under its hash. *)
Lemma db_insert_ok db e r :
  db_ok db -> Q e -> raw_of r e -> (exists hs, childs (mkCached r 0 0 ∅ 0 0) = Ok hs) ->
  exists db', db_insert (BytesToHash (keccak e)) e (Ok r) db = Ok (tt, db') /\ db_ok db' /\ nodes_le db db' /\
    enc_at db' (BytesToHash (keccak e)) = Some e /\ is_Some (dirties db' !! BytesToHash (keccak e)).
Proof.
  intros Hdb HQ Hr [hs Hhs]. set (h := keccak e). pose proof (cf_zero e HQ) as H0. fold h in H0.
  destruct (dirties db !! BytesToHash h) as [c0|] eqn:Hc0.
  - exists db. unfold db_insert. rewrite (run_bind (gets _) _ db _ db eq_refl), Hc0. split_and!; try done.
    assert (exists e', enc_at db (BytesToHash h) = Some e') as [e' He'].
    { unfold enc_at. destruct (clean_get (BytesToHash h) db); [by eexists|]. rewrite Hc0.
      destruct (db_dirty db Hdb _ _ H0 Hc0) as (e' & -> & _). by eexists. }
    rewrite He'. f_equal. by apply (enc_at_unique db).
  - destruct (db_insert_new (BytesToHash h) e r db hs) as (db1 & Hrun & Ha); [done|apply (db_newest db Hdb)|exact Hhs|].
    exists db1. split; [done|]. destruct (added_ok db db1 e r) as (H1 & H2 & H3); [done..|]. split_and!; try done.
    rewrite <- (fmap_is_Some cn_node). rewrite (ad_dirties _ _ _ _ Ha), decide_True by done. by eexists.
Qed.
Lemma InsertBlob_ok db e :
  db_ok db -> Q e -> exists db', InsertBlob (BytesToHash (keccak e)) e db = Ok (tt, db') /\ db_ok db' /\ nodes_le db db' /\
    enc_at db' (BytesToHash (keccak e)) = Some e.
Proof.
  intros Hdb HQ. destruct (db_insert_ok db e (rawNode e) Hdb HQ) as (db' & Hrun & H1 & H2 & H3 & _); [|by eexists|by exists db'].
  intros c Hc. unfold cached_rlp, cached_obj. by rewrite Hc.
Qed.

Lemma store_node onleaf db c :
  leaf_ok onleaf -> db_ok db -> coll c -> Q (rlp_of (collapsed_item c)) ->
  let h := keccak (rlp_of (collapsed_item c)) in
  exists db', (db_insert (BytesToHash h) (rlp_of (collapsed_item c)) (simplifyNode c);;
               for_each (fun v => onleaf v (BytesToHash h)) (leaf_values c)) db = Ok (tt, db') /\
    db_ok db' /\ nodes_le db db' /\ forall gen, lookup_node db' (BytesToHash h) gen = Ok (expanded (Some h) gen c).
Proof.
  intros Hlf Hdb Hc HQ h. set (e := rlp_of (collapsed_item c)) in *. pose proof (cf_zero e HQ) as H0. fold h in H0.
  destruct (proj1 coll_kept c Hc) as (r & Hr). pose proof (proj1 Hr) as Hsimp. rewrite Hsimp.
  destruct (db_insert_ok db e r Hdb HQ) as (db1 & Hrun & Hdb1 & Hle1 & Hat & Hin).
  { intros c0. by apply (kept_cached c r). }
  { destruct (simplified_children c r Hsimp) as [hs Hhs]. destruct Hr as (_ & _ & _ & Hr). unfold childs. cbn [cn_node cn_children].
    destruct r; try done; rewrite Hhs; by eexists. }
  destruct (for_each_leaf onleaf (BytesToHash h) (leaf_values c) db1 Hlf Hin) as (db2 & Hrun2 & Hs).
  destruct (same_content_ok db1 db2 Hs Hdb1) as [Hdb2 Hle2]. exists db2. rewrite (run_bind _ _ _ _ _ Hrun).
  split; [done|]. split; [done|]. split; [by etransitivity|]. intros gen.
  apply (le_lookup _ _ Hle2); [|destruct Hc; done]. rewrite lookup_node_enc by done. fold h in Hat. rewrite Hat.
  rewrite Bytes_BytesToHash by apply keccak_hash_ok. by apply mustDecode_coll.
Qed.
End database.
