(* ===== verification/TrieStore.v ===== *)
(** * The nodes in memory: the flush-list and the references

    What [trie/database.go] maintains about the nodes that are not on disk. The
    nodes form a list from the oldest to the newest; what a node needs is
    before it in the list or on disk, so that the nodes can be written from the
    oldest on; and what is on disk needs nothing that is not. *)

From stdpp Require Import gmap.
From S2P Require Import Prelude CommonMath Rlp RlpSpec StateIface TrieKey TrieNode Trie TrieSpec TrieProps TrieDatabase Hasher TrieCodec HasherProps DatabaseProps.
Local Open Scope Z_scope.
#[local] Arguments Hash_Bytes _ : simpl never.

(** ** The flush-list *)

Implicit Types (m : gmap Hash cachedNode) (h : Hash) (l : list Hash) (c : cachedNode).

(** The nodes of [l] are linked, after [prev] and before [next]. *)
Fixpoint seg m (prev : option Hash) l (next : Hash) : Prop :=
  match l with
  | [] => True
  | h :: l' =>
      (exists c, m !! h = Some c /\ cn_flushNext c = default next (head l') /\ (forall p, prev = Some p -> cn_flushPrev c = p)) /\
      seg m (Some h) l' next
  end.
Lemma seg_app m prev l1 l2 next :
  seg m prev (l1 ++ l2) next <->
  seg m prev l1 (default next (head l2)) /\ seg m (match last l1 with Some p => Some p | None => prev end) l2 next.
Proof.
  revert prev. induction l1 as [|h l1 IH]; intros prev; [by cbn; tauto|]. cbn [app seg]. rewrite IH.
  assert (head (l1 ++ l2) = match head l1 with Some x => Some x | None => head l2 end) as -> by (by destruct l1).
  assert (last (h :: l1) = match last l1 with Some p => Some p | None => Some h end) as -> by (destruct l1 as [|x l1]; [done|]; rewrite last_cons_cons; by destruct (last (x :: l1)) eqn:E; [|apply last_None in E]).
  destruct (head l1), (last l1); cbn; tauto.
Qed.
(** Only the links count. *)
Lemma seg_same m m' prev l next :
  (forall h c, h ∈ l -> m !! h = Some c -> exists c', m' !! h = Some c' /\ cn_flushNext c' = cn_flushNext c /\ cn_flushPrev c' = cn_flushPrev c) ->
  seg m prev l next -> seg m' prev l next.
Proof.
  revert prev. induction l as [|h l IH]; intros prev Hs; [done|]. intros [(c & Hc & Hn & Hp) Hl]. split.
  - destruct (Hs h c) as (c' & Hc' & Hn' & Hp'); [left|done|]. exists c'. by rewrite Hn', Hp'.
  - apply IH; [|done]. intros h' c' Hin. apply Hs. by right.
Qed.
Lemma seg_prev m prev prev' l next : (forall p, prev' = Some p -> prev = Some p) -> seg m prev l next -> seg m prev' l next.
Proof. destruct l as [|h l]; [done|]. intros Hp [(c & Hc & Hn & Hpr) Hl]. split; [|done]. exists c. split; [done|]. split; [done|]. intros p Hq. by apply Hpr, Hp. Qed.

Record flush_list (db : TrieDB) l : Prop := {
  fl_seg : seg (dirties db) None l 0;
  fl_oldest : oldest db = default 0 (head l);
  fl_newest : l <> [] -> last l = Some (newest db);
}.

(** Two databases that differ in the links only. *)
Definition content c : raw * Z * Z * gmap Hash Z := (cn_node c, cn_size c, cn_parents c, cn_children c).
Record same_nodes (db db' : TrieDB) : Prop := {
  sn_disk : diskdb db' = diskdb db;
  sn_cleans : cleans db' = cleans db;
  sn_preimages : preimages db' = preimages db;
  sn_dirties h : content <$> dirties db' !! h = content <$> dirties db !! h;
}.
#[export] Instance same_nodes_pre : PreOrder same_nodes.
Proof. split; [done|]. intros a b c [H1 H2 H3 H4] [K1 K2 K3 K4]. split; [congruence..|]. intros h. by rewrite K4, H4. Qed.
Lemma same_nodes_Some db db' h c : same_nodes db db' -> dirties db !! h = Some c -> exists c', dirties db' !! h = Some c' /\ content c' = content c.
Proof. intros Hs Hc. pose proof (sn_dirties _ _ Hs h) as Heq. rewrite Hc in Heq. by apply fmap_Some in Heq as (c' & Hc' & Heq); exists c'. Qed.

(** A link that is written. *)
Lemma update_link h g db :
  (forall c, content (g c) = content c) -> is_Some (dirties db !! h) ->
  exists c, dirties db !! h = Some c /\ update_cached h g db = Ok (tt, db_dirties <[h := g c]> db) /\ same_nodes db (db_dirties <[h := g c]> db).
Proof.
  intros Hg [c Hc]. exists c. split; [done|]. split; [unfold update_cached; by rewrite (run_bind (gets _) _ db _ db eq_refl), Hc|].
  split; try done. intros h'. cbn. destruct (decide (h' = h)) as [->|Hne]; [rewrite lookup_insert_eq, Hc; cbn; by rewrite Hg|by rewrite lookup_insert_ne].
Qed.
(** A link of a node outside the list. *)
Lemma seg_insert m h c prev l next : h ∉ l -> seg m prev l next -> seg (<[h := c]> m) prev l next.
Proof. intros Hh. apply seg_same. intros h' c' Hin Hc'. exists c'. rewrite lookup_insert_ne by (by intros ->). done. Qed.

Lemma seg_insert_head m h c prev l next :
  h ∉ l -> cn_flushNext c = default next (head l) -> (forall p, prev = Some p -> cn_flushPrev c = p) -> seg m (Some h) l next ->
  seg (<[h := c]> m) prev (h :: l) next.
Proof. intros Hh Hn Hp Hl. split; [exists c; by rewrite lookup_insert_eq|by apply seg_insert]. Qed.

(** The node is taken out of the list and stays in memory. *)
Section unlink.
Context (db : TrieDB) (h : Hash) (c : cachedNode) (Hmeta : is_Some (dirties db !! 0)) (Hc : dirties db !! h = Some c).
Definition unlinked l : Prop := exists db', unlink h c db = Ok (tt, db') /\ same_nodes db db' /\ flush_list db' l.

Lemma unlink_oldest l : flush_list db (h :: l) -> NoDup (h :: l) -> unlinked l.
Proof.
  intros [[(c' & Hc' & Hnext & _) Hs] Hold Hnew] [Hh Hnd]%NoDup_cons. rewrite Hc in Hc'. injection Hc' as <-. unfold unlinked, unlink.
  rewrite (run_bind (gets id) _ db _ db eq_refl). cbn [id]. rewrite (proj2 (Z.eqb_eq _ _)) by done.
  rewrite (run_bind (modify _) _ _ _ _ eq_refl). destruct (update_link (cn_flushNext c) (cn_with_prev 0) (db_oldest (cn_flushNext c) db)) as (c2 & Hc2 & Hrun & Hsame); [done| |].
  { rewrite Hnext. destruct l as [|x l]; [done|]. destruct Hs as [(cx & Hx & _) _]. by exists cx. }
  eexists. split; [exact Hrun|]. split; [by destruct Hsame|]. split.
  - destruct l as [|x l]; [done|]. cbn in Hnext. rewrite Hnext in *. apply NoDup_cons in Hnd as [Hx _]. cbn in Hc2.
    destruct Hs as [(cx & Hcx & Hnx & _) Hs]. rewrite Hcx in Hc2. injection Hc2 as <-. by apply seg_insert_head.
  - cbn. by rewrite Hnext.
  - intros Hl. cbn. rewrite <- Hnew by done. destruct l as [|x l]; [done|]. by rewrite last_cons_cons.
Qed.
Lemma unlink_newest l p : flush_list db (l ++ [p; h]) -> NoDup (l ++ [p; h]) -> unlinked (l ++ [p]).
Proof.
  intros [Hseg Hold Hnew] Hnd. pose proof Hseg as Hseg'. apply seg_app in Hseg as [Hs1 [(cp & Hcp & Hnp & Hpp) [(c' & Hc' & Hnext & Hprev) _]]].
  rewrite Hc in Hc'. injection Hc' as <-. specialize (Hprev p eq_refl). apply NoDup_app in Hnd as (Hndl & Hdis & Hnd).
  apply NoDup_cons in Hnd as [Hph _]. assert (p <> h) as Hne by (intros ->; apply Hph; left). assert (h ∉ l) as Hhl by (intros Hin; apply (Hdis h Hin); right; left).
  assert (p ∉ l) as Hpl by (intros Hin; apply (Hdis p Hin); left).
  assert (newest db = h) as Hn by (specialize (Hnew ltac:(by destruct l)); rewrite last_app in Hnew; cbn in Hnew; congruence).
  assert (oldest db <> h) as Ho by (rewrite Hold; destruct l as [|x l]; [done|]; cbn; intros ->; apply Hhl; left).
  unfold unlinked, unlink. rewrite (run_bind (gets id) _ db _ db eq_refl). cbn [id].
  rewrite (proj2 (Z.eqb_neq _ _)), (proj2 (Z.eqb_eq _ _)) by done. rewrite (run_bind (modify _) _ _ _ _ eq_refl), Hprev.
  destruct (update_link p (cn_with_next 0) (db_newest_to p db)) as (c2 & Hc2 & Hrun & Hsame); [done|by exists cp|]. cbn in Hc2. rewrite Hcp in Hc2. injection Hc2 as <-.
  eexists. split; [exact Hrun|]. split; [by destruct Hsame|]. split.
  - apply seg_app. cbn [head default from_option id] in *. split; [by apply seg_insert|]. apply seg_insert_head; [apply not_elem_of_nil|done| |done].
    intros q Hq. apply Hpp. exact Hq.
  - cbn. rewrite Hold. by destruct l.
  - intros _. by rewrite last_snoc.
Qed.
Lemma unlink_middle l p x l' : flush_list db (l ++ p :: h :: x :: l') -> NoDup (l ++ p :: h :: x :: l') -> unlinked (l ++ p :: x :: l').
Proof.
  intros [Hseg Hold Hnew] Hnd. apply seg_app in Hseg as [Hs1 [(cp & Hcp & Hnp & Hpp) [(c' & Hc' & Hnext & Hprev) [(cx & Hcx & Hnx & Hpx) Hs2]]]].
  rewrite Hc in Hc'. injection Hc' as <-. specialize (Hprev p eq_refl). cbn in Hnext, Hnp. apply NoDup_app in Hnd as (Hndl & Hdis & Hnd).
  rewrite !NoDup_cons, !not_elem_of_cons in Hnd. destruct Hnd as ((Hph & Hpx' & Hpl') & (Hhx & Hhl') & Hxl' & Hndl').
  assert (h ∉ l) as Hhl by (intros Hin; apply (Hdis h Hin); right; left). assert (p ∉ l) as Hpl by (intros Hin; apply (Hdis p Hin); left).
  assert (x ∉ l) as Hxl by (intros Hin; apply (Hdis x Hin); right; right; left).
  assert (newest db <> h) as Hn.
  { specialize (Hnew ltac:(by destruct l)). rewrite last_app in Hnew. change (last (p :: h :: x :: l')) with (last (x :: l')) in Hnew.
    destruct (last (x :: l')) as [y|] eqn:Hy; [|by apply last_None in Hy]. injection Hnew as <-. apply last_Some_elem_of in Hy. intros ->.
    apply elem_of_cons in Hy as [?|?]; done. }
  assert (oldest db <> h) as Ho by (rewrite Hold; destruct l as [|y l]; [done|]; cbn; intros ->; apply Hhl; left).
  unfold unlinked, unlink. rewrite (run_bind (gets id) _ db _ db eq_refl). cbn [id]. rewrite !(proj2 (Z.eqb_neq _ _)) by done. rewrite Hprev, Hnext.
  destruct (update_link p (cn_with_next x) db) as (c2 & Hc2 & Hrun & Hsame); [done|by exists cp|]. rewrite Hcp in Hc2. injection Hc2 as <-.
  rewrite (run_bind _ _ _ _ _ Hrun). set (db1 := db_dirties <[p := cn_with_next x cp]> db) in *.
  assert (dirties db1 !! x = Some cx) as Hcx1 by (cbn; by rewrite lookup_insert_ne).
  destruct (update_link x (cn_with_prev p) db1) as (c3 & Hc3 & Hrun' & Hsame'); [done|by exists cx|]. rewrite Hcx1 in Hc3. injection Hc3 as <-.
  exists (db_dirties <[x := cn_with_prev p cx]> db1). split; [exact Hrun'|]. split; [by etransitivity|]. split.
  - apply seg_app. cbn [head default from_option id] in *. split; [by do 2 (apply seg_insert; [done|])|]. cbn [dirties db_dirties db1].
    rewrite insert_insert_ne by done. apply seg_insert_head; [by apply not_elem_of_cons|done|done|]. apply seg_insert_head; [done..|by intros q [= <-]|done].
  - cbn. rewrite Hold. by destruct l.
  - intros _. specialize (Hnew ltac:(by destruct l)). rewrite last_app in *. change (last (p :: h :: x :: l')) with (last (x :: l')) in Hnew.
    change (last (p :: x :: l')) with (last (x :: l')). exact Hnew.
Qed.
Lemma unlink_ok l1 l2 : flush_list db (l1 ++ h :: l2) -> NoDup (l1 ++ h :: l2) -> unlinked (l1 ++ l2).
Proof.
  destruct (last l1) as [p|] eqn:Hp; [apply last_Some in Hp as [l ->]|apply last_None in Hp as ->; apply unlink_oldest]. rewrite <- !app_assoc.
  destruct l2 as [|x l2]; [apply unlink_newest|apply unlink_middle].
Qed.
End unlink.

(** ** Nodes and what they need *)

(** The hashes within a node. *)
Fixpoint kids (n : node) : list Hash :=
  match n with
  | shortNode _ c _ => kids c
  | fullNode cs _ => concat (take 16 (map kids cs))
  | hashNode h => [BytesToHash h]
  | _ => []
  end.
Section raw_induction.
Context (P : raw -> Prop) (Hnil : P rawNil) (Hblob : forall b, P (rawNode b)) (Hfull : forall cs, Forall P cs -> P (rawFullNode cs)).
Context (Hshort : forall k r, P r -> P (rawShortNode k r)) (Hhash : forall x, P (rawHashNode x)) (Hvalue : forall v, P (rawValueNode v)).
Fixpoint raw_ind2 (r : raw) : P r :=
  match r with
  | rawNil => Hnil
  | rawNode b => Hblob b
  | rawFullNode cs => Hfull cs ((fix go (cs : list raw) : Forall P cs :=
      match cs with [] => Forall_nil_2 P | c :: cs' => Forall_cons_2 P c cs' (raw_ind2 c) (go cs') end) cs)
  | rawShortNode k r => Hshort k r (raw_ind2 r)
  | rawHashNode x => Hhash x
  | rawValueNode v => Hvalue v
  end.
End raw_induction.
Lemma expand_kids r : forall hash gen n, expandNode hash r gen = Ok n -> gatherChildren r = Ok (kids n).
Proof.
  revert r. apply (raw_ind2 (fun r => forall hash gen n, expandNode hash r gen = Ok n -> gatherChildren r = Ok (kids n))); try done.
  - intros cs IH hash gen n. cbn [expandNode gatherChildren]. destruct (mapM _ cs) as [ns| |] eqn:Hm; try done. intros [= <-]. apply mapM_outcome_inv in Hm.
    assert (mapM gatherChildren cs = Ok (map kids ns)) as ->; [|done]. induction Hm as [|r n cs ns Hn _ IHm]; [done|]. apply Forall_cons in IH as [Hr IH].
    cbn. assert (gatherChildren r = Ok (kids n)) as -> by (destruct r; cbv beta iota in Hn; [by injection Hn as <-|by apply (Hr None gen)..]).
    cbn. by rewrite (IHm IH).
  - intros k r IH hash gen n. cbn [expandNode gatherChildren]. destruct (expandNode None r gen) as [c| |] eqn:Hc; try done. intros [= <-].
    exact (IH None gen c Hc).
  - by intros x hash gen n [= <-].
  - by intros v hash gen n [= <-].
Qed.

Definition on_disk (db : TrieDB) h : Prop := is_Some (diskdb db !! Hash_Bytes h).
(** The references of a node in memory. *)
Definition refs_at (db : TrieDB) h : list Hash := match childs <$> dirties db !! h with Some (Ok hs) => hs | _ => [] end.
Lemma childs_content c c' : content c' = content c -> childs c' = childs c.
Proof. destruct c, c'. unfold content, childs. cbn. by intros [= -> _ _ ->]. Qed.

Section store.
(** What has to be there for a node to be of use: the nodes whose hashes it has,
    and whatever else a caller refers to. *)
Context (needs : Hash -> Hash -> Prop) (needs_hash : forall h k, needs h k -> is_hash k /\ k <> 0).

(** The nodes [D] are about to be removed: they are no longer in the list [L]. *)
Record store_inv (db : TrieDB) (L D : list Hash) : Prop := {
  st_dom h : is_Some (dirties db !! h) <-> h = 0 \/ h ∈ L ++ D;
  st_nodup : NoDup (L ++ D);
  st_keys h : h ∈ L ++ D -> is_hash h /\ h <> 0;
  st_list : flush_list db L;
  st_childs h : h ∈ L -> childs <$> dirties db !! h = Some (Ok (refs_at db h));
  st_refs h k : h ∈ L -> k ∈ refs_at db h -> needs h k;
  st_order l1 h l2 k : L = l1 ++ h :: l2 -> k ∈ refs_at db h -> k ∈ l1 \/ on_disk db k;
  st_cover h k : h ∈ L -> needs h k -> k ∈ refs_at db h \/ on_disk db k;
  st_disk h k : is_hash h -> on_disk db h -> needs h k -> on_disk db k;
  st_clean h e : clean_get h db = Some e -> diskdb db !! Hash_Bytes h = Some e;
}.

(** What is in memory or on disk has all that it needs. *)
Definition has (db : TrieDB) h : Prop := h <> 0 /\ is_Some (dirties db !! h) \/ on_disk db h.
Lemma store_closed db L h k : store_inv db L [] -> is_hash h -> has db h -> needs h k -> has db k.
Proof.
  intros Hst Hh [[H0 Hd]|Hd] Hn; [|right; by eapply st_disk]. apply (st_dom db L [] Hst) in Hd as [?|Hd]; [done|]. rewrite app_nil_r in Hd.
  destruct (st_cover db L [] Hst h k Hd Hn) as [Hr|Hr]; [|by right].
  apply list_elem_of_split in Hd as (l1 & l2 & Hl). destruct (st_order db L [] Hst l1 h l2 k Hl Hr) as [Hk|Hk]; [|by right].
  left. split; [by apply (needs_hash h)|]. apply (st_dom db L [] Hst). right. rewrite Hl, app_nil_r. apply elem_of_app. by left.
Qed.

(** The links and the counters do not matter, nor the references of the nodes
    that are about to be removed. *)
Record similar (db db' : TrieDB) (L : list Hash) : Prop := {
  sm_disk : diskdb db' = diskdb db;
  sm_cleans : cleans db' = cleans db;
  sm_dom h : is_Some (dirties db' !! h) <-> is_Some (dirties db !! h);
  sm_childs h : h ∈ L -> childs <$> dirties db' !! h = childs <$> dirties db !! h;
}.
Lemma same_nodes_similar db db' L : same_nodes db db' -> similar db db' L.
Proof.
  intros Hs. split; [apply Hs|apply Hs|intros h; by rewrite <- (fmap_is_Some content), (sn_dirties _ _ Hs), fmap_is_Some|].
  intros h _. pose proof (sn_dirties _ _ Hs h) as Heq. destruct (dirties db' !! h), (dirties db !! h); try done. apply (inj Some) in Heq.
  by apply (f_equal Some), childs_content.
Qed.
Lemma store_change db db' L D L' D' :
  store_inv db L D -> similar db db' L' -> flush_list db' L' -> L' ++ D' ≡ₚ L ++ D ->
  (forall l1' x l2', L' = l1' ++ x :: l2' -> exists l1 l2, L = l1 ++ x :: l2 /\ forall k, k ∈ l1 -> k ∈ refs_at db x -> k ∈ l1' \/ on_disk db k) ->
  store_inv db' L' D'.
Proof.
  intros Hst [Hd Hcl Hdom Hch] Hfl Hp Hord.
  assert (forall x, on_disk db' x <-> on_disk db x) as Hdisk by (intros x; unfold on_disk; by rewrite Hd).
  assert (forall x, x ∈ L' -> x ∈ L /\ refs_at db' x = refs_at db x) as Hin.
  { intros x Hx. unfold refs_at. rewrite Hch by done. split; [|done]. apply list_elem_of_split in Hx as (l1' & l2' & HL').
    destruct (Hord l1' x l2' HL') as (l1 & l2 & -> & _). apply elem_of_app. right. left. }
  split.
  - intros x. by rewrite Hdom, (st_dom db L D Hst), Hp.
  - rewrite Hp. apply (st_nodup db L D Hst).
  - intros x. rewrite Hp. apply (st_keys db L D Hst).
  - done.
  - intros x Hx. destruct (Hin x Hx) as [HxL ->]. rewrite Hch by done. by apply (st_childs db L D Hst).
  - intros x k Hx. destruct (Hin x Hx) as [HxL ->]. by apply (st_refs db L D Hst).
  - intros l1' x l2' k HL'. rewrite Hdisk. destruct (Hin x) as [_ ->]; [rewrite HL'; apply elem_of_app; right; left|]. intros Hk.
    destruct (Hord l1' x l2' HL') as (l1 & l2 & HL & Hall). destruct (st_order db L D Hst l1 x l2 k HL Hk) as [Hkl|]; [|by right]. by apply Hall.
  - intros x k Hx. rewrite Hdisk. destruct (Hin x Hx) as [HxL ->]. by apply (st_cover db L D Hst).
  - intros x k. rewrite !Hdisk. apply (st_disk db L D Hst).
  - intros x e. unfold clean_get. rewrite Hcl, Hd. apply (st_clean db L D Hst).
Qed.
Lemma store_similar db db' L D : store_inv db L D -> similar db db' L -> flush_list db' L -> store_inv db' L D.
Proof. intros Hst Hs Hfl. apply (store_change db db' L D); try done. intros l1 x l2 ->. exists l1, l2. split; [done|]. by left. Qed.
(** A node is taken out of the list, if no other refers to it in memory. *)
Lemma store_unlink db db' l1 h l2 D :
  store_inv db (l1 ++ h :: l2) D -> same_nodes db db' -> flush_list db' (l1 ++ l2) ->
  (on_disk db h \/ forall x, x ∈ l1 ++ l2 -> h ∉ refs_at db x) -> store_inv db' (l1 ++ l2) (h :: D).
Proof.
  intros Hst Hs Hfl Hno. apply (store_change db db' (l1 ++ h :: l2) D); [done|by apply same_nodes_similar|done|rewrite <- !app_assoc; solve_Permutation|].
  intros k1 x k2 HL. assert (x ∈ l1 ++ l2) as Hx by (rewrite HL; apply elem_of_app; right; left).
  assert (forall k, k = h -> k ∈ refs_at db x -> on_disk db k) as Hhk by (intros k -> Hk; destruct Hno as [|Hno]; [done|]; by apply Hno in Hk).
  destruct (app_eq_inv _ _ _ _ HL) as [(r & -> & Hr)|(r & -> & Hr)]; [destruct r as [|y r]|].
  - cbn in Hr. subst l2. rewrite app_nil_r. exists (k1 ++ [h]), k2. split; [by rewrite <- app_assoc|]. intros k Hk Hkr.
    apply elem_of_app in Hk as [?|?%list_elem_of_singleton]; [by left|]. right. by apply Hhk.
  - injection Hr as <- ->. exists k1, (r ++ h :: l2). split; [by rewrite <- app_assoc|]. by left.
  - subst l2. exists (l1 ++ h :: r), k2. split; [by rewrite <- app_assoc|]. intros k Hk Hkr.
    apply elem_of_app in Hk as [?|[?|?]%elem_of_cons]; [left; apply elem_of_app; by left|right; by apply Hhk|left; apply elem_of_app; by right].
Qed.
(** A node that is not in the list is removed. *)
Definition removed h c (db : TrieDB) : TrieDB := db_size (- (32 + cn_size c)) (db_dirties (base.delete h) db).
Lemma store_remove db h c L D : store_inv db L (h :: D) -> remove_node h c db = Ok (tt, removed h c db) /\ store_inv (removed h c db) L D.
Proof.
  intros Hst. split; [done|]. pose proof (st_nodup db L _ Hst) as Hnd. rewrite <- Permutation_middle in Hnd. apply NoDup_cons in Hnd as [Hh Hnd].
  assert (h <> 0) as H0 by (apply (st_keys db L _ Hst), elem_of_app; right; left).
  assert (forall x, x ∈ L -> base.delete h (dirties db) !! x = dirties db !! x) as Hsame.
  { intros x Hx. apply lookup_delete_ne. intros ->. apply Hh, elem_of_app. by left. }
  assert (forall x, x ∈ L -> refs_at (removed h c db) x = refs_at db x) as Hrefs by (intros x Hx; unfold refs_at; cbn; by rewrite Hsame).
  split.
  - intros x. cbn. destruct (decide (x = h)) as [->|Hne].
    + rewrite lookup_delete_eq. split; [by intros []|]. by intros [?|?].
    + rewrite lookup_delete_ne by done. rewrite (st_dom db L _ Hst), !elem_of_app, elem_of_cons. tauto.
  - done.
  - intros x Hx. apply (st_keys db L _ Hst). apply elem_of_app in Hx as [?|?]; apply elem_of_app; [by left|right; by right].
  - destruct (st_list db L _ Hst) as [Hs Ho Hn]. split; [|done..]. apply (seg_same (dirties db)); [|done]. intros x c' Hx Hc'. exists c'. split; [|done].
    cbn. by rewrite Hsame.
  - intros x Hx. rewrite Hrefs by done. cbn. rewrite Hsame by done. by apply (st_childs db L _ Hst).
  - intros x k Hx. rewrite Hrefs by done. by apply (st_refs db L _ Hst).
  - intros l1 x l2 k HL. rewrite Hrefs by (rewrite HL; apply elem_of_app; right; left). by apply (st_order db L _ Hst l1 x l2).
  - intros x k Hx. rewrite Hrefs by done. by apply (st_cover db L _ Hst).
  - apply (st_disk db L _ Hst).
  - apply (st_clean db L _ Hst).
Qed.
End store.
