(* ===== verification/TrieCommit.v ===== *)
(** * Roots of tries

    The hash of a trie is a function of its contents, and a trie that is
    committed can be opened again under its hash. *)

From stdpp Require Import gmap.
From S2P Require Import Prelude CommonMath Rlp RlpSpec StateIface ConcreteCrypto TrieKey TrieNode Trie TrieSpec TrieProps TrieDatabase Hasher TrieCodec HasherProps DatabaseProps.
Local Open Scope Z_scope.
#[local] Arguments Hash_Bytes _ : simpl never.

Lemma spreads_bounded f F : spreads f F -> bounded F.
Proof.
  intros [_ HF] key Hk. destruct (HF key Hk) as (k & [_ Hl] & ->). rewrite keybytesToHex_eq, zlen_app. unfold zlen in *. rewrite length_to_nibbles. cbn. lia.
Qed.
Lemma all_encs_True `{Crypto} n : all_encs (fun _ => True) n.
Proof.
  revert n. apply node_ind2; try done. intros cs f IH. split; [done|]. induction IH as [|c cs Hc _ IH]; [done|by split].
Qed.

Section hash.
Context `{Crypto} {CL : CryptoLaws}.

(** The hash a trie with this root has. *)
Definition root_hash (n : node) : Hash := match n with nilNode => emptyRoot | _ => BytesToHash (node_hash n) end.

Lemma root_hash_node n : n <> nilNode -> root_hash n = BytesToHash (node_hash n).
Proof. by destruct n. Qed.

Section nodb.
Context (db_node : Hash -> Z -> outcome node).
Context (Inv : bool -> nodeFlag -> (bytes -> bytes) -> Prop) {FI : FlagInv Inv}.
Lemma hash_without_db gen limit n db K F :
  node_ok db_node Inv true K n F -> K <> KValue -> bounded F ->
  exists cached, hash gen limit no_leaf false n true db = Ok (hashNode (node_hash n), cached, db) /\ node_ok db_node Inv true K cached F.
Proof.
  intros Hn HK Hb.
  destruct (hash_node gen limit no_leaf false (fun _ => db_node) (fun _ => Inv) (fun _ => True) eq (fun _ => True)
    ltac:(by intros ? ? ? ? ? ? <-) ltac:(by intros ? ? ? ? ? ? <-) ltac:(done) ltac:(done) ltac:(done) ltac:(done)
    n db true K F Logic.I Hn HK Hb (all_encs_True n)) as (hashed & cached & db' & Hrun & _ & <- & Hok & Hl & _).
  cbn in Hl. subst hashed. by exists cached.
Qed.
Lemma TrieHash_ok t f db :
  trie_map db_node Inv t f -> exists t', TrieHash t db = Ok (root_hash (root_node t), t', db) /\ trie_map db_node Inv t' f.
Proof.
  intros (F & [[Hn Hall]|(K & HK & Hn)] & Hs).
  - exists (set_root nilNode t). split; [|exists F; split; [by left|done]]. unfold TrieHash, hashRoot. rewrite Hn.
    change (Ok (BytesToHash (Hash_Bytes emptyRoot), set_root nilNode t, db) = Ok (emptyRoot, set_root nilNode t, db)). by rewrite BytesToHash_Bytes.
  - pose proof (spreads_bounded f F Hs) as Hb. 
    destruct (hash_without_db (cachegen t) (cachelimit t) (root_node t) db K F Hn HK Hb) as (cached & Hrun & Hok).
    exists (set_root cached t). split; [|exists F; split; [right; by exists K|done]]. apply node_ok_not_nil in Hn.
    unfold TrieHash, hashRoot, root_hash. destruct (root_node t); [done|..]; by rewrite (run_bind _ _ _ _ _ Hrun).
Qed.
End nodb.

Lemma root_hash_unique db_node db_node' Inv Inv' t t' f f' :
  trie_map db_node Inv t f -> trie_map db_node' Inv' t' f' -> (forall k, key_ok k -> f k = f' k) ->
  root_hash (root_node t) = root_hash (root_node t').
Proof.
  intros (F & Hr & Hs) (F' & Hr' & Hs') Heq. destruct (root_unique _ _ _ _ _ _ _ _ Hr Hr' (spreads_unique f F f' F' Hs Hs' Heq)) as [Hnil Hh].
  destruct (decide (root_node t = nilNode)) as [Hn|Hn].
  - by rewrite Hn, (proj1 Hnil Hn).
  - rewrite (root_hash_node _ Hn), (root_hash_node (root_node t')), Hh; [done..|]. by rewrite <- Hnil.
Qed.

(** C5. The hash of a trie is a function of the keys and values in it: two tries
    with the same contents have the same hash, in whatever order they were
    built, whatever of them is in memory and whatever databases they are on.
    Hashing ends and leaves the contents as they are. *)
Theorem hash_of_contents db_node db_node' Inv Inv' t t' f f' :
  FlagInv Inv -> FlagInv Inv' -> trie_map db_node Inv t f -> trie_map db_node' Inv' t' f' -> (forall k, key_ok k -> f k = f' k) ->
  forall db db', exists h t1 t1',
    TrieHash t db = Ok (h, t1, db) /\ trie_map db_node Inv t1 f /\ TrieHash t' db' = Ok (h, t1', db') /\ trie_map db_node' Inv' t1' f'.
Proof.
  intros FI FI' Ht Ht' Heq db db'. destruct (TrieHash_ok db_node Inv t f db Ht) as (t1 & H1 & Hok1).
  destruct (TrieHash_ok db_node' Inv' t' f' db' Ht') as (t1' & H1' & Hok1').
  rewrite <- (root_hash_unique _ _ _ _ t t' f f' Ht Ht') in H1' by done. by eexists _, t1, t1'.
Qed.

(** ** Committing *)

(** What the hasher needs of a database: [valid] databases take the nodes of a
    trie, bottom up, and change only as [le] allows. *)
Class Stores (Q : bytes -> Prop) (onleaf : bytes -> Hash -> M TrieDB unit) (valid : TrieDB -> Prop) (le : TrieDB -> TrieDB -> Prop) : Prop := {
  stores_pre :: PreOrder le;
  stores_ok db : valid db -> db_ok Q db;
  stores_le db db' : le db db' -> nodes_le db db';
  stores_node db c : valid db -> coll c -> Q (rlp_of (collapsed_item c)) ->
    let h := keccak (rlp_of (collapsed_item c)) in
    (exists fo K f, forall gen, node_ok (lookup_node db) any_flag fo K (expanded (Some h) gen c) f) ->
    exists db', (db_insert (BytesToHash h) (rlp_of (collapsed_item c)) (simplifyNode c);;
                 for_each (fun v => onleaf v (BytesToHash h)) (leaf_values c)) db = Ok (tt, db') /\
      valid db' /\ le db db' /\ forall gen, lookup_node db' (BytesToHash h) gen = Ok (expanded (Some h) gen c);
}.
Lemma db_stores (Q : bytes -> Prop) {CF : CollisionFree Q} onleaf : leaf_ok onleaf -> Stores Q onleaf (db_ok Q) nodes_le.
Proof. intros Hl. split; [apply _|done|done|]. intros db c Hdb Hc HQ h _. by apply store_node. Qed.

Section commit.
Context (Q : bytes -> Prop) {CF : CollisionFree Q}.
Abbreviation on db := (trie_map (lookup_node db) (clean_inv db)).

Lemma hash_with_db {onleaf valid le} {SN : Stores Q onleaf valid le} gen limit n db K F :
  valid db -> node_ok (lookup_node db) (clean_inv db) true K n F -> K <> KValue -> bounded F -> all_encs Q n ->
  exists cached db', hash gen limit onleaf true n true db = Ok (hashNode (node_hash n), cached, db') /\ valid db' /\ le db db' /\
    node_ok (lookup_node db') (clean_inv db') true K cached F /\ node_ok (lookup_node db') any_flag true K (hashNode (node_hash n)) F.
Proof.
  intros Hdb Hn HK Hb HQ.
  destruct (hash_node gen limit onleaf true lookup_node clean_inv valid le Q
    ltac:(intros d d' fo K0 m f Hle; by apply nodes_le_ok, stores_le) ltac:(intros d d' fo K0 m f Hle; by apply nodes_le_any, stores_le)
    ltac:(intros _ db0 fo fl f h Hi Hd Hh; by apply (Hi h)) ltac:(intros _ db0 fo K0 g f h Hok h' _ [= <-]; by exists K0)
    ltac:(by intros _ db0 fo g f h) ltac:(intros _ db0 c; apply stores_node)
    n db true K F Hdb Hn HK Hb HQ) as (hashed & cached & db' & Hrun & Hdb' & Hle & Hok & Hl & Hre).
  cbn in Hl. subst hashed. exists cached, db'. split_and!; try done. by apply (Hre eq_refl 0).
Qed.
Lemma on_le db db' t f : nodes_le db db' -> on db t f -> on db' t f.
Proof.
  intros Hle (F & Hr & Hs). exists F. split; [|done]. destruct Hr as [Hr|(K & HK & Hn)]; [by left|right]. exists K. split; [done|by apply (nodes_le_ok db)].
Qed.
Lemma stored_hash db h K F {fo} :
  db_ok Q db -> node_ok (lookup_node db) any_flag fo K (hashNode h) F -> hash_ok h /\ BytesToHash h <> 0 /\ BytesToHash h <> emptyRoot.
Proof.
  intros Hdb Hn. inversion Hn as [| | |fo' K' h' m F' Hm Hin _ Hok Hh]; subst.
  assert (hash_ok h) as Hho by (destruct (Hh 0) as [-> _]; apply keccak_hash_ok).
  assert (m 0 <> nilNode) as Hm0 by (specialize (Hin 0); by destruct (m 0)).
  assert (BytesToHash h <> 0) as H0.
  { intros H0. specialize (Hm 0). rewrite H0 in Hm. rewrite lookup_node_cases in Hm. destruct (db_meta Q db Hdb) as [Hc Hd]. rewrite Hc in Hm.
    destruct (dirties db !! 0) as [c|]; [|done]. injection Hd as Hd. unfold cached_obj in Hm. by rewrite Hd in Hm. }
  split; [done|]. split; [done|]. pose proof (Hm 0) as Hl. rewrite (lookup_node_enc Q) in Hl by done.
  destruct (enc_at db (BytesToHash h)) as [e|] eqn:Hat; [|congruence].
  destruct (db_hash Q db Hdb _ _ (is_hash_BytesToHash _ Hho) H0 Hat) as [HQ Hk]. rewrite Bytes_BytesToHash in Hk by done.
  rewrite <- Hk. by apply cf_empty.
Qed.
End commit.

(** ** Stored roots *)

Section stored.
Context (Q : bytes -> Prop) {CF : CollisionFree Q}.
Abbreviation on db := (trie_map (lookup_node db) (clean_inv db)).

(** The database has what the root [n] stands for under the hash of [n]. *)
Definition stored_as db n F : Prop :=
  n = nilNode /\ (forall k, F k = []) \/ n <> nilNode /\ exists K, node_ok (lookup_node db) any_flag true K (hashNode (node_hash n)) F.
Lemma stored_le db db' n F : nodes_le db db' -> stored_as db n F -> stored_as db' n F.
Proof. intros Hle [Hn|(Hn & K & Hk)]; [by left|right]. split; [done|]. exists K. by eapply nodes_le_any. Qed.
Lemma stored_unique db n n' F F' :
  db_ok Q db -> stored_as db n F -> stored_as db n' F' -> root_hash n = root_hash n' -> forall k, F k = F' k.
Proof.
  intros Hdb [[-> Hall]|(Hn & K & Hk)] [[-> Hall']|(Hn' & K' & Hk')] Heq.
  - intros k. by rewrite Hall, Hall'.
  - exfalso. destruct (stored_hash Q db _ _ _ Hdb Hk') as (_ & _ & He). by rewrite (root_hash_node n') in Heq.
  - exfalso. destruct (stored_hash Q db _ _ _ Hdb Hk) as (_ & _ & He). by rewrite (root_hash_node n) in Heq.
  - rewrite !root_hash_node in Heq by done. destruct (stored_hash Q db _ _ _ Hdb Hk) as (Hh & _). destruct (stored_hash Q db _ _ _ Hdb Hk') as (Hh' & _).
    apply (f_equal Hash_Bytes) in Heq. rewrite !Bytes_BytesToHash in Heq by done. rewrite Heq in Hk. by eapply node_map.
Qed.

(** The hash [h] opens a trie with the map [f]. *)
Definition opens db (h : Hash) f : Prop := exists n F, stored_as db n F /\ root_hash n = h /\ spreads f F.
Lemma opens_le db db' h f : nodes_le db db' -> opens db h f -> opens db' h f.
Proof. intros Hle (n & F & Hst & Hh & Hs). exists n, F. split; [by eapply stored_le|done]. Qed.
Lemma opens_New db h f :
  db_ok Q db -> opens db h f -> exists r, Trie_New (lookup_node db) emptyRoot h = Ok (inl (mkTrie r 0 0)) /\ on db (mkTrie r 0 0) f.
Proof.
  intros Hdb (n & F & [[-> Hall]|(Hne & K & Hn)] & <- & Hs).
  - exists None. split; [done|]. exists F. split; [by left|done].
  - rewrite root_hash_node by done. destruct (stored_hash Q db _ K F Hdb Hn) as (Hho & H0 & He). set (h := node_hash n) in *.
    pose proof Hn as Hn'. inversion Hn' as [| | |fo K' h' m F' Hm Hin HK Hok Hh]; subst. exists (Some (m 0)). split.
    + unfold Trie_New. rewrite (proj2 (Z.eqb_neq _ _) H0), (proj2 (Z.eqb_neq _ _) He), Bytes_BytesToHash by done. cbn [negb andb].
      by rewrite (resolveHash_ok _ _ h [] m).
    + exists F. split; [|done]. right. exists K. split; [done|]. by apply (clean_inv_loads Q db Hdb h m).
Qed.

Lemma Commit_ok {onleaf valid le} {SN : Stores Q onleaf valid le} t f db :
  valid db -> on db t f -> all_encs Q (root_node t) ->
  exists t' db', Trie_Commit onleaf t db = Ok (root_hash (root_node t), t', db') /\ valid db' /\ le db db' /\ on db' t' f /\
    opens db' (root_hash (root_node t)) f.
Proof.
  intros Hdb (F & [[Hn Hall]|(K & HK & Hn)] & Hs) HQ.
  - exists (mkTrie (Some nilNode) ((cachegen t + 1) mod 2 ^ 16) (cachelimit t)), db. rewrite Hn.
    split; [|split; [done|]; split; [reflexivity|]; split; [exists F; split; [by left|done]|exists nilNode, F; split; [by left|done]]].
    unfold Trie_Commit, hashRoot. rewrite Hn.
    match goal with |- _ = Ok (_, ?t', _) => change (Ok (BytesToHash (Hash_Bytes emptyRoot), t', db) = Ok (emptyRoot, t', db)) end.
    by rewrite BytesToHash_Bytes.
  - pose proof (spreads_bounded f F Hs) as Hb. pose proof (node_ok_not_nil _ _ _ _ _ _ Hn) as Hnn. rewrite root_hash_node by done.
    destruct (hash_with_db Q (cachegen t) (cachelimit t) (root_node t) db K F Hdb Hn HK Hb HQ) as (cached & db' & Hrun & Hdb' & Hle & Hok & Hload).
    exists (mkTrie (Some cached) ((cachegen t + 1) mod 2 ^ 16) (cachelimit t)), db'.
    split; [unfold Trie_Commit, hashRoot; destruct (root_node t); [done|..]; by rewrite (run_bind _ _ _ _ _ Hrun)|].
    split; [done|]. split; [done|]. split; [exists F; split; [right; by exists K|done]|].
    exists (root_node t), F. split; [right; split; [done|by exists K]|]. by rewrite root_hash_node.
Qed.

Section onleaf.
Context (onleaf : bytes -> Hash -> M TrieDB unit) (Hleaf : leaf_ok onleaf).
(** C7. A commit ends and gives the hash of the contents; the trie keeps its
    contents, and so does every trie on the database. The hash opens, on the new
    database, a trie with these contents. *)
Theorem Commit_reopens t f db :
  db_ok Q db -> on db t f -> all_encs Q (root_node t) ->
  exists h t' db' t'', Trie_Commit onleaf t db = Ok (h, t', db') /\ h = root_hash (root_node t) /\ on db' t' f /\
    db_ok Q db' /\ (forall t0 f0, on db t0 f0 -> on db' t0 f0) /\
    Trie_New (lookup_node db') emptyRoot h = Ok (inl t'') /\ on db' t'' f.
Proof.
  intros Hdb Ht HQ. destruct (Commit_ok (SN := db_stores Q onleaf Hleaf) t f db Hdb Ht HQ) as (t' & db' & Hrun & Hdb' & Hle & Hon & Hopen).
  destruct (opens_New db' _ f Hdb' Hopen) as (r & Hnew & Hr). exists (root_hash (root_node t)), t', db', (mkTrie r 0 0).
  split_and!; try done. intros t0 f0. by apply on_le.
Qed.
End onleaf.

Lemma root_stored t f db :
  db_ok Q db -> on db t f -> all_encs Q (root_node t) -> exists db', db_ok Q db' /\ nodes_le db db' /\ opens db' (root_hash (root_node t)) f.
Proof.
  intros Hdb Ht HQ. destruct (Commit_ok (SN := db_stores Q no_leaf no_leaf_ok) t f db Hdb Ht HQ) as (t' & db' & _ & Hdb' & Hle & _ & Ho). by exists db'.
Qed.
Lemma opens_unique db h f f' : db_ok Q db -> opens db h f -> opens db h f' -> forall k, key_ok k -> f k = f' k.
Proof.
  intros Hdb (n & F & Hst & Hh & Hs) (n' & F' & Hst' & Hh' & Hs') k Hk. rewrite <- (proj1 Hs k Hk), <- (proj1 Hs' k Hk).
  apply (stored_unique db n n'); try done. congruence.
Qed.

(** C6. The hash of a trie determines its contents: on a database without
    collisions of hashes, two tries with the same hash have the same value for
    every key. *)
Theorem contents_of_hash t t' f f' db h t1 t1' db1 db1' :
  db_ok Q db -> on db t f -> on db t' f' -> all_encs Q (root_node t) -> all_encs Q (root_node t') ->
  TrieHash t db = Ok (h, t1, db1) -> TrieHash t' db = Ok (h, t1', db1') -> forall k, key_ok k -> f k = f' k.
Proof.
  intros Hdb Ht Ht' HQ HQ' Hh Hh' k Hk. destruct (TrieHash_ok _ _ t f db Ht) as (t2 & Hh2 & _). destruct (TrieHash_ok _ _ t' f' db Ht') as (t2' & Hh2' & _).
  rewrite Hh in Hh2. injection Hh2 as -> _ _. rewrite Hh' in Hh2'. injection Hh2' as Heq _ _.
  destruct (root_stored t f db Hdb Ht HQ) as (db2 & Hdb2 & Hle & Ho).
  destruct (root_stored t' f' db2 Hdb2 (on_le db db2 t' f' Hle Ht') HQ') as (db3 & Hdb3 & Hle3 & Ho').
  apply (opens_unique db3 (root_hash (root_node t)) f f' Hdb3); [by eapply opens_le|by rewrite Heq|done].
Qed.
End stored.
End hash.

(** ** A concrete trie *)

Definition demo_nodes : TrieDB := NewDatabase ∅.
Definition demo_update (kvs : list (bytes * bytes)) : outcome Trie := update_all (lookup_node demo_nodes) kvs (mkTrie None 0 0).
Definition demo_mpt : Trie := match demo_update demo_kvs with Ok t => t | _ => mkTrie None 0 0 end.
Definition demo_mpt' : Trie := match demo_update (reverse demo_kvs) with Ok t => t | _ => mkTrie None 0 0 end.
Definition demo_map : bytes -> bytes := upd_all demo_kvs (fun _ => []).
Definition demo_map' : bytes -> bytes := upd_all (reverse demo_kvs) (fun _ => []).
(** The encodings of its nodes. *)
Definition demo_encs : list bytes :=
  (fix encs n := match n with
   | shortNode _ c _ => node_enc n :: encs c
   | fullNode cs _ => node_enc n :: concat (map encs cs)
   | _ => []
   end) (root_node demo_mpt).
Definition demo_Q (e : bytes) : Prop := e ∈ demo_encs.
#[export] Instance demo_CF : CollisionFree demo_Q.
Proof.
  assert (Forall (fun x => BytesToHash (keccak x) <> 0 /\ BytesToHash (keccak x) <> emptyRoot /\
    Forall (fun y => keccak x = keccak y -> x = y) demo_encs) demo_encs) as Hall by (apply (bool_decide_unpack _); vm_compute; exact I).
  rewrite Forall_forall in Hall. split.
  - intros x y Hx Hy. destruct (Hall x Hx) as (_ & _ & Hi). rewrite Forall_forall in Hi. by apply Hi.
  - intros x Hx. apply (Hall x Hx).
  - intros x Hx. apply (Hall x Hx).
Qed.
Lemma demo_loads : Loads (lookup_node demo_nodes) (clean_inv demo_nodes).
Proof. apply (clean_inv_loads demo_Q), NewDatabase_ok. Qed.
Lemma demo_mpt_map : trie_map (lookup_node demo_nodes) (clean_inv demo_nodes) demo_mpt demo_map.
Proof.
  pose proof demo_loads as Hl. destruct (update_all_ok (lookup_node demo_nodes) (clean_inv demo_nodes) demo_kvs (mkTrie None 0 0) (fun _ => []) (trie_map_empty _ _ 0 0) demo_kvs_ok) as (t & He & Ht).
  unfold demo_mpt, demo_update. rewrite He. exact Ht.
Qed.
Lemma demo_mpt_map' : trie_map (lookup_node demo_nodes) (clean_inv demo_nodes) demo_mpt' demo_map'.
Proof.
  pose proof demo_loads as Hl. destruct (update_all_ok (lookup_node demo_nodes) (clean_inv demo_nodes) (reverse demo_kvs) (mkTrie None 0 0) (fun _ => []) (trie_map_empty _ _ 0 0)
    ltac:(apply Forall_reverse, demo_kvs_ok)) as (t & He & Ht).
  unfold demo_mpt', demo_update. rewrite He. exact Ht.
Qed.
Lemma demo_map_same k : demo_map k = demo_map' k.
Proof. unfold demo_map, demo_map', upd_all, upd. cbn. repeat case_decide; congruence. Qed.
Lemma demo_all_encs : all_encs demo_Q (root_node demo_mpt) /\ all_encs demo_Q (root_node demo_mpt').
Proof.
  assert (forall x, In x demo_encs -> demo_Q x) as HQ by (intros x; apply list_elem_of_In).
  split; vm_compute; repeat split; apply HQ; vm_compute; tauto.
Qed.

Lemma Commit_reopens_witness :
  exists h t' db' t'', Trie_Commit no_leaf demo_mpt demo_nodes = Ok (h, t', db') /\
    Trie_New (lookup_node db') emptyRoot h = Ok (inl t'') /\ trie_map (lookup_node db') (clean_inv db') t'' demo_map.
Proof.
  destruct (Commit_reopens demo_Q no_leaf no_leaf_ok demo_mpt demo_map demo_nodes (NewDatabase_ok demo_Q) demo_mpt_map (proj1 demo_all_encs))
    as (h & t' & db' & t'' & H1 & _ & _ & _ & _ & H2 & H3). exists h, t', db', t''. exact (conj H1 (conj H2 H3)).
Defined.
Lemma hash_of_contents_witness :
  exists h t1 t1', TrieHash demo_mpt demo_nodes = Ok (h, t1, demo_nodes) /\ TrieHash demo_mpt' demo_nodes = Ok (h, t1', demo_nodes).
Proof.
  destruct (hash_of_contents (lookup_node demo_nodes) (lookup_node demo_nodes) (clean_inv demo_nodes) (clean_inv demo_nodes) demo_mpt demo_mpt' demo_map demo_map')
    with (db := demo_nodes) (db' := demo_nodes) as (h & t1 & t1' & H1 & _ & H2 & _).
  - apply clean_inv_flags.
  - apply clean_inv_flags.
  - apply demo_mpt_map.
  - apply demo_mpt_map'.
  - intros k _. apply demo_map_same.
  - exists h, t1, t1'. exact (conj H1 H2).
Defined.
Lemma contents_of_hash_witness : demo_map [0x20; 3] = demo_map' [0x20; 3] /\ demo_map' [0x20; 3] = [2; 2].
Proof.
  destruct (TrieHash_ok (lookup_node demo_nodes) (clean_inv demo_nodes) demo_mpt demo_map demo_nodes demo_mpt_map) as (t1 & H1 & _).
  destruct (TrieHash_ok (lookup_node demo_nodes) (clean_inv demo_nodes) demo_mpt' demo_map' demo_nodes demo_mpt_map') as (t1' & H1' & _).
  assert (root_hash (root_node demo_mpt') = root_hash (root_node demo_mpt)) as Heq by (vm_compute; reflexivity). rewrite Heq in H1'.
  split; [|vm_compute; reflexivity].
  apply (contents_of_hash demo_Q demo_mpt demo_mpt' demo_map demo_map' demo_nodes _ t1 t1' demo_nodes demo_nodes (NewDatabase_ok demo_Q)
    demo_mpt_map demo_mpt_map' (proj1 demo_all_encs) (proj2 demo_all_encs) H1 H1').
  repeat constructor; done.
Defined.
