(* ===== verification/TrieFlush.v ===== *)
(** * From memory to disk

    [Cap] and [Commit] of [trie/database.go] lose nothing: what could be read
    before can be read after, and the trie of a root that is committed can be
    read from the disk alone. *)

From stdpp Require Import gmap.
From S2P Require Import Prelude CommonMath Rlp RlpSpec StateIface ConcreteCrypto TrieKey TrieNode Trie TrieSpec TrieProps TrieDatabase Hasher TrieCodec HasherProps DatabaseProps TrieStore TrieCommit.
Local Open Scope Z_scope.
#[local] Arguments Hash_Bytes _ : simpl never.

Implicit Types (h : Hash) (d : gmap bytes bytes).

(** What the nodes that occur need: at least the nodes whose hashes they have.
    There is no cycle: a node cannot have a hash that depends on its own. *)
Class Needs `{Crypto} (Q : bytes -> Prop) (needs : Hash -> Hash -> Prop) (rank : Hash -> nat) : Prop := {
  needs_hash h k : needs h k -> is_hash k /\ k <> 0;
  needs_kids e h gen n k : Q e -> keccak e = Hash_Bytes h -> mustDecodeNode (Some (Hash_Bytes h)) e gen = Ok n -> k ∈ kids n -> needs h k;
  needs_rank h k : needs h k -> (rank k < rank h)%nat;
}.

Lemma Hash_Bytes_inj h k : is_hash h -> is_hash k -> Hash_Bytes h = Hash_Bytes k -> h = k.
Proof. intros Hh Hk Heq. by rewrite <- (BytesToHash_Bytes h Hh), <- (BytesToHash_Bytes k Hk), Heq. Qed.

Section flush.
Context `{Crypto} {CL : CryptoLaws} (Q : bytes -> Prop) {CF : CollisionFree Q} (needs : Hash -> Hash -> Prop) (rank : Hash -> nat) {ND : Needs Q needs rank}.
Implicit Types (db : TrieDB).

(** ** What is stored *)

Definition enc_ok (e : bytes) h : Prop := Q e /\ keccak e = Hash_Bytes h.
Lemma enc_unique e e' h : enc_ok e h -> enc_ok e' h -> e = e'.
Proof. intros [HQ Hk] [HQ' Hk']. apply (cf_inj e e' HQ HQ'). congruence. Qed.
Definition disk_ok d : Prop := forall h e, is_hash h -> h <> 0 -> d !! Hash_Bytes h = Some e -> enc_ok e h.

Record store_ok db (L : list Hash) : Prop := {
  so_db : db_ok Q db;
  so_disk : disk_ok (diskdb db);
  so_dirty h c e : h <> 0 -> dirties db !! h = Some c -> cached_rlp c = Ok e -> enc_ok e h;
  so_inv : store_inv needs db L [];
  so_pre h : is_Some (preimages db !! h) -> is_hash h;
}.
Lemma enc_at_has db L h : store_ok db L -> h <> 0 -> is_Some (enc_at db h) <-> has db h.
Proof.
  intros [Hdb _ _ Hst _] H0. unfold enc_at, has, on_disk. destruct (clean_get h db) as [e|] eqn:Hc.
  { apply (st_clean _ db L [] Hst) in Hc. split; [intros _; right; by exists e|by eexists]. }
  destruct (dirties db !! h) as [c|] eqn:Hd.
  - destruct (db_dirty Q db Hdb h c H0 Hd) as (e & -> & _). split; [intros _; left; split; [done|by eexists]|by eexists].
  - split; [by right|]. by intros [[_ []]|?].
Qed.
(** The other way round: what is stored is fit for the trie. *)
Lemma parts_ok db L :
  store_inv needs db L [] -> disk_ok (diskdb db) -> (forall h c e, h <> 0 -> dirties db !! h = Some c -> cached_rlp c = Ok e -> enc_ok e h) ->
  (forall h c, h <> 0 -> dirties db !! h = Some c ->
    exists e, cached_rlp c = Ok e /\ forall gen, cached_obj c h gen = mustDecodeNode (Some (Hash_Bytes h)) e gen) ->
  clean_get 0 db = None -> cn_node <$> dirties db !! 0 = Some rawNil -> (forall h, is_Some (preimages db !! h) -> is_hash h) -> store_ok db L.
Proof.
  intros Hst Hd Hdi Hob Hc0 Hm Hpre. split; try done. split; try done.
  - intros h e Hh H0. unfold enc_at. destruct (clean_get h db) as [e'|] eqn:Hc.
    + intros [= <-]. apply (st_clean _ db L [] Hst) in Hc. by apply Hd.
    + destruct (dirties db !! h) as [c|] eqn:Hdh; [|by apply Hd]. destruct (Hob h c H0 Hdh) as (e' & He' & _). rewrite He'. intros [= <-]. by apply (Hdi h c).
  - intros Ho. destruct (st_list _ db L [] Hst) as [_ Hold Hnew]. apply (st_dom _ db L [] Hst). right. rewrite app_nil_r.
    destruct L as [|x L]; [by rewrite Hold in Ho|]. specialize (Hnew ltac:(done)). by apply last_Some_elem_of in Hnew.
Qed.

(** ** Reading from a part of the nodes *)

Lemma node_survives (S : Hash -> Prop) db db' fo K n f :
  (forall h gen m, S h -> lookup_node db h gen = Ok m -> m <> nilNode -> lookup_node db' h gen = Ok m) ->
  (forall h gen m k, S h -> lookup_node db h gen = Ok m -> m <> nilNode -> k ∈ kids m -> S k) ->
  node_ok (lookup_node db) any_flag fo K n f -> (forall k, k ∈ kids n -> S k) -> node_ok (lookup_node db') any_flag fo K n f.
Proof.
  intros Hl Hcl Hn. remember any_flag as Inv eqn:HI. revert HI.
  induction Hn as [Inv fo v f Hv Hf|Inv fo K k n fl g f Hn IH Hs Hfl Hf Hno|Inv fo cs Ks fl f Hlen Hc IH HK Hnil H0 Hout H2 Hfl
    |Inv fo K h n f Hdb Hin HK Hn IH Hh]; intros -> HS.
  - by constructor.
  - apply (ok_short _ _ fo K k n fl g); auto.
  - apply (ok_full _ _ fo cs Ks); try done. intros i c Hi Hne. apply (IH i c Hi Hne eq_refl). intros k Hk.
    destruct (decide (i = 16%nat)) as [->|Hi16].
    { specialize (Hc 16%nat c Hi Hne). rewrite (proj2 (HK 16%nat) eq_refl) in Hc. by inversion Hc; subst; [apply not_elem_of_nil in Hk|]. }
    apply HS. cbn. apply list_elem_of_In, in_concat. exists (kids c). split; [|by apply list_elem_of_In].
    apply list_elem_of_In, (list_elem_of_lookup_2 _ i). apply lookup_lt_Some in Hi as Hlt. rewrite lookup_take_lt by lia. by rewrite list_lookup_fmap, Hi.
  - assert (S (BytesToHash h)) as HSh by (apply HS; left).
    assert (forall gen, n gen <> nilNode) as Hne by (intros gen; specialize (Hin gen); by destruct (n gen)).
    apply (ok_hash _ _ fo K h n); try done; intros gen; [by apply Hl|]. apply (IH gen eq_refl). intros k. by apply (Hcl (BytesToHash h) gen (n gen)).
Qed.
(** A trie all of whose nodes are still there. *)
Lemma opens_survives db db' L L' h f :
  store_ok db L -> store_ok db' L' -> opens db h f -> (h <> emptyRoot -> has db' h) -> opens db' h f.
Proof.
  intros Hso Hso' (n & F & Hst & Hh & Hs) Hhas. exists n, F. split; [|done]. destruct Hst as [Hst|(Hn & K & Hok)]; [by left|right]. split; [done|]. exists K.
  destruct (stored_hash Q db _ _ _ (so_db _ _ Hso) Hok) as (Hho & H0 & He). rewrite root_hash_node in Hh by done. subst h.
  assert (forall h, is_hash h /\ h <> 0 /\ has db' h -> exists e, enc_at db' h = Some e /\ enc_ok e h) as Henc.
  { intros h (Hh & Hh0 & Hp). apply (enc_at_has db' L') in Hp as [e Hp]; [|done..]. exists e. split; [done|]. by apply (db_hash Q db' (so_db _ _ Hso')). }
  apply (node_survives (fun h => is_hash h /\ h <> 0 /\ has db' h) db db'); [| |done|].
  - intros h gen m HS. destruct (Henc h HS) as (e & He' & Heo). destruct HS as (Hh & Hh0 & _). rewrite !(lookup_node_enc Q) by (try done; by eapply so_db). rewrite He'.
    destruct (enc_at db h) as [e0|] eqn:He0; [|congruence]. by rewrite (enc_unique e0 e h (db_hash Q db (so_db _ _ Hso) h e0 Hh Hh0 He0) Heo).
  - intros h gen m k (Hh & Hh0 & Hp) Hm Hne Hk. rewrite (lookup_node_enc Q) in Hm by (try done; by eapply so_db). destruct (enc_at db h) as [e0|] eqn:He0; [|congruence].
    destruct (db_hash Q db (so_db _ _ Hso) h e0 Hh Hh0 He0) as [HQ Hke]. pose proof (needs_kids e0 h gen m k HQ Hke Hm Hk) as Hnk.
    destruct (needs_hash h k Hnk). split_and!; try done. apply (store_closed needs needs_hash db' L' h); try done. by apply so_inv.
  - intros k Hk. apply list_elem_of_singleton in Hk as ->. split_and!; [by apply is_hash_BytesToHash|done|by apply Hhas].
Qed.

(** ** Batches *)

Definition with_disk d db : TrieDB := db_disk (fun _ => d) db.
(** The disk once the batch is written. *)
Definition flushed (b : memBatch) d : gmap bytes bytes := put_all (b_writes b) d.
Lemma flushed_Put k v b d : flushed (batch_Put k v b) d = <[k := v]> (flushed b d).
Proof. unfold flushed, put_all. cbn. by rewrite foldl_app. Qed.
Lemma write_if_ok full b d db : exists b' d', write_if full b (with_disk d db) = Ok (b', with_disk d' db) /\ flushed b' d' = flushed b d.
Proof. destruct full; [by exists NewBatch, (flushed b d)|by exists b, d]. Qed.

Definition disk_le d d' : Prop := forall h e, d !! Hash_Bytes h = Some e -> d' !! Hash_Bytes h = Some e.
Definition disk_closed d : Prop := forall h k, is_hash h -> is_Some (d !! Hash_Bytes h) -> needs h k -> is_Some (d !! Hash_Bytes k).
(** Nodes are written, and what they need. *)
Record grows d d' : Prop := {
  gr_le : disk_le d d';
  gr_ok : disk_ok d -> disk_ok d';
  gr_closed : disk_closed d -> disk_closed d';
  gr_other k : length k <> 32%nat -> d' !! k = d !! k;
}.
#[local] Instance grows_pre : PreOrder grows.
Proof.
  split; [intros d; split; [by intros h e|done..]|]. intros d1 d2 d3 [A1 B1 C1 D1] [A2 B2 C2 D2]. split; [intros h e ?; by apply A2, A1|auto|auto|].
  intros k Hk. by rewrite D2, D1.
Qed.
Lemma grows_Some d d' h : grows d d' -> is_Some (d !! Hash_Bytes h) -> is_Some (d' !! Hash_Bytes h).
Proof. intros Hg [e He]. exists e. by apply (gr_le _ _ Hg). Qed.
Lemma length_Hash_Bytes h : length (Hash_Bytes h) = 32%nat.
Proof. apply hash_ok_Bytes. Qed.
Lemma grows_write d h e :
  is_hash h -> h <> 0 -> enc_ok e h -> disk_ok d -> (forall k, needs h k -> is_Some (d !! Hash_Bytes k)) -> grows d (<[Hash_Bytes h := e]> d).
Proof.
  intros Hh H0 He Hd Hn. split.
  - intros x e' Hx. destruct (decide (Hash_Bytes x = Hash_Bytes h)) as [Heq|Hne]; [|by rewrite lookup_insert_ne].
    rewrite Heq in *. rewrite lookup_insert_eq. f_equal. apply (enc_unique e e' h He). by apply Hd.
  - intros _ x e' Hx Hx0. destruct (decide (x = h)) as [->|Hne]; [rewrite lookup_insert_eq; by intros [= <-]|].
    rewrite lookup_insert_ne by (intros Heq; by apply Hne, Hash_Bytes_inj). by apply Hd.
  - intros Hcl x k Hx Hp Hk. apply lookup_insert_is_Some'. right. destruct (decide (x = h)) as [->|Hne]; [by apply Hn|].
    rewrite lookup_insert_ne in Hp by (intros Heq; by apply Hne, Hash_Bytes_inj). by apply (Hcl x).
  - intros k Hk. rewrite lookup_insert_ne; [done|]. intros <-. by apply Hk, length_Hash_Bytes.
Qed.

(** Preimages are filed under longer keys. *)
Lemma secureKey_long h : length (secureKey (Hash_Bytes h)) <> 32%nat.
Proof. unfold secureKey. by rewrite length_app, length_Hash_Bytes. Qed.
Definition with_preimages (l : list (Hash * bytes)) d : gmap bytes bytes :=
  foldl (fun d kv => <[secureKey (Hash_Bytes kv.1) := kv.2]> d) d l.
Lemma put_preimages_ok l b d db :
  exists b' d', put_preimages l b (with_disk d db) = Ok (b', with_disk d' db) /\ flushed b' d' = with_preimages l (flushed b d).
Proof.
  revert b d. induction l as [|[h p] l IH]; intros b d; [by exists b, d|]. cbn [put_preimages with_preimages foldl fst snd].
  rewrite <- flushed_Put. set (b1 := batch_Put _ p b). destruct (write_if_ok (IdealBatchSize <? b_size b1) b1 d db) as (b2 & d2 & Hrun & <-).
  rewrite (run_bind _ _ _ _ _ Hrun). apply IH.
Qed.
Lemma with_preimages_short l d k : length k = 32%nat -> with_preimages l d !! k = d !! k.
Proof.
  intros Hk. revert d. induction l as [|[h p] l IH]; intros d; [done|].
  change (with_preimages ((h, p) :: l) d) with (with_preimages l (<[secureKey (Hash_Bytes h) := p]> d)). rewrite IH, lookup_insert_ne; [done|].
  intros <-. by apply secureKey_long in Hk.
Qed.
Lemma with_preimages_grows l d : disk_le d (with_preimages l d) /\ (disk_ok d -> disk_ok (with_preimages l d)) /\ (disk_closed d -> disk_closed (with_preimages l d)).
Proof.
  assert (forall h, with_preimages l d !! Hash_Bytes h = d !! Hash_Bytes h) as Heq by (intros h; apply with_preimages_short, length_Hash_Bytes).
  split; [intros h e; by rewrite Heq|]. split; [intros Hd h e; rewrite Heq; apply Hd|]. intros Hd h k. rewrite !Heq. apply Hd.
Qed.
Lemma with_preimages_found (m : gmap Hash bytes) d h :
  (forall x, is_Some (m !! x) -> is_hash x) -> is_hash h ->
  with_preimages (map_to_list m) d !! secureKey (Hash_Bytes h) = match m !! h with Some p => Some p | None => d !! secureKey (Hash_Bytes h) end.
Proof.
  intros Hm Hh. assert (forall x p, (x, p) ∈ map_to_list m <-> m !! x = Some p) as Hin by (intros; apply elem_of_map_to_list).
  assert (forall l d, NoDup l.*1 -> (forall x p, (x, p) ∈ l -> is_hash x) ->
    (forall p, (h, p) ∈ l -> with_preimages l d !! secureKey (Hash_Bytes h) = Some p) /\
    (h ∉ l.*1 -> with_preimages l d !! secureKey (Hash_Bytes h) = d !! secureKey (Hash_Bytes h))) as Hall.
  { clear Hin d. induction l as [|[x p] l IH]; intros d Hnd Hx; [by split; [intros p Hp; apply not_elem_of_nil in Hp|]|].
    apply NoDup_cons in Hnd as [Hxl Hnd]. destruct (IH (<[secureKey (Hash_Bytes x) := p]> d) Hnd) as [IH1 IH2]; [intros y q Hy; apply (Hx y q); by right|].
    change (with_preimages ((x, p) :: l) d) with (with_preimages l (<[secureKey (Hash_Bytes x) := p]> d)). split.
    - intros q Hq. apply elem_of_cons in Hq as [[= <- <-]|Hq]; [|by apply IH1]. rewrite IH2 by done. apply lookup_insert_eq.
    - intros Hn. apply not_elem_of_cons in Hn as [Hne Hn]. rewrite IH2 by done. apply lookup_insert_ne. intros Heq. apply app_inv_head in Heq.
      apply Hne. symmetry. apply Hash_Bytes_inj; [|done..]. apply (Hx x p). left. }
  destruct (Hall (map_to_list m) d) as [H1 H2]; [apply NoDup_fst_map_to_list|intros x p Hp; apply Hm; exists p; by apply Hin|].
  destruct (m !! h) as [p|] eqn:Hp; [by apply H1, Hin|]. apply H2. intros ((x & q) & -> & Hq)%list_elem_of_fmap. apply Hin in Hq. cbn in Hp. congruence.
Qed.

(** ** Walks down the nodes *)

(** How many of the nodes can be below [h]. *)
Definition height (L : list Hash) h : nat := length (filter (fun x => rank x < rank h)%nat L).
Lemma height_le L L' h : NoDup L' -> L' ⊆ L -> (height L' h <= height L h)%nat.
Proof.
  intros Hnd Hs. apply submseteq_length, NoDup_submseteq; [by apply NoDup_filter|]. intros x [Hx HL]%list_elem_of_filter. apply list_elem_of_filter. split; [done|by apply Hs].
Qed.
Lemma height_lt L h k : k ∈ L -> (rank k < rank h)%nat -> (height L k < height L h)%nat.
Proof.
  intros Hk Hr. unfold height. induction L as [|x L IH]; [by apply not_elem_of_nil in Hk|]. rewrite !filter_cons.
  assert (length (filter (fun x => rank x < rank k)%nat L) <= length (filter (fun x => rank x < rank h)%nat L))%nat as Hle.
  { clear -Hr. induction L as [|x L IH]; [done|]. rewrite !filter_cons. destruct (decide (rank x < rank k)%nat), (decide (rank x < rank h)%nat); cbn; lia. }
  apply elem_of_cons in Hk as [<-|Hk].
  - rewrite decide_False by lia. rewrite decide_True by done. cbn. lia.
  - specialize (IH Hk). destruct (decide (rank x < rank k)%nat), (decide (rank x < rank h)%nat); cbn; lia.
Qed.
Lemma height_bound L h : (height L h <= length L)%nat.
Proof. apply length_filter. Qed.
(** The fuel for a walk from [h]. *)
Definition enough (fuel : nat) (L : list Hash) h : Prop := (0 < fuel)%nat /\ (h ∈ L -> (height L h + 1 < fuel)%nat).
Lemma enough_child fuel L h k : enough (S fuel) L h -> h ∈ L -> needs h k -> enough fuel L k.
Proof. intros [_ He] Hh Hn. specialize (He Hh). split; [lia|]. intros Hk. pose proof (height_lt L h k Hk (needs_rank h k Hn)). lia. Qed.
Lemma enough_sub fuel L L' h : NoDup L' -> L' ⊆ L -> enough fuel L h -> enough fuel L' h.
Proof. intros Hnd Hs [H1 H2]. split; [done|]. intros Hh. pose proof (height_le L L' h Hnd Hs). specialize (H2 (Hs h Hh)). lia. Qed.
Lemma walk_fuel_enough db L h : store_inv needs db L [] -> enough (walk_fuel db) L h.
Proof.
  intros Hst. unfold walk_fuel. split; [lia|]. intros Hh. pose proof (height_bound L h) as Hb.
  assert (length (0%Z :: L) <= size (dirties db))%nat; [|cbn in *; lia]. rewrite <- size_dom. pose proof (st_nodup _ db L [] Hst) as Hnd. rewrite app_nil_r in Hnd.
  rewrite <- (size_list_to_set (C := gset Hash) (0 :: L)).
  - apply subseteq_size. intros x Hx. apply elem_of_dom, (st_dom _ db L [] Hst). rewrite app_nil_r. apply elem_of_list_to_set, elem_of_cons in Hx. done.
  - apply NoDup_cons. split; [|done]. intros H0. by apply (st_keys _ db L [] Hst 0); rewrite ?app_nil_r.
Qed.

Section commit.
Context db L (Hso : store_ok db L).
Lemma listed h : h ∈ L <-> h <> 0 /\ is_Some (dirties db !! h).
Proof.
  pose proof (so_inv _ _ Hso) as Hst. rewrite (st_dom _ db L [] Hst), app_nil_r. split; [|tauto]. intros Hh. split; [|by right].
  apply (st_keys _ db L [] Hst). by rewrite app_nil_r.
Qed.
Lemma listed_node h : h ∈ L -> exists c e, dirties db !! h = Some c /\ childs c = Ok (refs_at db h) /\ cached_rlp c = Ok e /\ enc_ok e h /\ is_hash h /\ h <> 0.
Proof.
  intros Hh. pose proof (so_inv _ _ Hso) as Hst. destruct (st_keys _ db L [] Hst h) as [Hk H0]; [by rewrite app_nil_r|].
  pose proof (st_childs _ db L [] Hst h Hh) as Hc. destruct (dirties db !! h) as [c|] eqn:Hd; [|done]. injection Hc as Hc.
  destruct (db_dirty Q db (so_db _ _ Hso) h c H0 Hd) as (e & He & _). exists c, e. split_and!; try done; by apply (so_dirty _ _ Hso h c).
Qed.
(** What a node needs is below it or on disk. *)
Lemma needs_below h k : h ∈ L -> needs h k -> k ∈ refs_at db h /\ k ∈ L \/ on_disk db k.
Proof.
  intros Hh Hn. pose proof (so_inv _ _ Hso) as Hst. destruct (st_cover _ db L [] Hst h k Hh Hn) as [Hr|]; [|by right].
  apply list_elem_of_split in Hh as (l1 & l2 & HL). destruct (st_order _ db L [] Hst l1 h l2 k HL Hr) as [Hk|]; [left|by right]. split; [done|].
  rewrite HL. apply elem_of_app. by left.
Qed.

Definition commits fuel : Prop := forall h b d, enough fuel L h -> h <> 0 -> disk_ok (flushed b d) -> disk_le (diskdb db) (flushed b d) ->
  exists b' d', commit fuel h b (with_disk d db) = Ok (b', with_disk d' db) /\ grows (flushed b d) (flushed b' d') /\
    (h ∈ L -> is_Some (flushed b' d' !! Hash_Bytes h)).
Lemma commit_children_ok fuel hs : commits fuel -> forall b d,
  (forall k, k ∈ hs -> enough fuel L k /\ k <> 0) -> disk_ok (flushed b d) -> disk_le (diskdb db) (flushed b d) ->
  exists b' d', commit_children (commit fuel) hs b (with_disk d db) = Ok (b', with_disk d' db) /\ grows (flushed b d) (flushed b' d') /\
    forall k, k ∈ hs -> k ∈ L -> is_Some (flushed b' d' !! Hash_Bytes k).
Proof.
  intros IH. induction hs as [|x hs IHhs]; intros b d Hhs Hok Hle; [exists b, d; split; [done|]; split; [done|]; intros k Hk; by apply not_elem_of_nil in Hk|].
  cbn [commit_children]. destruct (Hhs x) as [Hx Hx0]; [left|]. destruct (IH x b d Hx Hx0 Hok Hle) as (b1 & d1 & Hrun & Hg & Hp).
  rewrite (run_bind _ _ _ _ _ Hrun). destruct (IHhs b1 d1) as (b2 & d2 & Hrun2 & Hg2 & Hp2).
  - intros k Hk. apply Hhs. by right.
  - by apply (gr_ok _ _ Hg).
  - intros k e Hk. by apply (gr_le _ _ Hg), Hle.
  - exists b2, d2. split; [done|]. split; [by etransitivity|]. intros k Hk HkL. apply elem_of_cons in Hk as [->|Hk]; [|by apply Hp2].
    by apply (grows_Some _ _ _ Hg2), Hp.
Qed.
Lemma commit_ok fuel : commits fuel.
Proof.
  induction fuel as [|fuel IH]; intros h b d He H0 Hok Hle; [destruct He; lia|]. cbn [commit].
  rewrite (run_bind (gets (fun db => dirties db !! h)) _ (with_disk d db) (dirties db !! h) (with_disk d db) eq_refl).
  destruct (decide (h ∈ L)) as [Hh|Hh].
  2:{ destruct (dirties db !! h) as [c|] eqn:Hc; [destruct Hh; apply listed; split; [done|by exists c]|]. by exists b, d. }
  destruct (listed_node h Hh) as (c & e & Hc & Hcs & He' & Heo & Hk & _). rewrite Hc. unfold lift. rewrite Hcs, (run_bind _ _ _ _ _ eq_refl).
  pose proof (so_inv _ _ Hso) as Hst.
  destruct (commit_children_ok fuel (refs_at db h) IH b d) as (b1 & d1 & Hrun & Hg & Hp); [|done..|].
  { intros k Hr. pose proof (st_refs _ db L [] Hst h k Hh Hr) as Hn. split; [by apply (enough_child fuel L h)|by apply (needs_hash h)]. }
  rewrite (run_bind _ _ _ _ _ Hrun), He', (run_bind _ _ _ _ _ eq_refl). set (b2 := batch_Put (Hash_Bytes h) e b1).
  destruct (write_if_ok (IdealBatchSize <=? b_size b2) b2 d1 db) as (b3 & d3 & Hw & Hf). exists b3, d3. split; [exact Hw|]. rewrite Hf. unfold b2.
  rewrite flushed_Put. split; [|intros _; by rewrite lookup_insert_eq; eexists]. etransitivity; [exact Hg|]. apply grows_write; try done; [by apply (gr_ok _ _ Hg)|].
  intros k Hn. destruct (needs_below h k Hh Hn) as [[Hr HkL]|[e' Hd]]; [by apply Hp|]. exists e'. by apply (gr_le _ _ Hg), Hle.
Qed.
End commit.

(** ** Removing what is on disk *)

Record shrinks db (L : list Hash) db' (L' : list Hash) : Prop := {
  sh_disk : diskdb db' = diskdb db;
  sh_cleans : cleans db' = cleans db;
  sh_preimages : preimages db' = preimages db;
  sh_sub : L' ⊆ L;
  sh_gone x : x ∈ L -> x ∈ L' \/ on_disk db x;
  sh_same x : x = 0 \/ x ∈ L' -> content <$> dirties db' !! x = content <$> dirties db !! x;
}.
Lemma shrinks_refl db L : shrinks db L db L.
Proof. split; try done. by left. Qed.
Lemma shrinks_trans db L db1 L1 db2 L2 : shrinks db L db1 L1 -> shrinks db1 L1 db2 L2 -> shrinks db L db2 L2.
Proof.
  intros [A1 A2 A3 A4 A5 A6] [B1 B2 B3 B4 B5 B6]. split; try congruence; [set_solver| |].
  - intros x Hx. destruct (A5 x Hx) as [Hx1|]; [|by right]. destruct (B5 x Hx1) as [|Hd]; [by left|right]. unfold on_disk in *. by rewrite A1 in Hd.
  - intros x Hx. rewrite B6, A6; [done|destruct Hx as [?|?]; [by left|right; by apply B4]|done].
Qed.
Lemma store_nodup db L D : store_inv needs db L D -> NoDup L.
Proof. intros Hst. by apply st_nodup, NoDup_app in Hst as (Hnd & _). Qed.
Lemma store_split db L D h : store_inv needs db L D -> h <> 0 -> is_Some (dirties db !! h) -> h ∉ D -> exists c l1 l2, dirties db !! h = Some c /\ L = l1 ++ h :: l2 /\ h ∉ l1 ++ l2.
Proof.
  intros Hst H0 [c Hc] HD. assert (h ∈ L ++ D) as [Hh|]%elem_of_app; [|apply list_elem_of_split in Hh as (l1 & l2 & HL)|done].
  { destruct (proj1 (st_dom _ db L D Hst h)) as [|]; [by exists c|done..]. }
  exists c, l1, l2. split_and!; try done. pose proof (store_nodup db L D Hst) as Hnd. rewrite HL, <- Permutation_middle in Hnd. by apply NoDup_cons in Hnd as [? _].
Qed.

Definition uncaches fuel : Prop := forall h db L D,
  store_inv needs db L D -> enough fuel L h -> is_hash h /\ h <> 0 -> (h ∈ L -> on_disk db h) -> (forall x, x ∈ D -> (rank h < rank x)%nat) ->
  exists db' L', uncache fuel h db = Ok (tt, db') /\ store_inv needs db' L' D /\ shrinks db L db' L' /\ h ∉ L'.
Lemma uncache_all_ok fuel hs : uncaches fuel -> forall db L D, store_inv needs db L D ->
  (forall k, k ∈ hs -> enough fuel L k /\ (is_hash k /\ k <> 0) /\ on_disk db k /\ forall x, x ∈ D -> (rank k < rank x)%nat) ->
  exists db' L', for_each (uncache fuel) hs db = Ok (tt, db') /\ store_inv needs db' L' D /\ shrinks db L db' L'.
Proof.
  intros IH. induction hs as [|k hs IHhs]; intros db L D Hst Hhs; [exists db, L; split; [done|]; split; [done|apply shrinks_refl]|]. cbn [for_each].
  destruct (Hhs k) as (He & Hk & Hd & Hr); [left|]. destruct (IH k db L D Hst He Hk (fun _ => Hd) Hr) as (db1 & L1 & Hrun & Hst1 & Hsh & _).
  rewrite (run_bind _ _ _ _ _ Hrun). destruct (IHhs db1 L1 D Hst1) as (db2 & L2 & Hrun2 & Hst2 & Hsh2).
  - intros x Hx. destruct (Hhs x) as (Hex & Hkx & Hdx & Hrx); [by right|]. split; [|split; [done|]; split; [|done]].
    + apply (enough_sub fuel L); [by eapply store_nodup|apply Hsh|done].
    + unfold on_disk. by rewrite (sh_disk _ _ _ _ Hsh).
  - exists db2, L2. split; [done|]. split; [done|by eapply shrinks_trans].
Qed.
Lemma uncache_ok fuel : uncaches fuel.
Proof.
  induction fuel as [|fuel IH]; intros h db L D Hst He [Hh H0] Hd Hr; [destruct He; lia|]. cbn [uncache].
  rewrite (run_bind (gets (fun db => dirties db !! h)) _ db _ db eq_refl).
  assert (h ∉ D) as HD by (intros HD; specialize (Hr h HD); lia).
  destruct (dirties db !! h) as [c|] eqn:Hc.
  2:{ exists db, L. split; [done|]. split; [done|]. split; [apply shrinks_refl|]. intros HL. pose proof (proj2 (st_dom _ db L D Hst h)) as [? ?]; [|congruence]. right. apply elem_of_app. by left. }
  destruct (store_split db L D h Hst H0) as (c' & l1 & l2 & Hc' & -> & Hnot); [by exists c|done|]. rewrite Hc in Hc'. injection Hc' as <-.
  specialize (Hd ltac:(apply elem_of_app; right; left)).
  destruct (unlink_ok db h c) with (l1 := l1) (l2 := l2) as (db1 & Hun & Hs1 & Hfl); [apply (st_dom _ _ _ _ Hst); by left|done|apply (st_list _ _ _ _ Hst)|by eapply store_nodup|].
  pose proof (store_unlink needs db db1 l1 h l2 D Hst Hs1 Hfl (or_introl Hd)) as Hst1. rewrite (run_bind _ _ _ _ _ Hun).
  assert (h ∈ l1 ++ h :: l2) as HhL by (apply elem_of_app; right; left).
  pose proof (st_childs _ _ _ _ Hst h HhL) as Hcs. rewrite Hc in Hcs. injection Hcs as Hcs. unfold lift. rewrite Hcs, (run_bind _ _ _ _ _ eq_refl).
  assert (l1 ++ l2 ⊆ l1 ++ h :: l2) as Hsub by set_solver.
  destruct (uncache_all_ok fuel (refs_at db h) IH db1 (l1 ++ l2) (h :: D) Hst1) as (db2 & L2 & Hrun & Hst2 & Hsh).
  { intros k Hk. pose proof (st_refs _ _ _ _ Hst h k HhL Hk) as Hn. pose proof (needs_rank h k Hn). split; [|split; [by apply (needs_hash h)|split]].
    - apply (enough_sub fuel (l1 ++ h :: l2)); [by eapply store_nodup|done|]. by apply (enough_child fuel _ h).
    - unfold on_disk. rewrite (sn_disk _ _ Hs1). by apply (st_disk _ _ _ _ Hst h).
    - intros x [->|Hx]%elem_of_cons; [done|]. specialize (Hr x Hx). lia. }
  rewrite (run_bind _ _ _ _ _ Hrun). destruct (store_remove needs db2 h c L2 D Hst2) as [Hrm Hst3]. exists (removed h c db2), L2.
  assert (h ∉ L2) as HL2 by (intros Hin; by apply Hnot, (sh_sub _ _ _ _ Hsh)).
  split; [exact Hrm|]. split; [done|]. split; [|done]. destruct Hsh as [A1 A2 A3 A4 A5 A6]. split.
  - cbn. rewrite A1. apply Hs1.
  - cbn. rewrite A2. apply Hs1.
  - cbn. rewrite A3. apply Hs1.
  - set_solver.
  - intros x Hx. destruct (decide (x = h)) as [->|Hne]; [by right|]. destruct (A5 x) as [|Hx1]; [set_solver|by left|right]. unfold on_disk in *. by rewrite (sn_disk _ _ Hs1) in Hx1.
  - intros x Hx. cbn. rewrite lookup_delete_ne by (intros <-; by destruct Hx). by rewrite A6, (sn_dirties _ _ Hs1).
Qed.

(** ** A larger disk *)

Lemma with_disk_same db : with_disk (diskdb db) db = db.
Proof. by destruct db. Qed.
Lemma is_hash_listed db L h : store_ok db L -> h ∈ L -> is_hash h /\ h <> 0.
Proof. intros Hso Hh. apply (st_keys _ db L [] (so_inv _ _ Hso)). by rewrite app_nil_r. Qed.
Lemma store_with_disk db L d :
  store_ok db L -> disk_ok d -> disk_closed d -> disk_le (diskdb db) d -> store_ok (with_disk d db) L.
Proof.
  intros Hso Hok Hcl Hle. pose proof (so_inv _ _ Hso) as Hst. pose proof (so_db _ _ Hso) as Hdb.
  assert (forall h, on_disk db h -> on_disk (with_disk d db) h) as Hd by (intros h [e He]; exists e; by apply Hle).
  apply parts_ok; [|done|apply (so_dirty _ _ Hso)|apply (db_dirty Q db Hdb)|apply (db_meta Q db Hdb)|apply (db_meta Q db Hdb)|apply (so_pre _ _ Hso)]. destruct Hst as [A1 A2 A3 A4 A5 A6 A7 A8 A9 A10]. split; try done.
  - by destruct A4.
  - intros l1 h l2 k HL Hk. destruct (A7 l1 h l2 k HL Hk) as [|Hkd]; [by left|right; by apply Hd].
  - intros h k HL Hk. destruct (A8 h k HL Hk) as [|Hkd]; [by left|right; by apply Hd].
  - intros h e He. by apply Hle, A10.
Qed.
Lemma store_new d : disk_ok d -> disk_closed d -> store_ok (NewDatabase d) [].
Proof.
  intros Hok Hcl. assert (forall h, dirties (NewDatabase d) !! h = if decide (h = 0) then Some no_cached else None) as Hdi.
  { intros h. cbn. case_decide as Hh; [subst; by rewrite lookup_singleton_eq|by rewrite lookup_singleton_ne]. }
  apply parts_ok; try done.
  - split; try done; try (intros *; by intros ?%not_elem_of_nil).
    + intros h. rewrite Hdi. case_decide as Hh; [subst; split; [by left|by eexists]|]. split; [by intros []|]. by intros [?|?%not_elem_of_nil].
    + constructor.
    + intros l1 h l2 k HL. by destruct l1.
  - intros h c e Hh. rewrite Hdi. by rewrite decide_False.
  - intros h c Hh. rewrite Hdi. by rewrite decide_False.
  - intros h [p Hp]. cbn in Hp. by rewrite lookup_empty in Hp.
Qed.
(** Nothing that could be read is lost. *)
Lemma store_le db db' L L' :
  store_ok db L -> store_ok db' L' -> disk_le (diskdb db) (diskdb db') -> cleans db' = cleans db -> (forall h, h ∈ L -> has db' h) -> nodes_le db db'.
Proof.
  intros Hso Hso' Hle Hcl HL. pose proof (so_db _ _ Hso) as Hdb. pose proof (so_db _ _ Hso') as Hdb'.
  assert (forall h e, h <> 0 -> enc_at db h = Some e -> enc_at db' h = Some e) as Henc.
  { intros h e H0 He. destruct (decide (is_hash h)) as [Hh|Hh].
    - assert (has db' h) as Hp.
      { destruct (proj1 (enc_at_has db L h Hso H0)) as [[_ Hd]|[e' Hd]]; [by exists e| |right; exists e'; by apply Hle]. apply HL, (listed db L Hso). done. }
      apply (enc_at_has db' L') in Hp as [e' He']; [|done..]. rewrite He'. f_equal. apply (enc_unique e' e h); [by apply (db_hash Q db')|by apply (db_hash Q db)].
    - assert (forall db L, store_ok db L -> dirties db !! h = None) as Hnone.
      { intros db0 L0 Hs. apply eq_None_not_Some. intros Hd. apply Hh, (is_hash_listed db0 L0 h Hs), (listed db0 L0 Hs). done. }
      unfold enc_at in *. rewrite (Hnone db L Hso) in He. rewrite (Hnone db' L' Hso'). unfold clean_get in *. rewrite Hcl. destruct (c ← cleans db; c !! h); [done|].
      by apply Hle. }
  split.
  - intros h gen n Hn Hne. destruct (decide (h = 0)) as [->|H0].
    + rewrite lookup_node_cases in Hn. destruct (db_meta Q db Hdb) as [Hc Hm]. rewrite Hc in Hn. destruct (dirties db !! 0) as [c|]; [|done]. injection Hm as Hm.
      unfold cached_obj in Hn. by rewrite Hm in Hn.
    + rewrite (lookup_node_enc Q) in Hn |- * by done. destruct (enc_at db h) as [e|] eqn:He; [|congruence]. by rewrite (Henc h e H0 He).
  - intros h e. destruct (decide (h = 0)) as [->|H0]; [|by apply Henc]. unfold enc_at. destruct (db_meta Q db Hdb) as [-> Hm], (db_meta Q db' Hdb') as [-> Hm'].
    destruct (dirties db !! 0) as [c|], (dirties db' !! 0) as [c'|]; try done. injection Hm as Hm. injection Hm' as Hm'. by rewrite (same_cached_rlp c' c) by congruence.
Qed.
(** Nodes are removed. *)
Record kept db db' (L' : list Hash) : Prop := {
  kp_disk : diskdb db' = diskdb db;
  kp_cleans : cleans db' = cleans db;
  kp_preimages : preimages db' = preimages db;
  kp_node x : x = 0 \/ x ∈ L' -> cn_node <$> dirties db' !! x = cn_node <$> dirties db !! x;
}.
Lemma shrinks_kept db L db' L' : shrinks db L db' L' -> kept db db' L'.
Proof.
  intros [A1 A2 A3 A4 A5 A6]. split; try done. intros x Hx. specialize (A6 x Hx). destruct (dirties db' !! x), (dirties db !! x); try done. cbn. by injection A6 as ->.
Qed.
Lemma store_kept db L db' L' : store_ok db L -> store_inv needs db' L' [] -> kept db db' L' -> store_ok db' L'.
Proof.
  intros Hso Hst Hk. pose proof (so_db _ _ Hso) as Hdb.
  assert (forall h c, h <> 0 -> dirties db' !! h = Some c -> exists c0, dirties db !! h = Some c0 /\ cn_node c = cn_node c0) as Hnode.
  { intros h c H0 Hc. destruct (proj1 (st_dom _ _ _ _ Hst h)) as [|Hh]; [by exists c|done|]. rewrite app_nil_r in Hh.
    pose proof (kp_node _ _ _ Hk h (or_intror Hh)) as Heq. rewrite Hc in Heq. destruct (dirties db !! h) as [c0|]; [|done]. exists c0. split; [done|by injection Heq]. }
  apply parts_ok; try done.
  - rewrite (kp_disk _ _ _ Hk). apply Hso.
  - intros h c e H0 Hc He. destruct (Hnode h c H0 Hc) as (c0 & Hc0 & Heq). apply (so_dirty _ _ Hso h c0); try done. by rewrite <- (same_cached_rlp c c0 Heq).
  - intros h c H0 Hc. destruct (Hnode h c H0 Hc) as (c0 & Hc0 & Heq). destruct (db_dirty Q db Hdb h c0 H0 Hc0) as (e & He & Ho). exists e.
    rewrite (same_cached_rlp c c0 Heq). split; [done|]. intros gen. by rewrite (same_cached_obj c c0 h gen Heq).
  - unfold clean_get. rewrite (kp_cleans _ _ _ Hk). apply (db_meta Q db Hdb).
  - rewrite (kp_node _ _ _ Hk 0) by (by left). apply (db_meta Q db Hdb).
  - intros h. rewrite (kp_preimages _ _ _ Hk). apply Hso.
Qed.
Lemma store_shrinks db L db' L' : store_ok db L -> store_inv needs db' L' [] -> shrinks db L db' L' -> store_ok db' L'.
Proof. intros Hso Hst Hsh. apply (store_kept db L); [done..|by apply (shrinks_kept db L)]. Qed.

(** ** Committing a root *)

(** Nodes have moved from memory to disk. *)
Record settles db (L : list Hash) db' (L' : list Hash) : Prop := {
  se_disk : disk_le (diskdb db) (diskdb db');
  se_cleans : cleans db' = cleans db;
  se_sub : L' ⊆ L;
  se_gone x : x ∈ L -> x ∈ L' \/ on_disk db' x;
  se_same x : x = 0 \/ x ∈ L' -> content <$> dirties db' !! x = content <$> dirties db !! x;
  se_preimages h : is_hash h -> db_preimage h db' = db_preimage h db;
}.
Lemma settles_le db L db' L' : store_ok db L -> store_ok db' L' -> settles db L db' L' -> nodes_le db db'.
Proof.
  intros Hso Hso' Hse. apply (store_le db db' L L'); try done; [apply Hse..|]. intros h Hh. destruct (se_gone _ _ _ _ Hse h Hh) as [Hh'|]; [|by right].
  left. by apply (listed db' L' Hso').
Qed.
Lemma store_without_preimages db L : store_ok db L -> store_ok (db_preimages ∅ 0 db) L.
Proof.
  intros Hso. pose proof (so_db _ _ Hso) as Hdb. pose proof (so_inv _ _ Hso) as Hst.
  apply parts_ok; [|apply Hso|apply (so_dirty _ _ Hso)|apply (db_dirty Q db Hdb)|apply (db_meta Q db Hdb)|apply (db_meta Q db Hdb)|].
  - destruct Hst as [A1 A2 A3 A4 A5 A6 A7 A8 A9 A10]. split; try done. by destruct A4.
  - intros h [p Hp]. cbn in Hp. by rewrite lookup_empty in Hp.
Qed.
Lemma preimages_written db L d h :
  store_ok db L -> grows (with_preimages (map_to_list (preimages db)) (diskdb db)) d -> is_hash h ->
  d !! secureKey (Hash_Bytes h) = db_preimage h db.
Proof.
  intros Hso Hg Hh. rewrite (gr_other _ _ Hg).
  - rewrite with_preimages_found by (try done; apply (so_pre _ _ Hso)). done.
  - apply secureKey_long.
Qed.
Lemma db_Commit_ok db L root :
  store_ok db L -> is_hash root /\ root <> 0 ->
  exists db' L', db_Commit root db = Ok (tt, db') /\ store_ok db' L' /\ settles db L db' L' /\ (root ∈ L -> on_disk db' root).
Proof.
  intros Hso [Hr Hr0]. pose proof (so_inv _ _ Hso) as Hst. unfold db_Commit. rewrite (run_bind (gets id) _ db _ db eq_refl). cbv zeta. unfold id.
  destruct (put_preimages_ok (map_to_list (preimages db)) NewBatch (diskdb db) db) as (b1 & d1 & Hrun1 & Hf1). rewrite with_disk_same in Hrun1.
  rewrite (run_bind _ _ _ _ _ Hrun1). destruct (with_preimages_grows (map_to_list (preimages db)) (diskdb db)) as (Hle1 & Hok1 & Hcl1).
  change (flushed NewBatch (diskdb db)) with (diskdb db) in Hf1. rewrite <- Hf1 in *. specialize (Hok1 (so_disk _ _ Hso)).
  specialize (Hcl1 (fun h k => st_disk _ _ _ _ Hst h k)).
  destruct (commit_ok db L Hso (walk_fuel db) root b1 d1 (walk_fuel_enough db L root Hst) Hr0 Hok1 Hle1) as (b2 & d2 & Hrun2 & Hg & Hroot).
  rewrite (run_bind _ _ _ _ _ Hrun2). rewrite (run_bind (batch_Write b2) _ (with_disk d2 db) tt (with_disk (flushed b2 d2) db) eq_refl). set (X := flushed b2 d2) in *.
  assert (disk_le (diskdb db) X) as Hle by (intros h e He; by apply (gr_le _ _ Hg), Hle1).
  rewrite (run_bind (modify _) _ _ _ _ eq_refl). pose proof (store_with_disk db L X Hso (gr_ok _ _ Hg Hok1) (gr_closed _ _ Hg Hcl1) Hle) as Hso1.
  apply store_without_preimages in Hso1. set (db1 := db_preimages ∅ 0 (with_disk X db)) in *.
  destruct (uncache_ok (walk_fuel db) root db1 L []) as (db' & L' & Hrun3 & Hst' & Hsh & Hnot); [apply Hso1|by apply walk_fuel_enough|done|exact Hroot|by intros x Hx%not_elem_of_nil|].
  pose proof (store_shrinks db1 L db' L' Hso1 Hst' Hsh) as Hso'. exists db', L'. split; [exact Hrun3|]. split; [done|].
  assert (forall x, on_disk db1 x -> on_disk db' x) as Hod by (intros x; unfold on_disk; by rewrite (sh_disk _ _ _ _ Hsh)).
  split; [|intros HL; by apply Hod, Hroot]. split; try apply Hsh.
  - by rewrite (sh_disk _ _ _ _ Hsh).
  - intros x Hx. destruct (sh_gone _ _ _ _ Hsh x Hx) as [|Hd]; [by left|right; by apply Hod].
  - intros h Hh. unfold db_preimage at 1. rewrite (sh_preimages _ _ _ _ Hsh), (sh_disk _ _ _ _ Hsh). cbn. rewrite lookup_empty.
    apply (preimages_written db L X h Hso); [by rewrite <- Hf1|done].
Qed.
Lemma loaded_has db L (x : bytes) fo K f :
  store_ok db L -> node_ok (lookup_node db) any_flag fo K (hashNode x) f -> is_hash (BytesToHash x) /\ BytesToHash x <> 0 /\ has db (BytesToHash x).
Proof.
  intros Hso Hok. destruct (stored_hash Q db _ _ _ (so_db _ _ Hso) Hok) as (Hho & H0 & _). split_and!; [by apply is_hash_BytesToHash|done|].
  apply (enc_at_has db L _ Hso H0). inversion Hok as [| | |fo' K' h m F' Hm Hin]; subst. specialize (Hm 0). specialize (Hin 0). rewrite (lookup_node_enc Q) in Hm by (try done; apply Hso).
  destruct (enc_at db _) as [e|]; [by exists e|]. injection Hm as Hm. by rewrite <- Hm in Hin.
Qed.
Lemma opens_has db L h f : store_ok db L -> opens db h f -> h = emptyRoot \/ is_hash h /\ h <> 0 /\ has db h.
Proof.
  intros Hso (n & F & [[-> _]|(Hn & K & Hok)] & <- & _); [by left|right]. rewrite root_hash_node by done. by apply (loaded_has db L _ true K F).
Qed.
(** The nodes a node refers to can be loaded. *)
Lemma kids_loaded db fo K n f k :
  node_ok (lookup_node db) any_flag fo K n f -> k ∈ kids n -> exists (x : bytes) fo' K' f', k = BytesToHash x /\ node_ok (lookup_node db) any_flag fo' K' (hashNode x) f'.
Proof.
  intros Hn. remember any_flag as Inv eqn:HI. revert HI.
  induction Hn as [Inv fo v f Hv Hf|Inv fo K k' n fl g f Hn IH Hs Hfl Hf Hno|Inv fo cs Ks fl f Hlen Hc IH HK Hnil H0 Hout H2 Hfl
    |Inv fo K h n f Hdb Hin HK Hn IH Hh]; intros -> Hk.
  - by apply not_elem_of_nil in Hk.
  - by apply IH.
  - cbn in Hk. apply list_elem_of_In, in_concat in Hk as (ks & Hks & Hk). apply list_elem_of_In, list_elem_of_lookup in Hks as [i Hi].
    assert (i < 16)%nat as Hi16 by (apply lookup_lt_Some in Hi; rewrite length_take in Hi; lia). rewrite lookup_take_lt in Hi by done.
    apply list_lookup_fmap_Some in Hi as (c & Hi & ->). apply list_elem_of_In in Hk. apply (IH i c Hi); [intros ->; by apply not_elem_of_nil in Hk|done..].
  - apply list_elem_of_singleton in Hk as ->. exists h, fo, K, f. split; [done|]. by apply (ok_hash _ _ fo K h n).
Qed.
Lemma emptyRoot_hash : is_hash emptyRoot /\ emptyRoot <> 0.
Proof. split; [split; by vm_compute|done]. Qed.

(** C12. A root that is committed is on disk, with all that is below it: the
    write ends, and a new database on the disk alone opens the trie of the root
    with the same contents. Every other trie and every preimage can still be
    read. *)
Theorem Commit_durable db L root f :
  store_ok db L -> opens db root f ->
  exists db' L', db_Commit root db = Ok (tt, db') /\ store_ok db' L' /\ opens (NewDatabase (diskdb db')) root f /\
    (forall h g, opens db h g -> opens db' h g) /\ (forall h, is_hash h -> db_preimage h db' = db_preimage h db).
Proof.
  intros Hso Ho. assert (is_hash root /\ root <> 0) as Hr by (destruct (opens_has db L root f Hso Ho) as [->|(? & ? & _)]; [apply emptyRoot_hash|done]).
  destruct (db_Commit_ok db L root Hso Hr) as (db' & L' & Hrun & Hso' & Hse & Hroot). exists db', L'.
  pose proof (settles_le db L db' L' Hso Hso' Hse) as Hle. split; [done|]. split; [done|]. split; [|split; [intros h g; by apply opens_le|apply Hse]].
  pose proof (so_inv _ _ Hso') as Hst'. apply (opens_survives db _ L []); try done; [apply store_new; [apply Hso'|intros h k; apply (st_disk _ _ _ _ Hst')]|].
  intros Hne. right. destruct (opens_has db L root f Hso Ho) as [|(_ & _ & [[H0 Hd]|[e Hd]])]; [done|apply Hroot, (listed db L Hso); done|].
  exists e. by apply (se_disk _ _ _ _ Hse).
Qed.

(** ** Flushing the oldest nodes *)

(** What [Cap] counts for a node, and for all of them. *)
Definition node_weight db h : Z := match dirties db !! h with Some c => 3 * 32 + cn_size c | None => 0 end.
Definition weight db (l : list Hash) : Z := foldr (fun h w => node_weight db h + w) 0 l.
Definition memory_size db : Z := fst (db_Size db).
Definition first_of (l : list Hash) : Hash := default 0 (head l).

Section cap.
Context db L (Hso : store_ok db L) (limit : Z).
Lemma next_of l1 h l2 : L = l1 ++ h :: l2 -> exists c, dirties db !! h = Some c /\ cn_flushNext c = first_of l2 /\ h <> 0.
Proof.
  intros HL. destruct (st_list _ _ _ _ (so_inv _ _ Hso)) as [Hs _ _]. rewrite HL in Hs. apply seg_app in Hs as [_ [(c & Hc & Hn & _) _]]. exists c. split; [done|].
  split; [done|]. apply (is_hash_listed db L h Hso). rewrite HL. apply elem_of_app. right. left.
Qed.
Lemma cap_write_ok fuel : forall l1 l2 sz b d,
  L = l1 ++ l2 -> (length l2 < fuel)%nat -> disk_ok (flushed b d) -> disk_le (diskdb db) (flushed b d) ->
  (forall x, x ∈ l1 -> is_Some (flushed b d !! Hash_Bytes x)) ->
  exists m1 m2 b' d', l2 = m1 ++ m2 /\ cap_write fuel limit sz (first_of l2) b (with_disk d db) = Ok (first_of m2, b', with_disk d' db) /\
    grows (flushed b d) (flushed b' d') /\ (forall x, x ∈ m1 -> is_Some (flushed b' d' !! Hash_Bytes x)) /\
    (m2 = [] \/ sz - weight db m1 <= limit).
Proof.
  induction fuel as [|fuel IH]; intros l1 l2 sz b d HL Hlen Hok Hle Hp; [lia|]. cbn [cap_write].
  destruct (decide (l2 = [] \/ sz <= limit)) as [Hstop|Hgo].
  { assert ((limit <? sz) && negb (first_of l2 =? 0) = false) as ->.
    { destruct Hstop as [->|Hsz]; [apply andb_false_r|]. by rewrite (proj2 (Z.ltb_ge _ _)). }
    exists [], l2, b, d. split; [done|]. split; [done|]. split; [done|]. split; [by intros x ?%not_elem_of_nil|].
    destruct Hstop as [->|Hsz]; [by left|right]. cbn. lia. }
  apply Decidable.not_or in Hgo as [Hl2 Hsz]. rewrite (proj2 (Z.ltb_lt limit sz)) by lia. cbn [andb]. destruct l2 as [|h l2]; [done|].
  change (first_of (h :: l2)) with h. destruct (next_of l1 h l2 HL) as (c & Hc & Hnext & H0). rewrite (proj2 (Z.eqb_neq h 0) H0). cbn [negb].
  rewrite (run_bind (gets (fun db => dirties db !! h)) _ (with_disk d db) (Some c) (with_disk d db)) by (cbn; by rewrite <- Hc).
  assert (h ∈ L) as HhL by (rewrite HL; apply elem_of_app; right; left).
  destruct (listed_node db L Hso h HhL) as (c' & e & Hc' & _ & He & Heo & Hh & _). rewrite Hc in Hc'. injection Hc' as <-.
  unfold lift. rewrite He, (run_bind _ _ _ _ _ eq_refl). set (b1 := batch_Put (Hash_Bytes h) e b).
  destruct (write_if_ok (IdealBatchSize <=? b_size b1) b1 d db) as (b2 & d2 & Hw & Hf). rewrite (run_bind _ _ _ _ _ Hw). unfold b1 in Hf. rewrite flushed_Put in Hf.
  assert (grows (flushed b d) (flushed b2 d2)) as Hg.
  { rewrite Hf. apply grows_write; try done. intros k Hn. pose proof (so_inv _ _ Hso) as Hst.
    destruct (st_cover _ _ _ _ Hst h k HhL Hn) as [Hr|[e' Hd]]; [|exists e'; by apply Hle].
    destruct (st_order _ _ _ _ Hst l1 h l2 k HL Hr) as [Hk|[e' Hd]]; [by apply Hp|exists e'; by apply Hle]. }
  rewrite Hnext. destruct (IH (l1 ++ [h]) l2 (sz - (3 * 32 + cn_size c)) b2 d2) as (m1 & m2 & b3 & d3 & -> & Hrun & Hg3 & Hm1 & Hsize).
  - by rewrite <- app_assoc.
  - cbn in Hlen. lia.
  - by apply (gr_ok _ _ Hg).
  - intros k x Hk. by apply (gr_le _ _ Hg), Hle.
  - intros x [Hx|Hx%list_elem_of_singleton]%elem_of_app; [by apply (grows_Some _ _ _ Hg), Hp|]. subst x. rewrite Hf, lookup_insert_eq. by eexists.
  - exists (h :: m1), m2, b3, d3. split; [done|]. split; [exact Hrun|]. split; [by etransitivity|]. split.
    + intros x [->|Hx]%elem_of_cons; [|by apply Hm1]. apply (grows_Some _ _ _ Hg3). rewrite Hf, lookup_insert_eq. by eexists.
    + destruct Hsize as [|Hsize]; [by left|right]. cbn [weight foldr]. unfold node_weight at 1. rewrite Hc. unfold weight in Hsize. lia.
Qed.
End cap.

Lemma weight_same db db' l : (forall h, h ∈ l -> content <$> dirties db' !! h = content <$> dirties db !! h) -> weight db' l = weight db l.
Proof.
  intros Hs. induction l as [|h l IH]; [done|]. cbn. f_equal; [|apply IH; intros x Hx; apply Hs; by right]. specialize (Hs h ltac:(left)). unfold node_weight.
  destruct (dirties db' !! h), (dirties db !! h); try done. injection Hs as _ Hs _. by rewrite Hs.
Qed.
(** The oldest node goes, if it is on disk. *)
Lemma drop_oldest db h l c :
  store_inv needs db (h :: l) [] -> on_disk db h -> dirties db !! h = Some c -> cn_flushNext c = first_of l ->
  let db' := db_oldest (cn_flushNext c) (removed h c db) in
  store_inv needs db' l [] /\ shrinks db (h :: l) db' l /\ memory_size db' = memory_size db - node_weight db h.
Proof.
  intros Hst Hd Hc Hn db'. pose proof (st_nodup _ _ _ _ Hst) as Hnd. rewrite app_nil_r in Hnd. apply NoDup_cons in Hnd as [Hh Hnd].
  set (db1 := db_oldest (cn_flushNext c) db).
  assert (store_inv needs db1 l [h]) as Hst1.
  { apply (store_unlink needs db db1 [] h l []); [done|done| |by left]. destruct (st_list _ _ _ _ Hst) as [[_ Hs] Ho Hnew]. split; [by apply (seg_prev _ (Some h))|done|].
    intros Hl. cbn. rewrite <- Hnew by done. destruct l; [done|by rewrite last_cons_cons]. }
  destruct (store_remove needs db1 h c l [] Hst1) as [_ Hst2]. split; [exact Hst2|]. assert (h <> 0) as H0 by (apply (st_keys _ _ _ _ Hst); left). split; [split; try done|].
  - set_solver.
  - intros x [->|Hx]%elem_of_cons; [by right|by left].
  - intros x Hx. cbn. rewrite lookup_delete_ne; [done|]. intros <-. by destruct Hx.
  - unfold memory_size, db_Size, node_weight. rewrite Hc. cbn. rewrite map_size_delete_Some by (by exists c).
    assert (0 < size (dirties db))%nat; [|lia]. assert (size (dirties db) <> 0%nat); [|lia]. intros Hz%map_size_empty_inv. by rewrite Hz, lookup_empty in Hc.
Qed.
Lemma cap_remove_ok fuel : forall db m1 m2,
  store_inv needs db (m1 ++ m2) [] -> (forall x, x ∈ m1 -> on_disk db x) -> (length m1 < fuel)%nat ->
  exists db', cap_remove fuel (first_of m2) db = Ok (tt, db') /\ store_inv needs db' m2 [] /\ shrinks db (m1 ++ m2) db' m2 /\
    memory_size db' = memory_size db - weight db m1.
Proof.
  induction fuel as [|fuel IH]; intros db m1 m2 Hst Hd Hlen; [lia|]. cbn [cap_remove]. rewrite (run_bind (gets id) _ db _ db eq_refl). cbn [id].
  destruct (st_list _ _ _ _ Hst) as [Hseg Ho _]. rewrite Ho. destruct m1 as [|h m1].
  { rewrite (proj2 (Z.eqb_eq _ _)) by done. exists db. split; [done|]. split; [done|]. split; [apply shrinks_refl|]. cbn. lia. }
  cbn [app head default from_option id]. pose proof (st_nodup _ _ _ _ Hst) as Hnd. rewrite app_nil_r in Hnd. apply NoDup_cons in Hnd as [Hh Hnd].
  assert (h <> 0) as H0 by (apply (st_keys _ _ _ _ Hst); left).
  rewrite (proj2 (Z.eqb_neq h (first_of m2))) by (destruct m2 as [|y m2]; [done|]; intros ->; apply Hh; set_solver). cbn [negb].
  destruct Hseg as [(c & Hc & Hn & _) _]. rewrite Hc. 
  destruct (drop_oldest db h (m1 ++ m2) c Hst (Hd h ltac:(left)) Hc Hn) as (Hst1 & Hsh & Hw).
  set (db1 := db_oldest (cn_flushNext c) (removed h c db)) in *.
  rewrite (run_bind (remove_node h c) _ db tt (removed h c db) eq_refl), (run_bind (modify _) _ _ tt db1 eq_refl).
  destruct (IH db1 m1 m2 Hst1) as (db' & Hrun & Hst' & Hsh' & Hw'); [|cbn in Hlen; lia|].
  - intros x Hx. unfold on_disk. rewrite (sh_disk _ _ _ _ Hsh). apply Hd. by right.
  - exists db'. split; [done|]. split; [done|]. split; [by eapply shrinks_trans|]. rewrite Hw', Hw. cbn [weight foldr].
    assert (weight db1 m1 = weight db m1) as ->; [|unfold weight; lia]. apply weight_same. intros x Hx. apply (sh_same _ _ _ _ Hsh). right. set_solver.
Qed.

(** The node that is the oldest now has none before it. *)
Lemma reset_prev db l :
  store_inv needs db l [] ->
  exists db', (db0 ← gets id; when (negb (oldest db0 =? 0)) (update_cached (oldest db0) (cn_with_prev 0))) db = Ok (tt, db') /\
    store_inv needs db' l [] /\ shrinks db l db' l /\ memory_size db' = memory_size db.
Proof.
  intros Hst. rewrite (run_bind (gets id) _ db _ db eq_refl). cbn [id]. destruct (st_list _ _ _ _ Hst) as [Hseg Ho Hnew]. rewrite Ho.
  destruct l as [|h l]; [exists db; split; [done|]; split; [done|]; split; [apply shrinks_refl|done]|]. cbn [head default from_option id].
  rewrite (proj2 (Z.eqb_neq h 0)) by (apply (st_keys _ _ _ _ Hst); left). cbn [negb when]. destruct Hseg as [(c & Hc & Hn & _) Hs].
  destruct (update_link h (cn_with_prev 0) db) as (c' & Hc' & Hrun & Hsame); [done|by exists c|]. rewrite Hc in Hc'. injection Hc' as <-.
  exists (db_dirties <[h := cn_with_prev 0 c]> db). split; [exact Hrun|]. split; [|split; [split; try apply Hsame; [done|by left|intros x _; apply Hsame]|]].
  - apply (store_similar needs db); [done|by apply same_nodes_similar|]. split; [|done..]. apply seg_insert_head; try done.
    apply st_nodup in Hst. rewrite app_nil_r in Hst. by apply NoDup_cons in Hst as [? _].
  - unfold memory_size, db_Size. cbn. by rewrite map_size_insert_Some by (by exists c).
Qed.
Lemma Cap_ok db L limit :
  store_ok db L -> exists db' L', Cap limit db = Ok (tt, db') /\ store_ok db' L' /\ settles db L db' L' /\ (exists l, L = l ++ L') /\
    (memory_size db' <= limit \/ L' = []).
Proof.
  intros Hso. pose proof (so_inv _ _ Hso) as Hst. unfold Cap. rewrite (run_bind (gets id) _ db _ db eq_refl). cbv zeta. change (id db) with db.
  set (flush := 4 * 1024 * 1024 <? preimagesSize db). set (d1 := if flush then with_preimages (map_to_list (preimages db)) (diskdb db) else diskdb db).
  assert (exists b1 d0, (if flush then put_preimages (map_to_list (preimages db)) NewBatch else mret NewBatch) db = Ok (b1, with_disk d0 db) /\ flushed b1 d0 = d1)
    as (b1 & d0 & Hrun1 & Hf1).
  { unfold d1. destruct flush; [|exists NewBatch, (diskdb db); by rewrite with_disk_same].
    destruct (put_preimages_ok (map_to_list (preimages db)) NewBatch (diskdb db) db) as (b1 & d0 & Hrun1 & Hf1). rewrite with_disk_same in Hrun1. by exists b1, d0. }
  rewrite (run_bind _ _ _ _ _ Hrun1).
  assert (disk_le (diskdb db) d1 /\ disk_ok d1 /\ disk_closed d1) as (Hle1 & Hok1 & Hcl1).
  { destruct (with_preimages_grows (map_to_list (preimages db)) (diskdb db)) as (A & B & C). pose proof (so_disk _ _ Hso) as Hdk.
    assert (disk_closed (diskdb db)) as Hdc by (intros h k; apply (st_disk _ _ _ _ Hst)). unfold d1. destruct flush; [by auto|]. split; [by intros h e|done]. }
  assert (length L < S (size (dirties db)))%nat as Hlen.
  { rewrite <- size_dom. rewrite <- (size_list_to_set (C := gset Hash) L) by (by eapply store_nodup).
    apply Nat.lt_succ_r, subseteq_size. intros x Hx%elem_of_list_to_set. apply elem_of_dom. by apply (listed db L Hso). }
  destruct (cap_write_ok db L Hso limit (S (size (dirties db))) [] L (dirtiesSize db + (Z.of_nat (size (dirties db)) - 1) * 2 * 32) b1 d0) as
    (m1 & m2 & b2 & d2 & HL & Hrun2 & Hg & Hm1 & Hsize); [done|done|by rewrite Hf1|by rewrite Hf1|by intros x ?%not_elem_of_nil|].
  rewrite (fl_oldest _ _ (st_list _ _ _ _ Hst)). fold (first_of L). rewrite (run_bind _ _ _ _ _ Hrun2). rewrite Hf1 in Hg. set (X := flushed b2 d2) in *.
  rewrite (run_bind (batch_Write b2) _ (with_disk d2 db) tt (with_disk X db) eq_refl). set (db1 := if flush then db_preimages ∅ 0 (with_disk X db) else with_disk X db).
  rewrite (run_bind (when flush _) _ (with_disk X db) tt db1) by (unfold db1; by destruct flush).
  assert (disk_le (diskdb db) X) as Hle by (intros h e He; by apply (gr_le _ _ Hg), Hle1).
  assert (store_ok db1 L) as Hso1.
  { pose proof (store_with_disk db L X Hso (gr_ok _ _ Hg Hok1) (gr_closed _ _ Hg Hcl1) Hle). unfold db1. destruct flush; [by apply store_without_preimages|done]. }
  assert (diskdb db1 = X /\ cleans db1 = cleans db /\ dirties db1 = dirties db /\ dirtiesSize db1 = dirtiesSize db) as (Hd1 & Hc1 & Hdi1 & Hds1) by (unfold db1; by destruct flush).
  destruct (cap_remove_ok (S (size (dirties db))) db1 m1 m2) as (db2 & Hrun3 & Hst2 & Hsh2 & Hw2).
  { rewrite <- HL. apply Hso1. }
  { intros x Hx. unfold on_disk. rewrite Hd1. by apply Hm1. }
  { rewrite HL, length_app in Hlen. lia. }
  rewrite (run_bind _ _ _ _ _ Hrun3). destruct (reset_prev db2 m2 Hst2) as (db' & Hrun4 & Hst' & Hsh' & Hw'). exists db', m2. split; [exact Hrun4|].
  pose proof (shrinks_trans _ _ _ _ _ _ Hsh2 Hsh') as Hsh. rewrite <- HL in Hsh. split; [by apply (store_shrinks db1 L)|]. split; [split|split; [by exists m1|]].
  - by rewrite (sh_disk _ _ _ _ Hsh), Hd1.
  - by rewrite (sh_cleans _ _ _ _ Hsh).
  - apply Hsh.
  - intros x Hx. destruct (sh_gone _ _ _ _ Hsh x Hx) as [|Hd]; [by left|right]. unfold on_disk. by rewrite (sh_disk _ _ _ _ Hsh).
  - intros x Hx. rewrite (sh_same _ _ _ _ Hsh) by done. by rewrite Hdi1.
  - intros h Hh. unfold db_preimage at 1. rewrite (sh_preimages _ _ _ _ Hsh), (sh_disk _ _ _ _ Hsh), Hd1. unfold db1, d1 in *. destruct flush.
    + cbn. rewrite lookup_empty. by apply (preimages_written db L).
    + cbn. rewrite (gr_other _ _ Hg); [done|apply secureKey_long].
  - destruct Hsize as [|Hsize]; [by right|left]. rewrite Hw', Hw2. assert (weight db1 m1 = weight db m1) as -> by (apply weight_same; by rewrite Hdi1).
    unfold memory_size, db_Size. by rewrite Hds1, Hdi1.
Qed.

(** Flushing to a limit ends and loses nothing: the oldest nodes go to disk
    until the memory that the rest takes is within the limit, or none is left.
    Every trie and every preimage can still be read. *)
Theorem Cap_keeps db L limit :
  store_ok db L -> exists db' L', Cap limit db = Ok (tt, db') /\ store_ok db' L' /\ (exists l, L = l ++ L') /\ (memory_size db' <= limit \/ L' = []) /\
    (forall h f, opens db h f -> opens db' h f) /\ (forall h, is_hash h -> db_preimage h db' = db_preimage h db).
Proof.
  intros Hso. destruct (Cap_ok db L limit Hso) as (db' & L' & Hrun & Hso' & Hse & Hl & Hsize). exists db', L'. pose proof (settles_le db L db' L' Hso Hso' Hse).
  split_and!; try done; [|apply Hse]. intros h f. by apply opens_le.
Qed.
End flush.
