(* ===== verification/TrieGc.v ===== *)
(** * Counting references

    The garbage collection of [trie/database.go]: a node that is not on disk
    counts the references to it, and goes when there are none left. *)

From stdpp Require Import gmap.
From S2P Require Import Prelude CommonMath Rlp RlpSpec StateIface ConcreteCrypto TrieKey TrieNode Trie TrieSpec TrieProps TrieDatabase Hasher TrieCodec HasherProps DatabaseProps TrieStore TrieCommit TrieFlush.
Local Open Scope Z_scope.
#[local] Arguments Hash_Bytes _ : simpl never.

Implicit Types (h k : Hash) (db : TrieDB) (L D X : list Hash).

(** ** References *)

Definition occ h (l : list Hash) : Z := Z.of_nat (count_occ Z.eq_dec l h).
Lemma occ_app h l1 l2 : occ h (l1 ++ l2) = occ h l1 + occ h l2.
Proof. unfold occ. rewrite count_occ_app. lia. Qed.
Lemma occ_cons h k l : occ h (k :: l) = (if decide (h = k) then 1 else 0) + occ h l.
Proof. unfold occ. cbn. destruct (Z.eq_dec k h) as [->|Hne]; [rewrite decide_True by done; lia|rewrite decide_False by congruence; lia]. Qed.
Lemma occ_nonneg h l : 0 <= occ h l.
Proof. unfold occ. lia. Qed.
Lemma occ_zero h l : occ h l = 0 -> h ∉ l.
Proof. unfold occ. intros Ho Hin. apply list_elem_of_In, (count_occ_In Z.eq_dec) in Hin. lia. Qed.
Lemma occ_none h l : h ∉ l -> occ h l = 0.
Proof. intros Hin. unfold occ. rewrite list_elem_of_In in Hin. apply (count_occ_not_In Z.eq_dec) in Hin. by rewrite Hin. Qed.

(** The references to roots, to a node from the nodes of a list, and the count of
    a node. *)
Definition meta_refs db h : Z := match dirties db !! 0 with Some m => default 0 (cn_children m !! h) | None => 0 end.
Definition refs_to db L h : Z := foldr (fun p n => occ h (refs_at db p) + n) 0 L.
Definition parents_at db h : option Z := cn_parents <$> dirties db !! h.
Lemma refs_to_app db l1 l2 h : refs_to db (l1 ++ l2) h = refs_to db l1 h + refs_to db l2 h.
Proof. induction l1 as [|p l1 IH]; [done|]. cbn. unfold refs_to in *. lia. Qed.
Lemma refs_to_nonneg db L h : 0 <= refs_to db L h.
Proof. induction L as [|p L IH]; [done|]. cbn. pose proof (occ_nonneg h (refs_at db p)). unfold refs_to in *. lia. Qed.
Lemma refs_to_zero db L h : refs_to db L h = 0 -> forall p, p ∈ L -> h ∉ refs_at db p.
Proof.
  induction L as [|x L IH]; [by intros _ p ?%not_elem_of_nil|]. cbn. intros Hz p Hp. pose proof (occ_nonneg h (refs_at db x)). pose proof (refs_to_nonneg db L h).
  unfold refs_to in *. apply elem_of_cons in Hp as [->|Hp]; [apply occ_zero; lia|apply IH; [lia|done]].
Qed.
Lemma refs_to_none db L h : (forall p, p ∈ L -> h ∉ refs_at db p) -> refs_to db L h = 0.
Proof.
  induction L as [|x L IH]; [done|]. intros Hn. cbn. rewrite occ_none by (apply Hn; left). apply IH. intros p Hp. apply Hn. by right.
Qed.
Lemma refs_to_same db db' L h : (forall p, p ∈ L -> refs_at db' p = refs_at db p) -> refs_to db' L h = refs_to db L h.
Proof. intros Hs. induction L as [|x L IH]; [done|]. cbn. rewrite Hs by left. f_equal. apply IH. intros p Hp. apply Hs. by right. Qed.

Lemma refs_to_Permutation db L L' h : L ≡ₚ L' -> refs_to db L h = refs_to db L' h.
Proof. induction 1 as [|x l l' _ IH|x y l|l1 l2 l3 _ IH1 _ IH2]; cbn; unfold refs_to in *; lia. Qed.

(** The references that a node that is not on disk counts; [X] are those that are
    about to go, [wrap] is the width of the counter. *)
Definition total_refs db L X h : Z := meta_refs db h + refs_to db L h + occ h X.
Record counted (wrap : Z -> Z) db L X : Prop := {
  ct_meta h : 0 <= meta_refs db h < 2 ^ 16;
  ct_live h : 0 < meta_refs db h -> h ∈ L \/ on_disk db h;
  ct_type h n : parents_at db h = Some n -> 0 <= n < 2 ^ 32;
  ct_exact h : h ∈ L -> ~ on_disk db h -> parents_at db h = Some (wrap (total_refs db L X h));
}.
Abbreviation exactly := (counted (fun n => n)).
Abbreviation modulo := (counted (fun n => n mod 2 ^ 32)).
Lemma total_nonneg wrap db L X h : counted wrap db L X -> 0 <= total_refs db L X h.
Proof. intros Hct. pose proof (ct_meta _ _ _ _ Hct h). pose proof (refs_to_nonneg db L h). pose proof (occ_nonneg h X). unfold total_refs. lia. Qed.
Lemma exactly_modulo db L X : exactly db L X -> modulo db L X.
Proof.
  intros Hct. split; try apply Hct. intros h Hh Hd. pose proof (ct_exact _ _ _ _ Hct h Hh Hd) as Hp. rewrite Hp. pose proof (ct_type _ _ _ _ Hct h _ Hp). by rewrite Z.mod_small.
Qed.
Lemma modulo_exactly db L X : modulo db L X -> (forall h, total_refs db L X h < 2 ^ 32) -> exactly db L X.
Proof.
  intros Hct Hs. split; try apply Hct. intros h Hh Hd. rewrite (ct_exact _ _ _ _ Hct h Hh Hd). pose proof (total_nonneg _ _ _ _ h Hct). by rewrite Z.mod_small.
Qed.
(** What the counters depend on. *)
Record same_counts db db' L : Prop := {
  sn_meta h : meta_refs db' h = meta_refs db h;
  sn_ondisk : diskdb db' = diskdb db;
  sn_refs h : h ∈ L -> refs_at db' h = refs_at db h;
  sn_parents h : parents_at db' h = parents_at db h \/ parents_at db' h = None /\ h ∉ L;
}.
Lemma counted_same wrap db db' L X : same_counts db db' L -> counted wrap db L X -> counted wrap db' L X.
Proof.
  intros [A1 A2 A3 A4] Hct. assert (forall h, on_disk db' h <-> on_disk db h) as Hd by (intros h; unfold on_disk; by rewrite A2). split.
  - intros h. rewrite A1. apply Hct.
  - intros h. rewrite A1, Hd. apply Hct.
  - intros h n. destruct (A4 h) as [->|[-> _]]; [apply Hct|done].
  - intros h Hh. rewrite Hd. destruct (A4 h) as [->|[_ ?]]; [|done]. unfold total_refs. rewrite A1, (refs_to_same db db') by done. by apply Hct.
Qed.
Lemma same_nodes_counts db db' L : same_nodes db db' -> same_counts db db' L.
Proof.
  intros Hs. assert (forall A (g : cachedNode -> A), (forall c c', content c' = content c -> g c' = g c) -> forall h, g <$> dirties db' !! h = g <$> dirties db !! h) as Hg.
  { intros A g Hg h. pose proof (sn_dirties _ _ Hs h) as Heq. destruct (dirties db' !! h), (dirties db !! h); try done. apply (inj Some) in Heq. cbn. by rewrite (Hg _ _ Heq). }
  split.
  - intros h. unfold meta_refs. pose proof (Hg _ cn_children ltac:(by intros [] []; cbn; intros [= _ _ _ ->]) 0) as Hm. destruct (dirties db' !! 0), (dirties db !! 0); try done.
    cbn in Hm. by injection Hm as ->.
  - apply Hs.
  - intros h _. unfold refs_at. by rewrite (Hg _ childs childs_content h).
  - intros h. left. apply (Hg _ cn_parents). by intros [] []; cbn; intros [= _ _ -> _].
Qed.

(** ** Dereferencing *)

Section gc.
Context `{Crypto} {CL : CryptoLaws} (Q : bytes -> Prop) {CF : CollisionFree Q} (needs : Hash -> Hash -> Prop) (rank : Hash -> nat) {ND : Needs Q needs rank}.
Abbreviation inv := (store_inv needs).
Abbreviation enough := (TrieFlush.enough rank).

Lemma store_update db h c c' L D :
  inv db L D -> dirties db !! h = Some c -> (h ∈ L -> childs c' = childs c) -> cn_flushNext c' = cn_flushNext c -> cn_flushPrev c' = cn_flushPrev c ->
  inv (db_dirties <[h := c']> db) L D /\ forall x, x ∈ L -> refs_at (db_dirties <[h := c']> db) x = refs_at db x.
Proof.
  intros Hst Hc Hcs Hn Hp.
  assert (forall x, x ∈ L -> childs <$> dirties (db_dirties <[h := c']> db) !! x = childs <$> dirties db !! x) as Hch.
  { intros x Hx. cbn. destruct (decide (x = h)) as [->|Hne]; [rewrite lookup_insert_eq, Hc; cbn; by rewrite Hcs|by rewrite lookup_insert_ne]. }
  split; [|intros x Hx; unfold refs_at; by rewrite Hch]. apply (store_similar needs db); [done| |].
  - split; try done. intros x. cbn. rewrite lookup_insert_is_Some. split; [intros [<-|[_ ?]]; [by exists c|done]|]. intros ?. destruct (decide (h = x)); [by left|by right].
  - destruct (st_list _ _ _ _ Hst) as [Hs Ho Hnew]. split; [|done..]. apply (seg_same (dirties db)); [|done]. intros x cx Hx Hcx. cbn.
    destruct (decide (x = h)) as [->|Hne]; [|exists cx; by rewrite lookup_insert_ne]. rewrite Hc in Hcx. injection Hcx as <-. exists c'. by rewrite lookup_insert_eq.
Qed.

Record freed db L db' L' : Prop := {
  fr_kept : kept db db' L';
  fr_sub : L' ⊆ L;
  fr_meta h : meta_refs db' h = meta_refs db h;
  fr_refs h : h ∈ L' -> refs_at db' h = refs_at db h;
}.
Lemma freed_refl db L : freed db L db L.
Proof. by split. Qed.
Lemma freed_trans db L db1 L1 db2 L2 : freed db L db1 L1 -> freed db1 L1 db2 L2 -> freed db L db2 L2.
Proof.
  intros [[A1 A2 A3 A4] A5 A6 A7] [[B1 B2 B3 B4] B5 B6 B7]. split; [split; try congruence|set_solver|congruence|intros x Hx; rewrite B7, A7; [done|by apply B5|done]].
  intros x Hx. rewrite B4, A4; [done|destruct Hx; [by left|right; by apply B5]|done].
Qed.
Lemma freed_disk db L db' L' h : freed db L db' L' -> on_disk db' h <-> on_disk db h.
Proof. intros [[A _ _ _] _ _ _]. unfold on_disk. by rewrite A. Qed.

(** What is done with the child, once the parent has lost it. *)
Definition parents_less (c : cachedNode) : Z := if 0 <? cn_parents c then cn_parents c - 1 else cn_parents c.
Definition release (fuel : nat) (child : Hash) : M TrieDB unit :=
  c ← gets (fun db => dirties db !! child);
  match c with
  | None => mret tt
  | Some node =>
      update_cached child (cn_with_parents (parents_less node));;
      if parents_less node =? 0 then
        unlink child node;; hs ← lift (childs node); for_each (fun h => dereference fuel h child) hs;; remove_node child node
      else mret tt
  end.
Lemma dereference_release fuel child parent : dereference (S fuel) child parent = (update_cached parent (drop_child child);; release fuel child).
Proof. done. Qed.

(** A pending reference is taken off the count. *)
Lemma counted_less db L X k c :
  exactly db L (k :: X) -> dirties db !! k = Some c -> k <> 0 -> (forall x, x ∈ L -> refs_at (db_dirties <[k := cn_with_parents (parents_less c) c]> db) x = refs_at db x) ->
  exactly (db_dirties <[k := cn_with_parents (parents_less c) c]> db) L X.
Proof.
  intros Hct Hc H0 Hrefs. set (db1 := db_dirties _ db) in *. assert (forall h, meta_refs db1 h = meta_refs db h) as Hm by (intros h; unfold meta_refs; cbn; by rewrite lookup_insert_ne).
  assert (forall h, h <> k -> parents_at db1 h = parents_at db h) as Hp by (intros h Hne; unfold parents_at; cbn; by rewrite lookup_insert_ne).
  assert (parents_at db1 k = Some (parents_less c)) as Hpk by (unfold parents_at; cbn; by rewrite lookup_insert_eq).
  assert (parents_at db k = Some (cn_parents c)) as Hpc by (unfold parents_at; by rewrite Hc).
  assert (forall h, total_refs db1 L X h = total_refs db L (k :: X) h - (if decide (h = k) then 1 else 0)) as Ht.
  { intros h. unfold total_refs. rewrite Hm, occ_cons, (refs_to_same db db1) by done. lia. }
  pose proof (ct_type _ _ _ _ Hct k _ Hpc) as Hrange. split.
  - intros h. rewrite Hm. apply Hct.
  - intros h. rewrite Hm. apply Hct.
  - intros h n. destruct (decide (h = k)) as [->|Hne]; [|rewrite Hp by done; apply Hct]. rewrite Hpk. intros [= <-]. unfold parents_less. destruct (Z.ltb_spec 0 (cn_parents c)); lia.
  - intros h Hh Hd. rewrite Ht. pose proof (ct_exact _ _ _ _ Hct h Hh Hd) as He. destruct (decide (h = k)) as [->|Hne]; [|rewrite Hp, He by done; f_equal; lia].
    rewrite Hpk. rewrite Hpc in He. injection He as He. f_equal. unfold parents_less. assert (0 < total_refs db L (k :: X) k); [|destruct (Z.ltb_spec 0 (cn_parents c)); lia].
    unfold total_refs. rewrite occ_cons, decide_True by done. pose proof (ct_meta _ _ _ _ Hct k). pose proof (refs_to_nonneg db L k). pose proof (occ_nonneg k X). lia.
Qed.
(** The node leaves the list: its references are pending. *)
Lemma counted_unlink db db' l1 k l2 X :
  exactly db (l1 ++ k :: l2) X -> same_nodes db db' -> (on_disk db k \/ total_refs db (l1 ++ k :: l2) X k = 0) -> exactly db' (l1 ++ l2) (refs_at db k ++ X).
Proof.
  intros Hct Hs Hk. apply (counted_same _ db); [by apply same_nodes_counts|]. assert (forall h, total_refs db (l1 ++ l2) (refs_at db k ++ X) h = total_refs db (l1 ++ k :: l2) X h) as Ht.
  { intros h. unfold total_refs. rewrite !refs_to_app, occ_app. cbn. unfold refs_to. lia. }
  split; [apply Hct| |apply Hct|].
  - intros h Hm. destruct (ct_live _ _ _ _ Hct h Hm) as [Hh|]; [|by right]. destruct (decide (h = k)) as [->|Hne]; [|left; set_solver]. destruct Hk as [|Hk]; [by right|].
    unfold total_refs in Hk. pose proof (refs_to_nonneg db (l1 ++ k :: l2) k). pose proof (occ_nonneg k X). lia.
  - intros h Hh Hd. rewrite Ht. apply Hct; [set_solver|done].
Qed.

Lemma update_run h g db c : dirties db !! h = Some c -> update_cached h g db = Ok (tt, db_dirties <[h := g c]> db).
Proof. intros Hc. unfold update_cached. by rewrite (run_bind (gets (fun db => dirties db !! h)) _ db _ db eq_refl), Hc. Qed.
Lemma drop_child_same k c : cn_node (drop_child k c) = cn_node c /\ cn_parents (drop_child k c) = cn_parents c /\
  cn_flushNext (drop_child k c) = cn_flushNext c /\ cn_flushPrev (drop_child k c) = cn_flushPrev c.
Proof. unfold drop_child. destruct (cn_children c !! k) as [n|]; [|done]. by destruct (0 <? n). Qed.
(** The parent, which is about to go, loses the child. *)
Lemma parent_drops p k db L D X :
  inv db L D -> exactly db L X -> p ∈ D ->
  exists db', update_cached p (drop_child k) db = Ok (tt, db') /\ inv db' L D /\ exactly db' L X /\ freed db L db' L.
Proof.
  intros Hst Hct HD. assert (is_hash p /\ p <> 0) as [_ H0] by (apply (st_keys _ _ _ _ Hst), elem_of_app; by right).
  destruct (proj2 (st_dom _ _ _ _ Hst p)) as [c Hc]; [right; apply elem_of_app; by right|]. destruct (drop_child_same k c) as (Hn & Hp & Hf & Hb).
  assert (p ∉ L) as HL by (intros HL; apply st_nodup, NoDup_app in Hst as (_ & Hdis & _); by apply (Hdis p)).
  destruct (store_update db p c (drop_child k c) L D Hst Hc) as [Hst' Hrefs]; [done..|]. exists (db_dirties <[p := drop_child k c]> db). rewrite (update_run p _ db c Hc).
  assert (forall h, meta_refs (db_dirties <[p := drop_child k c]> db) h = meta_refs db h) as Hm by (intros h; unfold meta_refs; cbn; by rewrite lookup_insert_ne).
  split; [done|]. split; [done|]. split.
  - apply (counted_same _ db); [|done]. split; try done. intros h. left. unfold parents_at. cbn. destruct (decide (h = p)) as [->|Hne]; [|by rewrite lookup_insert_ne].
    rewrite lookup_insert_eq, Hc. cbn. by rewrite Hp.
  - split; [split; try done|done|done|done]. intros x Hx. cbn. rewrite lookup_insert_ne; [done|]. intros <-. by destruct Hx.
Qed.

Definition releases fuel : Prop := forall k db L D X,
  inv db L D -> exactly db L (k :: X) -> enough (S fuel) L k -> is_hash k /\ k <> 0 -> (forall x, x ∈ D -> (rank k < rank x)%nat) ->
  exists db' L', release fuel k db = Ok (tt, db') /\ inv db' L' D /\ exactly db' L' X /\ freed db L db' L'.
Lemma dereference_all_ok fuel p hs : releases fuel -> forall db L D X, inv db L D -> exactly db L (hs ++ X) -> p ∈ D ->
  (forall k, k ∈ hs -> enough (S fuel) L k /\ (is_hash k /\ k <> 0) /\ forall x, x ∈ D -> (rank k < rank x)%nat) ->
  exists db' L', for_each (fun h => dereference (S fuel) h p) hs db = Ok (tt, db') /\ inv db' L' D /\ exactly db' L' X /\ freed db L db' L'.
Proof.
  intros IH. induction hs as [|k hs IHhs]; intros db L D X Hst Hct HD Hhs; [exists db, L; split; [done|]; split; [done|]; split; [done|apply freed_refl]|].
  cbn [for_each]. rewrite dereference_release. destruct (parent_drops p k db L D _ Hst Hct HD) as (db1 & Hrun1 & Hst1 & Hct1 & Hf1).
  destruct (Hhs k) as (He & Hk & Hr); [left|]. destruct (IH k db1 L D (hs ++ X) Hst1 Hct1 He Hk Hr) as (db2 & L2 & Hrun2 & Hst2 & Hct2 & Hf2).
  rewrite (run_bind _ _ db tt db2) by (by rewrite (run_bind _ _ _ _ _ Hrun1)).
  destruct (IHhs db2 L2 D X Hst2 Hct2 HD) as (db3 & L3 & Hrun3 & Hst3 & Hct3 & Hf3).
  - intros x Hx. destruct (Hhs x) as (Hex & Hkx & Hrx); [by right|]. split; [|done]. apply (enough_sub rank (S fuel) L); [by eapply store_nodup|apply Hf2|done].
  - exists db3, L3. split; [done|]. split; [done|]. split; [done|]. eapply freed_trans; [exact Hf1|]. by eapply freed_trans.
Qed.
(** A node without references goes. *)
Lemma release_node fuel k c db L D X :
  (forall db1 L1, inv db1 L1 (k :: D) -> exactly db1 L1 (refs_at db k ++ X) -> L1 ⊆ L ->
    exists db2 L2, for_each (fun h => dereference fuel h k) (refs_at db k) db1 = Ok (tt, db2) /\ inv db2 L2 (k :: D) /\ exactly db2 L2 X /\ freed db1 L1 db2 L2) ->
  inv db L D -> exactly db L X -> dirties db !! k = Some c -> k ∈ L -> (on_disk db k \/ total_refs db L X k = 0) ->
  exists db' L', (unlink k c;; hs ← lift (childs c); for_each (fun h => dereference fuel h k) hs;; remove_node k c) db = Ok (tt, db') /\
    inv db' L' D /\ exactly db' L' X /\ freed db L db' L'.
Proof.
  intros Hloop Hst Hct Hc Hk Hgo. pose proof (st_childs _ _ _ _ Hst k Hk) as Hcs. rewrite Hc in Hcs. injection Hcs as Hcs.
  assert (k <> 0) as H0 by (apply (st_keys _ _ _ _ Hst), elem_of_app; by left).
  destruct (store_split needs db L D k Hst H0) as (c' & l1 & l2 & Hc' & -> & Hnot); [by exists c| |].
  { intros HD. apply st_nodup, NoDup_app in Hst as (_ & Hdis & _). by apply (Hdis k). }
  clear c' Hc'. destruct (unlink_ok db k c) with (l1 := l1) (l2 := l2) as (db1 & Hun & Hs1 & Hfl);
    [apply (st_dom _ _ _ _ Hst); by left|done|apply (st_list _ _ _ _ Hst)|by eapply store_nodup|].
  rewrite (run_bind _ _ _ _ _ Hun). unfold lift. rewrite Hcs, (run_bind _ _ _ _ _ eq_refl).
  assert (inv db1 (l1 ++ l2) (k :: D)) as Hst1.
  { apply (store_unlink needs db); try done. destruct Hgo as [|Hgo]; [by left|right]. intros x Hx. apply (refs_to_zero db (l1 ++ k :: l2)); [|set_solver].
    unfold total_refs in Hgo. pose proof (ct_meta _ _ _ _ Hct k). pose proof (refs_to_nonneg db (l1 ++ k :: l2) k). pose proof (occ_nonneg k X). lia. }
  destruct (Hloop db1 (l1 ++ l2) Hst1) as (db2 & L2 & Hrun & Hst2 & Hct2 & Hf2); [by apply counted_unlink|set_solver|].
  rewrite (run_bind _ _ _ _ _ Hrun). destruct (store_remove needs db2 k c L2 D Hst2) as [Hrm Hst3]. exists (removed k c db2), L2. split; [exact Hrm|]. split; [done|].
  assert (k ∉ L2) as HL2 by (intros Hin; by apply Hnot, (fr_sub _ _ _ _ Hf2)).
  assert (forall h, h <> k -> dirties (removed k c db2) !! h = dirties db2 !! h) as Hd by (intros h Hne; cbn; by rewrite lookup_delete_ne).
  split.
  - apply (counted_same _ db2); [|done]. split; try done.
    + intros h. unfold meta_refs. by rewrite Hd.
    + intros h Hh. unfold refs_at. rewrite Hd; [done|]. by intros ->.
    + intros h. unfold parents_at. destruct (decide (h = k)) as [->|Hne]; [right; cbn; by rewrite lookup_delete_eq|left; by rewrite Hd].
  - assert (freed db (l1 ++ k :: l2) db1 (l1 ++ l2)) as Hf1.
    { split; [split; try apply Hs1|set_solver|apply (same_nodes_counts db db1 []), Hs1|apply (same_nodes_counts db db1), Hs1]. intros x _. pose proof (sn_dirties _ _ Hs1 x) as Heq.
      destruct (dirties db1 !! x), (dirties db !! x); try done. cbn. by injection Heq as ->. }
    apply (freed_trans _ _ db1 (l1 ++ l2)); [done|]. apply (freed_trans _ _ db2 L2); [done|]. split; [split; try done|done|intros h; unfold meta_refs; by rewrite Hd|].
    + intros x Hx. rewrite Hd; [done|]. intros ->. by destruct Hx.
    + intros x Hx. unfold refs_at. rewrite Hd; [done|]. by intros ->.
Qed.
Lemma release_absent fuel k db L D X :
  inv db L D -> exactly db L (k :: X) -> dirties db !! k = None ->
  exists db' L', release fuel k db = Ok (tt, db') /\ inv db' L' D /\ exactly db' L' X /\ freed db L db' L'.
Proof.
  intros Hst Hct Hc. exists db, L. unfold release. rewrite (run_bind (gets (fun db => dirties db !! k)) _ db _ db eq_refl), Hc. split; [done|]. split; [done|].
  split; [|apply freed_refl]. split; try apply Hct. intros h Hh Hd. rewrite (ct_exact _ _ _ _ Hct h Hh Hd). unfold total_refs. rewrite occ_cons, decide_False; [done|].
  intros ->. destruct (proj2 (st_dom _ _ _ _ Hst k)) as [c Hc']; [right; apply elem_of_app; by left|]. congruence.
Qed.
Lemma release_ok fuel : releases fuel.
Proof.
  induction fuel as [|fuel IH]; intros k db L D X Hst Hct He [Hk H0] Hr; (destruct (dirties db !! k) as [c|] eqn:Hc; [|by apply release_absent]);
    (assert (k ∈ L) as HkL by (destruct (proj1 (st_dom _ _ _ _ Hst k)) as [|[|HD]%elem_of_app]; [by exists c|done|done|specialize (Hr k HD); lia]));
    pose proof (proj2 He HkL) as Hfuel; [lia|].
  unfold release. rewrite (run_bind (gets (fun db => dirties db !! k)) _ db _ db eq_refl), Hc. set (c1 := cn_with_parents (parents_less c) c).
  rewrite (run_bind _ _ _ _ _ (update_run k _ db c Hc)). fold c1. set (db1 := db_dirties <[k := c1]> db).
  destruct (store_update db k c c1 L D Hst Hc) as [Hst1 Hrefs]; [done..|]. pose proof (counted_less db L X k c Hct Hc H0 Hrefs) as Hct1. fold c1 db1 in Hst1, Hrefs, Hct1.
  assert (dirties db1 !! k = Some c1) as Hc1 by (cbn; by rewrite lookup_insert_eq).
  assert (freed db L db1 L) as Hf1.
  { split; [split; try done|done|intros h; unfold meta_refs; cbn; by rewrite lookup_insert_ne|done]. intros x _. cbn. destruct (decide (x = k)) as [->|Hne]; [|by rewrite lookup_insert_ne].
    by rewrite lookup_insert_eq, Hc. }
  destruct (Z.eqb_spec (parents_less c) 0) as [Hz|Hz]; [|exists db1, L; split_and!; done].
  destruct (release_node (S fuel) k c1 db1 L D X) as (db' & L' & Hrun & Hst' & Hct' & Hf'); [|done..| |exists db', L'; split; [exact Hrun|]; split; [done|]; split; [done|by eapply freed_trans]].
  - intros db2 L2 Hst2 Hct2 Hsub. apply (dereference_all_ok fuel k (refs_at db1 k) IH); [done..|left|]. intros x Hx. rewrite Hrefs in Hx by done.
    pose proof (st_refs _ _ _ _ Hst k x HkL Hx) as Hn. split; [|split; [by apply (needs_hash k)|]].
    + apply (enough_sub rank _ L); [by eapply store_nodup|done|]. by apply (enough_child Q needs rank (S fuel) L k).
    + pose proof (needs_rank k x Hn). intros y [->|Hy]%elem_of_cons; [done|]. specialize (Hr y Hy). lia.
  - destruct (decide (is_Some (diskdb db1 !! Hash_Bytes k))) as [Hd|Hd]; [by left|right]. pose proof (ct_exact _ _ _ _ Hct1 k HkL Hd) as He1.
    unfold parents_at in He1. rewrite Hc1 in He1. injection He1 as He1. cbn in He1. congruence.
Qed.

(** ** Dereferencing a root *)

(** The references of the roots, after one is gone. *)
Lemma meta_drops root db L :
  inv db L [] -> exactly db L [] -> root <> 0 -> (root ∈ L -> 0 < meta_refs db root \/ on_disk db root) ->
  exists db', update_cached 0 (drop_child root) db = Ok (tt, db') /\ inv db' L [] /\ exactly db' L [root] /\ kept db db' L /\
    (forall h, h ∈ L -> refs_at db' h = refs_at db h) /\
    forall h, meta_refs db' h = if decide (h = root) then Z.max 0 (meta_refs db h - 1) else meta_refs db h.
Proof.
  intros Hst Hct H0 Hm. destruct (proj2 (st_dom _ _ _ _ Hst 0)) as [m Hc]; [by left|]. destruct (drop_child_same root m) as (Hn & Hp & Hf & Hb).
  assert (0 ∉ L) as HL by (intros HL; by apply (st_keys _ _ _ _ Hst 0); [apply elem_of_app; left|]).
  destruct (store_update db 0 m (drop_child root m) L [] Hst Hc) as [Hst' Hrefs]; [done..|]. exists (db_dirties <[0 := drop_child root m]> db). rewrite (update_run 0 _ db m Hc).
  set (db1 := db_dirties _ db) in *.
  assert (forall h, meta_refs db1 h = if decide (h = root) then Z.max 0 (meta_refs db h - 1) else meta_refs db h) as Hmeta.
  { intros h. unfold meta_refs. rewrite Hc. cbn. rewrite lookup_insert_eq. pose proof (ct_meta _ _ _ _ Hct root) as Hr. unfold meta_refs in Hr. rewrite Hc in Hr. unfold drop_child.
    destruct (cn_children m !! root) as [n|] eqn:Hch; cbn in Hr; [|case_decide as Hh; [subst; by rewrite Hch|done]].
    destruct (Z.ltb_spec 0 n) as [Hlt|Hge]; [|case_decide as Hh; [subst; rewrite Hch; cbn; lia|done]]. cbn.
    destruct (Z.eqb_spec (n - 1) 0) as [Hz|Hz]; case_decide as Hh; subst; rewrite ?lookup_delete_eq, ?lookup_insert_eq, ?Hch, ?lookup_delete_ne, ?lookup_insert_ne by done; cbn; try lia; done. }
  assert (forall h, parents_at db1 h = parents_at db h) as Hpar.
  { intros h. unfold parents_at. cbn. destruct (decide (h = 0)) as [->|Hne]; [rewrite lookup_insert_eq, Hc; cbn; by rewrite Hp|by rewrite lookup_insert_ne]. }
  split; [done|]. split; [done|]. split; [|split; [|done]].
  - split.
    + intros h. rewrite Hmeta. pose proof (ct_meta _ _ _ _ Hct h). case_decide; lia.
    + intros h. rewrite Hmeta. intros Hh. apply (ct_live _ _ _ _ Hct h). case_decide; lia.
    + intros h n. rewrite Hpar. apply Hct.
    + intros h Hh Hd. rewrite Hpar, (ct_exact _ _ _ _ Hct h Hh Hd). f_equal. unfold total_refs. rewrite Hmeta, (refs_to_same db db1), occ_cons by done. cbn.
      case_decide as Heq; [|lia]. subst h. destruct (Hm Hh) as [Hm'|]; [|done]. lia.
  - split; try done. intros x _. cbn. destruct (decide (x = 0)) as [->|Hne]; [|by rewrite lookup_insert_ne]. rewrite lookup_insert_eq, Hc. cbn. by rewrite Hn.
Qed.
Abbreviation store_ok := (TrieFlush.store_ok Q needs).

(** The references are not more than before. *)
Lemma total_less db db' L L' h :
  NoDup L' -> L' ⊆ L -> (forall x, x ∈ L' -> refs_at db' x = refs_at db x) -> meta_refs db' h <= meta_refs db h -> total_refs db' L' [] h <= total_refs db L [] h.
Proof.
  intros Hnd Hsub Hr Hm. unfold total_refs. rewrite (refs_to_same db db') by done. destruct (submseteq_Permutation L' L) as [l Hl]; [by apply NoDup_submseteq|].
  rewrite (refs_to_Permutation db L _ h Hl), refs_to_app. pose proof (refs_to_nonneg db l h). lia.
Qed.
Lemma Dereference_ok db L root :
  store_ok db L -> modulo db L [] -> (forall h, total_refs db L [] h < 2 ^ 32) -> is_hash root /\ root <> 0 ->
  (root ∈ L -> 0 < meta_refs db root \/ on_disk db root) ->
  exists db' L', Dereference root db = Ok (tt, db') /\ store_ok db' L' /\ modulo db' L' [] /\ kept db db' L' /\
    (forall h, total_refs db' L' [] h <= total_refs db L [] h) /\
    forall h, meta_refs db' h = if decide (h = root) then Z.max 0 (meta_refs db h - 1) else meta_refs db h.
Proof.
  intros Hso Hct Hfew [Hr H0] Hm. pose proof (so_inv _ _ _ _ Hso) as Hst. apply modulo_exactly in Hct; [|done].
  unfold Dereference. rewrite (proj2 (Z.eqb_neq root 0) H0), (run_bind (gets walk_fuel) _ db _ db eq_refl).
  destruct (meta_drops root db L Hst Hct H0 Hm) as (db1 & Hrun1 & Hst1 & Hct1 & Hk1 & Hr1 & Hm1).
  assert (enough (walk_fuel db) L root) as He by (by apply (walk_fuel_enough needs rank)). unfold walk_fuel in *. rewrite dereference_release.
  rewrite (run_bind _ _ _ _ _ Hrun1).
  destruct (release_ok (S (size (dirties db))) root db1 L [] [] Hst1 Hct1 He) as (db' & L' & Hrun & Hst' & Hct' & [Hk' Hsub Hm' Hr']); [done|by intros x ?%not_elem_of_nil|].
  assert (kept db db' L') as Hk.
  { destruct Hk1 as [A1 A2 A3 A4], Hk' as [B1 B2 B3 B4]. split; try congruence. intros x Hx. rewrite B4, A4; [done|destruct Hx; [by left|right; by apply Hsub]|done]. }
  exists db', L'. split; [exact Hrun|]. split; [by apply (store_kept Q needs db L)|]. split; [by apply exactly_modulo|]. split; [done|]. split; [|intros h; by rewrite Hm'].
  intros h. apply total_less; [by eapply store_nodup|done|intros x Hx; rewrite Hr', Hr1 by (try done; by apply Hsub); done|]. rewrite Hm', Hm1.
  pose proof (ct_meta _ _ _ _ Hct h). destruct (decide (h = root)); lia.
Qed.

(** ** Referencing a root *)

Lemma db_reference_ok db L root :
  store_ok db L -> modulo db L [] -> root <> 0 -> meta_refs db root < 2 ^ 16 - 1 ->
  exists db', db_reference root 0 db = Ok (tt, db') /\ store_ok db' L /\ modulo db' L [] /\ kept db db' L /\ (forall x, x ∈ L -> refs_at db' x = refs_at db x) /\
    forall h, meta_refs db' h = meta_refs db h + (if decide (h = root /\ root ∈ L) then 1 else 0).
Proof.
  intros Hso Hct H0 Hlt. pose proof (so_inv _ _ _ _ Hso) as Hst. unfold db_reference. rewrite (run_bind (gets id) _ db _ db eq_refl). cbn [id].
  destruct (dirties db !! root) as [c|] eqn:Hc.
  2:{ exists db. split; [done|]. split; [done|]. split; [done|]. split; [by split|]. split; [done|]. intros h. rewrite decide_False; [lia|]. intros [-> HL].
      apply (listed Q needs db L Hso) in HL as [_ [c Hc']]. congruence. }
  assert (root ∈ L) as HL by (apply (listed Q needs db L Hso); split; [done|by exists c]).
  destruct (proj2 (st_dom _ _ _ _ Hst 0)) as [m Hm0]; [by left|]. rewrite Hm0. 
  assert (0 ∉ L) as H0L by (intros HL0; by apply (st_keys _ _ _ _ Hst 0); [apply elem_of_app; left|]).
  set (c1 := cn_with_parents ((cn_parents c + 1) mod 2 ^ 32) c). set (m1 := cn_with_children (<[root := (default 0 (cn_children m !! root) + 1) mod 2 ^ 16]> (cn_children m)) m).
  set (db1 := db_dirties <[root := c1]> db). set (db2 := db_dirties <[0 := m1]> db1).
  assert (add_reference root 0 db = Ok (tt, db2)) as Hrun.
  { unfold add_reference. rewrite (run_bind _ _ _ _ _ (update_run root _ db c Hc)). fold c1 db1. refine (update_run 0 _ db1 m _). cbn. by rewrite lookup_insert_ne. }
  exists db2. split; [destruct (cn_children m !! root); exact Hrun|].
  destruct (store_update db root c c1 L [] Hst Hc) as [Hst1 Hr1]; [done..|]. destruct (store_update db1 0 m m1 L [] Hst1) as [Hst2 Hr2]; [cbn; by rewrite lookup_insert_ne|done..|].
  assert (kept db db2 L) as Hk.
  { split; try done. intros x _. cbn. destruct (decide (x = 0)) as [->|Hx0]; [by rewrite lookup_insert_eq, Hm0|rewrite lookup_insert_ne by done].
    destruct (decide (x = root)) as [->|Hxr]; [by rewrite lookup_insert_eq, Hc|by rewrite lookup_insert_ne]. }
  assert (forall h, meta_refs db2 h = meta_refs db h + (if decide (h = root /\ root ∈ L) then 1 else 0)) as Hmeta.
  { intros h. unfold meta_refs in *. rewrite Hm0 in *. cbn. rewrite lookup_insert_eq. cbn. pose proof (ct_meta _ _ _ _ Hct root) as Hrange. unfold meta_refs in Hrange. rewrite Hm0 in Hrange.
    destruct (decide (h = root)) as [->|Hne]; [rewrite lookup_insert_eq, decide_True by done; cbn; by rewrite Z.mod_small by lia|].
    rewrite lookup_insert_ne, decide_False by naive_solver. lia. }
  split; [by apply (store_kept Q needs db L)|]. split; [|split; [done|split; [intros x Hx; by rewrite Hr2, Hr1|done]]]. clear Hrun.
  assert (forall h, parents_at db2 h = if decide (h = root) then Some ((cn_parents c + 1) mod 2 ^ 32) else parents_at db h) as Hpar.
  { intros h. unfold parents_at. cbn. destruct (decide (h = 0)) as [->|Hx0]; [rewrite lookup_insert_eq, decide_False, Hm0 by done; done|rewrite lookup_insert_ne by done].
    destruct (decide (h = root)) as [->|Hx]; [by rewrite lookup_insert_eq|by rewrite lookup_insert_ne]. }
  split.
  - intros h. rewrite Hmeta. pose proof (ct_meta _ _ _ _ Hct h). destruct (decide (h = root /\ root ∈ L)) as [[-> _]|]; lia.
  - intros h. rewrite Hmeta. destruct (decide (h = root /\ root ∈ L)) as [[-> _]|]; [by left|]. intros Hp. apply (ct_live _ _ _ _ Hct). lia.
  - intros h n. rewrite Hpar. destruct (decide (h = root)); [|apply Hct]. intros Hn. injection Hn as <-. apply Z.mod_pos_bound. lia.
  - intros h Hh Hd. rewrite Hpar. unfold total_refs. rewrite Hmeta, (refs_to_same db db2) by (intros p Hp; by rewrite Hr2, Hr1).
    pose proof (ct_exact _ _ _ _ Hct h Hh Hd) as He. unfold total_refs in He. destruct (decide (h = root)) as [->|Hx].
    + rewrite decide_True by done. unfold parents_at in He. rewrite Hc in He. injection He as He. rewrite He. f_equal. rewrite Zplus_mod_idemp_l. f_equal. lia.
    + rewrite He, decide_False by naive_solver. f_equal. f_equal. lia.
Qed.

(** ** Moving nodes to disk *)

Lemma settles_counted db L db' L' : store_ok db L -> store_ok db' L' -> settles db L db' L' -> modulo db L [] ->
  modulo db' L' [] /\ (forall h, meta_refs db' h = meta_refs db h) /\ forall h, total_refs db' L' [] h <= total_refs db L [] h.
Proof.
  intros Hso Hso' Hse Hct. pose proof (so_inv _ _ _ _ Hso) as Hst. pose proof (so_inv _ _ _ _ Hso') as Hst'. pose proof (store_nodup _ _ _ _ Hst') as Hnd'.
  assert (forall A (g : cachedNode -> A), (forall c c', content c' = content c -> g c' = g c) -> forall x, x = 0 \/ x ∈ L' -> g <$> dirties db' !! x = g <$> dirties db !! x) as Hg.
  { intros A g Hg x Hx. pose proof (se_same _ _ _ _ Hse x Hx) as Heq. destruct (dirties db' !! x), (dirties db !! x); try done. apply (inj Some) in Heq. cbn. by rewrite (Hg _ _ Heq). }
  assert (forall h, meta_refs db' h = meta_refs db h) as Hm.
  { intros h. unfold meta_refs. pose proof (Hg _ cn_children ltac:(by intros [] []; cbn; intros [= _ _ _ ->]) 0 (or_introl eq_refl)) as Hm.
    destruct (dirties db' !! 0), (dirties db !! 0); try done. cbn in Hm. by injection Hm as ->. }
  assert (forall x, x ∈ L' -> refs_at db' x = refs_at db x) as Hr by (intros x Hx; unfold refs_at; rewrite (Hg _ childs childs_content x); [done|by right]).
  assert (forall x, x = 0 \/ x ∈ L' -> parents_at db' x = parents_at db x) as Hp by (intros x Hx; apply (Hg _ cn_parents); [by intros [] []; cbn; intros [= _ _ -> _]|done]).
  assert (forall x, on_disk db x -> on_disk db' x) as Hd by (intros x [e He]; exists e; by apply (se_disk _ _ _ _ Hse)).
  split; [|split; [done|]].
  2:{ intros h. apply total_less; [done|apply Hse|done|]. rewrite Hm. lia. }
  destruct (submseteq_Permutation L' L) as [l Hl]; [apply NoDup_submseteq; [done|apply Hse]|]. split.
  - intros h. rewrite Hm. apply Hct.
  - intros h. rewrite Hm. intros Hh. destruct (ct_live _ _ _ _ Hct h Hh) as [HL|]; [by apply (se_gone _ _ _ _ Hse)|right; by apply Hd].
  - intros h n Hn. rewrite Hp in Hn; [by apply (ct_type _ _ _ _ Hct h)|]. apply fmap_Some in Hn as (c & Hc & _). pose proof (proj1 (st_dom _ _ _ _ Hst' h)) as Hdom.
    rewrite app_nil_r in Hdom. apply Hdom. by exists c.
  - intros h Hh Hnd. rewrite Hp by (by right). rewrite (ct_exact _ _ _ _ Hct h); [|by apply (se_sub _ _ _ _ Hse)|by intros ?%Hd]. f_equal. f_equal. unfold total_refs.
    rewrite Hm, (refs_to_same db db') by done. rewrite (refs_to_Permutation db L _ h Hl), refs_to_app, (refs_to_none db l); [lia|]. intros p Hpl Hk.
    assert (p ∈ L) as HpL by (rewrite Hl; apply elem_of_app; by right). apply Hnd. apply (st_disk _ _ _ _ Hst' p).
    + by apply (is_hash_listed Q needs db L p Hso).
    + destruct (se_gone _ _ _ _ Hse p HpL) as [HpL'|]; [|done]. exfalso. pose proof (store_nodup _ _ _ _ Hst) as HndL. rewrite Hl in HndL. apply NoDup_app in HndL as (_ & Hdis & _).
      by apply (Hdis p).
    + by apply (st_refs _ _ _ _ Hst p).
Qed.

(** ** Inserting a node *)

Definition bump (hs : list Hash) (x : Hash) (c : cachedNode) : cachedNode := cn_with_parents ((cn_parents c + occ x hs) mod 2 ^ 32) c.
Lemma parents_loop hs db :
  (forall h n, parents_at db h = Some n -> 0 <= n < 2 ^ 32) ->
  exists m, for_each (fun child =>
      c ← gets (fun db => dirties db !! child);
      match c with Some c => update_cached child (cn_with_parents ((cn_parents c + 1) mod 2 ^ 32)) | None => mret tt end) hs db = Ok (tt, db_dirties (fun _ => m) db) /\
    forall x, m !! x = bump hs x <$> dirties db !! x.
Proof.
  revert db. induction hs as [|k hs IH]; intros db Hty.
  { exists (dirties db). split; [by destruct db|]. intros x. pose proof (Hty x) as Hx. unfold parents_at in Hx. destruct (dirties db !! x) as [c|]; [|done]. cbn. f_equal. unfold bump.
    specialize (Hx (cn_parents c) eq_refl). unfold occ. cbn. rewrite Z.add_0_r, Z.mod_small by done. by destruct c. }
  cbn [for_each]. set (m1 := match dirties db !! k with Some c => <[k := cn_with_parents ((cn_parents c + 1) mod 2 ^ 32) c]> (dirties db) | None => dirties db end).
  set (db1 := db_dirties (fun _ => m1) db).
  assert (forall x, m1 !! x = (fun c => if decide (x = k) then cn_with_parents ((cn_parents c + 1) mod 2 ^ 32) c else c) <$> dirties db !! x) as Hm1.
  { intros x. unfold m1. destruct (decide (x = k)) as [->|Hne].
    - destruct (dirties db !! k) as [c|] eqn:Hc; [by rewrite lookup_insert_eq|by rewrite Hc].
    - destruct (dirties db !! k) as [c|]; rewrite ?lookup_insert_ne by done; by destruct (dirties db !! x). }
  rewrite (run_bind _ _ db tt db1).
  2:{ rewrite (run_bind (gets (fun db => dirties db !! k)) _ db _ db eq_refl). unfold db1, m1. destruct (dirties db !! k) as [c|] eqn:Hc; [by rewrite (update_run k _ db c Hc)|by destruct db]. }
  destruct (IH db1) as (m & Hrun & Hm).
  - intros h n. unfold parents_at. cbn. rewrite Hm1. pose proof (Hty h) as Hh. unfold parents_at in Hh. destruct (dirties db !! h) as [c|]; [|done]. cbn in *.
    destruct (decide (h = k)); [|apply Hh]. intros Heq. injection Heq as <-. apply Z.mod_pos_bound. lia.
  - exists m. split; [exact Hrun|]. intros x. rewrite Hm. cbn. rewrite Hm1. destruct (dirties db !! x) as [c|]; [|done]. cbn. f_equal. unfold bump. rewrite occ_cons.
    destruct (decide (x = k)); [|done]. destruct c. unfold cn_with_parents. cbn. f_equal. rewrite Zplus_mod_idemp_l. f_equal. lia.
Qed.

Lemma insert_links db h entry sz L :
  flush_list db L -> NoDup (L ++ [h]) -> (forall x, x ∈ L -> x <> 0) -> cn_flushPrev entry = newest db -> cn_flushNext entry = 0 ->
  exists db', (modify (db_dirties <[h := entry]>);;
    old ← gets oldest;
    (if old =? 0 then modify (db_ends h h)
     else update_cached (newest db) (cn_with_next h);; modify (fun db => db_ends (oldest db) h db));;
    modify (db_size sz)) db = Ok (tt, db') /\ flush_list db' (L ++ [h]) /\
    diskdb db' = diskdb db /\ cleans db' = cleans db /\ preimages db' = preimages db /\
    forall x, content <$> dirties db' !! x = content <$> <[h := entry]> (dirties db) !! x.
Proof.
  intros [Hs Ho Hn] Hnd H0 Hp Hnx. set (db1 := db_dirties <[h := entry]> db).
  rewrite (run_bind (modify (db_dirties <[h := entry]>)) _ db tt db1 eq_refl), (run_bind (gets oldest) _ db1 (oldest db) db1 eq_refl).
  destruct (last L) as [p|] eqn:Hlast.
  - apply last_Some in Hlast as [l ->]. specialize (Hn ltac:(by destruct l)). injection Hn as Hn. rewrite <- Hn.
    rewrite (proj2 (Z.eqb_neq _ _)) by (rewrite Ho; destruct l as [|x l]; apply H0; set_solver).
    apply seg_app in Hs as [Hs1 [(cp & Hcp & Hnp & Hpp) _]]. rewrite <- app_assoc in Hnd. apply NoDup_app in Hnd as (_ & Hdis & Hnd).
    assert (p ∉ l /\ h ∉ l) as [Hpl Hhl] by (split; intros Hin; apply (Hdis _ Hin); set_solver).
    assert (p <> h) as Hne by (intros ->; apply NoDup_cons in Hnd as [Hnd _]; apply Hnd; left).
    assert (dirties db1 !! p = Some cp) as Hcp' by (cbn; by rewrite lookup_insert_ne).
    pose proof (update_run p (cn_with_next h) _ cp Hcp') as Hrun. eexists. split; [unfold mbind, M_bind; rewrite Hrun; reflexivity|]. split; [|split_and!; try done].
    + split; cbn; [|rewrite Ho; by destruct l|by rewrite last_snoc]. rewrite <- app_assoc. apply seg_app. cbn [app head default from_option id].
      split; [apply seg_insert; [done|]; by apply seg_insert|]. apply seg_insert_head; [set_solver|done| |].
      { intros q Hq. apply Hpp. exact Hq. }
      split; [|done]. exists entry. rewrite lookup_insert_eq. split; [done|]. split; [done|]. intros q [= <-]. congruence.
    + intros x. cbn. destruct (decide (x = p)) as [->|Hxp]; [by rewrite lookup_insert_eq, lookup_insert_ne, Hcp|by rewrite lookup_insert_ne].
  - apply last_None in Hlast as ->. rewrite Ho. cbn [Z.eqb head default from_option id]. eexists. split; [reflexivity|]. split; [|done]. split; cbn; [|done|done].
    split; [|done]. exists entry. rewrite lookup_insert_eq. done.
Qed.

(** [db'] is [db] with a node more, at the end of the list. *)
Record inserted db db' h (r : raw) (hs : list Hash) : Prop := {
  in_disk : diskdb db' = diskdb db;
  in_cleans : cleans db' = cleans db;
  in_preimages : preimages db' = preimages db;
  in_new : exists sz, content <$> dirties db' !! h = Some (r, sz, 0, ∅);
  in_old x : x <> h -> content <$> dirties db' !! x = (fun c => content (bump hs x c)) <$> dirties db !! x;
}.
Lemma insert_run db L h e r hs :
  inv db L [] -> modulo db L [] -> dirties db !! h = None -> h <> 0 -> childs (mkCached r 0 0 ∅ 0 0) = Ok hs ->
  exists db', db_insert h e (Ok r) db = Ok (tt, db') /\ inserted db db' h r hs /\ flush_list db' (L ++ [h]) /\ NoDup (L ++ [h]).
Proof.
  intros Hst Hct Hnew H0 Hhs. set (entry := mkCached r (zlen e mod 2 ^ 16) 0 ∅ (newest db) 0).
  assert (NoDup (L ++ [h])) as Hnd.
  { rewrite <- Permutation_cons_append. apply NoDup_cons. split; [|by eapply store_nodup]. intros HL.
    destruct (proj2 (st_dom _ _ _ _ Hst h)) as [c Hc]; [right; apply elem_of_app; by left|]. congruence. }
  destruct (parents_loop hs db (ct_type _ _ _ _ Hct)) as (m & Hrun1 & Hm). set (db1 := db_dirties (fun _ => m) db) in *.
  destruct (insert_links db1 h entry ((32 + cn_size entry) mod 2 ^ 16) L) as (db' & Hrun2 & Hfl & Hd & Hc & Hp & Hcont); [|done| |done|done|].
  { destruct (st_list _ _ _ _ Hst) as [Hs Ho Hn]. split; [|done..]. apply (seg_same (dirties db)); [|done]. intros x c _ Hx. exists (bump hs x c). cbn. by rewrite Hm, Hx. }
  { intros x Hx. apply (st_keys _ _ _ _ Hst). apply elem_of_app. by left. }
  exists db'. split; [|split; [split; try done|done]].
  - unfold db_insert. rewrite (run_bind (gets (fun db => dirties db !! h)) _ db _ db eq_refl), Hnew, (run_bind (lift (Ok r)) _ db r db eq_refl).
    rewrite (run_bind (gets newest) _ db (newest db) db eq_refl). cbv zeta. fold entry. unfold lift at 1. change (childs entry) with (childs (mkCached r 0 0 ∅ 0 0)).
    rewrite Hhs, (run_bind _ _ _ _ _ eq_refl), (run_bind _ _ _ _ _ Hrun1). exact Hrun2.
  - exists (zlen e mod 2 ^ 16). rewrite Hcont, lookup_insert_eq. done.
  - intros x Hx. rewrite Hcont, lookup_insert_ne by done. cbn. rewrite Hm. by destruct (dirties db !! x).
Qed.
Lemma inserted_facts db db' h r hs L :
  inserted db db' h r hs -> h <> 0 -> h ∉ L -> childs (mkCached r 0 0 ∅ 0 0) = Ok hs ->
  (forall x, is_Some (dirties db' !! x) <-> x = h \/ is_Some (dirties db !! x)) /\ childs <$> dirties db' !! h = Some (Ok hs) /\
  (forall x, x ∈ L -> childs <$> dirties db' !! x = childs <$> dirties db !! x) /\
  (forall x, meta_refs db' x = meta_refs db x) /\ parents_at db' h = Some 0 /\
  (forall x, x <> h -> parents_at db' x = (fun n => (n + occ x hs) mod 2 ^ 32) <$> parents_at db x) /\
  (forall x, cn_node <$> dirties db' !! x = if decide (x = h) then Some r else cn_node <$> dirties db !! x).
Proof.
  intros [_ _ _ [sz Hnew] Hold] H0 HL Hhs. apply fmap_Some in Hnew as (ch & Hch & Hc).
  assert (forall A (g : cachedNode -> A) x, x <> h -> (forall c c', content c' = content (bump hs x c) -> g c' = g (bump hs x c)) ->
    g <$> dirties db' !! x = (fun c => g (bump hs x c)) <$> dirties db !! x) as Hg.
  { intros A g x Hx Hgc. specialize (Hold x Hx). destruct (dirties db' !! x) as [c'|], (dirties db !! x) as [c|]; try done. apply (inj Some) in Hold. cbn. f_equal. by apply Hgc. }
  split_and!.
  - intros x. destruct (decide (x = h)) as [->|Hx]; [split; [by left|intros _; by exists ch]|]. specialize (Hold x Hx).
    split; [intros Hi; right|intros [?|Hi]; [done|]]; [rewrite <- (fmap_is_Some content), Hold, fmap_is_Some in Hi|rewrite <- (fmap_is_Some content), Hold, fmap_is_Some]; done.
  - rewrite Hch. cbn. f_equal. rewrite <- Hhs. destruct ch. unfold content in Hc. cbn in Hc. injection Hc as <- <- <- <-. done.
  - intros x Hx. rewrite (Hg _ childs x) by (first [by intros ->|intros c c'; apply childs_content]). by destruct (dirties db !! x).
  - intros x. unfold meta_refs. pose proof (Hg _ cn_children 0 ltac:(done) ltac:(by intros [] []; cbn; intros [= _ _ _ ->])) as Hm.
    destruct (dirties db' !! 0), (dirties db !! 0); try done. cbn in Hm. by injection Hm as ->.
  - unfold parents_at. rewrite Hch. cbn. f_equal. destruct ch. unfold content in Hc. cbn in Hc. by injection Hc as <- <- <- <-.
  - intros x Hx. unfold parents_at. rewrite (Hg _ cn_parents x Hx) by (by intros [] []; cbn; intros [= _ _ -> _]). by destruct (dirties db !! x).
  - intros x. destruct (decide (x = h)) as [->|Hx]; [rewrite Hch; cbn; f_equal; destruct ch; unfold content in Hc; cbn in Hc; by injection Hc as <- <- <- <-|].
    rewrite (Hg _ cn_node x Hx) by (by intros [] []; cbn; intros [= -> _ _ _]). by destruct (dirties db !! x).
Qed.

Section insert.
Context db db' L h r hs (Hst : inv db L []) (Hct : modulo db L []) (Hin : inserted db db' h r hs) (Hfl : flush_list db' (L ++ [h])) (Hnd : NoDup (L ++ [h])).
Context (Hh : is_hash h) (H0 : h <> 0) (Hhs : childs (mkCached r 0 0 ∅ 0 0) = Ok hs).
Context (Hrefs : forall k, k ∈ hs -> needs h k /\ has db k) (Hcover : forall k, needs h k -> k ∈ hs \/ on_disk db k).
Lemma h_new : h ∉ L.
Proof. rewrite <- Permutation_cons_append in Hnd. by apply NoDup_cons in Hnd as [? _]. Qed.
Lemma inserted_refs : (forall x, x ∈ L -> refs_at db' x = refs_at db x) /\ refs_at db' h = hs.
Proof.
  destruct (inserted_facts db db' h r hs L Hin H0 h_new Hhs) as (_ & Hch & Hcs & _). split; [intros x Hx; unfold refs_at; by rewrite Hcs|]. unfold refs_at. by rewrite Hch.
Qed.
Lemma inserted_inv : inv db' (L ++ [h]) [].
Proof.
  pose proof h_new as HL. destruct (inserted_facts db db' h r hs L Hin H0 HL Hhs) as (Hdom & Hch & Hcs & _ & _ & _ & _). destruct inserted_refs as [Hr Hrh].
  assert (forall x, on_disk db' x <-> on_disk db x) as Hd by (intros x; unfold on_disk; by rewrite (in_disk _ _ _ _ _ Hin)). split.
  - intros x. rewrite Hdom, (st_dom _ _ _ _ Hst), !app_nil_r, elem_of_app, list_elem_of_singleton. tauto.
  - by rewrite app_nil_r.
  - intros x. rewrite app_nil_r. intros [Hx|Hx%list_elem_of_singleton]%elem_of_app; [|by subst]. apply (st_keys _ _ _ _ Hst). by rewrite app_nil_r.
  - done.
  - intros x [Hx|Hx%list_elem_of_singleton]%elem_of_app; [rewrite Hcs, Hr by done; by apply (st_childs _ _ _ _ Hst)|]. subst x. by rewrite Hrh.
  - intros x k [Hx|Hx%list_elem_of_singleton]%elem_of_app; [rewrite Hr by done; by apply (st_refs _ _ _ _ Hst)|]. subst x. rewrite Hrh. intros Hk. by apply Hrefs.
  - intros l1 x l2 k HE Hk. rewrite Hd. destruct (last l2) as [y|] eqn:Hl.
    + apply last_Some in Hl as [l ->]. rewrite app_comm_cons, app_assoc in HE. apply app_inj_tail in HE as [HE <-]. rewrite Hr in Hk by (rewrite HE; set_solver).
      by apply (st_order _ _ _ _ Hst l1 x l).
    + apply last_None in Hl as ->. apply app_inj_tail in HE as [-> ->]. rewrite Hrh in Hk. destruct (Hrefs k Hk) as [_ [[Hk0 Hkd]|]]; [|by right].
      apply (st_dom _ _ _ _ Hst) in Hkd as [|Hkd]; [done|left]. by rewrite app_nil_r in Hkd.
  - intros x k [Hx|Hx%list_elem_of_singleton]%elem_of_app Hn; rewrite Hd; [rewrite Hr by done; by apply (st_cover _ _ _ _ Hst)|]. subst x. rewrite Hrh. by apply Hcover.
  - intros x k. rewrite !Hd. apply (st_disk _ _ _ _ Hst).
  - intros x e. unfold clean_get. rewrite (in_cleans _ _ _ _ _ Hin), (in_disk _ _ _ _ _ Hin). apply (st_clean _ _ _ _ Hst).
Qed.
Lemma inserted_counted : modulo db' (L ++ [h]) [].
Proof.
  pose proof h_new as HL. destruct (inserted_facts db db' h r hs L Hin H0 HL Hhs) as (_ & _ & _ & Hm & Hph & Hp & _). destruct inserted_refs as [Hr Hrh].
  assert (forall x, on_disk db' x <-> on_disk db x) as Hd by (intros x; unfold on_disk; by rewrite (in_disk _ _ _ _ _ Hin)).
  assert (forall x, total_refs db' (L ++ [h]) [] x = total_refs db L [] x + occ x hs) as Ht.
  { intros x. unfold total_refs. rewrite Hm, refs_to_app, (refs_to_same db db') by done. cbn. rewrite Hrh. lia. }
  assert (~ on_disk db h -> total_refs db L [] h = 0) as Hzero.
  { intros Hdh. unfold total_refs. rewrite refs_to_none.
    2:{ intros p (l1 & l2 & HE)%list_elem_of_split Hk. destruct (st_order _ _ _ _ Hst l1 p l2 h HE Hk) as [Hl1|]; [|done]. apply HL. rewrite HE. apply elem_of_app. by left. }
    change (occ h []) with 0.
    pose proof (ct_meta _ _ _ _ Hct h). destruct (Z.eq_dec (meta_refs db h) 0) as [->|Hne]; [done|]. destruct (ct_live _ _ _ _ Hct h); [lia|done..]. }
  split.
  - intros x. rewrite Hm. apply Hct.
  - intros x. rewrite Hm, Hd. intros Hx. destruct (ct_live _ _ _ _ Hct x Hx); [left; apply elem_of_app; by left|by right].
  - intros x n. destruct (decide (x = h)) as [->|Hx]; [rewrite Hph; intros [= <-]; lia|]. rewrite Hp by done. destruct (parents_at db x) as [n0|]; [|done]. intros [= <-].
    apply Z.mod_pos_bound. lia.
  - intros x Hx Hdx. rewrite Ht. rewrite Hd in Hdx. apply elem_of_app in Hx as [Hx|Hx%list_elem_of_singleton].
    + rewrite Hp by (by intros ->). rewrite (ct_exact _ _ _ _ Hct x Hx Hdx). cbn. by rewrite Zplus_mod_idemp_l.
    + subst x. rewrite Hph, Hzero, occ_none; [done| |done]. intros Hk. destruct (Hrefs h Hk) as [Hn _]. pose proof (needs_rank h h Hn). lia.
Qed.
End insert.

(** The invariant of a database with garbage collection. *)
Definition gc_valid db : Prop := exists L, store_ok db L /\ modulo db L [].
Record gc_le db db' : Prop := {
  gl_nodes : nodes_le db db';
  gl_disk : diskdb db' = diskdb db;
  gl_cleans : cleans db' = cleans db;
  gl_preimages : preimages db' = preimages db;
  gl_meta h : meta_refs db' h = meta_refs db h;
}.
#[export] Instance gc_le_pre : PreOrder gc_le.
Proof.
  split; [by intros db; split|]. intros a b c [A1 A2 A3 A4 A5] [B1 B2 B3 B4 B5]. split; [by etransitivity|congruence..].
Qed.
(** ** What lives *)

(** Fewer references are in memory than a counter can hold, with [spare] ones to
    go. *)
Definition few (spare : Z) db : Prop := forall h, meta_refs db h + refs_to db (elements (dom (dirties db) ∖ {[0]})) h < 2 ^ 32 - spare.
Lemma few_list spare db L : store_ok db L -> few spare db <-> forall h, total_refs db L [] h < 2 ^ 32 - spare.
Proof.
  intros Hso. assert (elements (dom (dirties db) ∖ {[0]}) ≡ₚ L) as Hp.
  { apply NoDup_Permutation; [apply NoDup_elements|by eapply store_nodup, so_inv|]. intros x. rewrite elem_of_elements, elem_of_difference, elem_of_dom, elem_of_singleton.
    rewrite (listed Q needs db L Hso). tauto. }
  unfold few, total_refs. split; intros Hf h; specialize (Hf h); rewrite (refs_to_Permutation db _ L h Hp) in *; unfold occ in *; cbn in *; lia.
Qed.
(** There are few if there are few in all. *)
Definition refs_in_memory db : Z := foldr (fun p n => Z.of_nat (length (refs_at db p)) + n) 0 (elements (dom (dirties db) ∖ {[0]})).
Lemma few_in_all spare db : gc_valid db -> refs_in_memory db + 2 ^ 16 <= 2 ^ 32 - spare -> few spare db.
Proof.
  intros (L & _ & Hct) Hle h. pose proof (ct_meta _ _ _ _ Hct h). assert (refs_to db (elements (dom (dirties db) ∖ {[0]})) h <= refs_in_memory db); [|lia].
  unfold refs_in_memory, refs_to. induction (elements _) as [|p l IH]; [done|]. cbn. assert (occ h (refs_at db p) <= Z.of_nat (length (refs_at db p))); [|lia].
  unfold occ. apply inj_le, count_occ_bound.
Qed.
(** A trie that is referenced, or on disk, can be read after every step that
    keeps the invariant. *)
Lemma live_opens db db' L L' h f :
  store_ok db L -> store_ok db' L' -> modulo db' L' [] -> opens db h f -> 0 < meta_refs db' h \/ on_disk db' h -> opens db' h f.
Proof.
  intros Hso Hso' Hct' Ho Hl. apply (opens_survives Q needs rank db db' L L'); try done. intros _. destruct Hl as [Hm|]; [|by right].
  destruct (ct_live _ _ _ _ Hct' h Hm) as [HL|]; [left; by apply (listed Q needs db' L')|by right].
Qed.

(** Dereferencing a root frees only what no other root needs: it ends, takes
    one reference off the root, and every trie whose root still has a reference,
    or is on disk, can be read as before. *)
Theorem Dereference_safe db root :
  gc_valid db -> few 0 db -> is_hash root -> root <> 0 -> 0 < meta_refs db root \/ on_disk db root ->
  exists db', Dereference root db = Ok (tt, db') /\ gc_valid db' /\ few 0 db' /\
    (forall h, meta_refs db' h = if decide (h = root) then Z.max 0 (meta_refs db h - 1) else meta_refs db h) /\
    forall h f, opens db h f -> 0 < meta_refs db' h \/ on_disk db h -> opens db' h f.
Proof.
  intros (L & Hso & Hct) Hfew Hr H0 Hm.
  destruct (Dereference_ok db L root Hso Hct (proj1 (few_list 0 db L Hso) Hfew) (conj Hr H0) (fun _ => Hm)) as (db' & L' & Hrun & Hso' & Hct' & Hk & Ht & Hm').
  exists db'. split; [done|]. split; [by exists L'|]. split; [|split; [done|]].
  - apply (few_list 0 db' L' Hso'). intros h. apply Z.le_lt_trans with (total_refs db L [] h); [done|]. by apply (few_list 0 db L Hso).
  - intros h f Ho Hl. apply (live_opens db db' L L'); try done. unfold on_disk in *. by rewrite (kp_disk _ _ _ Hk).
Qed.
End gc.

(** ** Committing a trie *)

(** A node needs the nodes whose hashes it has. *)
Definition kids_of `{Crypto} (Q : bytes -> Prop) (h k : Hash) : Prop :=
  exists e gen n, Q e /\ keccak e = Hash_Bytes h /\ mustDecodeNode (Some (Hash_Bytes h)) e gen = Ok n /\ k ∈ kids n.
(** The encodings that occur form no cycle: a hash is not within what it is the
    hash of. *)
Class Acyclic `{Crypto} (Q : bytes -> Prop) (rank : Hash -> nat) : Prop := {
  ac_hash h k : kids_of Q h k -> is_hash k /\ k <> 0;
  ac_rank h k : kids_of Q h k -> (rank k < rank h)%nat;
}.
#[export] Instance acyclic_needs `{Crypto} Q rank : Acyclic Q rank -> Needs Q (kids_of Q) rank.
Proof. intros Ha. split; [apply ac_hash| |apply ac_rank]. intros e h gen n k HQ Hk Hn Hin. by exists e, gen, n. Qed.

Section gc_trie.
Context `{Crypto} {CL : CryptoLaws} (Q : bytes -> Prop) {CF : CollisionFree Q} (rank : Hash -> nat) {AC : Acyclic Q rank}.
Abbreviation gc_ok := (TrieFlush.store_ok Q (kids_of Q)).
Abbreviation gc_valid := (TrieGc.gc_valid Q (kids_of Q)).

Lemma no_leaf_run h vs db : for_each (fun v => no_leaf v h) vs db = Ok (tt, db).
Proof. induction vs as [|v vs IH]; [done|]. cbn [for_each]. by rewrite (run_bind (no_leaf v h) _ db tt db eq_refl). Qed.
Lemma stored_kids c r (x : bytes) gen :
  kept_as c r -> coll c -> childs (mkCached r 0 0 ∅ 0 0) = Ok (kids (expanded (Some x) gen c)).
Proof.
  intros (_ & Hi & He & Hr) Hc. specialize (He (Some x) gen). apply expand_kids in He. unfold childs. cbn [cn_node cn_children]. 
  destruct r; try done; by rewrite He.
Qed.
Lemma gc_stores : Stores Q no_leaf gc_valid gc_le.
Proof.
  split; [apply gc_le_pre|intros db (L & Hso & _); apply Hso|by intros db db' []|].
  intros db c (L & Hso & Hct) Hc HQ h (fo & K & f & Hload). set (e := rlp_of (collapsed_item c)) in *.
  destruct (store_node Q no_leaf db c no_leaf_ok (so_db _ _ _ _ Hso) Hc HQ) as (db' & Hrun & Hdb' & Hle & Hl). fold e h in Hrun, Hl.
  exists db'. split; [done|]. cut (gc_valid db' /\ gc_le db db'); [tauto|].
  destruct (proj1 coll_kept c Hc) as (r & Hr). rewrite (proj1 Hr) in Hrun.
  assert (forall db1, db_insert (BytesToHash h) e (Ok r) db = Ok (tt, db1) -> db1 = db') as Hdet.
  { intros db1 H1. rewrite (run_bind _ _ _ _ _ H1), no_leaf_run in Hrun. by injection Hrun. }
  pose proof (is_hash_BytesToHash h (keccak_hash_ok e)) as Hh. pose proof (cf_zero e HQ) as H0. fold h in H0.
  destruct (dirties db !! BytesToHash h) as [c0|] eqn:Hc0.
  { rewrite <- (Hdet db) by (unfold db_insert; by rewrite (run_bind (gets (fun db => dirties db !! BytesToHash h)) _ db _ db eq_refl), Hc0). split; [by exists L|done]. }
  pose proof (stored_kids c r h 0 Hr Hc) as Hhs. set (hs := kids (expanded (Some h) 0 c)) in *.
  assert (Hash_Bytes (BytesToHash h) = h) as Hbytes by (apply Bytes_BytesToHash, keccak_hash_ok).
  assert (forall gen, mustDecodeNode (Some h) e gen = Ok (expanded (Some h) gen c)) as Hdec by (intros gen; by apply mustDecode_coll).
  destruct (insert_run Q (kids_of Q) rank db L (BytesToHash h) e r hs) as (db1 & Hrun1 & Hin & Hfl & Hnd); [apply Hso|done..|]. apply Hdet in Hrun1 as Heq. subst db1.
  assert (forall k, k ∈ hs -> kids_of Q (BytesToHash h) k /\ has db k) as Hrefs.
  { intros k Hk. split; [exists e, 0, (expanded (Some h) 0 c); rewrite Hbytes; split_and!; done|].
    destruct (kids_loaded db fo K _ f k (Hload 0) Hk) as (x & fo' & K' & f' & -> & Hx). by apply (loaded_has Q (kids_of Q) db L x fo' K' f'). }
  assert (forall k, kids_of Q (BytesToHash h) k -> k ∈ hs \/ on_disk db k) as Hcover.
  { intros k (e' & gen & n & HQ' & Hk' & Hn & Hk). left. rewrite Hbytes in *. assert (e' = e) as -> by (by apply (cf_inj e' e)). rewrite Hdec in Hn. injection Hn as <-.
    pose proof (stored_kids c r h gen Hr Hc) as Hg. rewrite Hhs in Hg. injection Hg as ->. done. }
  pose proof (inserted_inv Q (kids_of Q) rank db db' L (BytesToHash h) r hs (so_inv _ _ _ _ Hso) Hct Hin Hfl Hnd Hh H0 Hhs Hrefs Hcover) as Hst'.
  pose proof (inserted_counted Q (kids_of Q) rank db db' L (BytesToHash h) r hs (so_inv _ _ _ _ Hso) Hct Hin Hnd H0 Hhs Hrefs) as Hct'.
  destruct (inserted_facts db db' (BytesToHash h) r hs L Hin H0) as (_ & _ & _ & Hm & _ & _ & Hn); [by eapply h_new|done|].
  split; [|split; [done|apply Hin..|done]]. exists (L ++ [BytesToHash h]). split; [|done]. split; [done| | |done|].
  - rewrite (in_disk _ _ _ _ _ Hin). apply Hso.
  - intros x cx ex Hx Hcx Hex. specialize (Hn x). rewrite Hcx in Hn. destruct (decide (x = BytesToHash h)) as [->|Hne].
    + injection Hn as Hn. destruct (kept_cached c r cx Hr Hc Hn) as [Hrlp _]. rewrite Hrlp in Hex. injection Hex as <-. by split.
    + destruct (dirties db !! x) as [c1|] eqn:Hc1; [|done]. injection Hn as Hn. apply (so_dirty _ _ _ _ Hso x c1); try done. by rewrite <- (same_cached_rlp cx c1 Hn).
  - intros x. rewrite (in_preimages _ _ _ _ _ Hin). apply Hso.
Qed.

(** The tries that are committed. *)
Definition trie_commits db db' : Prop := exists t f h t',
  trie_map (lookup_node db) (clean_inv db) t f /\ all_encs Q (root_node t) /\ Trie_Commit no_leaf t db = Ok (h, t', db').
Lemma trie_commits_ok db db' : gc_valid db -> trie_commits db db' -> gc_valid db' /\ gc_le db db'.
Proof.
  intros Hv (t & f & h & t' & Ht & HQ & Hrun). destruct (Commit_ok Q (SN := gc_stores) t f db Hv Ht HQ) as (t1 & db1 & Hrun1 & Hv1 & Hle1 & _).
  rewrite Hrun in Hrun1. injection Hrun1 as _ _ <-. done.
Qed.
End gc_trie.
