(* ===== verification/ChainGc.v ===== *)
(** * The tries the block chain keeps

    Models what [core/blockchain.go] does with the tries of the blocks it writes:
    [writeBlockWithState] after the state is committed, and [Stop]. The roots wait
    in the priority queue of [common/prque] until they are old enough to go. The
    headers that are looked up in the chain are parameters. *)

From stdpp Require Import gmap.
From S2P Require Import Prelude Heap CommonMath Rlp RlpSpec StateIface ConcreteCrypto TrieKey TrieNode Trie TrieSpec TrieProps TrieDatabase Hasher TrieCodec HasherProps DatabaseProps TrieStore TrieCommit TrieFlush TrieGc.
Local Open Scope Z_scope.
#[local] Arguments Hash_Bytes _ : simpl never.

(** ** The queue *)

Definition to_int64 (z : Z) : Z := (z + 2 ^ 63) mod 2 ^ 64 - 2 ^ 63.
(** An item of [common/prque] with its priority. *)
Definition item : Type := Hash * Z.
Definition item_Less (a b : item) : bool := 0 <? to_int64 (snd a - snd b).
Definition Prque : Type := list item.
Definition Prque_Push (data : Hash) (priority : Z) (q : Prque) : Prque := heap_Push item_Less (data, priority) q.
Definition Prque_Pop (q : Prque) : option (item * Prque) := heap_Pop item_Less q.

(** ** The chain *)

Abbreviation triesInMemory := 128 (only parsing).
Record CacheConfig : Type := mkCacheConfig { Disabled : bool; TrieDirtyLimit : Z; TrieTimeLimit : Z }.
(** The part of [BlockChain] that is about tries, and the variable [lastWrite]. *)
Record BlockChain : Type := mkChain { bc_db : TrieDB; triegc : Prque; gcproc : Z; lastWrite : Z }.
Definition set_db (db : TrieDB) (bc : BlockChain) : BlockChain := mkChain db (triegc bc) (gcproc bc) (lastWrite bc).
Definition set_triegc (q : Prque) (bc : BlockChain) : BlockChain := mkChain (bc_db bc) q (gcproc bc) (lastWrite bc).
Definition set_gcproc (t : Z) (bc : BlockChain) : BlockChain := mkChain (bc_db bc) (triegc bc) t (lastWrite bc).
Definition set_lastWrite (n : Z) (bc : BlockChain) : BlockChain := mkChain (bc_db bc) (triegc bc) (gcproc bc) n.
Definition NewBlockChain (db : TrieDB) : BlockChain := mkChain db [] 0 0.
Definition on_db {A} (m : M TrieDB A) : M BlockChain A := fun bc =>
  match m (bc_db bc) with Ok (a, db) => Ok (a, set_db db bc) | Panic r => Panic r | OutOfFuel => OutOfFuel end.

(** Roots of blocks up to [chosen] are dereferenced. *)
Fixpoint collect (fuel : nat) (chosen : Z) : M BlockChain unit :=
  match fuel with
  | O => fun _ => OutOfFuel
  | S fuel =>
      q ← gets triegc;
      match Prque_Pop q with
      | None => mret tt
      | Some ((root, number), q) =>
          modify (set_triegc q);;
          if chosen <? (- number) mod 2 ^ 64 then modify (fun bc => set_triegc (Prque_Push root number (triegc bc)) bc)
          else on_db (Dereference root);; collect fuel chosen
      end
  end.

Section chain.
Context (cfg : CacheConfig) (header_root : Z -> option Hash).

Definition writeBlockWithState (number : Z) (root : Hash) : M BlockChain unit :=
  if Disabled cfg then on_db (db_Commit root)
  else
    on_db (db_reference root 0);;
    modify (fun bc => set_triegc (Prque_Push root (to_int64 (- to_int64 number)) (triegc bc)) bc);;
    when (triesInMemory <? number) (
      sizes ← gets (fun bc => db_Size (bc_db bc));
      let limit := TrieDirtyLimit cfg * 1024 * 1024 in
      when ((limit <? fst sizes) || (4 * 1024 * 1024 <? snd sizes)) (on_db (Cap (limit - IdealBatchSize)));;
      let chosen := number - triesInMemory in
      time ← gets gcproc;
      when (TrieTimeLimit cfg <? time)
        (match header_root chosen with
         | None => mret tt
         | Some r => on_db (db_Commit r);; modify (set_lastWrite chosen);; modify (set_gcproc 0)
         end);;
      fuel ← gets (fun bc => S (length (triegc bc)));
      collect fuel chosen).

(** The rest of the queue is dereferenced. *)
Fixpoint collect_all (fuel : nat) : M BlockChain unit :=
  match fuel with
  | O => fun _ => OutOfFuel
  | S fuel =>
      q ← gets triegc;
      match Prque_Pop q with
      | None => mret tt
      | Some ((root, _), q) => modify (set_triegc q);; on_db (Dereference root);; collect_all fuel
      end
  end.
(** [block_root] gives the roots of the canonical blocks, [current] is the number
    of the last one. *)
Definition Stop (block_root : Z -> option Hash) (current : Z) : M BlockChain unit :=
  when (negb (Disabled cfg)) (
    for_each (fun offset =>
      when (offset <? current) (match block_root (current - offset) with
        | None => panic NilDeref
        | Some r => on_db (db_Commit r)
        end)) [0; 1; triesInMemory - 1];;
    fuel ← gets (fun bc => S (length (triegc bc)));
    collect_all fuel).
End chain.

(** ** The queue is ordered *)

Definition item_ok (x : item) : Prop := (is_hash (fst x) /\ fst x <> 0) /\ - 2 ^ 62 < snd x <= 0.
Lemma to_int64_id z : - 2 ^ 63 <= z < 2 ^ 63 -> to_int64 z = z.
Proof. intros Hz. unfold to_int64. rewrite Z.mod_small; lia. Qed.
Lemma item_Less_eq a b : item_ok a -> item_ok b -> item_Less a b = (snd b <? snd a).
Proof. intros [_ Ha] [_ Hb]. unfold item_Less. rewrite to_int64_id by lia. destruct (Z.ltb_spec 0 (snd a - snd b)), (Z.ltb_spec (snd b) (snd a)); lia. Qed.
Lemma item_before x y : item_ok x -> item_ok y -> before item_Less x y <-> snd y <= snd x.
Proof. intros Hx Hy. unfold before. rewrite item_Less_eq by done. apply Z.ltb_ge. Qed.
Lemma item_asym x y : item_ok x -> item_ok y -> item_Less x y = true -> item_Less y x = false.
Proof. intros Hx Hy. rewrite !item_Less_eq by done. intros ?%Z.ltb_lt. apply Z.ltb_ge. lia. Qed.
Lemma item_trans x y z : item_ok x -> item_ok y -> item_ok z -> before item_Less x y -> before item_Less y z -> before item_Less x z.
Proof. intros Hx Hy Hz. rewrite !item_before by done. lia. Qed.

Record queue_ok (q : Prque) : Prop := { qo_heap : heap_ok item_Less q; qo_items : Forall item_ok q }.
Lemma Push_ok r p q : queue_ok q -> item_ok (r, p) -> queue_ok (Prque_Push r p q) /\ Prque_Push r p q ≡ₚ (r, p) :: q.
Proof.
  intros [Hh Hi] Hx. pose proof (heap_Push_perm item_Less (r, p) q) as Hp. split; [|done]. split; [apply (heap_Push_ok item_Less item_ok item_asym item_trans); done|].
  unfold Prque_Push. rewrite Hp. by constructor.
Qed.
Lemma Pop_ok q : queue_ok q ->
  q = [] /\ Prque_Pop q = None \/
  exists x q', Prque_Pop q = Some (x, q') /\ q ≡ₚ x :: q' /\ queue_ok q' /\ item_ok x /\ forall y, y ∈ q' -> snd y <= snd x.
Proof.
  intros [Hh Hi]. destruct q as [|x q]; [by left|right]. destruct (heap_Pop_ok item_Less item_ok item_asym item_trans x q Hi Hh) as (q' & Hpop & Hp & Hh' & Hmax).
  pose proof Hi as [Hx Hq]%Forall_cons. exists x, q'. split; [done|]. split; [by rewrite Hp|]. split; [split; [done|by rewrite Hp]|]. split; [done|].
  intros y Hy. rewrite Hp in Hy. apply item_before; [done| |by apply Hmax]. rewrite Forall_forall in Hq. by apply Hq.
Qed.

(** ** The invariant of the chain *)

Section chain_ok.
Context `{Crypto} {CL : CryptoLaws} (Q : bytes -> Prop) {CF : CollisionFree Q} (needs : Hash -> Hash -> Prop) (rank : Hash -> nat) {ND : Needs Q needs rank}.
Abbreviation valid := (gc_valid Q needs).
Implicit Types (bc : BlockChain).

(** Every reference of the chain is in the queue; the database may have fewer
    for a root that is on disk. *)
Record chain_ok bc : Prop := {
  co_valid : valid (bc_db bc);
  co_queue : queue_ok (triegc bc);
  co_most h : meta_refs (bc_db bc) h <= occ h (triegc bc).*1;
  co_exact h : h <> emptyRoot -> ~ on_disk (bc_db bc) h -> meta_refs (bc_db bc) h = occ h (triegc bc).*1;
}.
Lemma occ_Permutation h l l' : l ≡ₚ l' -> occ h l = occ h l'.
Proof. induction 1 as [|x l l' _ IH|x y l|l1 l2 l3 _ IH1 _ IH2]; rewrite ?occ_cons; lia. Qed.
Lemma occ_pos h l : h ∈ l -> 0 < occ h l.
Proof. intros Hin. pose proof (occ_nonneg h l). destruct (Z.eq_dec (occ h l) 0) as [Hz|]; [by apply occ_zero in Hz|lia]. Qed.

(** The chain holds a root: its trie can be read. *)
Definition held bc h : Prop := h = emptyRoot \/ on_disk (bc_db bc) h \/ h ∈ (triegc bc).*1.
Lemma held_opens db bc h f : valid db -> chain_ok bc -> opens db h f -> held bc h -> opens (bc_db bc) h f.
Proof.
  intros (L & Hso & Hct) Hco Ho Hh. destruct (co_valid _ Hco) as (L' & Hso' & Hct'). apply (opens_survives Q needs rank db _ L L'); try done. intros Hne.
  destruct Hh as [|[Hd|Hq]]; [done|by right|]. destruct (decide (is_Some (diskdb (bc_db bc) !! Hash_Bytes h))) as [Hd|Hd]; [by right|].
  destruct (ct_live _ _ _ _ Hct' h) as [HL|]; [rewrite (co_exact _ Hco h Hne Hd); by apply occ_pos|left; by apply (listed Q needs _ L')|done].
Qed.

(** A root leaves the queue. *)
Lemma deref_step bc root p q :
  chain_ok bc -> few 0 (bc_db bc) -> triegc bc ≡ₚ (root, p) :: q -> queue_ok q -> item_ok (root, p) ->
  exists db', Dereference root (bc_db bc) = Ok (tt, db') /\ chain_ok (set_triegc q (set_db db' bc)) /\ few 0 db' /\ diskdb db' = diskdb (bc_db bc).
Proof.
  intros Hco Hfew Hp Hq [Hroot _]. cbn [fst] in Hroot. destruct (co_valid _ Hco) as (L & Hso & Hct).
  assert (forall h, occ h (triegc bc).*1 = (if decide (h = root) then 1 else 0) + occ h q.*1) as Hocc.
  { intros h. rewrite (occ_Permutation h _ (((root, p) :: q).*1)) by (by rewrite Hp). rewrite fmap_cons, occ_cons. done. }
  assert (root ∈ L -> 0 < meta_refs (bc_db bc) root \/ on_disk (bc_db bc) root) as Hm.
  { intros HL. destruct (decide (is_Some (diskdb (bc_db bc) !! Hash_Bytes root))) as [|Hd]; [by right|left]. rewrite (co_exact _ Hco root), Hocc, decide_True; [|done| |done].
    - pose proof (occ_nonneg root q.*1). lia.
    - intros ->. destruct (listed_node Q needs _ L Hso _ HL) as (c & e & _ & _ & _ & [HQ He] & Hh & _). apply (cf_empty e HQ). rewrite He. by apply BytesToHash_Bytes. }
  destruct (Dereference_ok Q needs rank (bc_db bc) L root Hso Hct (proj1 (few_list Q needs 0 _ L Hso) Hfew) Hroot Hm) as (db' & L' & Hrun & Hso' & Hct' & Hk & Ht & Hm').
  assert (forall h, on_disk db' h <-> on_disk (bc_db bc) h) as Hd by (intros h; unfold on_disk; by rewrite (kp_disk _ _ _ Hk)).
  exists db'. split; [done|]. split; [split; cbn|split; [|apply Hk]].
  - by exists L'.
  - done.
  - intros h. rewrite Hm'. pose proof (co_most _ Hco h) as Hle. rewrite Hocc in Hle. pose proof (occ_nonneg h q.*1). destruct (decide (h = root)); lia.
  - intros h Hne Hnd. rewrite Hd in Hnd. rewrite Hm', (co_exact _ Hco h Hne Hnd), Hocc. pose proof (occ_nonneg h q.*1). destruct (decide (h = root)); lia.
  - apply (few_list Q needs 0 db' L' Hso'). intros h. apply Z.le_lt_trans with (total_refs (bc_db bc) L [] h); [done|]. by apply (few_list Q needs 0 _ L Hso).
Qed.
Lemma collect_ok chosen fuel : forall bc, chain_ok bc -> few 0 (bc_db bc) -> (length (triegc bc) < fuel)%nat ->
  exists bc', collect fuel chosen bc = Ok (tt, bc') /\ chain_ok bc' /\ diskdb (bc_db bc') = diskdb (bc_db bc) /\
    forall x, x ∈ triegc bc -> chosen < - snd x -> x ∈ triegc bc'.
Proof.
  induction fuel as [|fuel IH]; intros bc Hco Hfew Hlen; [lia|]. cbn [collect]. rewrite (run_bind (gets triegc) _ bc _ bc eq_refl).
  destruct (Pop_ok (triegc bc) (co_queue _ Hco)) as [[Hq Hpop]|((root & p) & q & Hpop & Hp & Hq & Hx & Hmax)]; rewrite Hpop; [by exists bc|].
  rewrite (run_bind (modify _) _ _ _ _ eq_refl). pose proof Hx as [_ Hrange]. cbn [snd] in Hrange. rewrite Z.mod_small by lia.
  destruct (Z.ltb_spec chosen (- p)) as [Hlt|Hge].
  - destruct (Push_ok root p q Hq Hx) as [Hq' Hp']. exists (set_triegc (Prque_Push root p q) bc). split; [done|].
    assert (Prque_Push root p q ≡ₚ triegc bc) as Hsame by (by rewrite Hp', Hp). split; [|split; [done|intros y Hy _; cbn; by rewrite Hsame]].
    destruct Hco as [A1 A2 A3 A4]. split; cbn; [done|done|intros h; rewrite (occ_Permutation h _ (triegc bc).*1) by (by rewrite Hsame); apply A3|].
    intros h. rewrite (occ_Permutation h _ (triegc bc).*1) by (by rewrite Hsame). apply A4.
  - destruct (deref_step bc root p q Hco Hfew Hp Hq Hx) as (db' & Hrun & Hco' & Hfew' & Hd).
    set (bc1 := set_triegc q (set_db db' bc)) in *.
    assert (on_db (Dereference root) (set_triegc q bc) = Ok (tt, bc1)) as Hrun' by (unfold on_db; cbn; by rewrite Hrun).
    rewrite (run_bind _ _ _ _ _ Hrun'). destruct (IH bc1 Hco' Hfew') as (bc' & Hrun2 & Hco2 & Hd2 & Hq2).
    + cbn. apply Permutation_length in Hp. cbn in Hp. lia.
    + exists bc'. split; [done|]. split; [done|]. split; [by rewrite Hd2|]. intros y Hy Hlt. apply Hq2; [|done]. cbn. rewrite Hp in Hy. apply elem_of_cons in Hy as [->|]; [|done].
      cbn in Hlt. lia.
Qed.

(** Nodes move to disk. *)
Lemma settle_step bc db' L L' :
  chain_ok bc -> few 0 (bc_db bc) -> store_ok Q needs (bc_db bc) L -> modulo (bc_db bc) L [] -> store_ok Q needs db' L' -> settles (bc_db bc) L db' L' ->
  chain_ok (set_db db' bc) /\ few 0 db' /\ forall h, on_disk (bc_db bc) h -> on_disk db' h.
Proof.
  intros Hco Hfew Hso Hct Hso' Hse.
  destruct (settles_counted Q needs _ L db' L' Hso Hso' Hse Hct) as (Hct' & Hm & Ht).
  assert (forall h, on_disk (bc_db bc) h -> on_disk db' h) as Hd by (intros h [e He]; exists e; by apply (se_disk _ _ _ _ Hse)).
  split; [split; cbn|split; [|done]].
  - by exists L'.
  - apply Hco.
  - intros h. rewrite Hm. apply Hco.
  - intros h Hne Hnd. rewrite Hm. apply Hco; [done|]. intros ?%Hd. done.
  - apply (few_list Q needs 0 db' L' Hso'). intros h. apply Z.le_lt_trans with (total_refs (bc_db bc) L [] h); [done|]. by apply (few_list Q needs 0 _ L Hso).
Qed.
(** A root enters the queue. *)
Lemma reference_step bc root p :
  chain_ok bc -> few 1 (bc_db bc) -> Z.of_nat (length (triegc bc)) < 2 ^ 16 - 1 -> item_ok (root, p) -> (root = emptyRoot \/ has (bc_db bc) root) ->
  exists db', db_reference root 0 (bc_db bc) = Ok (tt, db') /\ chain_ok (set_triegc (Prque_Push root p (triegc bc)) (set_db db' bc)) /\ few 0 db' /\
    diskdb db' = diskdb (bc_db bc).
Proof.
  intros Hco Hfew Hlen Hx Hhas. destruct (co_valid _ Hco) as (L & Hso & Hct). pose proof Hx as [[Hr H0] _]. cbn [fst] in *.
  assert (meta_refs (bc_db bc) root < 2 ^ 16 - 1) as Hlt.
  { pose proof (co_most _ Hco root) as Hle. assert (occ root (triegc bc).*1 <= Z.of_nat (length (triegc bc))); [|lia].
    pose proof (count_occ_bound Z.eq_dec root (triegc bc).*1) as Hb. rewrite length_fmap in Hb. unfold occ, Prque, item in *. lia. }
  destruct (db_reference_ok Q needs _ L root Hso Hct H0 Hlt) as (db' & Hrun & Hso' & Hct' & Hk & Hrefs & Hm). exists db'. split; [done|].
  destruct (Push_ok root p (triegc bc) (co_queue _ Hco) Hx) as [Hq' Hp'].
  assert (forall h, occ h (Prque_Push root p (triegc bc)).*1 = (if decide (h = root) then 1 else 0) + occ h (triegc bc).*1) as Hocc.
  { intros h. rewrite (occ_Permutation h _ (((root, p) :: triegc bc).*1)) by (by rewrite Hp'). by rewrite fmap_cons, occ_cons. }
  split; [split; cbn|split; [|apply Hk]].
  - by exists L.
  - done.
  - intros h. rewrite Hm, Hocc. pose proof (co_most _ Hco h). destruct (decide (h = root)) as [->|Hne]; [destruct (decide (root = root /\ root ∈ L)); lia|]. rewrite decide_False by naive_solver. lia.
  - intros h Hne Hnd. assert (~ on_disk (bc_db bc) h) as Hnd' by (unfold on_disk in *; by rewrite (kp_disk _ _ _ Hk) in Hnd). rewrite Hm, Hocc, (co_exact _ Hco h Hne Hnd').
    destruct (decide (h = root)) as [->|Hhr]; [rewrite decide_True; [lia|]|rewrite decide_False by naive_solver; lia]. split; [done|].
    destruct Hhas as [|[[_ Hd]|]]; [done| |done]. by apply (listed Q needs _ L Hso).
  - apply (few_list Q needs 0 db' L Hso'). intros h. pose proof (proj1 (few_list Q needs 1 _ L Hso) Hfew h) as Hf. unfold total_refs in *. rewrite Hm, (refs_to_same (bc_db bc) db') by done.
    destruct (decide (h = root /\ root ∈ L)); lia.
Qed.

(** ** Writing a block *)

(** A step that keeps the queue and all that is stored. *)
Definition settled bc bc' : Prop :=
  chain_ok bc' /\ few 0 (bc_db bc') /\ (forall h, on_disk (bc_db bc) h -> on_disk (bc_db bc') h) /\ triegc bc' = triegc bc /\
  forall h f, opens (bc_db bc) h f -> opens (bc_db bc') h f.
Lemma settled_refl bc : chain_ok bc -> few 0 (bc_db bc) -> settled bc bc.
Proof. intros Hco Hfew. split; [done|]. split; [done|]. done. Qed.
Lemma cap_step b limit bc : chain_ok bc -> few 0 (bc_db bc) -> exists bc', when b (on_db (Cap limit)) bc = Ok (tt, bc') /\ settled bc bc'.
Proof.
  intros Hco Hfew. destruct b; [|exists bc; split; [done|by apply settled_refl]]. destruct (co_valid _ Hco) as (L & Hso & Hct).
  destruct (Cap_ok Q needs rank _ L limit Hso) as (db' & L' & Hrun & Hso' & Hse & _). exists (set_db db' bc). split; [cbn; unfold on_db; by rewrite Hrun|].
  destruct (settle_step bc db' L L' Hco Hfew Hso Hct Hso' Hse) as (? & ? & ?). split_and!; try done. intros h f. apply opens_le. by apply (settles_le Q needs _ L db' L').
Qed.
Lemma commit_step r bc : chain_ok bc -> few 0 (bc_db bc) -> is_hash r /\ r <> 0 ->
  exists bc', on_db (db_Commit r) bc = Ok (tt, bc') /\ settled bc bc' /\ (has (bc_db bc) r -> on_disk (bc_db bc') r).
Proof.
  intros Hco Hfew Hr. destruct (co_valid _ Hco) as (L & Hso & Hct). destruct (db_Commit_ok Q needs rank _ L r Hso Hr) as (db' & L' & Hrun & Hso' & Hse & Hd).
  exists (set_db db' bc). split; [unfold on_db; by rewrite Hrun|]. destruct (settle_step bc db' L L' Hco Hfew Hso Hct Hso' Hse) as (? & ? & Hmono).
  split; [split_and!; try done; intros h f; apply opens_le; by apply (settles_le Q needs _ L db' L')|].
  intros [Hm|]; [|by apply Hmono]. by apply Hd, (listed Q needs _ L Hso).
Qed.
Lemma few_less spare db : 0 <= spare -> few spare db -> few 0 db.
Proof. intros Hs Hf h. specialize (Hf h). lia. Qed.
Lemma opens_root bc root f : chain_ok bc -> opens (bc_db bc) root f -> (is_hash root /\ root <> 0) /\ (root = emptyRoot \/ has (bc_db bc) root).
Proof.
  intros Hco Ho. destruct (co_valid _ Hco) as (L & Hso & _). destruct (opens_has Q needs _ L root f Hso Ho) as [->|(? & ? & ?)]; [split; [apply emptyRoot_hash|by left]|].
  split; [done|by right].
Qed.

Context (cfg : CacheConfig) (header_root : Z -> option Hash) (header_ok : forall n r, header_root n = Some r -> is_hash r /\ r <> 0).
(** The number of a block is the priority of its root, negated. *)
Definition queued (number : Z) (root : Hash) bc : Prop := root = emptyRoot \/ on_disk (bc_db bc) root \/ (root, - number) ∈ triegc bc.
Lemma queued_held number root bc : queued number root bc -> held bc root.
Proof. intros [?|[?|Hq]]; [by left|right; by left|right; right]. apply list_elem_of_fmap. by exists (root, - number). Qed.
(** What a block of this number leaves in the queue. *)
Definition outlives (number : Z) (later : Z) : Prop := triesInMemory < later -> later - triesInMemory < number.
Lemma collect_step number bc : chain_ok bc -> few 0 (bc_db bc) ->
  exists bc', (fuel ← gets (fun bc => S (length (triegc bc))); collect fuel (number - triesInMemory)) bc = Ok (tt, bc') /\ chain_ok bc' /\
    (forall h, on_disk (bc_db bc) h -> on_disk (bc_db bc') h) /\ forall n r, (r, - n) ∈ triegc bc -> number - triesInMemory < n -> (r, - n) ∈ triegc bc'.
Proof.
  intros Hco Hfew. rewrite (run_bind (gets _) _ bc _ bc eq_refl). destruct (collect_ok (number - triesInMemory) (S (length (triegc bc))) bc Hco Hfew) as (bc' & Hrun & Hco' & Hd & Hq); [lia|].
  exists bc'. split; [done|]. split; [done|]. split; [intros h; unfold on_disk; by rewrite Hd|]. intros n r Hn Hlt. apply Hq; [done|]. cbn. lia.
Qed.
Lemma write_ok bc number root f :
  chain_ok bc -> few 1 (bc_db bc) -> Z.of_nat (length (triegc bc)) < 2 ^ 16 - 1 -> 0 <= number < 2 ^ 62 -> opens (bc_db bc) root f ->
  exists bc', writeBlockWithState cfg header_root number root bc = Ok (tt, bc') /\ chain_ok bc' /\ queued number root bc' /\
    forall n r, queued n r bc -> outlives n number -> queued n r bc'.
Proof.
  intros Hco Hfew Hlen Hnum Ho. destruct (opens_root bc root f Hco Ho) as [Hroot Hhas]. unfold writeBlockWithState. destruct (Disabled cfg).
  { destruct (commit_step root bc Hco (few_less 1 _ ltac:(lia) Hfew) Hroot) as (bc' & Hrun & (Hco' & _ & Hd & Hq & _) & Hdr). exists bc'. split; [done|]. split; [done|].
    split; [destruct Hhas; [by left|right; left; by apply Hdr]|]. intros n r [?|[?|Hr]] _; [by left|right; left; by apply Hd|right; right; by rewrite Hq]. }
  assert (to_int64 (- to_int64 number) = - number) as Hprio by (rewrite (to_int64_id number) by lia; apply to_int64_id; lia). rewrite Hprio.
  assert (item_ok (root, - number)) as Hitem by (split; [done|cbn; lia]).
  destruct (reference_step bc root (- number) Hco Hfew Hlen Hitem Hhas) as (db1 & Hrun1 & Hco1 & Hfew1 & Hd1).
  set (bc1 := set_triegc (Prque_Push root (- number) (triegc bc)) (set_db db1 bc)) in *.
  rewrite (run_bind (on_db (db_reference root 0)) _ bc tt (set_db db1 bc)) by (unfold on_db; by rewrite Hrun1). rewrite (run_bind (modify _) _ (set_db db1 bc) _ _ eq_refl). fold bc1.
  assert (forall n r, queued n r bc -> queued n r bc1) as Hkeep.
  { destruct (Push_ok root (- number) (triegc bc) (co_queue _ Hco) Hitem) as [_ Hp]. intros n r [?|[Hd|Hr]]; [by left|right; left; unfold on_disk in *; cbn; by rewrite Hd1|].
    right. right. cbn. rewrite Hp. by right. }
  assert (queued number root bc1) as Hnew.
  { destruct (Push_ok root (- number) (triegc bc) (co_queue _ Hco) Hitem) as [_ Hp]. right. right. cbn. rewrite Hp. left. }
  destruct (Z.ltb_spec 128 number) as [Hlt|Hge]; cbn [when]; [|exists bc1; split; [done|]; split; [done|]; split; [done|]; intros n r Hn _; by apply Hkeep].
  rewrite (run_bind (gets _) _ bc1 _ bc1 eq_refl). cbv zeta. match goal with |- context [when ?b (on_db (Cap ?l))] => destruct (cap_step b l bc1 Hco1 Hfew1) as (bc2 & Hrun2 & Hset2) end.
  rewrite (run_bind _ _ _ _ _ Hrun2). destruct Hset2 as (Hco2 & Hfew2 & Hd2 & Hq2 & _). rewrite (run_bind (gets gcproc) _ bc2 _ bc2 eq_refl).
  assert (exists bc3, when (TrieTimeLimit cfg <? gcproc bc2) (match header_root (number - 128) with None => mret tt
    | Some r => on_db (db_Commit r);; modify (set_lastWrite (number - 128));; modify (set_gcproc 0) end) bc2 = Ok (tt, bc3) /\ settled bc2 bc3) as (bc3 & Hrun3 & Hset3).
  { destruct (TrieTimeLimit cfg <? gcproc bc2); cbn [when]; [|exists bc2; split; [reflexivity|by apply settled_refl]]. destruct (header_root (number - 128)) as [r|] eqn:Hr; [|exists bc2; split; [done|by apply settled_refl]].
    destruct (commit_step r bc2 Hco2 Hfew2 (header_ok _ r Hr)) as (bc' & Hrun & (A1 & A2 & A3 & A4 & A5) & _). exists (set_gcproc 0 (set_lastWrite (number - 128) bc')). cbn [when].
    rewrite (run_bind _ _ _ _ _ Hrun). split; [done|]. split; [by destruct A1|done]. }
  rewrite (run_bind _ _ _ _ _ Hrun3). destruct Hset3 as (Hco3 & Hfew3 & Hd3 & Hq3 & _). destruct (collect_step number bc3 Hco3 Hfew3) as (bc4 & Hrun4 & Hco4 & Hd4 & Hq4).
  exists bc4. split; [exact Hrun4|]. split; [done|].
  assert (forall n r, queued n r bc1 -> number - 128 < n -> queued n r bc4) as Hall.
  { intros n r [?|[Hd|Hr]] Hn; [by left|right; left; by apply Hd4, Hd3, Hd2|right; right]. apply Hq4; [|done]. by rewrite Hq3, Hq2. }
  split; [apply Hall; [done|lia]|]. intros n r Hn Hout. apply Hall; [by apply Hkeep|]. by apply Hout.
Qed.

(** ** Stopping *)

Lemma collect_all_ok fuel : forall bc, chain_ok bc -> few 0 (bc_db bc) -> (length (triegc bc) < fuel)%nat ->
  exists bc', collect_all fuel bc = Ok (tt, bc') /\ chain_ok bc' /\ diskdb (bc_db bc') = diskdb (bc_db bc) /\ triegc bc' = [].
Proof.
  induction fuel as [|fuel IH]; intros bc Hco Hfew Hlen; [lia|]. cbn [collect_all]. rewrite (run_bind (gets triegc) _ bc _ bc eq_refl).
  destruct (Pop_ok (triegc bc) (co_queue _ Hco)) as [[Hq Hpop]|((root & p) & q & Hpop & Hp & Hq & Hx & _)]; rewrite Hpop; [by exists bc|].
  rewrite (run_bind (modify _) _ _ _ _ eq_refl). destruct (deref_step bc root p q Hco Hfew Hp Hq Hx) as (db' & Hrun & Hco' & Hfew' & Hd).
  set (bc1 := set_triegc q (set_db db' bc)) in *. assert (on_db (Dereference root) (set_triegc q bc) = Ok (tt, bc1)) as Hrun' by (unfold on_db; cbn; by rewrite Hrun).
  rewrite (run_bind _ _ _ _ _ Hrun'). destruct (IH bc1 Hco' Hfew') as (bc' & Hrun2 & Hco2 & Hd2 & Hq2); [cbn; apply Permutation_length in Hp; cbn in Hp; lia|].
  exists bc'. split; [done|]. split; [done|]. split; [by rewrite Hd2|done].
Qed.
Context (block_root : Z -> option Hash).
Definition stop_commit (current offset : Z) : M BlockChain unit :=
  when (offset <? current) (match block_root (current - offset) with None => panic NilDeref | Some r => on_db (db_Commit r) end).
Lemma stop_commits current offsets : forall bc, chain_ok bc -> few 0 (bc_db bc) ->
  (forall o, o ∈ offsets -> o < current -> exists r, block_root (current - o) = Some r /\ is_hash r /\ r <> 0) ->
  exists bc', for_each (stop_commit current) offsets bc = Ok (tt, bc') /\ settled bc bc' /\
    forall o r f, o ∈ offsets -> o < current -> block_root (current - o) = Some r -> opens (bc_db bc) r f -> r = emptyRoot \/ on_disk (bc_db bc') r.
Proof.
  induction offsets as [|o offsets IH]; intros bc Hco Hfew Hb.
  { exists bc. split; [done|]. split; [by apply settled_refl|]. by intros o r f ?%not_elem_of_nil. }
  cbn [for_each]. assert (exists bc1, stop_commit current o bc = Ok (tt, bc1) /\ settled bc bc1 /\
    forall r f, o < current -> block_root (current - o) = Some r -> opens (bc_db bc) r f -> r = emptyRoot \/ on_disk (bc_db bc1) r) as (bc1 & Hrun1 & Hset1 & Hr1).
  { unfold stop_commit. destruct (Z.ltb_spec o current) as [Hlt|Hge]; cbn [when]; [|exists bc; split; [done|]; split; [by apply settled_refl|intros; lia]].
    destruct (Hb o) as (r & Hr & Hh); [left|done|]. rewrite Hr. destruct (commit_step r bc Hco Hfew Hh) as (bc1 & Hrun & Hset & Hd). exists bc1. split; [done|]. split; [done|].
    intros r' f _ [= <-] Ho. destruct (opens_root bc r f Hco Ho) as [_ [?|?]]; [by left|right; by apply Hd]. }
  rewrite (run_bind _ _ _ _ _ Hrun1). destruct Hset1 as (Hco1 & Hfew1 & Hd1 & Hq1 & Hop1). destruct (IH bc1 Hco1 Hfew1) as (bc2 & Hrun2 & (Hco2 & Hfew2 & Hd2 & Hq2 & Hop2) & Hr2).
  { intros o' Ho'. apply Hb. by right. }
  exists bc2. split; [done|]. split; [split_and!; try done; [intros h Hh; by apply Hd2, Hd1|congruence|intros h f Ho; by apply Hop2, Hop1]|].
  intros o' r f Ho' Hlt Hr Hop. apply elem_of_cons in Ho' as [->|Ho']; [destruct (Hr1 r f Hlt Hr Hop); [by left|right; by apply Hd2]|].
  by apply (Hr2 o' r f), Hop1.
Qed.
(** On the disk alone. *)
Definition disk_opens bc r f : Prop := opens (NewDatabase (diskdb (bc_db bc))) r f.
Lemma on_disk_opens db bc r f : valid db -> chain_ok bc -> opens db r f -> r = emptyRoot \/ on_disk (bc_db bc) r -> disk_opens bc r f.
Proof.
  intros (L & Hso & _) Hco Ho Hr. destruct (co_valid _ Hco) as (L' & Hso' & _). pose proof (so_inv _ _ _ _ Hso') as Hst'.
  apply (opens_survives Q needs rank db _ L []); try done; [apply store_new; [apply Hso'|intros h k; apply (st_disk _ _ _ _ Hst')]|]. intros Hne. destruct Hr; [done|by right].
Qed.
Lemma Stop_ok current bc :
  chain_ok bc -> few 0 (bc_db bc) -> Disabled cfg = false ->
  (forall o, o ∈ [0; 1; triesInMemory - 1] -> o < current -> exists r, block_root (current - o) = Some r /\ is_hash r /\ r <> 0) ->
  exists bc', Stop cfg block_root current bc = Ok (tt, bc') /\ triegc bc' = [] /\
    forall o r f, o ∈ [0; 1; triesInMemory - 1] -> o < current -> block_root (current - o) = Some r -> opens (bc_db bc) r f -> disk_opens bc' r f.
Proof.
  intros Hco Hfew Hcfg Hb. unfold Stop. rewrite Hcfg. cbn [negb when].
  destruct (stop_commits current [0; 1; triesInMemory - 1] bc Hco Hfew Hb) as (bc1 & Hrun1 & (Hco1 & Hfew1 & Hd1 & Hq1 & Hop1) & Hr1).
  rewrite (run_bind _ _ _ _ _ Hrun1). rewrite (run_bind (gets _) _ bc1 _ bc1 eq_refl).
  destruct (collect_all_ok (S (length (triegc bc1))) bc1 Hco1 Hfew1) as (bc2 & Hrun2 & Hco2 & Hd2 & Hq2); [lia|]. exists bc2. split; [done|]. split; [done|].
  intros o r f Ho Hlt Hr Hop. apply (on_disk_opens (bc_db bc)); [apply Hco|done..|]. destruct (Hr1 o r f Ho Hlt Hr Hop) as [|Hd]; [by left|right]. unfold on_disk in *. by rewrite Hd2.
Qed.

(** ** Runs of the chain *)

(** How states are committed to the database: all that is asked of a commit is
    that it keeps the database in order and what could be read readable. That is
    proved for the commit of a trie without a callback for its leaves
    ([trie_commits_ok]); the one of a state also refers from the leaves of the
    account trie to storage tries and code. *)
Context (commits : TrieDB -> TrieDB -> Prop) (commits_ok : forall db db', valid db -> commits db db' -> valid db' /\ gc_le db db').

(** The blocks that were written, the last one first: the number, the root and
    the contents of the trie. Before a block is written, states are committed
    and time goes by. *)
Definition block_log : Type := list (Z * Hash * (bytes -> bytes)).
Inductive chain_run : block_log -> BlockChain -> Prop :=
| run_start d : disk_ok Q d -> disk_closed needs d -> chain_run [] (NewBlockChain (NewDatabase d))
| run_commit log bc db' : chain_run log bc -> commits (bc_db bc) db' -> chain_run log (set_db db' bc)
| run_time log bc t : chain_run log bc -> chain_run log (set_gcproc (gcproc bc + t) bc)
| run_write log bc number root f bc' :
    chain_run log bc -> opens (bc_db bc) root f -> 0 <= number < 2 ^ 62 -> few 1 (bc_db bc) -> Z.of_nat (length (triegc bc)) < 2 ^ 16 - 1 ->
    writeBlockWithState cfg header_root number root bc = Ok (tt, bc') -> chain_run ((number, root, f) :: log) bc'.

Lemma start_ok d : disk_ok Q d -> disk_closed needs d -> chain_ok (NewBlockChain (NewDatabase d)).
Proof.
  intros Hd Hc. assert (forall h, meta_refs (NewDatabase d) h = 0) as Hm by (intros h; unfold meta_refs; cbn; rewrite lookup_singleton_eq; cbn; by rewrite lookup_empty).
  split; cbn.
  - exists []. split; [by apply store_new|]. split.
    + intros h. rewrite Hm. lia.
    + intros h. rewrite Hm. lia.
    + intros h n. unfold parents_at. cbn. destruct (decide (h = 0)) as [->|Hne]; [rewrite lookup_singleton_eq; intros [= <-]; lia|by rewrite lookup_singleton_ne].
    + by intros h ?%not_elem_of_nil.
  - split; [|constructor]. intros p c x y _ _ Hcl. cbn in Hcl. lia.
  - intros h. rewrite Hm. done.
  - intros h _ _. by rewrite Hm.
Qed.
Definition recent (n : Z) (later : block_log) : Prop := forall m r f, (m, r, f) ∈ later -> outlives n m.
Lemma chain_run_ok log bc : chain_run log bc ->
  chain_ok bc /\ forall later n r f earlier, log = later ++ (n, r, f) :: earlier -> recent n later -> queued n r bc /\ opens (bc_db bc) r f.
Proof.
  induction 1 as [d Hd Hc|log bc db' _ [Hco IH] Hcm|log bc t _ [Hco IH]|log bc number root f bc' _ [Hco IH] Ho Hnum Hfew Hlen Hrun].
  - split; [by apply start_ok|]. intros later n r f earlier HE. by destruct later.
  - destruct (commits_ok _ db' (co_valid _ Hco) Hcm) as [Hv Hle]. split; [split; cbn; [done|apply Hco| |]|].
    + intros h. rewrite (gl_meta _ _ Hle). apply Hco.
    + intros h. unfold on_disk. rewrite (gl_disk _ _ Hle), (gl_meta _ _ Hle). apply Hco.
    + intros later n r f earlier HE Hrec. destruct (IH later n r f earlier HE Hrec) as [Hq Ho]. split; [|by eapply opens_le; [apply Hle|]].
      destruct Hq as [?|[Hd|?]]; [by left|right; left|right; by right]. unfold on_disk in *. cbn. by rewrite (gl_disk _ _ Hle).
  - split; [by destruct Hco|]. done.
  - destruct (write_ok bc number root f Hco Hfew Hlen Hnum Ho) as (bc1 & Hrun1 & Hco1 & Hq & Hkeep). rewrite Hrun in Hrun1. injection Hrun1 as <-. split; [done|].
    intros later n r f' earlier HE Hrec. assert (queued n r bc' /\ opens (bc_db bc) r f') as [Hq' Ho'].
    { destruct later as [|x later]; [injection HE as -> -> -> _; done|]. injection HE as <- ->. destruct (IH later n r f' earlier eq_refl) as [Hq' Ho'].
      - intros m r' g Hin. apply (Hrec m r' g). by right.
      - split; [|done]. apply Hkeep; [done|]. apply (Hrec number root f). left. }
    split; [done|]. apply (held_opens (bc_db bc)); [apply Hco|done..|by apply (queued_held n)].
Qed.

(** C11. The tries of recent blocks can be read: whatever states are committed and
    whatever blocks are written, of whatever numbers, the trie of a block is as it
    was written as long as no block was written since whose number is more than
    127 above. And writing goes on: the next block of a trie that can be read is
    written, with its flushes to disk and its garbage collection, without a
    failure. *)
Theorem recent_tries_readable log bc :
  chain_run log bc ->
  (forall later n r f earlier, log = later ++ (n, r, f) :: earlier -> recent n later -> opens (bc_db bc) r f) /\
  (forall number root f, opens (bc_db bc) root f -> 0 <= number < 2 ^ 62 -> few 1 (bc_db bc) -> Z.of_nat (length (triegc bc)) < 2 ^ 16 - 1 ->
    exists bc', writeBlockWithState cfg header_root number root bc = Ok (tt, bc') /\ chain_run ((number, root, f) :: log) bc').
Proof.
  intros Hrun. split; [intros later n r f earlier HE Hrec; by apply (proj2 (chain_run_ok log bc Hrun) later n r f earlier)|].
  intros number root f Ho Hnum Hfew Hlen. destruct (write_ok bc number root f (proj1 (chain_run_ok log bc Hrun)) Hfew Hlen Hnum Ho) as (bc' & Hw & _). exists bc'.
  split; [done|]. by apply (run_write log bc number root f bc').
Qed.

(** C13. A chain that stops leaves on disk the tries of its last block, of the one
    before and of the one 127 before, as far as it could read them: a new
    database on the disk opens them with the same contents. The queue is empty. *)
Theorem Stop_persists log bc current :
  chain_run log bc -> few 0 (bc_db bc) -> Disabled cfg = false ->
  (forall o, o ∈ [0; 1; triesInMemory - 1] -> o < current -> exists r, block_root (current - o) = Some r /\ is_hash r /\ r <> 0) ->
  exists bc', Stop cfg block_root current bc = Ok (tt, bc') /\ triegc bc' = [] /\
    forall o r f, o ∈ [0; 1; triesInMemory - 1] -> o < current -> block_root (current - o) = Some r -> opens (bc_db bc) r f ->
      opens (NewDatabase (diskdb (bc_db bc'))) r f.
Proof. intros Hrun Hfew Hcfg Hb. by apply Stop_ok; [apply (chain_run_ok log)|..]. Qed.
End chain_ok.
