(* ===== verification/GcDemo.v ===== *)
(** * Two tries that share a node

    Concrete tries on a database with garbage collection, and a chain of two
    blocks that has them: the theorems of [TrieFlush], [TrieGc] and [ChainGc]
    at work. *)

From stdpp Require Import gmap.
From S2P Require Import Prelude Heap CommonMath Rlp RlpSpec StateIface ConcreteCrypto TrieKey TrieNode Trie TrieSpec TrieProps TrieDatabase Hasher TrieCodec HasherProps DatabaseProps TrieStore TrieCommit TrieFlush TrieGc ChainGc.
Local Open Scope Z_scope.
#[local] Arguments Hash_Bytes _ : simpl never.

(** Values that are too long to be within their parents. *)
Definition kvs_old : list (bytes * bytes) := [([0x10; 1], replicate 40 7); ([0x20; 2], replicate 40 8)].
Definition kvs_new : list (bytes * bytes) := kvs_old ++ [([0x20; 2], replicate 40 9)].
Definition trie_of (kvs : list (bytes * bytes)) : Trie := match demo_update kvs with Ok t => t | _ => mkTrie None 0 0 end.
Definition map_of (kvs : list (bytes * bytes)) : bytes -> bytes := upd_all kvs (fun _ => []).
Definition encs_of : node -> list bytes := fix encs n := match n with
  | shortNode _ c _ => node_enc n :: encs c
  | fullNode cs _ => node_enc n :: concat (map encs cs)
  | _ => []
  end.
Definition gc_encs : list bytes := Eval vm_compute in encs_of (root_node (trie_of kvs_old)) ++ encs_of (root_node (trie_of kvs_new)).
Definition gc_Q (e : bytes) : Prop := e ∈ gc_encs.
Definition root_of (kvs : list (bytes * bytes)) : Hash := root_hash (root_node (trie_of kvs)).
Definition gc_hashes : list bytes := Eval vm_compute in map keccak gc_encs.
Definition old_root : Hash := Eval vm_compute in root_of kvs_old.
Definition new_root : Hash := Eval vm_compute in root_of kvs_new.
Definition gc_rank (h : Hash) : nat := if bool_decide (Hash_Bytes h = Hash_Bytes old_root \/ Hash_Bytes h = Hash_Bytes new_root) then 1 else 0.

Lemma gc_hashes_eq : gc_hashes = map keccak gc_encs.
Proof. vm_compute. reflexivity. Qed.
Lemma gc_hash_of e : gc_Q e -> exists i, gc_encs !! i = Some e /\ gc_hashes !! i = Some (keccak e).
Proof. intros [i Hi]%list_elem_of_lookup. exists i. split; [done|]. rewrite gc_hashes_eq. change (map keccak gc_encs) with (keccak <$> gc_encs). by rewrite list_lookup_fmap, Hi. Qed.
#[export] Instance gc_CF : CollisionFree gc_Q.
Proof.
  assert (Forall (fun '(i, hx) => (BytesToHash hx <> 0 /\ BytesToHash hx <> emptyRoot) /\
    Forall (fun '(j, hy) => hx = hy -> gc_encs !! i = gc_encs !! j) (imap pair gc_hashes)) (imap pair gc_hashes)) as Hall by (apply (bool_decide_unpack _); vm_compute; exact I).
  rewrite Forall_forall in Hall.
  assert (forall i hx, gc_hashes !! i = Some hx -> (i, hx) ∈ imap pair gc_hashes) as Hin.
  { intros i hx Hi. apply (list_elem_of_lookup_2 _ i). by rewrite list_lookup_imap, Hi. }
  split.
  - intros x y (i & Hi & Hhi)%gc_hash_of (j & Hj & Hhj)%gc_hash_of Heq. destruct (Hall _ (Hin i _ Hhi)) as [_ Hf]. rewrite Forall_forall in Hf.
    specialize (Hf _ (Hin j _ Hhj) Heq). congruence.
  - intros x (i & Hi & Hhi)%gc_hash_of. apply (Hall _ (Hin i _ Hhi)).
  - intros x (i & Hi & Hhi)%gc_hash_of. apply (Hall _ (Hin i _ Hhi)).
Qed.
Lemma gc_kids : Forall2 (fun e h => forall hash gen n, mustDecodeNode hash e gen = Ok n ->
  Forall (fun k => (is_hash k /\ k <> 0) /\ (gc_rank k < gc_rank (BytesToHash h))%nat) (kids n)) gc_encs gc_hashes.
Proof.
  unfold gc_encs, gc_hashes.
  repeat (apply Forall2_cons; split; [intros hash gen n Hn; vm_compute in Hn; injection Hn as <-; apply (bool_decide_unpack _); vm_compute; exact I|]). by apply Forall2_nil.
Qed.
#[export] Instance gc_acyclic : Acyclic gc_Q gc_rank.
Proof.
  assert (forall h k, kids_of gc_Q h k -> (is_hash k /\ k <> 0) /\ (gc_rank k < gc_rank h)%nat) as Hall; [|split; intros h k Hk; by destruct (Hall h k Hk)].
  intros h k (e & gen & n & (i & Hi & Hhi)%gc_hash_of & He & Hn & Hk). pose proof gc_kids as Hf. rewrite Forall2_lookup in Hf. specialize (Hf i). rewrite Hi, Hhi in Hf.
  inversion Hf as [? ? Hx|]; subst. specialize (Hx _ _ _ Hn). rewrite Forall_forall in Hx. destruct (Hx k Hk) as [Hkh Hr]. split; [done|].
  replace (gc_rank h) with (gc_rank (BytesToHash (keccak e))); [done|]. unfold gc_rank. by rewrite Bytes_BytesToHash, He by apply keccak_hash_ok.
Qed.

(** ** The tries on the database *)

Lemma kvs_ok kvs : kvs = kvs_old \/ kvs = kvs_new -> Forall (fun '(k, v) => key_ok k /\ bytes_ok v /\ zlen v < 2 ^ 32) kvs.
Proof. intros [->| ->]; repeat constructor; try done; by vm_compute. Qed.
Lemma trie_of_map kvs : kvs = kvs_old \/ kvs = kvs_new -> trie_map (lookup_node demo_nodes) (clean_inv demo_nodes) (trie_of kvs) (map_of kvs).
Proof.
  intros Hkvs. pose proof demo_loads as Hl.
  destruct (update_all_ok (lookup_node demo_nodes) (clean_inv demo_nodes) kvs (mkTrie None 0 0) (fun _ => []) (trie_map_empty _ _ 0 0) (kvs_ok kvs Hkvs)) as (t & He & Ht).
  unfold trie_of, demo_update. rewrite He. exact Ht.
Qed.
Lemma trie_of_encs kvs : kvs = kvs_old \/ kvs = kvs_new -> all_encs gc_Q (root_node (trie_of kvs)).
Proof.
  assert (forall x, In x gc_encs -> gc_Q x) as HQ by (intros x; apply list_elem_of_In).
  intros [->| ->]; vm_compute; repeat split; apply HQ; vm_compute; tauto.
Qed.

Abbreviation valid := (gc_valid gc_Q (kids_of gc_Q)).
(** A trie is committed and its root referenced. *)
Definition put (kvs : list (bytes * bytes)) : M TrieDB unit := '(h, _) ← Trie_Commit no_leaf (trie_of kvs); db_reference h 0.
Lemma commit_of_ok kvs db : kvs = kvs_old \/ kvs = kvs_new -> valid db -> nodes_le demo_nodes db ->
  exists t' db', Trie_Commit no_leaf (trie_of kvs) db = Ok (root_of kvs, t', db') /\ valid db' /\ gc_le db db' /\ opens db' (root_of kvs) (map_of kvs).
Proof.
  intros Hkvs Hv Hle. destruct (Commit_ok gc_Q (SN := gc_stores gc_Q gc_rank) (trie_of kvs) (map_of kvs) db Hv (on_le demo_nodes db _ _ Hle (trie_of_map kvs Hkvs)) (trie_of_encs kvs Hkvs))
    as (t' & db' & Hrun & Hv' & Hle' & _ & Ho). by exists t', db'.
Qed.
Lemma put_ok kvs db : kvs = kvs_old \/ kvs = kvs_new -> valid db -> nodes_le demo_nodes db -> meta_refs db (root_of kvs) < 2 ^ 16 - 1 ->
  exists db', put kvs db = Ok (tt, db') /\ valid db' /\ nodes_le db db' /\ opens db' (root_of kvs) (map_of kvs).
Proof.
  intros Hkvs Hv Hle Hm. destruct (commit_of_ok kvs db Hkvs Hv Hle) as (t1 & db1 & Hrun & (L & Hso & Hct) & Hle1 & Ho).
  destruct (db_reference_ok gc_Q (kids_of gc_Q) db1 L (root_of kvs) Hso Hct) as (db2 & Hrun2 & Hso2 & Hct2 & _ & _ & _).
  { destruct Hkvs as [->| ->]; vm_compute; discriminate. }
  { by rewrite (gl_meta _ _ Hle1). }
  assert (nodes_le db1 db2) as Hle2.
  { destruct (db_reference_same (root_of kvs) 0 db1) as (db3 & Hrun3 & Hs); [apply (st_dom _ _ _ _ (so_inv _ _ _ _ Hso)); by left|]. rewrite Hrun2 in Hrun3. injection Hrun3 as <-.
    by apply (same_content_ok gc_Q db1 db2 Hs), (so_db _ _ _ _ Hso). }
  exists db2. split; [unfold put, mbind, M_bind; rewrite Hrun; exact Hrun2|]. split; [by exists L|]. split; [by etransitivity; [apply Hle1|]|]. by apply (opens_le db1).
Qed.
Definition gc_db : TrieDB := Eval vm_compute in match (put kvs_old;; put kvs_new) demo_nodes with Ok (_, db) => db | _ => demo_nodes end.
Lemma demo_valid : valid demo_nodes.
Proof.
  apply (co_valid gc_Q (kids_of gc_Q) (NewBlockChain demo_nodes)), start_ok.
  - intros h e _ _. by rewrite lookup_empty.
  - intros h k _ [e He]. by rewrite lookup_empty in He.
Qed.
Lemma roots_eq : old_root = root_of kvs_old /\ new_root = root_of kvs_new.
Proof. split; vm_compute; reflexivity. Qed.
Lemma gc_db_ok : valid gc_db /\ opens gc_db old_root (map_of kvs_old) /\ opens gc_db new_root (map_of kvs_new).
Proof.
  rewrite (proj1 roots_eq), (proj2 roots_eq). destruct (put_ok kvs_old demo_nodes (or_introl eq_refl) demo_valid) as (db1 & Hrun1 & Hv1 & Hle1 & Ho1); [done|by vm_compute|].
  assert (match put kvs_old demo_nodes with Ok (_, db) => meta_refs db new_root | _ => 0 end = 0) as Hm by (vm_compute; reflexivity). rewrite Hrun1, (proj2 roots_eq) in Hm.
  destruct (put_ok kvs_new db1 (or_intror eq_refl) Hv1 Hle1) as (db2 & Hrun2 & Hv2 & Hle2 & Ho2); [lia|].
  assert ((put kvs_old;; put kvs_new) demo_nodes = Ok (tt, gc_db)) as Hrun by (vm_compute; reflexivity).
  rewrite (run_bind _ _ _ _ _ Hrun1), Hrun2 in Hrun. injection Hrun as <-. split; [done|]. split; [by apply (opens_le db1)|done].
Qed.
Lemma root_hashes : (is_hash old_root /\ old_root <> 0) /\ (is_hash new_root /\ new_root <> 0).
Proof. repeat split; by vm_compute. Qed.

Lemma Dereference_safe_witness : exists db', Dereference old_root gc_db = Ok (tt, db') /\ opens db' new_root (map_of kvs_new).
Proof.
  destruct gc_db_ok as (Hv & _ & Ho). destruct (Dereference_safe gc_Q (kids_of gc_Q) gc_rank gc_db old_root Hv) as (db' & Hrun & _ & _ & Hm & Hopen).
  - apply (few_in_all gc_Q (kids_of gc_Q)); [exact Hv|]. vm_compute. discriminate.
  - apply root_hashes.
  - apply root_hashes.
  - left. vm_compute. reflexivity.
  - exists db'. split; [exact Hrun|]. apply Hopen; [exact Ho|]. left. rewrite Hm. vm_compute. reflexivity.
Defined.
Lemma Commit_durable_witness : exists db', db_Commit new_root gc_db = Ok (tt, db') /\ opens (NewDatabase (diskdb db')) new_root (map_of kvs_new).
Proof.
  destruct gc_db_ok as ((L & Hso & _) & _ & Ho). destruct (Commit_durable gc_Q (kids_of gc_Q) gc_rank gc_db L new_root (map_of kvs_new) Hso Ho) as (db' & L' & Hrun & _ & Hd & _).
  exists db'. exact (conj Hrun Hd).
Defined.
Lemma Cap_keeps_witness : exists db', Cap 0 gc_db = Ok (tt, db') /\ opens db' old_root (map_of kvs_old).
Proof.
  destruct gc_db_ok as ((L & Hso & _) & Ho & _). destruct (Cap_keeps gc_Q (kids_of gc_Q) gc_rank gc_db L 0 Hso) as (db' & L' & Hrun & _ & _ & _ & Hk & _).
  exists db'. exact (conj Hrun (Hk _ _ Ho)).
Defined.

(** ** A chain *)

(** Every block finds too much in memory, and too much time gone by. *)
Definition demo_cfg : CacheConfig := mkCacheConfig false 0 0.
Definition demo_header (n : Z) : option Hash := Some old_root.
Abbreviation demo_run := (chain_run gc_Q (kids_of gc_Q) demo_cfg demo_header (trie_commits gc_Q)).
Definition commit_of (kvs : list (bytes * bytes)) : M BlockChain unit := on_db ('(_, _) ← Trie_Commit no_leaf (trie_of kvs); mret tt);; modify (fun bc => set_gcproc (gcproc bc + 1) bc).
Lemma demo_header_ok n r : demo_header n = Some r -> is_hash r /\ r <> 0.
Proof. intros [= <-]. apply root_hashes. Qed.
Lemma demo_run_ok log bc : demo_run log bc -> chain_ok gc_Q (kids_of gc_Q) bc.
Proof. intros Hrun. by apply (chain_run_ok gc_Q (kids_of gc_Q) gc_rank demo_cfg demo_header demo_header_ok (trie_commits gc_Q) (trie_commits_ok gc_Q gc_rank)) in Hrun as [? _]. Qed.
Lemma empty_le db : valid db -> nodes_le demo_nodes db.
Proof.
  intros (L & Hso & _). pose proof (db_meta gc_Q db (so_db _ _ _ _ Hso)) as [Hc Hm].
  assert (forall h, h <> 0 -> enc_at demo_nodes h = None) as He by (intros h Hh; unfold enc_at; cbn; by rewrite lookup_singleton_ne).
  split.
  - intros h gen n. destruct (decide (h = 0)) as [->|Hh]; [done|]. rewrite (lookup_node_enc gc_Q) by (try done; apply NewDatabase_ok). rewrite He by done. congruence.
  - intros h e. destruct (decide (h = 0)) as [->|Hh]; [|by rewrite He]. unfold enc_at. rewrite Hc. destruct (dirties db !! 0) as [c|]; [|done]. injection Hm as Hm.
    by rewrite (same_cached_rlp c no_cached Hm).
Qed.
(** A commit and the block. *)
Lemma demo_commit kvs log bc : kvs = kvs_old \/ kvs = kvs_new -> demo_run log bc ->
  exists bc', commit_of kvs bc = Ok (tt, bc') /\ demo_run log bc' /\ opens (bc_db bc') (root_of kvs) (map_of kvs).
Proof.
  intros Hkvs Hrun. pose proof (co_valid _ _ _ (demo_run_ok log bc Hrun)) as Hv. destruct (commit_of_ok kvs (bc_db bc) Hkvs Hv (empty_le _ Hv)) as (t' & db' & Hr & _ & _ & Ho).
  exists (set_gcproc (gcproc bc + 1) (set_db db' bc)). split; [unfold commit_of, on_db, mbind, M_bind; by rewrite Hr|]. split; [|done].
  apply (run_time gc_Q (kids_of gc_Q) demo_cfg demo_header (trie_commits gc_Q) log (set_db db' bc) 1), run_commit; [done|].
  exists (trie_of kvs), (map_of kvs), (root_of kvs), t'. split; [apply (on_le demo_nodes); [by apply empty_le|by apply trie_of_map]|]. split; [by apply trie_of_encs|done].
Qed.
Definition after {A} (m : M BlockChain A) (bc : BlockChain) : BlockChain := match m bc with Ok (_, bc') => bc' | _ => bc end.
Definition write_block (number : Z) (root : Hash) : M BlockChain unit := writeBlockWithState demo_cfg demo_header number root.
Definition chain_0 : BlockChain := NewBlockChain demo_nodes.
Definition chain_1 : BlockChain := Eval vm_compute in after (commit_of kvs_old) chain_0.
Definition chain_2 : BlockChain := Eval vm_compute in after (write_block 100 old_root) chain_1.
Definition chain_3 : BlockChain := Eval vm_compute in after (commit_of kvs_new) chain_2.
Definition chain_4 : BlockChain := Eval vm_compute in after (write_block 200 new_root) chain_3.
Lemma chain_steps :
  commit_of kvs_old chain_0 = Ok (tt, chain_1) /\ write_block 100 old_root chain_1 = Ok (tt, chain_2) /\
  commit_of kvs_new chain_2 = Ok (tt, chain_3) /\ write_block 200 new_root chain_3 = Ok (tt, chain_4).
Proof. repeat split; vm_compute; reflexivity. Qed.
Definition log_2 : block_log := [(100, old_root, map_of kvs_old)].
Definition log_4 : block_log := (200, new_root, map_of kvs_new) :: log_2.
Lemma run_0 : demo_run [] chain_0.
Proof. apply run_start; [intros h e _ _; by rewrite lookup_empty|]. intros h k _ [e He]. by rewrite lookup_empty in He. Qed.
Lemma demo_few spare log bc : demo_run log bc -> refs_in_memory (bc_db bc) + 2 ^ 16 <= 2 ^ 32 - spare -> few spare (bc_db bc).
Proof. intros Hrun. apply (few_in_all gc_Q (kids_of gc_Q)). apply (co_valid _ _ _ (demo_run_ok log bc Hrun)). Qed.
Lemma run_1 : demo_run [] chain_1 /\ opens (bc_db chain_1) old_root (map_of kvs_old).
Proof.
  destruct (demo_commit kvs_old [] chain_0 (or_introl eq_refl) run_0) as (bc' & Hrun & Hr & Ho). rewrite (proj1 chain_steps) in Hrun. injection Hrun as <-.
  rewrite (proj1 roots_eq). exact (conj Hr Ho).
Qed.
Lemma run_2 : demo_run log_2 chain_2.
Proof.
  destruct run_1 as [Hr Ho]. apply (run_write _ _ _ _ _ [] chain_1 100 old_root (map_of kvs_old)); [exact Hr|exact Ho|lia| |vm_compute; reflexivity|apply chain_steps].
  apply (demo_few 1 [] chain_1 Hr). vm_compute. discriminate.
Qed.
Lemma run_3 : demo_run log_2 chain_3 /\ opens (bc_db chain_3) new_root (map_of kvs_new).
Proof.
  destruct (demo_commit kvs_new log_2 chain_2 (or_intror eq_refl) run_2) as (bc' & Hrun & Hr & Ho). destruct chain_steps as (_ & _ & H3 & _). rewrite H3 in Hrun. injection Hrun as <-.
  rewrite (proj2 roots_eq). exact (conj Hr Ho).
Qed.

Lemma recent_tries_readable_witness :
  demo_run log_4 chain_4 /\ opens (bc_db chain_4) old_root (map_of kvs_old) /\ exists bc', write_block 201 new_root chain_4 = Ok (tt, bc').
Proof.
  assert (demo_run log_4 chain_4 /\ opens (bc_db chain_3) new_root (map_of kvs_new)) as [Hrun Hnew].
  { destruct run_3 as [Hr Ho]. split; [|exact Ho].
    apply (run_write _ _ _ _ _ log_2 chain_3 200 new_root (map_of kvs_new)); [exact Hr|exact Ho|lia| |vm_compute; reflexivity|apply chain_steps].
    apply (demo_few 1 log_2 chain_3 Hr). vm_compute. discriminate. }
  destruct (recent_tries_readable gc_Q (kids_of gc_Q) gc_rank demo_cfg demo_header demo_header_ok (trie_commits gc_Q) (trie_commits_ok gc_Q gc_rank) log_4 chain_4 Hrun) as [Hrec Hnext].
  split; [exact Hrun|]. split.
  - apply (Hrec [(200, new_root, map_of kvs_new)] 100 old_root (map_of kvs_old) []); [reflexivity|].
    intros m r f Hin. apply list_elem_of_singleton in Hin. injection Hin as -> _ _. unfold outlives. lia.
  - destruct (Hnext 201 new_root (map_of kvs_new)) as (bc' & Hw & _); [|lia|apply (demo_few 1 log_4 chain_4 Hrun); vm_compute; discriminate|vm_compute; reflexivity|by exists bc'].
    apply (Hrec [] 200 new_root (map_of kvs_new) log_2); [reflexivity|]. intros m r f Hin. by apply not_elem_of_nil in Hin.
Defined.
Definition demo_blocks (n : Z) : option Hash := if n =? 1 then Some new_root else None.
Lemma Stop_persists_witness :
  exists bc', Stop demo_cfg demo_blocks 1 chain_3 = Ok (tt, bc') /\ opens (NewDatabase (diskdb (bc_db bc'))) new_root (map_of kvs_new).
Proof.
  destruct run_3 as [Hr Ho].
  destruct (Stop_persists gc_Q (kids_of gc_Q) gc_rank demo_cfg demo_header demo_header_ok demo_blocks (trie_commits gc_Q) (trie_commits_ok gc_Q gc_rank) log_2 chain_3 1 Hr) as (bc' & Hrun & _ & Hd).
  - apply (demo_few 0 log_2 chain_3 Hr). vm_compute. discriminate.
  - reflexivity.
  - intros o Ho' Hlt. exists new_root. split; [|apply root_hashes]. rewrite !elem_of_cons in Ho'. destruct Ho' as [->|[->|[->|Hn]]]; [reflexivity|lia|lia|by apply not_elem_of_nil in Hn].
  - exists bc'. split; [exact Hrun|]. apply (Hd 0 new_root (map_of kvs_new)); [left|lia|reflexivity|exact Ho].
Defined.
