(* ===== verification/TrieProof.v ===== *)
(** * Proofs of values

    Models [trie/proof.go]: [Prove] collects the nodes on the way to a key, and
    [VerifyProof] follows them from the hash of the root. A proof is the list of
    what is put into the database of the proof; a database is a function from
    hashes to encodings. *)

From stdpp Require Import gmap.
From S2P Require Import Prelude CommonMath Rlp RlpSpec StateIface ConcreteCrypto TrieKey TrieNode Trie TrieSpec TrieProps TrieDatabase Hasher TrieCodec HasherProps DatabaseProps TrieCommit.
Local Open Scope Z_scope.
#[local] Arguments Hash_Bytes _ : simpl never.

(** ** Making a proof *)

Section prove.
Context `{Crypto} (db_node : Hash -> Z -> outcome node).

(** The nodes on the path to the key. *)
Fixpoint path_nodes (fuel : nat) (gen : Z) (key : bytes) (tn : node) : outcome (list node * option MissingNodeError) :=
  match fuel with
  | O => OutOfFuel
  | S fuel =>
      match key with
      | [] => Ok ([], None)
      | b :: key' =>
          match tn with
          | nilNode => Ok ([], None)
          | shortNode k c _ =>
              if (zlen key <? zlen k) || negb (bool_decide (k = take (length k) key)) then Ok ([tn], None)
              else '(nodes, err) ← path_nodes fuel gen (drop (length k) key) c; Ok (tn :: nodes, err)
          | fullNode cs _ => c ← child cs (Some b); '(nodes, err) ← path_nodes fuel gen key' c; Ok (tn :: nodes, err)
          | hashNode h =>
              '(n, err) ← resolveHash db_node gen h [];
              match err with
              | Some e => Ok ([], Some e)
              | None => path_nodes fuel gen key n
              end
          | valueNode _ => Panic (Msg "invalid node")
          end
      end
  end.

(** What a node adds to the proof: nothing if it is within another one. *)
Definition proof_element (first : bool) (n : node) : M TrieDB (option (bytes * bytes)) :=
  '(n, _) ← hashChildren (fun c => hash 0 0 no_leaf false c false) n;
  hn ← store no_leaf false n false;
  let enc := default [] (EncodeToBytes (collapsed_item n)) in
  mret (match hn with
        | hashNode h => Some (h, enc)
        | _ => if first then Some (Keccak256 [enc], enc) else None
        end).
Fixpoint proof_elements (first : bool) (fromLevel : Z) (nodes : list node) : M TrieDB (list (bytes * bytes)) :=
  match nodes with
  | [] => mret []
  | n :: nodes' =>
      e ← proof_element first n;
      match e with
      | None => proof_elements false fromLevel nodes'
      | Some e =>
          if 0 <? fromLevel then proof_elements false (fromLevel - 1) nodes'
          else puts ← proof_elements false fromLevel nodes'; mret (e :: puts)
      end
  end.
(** The root is dereferenced without a test for nil. *)
Definition Prove (key : bytes) (fromLevel : Z) (t : Trie) : M TrieDB (list (bytes * bytes) * option MissingNodeError) :=
  let k := keybytesToHex key in
  match root t with
  | None => panic NilDeref
  | Some tn =>
      '(nodes, err) ← lift (path_nodes (key_fuel k) (cachegen t) k tn);
      match err with
      | Some e => mret ([], Some e)
      | None => puts ← proof_elements true fromLevel nodes; mret (puts, None)
      end
  end.
End prove.

(** ** Checking a proof *)

(** The way through one node: what is left of the key, and where it ends. *)
Fixpoint get (tn : node) (key : bytes) : outcome (bytes * node) :=
  match tn with
  | shortNode k c _ =>
      if (zlen key <? zlen k) || negb (bool_decide (k = take (length k) key)) then Ok ([], nilNode)
      else get c (drop (length k) key)
  | fullNode cs _ =>
      match key with
      | [] => Panic Index
      | b :: key' => match zindex (map (fun c => get c key') cs) b with Some r => r | None => Panic Index end
      end
  | hashNode _ | nilNode => Ok (key, tn)
  | valueNode _ => Ok ([], tn)
  end.

Inductive proofError : Type :=
| MissingProofNode (i : Z) (h : bytes)
| BadProofNode (i : Z) (e : decodeError).
(** [copy] into an array. *)
Definition copy_hash (h cld : bytes) : bytes := take (length h) cld ++ drop (length cld) h.

Section verify.
Context (proofDb : bytes -> option bytes).

Fixpoint verify_loop (fuel : nat) (i : Z) (key wantHash : bytes) : outcome (bytes * Z * option proofError) :=
  match fuel with
  | O => OutOfFuel
  | S fuel =>
      match proofDb wantHash with
      | None => Ok ([], i, Some (MissingProofNode i wantHash))
      | Some buf =>
          n ← decodeNode (Some wantHash) buf 0;
          match n with
          | inl e => Ok ([], i, Some (BadProofNode i e))
          | inr n =>
              '(keyrest, cld) ← get n key;
              match cld with
              | nilNode => Ok ([], i, None)
              | hashNode h => verify_loop fuel (i + 1) keyrest (copy_hash wantHash h)
              | valueNode v => Ok (v, i + 1, None)
              | _ => verify_loop fuel (i + 1) key wantHash
              end
          end
      end
  end.
(** Every node of a proof takes at least one nibble of the key. *)
Definition VerifyProof (rootHash : Hash) (key : bytes) : outcome (bytes * Z * option proofError) :=
  verify_loop (S (length (keybytesToHex key))) 0 (keybytesToHex key) (Hash_Bytes rootHash).
End verify.

(** The proof of a new trie panics. *)
Lemma Prove_panics_on_new_trie `{Crypto} db_node key fromLevel gen limit db :
  Prove db_node key fromLevel (mkTrie None gen limit) db = Panic NilDeref.
Proof. done. Qed.

(** ** What a proof shows *)

Lemma copy_hash_same h cld : length h = length cld -> copy_hash h cld = cld.
Proof. intros Hl. unfold copy_hash. by rewrite Hl, drop_ge, app_nil_r, firstn_all by lia. Qed.

Section walk.
Context `{Crypto} (D : Hash -> Z -> outcome node).

(** The way through a node ends at a value, nowhere, or at the hash of a node
    for the rest of the key. *)
Definition arrives (F : bytes -> bytes) (key rest : bytes) (cld : node) : Prop :=
  cld = nilNode /\ F key = [] \/
  (exists v, cld = valueNode v /\ F key = v) \/
  exists h fo K F', cld = hashNode h /\ node_ok D any_flag fo K (hashNode h) F' /\ K <> KValue /\ key_for K rest /\ F key = F' rest.
Lemma get_short_match k c fl key : get (shortNode k c fl) (k ++ key) = get c key.
Proof.
  cbn [get]. rewrite (proj2 (Z.ltb_ge _ _)) by (rewrite zlen_app; pose proof (zlen_nonneg key); lia).
  by rewrite take_app_length, bool_decide_eq_true_2, drop_app_length by done.
Qed.
Lemma get_short_other k c fl key : (forall a, key <> k ++ a) -> get (shortNode k c fl) key = Ok ([], nilNode).
Proof.
  intros Hno. cbn [get]. rewrite (bool_decide_eq_false_2 (k = _)); [by rewrite orb_true_r|].
  intros Hk. apply (Hno (drop (length k) key)). by rewrite Hk at 1; rewrite take_drop.
Qed.
Lemma get_full cs fl (i : nat) key c : cs !! i = Some c -> get (fullNode cs fl) (Z.of_nat i :: key) = get c key.
Proof.
  intros Hi. cbn [get]. unfold zindex. rewrite (proj2 (Z.leb_le _ _)) by lia. rewrite Nat2Z.id.
  change (map (fun c => get c key) cs) with ((fun c => get c key) <$> cs). by rewrite list_lookup_fmap, Hi.
Qed.
Lemma get_ends n : forall key rest cld, get n key = Ok (rest, cld) -> is_inner cld = false.
Proof.
  revert n. apply (node_ind2 (fun n => forall key rest cld, get n key = Ok (rest, cld) -> is_inner cld = false)).
  - by intros key rest cld [= _ <-].
  - intros cs fl IH [|b key] rest cld; [done|]. cbn [get]. destruct (zindex _ b) as [r|] eqn:Hz; [|done]. intros ->.
    unfold zindex in Hz. destruct (0 <=? b); [|done]. apply list_lookup_fmap_Some in Hz as (c & Hc & Hg). symmetry in Hg.
    rewrite Forall_forall in IH. by apply (IH c (list_elem_of_lookup_2 _ _ _ Hc) key rest cld).
  - intros k n fl IH key rest cld. cbn [get]. case_match; [by intros [= _ <-]|apply IH].
  - by intros h key rest cld [= _ <-].
  - by intros v key rest cld [= _ <-].
Qed.
Lemma get_ok Inv fo K n F : node_ok D Inv fo K n F -> forall key, key_for K key ->
  exists rest cld, get n key = Ok (rest, cld) /\ arrives F key rest cld /\ (length rest <= length key)%nat /\
    (is_inner n = true -> (length rest < length key)%nat).
Proof.
  induction 1 as [Inv fo v f Hv Hf|Inv fo K k n fl g f Hn IH Hs Hfl Hf Hno|Inv fo cs Ks fl f Hl Hc IH HK Hnil H0 Hout H2 Hfl
    |Inv fo K h n f Hdb Hin HK Hn IH Hh]; intros key Hkey.
  - cbn in Hkey. subst key. exists [], (valueNode v). split; [done|]. split; [|done]. right. left. exists v. by rewrite Hf.
  - destruct (has_prefix_dec k key) as [[a ->]|Hna].
    + destruct (IH a (short_key_for K k a Hs Hkey)) as (rest & cld & Hg & Ha & Hle & _). exists rest, cld. rewrite get_short_match.
      assert (length k <> 0)%nat by (apply short_shape_nonempty in Hs; by destruct k). rewrite length_app.
      split; [done|]. split; [unfold arrives in *; by rewrite Hf|]. split; [lia|]. intros _. lia.
    + exists [], nilNode. rewrite get_short_other by done. split; [done|]. split; [left; by rewrite Hno|].
      destruct (key_for_nonempty KShort key ltac:(done) Hkey) as (b & key' & ->). cbn. split; [lia|]. intros _. lia.
  - assert (children_ok D Inv cs Ks f) as Hco by done. destruct (full_key D Inv cs Ks f key Hco Hkey) as (i & key' & c & -> & Hi & Hci & Hk').
    rewrite (get_full cs fl i key' c Hci). cbn [length]. destruct (decide (c = nilNode)) as [->|Hcn].
    + exists key', nilNode. split; [done|]. split; [left; by rewrite Hnil|]. split; [lia|]. intros _. lia.
    + destruct (IH i c Hci Hcn key' Hk') as (rest & cld & Hg & Ha & Hle & _). exists rest, cld. split; [done|]. split; [done|].
      split; [lia|]. intros _. lia.
  - exists key, (hashNode h). split; [done|]. split; [|done]. right. right. exists h, fo, K, f. split; [done|]. by split; [apply (ok_hash D _ fo K h n)|].
Qed.
End walk.

Section sound.
Context `{Crypto} {CL : CryptoLaws} (Q : bytes -> Prop) {CF : CollisionFree Q}.
(** A database of proofs files every encoding under its hash. *)
Context (proofDb : bytes -> option bytes) (Hproof : forall h e, proofDb h = Some e -> keccak e = h /\ Q e).

Lemma stored_decodes db h (m : Z -> node) e :
  db_ok Q db -> hash_ok h -> BytesToHash h <> 0 -> (forall gen, lookup_node db (BytesToHash h) gen = Ok (m gen)) -> is_inner (m 0) = true ->
  proofDb h = Some e -> decodeNode (Some h) e 0 = Ok (inr (m 0)).
Proof.
  intros Hdb Hh H0 Hm Hin He. destruct (Hproof h e He) as [Hk HQ]. specialize (Hm 0). rewrite (lookup_node_enc Q) in Hm by done.
  destruct (enc_at db (BytesToHash h)) as [e'|] eqn:He'; [|injection Hm as Hm; by rewrite <- Hm in Hin].
  assert (e' = e) as ->. { apply (enc_at_unique Q db); [done..|]. by rewrite Hk. }
  rewrite Bytes_BytesToHash in Hm by done. unfold mustDecodeNode in Hm. destruct (decodeNode (Some h) e 0) as [[?|n]| |]; try done.
  cbn in Hm. congruence.
Qed.
Lemma verify_sound db : db_ok Q db -> forall fuel i key h fo K F,
  node_ok (lookup_node db) any_flag fo K (hashNode h) F -> hash_ok h -> BytesToHash h <> 0 -> key_for K key -> (length key < fuel)%nat ->
  exists v n err, verify_loop proofDb fuel i key h = Ok (v, n, err) /\ (err = None -> v = F key).
Proof.
  intros Hdb fuel. induction fuel as [|fuel IH]; intros i key h fo K F Hn Hh H0 Hkey Hfuel; [lia|].
  inversion Hn as [| | |fo' K' h' m F' Hm Hin HK Hok Hhash]; subst. cbn [verify_loop].
  destruct (proofDb h) as [e|] eqn:He; [|by eexists _, _, _]. rewrite (stored_decodes db h m e) by done. cbn [mbind outcome_bind].
  destruct (get_ok _ _ _ _ _ _ (Hok 0) key Hkey) as (rest & cld & -> & Ha & _ & Hlt). specialize (Hlt (Hin 0)). cbn [mbind outcome_bind].
  destruct Ha as [[-> HF]|[(v & -> & HF)|(h' & fo' & K' & F' & -> & Hn' & HK' & Hk' & HF)]]; [by eexists _, _, _..|].
  destruct (stored_hash Q db h' K' F' Hdb Hn') as (Hh' & H0' & _).
  rewrite copy_hash_same by (by rewrite (proj2 Hh), (proj2 Hh')). rewrite HF. apply (IH _ _ h' fo' K' F'); try done. lia.
Qed.

(** C8. A proof cannot lie: whatever nodes a proof has, filed under their
    hashes, [VerifyProof] on the hash of a trie ends, without a panic, in an
    error or in the value the trie has for the key, the empty one if it has
    none. *)
Theorem VerifyProof_sound db t f h t1 db1 key :
  db_ok Q db -> trie_map (lookup_node db) (clean_inv db) t f -> all_encs Q (root_node t) -> TrieHash t db = Ok (h, t1, db1) -> key_ok key ->
  exists v n err, VerifyProof proofDb h key = Ok (v, n, err) /\ (err = None -> v = f key).
Proof.
  intros Hdb Ht HQ Hh Hkey. destruct (TrieHash_ok _ _ t f db Ht) as (t2 & Hh2 & _). rewrite Hh in Hh2. injection Hh2 as -> _ _.
  destruct (root_stored Q t f db Hdb Ht HQ) as (db2 & Hdb2 & _ & n & F & [[-> Hall]|(Hn & K & Hk)] & <- & Hs); unfold VerifyProof.
  - cbn [root_hash]. cbn [verify_loop]. destruct (proofDb (Hash_Bytes emptyRoot)) as [e|] eqn:He; [|by eexists _, _, _].
    exfalso. destruct (Hproof _ _ He) as [Hke HQe]. apply (cf_empty e HQe). rewrite Hke. by apply BytesToHash_Bytes.
  - destruct (stored_hash Q db2 _ K F Hdb2 Hk) as (Hho & H0 & _). rewrite root_hash_node, Bytes_BytesToHash by done.
    rewrite <- (proj1 Hs key Hkey). apply (verify_sound db2 Hdb2 _ 0 (keybytesToHex key) _ true K F); try done; [|lia].
    inversion Hk; subst. destruct K; [done|apply keybytesToHex_term, Hkey..].
Qed.
End sound.

(** ** What is proved *)

Section decoding.
Context `{Crypto} {CL : CryptoLaws} (D : Hash -> Z -> outcome node).

(** What stands in the decoded parent for a node. *)
Definition stands_for (n m : node) : Prop :=
  if is_inner n then
    if zlen (node_enc n) <? 32 then decodeNode None (node_enc n) 0 = Ok (inr m) else m = hashNode (keccak (node_enc n))
  else m = n.

Lemma inner_collapses Inv fo K n F db :
  FlagInv Inv -> node_ok D Inv fo K n F -> is_inner n = true -> bounded F ->
  exists c n1, hashChildren (fun c => hash 0 0 no_leaf false c false) n db = Ok (c, n1, db) /\ coll c /\ node_item n = collapsed_item c /\
    fst (cache c) = flag_hash (flags_of n).
Proof.
  intros FI Hn Hin Hb. assert (K <> KValue) as HK by (intros ->; apply node_ok_value in Hn as (v & -> & _); done).
  destruct (node_collapses 0 0 no_leaf false (fun _ => D) (fun _ => Inv) (fun _ => True) eq (fun _ => True)
    ltac:(by intros ? ? ? ? ? ? <-) ltac:(by intros ? ? ? ? ? ? <-) ltac:(done) ltac:(done) ltac:(done) ltac:(done)
    n Hin db fo K F Logic.I Hn HK Hb (all_encs_True n)) as (c & n1 & db1 & Hrun & _ & <- & _ & _ & Hc & _ & Hi & Hca & _).
  by exists c, n1.
Qed.
Lemma node_item_inner n : is_inner n = true -> exists l, node_item n = IList l.
Proof. destruct n; try done; intros _; by eexists. Qed.
Lemma cref_stands c x : c <> nilNode -> (forall v, c <> valueNode v) -> cref x -> collapsed_item x = node_ref c -> stands_for c (expanded None 0 x).
Proof.
  intros Hn Hv Hx Hr. unfold node_ref, stands_for in *. destruct (is_inner c) eqn:Hin.
  - destruct (node_item_inner c Hin) as [l Hl]. unfold collapse in Hr. fold (node_enc c) in Hr. destruct (Z.ltb_spec (zlen (node_enc c)) 32).
    + destruct Hx as [h Hh Hb|x Hx Hs]; [by rewrite Hl in Hr|]. unfold node_enc. rewrite <- Hr. by apply decode_coll.
    + destruct Hx as [h Hh Hb|x Hx Hs]; [by injection Hr as ->|]. by destruct Hx.
  - destruct c as [| | |h|v]; try done; [|by destruct (Hv v)]. destruct Hx as [h' Hh Hb|x Hx Hs]; [by injection Hr as ->|]. by destruct Hx.
Qed.
(** Only nil is encoded as the empty string. *)
Lemma ref_not_empty Inv K c F : node_ok D Inv false K c F -> node_ref c <> IBytes [].
Proof.
  intros Hc. assert (forall d, keccak d <> []) as Hk by (intros d Hd; pose proof (keccak_length d) as Hl; by rewrite Hd in Hl).
  assert (is_inner c = true -> node_ref c <> IBytes []) as Hin.
  { intros Hin. destruct (node_item_inner c Hin) as [l Hl]. unfold node_ref, collapse. rewrite Hin, Hl. case_match; [done|]. intros [= He]. by apply (Hk _ He). }
  inversion Hc as [fo v f Hv Hf|fo K' k n fl g f|fo cs Ks fl f|fo K' h n f Hdb Hi HK Hn Hh]; subst; [|by apply Hin..|].
  - intros [= ->]. by destruct Hv.
  - intros [= ->]. destruct (Hh 0) as [He _]. by apply (Hk _ (eq_sym He)).
Qed.
Lemma decode_short Inv fo K k n fl g F hash :
  FlagInv Inv -> node_ok D Inv fo KShort (shortNode k n fl) F -> node_ok D Inv false K n g -> short_shape K k -> bounded F ->
  exists m, decodeNode hash (node_enc (shortNode k n fl)) 0 = Ok (inr (shortNode k m (mkFlag hash 0 false))) /\ stands_for n m.
Proof.
  intros FI Hok Hn Hs Hb. destruct (inner_collapses Inv fo KShort _ F demo_nodes FI Hok eq_refl Hb) as (c & _ & _ & Hc & Hi & _).
  unfold node_enc. rewrite Hi, (decode_coll c hash 0 Hc). destruct (shape_compact K k Hs) as (_ & Hk & _).
  change (IList [IBytes (compact_key k); node_ref n] = collapsed_item c) in Hi.
  destruct Hc as [p v fl' Hp Hv Hsz|p x fl' Hp Hx Hsz|cs last fl' Hl Hcs Hlast Hsz].
  - injection Hi as Hkp Hv'. cbn [expanded]. rewrite <- Hkp, Hk. exists (valueNode v). split; [done|]. destruct K; [|done|].
    + apply node_ok_value in Hn as (v' & -> & _ & _). cbn in Hv'. by injection Hv' as ->.
    + exfalso. rewrite <- Hk, Hkp, compactToHex_compact in Hs by done. destruct Hs as [Hs _]. apply Forall_app in Hs as [_ Hs].
      apply Forall_cons in Hs as [Hs _]. unfold nibble in Hs. lia.
  - injection Hi as Hkp Hr. cbn [expanded]. rewrite <- Hkp, Hk. exists (expanded None 0 x). split; [done|].
    apply cref_stands; [by eapply node_ok_not_nil| |done|done]. intros v ->. assert (K = KValue) as -> by (by inversion Hn).
    rewrite <- Hk, Hkp, compactToHex_compact in Hs by done. destruct Hs as (q & Hq & Hpq). cbn in Hpq.
    subst p. apply Forall_app in Hp as [_ Hp]. apply Forall_cons in Hp as [Hp _]. unfold nibble in Hp. lia.
  - exfalso. injection Hi as Hlen. apply (f_equal length) in Hlen. rewrite length_map, length_app, Hl in Hlen. done.
Qed.
Lemma decode_full Inv fo cs Ks fl F hash :
  FlagInv Inv -> node_ok D Inv fo KFull (fullNode cs fl) F -> children_ok D Inv cs Ks F -> bounded F ->
  exists ms, decodeNode hash (node_enc (fullNode cs fl)) 0 = Ok (inr (fullNode ms (mkFlag hash 0 false))) /\
    forall i c, cs !! i = Some c -> exists m, ms !! i = Some m /\ stands_for c m.
Proof.
  intros FI Hok Hco Hb. destruct (inner_collapses Inv fo KFull _ F demo_nodes FI Hok eq_refl Hb) as (c & _ & _ & Hc & Hi & _).
  unfold node_enc. rewrite Hi, (decode_coll c hash 0 Hc). change (IList (map node_ref cs) = collapsed_item c) in Hi.
  pose proof (co_length _ _ _ _ _ Hco) as Hlen.
  destruct Hc as [p v fl' Hp Hv Hsz|p x fl' Hp Hx Hsz|l last fl' Hl Hcs Hlast Hsz].
  - exfalso. injection Hi as Hi. apply (f_equal length) in Hi. by rewrite length_map, Hlen in Hi.
  - exfalso. injection Hi as Hi. apply (f_equal length) in Hi. by rewrite length_map, Hlen in Hi.
  - cbn [expanded]. eexists. split; [done|]. change (IList (map node_ref cs) = IList (map child_item (l ++ [last]))) in Hi. injection Hi as Hi.
    intros i d Hd. assert (is_Some ((l ++ [last]) !! i)) as [x Hx].
    { apply lookup_lt_is_Some. rewrite length_app, Hl. apply lookup_lt_Some in Hd. cbn. lia. }
    change (map (expanded None 0) (l ++ [last])) with (expanded None 0 <$> (l ++ [last])). exists (expanded None 0 x).
    rewrite list_lookup_fmap, Hx. split; [done|]. assert (node_ref d = child_item x) as Hr.
    { apply (f_equal (fun l => l !! i)) in Hi. change (map node_ref cs) with (node_ref <$> cs) in Hi.
      change (map child_item (l ++ [last])) with (child_item <$> (l ++ [last])) in Hi. rewrite !list_lookup_fmap, Hd, Hx in Hi. by injection Hi. }
    apply lookup_snoc in Hx as Hx'. destruct (decide (d = nilNode)) as [->|Hne].
    + destruct Hx' as [[Hlt Hxl]|[-> ->]].
      * destruct (decide (x = nilNode)) as [->|Hxn]; [done|]. apply list_elem_of_lookup_2 in Hxl. pose proof (Hcs x Hxl Hxn) as Hcr.
        rewrite cref_child_item in Hr by done. destruct Hcr as [h Hh Hhb|x Hcx]; [by injection Hr as <-|by destruct Hcx].
      * destruct Hlast as [->|(v & -> & Hv & _)]; [done|]. by injection Hr as <-.
    + pose proof (co_child _ _ _ _ _ Hco i d Hd Hne) as Hdo. pose proof (ref_not_empty _ _ _ _ Hdo) as Hre.
      assert (x <> nilNode) as Hxn by (intros ->; by rewrite Hr in Hre). destruct Hx' as [[Hlt Hxl]|[-> ->]].
      * apply list_elem_of_lookup_2 in Hxl. pose proof (Hcs x Hxl Hxn) as Hcr. rewrite cref_child_item in Hr by done.
        apply cref_stands; try done. intros v ->. assert (Ks i = KValue) as HK by (by inversion Hdo).
        apply (co_kind _ _ _ _ _ Hco) in HK. lia.
      * rewrite Hl, (proj2 (co_kind _ _ _ _ _ Hco 16%nat) eq_refl) in Hdo. apply node_ok_value in Hdo as (v & -> & _).
        destruct Hlast as [->|(v' & -> & _)]; [done|]. by injection Hr as ->.
Qed.
End decoding.

Section complete.
Context `{Crypto} {CL : CryptoLaws} (D : Hash -> Z -> outcome node) (proofDb : bytes -> option bytes).

Definition provable (n : node) : Prop := is_inner n = true /\ exists Inv fo K F, FlagInv Inv /\ node_ok D Inv fo K n F /\ bounded F.
Lemma proof_element_ok first n db :
  provable n -> let enc := node_enc n in
  proof_element first n db = Ok (if first || (32 <=? zlen enc) then Some (keccak enc, enc) else None, db).
Proof.
  intros (Hin & Inv & fo & K & F & FI & Hn & Hb) enc. destruct (inner_collapses D Inv fo K n F db FI Hn Hin Hb) as (c & n1 & Hrun & Hc & Hi & Hca).
  unfold proof_element. rewrite (run_bind _ _ _ _ _ Hrun). cbn beta iota. pose proof (coll_encoded c Hc) as Henc. rewrite <- Hi in Henc. fold (node_enc n) in Henc. fold enc in Henc.
  assert (store no_leaf false c false db = Ok (if zlen enc <? 32 then c else hashNode (keccak enc), db)) as Hst.
  { assert (match fst (cache c) with Some h => h | None => makeHashNode enc end = keccak enc) as Hh.
    { rewrite Hca. destruct (inner_flag_ok _ _ _ _ _ _ Hn Hin) as (Hh & _). destruct (flag_hash (flags_of n)) as [h|]; [|done]. by apply Hh. }
    unfold store. rewrite <- Hi, Henc, Hh, andb_true_r. destruct Hc; by destruct (zlen enc <? 32). }
  rewrite (run_bind _ _ _ _ _ Hst), <- Hi, Henc. unfold Keccak256. cbn [concat default]. rewrite app_nil_r.
  unfold mret, M_ret. destruct (Z.ltb_spec (zlen enc) 32), (Z.leb_spec 32 (zlen enc)); try lia; [|by rewrite orb_true_r].
  rewrite orb_false_r. by destruct Hc.
Qed.

(** The nodes that are not within others are in the database of the proof. *)
Definition in_proof (n : node) : Prop := 32 <= zlen (node_enc n) -> proofDb (keccak (node_enc n)) = Some (node_enc n).

(** The check of a proof from a decoded node on. *)
Definition verify_from (fuel : nat) (i : Z) (wantHash key : bytes) (n : node) : outcome (bytes * Z * option proofError) :=
  '(keyrest, cld) ← get n key;
  match cld with
  | nilNode => Ok ([], i, None)
  | hashNode h => verify_loop proofDb fuel (i + 1) keyrest (copy_hash wantHash h)
  | valueNode v => Ok (v, i + 1, None)
  | _ => verify_loop proofDb fuel (i + 1) key wantHash
  end.
Lemma verify_loop_step fuel i key want buf n :
  proofDb want = Some buf -> decodeNode (Some want) buf 0 = Ok (inr n) -> verify_loop proofDb (S fuel) i key want = verify_from fuel i want key n.
Proof. intros Hp Hd. cbn [verify_loop]. by rewrite Hp, Hd. Qed.
(** With the nodes [ns], and fuel [b], the value for the key is found below [m]. *)
Definition shown (b : nat) (key v : bytes) (m : node) (ns : list node) : Prop :=
  Forall in_proof ns -> forall fuel i want, length want = 32%nat -> (b <= fuel)%nat -> exists cnt, verify_from fuel i want key m = Ok (v, cnt, None).
(** The way from the node [n] starts at the node [n0], which is [n] or is loaded
    for it, and goes on along [ns]. *)
Definition traced (n n0 : node) (key v : bytes) (ns : list node) : Prop :=
  is_inner n0 = true /\ node_hash n = keccak (node_enc n0) /\ (n = n0 \/ is_hashNode n = true) /\
  forall hash, exists m, decodeNode hash (node_enc n0) 0 = Ok (inr m) /\ shown (length key - 1) key v m ns.

Lemma traced_shown n n0 key v ns m :
  traced n n0 key v ns -> stands_for n m -> (is_hashNode n = true -> 32 <= zlen (node_enc n0)) -> (0 < length key)%nat ->
  shown (length key) key v m (n0 :: ns).
Proof.
  intros (Hin & Hh & Hor & Hdec) Hst Hl Hk [Hn0 Hns]%Forall_cons fuel i want Hw Hb.
  assert (decodeNode None (node_enc n0) 0 = Ok (inr m) \/ 32 <= zlen (node_enc n0) /\ m = hashNode (keccak (node_enc n0))) as [Hd|[Hlarge ->]].
  { destruct Hor as [->|Hhash].
    - unfold stands_for in Hst. rewrite Hin in Hst. destruct (Z.ltb_spec (zlen (node_enc n0)) 32); [by left|by right].
    - right. split; [by apply Hl|]. destruct n; try done. cbn in Hst, Hh. by subst. }
  - destruct (Hdec None) as (m' & Hd' & Hsh). rewrite Hd in Hd'. injection Hd' as <-. apply Hsh; [done..|lia].
  - destruct (Hdec (Some (keccak (node_enc n0)))) as (m' & Hd' & Hsh). unfold verify_from. cbn [get mbind outcome_bind].
    rewrite copy_hash_same by (by rewrite keccak_length). destruct fuel as [|fuel]; [lia|].
    rewrite (verify_loop_step _ _ _ _ _ _ (Hn0 Hlarge) Hd'). apply Hsh; [done|apply keccak_length|lia].
Qed.

(** What is to be shown of the way from a node. *)
Definition path_ok fo n (F : bytes -> bytes) : Prop := forall key gen fuel,
  term_key key -> (2 * length key + (if is_hashNode n then 2 else 1) <= fuel)%nat ->
  exists n0 ns, path_nodes D fuel gen key n = Ok (n0 :: ns, None) /\ Forall provable (n0 :: ns) /\ traced n n0 key (F key) ns /\
    (is_hashNode n = true -> fo = true \/ 32 <= zlen (node_enc n0)).
Lemma child_path Inv K c g key gen fuel m :
  c = nilNode /\ g key = [] \/ node_ok D Inv false K c g /\ key_for K key /\ (K <> KValue -> path_ok false c g) ->
  stands_for c m -> (2 * length key + 2 <= fuel)%nat ->
  exists ns, path_nodes D fuel gen key c = Ok (ns, None) /\ Forall provable ns /\ shown (length key) key (g key) m ns.
Proof.
  intros Hc Hm Hfuel. destruct fuel as [|fuel]; [lia|]. destruct Hc as [[-> Hg]|(Hc & Hkey & HP)].
  - exists []. cbn in Hm. subst m. split; [by destruct key|]. split; [done|]. intros _ f i want _ _. exists i. by rewrite Hg.
  - destruct (decide (K = KValue)) as [->|HK].
    + cbn in Hkey. subst key. apply node_ok_value in Hc as (v & -> & _ & Hg). cbn in Hm. subst m. exists []. split; [done|]. split; [done|].
      intros _ f i want _ _. exists (i + 1). by rewrite Hg.
    + assert (term_key key) as Ht by (by destruct K). destruct (HP HK key gen (S fuel) Ht) as (n0 & ns & Hp & Hall & Htr & Hl); [destruct (is_hashNode c); lia|].
      exists (n0 :: ns). split; [done|]. split; [done|]. apply (traced_shown c); try done.
      * intros Hh. by destruct (Hl Hh).
      * destruct key; [by apply term_key_nil in Ht|]. cbn. lia.
Qed.
Lemma shown_through b key v m ns b' key' m' :
  get m key = get m' key' -> (b' <= b)%nat -> shown b' key' v m' ns -> shown b key v m ns.
Proof.
  intros Heq Hb Hs Hns fuel i want Hw Hf. destruct (Hs Hns fuel i want Hw ltac:(lia)) as [cnt Hc]. exists cnt. revert Hc. unfold verify_from.
  rewrite Heq. destruct (get m' key') as [[rest cld]| |] eqn:Hg; try done. apply get_ends in Hg. by destruct cld.
Qed.

Lemma path_short Inv fo K k n fl g F :
  FlagInv Inv -> node_ok D Inv fo KShort (shortNode k n fl) F -> bounded F ->
  node_ok D Inv false K n g -> short_shape K k -> (forall key, F (k ++ key) = g key) -> (forall key, (forall key', key <> k ++ key') -> F key = []) ->
  (K <> KValue -> path_ok false n g) -> path_ok fo (shortNode k n fl) F.
Proof.
  intros FI Hok Hb Hn Hs HF Hno IH key gen fuel Hkey Hfuel. exists (shortNode k n fl). destruct fuel as [|fuel]; [cbn in Hfuel; lia|].
  assert (provable (shortNode k n fl)) as Hpr by (split; [done|by exists Inv, fo, KShort, F]).
  destruct (key_for_nonempty KFull key ltac:(done) Hkey) as (x & key1 & Hx).
  assert (forall hash, exists m, decodeNode hash (node_enc (shortNode k n fl)) 0 = Ok (inr (shortNode k m (mkFlag hash 0 false))) /\ stands_for n m) as Hdec.
  { intros hash. by apply (decode_short D Inv fo K k n fl g F). }
  assert (length k <> 0)%nat as Hk0 by (apply short_shape_nonempty in Hs; by destruct k).
  destruct (has_prefix_dec k key) as [[a Ha]|Hna].
  - destruct (Hdec None) as (m & _ & Hst). rewrite Ha, length_app in Hfuel. cbn [is_hashNode] in Hfuel. rewrite Ha in Hkey.
    destruct (child_path Inv K n g a gen fuel m) as (ns & Hp & Hall & _); [right; split; [done|]; split; [by apply (short_key_for K k)|done]|done|lia|].
    exists ns. split; [|split; [by constructor|]; split; [split; [done|]; split; [done|]; split; [by left|]|done]].
    + cbn [path_nodes]. rewrite Hx, <- Hx, Ha. rewrite (proj2 (Z.ltb_ge _ _)) by (rewrite zlen_app; pose proof (zlen_nonneg a); lia).
      rewrite take_app_length, bool_decide_eq_true_2, drop_app_length by done. cbn [orb negb]. by rewrite Hp.
    + intros hash. destruct (Hdec hash) as (m' & Hd & Hst'). eexists. split; [exact Hd|].
      destruct (child_path Inv K n g a gen fuel m') as (ns' & Hp' & _ & Hsh); [right; split; [done|]; split; [by apply (short_key_for K k)|done]|done|lia|].
      rewrite Hp in Hp'. injection Hp' as <-. rewrite Ha, HF. apply (shown_through _ _ _ _ _ (length a) a m'); [|rewrite length_app; lia|done].
      apply get_short_match.
  - exists []. split; [|split; [by constructor|]; split; [split; [done|]; split; [done|]; split; [by left|]|done]].
    + cbn [path_nodes]. rewrite Hx, <- Hx. rewrite (bool_decide_eq_false_2 (k = _)); [by rewrite orb_true_r|].
      intros Hk. apply (Hna (drop (length k) key)). by rewrite Hk at 1; rewrite take_drop.
    + intros hash. destruct (Hdec hash) as (m' & Hd & _). eexists. split; [exact Hd|]. intros _ f i want _ _. exists i.
      unfold verify_from. by rewrite get_short_other, Hno.
Qed.
Lemma path_full Inv fo cs Ks fl F :
  FlagInv Inv -> node_ok D Inv fo KFull (fullNode cs fl) F -> bounded F -> children_ok D Inv cs Ks F ->
  (forall i c, cs !! i = Some c -> c <> nilNode -> Ks i <> KValue -> path_ok false c (fun key => F (Z.of_nat i :: key))) ->
  path_ok fo (fullNode cs fl) F.
Proof.
  intros FI Hok Hb Hco IH key gen fuel Hkey Hfuel. exists (fullNode cs fl). destruct fuel as [|fuel]; [cbn in Hfuel; lia|].
  destruct (full_key D Inv cs Ks F key Hco Hkey) as (i & key' & c & -> & Hi & Hci & Hk'). cbn [length is_hashNode] in Hfuel.
  assert (c = nilNode /\ F (Z.of_nat i :: key') = [] \/ node_ok D Inv false (Ks i) c (fun key => F (Z.of_nat i :: key)) /\ key_for (Ks i) key' /\
    (Ks i <> KValue -> path_ok false c (fun key => F (Z.of_nat i :: key)))) as Hc.
  { destruct (decide (c = nilNode)) as [->|Hcn]; [left; by rewrite (co_nil _ _ _ _ _ Hco)|right].
    split; [by apply (co_child _ _ _ _ _ Hco)|]. split; [done|]. by apply IH. }
  assert (forall hash, exists ms m, decodeNode hash (node_enc (fullNode cs fl)) 0 = Ok (inr (fullNode ms (mkFlag hash 0 false))) /\
    ms !! i = Some m /\ stands_for c m) as Hdec.
  { intros hash. destruct (decode_full D Inv fo cs Ks fl F hash FI Hok Hco Hb) as (ms & Hd & Hms). destruct (Hms i c Hci) as (m & Hm & Hst). by exists ms, m. }
  destruct (Hdec None) as (_ & m & _ & _ & Hst).
  destruct (child_path Inv (Ks i) c (fun key => F (Z.of_nat i :: key)) key' gen fuel m) as (ns & Hp & Hall & _); [done..|lia|].
  exists ns. split; [cbn [path_nodes]; rewrite child_lookup, Hci; cbn [mbind outcome_bind]; by rewrite Hp|].
  split; [constructor; [|done]; split; [done|by exists Inv, fo, KFull, F]|]. split; [|done].
  split; [done|]. split; [done|]. split; [by left|]. intros hash. destruct (Hdec hash) as (ms & m' & Hd & Hm & Hst'). eexists. split; [exact Hd|].
  destruct (child_path Inv (Ks i) c (fun key => F (Z.of_nat i :: key)) key' gen fuel m') as (ns' & Hp' & _ & Hsh); [done..|lia|].
  rewrite Hp in Hp'. injection Hp' as <-. apply (shown_through _ _ _ _ _ (length key') key' m'); [|cbn; lia|done]. by apply get_full.
Qed.
Lemma node_path Inv fo K n F : node_ok D Inv fo K n F -> FlagInv Inv -> K <> KValue -> bounded F -> path_ok fo n F.
Proof.
  induction 1 as [Inv fo v f Hv Hf|Inv fo K k n fl g f Hn IH Hs Hfl Hf Hno|Inv fo cs Ks fl f Hl Hc IH HK Hnil H0 Hout H2 Hfl
    |Inv fo K h m f Hdb Hin HK Hn IH Hh]; intros FI HKv Hb; [done|..].
  - apply (path_short Inv fo K k n fl g f); try done; [by apply (ok_short D Inv fo K k n fl g)|]. intros HK. apply IH; try done.
    apply (bounded_ext (fun key => f (k ++ key))); [by apply bounded_app|done].
  - apply (path_full Inv fo cs Ks fl f); try done; [by apply (ok_full D Inv fo cs Ks)|]. intros i c Hi Hcn HKi. apply (IH i c Hi Hcn); try done.
    by apply (bounded_app f [Z.of_nat i]).
  - intros key gen fuel Hkey Hfuel. cbn [is_hashNode] in Hfuel. destruct fuel as [|fuel]; [lia|]. pose proof (Hin gen) as Hig.
    destruct (IH gen any_flag_inv HKv Hb key gen fuel Hkey) as (n0 & ns & Hp & Hall & (Hi0 & Hh0 & Hor & Hdec) & _); [rewrite (inner_not_hash (m gen)) by done; lia|].
    exists n0, ns. assert (m gen = n0) as Hm by (destruct Hor as [|Ho]; [done|by destruct (m gen)]). split; [|split; [done|]].
    + cbn [path_nodes]. rewrite (resolveHash_ok D gen h _ m) by done. destruct (key_for_nonempty KFull key ltac:(done) Hkey) as (x & key1 & ->).
      cbn [mbind outcome_bind]. done.
    + destruct (Hh gen) as [Heq Hl]. rewrite Hm in Heq, Hl. split; [|done]. split; [done|]. split; [done|]. split; [by right|done].
Qed.

(** The elements of a proof, from the root on. *)
Lemma proof_elements_ok ns first db :
  Forall provable ns -> exists puts, proof_elements first 0 ns db = Ok (puts, db) /\
    ((forall h e, (h, e) ∈ puts -> proofDb h = Some e) ->
     Forall in_proof ns /\ (first = true -> forall n ns', ns = n :: ns' -> proofDb (keccak (node_enc n)) = Some (node_enc n))).
Proof.
  revert first. induction ns as [|n ns IH]; intros first; [by exists []|]. intros [Hn Hns]%Forall_cons. destruct (IH false Hns) as (puts & Hrun & Hput).
  cbn [proof_elements]. rewrite (run_bind _ _ _ _ _ (proof_element_ok first n db Hn)).
  destruct (first || (32 <=? zlen (node_enc n))) eqn:Hb.
  - exists ((keccak (node_enc n), node_enc n) :: puts). cbn [Z.ltb Z.compare]. rewrite (run_bind _ _ _ _ _ Hrun). split; [done|]. intros Hall.
    assert (proofDb (keccak (node_enc n)) = Some (node_enc n)) as Hp by (apply Hall; left).
    destruct Hput as [Hin _]; [intros h e He; apply Hall; by right|]. split; [constructor; [by intros _|done]|]. intros _ n' ns' [= <- <-]. done.
  - apply orb_false_iff in Hb as [-> Hb%Z.leb_gt]. exists puts. split; [done|]. intros Hall. destruct (Hput Hall) as [Hin _].
    split; [|done]. constructor; [|done]. intros Hl. lia.
Qed.
End complete.

Section prove_verify.
Context `{Crypto} {CL : CryptoLaws} (D : Hash -> Z -> outcome node).

Lemma Prove_run Inv t F key db K proofDb :
  FlagInv Inv -> node_ok D Inv true K (root_node t) F -> K <> KValue -> bounded F -> bytes_ok key ->
  exists puts, Prove D key 0 t db = Ok (puts, None, db) /\
    ((forall h e, (h, e) ∈ puts -> proofDb h = Some e) ->
     exists n, VerifyProof proofDb (BytesToHash (node_hash (root_node t))) key = Ok (F (keybytesToHex key), n, None)).
Proof.
  intros FI Hn HK Hb Hkey. pose proof (keybytesToHex_term key Hkey) as Hterm.
  destruct (node_path D proofDb Inv true K _ F Hn FI HK Hb (keybytesToHex key) (cachegen t) (key_fuel (keybytesToHex key)) Hterm) as (n0 & ns & Hp & Hall & Htr & _).
  { unfold key_fuel. destruct (is_hashNode _); lia. }
  destruct (proof_elements_ok D proofDb (n0 :: ns) true db Hall) as (puts & Hrun & Hput). exists puts. split.
  - unfold Prove. pose proof (node_ok_not_nil _ _ _ _ _ _ Hn) as Hnn. unfold root_node in *. destruct (root t) as [n|]; [|done]. cbn [default from_option id] in Hp.
    unfold lift. rewrite Hp, (run_bind _ _ _ _ _ eq_refl). cbn beta iota. by rewrite (run_bind _ _ _ _ _ Hrun).
  - intros Hin. destruct (Hput Hin) as [Hns Hroot]. specialize (Hroot eq_refl n0 ns eq_refl). apply Forall_cons in Hns as [_ Hns].
    destruct Htr as (Hi0 & Hh & _ & Hdec). rewrite Hh. unfold VerifyProof. rewrite Bytes_BytesToHash by apply keccak_hash_ok.
    destruct (Hdec (Some (keccak (node_enc n0)))) as (m & Hd & Hsh). rewrite (verify_loop_step proofDb _ _ _ _ _ m Hroot Hd).
    apply Hsh; [done|apply keccak_length|lia].
Qed.

(** C9. Every value can be proved: [Prove] on a trie that is not empty ends, and
    with its nodes [VerifyProof] finds, for the hash of the trie, the value the
    trie has for the key, or that it has none. *)
Theorem Prove_verifies Inv t f key db h t1 db1 :
  FlagInv Inv -> trie_map D Inv t f -> root_node t <> nilNode -> key_ok key -> TrieHash t db = Ok (h, t1, db1) ->
  exists puts, Prove D key 0 t db = Ok (puts, None, db) /\
    forall proofDb, (forall h e, (h, e) ∈ puts -> proofDb h = Some e) -> exists n, VerifyProof proofDb h key = Ok (f key, n, None).
Proof.
  intros FI Ht Hne Hkey Hh. destruct (TrieHash_ok D Inv t f db Ht) as (t2 & Hh2 & _). rewrite Hh in Hh2. injection Hh2 as -> _ _.
  destruct Ht as (F & [[Hn _]|(K & HK & Hn)] & Hs); [done|]. pose proof (spreads_bounded f F Hs) as Hb. rewrite root_hash_node by done.
  destruct (Prove_run Inv t F key db K (fun _ => None) FI Hn HK Hb (proj1 Hkey)) as (puts & Hrun & _). exists puts. split; [done|]. intros proofDb Hin.
  destruct (Prove_run Inv t F key db K proofDb FI Hn HK Hb (proj1 Hkey)) as (puts' & Hrun' & Hv). rewrite Hrun in Hrun'. injection Hrun' as <-.
  rewrite <- (proj1 Hs key Hkey). by apply Hv.
Qed.
End prove_verify.

(** ** Proofs of a concrete trie *)

Definition proof_of (puts : list (bytes * bytes)) : bytes -> option bytes := fun h => list_to_map (M := gmap bytes bytes) puts !! h.
Definition demo_proof : list (bytes * bytes) :=
  match Prove (lookup_node demo_nodes) [0x20; 3] 0 demo_mpt demo_nodes with Ok (puts, _, _) => puts | _ => [] end.
Lemma demo_hash : exists h t1, TrieHash demo_mpt demo_nodes = Ok (h, t1, demo_nodes).
Proof. vm_compute. eauto. Qed.

Lemma Prove_verifies_witness :
  exists h t1 n, TrieHash demo_mpt demo_nodes = Ok (h, t1, demo_nodes) /\ VerifyProof (proof_of demo_proof) h [0x20; 3] = Ok ([2; 2], n, None).
Proof.
  destruct demo_hash as (h & t1 & Hh).
  destruct (Prove_verifies (lookup_node demo_nodes) (clean_inv demo_nodes) demo_mpt demo_map [0x20; 3] demo_nodes h t1 demo_nodes) as (puts & Hrun & Hv).
  - apply clean_inv_flags.
  - apply demo_mpt_map.
  - vm_compute. discriminate.
  - repeat constructor; done.
  - exact Hh.
  - destruct (Hv (proof_of demo_proof)) as [n Hn].
    + unfold demo_proof. rewrite Hrun. intros h' e He.
      assert (Forall (fun he => proof_of puts he.1 = Some he.2) puts) as Hall.
      { assert (puts = demo_proof) as -> by (unfold demo_proof; by rewrite Hrun). apply (bool_decide_unpack _). vm_compute. exact I. }
      rewrite Forall_forall in Hall. apply (Hall (h', e) He).
    + exists h, t1, n. split; [exact Hh|]. rewrite Hn. vm_compute. reflexivity.
Defined.
Lemma demo_proof_hashes h e : proof_of demo_proof h = Some e -> keccak e = h /\ demo_Q e.
Proof.
  unfold proof_of. intros He%elem_of_list_to_map_2.
  assert (Forall (fun he => keccak he.2 = he.1 /\ he.2 ∈ demo_encs) demo_proof) as Hall by (apply (bool_decide_unpack _); vm_compute; exact I).
  rewrite Forall_forall in Hall. exact (Hall (h, e) He).
Qed.
Lemma VerifyProof_sound_witness :
  exists h t1 v n err, TrieHash demo_mpt demo_nodes = Ok (h, t1, demo_nodes) /\ VerifyProof (proof_of demo_proof) h [0x20; 3] = Ok (v, n, err) /\
    (err = None -> v = demo_map [0x20; 3]).
Proof.
  destruct demo_hash as (h & t1 & Hh).
  destruct (VerifyProof_sound demo_Q (proof_of demo_proof) demo_proof_hashes demo_nodes demo_mpt demo_map h t1 demo_nodes [0x20; 3]) as (v & n & err & Hv & He).
  - apply NewDatabase_ok.
  - apply demo_mpt_map.
  - apply demo_all_encs.
  - exact Hh.
  - repeat constructor; done.
  - exists h, t1, v, n, err. exact (conj Hh (conj Hv He)).
Defined.
