(* ===== verification/TrieThreads.v ===== *)
(** * A trie shared by threads

    Models the concurrent use of a [Trie] of [trie/trie.go]: [TryUpdate] starts
    [tryUpdate], which loads the root, computes the new root and swaps it in
    with a compare-and-swap, over again if another thread was faster; the result
    is sent through one of five channels of capacity one, which all the calls
    share. [TryGet] and [TryDelete] read and write the root without a lock. Nodes
    are never changed in place; a root is a pointer to a node, and the
    compare-and-swap compares pointers. The nodes in the database do not change
    meanwhile. *)

From stdpp Require Import gmap.
From S2P Require Import Prelude CommonMath Schedule Rlp RlpSpec StateIface ConcreteCrypto TrieKey TrieNode Trie TrieSpec TrieProps.
Local Open Scope Z_scope.

(** ** The shared memory *)

(** A pointer is the number of its allocation, with what it points to. *)
Abbreviation pointer := (option (nat * node)).
(** [m_log] is for the proofs: the updates in the order they were swapped in. *)
Record trie_mem : Type := mkMem {
  m_root : pointer;
  m_fresh : nat;
  m_chan : gmap Z (option MissingNodeError);
  m_log : list (bytes * bytes);
}.
Definition pointee (p : pointer) : node := match p with Some (_, n) => n | None => nilNode end.
Definition same_pointer (p q : pointer) : bool :=
  match p, q with
  | Some (i, _), Some (j, _) => Nat.eqb i j
  | None, None => true
  | _, _ => false
  end.
Definition store_root (n : node) (m : trie_mem) : trie_mem := mkMem (Some (m_fresh m, n)) (S (m_fresh m)) (m_chan m) (m_log m).
Definition log_update (kv : bytes * bytes) (m : trie_mem) : trie_mem := mkMem (m_root m) (m_fresh m) (m_chan m) (m_log m ++ [kv]).
Definition set_chan (c : gmap Z (option MissingNodeError)) (m : trie_mem) : trie_mem := mkMem (m_root m) (m_fresh m) c (m_log m).

(** The channel of a key: [updateChannels] by its first nibble, [invKeyChannel]
    for the empty key. *)
Definition chan_of (key : bytes) : Z :=
  if zlen key =? 0 then -1 else default 0 (head (keybytesToHex key)) mod 4.

(** ** The threads *)

Inductive update_pc : Type :=
| ULoad
| UCompute (oldRoot : pointer)
| USwap (oldRoot : pointer) (n : node)
| USend (err : option MissingNodeError)
| UDone
| UPanicked.
Inductive caller_pc : Type := CReceive | CReturned (err : option MissingNodeError).
(** The test of the root against nil and its use are two loads. *)
Inductive get_pc : Type :=
| GTest
| GLoad
| GCompute (tmpnode : node)
| GStore (value : bytes) (newroot : node)
| GReturned (value : bytes) (err : option MissingNodeError)
| GPanicked.
Inductive delete_pc : Type :=
| DTest
| DLoad
| DCompute (rootCpy : node)
| DStore (n : node)
| DReturned (err : option MissingNodeError)
| DPanicked.
Inductive trie_thread : Type :=
| Updating (key value : bytes) (pc : update_pc)   (* the goroutine tryUpdate *)
| Calling (key : bytes) (pc : caller_pc)          (* TryUpdate, after it has started it *)
| Getting (key : bytes) (pc : get_pc)
| Deleting (key : bytes) (pc : delete_pc).

Section steps.
Context (db_node : Hash -> Z -> outcome node) (gen : Z).

Definition tryUpdate_step (key value : bytes) (pc : update_pc) (m : trie_mem) : option (update_pc * trie_mem) :=
  match pc with
  | ULoad => Some (UCompute (m_root m), m)
  | UCompute oldRoot =>
      Some (match tryUpdate_root db_node gen key value (pointee oldRoot) with
            | Ok (n, None) => USwap oldRoot n
            | Ok (_, Some e) => USend (Some e)
            | _ => UPanicked
            end, m)
  | USwap oldRoot n =>
      Some (if same_pointer (m_root m) oldRoot then (USend None, log_update (key, value) (store_root n m)) else (ULoad, m))
  | USend err =>
      match m_chan m !! chan_of key with
      | None => Some (UDone, set_chan (<[chan_of key := err]> (m_chan m)) m)
      | Some _ => None
      end
  | UDone | UPanicked => None
  end.
Definition TryUpdate_step (key : bytes) (pc : caller_pc) (m : trie_mem) : option (caller_pc * trie_mem) :=
  match pc with
  | CReceive =>
      match m_chan m !! chan_of key with
      | Some err => Some (CReturned err, set_chan (base.delete (chan_of key) (m_chan m)) m)
      | None => None
      end
  | CReturned _ => None
  end.
Definition TryGet_step (key : bytes) (pc : get_pc) (m : trie_mem) : option (get_pc * trie_mem) :=
  let k := keybytesToHex key in
  match pc with
  | GTest => Some (match m_root m with Some _ => GLoad | None => GCompute nilNode end, m)
  | GLoad => Some (match m_root m with Some (_, n) => GCompute n | None => GPanicked end, m)
  | GCompute tmpnode =>
      Some (match tryGet db_node gen (key_fuel k) tmpnode k 0 with
            | Ok (value, newroot, didResolve, None) => if didResolve then GStore value newroot else GReturned value None
            | Ok (value, _, _, Some e) => GReturned value (Some e)
            | _ => GPanicked
            end, m)
  | GStore value newroot => Some (GReturned value None, store_root newroot m)
  | GReturned _ _ | GPanicked => None
  end.
Definition TryDelete_step (key : bytes) (pc : delete_pc) (m : trie_mem) : option (delete_pc * trie_mem) :=
  let k := keybytesToHex key in
  match pc with
  | DTest => Some (match m_root m with Some _ => DLoad | None => DCompute nilNode end, m)
  | DLoad => Some (match m_root m with Some (_, n) => DCompute n | None => DPanicked end, m)
  | DCompute rootCpy =>
      Some (match delete db_node gen (key_fuel k) rootCpy [] k with
            | Ok (_, n, None) => DStore n
            | Ok (_, _, Some e) => DReturned (Some e)
            | _ => DPanicked
            end, m)
  | DStore n => Some (DReturned None, store_root n m)
  | DReturned _ | DPanicked => None
  end.
Definition Trie_step (t : trie_thread) (m : trie_mem) : option (trie_thread * trie_mem) :=
  match t with
  | Updating k v pc => '(pc, m) ← tryUpdate_step k v pc m; Some (Updating k v pc, m)
  | Calling k pc => '(pc, m) ← TryUpdate_step k pc m; Some (Calling k pc, m)
  | Getting k pc => '(pc, m) ← TryGet_step k pc m; Some (Getting k pc, m)
  | Deleting k pc => '(pc, m) ← TryDelete_step k pc m; Some (Deleting k pc, m)
  end.
End steps.
Abbreviation run_trie D gen := (run_schedule (Trie_step D gen)).

(** The calls of [TryUpdate] with their goroutines. *)
Definition calls (kvs : list (bytes * bytes)) : list trie_thread :=
  map (fun '(k, v) => Updating k v ULoad) kvs ++ map (fun '(k, _) => Calling k CReceive) kvs.
Definition start_mem (t : Trie) : trie_mem := mkMem (pair O <$> root t) 1 ∅ [].

(** ** Every update is applied once *)

(** The update of a thread that has swapped the root. *)
Definition applied (t : trie_thread) : list (bytes * bytes) :=
  match t with Updating k v (USend _ | UDone) => [(k, v)] | _ => [] end.
Lemma applied_insert ts i t t' :
  ts !! i = Some t -> concat (map applied (<[i := t']> ts)) ++ applied t ≡ₚ concat (map applied ts) ++ applied t'.
Proof.
  revert i. induction ts as [|u ts IH]; intros [|i] Hi; try done.
  - injection Hi as ->. cbn. rewrite <- !app_assoc. rewrite (Permutation_app_comm (applied t')), (Permutation_app_comm (applied t)). by rewrite <- !app_assoc, (Permutation_app_comm (applied t')).
  - change (<[S i := t']> (u :: ts)) with (u :: <[i := t']> ts). cbn [map concat]. by rewrite <- !app_assoc, (IH i Hi).
Qed.

Section serial.
Context `{Crypto} (db_node : Hash -> Z -> outcome node) (gen : Z).
Context (Inv : bool -> nodeFlag -> (bytes -> bytes) -> Prop) `{!FlagInv Inv} `{!Loads db_node Inv}.

(** The node stands for the map. *)
Definition stands_for (n : node) (f : bytes -> bytes) : Prop := exists F, root_ok db_node Inv n F /\ spreads f F.
Definition update_ok (k v : bytes) : Prop := key_ok k /\ bytes_ok v /\ zlen v < 2 ^ 32.
Lemma holds_update n f k v :
  stands_for n f -> update_ok k v -> exists n', tryUpdate_root db_node gen k v n = Ok (n', None).
Proof. intros (F & Hr & Hs) (Hk & Hv & Hl). destruct (update_root_ok db_node Inv gen n f F k v Hr Hs Hk Hv Hl) as (n' & He & _). by exists n'. Qed.
Lemma update_holds n f k v n' :
  update_ok k v -> tryUpdate_root db_node gen k v n = Ok (n', None) -> stands_for n f -> stands_for n' (upd f k v).
Proof.
  intros (Hk & Hv & Hl) He (F & Hr & Hs). destruct (update_root_ok db_node Inv gen n f F k v Hr Hs Hk Hv Hl) as (n1 & He1 & Hr1).
  rewrite He in He1. injection He1 as <-. exists (upd F (keybytesToHex k) v). split; [done|by apply spreads_upd].
Qed.

(** A pointer that was the root at some time. *)
Definition seen (m : trie_mem) (p : pointer) : Prop :=
  (exists f, stands_for (pointee p) f) /\ (forall i n, p = Some (i, n) -> (i < m_fresh m)%nat) /\ (same_pointer (m_root m) p = true -> p = m_root m).
Definition pc_ok (m : trie_mem) (k v : bytes) (pc : update_pc) : Prop :=
  match pc with
  | UCompute p => seen m p
  | USwap p n => seen m p /\ tryUpdate_root db_node gen k v (pointee p) = Ok (n, None)
  | USend (Some _) | UPanicked => False
  | _ => True
  end.
Definition updater_ok (m : trie_mem) (t : trie_thread) : Prop :=
  match t with
  | Updating k v pc => update_ok k v /\ pc_ok m k v pc
  | Calling _ (CReturned (Some _)) => False
  | Calling _ _ => True
  | Getting _ _ | Deleting _ _ => False
  end.
Record trie_mem_ok (f0 : bytes -> bytes) (c : config trie_thread trie_mem) : Prop := {
  mo_threads : Forall (updater_ok c.2) c.1;
  mo_root : stands_for (pointee (m_root c.2)) (upd_all (m_log c.2) f0);
  mo_fresh i n : m_root c.2 = Some (i, n) -> (i < m_fresh c.2)%nat;
  mo_log : m_log c.2 ≡ₚ concat (map applied c.1);
  mo_chan k : m_chan c.2 !! k <> Some None -> m_chan c.2 !! k = None;
}.

Lemma seen_store m p n kv : seen m p -> (forall i n, m_root m = Some (i, n) -> (i < m_fresh m)%nat) -> seen (log_update kv (store_root n m)) p.
Proof.
  intros (Hf & Hlt & Hp) Hroot. split; [done|]. split.
  - intros i n' Hi. cbn. specialize (Hlt i n' Hi). lia.
  - cbn. destruct p as [[i n']|]; [|done]. intros Heq%Nat.eqb_eq. specialize (Hlt i n' eq_refl). lia.
Qed.
Lemma thread_ok_store m t n kv :
  updater_ok m t -> (forall i n, m_root m = Some (i, n) -> (i < m_fresh m)%nat) -> updater_ok (log_update kv (store_root n m)) t.
Proof.
  intros Ht Hroot. destruct t as [k v pc| | |]; try done. destruct Ht as [Hu Hpc]. split; [done|].
  destruct pc; try done; [by apply seen_store|]. destruct Hpc as [Hp He]. split; [by apply seen_store|done].
Qed.
Lemma upd_all_snoc kvs k v f : upd_all (kvs ++ [(k, v)]) f = upd (upd_all kvs f) k v.
Proof. unfold upd_all. by rewrite foldl_snoc. Qed.

(** A step that does not touch the root. *)
Lemma trie_mem_ok_local f0 i c t t' ch :
  trie_mem_ok f0 c -> c.1 !! i = Some t -> updater_ok (set_chan ch c.2) t' -> applied t' = applied t ->
  (forall k, ch !! k <> Some None -> ch !! k = None) -> trie_mem_ok f0 (<[i := t']> c.1, set_chan ch c.2).
Proof.
  intros [Hts Hr Hfr Hl Hc] Hi Ht' Ha Hch. split; cbn [fst snd]; try done.
  - by apply Forall_insert.
  - cbn. rewrite Hl. pose proof (applied_insert c.1 i t t' Hi) as Hp. rewrite Ha in Hp. by apply Permutation_app_inv_r in Hp.
Qed.
Lemma set_chan_same m : set_chan (m_chan m) m = m.
Proof. by destruct m. Qed.

Lemma update_step_ok f0 i c k v pc pc' m' :
  trie_mem_ok f0 c -> c.1 !! i = Some (Updating k v pc) -> tryUpdate_step db_node gen k v pc c.2 = Some (pc', m') ->
  trie_mem_ok f0 (<[i := Updating k v pc']> c.1, m').
Proof.
  intros Hc Hi Hst. pose proof (Forall_lookup_1 _ _ _ _ (mo_threads f0 c Hc) Hi) as [Hu Hpc].
  assert (forall t', updater_ok c.2 t' -> applied t' = applied (Updating k v pc) -> trie_mem_ok f0 (<[i := t']> c.1, c.2)) as Hlocal.
  { intros t' Ht' Ha. rewrite <- (set_chan_same c.2) at 1. eapply trie_mem_ok_local; [done..| |apply Hc]; done. }
  destruct pc as [|p|p n|e| |]; cbn in Hst; try done.
  - injection Hst as <- <-. apply Hlocal; [|done]. split; [done|]. split; [by exists (upd_all (m_log c.2) f0); apply Hc|]. split; [apply Hc|done].
  - injection Hst as <- <-. destruct Hpc as ((f & Hf) & Hp). destruct (holds_update (pointee p) f k v Hf Hu) as [n He]. rewrite He.
    apply Hlocal; [|done]. split; [done|]. split; [split; [by exists f|done]|done].
  - destruct Hpc as [Hp He]. destruct (same_pointer (m_root c.2) p) eqn:Hs; injection Hst as <- <-; [|by apply Hlocal].
    destruct Hp as (_ & _ & Hp). specialize (Hp Hs) as ->. destruct Hc as [Hts Hr Hfr Hl Hch]. split; cbn [fst snd]; try done.
    + apply Forall_insert; [|done]. apply (Forall_impl _ _ _ Hts). intros t Ht. by apply thread_ok_store.
    + change (stands_for n (upd_all (m_log c.2 ++ [(k, v)]) f0)). rewrite upd_all_snoc. by eapply update_holds.
    + cbn. intros j n' [= <- _]. lia.
    + cbn. pose proof (applied_insert c.1 i _ (Updating k v (USend None)) Hi) as Hpm. cbn in Hpm. rewrite app_nil_r in Hpm. by rewrite Hpm, Hl.
  - destruct e as [e|]; [done|]. destruct (m_chan c.2 !! chan_of k) as [x|] eqn:Hch; [done|]. injection Hst as <- <-.
    eapply trie_mem_ok_local; [done..|]. intros k'. destruct (decide (k' = chan_of k)) as [->|Hne]; [by rewrite lookup_insert_eq|].
    rewrite lookup_insert_ne by done. apply Hc.
Qed.
Lemma trie_step_ok f0 i c t t' m' :
  trie_mem_ok f0 c -> c.1 !! i = Some t -> Trie_step db_node gen t c.2 = Some (t', m') -> trie_mem_ok f0 (<[i := t']> c.1, m').
Proof.
  intros Hc Hi Hst. pose proof (Forall_lookup_1 _ _ _ _ (mo_threads f0 c Hc) Hi) as Ht. destruct t as [k v pc|k pc|k pc|k pc]; [| |done..]; cbn [Trie_step] in Hst.
  - destruct (tryUpdate_step db_node gen k v pc c.2) as [[pc' m1]|] eqn:He; [|done]. injection Hst as <- <-. by eapply update_step_ok.
  - destruct pc; [|done]. cbn in Hst. destruct (m_chan c.2 !! chan_of k) as [e|] eqn:Hch; [|done]. injection Hst as <- <-.
    assert (e = None) as -> by (destruct e; [|done]; pose proof (mo_chan f0 c Hc (chan_of k)) as Hk; rewrite Hch in Hk; by discriminate Hk).
    eapply trie_mem_ok_local; [done..|]. intros k'. destruct (decide (k' = chan_of k)) as [->|Hne]; [by rewrite lookup_delete_eq|].
    rewrite lookup_delete_ne by done. apply Hc.
Qed.
Lemma run_trie_ok f0 sched c c' : trie_mem_ok f0 c -> run_trie db_node gen sched c = Some c' -> trie_mem_ok f0 c'.
Proof. apply (run_schedule_ind (Trie_step db_node gen) (trie_mem_ok f0)). eauto using trie_step_ok. Qed.

Lemma calls_ok t f0 kvs :
  trie_map db_node Inv t f0 -> Forall (fun '(k, v) => update_ok k v) kvs -> trie_mem_ok f0 (calls kvs, start_mem t).
Proof.
  intros (F & Hr & Hs) Hkvs. split; cbn [fst snd]; try done.
  - unfold calls. apply Forall_app. split; apply Forall_fmap; [|by apply Forall_true; intros []]. apply (Forall_impl _ _ _ Hkvs). by intros [k v].
  - exists F. split; [|done]. unfold root_node in Hr. by destruct t as [[n|] g l].
  - intros i n. cbn. destruct (root t); cbn; [intros [= <- _]; lia|done].
  - unfold calls. rewrite map_app, concat_app. assert (forall l : list (bytes * bytes), concat (map applied (map (fun '(k, v) => Updating k v ULoad) l)) = [] /\
      concat (map applied (map (fun '(k, _) => Calling k CReceive) l)) = []) as Hn; [|by destruct (Hn kvs) as [-> ->]].
    intros l. induction l as [|[k v] l [IH1 IH2]]; [done|]. by split; cbn.
Qed.

(** The updates of a run in the order of the swaps of the root. *)
Definition swapped (t t' : trie_thread) : list (bytes * bytes) :=
  match t, t' with Updating k v (USwap _ _), Updating _ _ (USend None) => [(k, v)] | _, _ => [] end.
Fixpoint swap_order (sched : list nat) (c : config trie_thread trie_mem) : list (bytes * bytes) :=
  match sched with
  | [] => []
  | i :: sched =>
      match c.1 !! i with
      | None => []
      | Some t => match Trie_step db_node gen t c.2 with None => [] | Some (t', m') => swapped t t' ++ swap_order sched (<[i := t']> c.1, m') end
      end
  end.
Lemma step_logs m t t' m' : updater_ok m t -> Trie_step db_node gen t m = Some (t', m') -> m_log m' = m_log m ++ swapped t t'.
Proof.
  intros Ht Hst. destruct t as [k v pc|k pc|k pc|k pc]; [| |done..]; cbn [Trie_step] in Hst.
  - destruct pc as [|p|p n|e| |]; cbn [tryUpdate_step] in Hst; try done.
    + injection Hst as <- <-. by rewrite app_nil_r.
    + by injection Hst as <- <-; rewrite app_nil_r.
    + by destruct (same_pointer (m_root m) p); injection Hst as <- <-; cbn; rewrite ?app_nil_r.
    + destruct (m_chan m !! chan_of k); [done|]. injection Hst as <- <-. cbn. by rewrite app_nil_r.
  - destruct pc; [|done]. cbn in Hst. destruct (m_chan m !! chan_of k); [|done]. injection Hst as <- <-. cbn. by rewrite app_nil_r.
Qed.
Lemma swap_order_log f0 sched c c' : trie_mem_ok f0 c -> run_trie db_node gen sched c = Some c' -> m_log c'.2 = m_log c.2 ++ swap_order sched c.
Proof.
  revert c. induction sched as [|i sched IH]; intros c Hc Hr; cbn in Hr; [injection Hr as <-; by rewrite app_nil_r|].
  destruct (step_thread (Trie_step db_node gen) i c) as [c1|] eqn:Hst; [|done]. apply step_thread_inv in Hst as (t & t' & m' & Hi & Ht & ->).
  rewrite (IH _ (trie_step_ok f0 i c t t' m' Hc Hi Ht) Hr). cbn [fst snd swap_order]. rewrite Hi, Ht, (step_logs _ _ _ _ (Forall_lookup_1 _ _ _ _ (mo_threads f0 c Hc) Hi) Ht).
  by rewrite <- app_assoc.
Qed.
(** No thread has panicked or has an error to return. *)
Definition no_failure (t : trie_thread) : Prop :=
  match t with Updating _ _ (USend (Some _) | UPanicked) | Calling _ (CReturned (Some _)) => False | _ => True end.

(** C10. Updates by any number of threads take effect one after the other: when
    only calls of [TryUpdate] run, then under every schedule and at every time
    the trie is the one at the start with the updates of the swaps made so far,
    in the order of the swaps; these are the updates of the threads that are
    past their swap, each once, and no thread has failed. The order is that of
    the swaps of the goroutines and not of the calls: a call may return before
    the swap of its own update ([TryUpdate_returns_early]). The nodes of the
    trie at the start can be loaded, keys are shorter than [2 ^ 30] bytes and
    values than [2 ^ 32]. *)
Theorem updates_serialized t f0 kvs sched ts m :
  trie_map db_node Inv t f0 -> Forall (fun '(k, v) => update_ok k v) kvs ->
  run_trie db_node gen sched (calls kvs, start_mem t) = Some (ts, m) ->
  let order := swap_order sched (calls kvs, start_mem t) in
  stands_for (pointee (m_root m)) (upd_all order f0) /\ order ≡ₚ concat (map applied ts) /\ Forall no_failure ts.
Proof.
  intros Ht Hkvs Hrun order. pose proof (calls_ok t f0 kvs Ht Hkvs) as Hs. destruct (run_trie_ok f0 sched _ _ Hs Hrun) as [Hts Hr _ Hl _].
  assert (m_log m = order) as Hord by apply (swap_order_log f0 sched _ _ Hs Hrun). cbn [fst snd] in *. rewrite Hord in *. split; [done|]. split; [done|].
  apply (Forall_impl _ _ _ Hts). intros [k v [|?|? ?|[e|]| |]|k [|[e|]]| |]; cbn; try done; by intros [_ []].
Qed.

(** ** Progress *)

(** How often a thread will still change the root, and how many steps it takes
    if no other does. *)
Definition swaps_left (t : trie_thread) : nat :=
  match t with Updating _ _ (ULoad | UCompute _ | USwap _ _) => 1 | _ => 0 end.
Definition update_steps (r : pointer) (t : trie_thread) : nat :=
  match t with
  | Updating _ _ pc =>
      match pc with
      | ULoad => 5
      | UCompute p => if same_pointer r p then 4 else 7
      | USwap p _ => if same_pointer r p then 3 else 6
      | USend _ => 1
      | _ => 0
      end
  | Calling _ CReceive => 1
  | _ => 0
  end.
Definition trie_work (c : config trie_thread trie_mem) : nat :=
  nsum swaps_left c.1 * (7 * length c.1 + 1) + nsum (update_steps (m_root c.2)) c.1.

Lemma same_pointer_refl p : same_pointer p p = true.
Proof. destruct p as [[i n]|]; [apply Nat.eqb_refl|done]. Qed.
Lemma update_steps_bound r ts : (nsum (update_steps r) ts <= 7 * length ts)%nat.
Proof.
  induction ts as [|t ts IH]; cbn [nsum length]; [lia|]. assert (update_steps r t <= 7)%nat by (unfold update_steps; repeat case_match; lia). lia.
Qed.
Lemma step_makes_progress m t t' m' :
  updater_ok m t -> Trie_step db_node gen t m = Some (t', m') ->
  (swaps_left t' < swaps_left t)%nat \/ swaps_left t' = swaps_left t /\ m_root m' = m_root m /\ (update_steps (m_root m) t' < update_steps (m_root m) t)%nat.
Proof.
  intros Ht Hst. destruct t as [k v pc|k pc|k pc|k pc]; [| |done..]; cbn [Trie_step] in Hst.
  - destruct Ht as [Hu Hpc]. destruct pc as [|p|p n|e| |]; cbn [tryUpdate_step] in Hst; try done.
    + injection Hst as <- <-. cbn. rewrite same_pointer_refl. right. split_and!; done || lia.
    + destruct Hpc as ((f & Hf) & _). destruct (holds_update (pointee p) f k v Hf Hu) as [n He]. rewrite He in Hst. injection Hst as <- <-. cbn.
      right. split_and!; try done. destruct (same_pointer (m_root m) p); lia.
    + destruct (same_pointer (m_root m) p) eqn:Hs; injection Hst as <- <-; cbn; [left; lia|]. rewrite Hs. right. split_and!; done || lia.
    + destruct (m_chan m !! chan_of k); [done|]. injection Hst as <- <-. cbn. right. split_and!; done || lia.
  - destruct pc; [|done]. cbn in Hst. destruct (m_chan m !! chan_of k); [|done]. injection Hst as <- <-. cbn. right. split_and!; done || lia.
Qed.
Lemma trie_work_step i c t t' m' :
  updater_ok c.2 t -> c.1 !! i = Some t -> Trie_step db_node gen t c.2 = Some (t', m') -> (trie_work (<[i := t']> c.1, m') < trie_work c)%nat.
Proof.
  intros Ht Hi Hst. destruct c as [ts m]. cbn [fst snd] in *. unfold trie_work. cbn [fst snd]. rewrite length_insert.
  pose proof (nsum_insert swaps_left _ _ _ t' Hi) as Hc. pose proof (nsum_insert (update_steps (m_root m)) _ _ _ t' Hi) as Hs.
  pose proof (update_steps_bound (m_root m') (<[i := t']> ts)) as Hb. rewrite length_insert in Hb.
  destruct (step_makes_progress m t t' m' Ht Hst) as [Hlt|(He & -> & Hlt)]; [nia|].
  assert (nsum swaps_left (<[i := t']> ts) = nsum swaps_left ts) as -> by lia. lia.
Qed.
Lemma trie_work_run f0 sched c c' : trie_mem_ok f0 c -> run_trie db_node gen sched c = Some c' -> (length sched + trie_work c' <= trie_work c)%nat.
Proof.
  revert c. induction sched as [|i sched IH]; intros c Hc Hr; cbn in Hr; [simplify_eq; cbn; lia|].
  destruct (step_thread (Trie_step db_node gen) i c) as [c1|] eqn:Hst; [|done].
  apply step_thread_inv in Hst as (t & t' & m' & Hi & Ht & ->). specialize (IH _ (trie_step_ok f0 i c t t' m' Hc Hi Ht) Hr).
  pose proof (trie_work_step i c t t' m' (Forall_lookup_1 _ _ _ _ (mo_threads f0 c Hc) Hi) Hi Ht). cbn [length]. lia.
Qed.

(** Results to come through a channel, and calls that wait for one. *)
Definition sends (ch : Z) (t : trie_thread) : nat :=
  match t with
  | Updating k _ UDone => 0
  | Updating k _ _ => if chan_of k =? ch then 1 else 0
  | _ => 0
  end.
Definition waits (ch : Z) (t : trie_thread) : nat :=
  match t with Calling k CReceive => if chan_of k =? ch then 1 else 0 | _ => 0 end.
Definition in_chan (ch : Z) (m : trie_mem) : nat := match m_chan m !! ch with Some _ => 1 | None => 0 end.
Definition sends_match (c : config trie_thread trie_mem) : Prop :=
  forall ch, (nsum (sends ch) c.1 + in_chan ch c.2 = nsum (waits ch) c.1)%nat.
Lemma balanced_step i c t t' m' :
  updater_ok c.2 t -> sends_match c -> c.1 !! i = Some t -> Trie_step db_node gen t c.2 = Some (t', m') -> sends_match (<[i := t']> c.1, m').
Proof.
  intros Ht Hb Hi Hst ch. specialize (Hb ch). destruct c as [ts m]. cbn [fst snd] in *.
  pose proof (nsum_insert (sends ch) _ _ _ t' Hi) as Hs. pose proof (nsum_insert (waits ch) _ _ _ t' Hi) as Hw.
  enough (sends ch t' + in_chan ch m' + waits ch t = sends ch t + in_chan ch m + waits ch t')%nat by lia. clear Hb Hs Hw Hi.
  assert (forall k, (chan_of k =? ch) = false -> forall x (g : gmap Z (option MissingNodeError)), <[chan_of k := x]> g !! ch = g !! ch /\ base.delete (chan_of k) g !! ch = g !! ch) as Hne.
  { intros k Hk%Z.eqb_neq x g. by rewrite lookup_insert_ne, lookup_delete_ne. }
  destruct t as [k v pc|k pc|k pc|k pc]; [| |done..]; cbn [Trie_step] in Hst.
  - destruct Ht as [Hu Hpc]. destruct pc as [|p|p n|e| |]; cbn [tryUpdate_step] in Hst; try done.
    + by injection Hst as <- <-.
    + destruct Hpc as ((f & Hf) & _). destruct (holds_update (pointee p) f k v Hf Hu) as [n He]. rewrite He in Hst. by injection Hst as <- <-.
    + by destruct (same_pointer (m_root m) p); injection Hst as <- <-.
    + destruct (m_chan m !! chan_of k) eqn:Hch; [done|]. injection Hst as <- <-. unfold in_chan. cbn. destruct (chan_of k =? ch) eqn:Hk.
      * apply Z.eqb_eq in Hk as <-. by rewrite lookup_insert_eq, Hch.
      * by rewrite (proj1 (Hne k Hk e (m_chan m))).
  - destruct pc; [|done]. cbn in Hst. destruct (m_chan m !! chan_of k) as [e|] eqn:Hch; [|done]. injection Hst as <- <-. unfold in_chan. cbn.
    destruct (chan_of k =? ch) eqn:Hk.
    + apply Z.eqb_eq in Hk as <-. by rewrite lookup_delete_eq, Hch.
    + by rewrite (proj2 (Hne k Hk e (m_chan m))).
Qed.

Definition finished (t : trie_thread) : Prop :=
  match t with Updating _ _ UDone | Calling _ (CReturned None) => True | _ => False end.
Lemma stuck_finished f0 c :
  trie_mem_ok f0 c -> sends_match c -> (forall i, step_thread (Trie_step db_node gen) i c = None) -> Forall finished c.1.
Proof.
  intros Hc Hb Hstuck. pose proof (mo_threads f0 c Hc) as Hts.
  assert (forall i t, c.1 !! i = Some t -> Trie_step db_node gen t c.2 = None) as Hno.
  { intros i t Hi. specialize (Hstuck i). unfold step_thread in Hstuck. rewrite Hi in Hstuck. by destruct (Trie_step db_node gen t c.2) as [[]|]. }
  assert (forall ch, nsum (waits ch) c.1 <> O -> m_chan c.2 !! ch = None) as Hwait.
  { intros ch Hw. destruct (nsum_pos (waits ch) c.1) as (i & t & Hi & Ht); [lia|]. specialize (Hno i t Hi).
    destruct t as [| k [|] | |]; cbn in Ht; try lia. destruct (Z.eqb_spec (chan_of k) ch) as [<-|]; [|lia]. cbn in Hno.
    by destruct (m_chan c.2 !! chan_of k). }
  assert (forall i k v pc, c.1 !! i = Some (Updating k v pc) -> pc = UDone) as Hup.
  { intros i k v pc Hi. specialize (Hno i _ Hi) as Hn. pose proof (Forall_lookup_1 _ _ _ _ Hts Hi) as [_ Hpc].
    destruct pc as [|p|p n|e| |]; try done; cbn in Hn; [by destruct (same_pointer _ p)|].
    specialize (Hb (chan_of k)). assert (nsum (waits (chan_of k)) c.1 <> O) as Hw.
    { assert (nsum (sends (chan_of k)) c.1 <> O); [|lia]. intros H0. apply (nsum_zero _ _ i _ H0) in Hi. cbn in Hi. by rewrite Z.eqb_refl in Hi. }
    by rewrite (Hwait _ Hw) in Hn. }
  apply Forall_lookup. intros i t Hi. pose proof (Forall_lookup_1 _ _ _ _ Hts Hi) as Ht. destruct t as [k v pc|k pc| |]; [| |done..].
  - by rewrite (Hup i k v pc Hi).
  - destruct pc as [|[e|]]; [|done..]. exfalso. specialize (Hb (chan_of k)).
    assert (nsum (sends (chan_of k)) c.1 = O) as Hs.
    { destruct (nsum (sends (chan_of k)) c.1) eqn:Hn; [done|]. destruct (nsum_pos (sends (chan_of k)) c.1) as (j & t & Hj & Ht'); [lia|].
      destruct t as [k' v pc| | |]; cbn in Ht'; try lia. rewrite (Hup j k' v pc Hj) in Ht'. lia. }
    assert (nsum (waits (chan_of k)) c.1 <> O) as Hw.
    { intros H0. apply (nsum_zero _ _ i _ H0) in Hi. cbn in Hi. by rewrite Z.eqb_refl in Hi. }
    specialize (Hwait _ Hw). unfold in_chan in Hb. rewrite Hwait in Hb. lia.
Qed.

(** The updates of all the threads. *)
Definition update_of (t : trie_thread) : list (bytes * bytes) := match t with Updating k v _ => [(k, v)] | _ => [] end.
Lemma update_of_step m t t' m' : Trie_step db_node gen t m = Some (t', m') -> update_of t' = update_of t.
Proof.
  destruct t as [k v pc|k pc|k pc|k pc]; cbn [Trie_step]; intros Hst.
  - destruct (tryUpdate_step db_node gen k v pc m) as [[pc' m1]|]; [|done]. by injection Hst as <- _.
  - destruct (TryUpdate_step k pc m) as [[pc' m1]|]; [|done]. by injection Hst as <- _.
  - destruct (TryGet_step db_node gen k pc m) as [[pc' m1]|]; [|done]. by injection Hst as <- _.
  - destruct (TryDelete_step db_node gen k pc m) as [[pc' m1]|]; [|done]. by injection Hst as <- _.
Qed.
Lemma update_of_insert ts i t t' : ts !! i = Some t -> update_of t' = update_of t -> map update_of (<[i := t']> ts) = map update_of ts.
Proof.
  intros Hi He. change (update_of <$> <[i := t']> ts = update_of <$> ts). rewrite list_fmap_insert, He. apply list_insert_id.
  by rewrite list_lookup_fmap, Hi.
Qed.
Lemma finished_applied ts : Forall finished ts -> map applied ts = map update_of ts.
Proof. induction 1 as [|t ts Ht _ IH]; [done|]. cbn. rewrite IH. by destruct t as [k v []| | |]. Qed.

Record calls_inv f0 kvs (c : config trie_thread trie_mem) : Prop := {
  ci_mem : trie_mem_ok f0 c;
  ci_balanced : sends_match c;
  ci_updates : concat (map update_of c.1) = kvs;
}.
Lemma calls_inv_run f0 kvs sched c c' : calls_inv f0 kvs c -> run_trie db_node gen sched c = Some c' -> calls_inv f0 kvs c'.
Proof.
  apply (run_schedule_ind (Trie_step db_node gen) (calls_inv f0 kvs)). clear c c'. intros i c t t' m' [Hm Hb Hu] Hi Hst.
  split; cbn [fst snd].
  - by eapply trie_step_ok.
  - eapply balanced_step; [|done..]. exact (Forall_lookup_1 _ _ _ _ (mo_threads f0 c Hm) Hi).
  - by rewrite (update_of_insert c.1 i t t' Hi (update_of_step _ _ _ _ Hst)).
Qed.
Lemma calls_inv_start t f0 kvs :
  trie_map db_node Inv t f0 -> Forall (fun '(k, v) => update_ok k v) kvs -> calls_inv f0 kvs (calls kvs, start_mem t).
Proof.
  intros Ht Hkvs. split; [by apply calls_ok|..]; cbn [fst snd]; unfold calls.
  - intros ch. unfold in_chan. cbn [m_chan snd start_mem]. rewrite lookup_empty. cbn [fst]. rewrite !nsum_app. clear Hkvs. induction kvs as [|[k v] kvs IH]; [done|].
    cbn [map nsum sends waits]. lia.
  - rewrite map_app, concat_app. clear Hkvs. induction kvs as [|[k v] kvs IH]; [done|]. cbn. cbn in IH. by rewrite IH.
Qed.
Lemma calls_work t kvs : (trie_work (calls kvs, start_mem t) <= 14 * length kvs * length kvs + 7 * length kvs)%nat.
Proof.
  assert (forall r, nsum swaps_left (calls kvs) = length kvs /\ nsum (update_steps r) (calls kvs) = (6 * length kvs)%nat) as Hn.
  { intros r. unfold calls. rewrite !nsum_app. induction kvs as [|[k v] kvs [IH1 IH2]]; [done|]. cbn [map nsum swaps_left update_steps length]. lia. }
  unfold trie_work. cbn [fst snd]. destruct (Hn (m_root (start_mem t))) as [-> ->]. unfold calls. rewrite length_app, !length_map. nia.
Qed.

(** C33. Calls of [TryUpdate] by [n] threads, and nothing else, end after at most
    14 n^2 + 7 n steps whatever the scheduler does, and no thread is left
    waiting: if none can go on, all have returned without an error and the trie
    has every update, each applied once in some order. The nodes of the trie at
    the start can be loaded, keys are shorter than [2 ^ 30] bytes and values than
    [2 ^ 32]. *)
Theorem updates_finish t f0 kvs sched ts m :
  trie_map db_node Inv t f0 -> Forall (fun '(k, v) => update_ok k v) kvs ->
  run_trie db_node gen sched (calls kvs, start_mem t) = Some (ts, m) ->
  (length sched <= 14 * length kvs * length kvs + 7 * length kvs)%nat /\
  ((forall i, step_thread (Trie_step db_node gen) i (ts, m) = None) ->
     Forall finished ts /\ exists order, order ≡ₚ kvs /\ stands_for (pointee (m_root m)) (upd_all order f0)).
Proof.
  intros Ht Hkvs Hrun. pose proof (calls_inv_start t f0 kvs Ht Hkvs) as Hs. destruct (calls_inv_run f0 kvs sched _ _ Hs Hrun) as [Hm Hb Hu]. split.
  - pose proof (trie_work_run f0 sched _ _ (ci_mem _ _ _ Hs) Hrun). pose proof (calls_work t kvs). lia.
  - intros Hstuck. pose proof (stuck_finished f0 _ Hm Hb Hstuck) as Hfin. split; [done|]. exists (m_log m). split; [|apply Hm].
    rewrite (mo_log f0 _ Hm). cbn [fst] in *. by rewrite (finished_applied ts Hfin), Hu.
Qed.
End serial.

(** ** Races *)

(** A call of [TryUpdate] can receive the result of another one whose key has the
    same channel, and return before its own update is made. *)
Lemma TryUpdate_returns_early :
  let kvs := [([0x10], [1]); ([0x50], [2])] in
  exists sched ts m, run_trie no_nodes 0 sched (calls kvs, start_mem (mkTrie None 0 0)) = Some (ts, m) /\
    ts !! 2%nat = Some (Calling [0x10] (CReturned None)) /\ ts !! 0%nat = Some (Updating [0x10] [1] ULoad) /\
    Trie_TryGet no_nodes [0x10] (mkTrie (Some (pointee (m_root m))) 0 0) = Ok ([], None, mkTrie (Some (pointee (m_root m))) 0 0).
Proof. exists [1; 1; 1; 1; 2]%nat. eexists _, _. split; [vm_compute; reflexivity|]. split_and!; vm_compute; reflexivity. Qed.

(** [TryGet] stores the nodes it has loaded with the root it has read: an update
    that is swapped in between is lost. *)
Definition one_leaf : node := shortNode (keybytesToHex [0x10]) (valueNode [1]) (mkFlag (Some (zeros 32)) 0 false).
Definition one_node : Hash -> Z -> outcome node := fun h _ => Ok (if h =? 0 then one_leaf else nilNode).
Lemma TryGet_loses_update :
  exists sched ts m, run_trie one_node 0 sched ([Getting [0x10] GTest; Updating [0x20] [2] ULoad], start_mem (mkTrie (Some (hashNode (zeros 32))) 0 0)) = Some (ts, m) /\
    ts = [Getting [0x10] (GReturned [1] None); Updating [0x20] [2] UDone] /\
    Trie_TryGet one_node [0x20] (mkTrie (Some (pointee (m_root m))) 0 0) = Ok ([], None, mkTrie (Some (pointee (m_root m))) 0 0).
Proof. exists [0; 0; 0; 1; 1; 1; 1; 0]%nat. eexists _, _. split; [vm_compute; reflexivity|]. split; vm_compute; reflexivity. Qed.

(** ** Witnesses *)

Lemma demo_updates_ok : Forall (fun '(k, v) => update_ok k v) demo_kvs.
Proof. apply demo_kvs_ok. Qed.
Lemma updates_serialized_witness :
  let sched := [0; 1; 0; 1; 0; 1; 1; 1; 1; 0; 1; 3; 4]%nat in
  exists ts m, run_trie no_nodes 0 sched (calls demo_kvs, start_mem (mkTrie None 0 0)) = Some (ts, m) /\
    stands_for no_nodes any_flag (pointee (m_root m)) (upd_all (swap_order no_nodes 0 sched (calls demo_kvs, start_mem (mkTrie None 0 0))) (fun _ => [])).
Proof.
  intros sched. eexists _, _. assert (forall ts m, run_trie no_nodes 0 sched (calls demo_kvs, start_mem (mkTrie None 0 0)) = Some (ts, m) ->
    stands_for no_nodes any_flag (pointee (m_root m)) (upd_all (swap_order no_nodes 0 sched (calls demo_kvs, start_mem (mkTrie None 0 0))) (fun _ => []))) as Hall.
  { intros ts m Hrun. exact (proj1 (updates_serialized no_nodes 0 any_flag (mkTrie None 0 0) (fun _ => []) demo_kvs _ ts m (trie_map_empty _ _ 0 0) demo_updates_ok Hrun)). }
  pose proof (Hall _ _ ltac:(vm_compute; reflexivity)) as H1. split; [vm_compute; reflexivity|]. exact H1.
Defined.
Lemma updates_finish_witness :
  exists ts m order, run_trie no_nodes 0 [0; 1; 2; 0; 1; 2; 0; 1; 1; 1; 1; 2; 2; 2; 2; 0; 3; 1; 4; 2; 5]%nat (calls demo_kvs, start_mem (mkTrie None 0 0)) = Some (ts, m) /\
    order ≡ₚ demo_kvs /\ stands_for no_nodes any_flag (pointee (m_root m)) (upd_all order (fun _ => [])).
Proof.
  eexists _, _. assert (forall ts m, run_trie no_nodes 0 [0; 1; 2; 0; 1; 2; 0; 1; 1; 1; 1; 2; 2; 2; 2; 0; 3; 1; 4; 2; 5]%nat (calls demo_kvs, start_mem (mkTrie None 0 0)) = Some (ts, m) ->
    (forall i, step_thread (Trie_step no_nodes 0) i (ts, m) = None) ->
    exists order, order ≡ₚ demo_kvs /\ stands_for no_nodes any_flag (pointee (m_root m)) (upd_all order (fun _ => []))) as Hall.
  { intros ts m Hrun Hstuck. destruct (updates_finish no_nodes 0 any_flag (mkTrie None 0 0) (fun _ => []) demo_kvs _ ts m (trie_map_empty _ _ 0 0) demo_updates_ok Hrun)
      as [_ Hf]. by destruct (Hf Hstuck) as [_ Ho]. }
  edestruct Hall as (order & H1 & H2); [vm_compute; reflexivity| |exists order; split; [vm_compute; reflexivity|exact (conj H1 H2)]].
  intros i. do 6 (destruct i as [|i]; [vm_compute; reflexivity|]). vm_compute. by destruct i.
Defined.
