(* ===== verification/SecureTrie.v ===== *)
(** * Tries with hashed keys

    Models [trie/secure_trie.go]: every key is hashed before it is used, and the
    keys of a trie are kept until they are written as preimages with its nodes.
    A copy has the map of the keys of the trie it is copied from, and makes one
    of its own before it uses it: [secKeyCacheOwner] is whether the trie is the
    one its map belongs to. The lock of the package, which serialises
    updates and commits, is left out: the operations are those of one caller.
    The loads from the database are those of [Trie]. *)

From stdpp Require Import gmap.
From S2P Require Import Prelude CommonMath Rlp RlpSpec StateIface ConcreteCrypto TrieKey TrieNode Trie TrieSpec TrieProps TrieDatabase Hasher TrieCodec HasherProps DatabaseProps TrieCommit.
Local Open Scope Z_scope.
#[local] Arguments Hash_Bytes _ : simpl never.

Record SecureTrie : Type := mkSecure {
  secure_trie : Trie;
  secKeyCache : gmap bytes bytes;
  secKeyCacheOwner : bool;
}.

Section operations.
Context `{Crypto}.
Implicit Types t : SecureTrie.

Definition hashKey (key : bytes) : bytes := keccak key.
Definition getSecKeyCache t : SecureTrie := if secKeyCacheOwner t then t else mkSecure (secure_trie t) ∅ true.

Definition NewSecure (db_node : Hash -> Z -> outcome node) (root : Hash) (cachelimit : Z) : outcome (SecureTrie + MissingNodeError) :=
  r ← Trie_New db_node emptyRoot root;
  Ok (match r with
      | inl tr => inl (mkSecure (mkTrie (Trie.root tr) (cachegen tr) cachelimit) ∅ false)
      | inr e => inr e
      end).
Definition Secure_TryGet (db_node : Hash -> Z -> outcome node) (key : bytes) t : outcome (bytes * option MissingNodeError * SecureTrie) :=
  '(v, err, tr) ← Trie_TryGet db_node (hashKey key) (secure_trie t);
  Ok (v, err, mkSecure tr (secKeyCache t) (secKeyCacheOwner t)).
Definition Secure_TryUpdate (db_node : Hash -> Z -> outcome node) (key value : bytes) t : outcome (option MissingNodeError * SecureTrie) :=
  let hk := hashKey key in
  '(err, tr) ← Trie_TryUpdate db_node hk value (secure_trie t);
  match err with
  | Some e => Ok (Some e, mkSecure tr (secKeyCache t) (secKeyCacheOwner t))
  | None =>
      let t := getSecKeyCache (mkSecure tr (secKeyCache t) (secKeyCacheOwner t)) in
      Ok (None, mkSecure (secure_trie t) (<[hk := key]> (secKeyCache t)) (secKeyCacheOwner t))
  end.
Definition Secure_TryDelete (db_node : Hash -> Z -> outcome node) (key : bytes) t : outcome (option MissingNodeError * SecureTrie) :=
  let hk := hashKey key in
  let t := getSecKeyCache t in
  '(err, tr) ← Trie_TryDelete db_node hk (secure_trie t);
  Ok (err, mkSecure tr (base.delete hk (secKeyCache t)) (secKeyCacheOwner t)).
Definition Secure_Hash t : M TrieDB (Hash * SecureTrie) :=
  '(h, tr) ← TrieHash (secure_trie t);
  mret (h, mkSecure tr (secKeyCache t) (secKeyCacheOwner t)).
(** The preimages are written in any order. *)
Definition Secure_Commit (onleaf : bytes -> Hash -> M TrieDB unit) t : M TrieDB (Hash * SecureTrie) :=
  let t := getSecKeyCache t in
  for_each (fun '(hk, key) => insertPreimage (BytesToHash hk) key) (map_to_list (secKeyCache t));;
  '(h, tr) ← Trie_Commit onleaf (secure_trie t);
  mret (h, mkSecure tr ∅ true).
Definition Secure_Copy t : SecureTrie := mkSecure (secure_trie t) (secKeyCache t) false.
End operations.

(** ** A trie with hashed keys is a map *)

(** The hash function has no collisions among keys of one length that are used:
    addresses and words. *)
Definition secure_key (k : bytes) : Prop := bytes_ok k /\ (length k = 20%nat \/ length k = 32%nat).
Class KeyHashes `{Crypto} : Prop :=
  hashKey_inj k k' : secure_key k -> secure_key k' -> length k = length k' -> keccak k = keccak k' -> k = k'.

Section laws.
Context `{Crypto} {CL : CryptoLaws} {KH : KeyHashes}.
Context (db_node : Hash -> Z -> outcome node).
Context (Inv : bool -> nodeFlag -> (bytes -> bytes) -> Prop) `{!FlagInv Inv} `{!Loads db_node Inv}.
Implicit Types (t : SecureTrie) (f : bytes -> bytes).

(** [f] is the map by hashed keys. *)
Definition secure_ok t f : Prop := trie_map db_node Inv (secure_trie t) f.
Lemma hashed_key_ok k : key_ok (hashKey k).
Proof. split; [apply keccak_ok|]. unfold zlen, hashKey. by rewrite keccak_length. Qed.
Lemma secure_get_ok t f k : secure_ok t f -> exists t', Secure_TryGet db_node k t = Ok (f (hashKey k), None, t') /\ secure_ok t' f.
Proof.
  intros Ht. destruct (trie_get_ok db_node Inv _ f _ Ht (hashed_key_ok k)) as (tr & He & Htr). unfold Secure_TryGet. rewrite He. cbn.
  eexists. by split.
Qed.
Lemma secure_update_ok t f k v :
  secure_ok t f -> bytes_ok v -> zlen v < 2 ^ 32 ->
  exists t', Secure_TryUpdate db_node k v t = Ok (None, t') /\ secure_ok t' (upd f (hashKey k) v).
Proof.
  intros Ht Hv Hl. destruct (trie_update_ok db_node Inv _ f _ v Ht (hashed_key_ok k) Hv Hl) as (tr & He & Htr). unfold Secure_TryUpdate. rewrite He. cbn.
  eexists. split; [done|]. unfold secure_ok, getSecKeyCache. cbn. by destruct (secKeyCacheOwner t).
Qed.
Lemma secure_delete_ok t f k :
  secure_ok t f -> exists t', Secure_TryDelete db_node k t = Ok (None, t') /\ secure_ok t' (upd f (hashKey k) []).
Proof.
  intros Ht. assert (secure_trie (getSecKeyCache t) = secure_trie t) as Hg by (unfold getSecKeyCache; by destruct (secKeyCacheOwner t)).
  destruct (trie_delete_ok db_node Inv _ f _ Ht (hashed_key_ok k)) as (tr & He & Htr). unfold Secure_TryDelete. rewrite Hg, He. cbn.
  eexists. by split.
Qed.
End laws.
