(* ===== verification/Transaction.v ===== *)
(** * Transactions and signatures

    Models [core/types/transaction.go], without the set of transactions, and
    [core/types/transaction_signing.go]: the data of a transaction, its
    encoding and hash, the three kinds of signers, the recovery of the sender
    with its cache, and the message a transaction becomes. The caches of the
    hash and of the size hold what they would be computed to and are left
    out; that of the sender depends on the signer and is kept. *)

From S2P Require Import Prelude CommonMath Params Rlp StateIface ConcreteCrypto.
Local Open Scope Z_scope.

(** ** Data *)

Record txdata : Type := mkTxdata {
  AccountNonce : Z;
  Price : Z;
  tx_GasLimit : Z;
  Recipient : option Address;
  Amount : Z;
  Payload : bytes;
  tx_V : Z;
  tx_R : Z;
  tx_S : Z;
}.

Inductive Signer : Type :=
| EIP155Signer (chainId : Z)
| HomesteadSigner
| FrontierSigner.

(** The data and the cache of the sender, [sigCache]. *)
Record Transaction : Type := mkTransaction {
  tx_data : txdata;
  tx_from : option (Signer * Address);
}.

Inductive txError : Type :=
| ErrInvalidChainId
| ErrInvalidSig
| ErrRecover
| ErrInvalidPublicKey.

Definition newTransaction (nonce : Z) (to : option Address) (amount : option Z) (gasLimit : Z)
    (gasPrice : option Z) (data : bytes) : Transaction :=
  mkTransaction (mkTxdata nonce (default 0 gasPrice) gasLimit to (default 0 amount) data 0 0 0) None.
Definition NewTransaction (nonce : Z) (to : Address) (amount : Z) (gasLimit gasPrice : Z) (data : bytes) : Transaction :=
  newTransaction nonce (Some to) (Some amount) gasLimit (Some gasPrice) data.
Definition NewContractCreation (nonce : Z) (amount : Z) (gasLimit gasPrice : Z) (data : bytes) : Transaction :=
  newTransaction nonce None (Some amount) gasLimit (Some gasPrice) data.

Definition isProtectedV (V : Z) : bool :=
  if BitLen V <=? 8 then let v := Uint64 V in negb (v =? 27) && negb (v =? 28) else true.
Definition Protected (tx : Transaction) : bool := isProtectedV (tx_V (tx_data tx)).

(** Division of big integers rounds down for a positive divisor. *)
Definition deriveChainId (v : Z) : Z :=
  if BitLen v <=? 64 then
    let v := Uint64 v in
    if (v =? 27) || (v =? 28) then 0 else u64 (v - 35) / 2
  else (v - 35) / 2.
Definition ChainId (tx : Transaction) : Z := deriveChainId (tx_V (tx_data tx)).

Definition Cost (tx : Transaction) : Z :=
  Price (tx_data tx) * tx_GasLimit (tx_data tx) + Amount (tx_data tx).

(** A nil address is encoded as the empty string. *)
Definition recipient_item (to : option Address) : Item :=
  IBytes (match to with Some a => Address_Bytes a | None => [] end).
(** The fields that every signer signs. *)
Definition unsigned_items (d : txdata) : list Item :=
  [IUint (AccountNonce d); IBig (Price d); IUint (tx_GasLimit d); recipient_item (Recipient d);
   IBig (Amount d); IBytes (Payload d)].

Section signing.
Context `{Crypto}.

(** An error of the encoder leaves the hash of what it has written: nothing,
    because the buffer is flushed at the end. *)
Definition rlpHash (x : Item) : Hash := be_dec (keccak (default [] (EncodeToBytes x))).
Definition Transaction_Hash (tx : Transaction) : Hash :=
  let d := tx_data tx in
  rlpHash (IList (unsigned_items d ++ [IBig (tx_V d); IBig (tx_R d); IBig (tx_S d)])).

(** ** Signers *)

Definition NewEIP155Signer (chainId : option Z) : Signer := EIP155Signer (default 0 chainId).
Definition MakeSigner (config : ChainConfig) (blockNumber : option Z) : Signer :=
  if IsEIP155 config blockNumber then NewEIP155Signer (ChainID config)
  else if IsHomestead config blockNumber then HomesteadSigner
  else FrontierSigner.

Definition Signer_Equal (s s2 : Signer) : bool :=
  match s, s2 with
  | EIP155Signer c, EIP155Signer c2 => c2 =? c
  | HomesteadSigner, HomesteadSigner | FrontierSigner, FrontierSigner => true
  | _, _ => false
  end.

Definition EIP155_Hash (chainId : Z) (tx : Transaction) : Hash :=
  rlpHash (IList (unsigned_items (tx_data tx) ++ [IBig chainId; IUint 0; IUint 0])).
Definition Frontier_Hash (tx : Transaction) : Hash := rlpHash (IList (unsigned_items (tx_data tx))).
Definition Signer_Hash (s : Signer) (tx : Transaction) : Hash :=
  match s with
  | EIP155Signer chainId => EIP155_Hash chainId tx
  | HomesteadSigner | FrontierSigner => Frontier_Hash tx
  end.

(** The values r, s and v of a signature. *)
Definition Frontier_SignatureValues (sig : bytes) : outcome (Z * Z * Z) :=
  if negb (zlen sig =? 65) then Panic (Msg "wrong size for signature")
  else Ok (be_dec (slice sig 0 32), be_dec (slice sig 32 64), u8 (default 0 (zindex sig 64) + 27)).
Definition EIP155_SignatureValues (chainId : Z) (sig : bytes) : outcome (Z * Z * Z) :=
  match Frontier_SignatureValues sig with
  | Ok (R, Sv, V) =>
      if negb (Z.sgn chainId =? 0)
      then Ok (R, Sv, u8 (default 0 (zindex sig 64) + 35) + chainId * 2)
      else Ok (R, Sv, V)
  | Panic r => Panic r
  | OutOfFuel => OutOfFuel
  end.
Definition Signer_SignatureValues (s : Signer) (sig : bytes) : outcome (Z * Z * Z) :=
  match s with
  | EIP155Signer chainId => EIP155_SignatureValues chainId sig
  | HomesteadSigner | FrontierSigner => Frontier_SignatureValues sig
  end.
Definition WithSignature (tx : Transaction) (signer : Signer) (sig : bytes) : outcome Transaction :=
  match Signer_SignatureValues signer sig with
  | Ok (r, s, v) =>
      let d := tx_data tx in
      Ok (mkTransaction (mkTxdata (AccountNonce d) (Price d) (tx_GasLimit d) (Recipient d) (Amount d) (Payload d)
            v r s) None)
  | Panic r => Panic r
  | OutOfFuel => OutOfFuel
  end.

(** The slices panic on numbers of more than 32 bytes. *)
Definition recoverPlain (sighash : Hash) (R S Vb : Z) (homestead : bool) : outcome (txError + Address) :=
  if 8 <? BitLen Vb then Ok (inl ErrInvalidSig)
  else
    let V := u8 (u64 (Uint64 Vb - 27)) in
    if negb (ValidateSignatureValues V R S homestead) then Ok (inl ErrInvalidSig)
    else
      let r := big_bytes R in
      let s := big_bytes S in
      if (32 <? zlen r) || (64 <? zlen s) then Panic Index
      else
        let sig := copy_at (copy_at (zeros 65) (32 - zlen r) (zlen r) r) (64 - zlen s) (zlen s) s in
        let sig := <[64%nat := V]> sig in
        match secp256k1_Ecrecover (Hash_Bytes sighash) sig with
        | None => Ok (inl ErrRecover)
        | Some pub =>
            if (zlen pub =? 0) || negb (default 0 (pub !! 0%nat) =? 4) then Ok (inl ErrInvalidPublicKey)
            else Ok (inr (BytesToAddress (drop 12 (Keccak256 [drop 1 pub]))))
        end.

Definition Frontier_Sender (tx : Transaction) : outcome (txError + Address) :=
  let d := tx_data tx in
  recoverPlain (Frontier_Hash tx) (tx_R d) (tx_S d) (tx_V d) false.
Definition Homestead_Sender (tx : Transaction) : outcome (txError + Address) :=
  let d := tx_data tx in
  recoverPlain (Frontier_Hash tx) (tx_R d) (tx_S d) (tx_V d) true.
Definition EIP155_Sender (chainId : Z) (tx : Transaction) : outcome (txError + Address) :=
  let d := tx_data tx in
  if negb (Protected tx) then Homestead_Sender tx
  else if negb (ChainId tx =? chainId) then Ok (inl ErrInvalidChainId)
  else
    let V := tx_V d - chainId * 2 - 8 in
    recoverPlain (EIP155_Hash chainId tx) (tx_R d) (tx_S d) V true.
Definition Signer_Sender (s : Signer) (tx : Transaction) : outcome (txError + Address) :=
  match s with
  | EIP155Signer chainId => EIP155_Sender chainId tx
  | HomesteadSigner => Homestead_Sender tx
  | FrontierSigner => Frontier_Sender tx
  end.

(** What [Sender] does without the cache, which it fills. *)
Definition Sender_recover (signer : Signer) : M Transaction (txError + Address) := fun tx =>
  match Signer_Sender signer tx with
  | Ok (inl e) => Ok (inl e, tx)
  | Ok (inr addr) => Ok (inr addr, mkTransaction (tx_data tx) (Some (signer, addr)))
  | Panic r => Panic r
  | OutOfFuel => OutOfFuel
  end.
Definition Sender (signer : Signer) : M Transaction (txError + Address) := fun tx =>
  match tx_from tx with
  | Some (s, from) => if Signer_Equal s signer then Ok (inr from, tx) else Sender_recover signer tx
  | None => Sender_recover signer tx
  end.

(** ** What the signers recover *)

(** The signature of a transaction, put together again. *)
Lemma signature_bytes r s v :
  bytes_ok r -> bytes_ok s -> length r = 32%nat -> length s = 32%nat ->
  let rb := big_bytes (be_dec r) in let sb := big_bytes (be_dec s) in
  (zlen rb <= 32 /\ zlen sb <= 32) /\
  <[64%nat := v]> (copy_at (copy_at (zeros 65) (32 - zlen rb) (zlen rb) rb) (64 - zlen sb) (zlen sb) sb) = r ++ s ++ [v].
Proof.
  intros Hr Hs Hrl Hsl rb sb.
  assert (forall b, bytes_ok b -> length b = 32%nat ->
    zlen (big_bytes (be_dec b)) <= 32 /\
    b = zeros (32 - zlen (big_bytes (be_dec b))) ++ big_bytes (be_dec b)) as Hpad.
  { clear. intros b Hb Hl. pose proof (be_dec_bound b Hb) as Hd. rewrite Hl in Hd.
    assert (zlen (big_bytes (be_dec b)) <= 32) as Hz by (apply length_big_bytes_le; [lia..|]; exact (proj2 Hd)).
    split; [done|]. set (k := length (big_bytes (be_dec b))). unfold zlen in *. fold k in Hz. fold k.
    rewrite <- (be_enc_dec b Hb) at 1. rewrite Hl. replace 32%nat with ((32 - k) + k)%nat at 1 by lia.
    rewrite be_enc_app. f_equal.
    - rewrite Z.div_small, be_enc_0; [|].
      + unfold zeros. f_equal. lia.
      + split; [lia|]. rewrite <- (be_dec_big_bytes (be_dec b)) at 1 by lia. unfold k. apply be_dec_bound, big_bytes_ok.
    - unfold k, big_bytes. rewrite length_be_enc. by rewrite Z.abs_eq by lia. }
  destruct (Hpad r Hr Hrl) as [Hzr Her], (Hpad s Hs Hsl) as [Hzs Hes]. fold rb in Hzr, Her. fold sb in Hzs, Hes.
  split; [done|]. clearbody rb sb. pose proof (zlen_nonneg rb). pose proof (zlen_nonneg sb). unfold zlen in *.
  assert (copy_at (zeros 65) (32 - Z.of_nat (length rb)) (Z.of_nat (length rb)) rb = r ++ zeros 33) as ->.
  { unfold copy_at. rewrite Nat2Z.id, (take_ge rb) by lia. rewrite Her. rewrite <- app_assoc. unfold zeros.
    rewrite take_replicate, drop_replicate. f_equal; [f_equal; lia|]. f_equal. f_equal. lia. }
  unfold copy_at. rewrite Nat2Z.id, (take_ge sb) by lia.
  assert (r ++ zeros 33 = (r ++ zeros (32 - Z.of_nat (length sb))) ++ zeros (1 + Z.of_nat (length sb))) as ->.
  { rewrite <- app_assoc. f_equal. unfold zeros. rewrite <- replicate_add. f_equal. lia. }
  assert (length (r ++ zeros (32 - Z.of_nat (length sb))) = Z.to_nat (64 - Z.of_nat (length sb))) as Hl.
  { rewrite length_app. unfold zeros. rewrite length_replicate. lia. }
  rewrite take_app_length' by done. rewrite drop_app_ge by lia. unfold zeros at 3. rewrite drop_replicate.
  replace (Z.to_nat (1 + Z.of_nat (length sb)) - (Z.to_nat (64 - Z.of_nat (length sb)) + length sb - length (r ++ zeros (32 - Z.of_nat (length sb)))))%nat
    with 1%nat by lia.
  rewrite <- app_assoc, (app_assoc (zeros _) sb), <- Hes. rewrite insert_app_r_alt by lia.
  rewrite insert_app_r_alt by lia. rewrite Hrl, Hsl. done.
Qed.

(** The address of a public key, which starts with the byte 4. *)
Definition recovered (pub : option bytes) : outcome (txError + Address) :=
  match pub with
  | None => Ok (inl ErrRecover)
  | Some pub =>
      if (zlen pub =? 0) || negb (default 0 (pub !! 0%nat) =? 4) then Ok (inl ErrInvalidPublicKey)
      else Ok (inr (BytesToAddress (drop 12 (Keccak256 [drop 1 pub]))))
  end.

Lemma Validate_v v r s hs : ValidateSignatureValues v r s hs = true -> v = 0 \/ v = 1.
Proof.
  unfold ValidateSignatureValues. intros Hv. repeat case_match; try done.
  apply andb_prop in Hv as [_ [Hv|Hv]%orb_prop]; apply Z.eqb_eq in Hv; auto.
Qed.

Lemma BitLen_byte x : 0 <= x < 256 -> (BitLen x <=? 8) = true.
Proof. intros Hx. apply Z.leb_le, BitLen_le; lia. Qed.

Lemma recoverPlain_sig h r s v hs :
  bytes_ok r -> bytes_ok s -> length r = 32%nat -> length s = 32%nat ->
  ValidateSignatureValues v (be_dec r) (be_dec s) hs = true ->
  recoverPlain h (be_dec r) (be_dec s) (v + 27) hs = recovered (secp256k1_Ecrecover (Hash_Bytes h) (r ++ s ++ [v])).
Proof.
  intros Hr Hs Hrl Hsl Hval. pose proof (Validate_v _ _ _ _ Hval) as Hv. unfold recoverPlain.
  pose proof (BitLen_byte (v + 27) ltac:(lia)) as Hb. apply Z.leb_le in Hb.
  destruct (Z.ltb_spec 8 (BitLen (v + 27))); [lia|]. rewrite Uint64_id by (unfold is_u64; lia).
  replace (v + 27 - 27) with v by lia. rewrite u64_id, u8_id by (unfold is_u64, is_byte; lia). rewrite Hval. cbn [negb].
  destruct (signature_bytes r s v Hr Hs Hrl Hsl) as [[Hzr Hzs] ->].
  destruct (Z.ltb_spec 32 (zlen (big_bytes (be_dec r)))); [lia|].
  by destruct (Z.ltb_spec 64 (zlen (big_bytes (be_dec s)))); [lia|].
Qed.

(** Recovering never panics: the values of a valid signature fit. *)
Lemma recoverPlain_total h r s v hs : exists x, recoverPlain h r s v hs = Ok x.
Proof.
  unfold recoverPlain. destruct (8 <? BitLen v); [by eexists|]. destruct (ValidateSignatureValues _ r s hs) eqn:Hval; [|by eexists].
  cbn [negb]. unfold ValidateSignatureValues in Hval.
  destruct (Z.ltb_spec r 1), (Z.ltb_spec s 1); try done. cbn [orb] in Hval. destruct (hs && _); [done|].
  apply andb_prop in Hval as [[Hr Hs]%andb_prop _]. apply Z.ltb_lt in Hr, Hs.
  assert (secp256k1N < 2 ^ 256) as Hn by (vm_compute; reflexivity).
  pose proof (length_big_bytes_le r 32 ltac:(lia) ltac:(lia) ltac:(change (8 * 32) with 256; lia)).
  pose proof (length_big_bytes_le s 32 ltac:(lia) ltac:(lia) ltac:(change (8 * 32) with 256; lia)).
  destruct (Z.ltb_spec 32 (zlen (big_bytes r))); [lia|]. destruct (Z.ltb_spec 64 (zlen (big_bytes s))); [lia|]. cbn [orb].
  destruct (secp256k1_Ecrecover _ _); [|by eexists]. case_match; by eexists.
Qed.
Lemma Sender_total signer tx : exists x, Sender signer tx = Ok x.
Proof.
  assert (exists x, Signer_Sender signer tx = Ok x) as [x Hx].
  { unfold Signer_Sender, EIP155_Sender, Homestead_Sender, Frontier_Sender. destruct signer; try apply recoverPlain_total.
    destruct (negb (Protected tx)); [apply recoverPlain_total|]. destruct (negb _); [by eexists|apply recoverPlain_total]. }
  assert (exists y, Sender_recover signer tx = Ok y) as Hrec.
  { unfold Sender_recover. rewrite Hx. destruct x; by eexists. }
  unfold Sender. destruct (tx_from tx) as [[s a]|]; [|exact Hrec]. destruct (Signer_Equal s signer); [by eexists|exact Hrec].
Qed.

(** The chain a replay protected signature is for. *)
Lemma deriveChainId_protected v c : v = 0 \/ v = 1 -> 0 < c -> deriveChainId (v + 35 + c * 2) = c.
Proof.
  intros Hv Hc. unfold deriveChainId. assert ((v + 35 + c * 2 - 35) / 2 = c) as Hd.
  { symmetry. apply Z.div_unique_pos with v; lia. }
  destruct (Z.leb_spec (BitLen (v + 35 + c * 2)) 64) as [Hb|Hb]; [|done].
  apply BitLen_le in Hb; [|lia..]. rewrite Uint64_id by (unfold is_u64; lia).
  destruct (Z.eqb_spec (v + 35 + c * 2) 27); [lia|]. destruct (Z.eqb_spec (v + 35 + c * 2) 28); [lia|].
  cbn [orb]. by rewrite u64_id by (unfold is_u64; lia).
Qed.
Lemma isProtectedV_protected v c : v = 0 \/ v = 1 -> 0 < c -> isProtectedV (v + 35 + c * 2) = true.
Proof.
  intros Hv Hc. unfold isProtectedV. destruct (Z.leb_spec (BitLen (v + 35 + c * 2)) 8) as [Hb|Hb]; [|done].
  apply BitLen_le in Hb; [|lia..]. rewrite Uint64_id by (unfold is_u64; lia).
  destruct (Z.eqb_spec (v + 35 + c * 2) 27); [lia|]. by destruct (Z.eqb_spec (v + 35 + c * 2) 28); [lia|].
Qed.

(** A signature in the format [R || S || V], acceptable to the signer. *)
Definition homestead_rules (s : Signer) : bool := match s with FrontierSigner => false | _ => true end.
Definition chain_ok (s : Signer) : Prop := match s with EIP155Signer c => 0 < c | _ => True end.
Definition signature_ok (s : Signer) (r sv : bytes) (v : Z) : Prop :=
  bytes_ok r /\ bytes_ok sv /\ length r = 32%nat /\ length sv = 32%nat /\
  ValidateSignatureValues v (be_dec r) (be_dec sv) (homestead_rules s) = true.

Lemma SignatureValues_sig signer r sv v :
  signature_ok signer r sv v -> chain_ok signer ->
  Signer_SignatureValues signer (r ++ sv ++ [v]) =
    Ok (be_dec r, be_dec sv, match signer with EIP155Signer c => v + 35 + c * 2 | _ => v + 27 end).
Proof.
  intros (Hr & Hs & Hrl & Hsl & Hval) Hc. pose proof (Validate_v _ _ _ _ Hval) as Hv.
  assert (zindex (r ++ sv ++ [v]) 64 = Some v) as Hi.
  { unfold zindex. change (0 <=? 64) with true. cbn iota. change (Z.to_nat 64) with 64%nat.
    rewrite lookup_app_r, lookup_app_r by lia. by rewrite Hrl, Hsl. }
  assert (Frontier_SignatureValues (r ++ sv ++ [v]) = Ok (be_dec r, be_dec sv, v + 27)) as Hf.
  { unfold Frontier_SignatureValues. rewrite Hi. unfold zlen. rewrite !length_app, Hrl, Hsl. cbn [length].
    change (negb (Z.of_nat (32 + (32 + 1)) =? 65)) with false. cbn iota. rewrite u8_id by (unfold is_byte; cbn; lia).
    unfold slice. change (Z.to_nat (32 - 0)) with 32%nat. change (Z.to_nat 0) with 0%nat. change (Z.to_nat 32) with 32%nat.
    change (Z.to_nat (64 - 32)) with 32%nat. rewrite drop_0, take_app_length', drop_app_length', take_app_length' by done. done. }
  destruct signer as [c| |]; cbn [Signer_SignatureValues]; unfold EIP155_SignatureValues; rewrite Hf; [|done|done]. rewrite Hi. cbn in Hc.
  destruct (Z.eqb_spec (Z.sgn c) 0); [lia|]. cbn [negb default]. by rewrite u8_id by (unfold is_byte; cbn; lia).
Qed.

(** C38. Signing and recovering are inverse: the sender of a transaction that
    carries a signature of its hash is the address of the key that made it,
    for every kind of signer; and a signature for one chain is refused on
    every other chain. The values of the signature are valid for the signer, and
    the chain id of an EIP-155 signer is above 0: with the chain id 0 the sender
    is recovered from another hash ([chain_zero_recovers_other_hash]). *)
Theorem signed_sender signer tx r sv v pub :
  signature_ok signer r sv v -> chain_ok signer ->
  secp256k1_Ecrecover (Hash_Bytes (Signer_Hash signer tx)) (r ++ sv ++ [v]) = Some (4 :: pub) ->
  exists tx', WithSignature tx signer (r ++ sv ++ [v]) = Ok tx' /\
    Signer_Sender signer tx' = Ok (inr (BytesToAddress (drop 12 (Keccak256 [pub])))) /\
    (forall c c', signer = EIP155Signer c -> c' <> c -> Signer_Sender (EIP155Signer c') tx' = Ok (inl ErrInvalidChainId)).
Proof.
  intros Hsig Hc Hrec. pose proof (SignatureValues_sig signer r sv v Hsig Hc) as Hval.
  pose proof Hsig as (Hr & Hs & Hrl & Hsl & Hv). pose proof (Validate_v _ _ _ _ Hv) as Hv01.
  unfold WithSignature. rewrite Hval. eexists. split; [reflexivity|].
  assert (recovered (Some (4 :: pub)) = Ok (inr (BytesToAddress (drop 12 (Keccak256 [pub]))))) as Hpub.
  { unfold recovered. destruct (Z.eqb_spec (zlen (4 :: pub)) 0) as [Hz|_]; [|done].
    rewrite zlen_cons in Hz. pose proof (zlen_nonneg pub). lia. }
  destruct signer as [c| |].
  - unfold Signer_Sender, EIP155_Sender, Protected, ChainId. cbn [tx_data tx_V tx_R tx_S]. cbn in Hc.
    rewrite isProtectedV_protected, deriveChainId_protected by done. cbn [negb]. split.
    + rewrite Z.eqb_refl. cbn [negb]. replace (v + 35 + c * 2 - c * 2 - 8) with (v + 27) by lia.
      rewrite recoverPlain_sig by done. change (EIP155_Hash _ _) with (Signer_Hash (EIP155Signer c) tx). by rewrite Hrec.
    + intros ? c' [= <-] Hne. destruct (Z.eqb_spec c c'); [by subst|done].
  - split; [|done]. unfold Signer_Sender, Homestead_Sender, Frontier_Sender. cbn [tx_data tx_V tx_R tx_S]. rewrite recoverPlain_sig by done.
    change (Frontier_Hash _) with (Signer_Hash HomesteadSigner tx). by rewrite Hrec.
  - split; [|done]. unfold Signer_Sender, Homestead_Sender, Frontier_Sender. cbn [tx_data tx_V tx_R tx_S]. rewrite recoverPlain_sig by done.
    change (Frontier_Hash _) with (Signer_Hash FrontierSigner tx). by rewrite Hrec.
Qed.

(** With the chain id 0, the hash that is signed has nine fields and the one
    that the sender is recovered from has six. *)
Lemma chain_zero_recovers_other_hash tx r sv v :
  signature_ok (EIP155Signer 0) r sv v ->
  exists tx', WithSignature tx (EIP155Signer 0) (r ++ sv ++ [v]) = Ok tx' /\
    Signer_Sender (EIP155Signer 0) tx' =
      recovered (secp256k1_Ecrecover (Hash_Bytes (Signer_Hash HomesteadSigner tx)) (r ++ sv ++ [v])).
Proof.
  intros Hsig. pose proof (SignatureValues_sig HomesteadSigner r sv v Hsig I) as Hval. cbn in Hval.
  destruct Hsig as (Hr & Hs & Hrl & Hsl & Hv). pose proof (Validate_v _ _ _ _ Hv) as Hv01.
  unfold WithSignature. cbn [Signer_SignatureValues]. unfold EIP155_SignatureValues. rewrite Hval. eexists. split; [reflexivity|].
  unfold Signer_Sender, EIP155_Sender, Homestead_Sender, Protected. cbn [tx_data tx_V tx_R tx_S].
  assert (isProtectedV (v + 27) = false) as -> by (destruct Hv01 as [-> | ->]; reflexivity). cbn [negb].
  by rewrite recoverPlain_sig.
Qed.

(** ** The cache of the sender *)

Lemma Signer_Equal_spec s s2 : Signer_Equal s s2 = true -> s = s2.
Proof. destruct s, s2; cbn; try done. intros Hc%Z.eqb_eq. congruence. Qed.

(** The cache holds what its signer recovers. *)
Definition from_ok (tx : Transaction) : Prop :=
  forall s a, tx_from tx = Some (s, a) -> Signer_Sender s tx = Ok (inr a).
Definition same_data (tx tx' : Transaction) : Prop := tx_data tx' = tx_data tx.
Lemma Signer_Sender_data s tx tx' : same_data tx tx' -> Signer_Sender s tx' = Signer_Sender s tx.
Proof. unfold same_data, Signer_Sender, EIP155_Sender, Homestead_Sender, Frontier_Sender, EIP155_Hash, Frontier_Hash, Protected, ChainId. by intros ->. Qed.

(** The cache of the sender never shows: asked by any signer after any
    other, a transaction answers what that signer recovers from its data, and
    keeps its data and the invariant of the cache. *)
Theorem Sender_ignores_cache signer tx :
  from_ok tx ->
  match Signer_Sender signer tx with
  | Ok r => exists tx', Sender signer tx = Ok (r, tx') /\ from_ok tx' /\ tx_data tx' = tx_data tx
  | Panic r => Sender signer tx = Panic r
  | OutOfFuel => Sender signer tx = OutOfFuel
  end.
Proof.
  intros Hok. unfold Sender.
  assert (match Signer_Sender signer tx with
    | Ok r => exists tx', Sender_recover signer tx = Ok (r, tx') /\ from_ok tx' /\ tx_data tx' = tx_data tx
    | Panic r => Sender_recover signer tx = Panic r
    | OutOfFuel => Sender_recover signer tx = OutOfFuel
    end) as Hrec.
  { unfold Sender_recover. destruct (Signer_Sender signer tx) as [[e|a]| |] eqn:Hs; try done; [by exists tx|].
    eexists. split; [reflexivity|]. split; [|done]. intros s' a'. cbn. intros [= <- <-].
    by rewrite (Signer_Sender_data signer tx). }
  destruct (tx_from tx) as [[s a]|] eqn:Hf; [|exact Hrec].
  destruct (Signer_Equal s signer) eqn:He; [|exact Hrec].
  apply Signer_Equal_spec in He as ->. rewrite (Hok _ _ Hf). by exists tx.
Qed.
End signing.

(** ** Examples *)

(** A curve that recovers one key from every signature. *)
Definition one_key_Crypto : Crypto := {|
  keccak := keccak; sha256_Sum256 := sha256_Sum256; ripemd160_Sum := ripemd160_Sum;
  secp256k1_Ecrecover := fun _ _ => Some (4 :: replicate 64 7);
  bn_G1 := unit; bn_G2 := unit; G1_Unmarshal := fun _ => None; G2_Unmarshal := fun _ => None;
  G1_Add := fun _ _ => tt; G1_ScalarMult := fun _ _ => tt; G1_Marshal := fun _ => zeros 64;
  PairingCheck := fun _ _ => true |}.
Definition demo_tx : Transaction := NewTransaction 3 0xb0b 1000 21000 1 [].
Definition demo_r : bytes := be_enc 32 5.
Definition demo_s : bytes := be_enc 32 9.

Lemma signed_sender_witness :
  exists tx', WithSignature demo_tx (EIP155Signer 1) (demo_r ++ demo_s ++ [1]) = Ok tx' /\
    Signer_Sender (H := one_key_Crypto) (EIP155Signer 1) tx' =
      Ok (inr (BytesToAddress (drop 12 (Keccak256 (H := one_key_Crypto) [replicate 64 7])))) /\
    (forall c c', EIP155Signer 1 = EIP155Signer c -> c' <> c ->
       Signer_Sender (H := one_key_Crypto) (EIP155Signer c') tx' = Ok (inl ErrInvalidChainId)).
Proof.
  apply (signed_sender (H := one_key_Crypto) (EIP155Signer 1) demo_tx demo_r demo_s 1 (replicate 64 7)).
  - split_and!; try apply be_enc_ok; try apply length_be_enc. vm_compute. reflexivity.
  - done.
  - reflexivity.
Defined.
Lemma Sender_ignores_cache_witness :
  exists tx', Sender (H := one_key_Crypto) HomesteadSigner demo_tx = Ok (inl ErrInvalidSig, tx') /\
    from_ok (H := one_key_Crypto) tx' /\ tx_data tx' = tx_data demo_tx.
Proof.
  assert (Signer_Sender (H := one_key_Crypto) HomesteadSigner demo_tx = Ok (inl ErrInvalidSig)) as Hs
    by (vm_compute; reflexivity).
  pose proof (Sender_ignores_cache (H := one_key_Crypto) HomesteadSigner demo_tx) as Ht. rewrite Hs in Ht.
  apply Ht. intros s a [=].
Defined.
