(* ===== verification/Receipt.v ===== *)
(** * Receipts and their bloom filters

    Models [core/types/bloom9.go] and the receipts of [core/types/receipt.go]
    as far as transactions create them. A filter is its 256 bytes. *)

From S2P Require Import Prelude CommonMath Rlp StateIface ConcreteCrypto.
Local Open Scope Z_scope.

(** ** receipt.go *)

Abbreviation ReceiptStatusFailed := 0%Z (only parsing).
Abbreviation ReceiptStatusSuccessful := 1%Z (only parsing).

Record Receipt : Type := mkReceipt {
  PostState : bytes;
  Status : Z;
  CumulativeGasUsed : Z;
  r_Bloom : bytes;
  r_Logs : list Log;
  r_TxHash : Hash;
  ContractAddress : Address;
  r_GasUsed : Z;
}.

Abbreviation BloomByteLength := 256%Z (only parsing).

Definition NewReceipt (root : bytes) (failed : bool) (cumulativeGasUsed : Z) : Receipt :=
  mkReceipt root (if failed then ReceiptStatusFailed else ReceiptStatusSuccessful) cumulativeGasUsed
    (zeros BloomByteLength) [] 0 0 0.

(** ** bloom9.go *)

Section bloom.
Context `{Crypto}.

Definition bloom9 (b : bytes) : Z :=
  let b := Keccak256 [b] in
  fold_left (fun r i =>
    let bit := Z.land (default 0 (b !! S i) + Z.shiftl (default 0 (b !! i)) 8) 2047 in
    Z.lor r (Z.shiftl 1 bit)) [0; 2; 4]%nat 0.

(** [None] is the panic on data that is too long. *)
Definition Bloom_SetBytes (d : bytes) (b : bytes) : option bytes :=
  if BloomByteLength <? zlen d then None
  else Some (copy_at b (BloomByteLength - zlen d) (zlen d) d).
Definition BytesToBloom (b : bytes) : option bytes := Bloom_SetBytes b (zeros BloomByteLength).
Definition Bloom_Big (b : bytes) : Z := be_dec b.
Definition Bloom_Add (d : Z) (b : bytes) : option bytes :=
  Bloom_SetBytes (big_bytes (Z.lor (be_dec b) (bloom9 (big_bytes d)))) b.

(** The topic is given by its bytes. *)
Definition BloomLookup (bin : bytes) (topic : bytes) : bool :=
  let cmp := bloom9 topic in
  Z.land (Bloom_Big bin) cmp =? cmp.
Definition Bloom_Test (test : Z) (b : bytes) : bool := BloomLookup b (big_bytes test).
Definition Bloom_TestBytes (test : bytes) (b : bytes) : bool := Bloom_Test (be_dec test) b.

Definition LogsBloom (logs : list Log) : Z :=
  fold_left (fun bin log =>
    let bin := Z.lor bin (bloom9 (Address_Bytes (log_Address log))) in
    fold_left (fun bin b => Z.lor bin (bloom9 (Hash_Bytes b))) (log_Topics log) bin) logs 0.
Definition CreateBloom (receipts : list Receipt) : option bytes :=
  BytesToBloom (big_bytes (fold_left (fun bin receipt => Z.lor bin (LogsBloom (r_Logs receipt))) receipts 0)).

(** ** Filters as sets of bits *)

(** [x] has at most the bits of [y]. *)
Definition bits_in (x y : Z) : Prop := Z.land y x = x.
Definition bloom_int (x : Z) : Prop := 0 <= x < 2 ^ 2048.

Lemma bits_in_refl x : bits_in x x.
Proof. apply Z.land_diag. Qed.
Lemma bits_in_lor_l x y z : bits_in x y -> bits_in x (Z.lor y z).
Proof.
  unfold bits_in. intros Hx. rewrite Z.land_lor_distr_l, Hx. apply Z.bits_inj'. intros n _.
  rewrite Z.lor_spec, Z.land_spec. by destruct (Z.testbit x n), (Z.testbit z n).
Qed.
Lemma bits_in_lor_r x y z : bits_in x z -> bits_in x (Z.lor y z).
Proof. rewrite Z.lor_comm. apply bits_in_lor_l. Qed.
Lemma land_le_r x y : 0 <= x -> 0 <= y -> Z.land x y <= y.
Proof.
  intros Hx Hy. pose proof (Z.add_lor_land x y) as Ha. pose proof (Z.lor_nonneg x y).
  assert (Z.ldiff y x + Z.land x y = y) as He.
  { rewrite Z.add_nocarry_lxor.
    - apply Z.bits_inj'. intros n _. rewrite Z.lxor_spec, Z.ldiff_spec, Z.land_spec.
      by destruct (Z.testbit x n), (Z.testbit y n).
    - apply Z.bits_inj'. intros n _. rewrite Z.land_spec, Z.ldiff_spec, Z.land_spec, Z.bits_0.
      by destruct (Z.testbit x n), (Z.testbit y n). }
  pose proof (proj2 (Z.ldiff_nonneg y x) (or_introl Hy)). lia.
Qed.
Lemma bloom_int_lor x y : bloom_int x -> bloom_int y -> bloom_int (Z.lor x y).
Proof.
  unfold bloom_int. intros Hx Hy. assert (0 <= Z.lor x y) by (apply Z.lor_nonneg; lia). split; [done|].
  destruct (decide (Z.lor x y = 0)) as [->|Hne]; [lia|]. apply Z.log2_lt_pow2; [lia|].
  rewrite Z.log2_lor by lia. apply Z.max_lub_lt.
  - destruct (decide (x = 0)) as [->|]; [done|]. apply Z.log2_lt_pow2; lia.
  - destruct (decide (y = 0)) as [->|]; [done|]. apply Z.log2_lt_pow2; lia.
Qed.
Lemma bloom9_int b : bloom_int (bloom9 b).
Proof.
  unfold bloom9. assert (forall x, bloom_int (Z.shiftl 1 (Z.land x 2047))) as Hs.
  { intros x. change 2047 with (Z.ones 11). rewrite Z.land_ones by lia. pose proof (Z.mod_pos_bound x (2 ^ 11)).
    rewrite Z.shiftl_1_l. split; [apply Z.pow_nonneg; lia|apply Z.pow_lt_mono_r; lia]. }
  cbn [fold_left]. repeat apply bloom_int_lor; [done|apply Hs..].
Qed.

(** A union of integers keeps what it has and gets every part. *)
Lemma union_spec {A} (f : A -> Z) l acc :
  bloom_int acc -> (forall x, bloom_int (f x)) ->
  let r := fold_left (fun bin x => Z.lor bin (f x)) l acc in
  bloom_int r /\ (forall y, bits_in y acc -> bits_in y r) /\ (forall x y, x ∈ l -> bits_in y (f x) -> bits_in y r).
Proof.
  intros Ha Hf. revert acc Ha. induction l as [|x l IH]; intros acc Ha; cbn [fold_left].
  - split; [done|]. split; [done|]. intros x y Hx. by apply elem_of_nil in Hx.
  - destruct (IH (Z.lor acc (f x)) (bloom_int_lor _ _ Ha (Hf x))) as (Hr & Hk & Hall).
    split; [done|]. split; [intros y Hy; by apply Hk, bits_in_lor_l|].
    intros z y [->|Hz]%elem_of_cons Hy; [by apply Hk, bits_in_lor_r|by eapply Hall].
Qed.

(** The bits of one log. *)
Definition log_bits (log : Log) : Z :=
  fold_left (fun bin b => Z.lor bin (bloom9 (Hash_Bytes b))) (log_Topics log)
    (bloom9 (Address_Bytes (log_Address log))).
Lemma log_bits_spec log :
  bloom_int (log_bits log) /\ bits_in (bloom9 (Address_Bytes (log_Address log))) (log_bits log) /\
  (forall t, t ∈ log_Topics log -> bits_in (bloom9 (Hash_Bytes t)) (log_bits log)).
Proof.
  destruct (union_spec (fun b => bloom9 (Hash_Bytes b)) (log_Topics log) _
    (bloom9_int (Address_Bytes (log_Address log))) (fun b => bloom9_int _)) as (Hi & Hk & Hall).
  split; [done|]. split; [apply Hk, bits_in_refl|]. intros t Ht. by apply (Hall t), bits_in_refl.
Qed.
Lemma fold_lor {A} (f : A -> Z) l x y :
  fold_left (fun bin a => Z.lor bin (f a)) l (Z.lor x y) = Z.lor x (fold_left (fun bin a => Z.lor bin (f a)) l y).
Proof. revert y. induction l as [|a l IH]; intros y; cbn; [done|]. by rewrite <- Z.lor_assoc, IH. Qed.
Lemma LogsBloom_union logs : LogsBloom logs = fold_left (fun bin log => Z.lor bin (log_bits log)) logs 0.
Proof.
  unfold LogsBloom. generalize 0. induction logs as [|l logs IH]; intros acc; cbn [fold_left]; [done|].
  rewrite IH. f_equal. unfold log_bits. apply fold_lor.
Qed.
Lemma LogsBloom_spec logs :
  bloom_int (LogsBloom logs) /\ (forall l y, l ∈ logs -> bits_in y (log_bits l) -> bits_in y (LogsBloom logs)).
Proof.
  rewrite LogsBloom_union. destruct (union_spec log_bits logs 0) as (Hi & _ & Hall); [done|apply log_bits_spec|done].
Qed.

(** A filter has the bytes of its integer. *)
Lemma SetBytes_spec b x :
  length b = 256%nat -> bytes_ok b -> bloom_int x -> be_dec b <= x ->
  exists b', Bloom_SetBytes (big_bytes x) b = Some b' /\ length b' = 256%nat /\ bytes_ok b' /\ be_dec b' = x.
Proof.
  intros Hl Hb [Hx0 Hx1] Hle. unfold Bloom_SetBytes.
  assert (zlen (big_bytes x) <= 256) as Hz by (by apply length_big_bytes_le).
  destruct (Z.ltb_spec BloomByteLength (zlen (big_bytes x))); [lia|].
  eexists. split; [reflexivity|]. set (k := length (big_bytes x)). unfold zlen in Hz. fold k in Hz.
  unfold copy_at, zlen. fold k. rewrite Nat2Z.id, (take_ge (big_bytes x)) by lia. fold k.
  replace (Z.to_nat (256 - Z.of_nat k)) with (256 - k)%nat by lia.
  rewrite (drop_ge b), app_nil_r by lia. set (hi := take (256 - k) b).
  assert (length hi = (256 - k)%nat) as Hh by (unfold hi; rewrite length_take; lia).
  split; [rewrite length_app; fold k; lia|]. split; [apply bytes_ok_app; split; [by apply bytes_ok_take|apply big_bytes_ok]|].
  rewrite be_dec_app, be_dec_big_bytes by done. fold k.
  assert (be_dec hi = 0) as ->; [|lia].
  assert (be_dec b = be_dec hi * 256 ^ Z.of_nat k + be_dec (drop (256 - k) b)) as Hbd.
  { unfold hi. rewrite <- (take_drop (256 - k) b) at 1. rewrite be_dec_app, length_drop. do 3 f_equal. lia. }
  pose proof (be_dec_bound _ (bytes_ok_drop (256 - k) _ Hb)) as [Hd0 _].
  pose proof (be_dec_bound _ (bytes_ok_take (256 - k) _ Hb)) as [Hh0 _]. fold hi in Hh0.
  assert (x < 256 ^ Z.of_nat k) as Hxk.
  { rewrite <- (be_dec_big_bytes x) by done. unfold k. apply be_dec_bound, big_bytes_ok. }
  pose proof (pow256_pos k). nia.
Qed.

(** A well-formed filter. *)
Definition bloom_ok (b : bytes) : Prop := length b = 256%nat /\ bytes_ok b.

Lemma BloomLookup_iff b topic : BloomLookup b topic = true <-> bits_in (bloom9 topic) (be_dec b).
Proof. unfold BloomLookup, Bloom_Big, bits_in. apply Z.eqb_eq. Qed.
Lemma zeros_bloom : bloom_ok (zeros BloomByteLength) /\ be_dec (zeros BloomByteLength) = 0.
Proof. split; [split; [done|apply bytes_ok_zeros]|apply be_dec_zeros]. Qed.
Lemma bloom_ok_int b : bloom_ok b -> bloom_int (be_dec b).
Proof. intros [Hl Hb]. unfold bloom_int. pose proof (be_dec_bound b Hb) as Hd. rewrite Hl in Hd. done. Qed.

(** Making a filter never fails, and the filter covers every log. *)
Lemma CreateBloom_covers receipts :
  exists b, CreateBloom receipts = Some b /\ length b = 256%nat /\
    forall r log, r ∈ receipts -> log ∈ r_Logs r ->
      BloomLookup b (Address_Bytes (log_Address log)) = true /\
      (forall t, t ∈ log_Topics log -> BloomLookup b (Hash_Bytes t) = true).
Proof.
  destruct (union_spec (fun r => LogsBloom (r_Logs r)) receipts 0) as (Hi & _ & Hall);
    [done|intros x; apply LogsBloom_spec|].
  destruct zeros_bloom as [[Hzl Hzb] Hz].
  destruct (SetBytes_spec (zeros BloomByteLength) _ Hzl Hzb Hi) as (b & Hb & Hbl & _ & Hd); [rewrite Hz; apply Hi|].
  exists b. split; [exact Hb|]. split; [done|]. intros r log Hr Hlog.
  assert (forall y, bits_in y (log_bits log) -> bits_in y (be_dec b)) as Hin.
  { intros y Hy. rewrite Hd. apply (Hall r y Hr). by apply (proj2 (LogsBloom_spec _) log). }
  destruct (log_bits_spec log) as (_ & Ha & Ht).
  split; [by apply BloomLookup_iff, Hin|]. intros t Htt. by apply BloomLookup_iff, Hin, Ht.
Qed.

(** The bloom filter of a block's receipts has no false negatives: the
    address and every topic of every log are found in it. *)
Theorem CreateBloom_finds_logs receipts r log :
  r ∈ receipts -> log ∈ r_Logs r ->
  exists b, CreateBloom receipts = Some b /\ length b = 256%nat /\
    BloomLookup b (Address_Bytes (log_Address log)) = true /\
    (forall t, t ∈ log_Topics log -> BloomLookup b (Hash_Bytes t) = true).
Proof.
  intros Hr Hlog. destruct (CreateBloom_covers receipts) as (b & Hb & Hl & Hall). exists b.
  destruct (Hall r log Hr Hlog). by split_and!.
Qed.

(** Adding a value to a filter never fails, makes the test for it succeed,
    and keeps every test that succeeded before. *)
Theorem Bloom_Add_Test d b :
  bloom_ok b ->
  exists b', Bloom_Add d b = Some b' /\ bloom_ok b' /\ Bloom_Test d b' = true /\
    forall x, Bloom_Test x b = true -> Bloom_Test x b' = true.
Proof.
  intros Hb. pose proof (bloom_ok_int b Hb) as Hi. destruct Hb as [Hl Hb].
  pose proof (bloom_int_lor _ _ Hi (bloom9_int (big_bytes d))) as Hi'.
  assert (be_dec b <= Z.lor (be_dec b) (bloom9 (big_bytes d))) as Hle.
  { pose proof (Z.add_lor_land (be_dec b) (bloom9 (big_bytes d))) as Ha.
    pose proof (proj1 (bloom9_int (big_bytes d))) as H9. destruct Hi as [Hi _].
    pose proof (Z.land_nonneg (be_dec b) (bloom9 (big_bytes d))).
    assert (Z.land (be_dec b) (bloom9 (big_bytes d)) <= bloom9 (big_bytes d)) by (apply land_le_r; lia). lia. }
  destruct (SetBytes_spec b _ Hl Hb Hi' Hle) as (b' & He & Hl' & Hb' & Hd). exists b'. split; [exact He|].
  split; [done|]. unfold Bloom_Test. split.
  - apply BloomLookup_iff. rewrite Hd. apply bits_in_lor_r, bits_in_refl.
  - intros x Hx. apply BloomLookup_iff. rewrite Hd. by apply bits_in_lor_l, BloomLookup_iff.
Qed.
End bloom.

(** A receipt with one log of two topics. *)
Definition demo_log : Log := mkLog 0xabc [7; 0xffff] [1; 2; 3] 5 0 0 0 0.
Definition demo_receipt : Receipt := mkReceipt [] ReceiptStatusSuccessful 21000 [] [demo_log] 0 0 21000.

Lemma CreateBloom_finds_logs_witness :
  exists b, CreateBloom [demo_receipt] = Some b /\ length b = 256%nat /\
    BloomLookup b (Address_Bytes 0xabc) = true /\
    (forall t, t ∈ [7; 0xffff] -> BloomLookup b (Hash_Bytes t) = true).
Proof.
  apply (CreateBloom_finds_logs [demo_receipt] demo_receipt demo_log); left.
Defined.
Lemma Bloom_Add_Test_witness :
  exists b', Bloom_Add 12345 (zeros 256) = Some b' /\ bloom_ok b' /\ Bloom_Test 12345 b' = true /\
    forall x, Bloom_Test x (zeros 256) = true -> Bloom_Test x b' = true.
Proof. apply (Bloom_Add_Test 12345 (zeros 256)). apply zeros_bloom. Defined.
