(* ===== verification/Machine.v ===== *)
(** * The parts of the virtual machine

    Models [core/vm/errors.go], [core/vm/stack.go], [core/vm/stack_table.go],
    [core/vm/memory.go], [core/vm/memory_table.go], [core/vm/analysis.go] and
    [core/vm/contract.go]: the operand stack, the byte memory and the sizes the
    instructions ask of it, the jump destination analysis and the contract
    environment of a call. *)

From S2P Require Import Prelude CommonMath Params Opcodes.
Local Open Scope Z_scope.

(** ** errors.go

    The errors of the package, with those of [instructions.go],
    [jump_table.go], [contracts.go] and the formatted ones of the interpreter. *)
Inductive Error : Type :=
| ErrOutOfGas
| ErrCodeStoreOutOfGas
| ErrDepth
| ErrTraceLimitReached
| ErrInsufficientBalance
| ErrContractAddressCollision
| ErrNoCompatibleInterpreter
| errWriteProtection
| errReturnDataOutOfBounds
| errExecutionReverted
| errMaxCodeSizeExceeded
| errGasUintOverflow
| errBadPairingInput
| errBadCurvePoint
| StackUnderflow (len want : Z)
| StackLimitReached (len : Z)
| InvalidOpcode (op : Z)
| InvalidJump (nop pos : Z).

#[export] Instance Error_eq_dec : EqDecision Error.
Proof. solve_decision. Defined.

(** ** stack.go

    The data of a stack, top first: Go's [data[len-1-i]] is index [i]. The
    items are numbers rather than pointers to them: an item is reachable from
    one place only while it is on the stack. [None] is an index panic. *)
Abbreviation Stack := (list Z) (only parsing).

Definition newstack : Stack := [].
Definition Stack_push (d : Z) (st : Stack) : Stack := d :: st.
Definition Stack_pushN (ds : list Z) (st : Stack) : Stack := rev ds ++ st.
Definition Stack_pop (st : Stack) : option (Z * Stack) :=
  match st with
  | [] => None
  | ret :: st' => Some (ret, st')
  end.
Definition Stack_len (st : Stack) : Z := zlen st.
Definition Stack_swap (n : Z) (st : Stack) : option Stack :=
  match zindex st (n - 1), zindex st 0 with
  | Some a, Some b => Some (<[0%nat:=a]> (<[Z.to_nat (n - 1):=b]> st))
  | _, _ => None
  end.
Definition Stack_dup (n : Z) (st : Stack) : option Stack :=
  match zindex st (n - 1) with
  | Some a => Some (Stack_push a st)
  | None => None
  end.
Definition Stack_peek (st : Stack) : option Z := zindex st 0.
Definition Stack_Back (n : Z) (st : Stack) : option Z := zindex st n.
Definition Stack_require (n : Z) (st : Stack) : option Error :=
  if Stack_len st <? n then Some (StackUnderflow (Stack_len st) n) else None.

(** ** stack_table.go *)

Definition makeStackFunc (pop push : Z) (stack : Stack) : option Error :=
  match Stack_require pop stack with
  | Some err => Some err
  | None =>
      if StackLimit <? Stack_len stack + push - pop
      then Some (StackLimitReached (Stack_len stack))
      else None
  end.
Definition makeDupStackFunc (n : Z) : Stack -> option Error := makeStackFunc n (n + 1).
Definition makeSwapStackFunc (n : Z) : Stack -> option Error := makeStackFunc n n.

(** ** memory.go *)

Record Memory : Type := mkMemory {
  store : bytes;
  lastGasCost : Z;
}.

Definition NewMemory : Memory := {| store := []; lastGasCost := 0 |}.
Definition set_store (st : bytes) (m : Memory) : Memory :=
  {| store := st; lastGasCost := lastGasCost m |}.

(** [m.store[a:b]]. The capacity of the slice is not modelled, a bound past
    the length panics. *)
Definition Memory_slice (a b : Z) (m : Memory) : option bytes :=
  if (0 <=? a) && (a <=? b) && (b <=? zlen (store m)) then Some (slice (store m) a b) else None.

Definition Memory_Len (m : Memory) : Z := zlen (store m).

Definition Memory_Set (offset size : Z) (value : bytes) : M Memory unit :=
  if 0 <? size then
    m ← gets id;
    if zlen (store m) <? u64 (offset + size) then panic (Msg "invalid memory: store empty")
    else if offset <=? u64 (offset + size)
    then modify (fun m => set_store (copy_at (store m) offset size value) m)
    else panic Index
  else mret tt.

Definition Memory_Set32 (offset val : Z) : M Memory unit :=
  m ← gets id;
  if zlen (store m) <? u64 (offset + 32) then panic (Msg "invalid memory: store empty")
  else if offset <=? u64 (offset + 32) then
    modify (fun m => set_store (copy_at (store m) offset 32 (zeros 32)) m);;
    modify (fun m => set_store
      (copy_at (store m) offset 32 (ReadBits val (slice (store m) offset (offset + 32)))) m)
  else panic Index.

Definition Memory_Resize (size : Z) (m : Memory) : Memory :=
  if Memory_Len m <? size then set_store (store m ++ zeros (size - Memory_Len m)) m else m.

(** [nil] and an empty slice are both the empty list. *)
Definition Memory_Get (offset size : Z) (m : Memory) : option bytes :=
  if size =? 0 then Some []
  else if offset <? zlen (store m) then
    if 0 <=? size then Memory_slice offset (i64 (offset + size)) m else None
  else Some [].
Definition Memory_GetPtr (offset size : Z) (m : Memory) : option bytes :=
  if size =? 0 then Some []
  else if offset <? zlen (store m) then Memory_slice offset (i64 (offset + size)) m
  else Some [].

(** ** memory_table.go *)

Definition memorySizeFunc : Type := Stack -> option Z.

Definition memorySha3 : memorySizeFunc := fun stack =>
  off ← Stack_Back 0 stack; l ← Stack_Back 1 stack; Some (calcMemSize off l).
Definition memoryCallDataCopy : memorySizeFunc := fun stack =>
  off ← Stack_Back 0 stack; l ← Stack_Back 2 stack; Some (calcMemSize off l).
Definition memoryReturnDataCopy : memorySizeFunc := fun stack =>
  off ← Stack_Back 0 stack; l ← Stack_Back 2 stack; Some (calcMemSize off l).
Definition memoryCodeCopy : memorySizeFunc := fun stack =>
  off ← Stack_Back 0 stack; l ← Stack_Back 2 stack; Some (calcMemSize off l).
Definition memoryExtCodeCopy : memorySizeFunc := fun stack =>
  off ← Stack_Back 1 stack; l ← Stack_Back 3 stack; Some (calcMemSize off l).
Definition memoryMLoad : memorySizeFunc := fun stack =>
  off ← Stack_Back 0 stack; Some (calcMemSize off 32).
Definition memoryMStore8 : memorySizeFunc := fun stack =>
  off ← Stack_Back 0 stack; Some (calcMemSize off 1).
Definition memoryMStore : memorySizeFunc := fun stack =>
  off ← Stack_Back 0 stack; Some (calcMemSize off 32).
Definition memoryCreate : memorySizeFunc := fun stack =>
  off ← Stack_Back 1 stack; l ← Stack_Back 2 stack; Some (calcMemSize off l).
Definition memoryCreate2 : memorySizeFunc := fun stack =>
  off ← Stack_Back 1 stack; l ← Stack_Back 2 stack; Some (calcMemSize off l).
Definition memoryCall : memorySizeFunc := fun stack =>
  xo ← Stack_Back 5 stack; xl ← Stack_Back 6 stack;
  yo ← Stack_Back 3 stack; yl ← Stack_Back 4 stack;
  Some (BigMax (calcMemSize xo xl) (calcMemSize yo yl)).
Definition memoryDelegateCall : memorySizeFunc := fun stack =>
  xo ← Stack_Back 4 stack; xl ← Stack_Back 5 stack;
  yo ← Stack_Back 2 stack; yl ← Stack_Back 3 stack;
  Some (BigMax (calcMemSize xo xl) (calcMemSize yo yl)).
Definition memoryStaticCall : memorySizeFunc := fun stack =>
  xo ← Stack_Back 4 stack; xl ← Stack_Back 5 stack;
  yo ← Stack_Back 2 stack; yl ← Stack_Back 3 stack;
  Some (BigMax (calcMemSize xo xl) (calcMemSize yo yl)).
Definition memoryReturn : memorySizeFunc := fun stack =>
  off ← Stack_Back 0 stack; l ← Stack_Back 1 stack; Some (calcMemSize off l).
Definition memoryRevert : memorySizeFunc := fun stack =>
  off ← Stack_Back 0 stack; l ← Stack_Back 1 stack; Some (calcMemSize off l).
Definition memoryLog : memorySizeFunc := fun stack =>
  mSize ← Stack_Back 1 stack; mStart ← Stack_Back 0 stack; Some (calcMemSize mStart mSize).

(** ** analysis.go *)

Abbreviation bitvec := (list Z) (only parsing).

(** [bits[i] |= x], [None] for an index out of range. *)
Definition or_byte (bits : bitvec) (i x : Z) : option bitvec :=
  b ← zindex bits i; Some (<[Z.to_nat i := Z.lor b x]> bits).
Definition bitvec_set (bits : bitvec) (pos : Z) : option bitvec :=
  or_byte bits (pos / 8) (Z.shiftr 0x80 (pos mod 8)).
Definition bitvec_set8 (bits : bitvec) (pos : Z) : option bitvec :=
  bits ← or_byte bits (pos / 8) (Z.shiftr 0xff (pos mod 8));
  or_byte bits (pos / 8 + 1) (0xff - Z.shiftr 0xff (pos mod 8)).
Definition codeSegment (bits : bitvec) (pos : Z) : option bool :=
  b ← zindex bits (pos / 8); Some (Z.land b (Z.shiftr 0x80 (pos mod 8)) =? 0).

(** The two inner loops of [codeBitmap]; [numbits] is at most 32, so
    [fuel = 32] bounds both. They return the position, the vector and what is
    left of [numbits]. *)
Fixpoint set8_loop (fuel : nat) (bits : bitvec) (pc numbits : Z) : option (bitvec * Z * Z) :=
  match fuel with
  | O => None
  | S fuel' =>
      if 8 <=? numbits then
        bits ← bitvec_set8 bits pc; set8_loop fuel' bits (pc + 8) (numbits - 8)
      else Some (bits, pc, numbits)
  end.
Fixpoint set_loop (fuel : nat) (bits : bitvec) (pc numbits : Z) : option (bitvec * Z) :=
  match fuel with
  | O => None
  | S fuel' =>
      if 0 <? numbits then
        bits ← bitvec_set bits pc; set_loop fuel' bits (pc + 1) (numbits - 1)
      else Some (bits, pc)
  end.
(** The outer loop; every round moves [pc], so [len(code) + 1] rounds are
    enough. *)
Fixpoint codeBitmap_loop (fuel : nat) (code : bytes) (bits : bitvec) (pc : Z) : option bitvec :=
  match fuel with
  | O => None
  | S fuel' =>
      if pc <? zlen code then
        op ← zindex code pc;
        if (PUSH1 <=? op) && (op <=? PUSH32) then
          '(bits, pc, numbits) ← set8_loop 32 bits (pc + 1) (op - PUSH1 + 1);
          '(bits, pc) ← set_loop 32 bits pc numbits;
          codeBitmap_loop fuel' code bits pc
        else codeBitmap_loop fuel' code bits (pc + 1)
      else Some bits
  end.
Definition codeBitmap (code : bytes) : option bitvec :=
  codeBitmap_loop (S (length code)) code (zeros (zlen code / 8 + 1 + 4)) 0.

(** ** contract.go *)

(** A reference to the account or to the contract that made a call. Of a
    parent contract the code reads the address, the caller's address and the
    value, none of which change after its creation. *)
Inductive ContractRef : Type :=
| AccountRef (a : Address)
| RefContract (self CallerAddress : Address) (value : option Z).

Definition ContractRef_Address (r : ContractRef) : Address :=
  match r with
  | AccountRef a => a
  | RefContract self _ _ => self
  end.

(** The map of aggregated analyses [jumpdests] is shared by all the contracts
    below one outermost call and is kept with the virtual machine. [nil] for
    the value and the cached analysis is [None]. *)
Record Contract : Type := mkContract {
  CallerAddress : Address;
  caller : ContractRef;
  self : Address;
  analysis : option bitvec;
  Code : bytes;
  CodeHash : Hash;
  CodeAddr : option Address;
  Input : bytes;
  Gas : Z;
  value : option Z;
}.

Definition ref_of (c : Contract) : ContractRef :=
  RefContract (self c) (CallerAddress c) (value c).

Definition set_analysis (x : option bitvec) (c : Contract) : Contract :=
  mkContract (CallerAddress c) (caller c) (self c) x (Code c) (CodeHash c) (CodeAddr c)
    (Input c) (Gas c) (value c).
Definition set_Input (x : bytes) (c : Contract) : Contract :=
  mkContract (CallerAddress c) (caller c) (self c) (analysis c) (Code c) (CodeHash c) (CodeAddr c)
    x (Gas c) (value c).
Definition set_Gas (x : Z) (c : Contract) : Contract :=
  mkContract (CallerAddress c) (caller c) (self c) (analysis c) (Code c) (CodeHash c) (CodeAddr c)
    (Input c) x (value c).

(** The second component is the shared map of the new contract: the parent's,
    or a fresh one for a call from an account. *)
Definition NewContract (caller : ContractRef) (object : Address) (value : option Z) (gas : Z)
    (parent_jumpdests : gmap Z bitvec) : Contract * gmap Z bitvec :=
  ({| CallerAddress := ContractRef_Address caller; caller := caller; self := object;
      analysis := None; Code := []; CodeHash := 0; CodeAddr := None; Input := [];
      Gas := gas; value := value |},
   match caller with
   | RefContract _ _ _ => parent_jumpdests
   | AccountRef _ => ∅
   end).

Definition GetByte (c : Contract) (n : Z) : Z :=
  if n <? zlen (Code c) then default 0 (zindex (Code c) n) else 0.
Definition GetOp (c : Contract) (n : Z) : OpCode := GetByte c n.

(** [analysis.codeSegment] and [codeBitmap] on the analysis for [code]. *)
Definition segment_of {S} (code : bytes) (bits : bitvec) (udest : Z) : M S bool :=
  of_option (BadAnalysis code bits) (codeSegment bits udest).

Definition validJumpdest (dest : Z) : M (Contract * gmap Z bitvec) bool :=
  '(c, jumpdests) ← gets id;
  let udest := Uint64 dest in
  if (63 <=? BitLen dest) || (zlen (Code c) <=? udest) then mret false
  else
    op ← of_option Index (zindex (Code c) udest);
    if negb (op =? JUMPDEST) then mret false
    else if negb (CodeHash c =? 0) then
      match jumpdests !! CodeHash c with
      | Some bits => segment_of (Code c) bits udest
      | None =>
          bits ← of_option Index (codeBitmap (Code c));
          modify (fun '(c, jd) => (c, <[CodeHash c := bits]> jd));;
          segment_of (Code c) bits udest
      end
    else
      match analysis c with
      | Some bits => segment_of (Code c) bits udest
      | None =>
          bits ← of_option Index (codeBitmap (Code c));
          modify (fun '(c, jd) => (set_analysis (Some bits) c, jd));;
          segment_of (Code c) bits udest
      end.

(** The parent of a delegate call must be a contract. *)
Definition AsDelegate (c : Contract) : option Contract :=
  match caller c with
  | AccountRef _ => None
  | RefContract _ pcaller pvalue =>
      Some (mkContract pcaller (caller c) (self c) (analysis c) (Code c) (CodeHash c)
              (CodeAddr c) (Input c) (Gas c) pvalue)
  end.

Definition UseGas (gas : Z) (c : Contract) : bool * Contract :=
  if Gas c <? gas then (false, c) else (true, set_Gas (Gas c - gas) c).

(** [SetCallCode], and [SetCodeOptionalHash] which is the same assignment from
    the fields of a [codeAndHash]. *)
Definition SetCallCode (addr : option Address) (hash : Hash) (code : bytes) (c : Contract) : Contract :=
  mkContract (CallerAddress c) (caller c) (self c) (analysis c) code hash addr
    (Input c) (Gas c) (value c).

Record codeAndHash : Type := mkCodeAndHash { cah_code : bytes; cah_hash : Hash }.
Definition SetCodeOptionalHash (addr : option Address) (cah : codeAndHash) (c : Contract) : Contract :=
  mkContract (CallerAddress c) (caller c) (self c) (analysis c) (cah_code cah) (cah_hash cah) addr
    (Input c) (Gas c) (value c).

(** ** Facts about the jump destination analysis *)

(** Reference definition: which bytes of a program are data. [skip] is the
    number of bytes the last push instruction still takes. *)
Definition push_len (op : Z) : nat :=
  if (PUSH1 <=? op) && (op <=? PUSH32) then Z.to_nat (op - PUSH1 + 1) else O.
Fixpoint data_mask (code : bytes) (skip : nat) : list bool :=
  match code with
  | [] => []
  | b :: rest =>
      match skip with
      | S k => true :: data_mask rest k
      | O => false :: data_mask rest (push_len b)
      end
  end.

(** Bit [i] of a bit vector, most significant bit of a byte first. *)
Definition bit_at (bits : bitvec) (i : Z) : bool :=
  match zindex bits (i / 8) with
  | Some b => Z.testbit b (7 - i mod 8)
  | None => false
  end.

Lemma zindex_Some {A} (l : list A) i : 0 <= i < zlen l -> is_Some (zindex l i).
Proof.
  unfold zindex, zlen. intros. rewrite (proj2 (Z.leb_le 0 i)) by lia.
  apply lookup_lt_is_Some. lia.
Qed.

Lemma zindex_insert (l : bytes) i j x :
  0 <= i < zlen l ->
  zindex (<[Z.to_nat i := x]> l) j = if j =? i then Some x else zindex l j.
Proof.
  unfold zindex, zlen. intros Hi. case (Z.leb_spec 0 j); intros Hj.
  - case (Z.eqb_spec j i) as [->|Hne].
    + apply list_lookup_insert_eq. lia.
    + apply list_lookup_insert_ne. lia.
  - case (Z.eqb_spec j i); [lia|done].
Qed.

Lemma testbit_80 k i : 0 <= k < 8 -> 0 <= i < 8 ->
  Z.testbit (Z.shiftr 0x80 k) (7 - i) = (i =? k).
Proof.
  intros. rewrite Z.shiftr_spec by lia. change 0x80 with (2 ^ 7).
  rewrite Z.pow2_bits_eqb by lia.
  case (Z.eqb_spec i k); intros; [apply Z.eqb_eq|apply Z.eqb_neq]; lia.
Qed.

Lemma testbit_ff n : 0 <= n -> Z.testbit 0xff n = (n <? 8).
Proof. intros. change 0xff with (Z.ones 8). by apply Z.testbit_ones_nonneg. Qed.

Lemma testbit_ff_shift k i : 0 <= k < 8 -> 0 <= i < 8 ->
  Z.testbit (Z.shiftr 0xff k) (7 - i) = (k <=? i).
Proof.
  intros. rewrite Z.shiftr_spec, testbit_ff by lia.
  case (Z.leb_spec k i); intros; [apply Z.ltb_lt|apply Z.ltb_ge]; lia.
Qed.

Lemma testbit_ff_compl k i : 0 <= k < 8 -> 0 <= i < 8 ->
  Z.testbit (0xff - Z.shiftr 0xff k) (7 - i) = (i <? k).
Proof.
  intros.
  assert (k = 0 \/ k = 1 \/ k = 2 \/ k = 3 \/ k = 4 \/ k = 5 \/ k = 6 \/ k = 7) by lia.
  assert (i = 0 \/ i = 1 \/ i = 2 \/ i = 3 \/ i = 4 \/ i = 5 \/ i = 6 \/ i = 7) by lia.
  destruct_or!; subst; by vm_compute.
Qed.

Lemma or_byte_spec bits i x :
  0 <= i < zlen bits -> exists bits', or_byte bits i x = Some bits' /\ zlen bits' = zlen bits /\
    forall j, 0 <= j -> bit_at bits' j = bit_at bits j || (j / 8 =? i) && Z.testbit x (7 - j mod 8).
Proof.
  intros Hi. destruct (zindex_Some bits i Hi) as [b Hb]. unfold or_byte. rewrite Hb. cbn [mbind option_bind].
  eexists; split; [done|]. split; [unfold zlen; by rewrite length_insert|].
  intros j Hj. unfold bit_at. rewrite zindex_insert by done.
  case (Z.eqb_spec (j / 8) i) as [<-|Hne]; cbn; [|by rewrite orb_false_r].
  rewrite Hb. apply Z.lor_spec.
Qed.

Lemma bitvec_set_spec bits pos :
  0 <= pos -> pos / 8 < zlen bits -> exists bits', bitvec_set bits pos = Some bits' /\
    zlen bits' = zlen bits /\ forall j, 0 <= j -> bit_at bits' j = bit_at bits j || (j =? pos).
Proof.
  intros Hp Hl. pose proof (Z.div_pos pos 8 Hp ltac:(lia)).
  destruct (or_byte_spec bits (pos / 8) (Z.shiftr 0x80 (pos mod 8))) as (b' & He & Hlen & Hb); [lia|].
  exists b'. split; [done|]. split; [done|]. intros j Hj. rewrite Hb by done. f_equal.
  pose proof (Z.mod_pos_bound j 8 ltac:(lia)). pose proof (Z.mod_pos_bound pos 8 ltac:(lia)).
  rewrite testbit_80 by lia. pose proof (Z.div_mod j 8). pose proof (Z.div_mod pos 8).
  case (Z.eqb_spec (j / 8) (pos / 8)), (Z.eqb_spec (j mod 8) (pos mod 8)), (Z.eqb_spec j pos);
    try done; exfalso; subst; lia.
Qed.

Lemma bitvec_set8_spec bits pos :
  0 <= pos -> pos / 8 + 1 < zlen bits -> exists bits', bitvec_set8 bits pos = Some bits' /\
    zlen bits' = zlen bits /\
    forall j, 0 <= j -> bit_at bits' j = bit_at bits j || (pos <=? j) && (j <? pos + 8).
Proof.
  intros Hp Hl. pose proof (Z.div_pos pos 8 Hp ltac:(lia)).
  destruct (or_byte_spec bits (pos / 8) (Z.shiftr 0xff (pos mod 8))) as (b1 & He1 & Hlen1 & Hb1); [lia|].
  destruct (or_byte_spec b1 (pos / 8 + 1) (0xff - Z.shiftr 0xff (pos mod 8)))
    as (b2 & He2 & Hlen2 & Hb2); [lia|].
  exists b2. unfold bitvec_set8. rewrite He1. cbn. split; [done|]. split; [lia|]. intros j Hj.
  rewrite Hb2, Hb1, <- orb_assoc by done. f_equal.
  pose proof (Z.mod_pos_bound j 8 ltac:(lia)). pose proof (Z.mod_pos_bound pos 8 ltac:(lia)).
  rewrite testbit_ff_shift, testbit_ff_compl by lia.
  pose proof (Z.div_mod j 8). pose proof (Z.div_mod pos 8).
  destruct (Z.eqb_spec (j / 8) (pos / 8)), (Z.eqb_spec (j / 8) (pos / 8 + 1)),
    (Z.leb_spec (pos mod 8) (j mod 8)), (Z.ltb_spec (j mod 8) (pos mod 8)),
    (Z.leb_spec pos j), (Z.ltb_spec j (pos + 8)); try done; exfalso; lia.
Qed.

Lemma set_loop_spec fuel bits pc n :
  0 <= pc -> 0 <= n < Z.of_nat fuel -> (pc + n) / 8 < zlen bits ->
  exists bits', set_loop fuel bits pc n = Some (bits', pc + n) /\ zlen bits' = zlen bits /\
    forall j, 0 <= j -> bit_at bits' j = bit_at bits j || (pc <=? j) && (j <? pc + n).
Proof.
  revert bits pc n. induction fuel as [|fuel IH]; intros bits pc n Hp Hn Hl; [lia|].
  cbn [set_loop]. case (Z.ltb_spec 0 n); intros H0.
  - pose proof (Z.div_le_mono pc (pc + n) 8 ltac:(lia) ltac:(lia)).
    destruct (bitvec_set_spec bits pc) as (b1 & -> & Hl1 & Hb1); [lia..|]. cbn [mbind option_bind].
    replace (pc + n) with (pc + 1 + (n - 1)) in * by lia.
    destruct (IH b1 (pc + 1) (n - 1)) as (b2 & -> & Hl2 & Hb2); [lia..|].
    exists b2. split; [done|]. split; [lia|]. intros j Hj. rewrite Hb2, Hb1, <- orb_assoc by done.
    f_equal. destruct (Z.eqb_spec j pc), (Z.leb_spec (pc + 1) j), (Z.leb_spec pc j),
      (Z.ltb_spec j (pc + 1 + (n - 1))); try done; exfalso; lia.
  - replace n with 0 by lia. rewrite Z.add_0_r. exists bits. split; [done|]. split; [done|].
    intros j Hj. destruct (Z.leb_spec pc j), (Z.ltb_spec j pc); cbn; try lia; by rewrite orb_false_r.
Qed.

Lemma set8_loop_spec fuel bits pc n :
  0 <= pc -> 0 <= n < 8 * Z.of_nat fuel -> (pc + n) / 8 < zlen bits ->
  exists bits', set8_loop fuel bits pc n = Some (bits', pc + 8 * (n / 8), n mod 8) /\
    zlen bits' = zlen bits /\
    forall j, 0 <= j -> bit_at bits' j = bit_at bits j || (pc <=? j) && (j <? pc + 8 * (n / 8)).
Proof.
  revert bits pc n. induction fuel as [|fuel IH]; intros bits pc n Hp Hn Hl; [lia|].
  cbn [set8_loop]. case (Z.leb_spec 8 n); intros H0.
  - assert (pc / 8 + 1 <= (pc + n) / 8).
    { rewrite <- Z.div_add by lia. apply Z.div_le_mono; lia. }
    destruct (bitvec_set8_spec bits pc) as (b1 & -> & Hl1 & Hb1); [lia..|]. cbn [mbind option_bind].
    replace (pc + n) with (pc + 8 + (n - 8)) in * by lia.
    destruct (IH b1 (pc + 8) (n - 8)) as (b2 & -> & Hl2 & Hb2); [lia..|].
    replace ((n - 8) / 8) with (n / 8 - 1) in *
      by (replace (n - 8) with (n + (-1) * 8) by lia; rewrite Z.div_add; lia).
    replace ((n - 8) mod 8) with (n mod 8)
      by (replace (n - 8) with (n + (-1) * 8) by lia; rewrite Z.mod_add; lia).
    replace (pc + 8 + 8 * (n / 8 - 1)) with (pc + 8 * (n / 8)) in * by lia.
    exists b2. split; [done|]. split; [lia|]. intros j Hj. rewrite Hb2, Hb1, <- orb_assoc by done.
    f_equal. assert (1 <= n / 8) by (apply Z.div_le_lower_bound; lia).
    destruct (Z.leb_spec (pc + 8) j), (Z.leb_spec pc j), (Z.ltb_spec j (pc + 8)),
      (Z.ltb_spec j (pc + 8 * (n / 8))); try done; exfalso; lia.
  - rewrite Z.div_small, Z.mod_small by lia. rewrite Z.mul_0_r, Z.add_0_r.
    exists bits. split; [done|]. split; [done|].
    intros j Hj. destruct (Z.leb_spec pc j), (Z.ltb_spec j pc); cbn; try lia; by rewrite orb_false_r.
Qed.

Lemma length_data_mask code skip : length (data_mask code skip) = length code.
Proof. revert skip. induction code as [|b code IH]; intros [|k]; cbn; auto. Qed.

Lemma data_mask_skip code n i :
  data_mask code n !! i =
  if decide (i < n)%nat then (fun _ => true) <$> code !! i
  else data_mask (drop n code) 0 !! (i - n)%nat.
Proof.
  revert n i. induction code as [|b code IH]; intros n i.
  - rewrite drop_nil. cbn. by destruct (decide _).
  - destruct n as [|k]; cbn [data_mask drop].
    + rewrite Nat.sub_0_r. by destruct (decide (i < 0)%nat); [lia|].
    + destruct i as [|i]; [by cbn|]. cbn [lookup list_lookup Nat.sub]. rewrite IH.
      repeat destruct (decide _); try lia; done.
Qed.

(** What is known at the head of the outer loop: the bits below [pc] say which
    bytes are data, [tail] is the mask of the rest of the program and the bits
    from [pc] on are clear. *)
Definition analysed (code : bytes) (bits : bitvec) (pc : Z) : Prop :=
  0 <= pc /\ zlen bits = zlen code / 8 + 5 /\
  (forall j, 0 <= j < pc -> j < zlen code ->
     data_mask code 0 !! Z.to_nat j = Some (bit_at bits j)) /\
  (forall j, pc <= j -> bit_at bits j = false) /\
  (forall j, pc <= j -> data_mask code 0 !! Z.to_nat j =
     data_mask (drop (Z.to_nat pc) code) 0 !! Z.to_nat (j - pc)).

Lemma analysed_step code bits bits' pc op :
  analysed code bits pc -> pc < zlen code -> zindex code pc = Some op ->
  zlen bits' = zlen bits ->
  (forall j, 0 <= j -> bit_at bits' j =
     bit_at bits j || (pc + 1 <=? j) && (j <? pc + 1 + Z.of_nat (push_len op))) ->
  analysed code bits' (pc + 1 + Z.of_nat (push_len op)).
Proof.
  intros (H0 & Hl & Hdone & Hclear & Hrest) Hpc Hop Hl' Hb.
  unfold zindex in Hop. rewrite (proj2 (Z.leb_le 0 pc)) in Hop by lia.
  assert (Hm : forall j, pc <= j -> data_mask code 0 !! Z.to_nat j =
            (false :: data_mask (drop (S (Z.to_nat pc)) code) (push_len op)) !! Z.to_nat (j - pc)).
  { intros j Hj. rewrite Hrest by done. by rewrite (drop_S _ _ _ Hop). }
  split; [lia|]. split; [lia|]. split; [|split].
  - intros j Hj Hjl. rewrite Hb by lia. destruct (Z.lt_ge_cases j pc).
    + rewrite Hdone by lia. f_equal. destruct (Z.leb_spec (pc + 1) j); [lia|].
      cbn. by rewrite orb_false_r.
    + rewrite Hm, Hclear by lia. cbn [orb].
      destruct (decide (j = pc)) as [->|Hne].
      * rewrite Z.sub_diag. cbn. f_equal. destruct (Z.leb_spec (pc + 1) pc); [lia|done].
      * replace (Z.to_nat (j - pc)) with (S (Z.to_nat (j - pc - 1))) by lia.
        cbn [lookup list_lookup]. rewrite data_mask_skip, decide_True by lia.
        rewrite lookup_drop.
        destruct (lookup_lt_is_Some_2 code (S (Z.to_nat pc) + Z.to_nat (j - pc - 1))) as [x ->];
          [unfold zlen in *; lia|].
        cbn. f_equal. destruct (Z.leb_spec (pc + 1) j), (Z.ltb_spec j (pc + 1 + Z.of_nat (push_len op)));
          try lia; done.
  - intros j Hj. rewrite Hb, Hclear by lia.
    destruct (Z.ltb_spec j (pc + 1 + Z.of_nat (push_len op))); [lia|]. by rewrite andb_false_r.
  - intros j Hj. rewrite Hm by lia.
    replace (Z.to_nat (j - pc)) with (S (Z.to_nat (j - pc - 1))) by lia.
    cbn [lookup list_lookup]. rewrite data_mask_skip, decide_False by lia.
    rewrite drop_drop. f_equal; [lia|]. f_equal. f_equal. lia.
Qed.

Lemma codeBitmap_loop_spec fuel code bits pc :
  analysed code bits pc -> Z.max 0 (zlen code - pc) < Z.of_nat fuel ->
  exists bits', codeBitmap_loop fuel code bits pc = Some bits' /\
    zlen bits' = zlen code / 8 + 5 /\
    forall j, 0 <= j < zlen code -> data_mask code 0 !! Z.to_nat j = Some (bit_at bits' j).
Proof.
  revert bits pc. induction fuel as [|fuel IH]; intros bits pc Ha Hf;
    pose proof Ha as (H0 & Hl & Hdone & Hclear & Hrest).
  { lia. }
  cbn [codeBitmap_loop]. case (Z.ltb_spec pc (zlen code)); intros Hpc.
  2:{ exists bits. split; [done|]. split; [done|]. intros j Hj. apply Hdone; lia. }
  destruct (zindex_Some code pc) as [op Hop]; [lia|]. rewrite Hop. cbn [mbind option_bind].
  destruct ((PUSH1 <=? op) && (op <=? PUSH32)) eqn:Hpush.
  2:{ apply IH; [|lia].
      replace (pc + 1) with (pc + 1 + Z.of_nat (push_len op)) by (unfold push_len; rewrite Hpush; lia).
      eapply analysed_step; [done..|]. intros j Hj. unfold push_len. rewrite Hpush.
      destruct (Z.leb_spec (pc + 1) j), (Z.ltb_spec j (pc + 1 + Z.of_nat 0)); cbn; try lia;
        by rewrite orb_false_r. }
  set (n := op - PUSH1 + 1).
  assert (0 <= n <= 32 /\ n = Z.of_nat (push_len op)) as [Hn Hn1].
  { unfold push_len. rewrite Hpush. apply andb_true_iff in Hpush as [H1%Z.leb_le H2%Z.leb_le].
    unfold n in *. lia. }
  assert (Hspace : (pc + 1 + n) / 8 <= zlen code / 8 + 4).
  { replace (zlen code / 8 + 4) with ((zlen code + 4 * 8) / 8) by (rewrite Z.div_add; lia).
    apply Z.div_le_mono; lia. }
  pose proof (Z.div_mod n 8 ltac:(lia)). pose proof (Z.mod_pos_bound n 8 ltac:(lia)).
  destruct (set8_loop_spec 32 bits (pc + 1) n) as (b1 & -> & Hl1 & Hb1); [lia..|].
  cbn [mbind option_bind].
  destruct (set_loop_spec 32 b1 (pc + 1 + 8 * (n / 8)) (n mod 8)) as (b2 & -> & Hl2 & Hb2);
    [lia | lia | replace (pc + 1 + 8 * (n / 8) + n mod 8) with (pc + 1 + n) by lia; lia |].
  cbn [mbind option_bind].
  replace (pc + 1 + 8 * (n / 8) + n mod 8) with (pc + 1 + Z.of_nat (push_len op)) in * by lia.
  apply IH; [|lia]. eapply analysed_step; [done|done|done|lia|].
  intros j Hj. rewrite Hb2, Hb1, <- orb_assoc by done. f_equal.
  destruct (Z.leb_spec (pc + 1) j), (Z.ltb_spec j (pc + 1 + 8 * (n / 8))),
    (Z.leb_spec (pc + 1 + 8 * (n / 8)) j), (Z.ltb_spec j (pc + 1 + Z.of_nat (push_len op)));
    try done; exfalso; lia.
Qed.

Lemma bit_at_zeros n i : bit_at (zeros n) i = false.
Proof.
  unfold bit_at, zindex, zeros. case (Z.leb_spec 0 (i / 8)); intros; [|done].
  destruct (decide (Z.to_nat (i / 8) < Z.to_nat n)%nat).
  - rewrite lookup_replicate_2 by done. apply Z.testbit_0_l.
  - rewrite lookup_ge_None_2; [done|]. rewrite length_replicate. lia.
Qed.

Lemma codeBitmap_spec code :
  exists bits, codeBitmap code = Some bits /\ zlen bits = zlen code / 8 + 5 /\
    forall j, 0 <= j < zlen code -> data_mask code 0 !! Z.to_nat j = Some (bit_at bits j).
Proof.
  pose proof (zlen_nonneg code). apply codeBitmap_loop_spec; [|unfold zlen; lia].
  split; [lia|]. split; [rewrite zlen_zeros; [lia|]; pose proof (Z.div_pos (zlen code) 8); lia|].
  split; [lia|]. split; [intros; apply bit_at_zeros|].
  intros j Hj. by rewrite Z.sub_0_r.
Qed.

Lemma land_80 b k : 0 <= k < 8 ->
  (Z.land b (Z.shiftr 0x80 k) =? 0) = negb (Z.testbit b (7 - k)).
Proof.
  intros Hk. replace (Z.shiftr 0x80 k) with (2 ^ (7 - k)).
  2:{ rewrite Z.shiftr_div_pow2 by lia. change 0x80 with (2 ^ 7). by rewrite <- Z.pow_sub_r by lia. }
  destruct (Z.testbit b (7 - k)) eqn:Hb; cbn.
  - apply Z.eqb_neq. intros He. apply (f_equal (fun x => Z.testbit x (7 - k))) in He.
    rewrite Z.land_spec, Hb, Z.pow2_bits_true, Z.testbit_0_l in He by lia. done.
  - apply Z.eqb_eq. apply Z.bits_inj'. intros i Hi. rewrite Z.land_spec, Z.testbit_0_l.
    destruct (decide (i = 7 - k)) as [->|Hne]; [by rewrite Hb|].
    by rewrite Z.pow2_bits_false, andb_false_r by lia.
Qed.

Lemma codeSegment_spec bits i :
  0 <= i -> i / 8 < zlen bits -> codeSegment bits i = Some (negb (bit_at bits i)).
Proof.
  intros Hi Hl. pose proof (Z.div_pos i 8 Hi ltac:(lia)).
  destruct (zindex_Some bits (i / 8)) as [b Hb]; [lia|].
  unfold codeSegment, bit_at. rewrite Hb. cbn [mbind option_bind].
  rewrite land_80; [done|]. by apply Z.mod_pos_bound.
Qed.

(** The analysis marks exactly the bytes that are arguments of push
    instructions: for every program it terminates without leaving its bit
    vector, and for every position of the program the segment test agrees with
    the byte-by-byte reference walk [data_mask]. *)
Theorem codeBitmap_correct code :
  exists bits, codeBitmap code = Some bits /\
    forall i, 0 <= i < zlen code ->
      exists d, data_mask code 0 !! Z.to_nat i = Some d /\ codeSegment bits i = Some (negb d).
Proof.
  destruct (codeBitmap_spec code) as (bits & Hb & Hl & Hm). exists bits. split; [done|].
  intros i Hi. exists (bit_at bits i). split; [by apply Hm|]. apply codeSegment_spec; [lia|].
  pose proof (Z.div_le_mono i (zlen code) 8). lia.
Qed.

(** A position a program may jump to: a JUMPDEST that is not an argument of a
    push instruction. *)
Definition jump_target (code : bytes) (dest : Z) : bool :=
  (dest <? zlen code) && bool_decide (code !! Z.to_nat dest = Some JUMPDEST) &&
  bool_decide (data_mask code 0 !! Z.to_nat dest = Some false).

(** The analyses kept for a contract, with its hash or in the contract itself,
    are those of its code. *)
Definition analyses_ok (c : Contract) (jd : gmap Z bitvec) : Prop :=
  (CodeHash c <> 0 -> forall bits, jd !! CodeHash c = Some bits -> codeBitmap (Code c) = Some bits) /\
  (forall bits, analysis c = Some bits -> codeBitmap (Code c) = Some bits).

Lemma segment_correct {S} code bits dest (s : S) :
  codeBitmap code = Some bits -> 0 <= dest < zlen code ->
  segment_of code bits dest s = Ok (bool_decide (data_mask code 0 !! Z.to_nat dest = Some false), s).
Proof.
  intros Hb Hd. destruct (codeBitmap_spec code) as (bits' & Hb' & Hl & Hm). rewrite Hb in Hb'. injection Hb' as <-.
  unfold segment_of. rewrite (Hm dest Hd), codeSegment_spec; [|lia|pose proof (Z.div_le_mono dest (zlen code) 8); lia].
  cbn. by destruct (bit_at bits dest).
Qed.

Lemma jump_in_range dest (code : bytes) :
  0 <= dest -> zlen code < 2 ^ 62 ->
  (63 <=? BitLen dest) || (zlen code <=? Uint64 dest) = negb (dest <? zlen code).
Proof.
  intros Hd Hl. pose proof (BitLen_le dest 62) as Hb. unfold Uint64. rewrite Z.abs_eq by done.
  destruct (Z.leb_spec 63 (BitLen dest)), (Z.ltb_spec dest (zlen code)); cbn [orb negb]; try done.
  - exfalso. assert (BitLen dest <= 62) by (apply Hb; lia). lia.
  - apply Z.leb_gt. rewrite u64_id by (unfold is_u64; lia). lia.
  - apply Z.leb_le. rewrite u64_id; [lia|]. unfold is_u64. assert (dest < 2 ^ 62) by (apply Hb; lia). lia.
Qed.

(** Whether a jump is accepted does not depend on what has been cached: the
    test says exactly whether the target is an instruction JUMPDEST, it does
    not panic, and what it caches is again the analysis of the code. *)
Theorem validJumpdest_correct dest c jd :
  0 <= dest -> zlen (Code c) < 2 ^ 62 -> analyses_ok c jd ->
  exists c' jd', validJumpdest dest (c, jd) = Ok (jump_target (Code c) dest, (c', jd')) /\
    Code c' = Code c /\ CodeHash c' = CodeHash c /\ analyses_ok c' jd'.
Proof.
  intros Hd Hl Hok. unfold validJumpdest, jump_target, gets, mbind, M_bind. cbn [id].
  rewrite jump_in_range by done. destruct (Z.ltb_spec dest (zlen (Code c))) as [Hlt|Hge]; cbn [negb].
  2: { exists c, jd. done. }
  unfold Uint64. rewrite Z.abs_eq, u64_id by (unfold is_u64; lia).
  destruct (zindex_Some (Code c) dest) as [op Hop]; [lia|]. rewrite Hop. cbn [of_option].
  unfold zindex in Hop. rewrite (proj2 (Z.leb_le 0 dest) Hd) in Hop. rewrite Hop. unfold mret, M_ret. cbn beta iota.
  destruct (Z.eqb_spec op JUMPDEST) as [->|Hne]; cbn [negb].
  2: { exists c, jd. rewrite (bool_decide_eq_false_2 (Some op = Some JUMPDEST)) by congruence. done. }
  rewrite bool_decide_eq_true_2 by done. cbn [andb].
  assert (forall bits c' jd', codeBitmap (Code c) = Some bits -> Code c' = Code c -> CodeHash c' = CodeHash c ->
    analyses_ok c' jd' -> exists c1 jd1,
      segment_of (Code c) bits dest (c', jd') =
        Ok (bool_decide (data_mask (Code c) 0 !! Z.to_nat dest = Some false), (c1, jd1)) /\
      Code c1 = Code c /\ CodeHash c1 = CodeHash c /\ analyses_ok c1 jd1) as Hseg.
  { intros bits c' jd' Hb Hc1 Hc2 Hok'. exists c', jd'. by rewrite segment_correct by done. }
  destruct (codeBitmap_spec (Code c)) as (bits & Hb & _). pose proof Hok as [Hj Ha].
  destruct (Z.eqb_spec (CodeHash c) 0) as [Hh|Hh]; cbn [negb].
  - destruct (analysis c) as [bits'|] eqn:Han; [by apply Hseg; [apply Ha|..]|].
    rewrite Hb. cbn. apply Hseg; try done. split; [done|]. by intros b [= <-].
  - destruct (jd !! CodeHash c) as [bits'|] eqn:Hjd; [by apply Hseg; [apply Hj|..]|].
    rewrite Hb. cbn. apply Hseg; try done. split; [|done]. intros _ b. by rewrite lookup_insert_eq; intros [= <-].
Qed.

(** PUSH1 with the value of a JUMPDEST as its argument, then a JUMPDEST. *)
Definition tricky_code : bytes := [PUSH1; JUMPDEST; JUMPDEST].
Definition tricky_contract : Contract :=
  SetCallCode (Some 1) 5 tricky_code (fst (NewContract (AccountRef 2) 1 (Some 0) 100 ∅)).

Lemma validJumpdest_correct_witness :
  exists c' jd', validJumpdest 1 (tricky_contract, ∅) = Ok (false, (c', jd')) /\ Code c' = tricky_code.
Proof.
  destruct (validJumpdest_correct 1 tricky_contract ∅) as (c' & jd' & Hv & Hc & _);
    [done|done|split; [intros _ bits; by rewrite lookup_empty|done]|].
  exists c', jd'. split; [exact Hv|exact Hc].
Defined.
