(* ===== verification/EvmTypes.v ===== *)
(** * The state of the virtual machine

    The records of [core/vm/evm.go] and [core/vm/interpreter.go]: the context
    and configuration a virtual machine is created with ([Env]), its changing
    part together with that of its interpreter ([EVM]), and the locals of one
    interpreter loop ([Frame]). *)

From S2P Require Import Prelude CommonMath Params StateIface Machine.
Local Open Scope Z_scope.

(** ** Context and configuration *)

(** [vm.Context]. The transfer functions act on the state database. *)
Record Context (S : Type) : Type := mkContext {
  CanTransfer : Address -> Z -> M S bool;
  Transfer : Address -> Address -> Z -> M S unit;
  GetHash : Z -> Hash;
  Origin : Address;
  GasPrice : Z;
  Coinbase : Address;
  GasLimit : Z;
  BlockNumber : Z;
  Time : Z;
  Difficulty : Z;
}.
Arguments mkContext {S}.
Arguments CanTransfer {S}.
Arguments Transfer {S}.
Arguments GetHash {S}.
Arguments Origin {S}.
Arguments GasPrice {S}.
Arguments Coinbase {S}.
Arguments GasLimit {S}.
Arguments BlockNumber {S}.
Arguments Time {S}.
Arguments Difficulty {S}.

(** [vm.Config] without the tracer, and with the jump table left to the
    default. *)
Record Config : Type := mkConfig {
  NoRecursion : bool;
  EnablePreimageRecording : bool;
}.

(** What does not change while a virtual machine runs. [abort n] is what the
    [n]-th load of the abort flag returns: the flag may be set at any time by
    [Cancel] in another thread. *)
Record Env (S : Type) : Type := mkEnv {
  context : Context S;
  chainConfig : ChainConfig;
  vmConfig : Config;
  abort : nat -> bool;
}.
Arguments mkEnv {S}.
Arguments context {S}.
Arguments chainConfig {S}.
Arguments vmConfig {S}.
Arguments abort {S}.

Definition number {S} (env : Env S) : option Z := Some (BlockNumber (context env)).
(** Computed once by [NewEVM] and [NewEVMInterpreter]. *)
Definition chainRules {S} (env : Env S) : Rules := ChainConfig_Rules (chainConfig env) (number env).
Definition gasTable {S} (env : Env S) : GasTable := ChainConfig_GasTable (chainConfig env) (number env).

(** ** The changing parts *)

(** [vm.EVM] with the interpreter's read-only flag and return data, and the map
    of jump destination analyses shared by the contracts of a call. [loads]
    counts the reads of the abort flag. *)
Record EVM (S : Type) : Type := mkEVM {
  statedb : S;
  depth : Z;
  callGasTemp : Z;
  readOnly : bool;
  returnData : bytes;
  jumpdests : gmap Z (list Z);
  loads : nat;
}.
Arguments mkEVM {S}.
Arguments statedb {S}.
Arguments depth {S}.
Arguments callGasTemp {S}.
Arguments readOnly {S}.
Arguments returnData {S}.
Arguments jumpdests {S}.
Arguments loads {S}.

(** The locals of [EVMInterpreter.Run]. *)
Record Frame (S : Type) : Type := mkFrame {
  pc : Z;
  contract : Contract;
  memory : Memory;
  stack : list Z;
  evm : EVM S;
}.
Arguments mkFrame {S}.
Arguments pc {S}.
Arguments contract {S}.
Arguments memory {S}.
Arguments stack {S}.
Arguments evm {S}.

Section setters.
Context {S : Type}.
Implicit Types (e : EVM S) (f : Frame S).

Definition set_statedb (x : S) (e : EVM S) : EVM S :=
  mkEVM x (depth e) (callGasTemp e) (readOnly e) (returnData e) (jumpdests e) (loads e).
Definition set_depth (x : Z) (e : EVM S) : EVM S :=
  mkEVM (statedb e) x (callGasTemp e) (readOnly e) (returnData e) (jumpdests e) (loads e).
Definition set_callGasTemp (x : Z) (e : EVM S) : EVM S :=
  mkEVM (statedb e) (depth e) x (readOnly e) (returnData e) (jumpdests e) (loads e).
Definition set_readOnly (x : bool) (e : EVM S) : EVM S :=
  mkEVM (statedb e) (depth e) (callGasTemp e) x (returnData e) (jumpdests e) (loads e).
Definition set_returnData (x : bytes) (e : EVM S) : EVM S :=
  mkEVM (statedb e) (depth e) (callGasTemp e) (readOnly e) x (jumpdests e) (loads e).
Definition set_jumpdests (x : gmap Z (list Z)) (e : EVM S) : EVM S :=
  mkEVM (statedb e) (depth e) (callGasTemp e) (readOnly e) (returnData e) x (loads e).
Definition set_loads (x : nat) (e : EVM S) : EVM S :=
  mkEVM (statedb e) (depth e) (callGasTemp e) (readOnly e) (returnData e) (jumpdests e) x.

Definition set_pc (x : Z) (f : Frame S) : Frame S :=
  mkFrame x (contract f) (memory f) (stack f) (evm f).
Definition set_contract (x : Contract) (f : Frame S) : Frame S :=
  mkFrame (pc f) x (memory f) (stack f) (evm f).
Definition set_memory (x : Memory) (f : Frame S) : Frame S :=
  mkFrame (pc f) (contract f) x (stack f) (evm f).
Definition set_stack (x : list Z) (f : Frame S) : Frame S :=
  mkFrame (pc f) (contract f) (memory f) x (evm f).
Definition set_evm (x : EVM S) (f : Frame S) : Frame S :=
  mkFrame (pc f) (contract f) (memory f) (stack f) x.

(** Code of one part run inside a larger one. *)
Definition on_db {A} (m : M S A) : M (EVM S) A := zoom statedb set_statedb m.
Definition on_evm {A} (m : M (EVM S) A) : M (Frame S) A := zoom evm set_evm m.
Definition on_memory {A} (m : M Memory A) : M (Frame S) A := zoom memory set_memory m.
Definition db {A} (m : M S A) : M (Frame S) A := on_evm (on_db m).

(** The operations of the frame's stack: pop, push, peek, the item at a depth
    and an update of the peeked item in place. *)
Definition pop : M (Frame S) Z :=
  st ← gets stack;
  '(x, st) ← of_option Index (Stack_pop st);
  modify (set_stack st);; mret x.
Definition push (x : Z) : M (Frame S) unit :=
  modify (fun f => set_stack (Stack_push x (stack f)) f).
Definition peek : M (Frame S) Z := st ← gets stack; of_option Index (Stack_peek st).
Definition back (n : Z) : M (Frame S) Z := st ← gets stack; of_option Index (Stack_Back n st).
Definition poke (x : Z) : M (Frame S) unit := pop;; push x.
End setters.

(** The type of [Interpreter.Run] on the changing state: the result, the error
    and the contract, whose gas the caller reads. *)
Definition RunFunc (S : Type) : Type :=
  Contract -> bytes -> bool -> M (EVM S) (bytes * option Error * Contract).
