(* ===== verification/Precompiles.v ===== *)
(** * Precompiled contracts

    Models [core/vm/contracts.go]: the native contracts, their gas and the two
    tables that say at which addresses they live. The curve and hash functions
    are those of [Crypto]. *)

From S2P Require Import Prelude CommonMath Params Rlp StateIface Opcodes Machine.
From Stdlib Require Import Zpow_facts.
Local Open Scope Z_scope.

(** One constructor per type that implements the interface. *)
Inductive PrecompiledContract : Type :=
| ecrecover
| sha256hash
| ripemd160hash
| dataCopy
| bigModExp
| bn256Add
| bn256ScalarMul
| bn256Pairing.

Definition PrecompiledContractsHomestead : list (Address * PrecompiledContract) :=
  [(BytesToAddress [1], ecrecover);
   (BytesToAddress [2], sha256hash);
   (BytesToAddress [3], ripemd160hash);
   (BytesToAddress [4], dataCopy)].
Definition PrecompiledContractsByzantium : list (Address * PrecompiledContract) :=
  [(BytesToAddress [1], ecrecover);
   (BytesToAddress [2], sha256hash);
   (BytesToAddress [3], ripemd160hash);
   (BytesToAddress [4], dataCopy);
   (BytesToAddress [5], bigModExp);
   (BytesToAddress [6], bn256Add);
   (BytesToAddress [7], bn256ScalarMul);
   (BytesToAddress [8], bn256Pairing)].

(** The input after the three length words. *)
Definition modexp_tail (input : bytes) : bytes := if 96 <? zlen input then drop 96 input else [].

(** The complexity of a multiplication of numbers of [x] bytes. *)
Definition mult_complexity (x : Z) : Z :=
  if x <=? 64 then x * x
  else if x <=? 1024 then x * x / 4 + (96 * x - 3072)
  else x * x / 16 + (480 * x - 199680).

(** [None] is a slice panic of [getData]. *)
Definition bigModExp_RequiredGas (input : bytes) : option Z :=
  b ← getData input 0 32; let baseLen := be_dec b in
  e ← getData input 32 32; let expLen := be_dec e in
  m ← getData input 64 32; let modLen := be_dec m in
  let input := modexp_tail input in
  expHead ←
    (if zlen input <=? baseLen then Some 0
     else if 32 <? expLen then d ← getData input (Uint64 baseLen) 32; Some (be_dec d)
     else d ← getData input (Uint64 baseLen) (Uint64 expLen); Some (be_dec d));
  let msb := if 0 <? BitLen expHead then BitLen expHead - 1 else 0 in
  let adjExpLen := (if 32 <? expLen then 8 * (expLen - 32) else 0) + msb in
  let gas := mult_complexity (BigMax modLen baseLen) in
  let gas := gas * BigMax adjExpLen 1 / ModExpQuadCoeffDiv in
  Some (if 64 <? BitLen gas then MaxUint64 else Uint64 gas).

Definition bigModExp_Run (input : bytes) : option bytes :=
  b ← getData input 0 32; let baseLen := Uint64 (be_dec b) in
  e ← getData input 32 32; let expLen := Uint64 (be_dec e) in
  m ← getData input 64 32; let modLen := Uint64 (be_dec m) in
  let input := modexp_tail input in
  if (baseLen =? 0) && (modLen =? 0) then Some []
  else
    b ← getData input 0 baseLen; let base := be_dec b in
    e ← getData input baseLen expLen; let exp := be_dec e in
    m ← getData input (u64 (baseLen + expLen)) modLen; let mod_ := be_dec m in
    if BitLen mod_ =? 0 then Some (LeftPadBytes [] (i64 modLen))
    else Some (LeftPadBytes (big_bytes (Zpow_mod base exp mod_)) (i64 modLen)).

Abbreviation true32Byte := (zeros 31 ++ [1]) (only parsing).
Abbreviation false32Byte := (zeros 32) (only parsing).

Section precompiles.
Context `{Crypto}.

Definition newCurvePoint (blob : bytes) : Error + bn_G1 :=
  match G1_Unmarshal blob with Some p => inr p | None => inl errBadCurvePoint end.
Definition newTwistPoint (blob : bytes) : Error + bn_G2 :=
  match G2_Unmarshal blob with Some p => inr p | None => inl errBadCurvePoint end.

Definition ecrecover_Run (input : bytes) : bytes :=
  let input := RightPadBytes input 128 in
  let r := be_dec (slice input 64 96) in
  let s := be_dec (slice input 96 128) in
  let v := u8 (default 0 (zindex input 63) - 27) in
  if negb (allZero (slice input 32 63)) || negb (ValidateSignatureValues v r s false) then []
  else
    match secp256k1_Ecrecover (slice input 0 32) (slice input 64 128 ++ [v]) with
    | None => []
    | Some pubKey => LeftPadBytes (drop 12 (Keccak256 [drop 1 pubKey])) 32
    end.

Definition bn256Add_Run (input : bytes) : option (Error + bytes) :=
  bx ← getData input 0 64;
  match newCurvePoint bx with
  | inl err => Some (inl err)
  | inr x =>
      bY ← getData input 64 64;
      match newCurvePoint bY with
      | inl err => Some (inl err)
      | inr y => Some (inr (G1_Marshal (G1_Add x y)))
      end
  end.

Definition bn256ScalarMul_Run (input : bytes) : option (Error + bytes) :=
  bp ← getData input 0 64;
  match newCurvePoint bp with
  | inl err => Some (inl err)
  | inr p =>
      bs ← getData input 64 32;
      Some (inr (G1_Marshal (G1_ScalarMult p (be_dec bs))))
  end.

(** The loop over the pairs of points, 192 bytes each. *)
Fixpoint bn256Pairing_loop (fuel : nat) (input : bytes) (i : Z)
    (cs : list bn_G1) (ts : list bn_G2) : option (Error + (list bn_G1 * list bn_G2)) :=
  match fuel with
  | O => None
  | S fuel' =>
      if i <? zlen input then
        match newCurvePoint (slice input i (i + 64)) with
        | inl err => Some (inl err)
        | inr c =>
            match newTwistPoint (slice input (i + 64) (i + 192)) with
            | inl err => Some (inl err)
            | inr t => bn256Pairing_loop fuel' input (i + 192) (cs ++ [c]) (ts ++ [t])
            end
        end
      else Some (inr (cs, ts))
  end.
Definition bn256Pairing_Run (input : bytes) : option (Error + bytes) :=
  if 0 <? zlen input mod 192 then Some (inl errBadPairingInput)
  else
    r ← bn256Pairing_loop (S (length input)) input 0 [] [];
    match r with
    | inl err => Some (inl err)
    | inr (cs, ts) => Some (inr (if PairingCheck cs ts then true32Byte else false32Byte))
    end.

Definition ecrecover_RequiredGas (input : bytes) : Z := EcrecoverGas.
Definition sha256hash_RequiredGas (input : bytes) : Z :=
  u64 ((zlen input + 31) / 32 * Sha256PerWordGas + Sha256BaseGas).
Definition sha256hash_Run (input : bytes) : bytes := sha256_Sum256 input.
Definition ripemd160hash_RequiredGas (input : bytes) : Z :=
  u64 ((zlen input + 31) / 32 * Ripemd160PerWordGas + Ripemd160BaseGas).
Definition ripemd160hash_Run (input : bytes) : bytes := LeftPadBytes (ripemd160_Sum input) 32.
Definition dataCopy_RequiredGas (input : bytes) : Z :=
  u64 ((zlen input + 31) / 32 * IdentityPerWordGas + IdentityBaseGas).
Definition dataCopy_Run (input : bytes) : bytes := input.
Definition bn256Add_RequiredGas (input : bytes) : Z := Bn256AddGas.
Definition bn256ScalarMul_RequiredGas (input : bytes) : Z := Bn256ScalarMulGas.
Definition bn256Pairing_RequiredGas (input : bytes) : Z :=
  u64 (Bn256PairingBaseGas + zlen input / 192 * Bn256PairingPerPointGas).

(** The methods of the interface, by the type that implements it. *)
Definition RequiredGas (p : PrecompiledContract) (input : bytes) : option Z :=
  match p with
  | ecrecover => Some (ecrecover_RequiredGas input)
  | sha256hash => Some (sha256hash_RequiredGas input)
  | ripemd160hash => Some (ripemd160hash_RequiredGas input)
  | dataCopy => Some (dataCopy_RequiredGas input)
  | bigModExp => bigModExp_RequiredGas input
  | bn256Add => Some (bn256Add_RequiredGas input)
  | bn256ScalarMul => Some (bn256ScalarMul_RequiredGas input)
  | bn256Pairing => Some (bn256Pairing_RequiredGas input)
  end.

Definition Precompiled_Run (p : PrecompiledContract) (input : bytes) : option (Error + bytes) :=
  match p with
  | ecrecover => Some (inr (ecrecover_Run input))
  | sha256hash => Some (inr (sha256hash_Run input))
  | ripemd160hash => Some (inr (ripemd160hash_Run input))
  | dataCopy => Some (inr (dataCopy_Run input))
  | bigModExp => r ← bigModExp_Run input; Some (inr r)
  | bn256Add => bn256Add_Run input
  | bn256ScalarMul => bn256ScalarMul_Run input
  | bn256Pairing => bn256Pairing_Run input
  end.

(** The result, the error and the contract with the gas taken off. *)
Definition RunPrecompiledContract (p : PrecompiledContract) (input : bytes) (contract : Contract)
    : option (bytes * option Error * Contract) :=
  gas ← RequiredGas p input;
  let '(ok, contract) := UseGas gas contract in
  if ok : bool then
    r ← Precompiled_Run p input;
    match r with
    | inl err => Some ([], Some err, contract)
    | inr ret => Some (ret, None, contract)
    end
  else Some ([], Some ErrOutOfGas, contract).
End precompiles.
