(* ===== verification/GasTable.v ===== *)
(** * Gas

    Models [core/vm/gas.go] and [core/vm/gas_table.go]: the gas functions of
    the instructions. A gas function reads the stack, may change the memory's
    last fee, the gas for a call and, through the state database, the refund
    counter; it returns an error when a computation leaves 64 bits. *)

From S2P Require Import Prelude CommonMath Params StateIface Machine EvmTypes.
Local Open Scope Z_scope.
Local Open Scope go_scope.

(** ** gas.go *)

Abbreviation GasQuickStep := 2%Z (only parsing).
Abbreviation GasFastestStep := 3%Z (only parsing).
Abbreviation GasFastStep := 5%Z (only parsing).
Abbreviation GasMidStep := 8%Z (only parsing).
Abbreviation GasSlowStep := 10%Z (only parsing).
Abbreviation GasExtStep := 20%Z (only parsing).

Definition callGas (gt : GasTable) (availableGas base callCost : Z) : Error + Z :=
  let eip150 :=
    if 0 <? gt_CreateBySuicide gt then
      let availableGas := u64 (availableGas - base) in
      let gas := availableGas - availableGas / 64 in
      if (64 <? BitLen callCost) || (gas <? Uint64 callCost) then Some gas else None
    else None in
  match eip150 with
  | Some gas => inr gas
  | None => if 64 <? BitLen callCost then inl errGasUintOverflow else inr (Uint64 callCost)
  end.

(** ** gas_table.go *)

(** The fee of a memory of [words] words. *)
Definition memoryFee (words : Z) : Z :=
  u64 (u64 (words * MemoryGas) + u64 (words * words) / QuadCoeffDiv).

(** On the memory alone; the new fee is remembered even if the instruction
    then runs out of gas. *)
Definition memoryGasCost (newMemSize : Z) : M Memory (Error + Z) :=
  if newMemSize =? 0 then mret (inr 0)
  else if 0xffffffffe0 <? newMemSize then mret (inl errGasUintOverflow)
  else
    let newMemSizeWords := toWordSize newMemSize in
    let newMemSize := u64 (newMemSizeWords * 32) in
    mem ← gets id;
    if Memory_Len mem <? newMemSize then
      let newTotalFee := memoryFee newMemSizeWords in
      let fee := u64 (newTotalFee - lastGasCost mem) in
      modify (fun mem => mkMemory (store mem) newTotalFee);;
      mret (inr fee)
    else mret (inr 0).

Section gas_functions.
Context {S : Type} `{StateDB S} (env : Env S).

Definition gasFunc : Type := GasTable -> Z -> M (Frame S) (Error + Z).

(** The result of a checked operation of [common/math]. *)
Definition checked (r : Z * bool) : M (Frame S) (Error + Z) :=
  mret (if snd r then inl errGasUintOverflow else inr (fst r)).
Definition memGas (memorySize : Z) : M (Frame S) (Error + Z) :=
  on_memory (memoryGasCost memorySize).
(** [bigUint64(stack.Back(n))] with the overflow turned into an error. *)
Definition backUint64 (n : Z) : M (Frame S) (Error + Z) := x ← back n; checked (bigUint64 x).

Definition constGasFunc (gas : Z) : gasFunc := fun _ _ => mret (inr gas).

Definition gasCallDataCopy : gasFunc := fun gt memorySize =>
  gas <~ memGas memorySize;
  gas <~ checked (SafeAdd gas GasFastestStep);
  words <~ backUint64 2;
  words <~ checked (SafeMul (toWordSize words) CopyGas);
  checked (SafeAdd gas words).

Definition gasReturnDataCopy : gasFunc := fun gt memorySize =>
  gas <~ memGas memorySize;
  gas <~ checked (SafeAdd gas GasFastestStep);
  words <~ backUint64 2;
  words <~ checked (SafeMul (toWordSize words) CopyGas);
  checked (SafeAdd gas words).

Definition gasSStore : gasFunc := fun gt memorySize =>
  y ← back 1;
  x ← back 0;
  addr ← gets (fun f => self (contract f));
  current ← db (GetState addr (BigToHash x));
  if R_IsPetersburg (chainRules env) || negb (R_IsConstantinople (chainRules env)) then
    if (current =? 0) && negb (y =? 0) then mret (inr SstoreSetGas)
    else if negb (current =? 0) && (y =? 0) then
      db (AddRefund SstoreRefundGas);; mret (inr SstoreClearGas)
    else mret (inr SstoreResetGas)
  else
    let value := BigToHash y in
    if current =? value then mret (inr NetSstoreNoopGas)
    else
      original ← db (GetCommittedState addr (BigToHash x));
      if original =? current then
        if original =? 0 then mret (inr NetSstoreInitGas)
        else
          when (value =? 0) (db (AddRefund NetSstoreClearRefund));;
          mret (inr NetSstoreCleanGas)
      else
        when (negb (original =? 0))
          (if current =? 0 then db (SubRefund NetSstoreClearRefund)
           else when (value =? 0) (db (AddRefund NetSstoreClearRefund)));;
        when (original =? value)
          (if original =? 0 then db (AddRefund NetSstoreResetClearRefund)
           else db (AddRefund NetSstoreResetRefund));;
        mret (inr NetSstoreDirtyGas).

Definition makeGasLog (n : Z) : gasFunc := fun gt memorySize =>
  requestedSize <~ backUint64 1;
  gas <~ memGas memorySize;
  gas <~ checked (SafeAdd gas LogGas);
  gas <~ checked (SafeAdd gas (u64 (n * LogTopicGas)));
  memorySizeGas <~ checked (SafeMul requestedSize LogDataGas);
  checked (SafeAdd gas memorySizeGas).

Definition gasSha3 : gasFunc := fun gt memorySize =>
  gas <~ memGas memorySize;
  gas <~ checked (SafeAdd gas Sha3Gas);
  wordGas <~ backUint64 1;
  wordGas <~ checked (SafeMul (toWordSize wordGas) Sha3WordGas);
  checked (SafeAdd gas wordGas).

Definition gasCodeCopy : gasFunc := fun gt memorySize =>
  gas <~ memGas memorySize;
  gas <~ checked (SafeAdd gas GasFastestStep);
  wordGas <~ backUint64 2;
  wordGas <~ checked (SafeMul (toWordSize wordGas) CopyGas);
  checked (SafeAdd gas wordGas).

Definition gasExtCodeCopy : gasFunc := fun gt memorySize =>
  gas <~ memGas memorySize;
  gas <~ checked (SafeAdd gas (gt_ExtcodeCopy gt));
  wordGas <~ backUint64 3;
  wordGas <~ checked (SafeMul (toWordSize wordGas) CopyGas);
  checked (SafeAdd gas wordGas).

Definition gasExtCodeHash : gasFunc := fun gt _ => mret (inr (gt_ExtcodeHash gt)).

(** Any error of the memory fee is turned into an overflow; there is no other. *)
Definition gasMLoad : gasFunc := fun gt memorySize =>
  gas <~ memGas memorySize;
  checked (SafeAdd gas GasFastestStep).
Definition gasMStore8 : gasFunc := fun gt memorySize =>
  gas <~ memGas memorySize;
  checked (SafeAdd gas GasFastestStep).
Definition gasMStore : gasFunc := fun gt memorySize =>
  gas <~ memGas memorySize;
  checked (SafeAdd gas GasFastestStep).

Definition gasCreate : gasFunc := fun gt memorySize =>
  gas <~ memGas memorySize;
  checked (SafeAdd gas CreateGas).
Definition gasCreate2 : gasFunc := fun gt memorySize =>
  gas <~ memGas memorySize;
  gas <~ checked (SafeAdd gas Create2Gas);
  wordGas <~ backUint64 2;
  wordGas <~ checked (SafeMul (toWordSize wordGas) Sha3WordGas);
  checked (SafeAdd gas wordGas).

Definition gasBalance : gasFunc := fun gt _ => mret (inr (gt_Balance gt)).
Definition gasExtCodeSize : gasFunc := fun gt _ => mret (inr (gt_ExtcodeSize gt)).
Definition gasSLoad : gasFunc := fun gt _ => mret (inr (gt_SLoad gt)).

Definition gasExp : gasFunc := fun gt _ =>
  x ← back 1;
  let expByteLen := (BitLen x + 7) / 8 in
  checked (SafeAdd (u64 (expByteLen * gt_ExpByte gt)) ExpGas).

(** The end of the gas functions of the calls: what the call costs so far is
    [gas], the item on top of the stack is the gas asked for. *)
Definition withCallGas (gt : GasTable) (gas : Z) : M (Frame S) (Error + Z) :=
  available ← gets (fun f => Gas (contract f));
  callCost ← back 0;
  let r := callGas gt available gas callCost in
  on_evm (modify (set_callGasTemp (match r with inr temp => temp | inl _ => 0 end)));;
  temp <~ mret r;
  checked (SafeAdd gas temp).

Definition gasCall : gasFunc := fun gt memorySize =>
  v ← back 2;
  a ← back 1;
  let transfersValue := negb (v =? 0) in
  let address := BigToAddress a in
  new ← (if IsEIP158 (chainConfig env) (number env)
         then if transfersValue then db (Empty address) else mret false
         else b ← db (Exist address); mret (negb b));
  let gas := u64 (gt_Calls gt + if new : bool then CallNewAccountGas else 0) in
  let gas := u64 (gas + if transfersValue then CallValueTransferGas else 0) in
  memoryGas <~ memGas memorySize;
  gas <~ checked (SafeAdd gas memoryGas);
  withCallGas gt gas.

Definition gasCallCode : gasFunc := fun gt memorySize =>
  v ← back 2;
  let gas := u64 (gt_Calls gt + if negb (v =? 0) then CallValueTransferGas else 0) in
  memoryGas <~ memGas memorySize;
  gas <~ checked (SafeAdd gas memoryGas);
  withCallGas gt gas.

Definition gasReturn : gasFunc := fun gt memorySize => memGas memorySize.
Definition gasRevert : gasFunc := fun gt memorySize => memGas memorySize.

Definition gasSuicide : gasFunc := fun gt memorySize =>
  self ← gets (fun f => self (contract f));
  gas ←
    (if IsEIP150 (chainConfig env) (number env) then
       a ← back 0;
       let address := BigToAddress a in
       new ← (if IsEIP158 (chainConfig env) (number env) then
                e ← db (Empty address);
                if e : bool then b ← db (GetBalance self); mret (negb (b =? 0)) else mret false
              else b ← db (Exist address); mret (negb b));
       mret (u64 (gt_Suicide gt + if new : bool then gt_CreateBySuicide gt else 0))
     else mret 0);
  suicided ← db (HasSuicided self);
  when (negb suicided) (db (AddRefund SuicideRefundGas));;
  mret (inr gas).

Definition gasDelegateCall : gasFunc := fun gt memorySize =>
  gas <~ memGas memorySize;
  gas <~ checked (SafeAdd gas (gt_Calls gt));
  withCallGas gt gas.
Definition gasStaticCall : gasFunc := fun gt memorySize =>
  gas <~ memGas memorySize;
  gas <~ checked (SafeAdd gas (gt_Calls gt));
  withCallGas gt gas.

Definition gasPush : gasFunc := fun _ _ => mret (inr GasFastestStep).
Definition gasSwap : gasFunc := fun _ _ => mret (inr GasFastestStep).
Definition gasDup : gasFunc := fun _ _ => mret (inr GasFastestStep).
End gas_functions.

Arguments gasFunc : clear implicits.
