(* ===== verification/GasProps.v ===== *)
(** * Properties of the gas calculation

    The fee of memory over a whole execution, where its formula overflows, the
    gas passed to nested calls, and the slices of call data. *)

From S2P Require Import Prelude CommonMath Params Opcodes StateIface Machine EvmTypes GasTable.
Local Open Scope Z_scope.

(** ** Memory *)

(** The fee of the yellow paper for a memory of [w] words. *)
Definition fee (w : Z) : Z := 3 * w + w * w / 512.

(** An instruction that asks for [size] bytes: the fee, then the resizing of
    the interpreter loop. *)
Definition expand (size : Z) : M Memory (Error + Z) :=
  r ← memoryGasCost size;
  match r with
  | inl e => mret (inl e)
  | inr gas =>
      when (0 <? toWordSize size * 32) (modify (Memory_Resize (toWordSize size * 32)));;
      mret (inr gas)
  end.
(** The sum of the fees of a sequence of such instructions. *)
Fixpoint expand_all (sizes : list Z) : M Memory (Error + Z) :=
  match sizes with
  | [] => mret (inr 0)
  | size :: sizes' =>
      r ← expand size;
      match r with
      | inl e => mret (inl e)
      | inr gas =>
          r ← expand_all sizes';
          mret (match r with inl e => inl e | inr rest => inr (gas + rest) end)
      end
  end.

(** A memory of [w] words that has been paid for. *)
Definition paid (w : Z) (m : Memory) : Prop :=
  0 <= w < 2 ^ 32 /\ zlen (store m) = 32 * w /\ lastGasCost m = fee w.

Lemma memoryFee_exact w : 0 <= w < 2 ^ 32 -> memoryFee w = fee w /\ 0 <= fee w < 2 ^ 63.
Proof.
  intros Hw. unfold memoryFee, fee.
  assert (0 <= w * w < 2 ^ 64) by nia.
  assert (0 <= w * w / 512 <= w * w) by (split; [apply Z.div_pos; lia|apply Z.div_le_upper_bound; lia]).
  assert (w * w / 512 < 2 ^ 55) by (apply Z.div_lt_upper_bound; lia).
  rewrite (u64_id (w * w)), (u64_id (w * 3)) by (unfold is_u64; lia).
  rewrite u64_id by (unfold is_u64; lia). lia.
Qed.
Lemma fee_mono v w : 0 <= v <= w -> fee v <= fee w.
Proof. intros Hv. unfold fee. assert (v * v / 512 <= w * w / 512) by (apply Z.div_le_mono; nia). lia. Qed.

(** The words of a size the formula can handle. *)
Definition moderate (size : Z) : Prop := 0 <= size <= 32 * (2 ^ 32 - 1).
Definition words (size : Z) : Z := (size + 31) / 32.

Lemma expand_ok w m size :
  paid w m -> moderate size ->
  wp never False (expand size) (fun r m' =>
    r = inr (fee (Z.max w (words size)) - fee w) /\ paid (Z.max w (words size)) m') m.
Proof.
  intros (Hw & Hl & Hf) Hs. unfold moderate in Hs. unfold expand, memoryGasCost.
  assert (0 <= words size < 2 ^ 32) as Hws.
  { unfold words. split; [apply Z.div_pos; lia|apply Z.div_lt_upper_bound; lia]. }
  rewrite toWordSize_spec by (unfold is_u64; lia). fold (words size).
  destruct (Z.eqb_spec size 0) as [->|Hne].
  { apply wp_bind, wp_ret. change (words 0) with 0. rewrite Z.max_l by lia. cbn. apply wp_ret.
    split; [f_equal; lia|done]. }
  destruct (Z.ltb_spec 0xffffffffe0 size); [lia|]. apply wp_bind, wp_bind, wp_gets. cbn [id].
  rewrite u64_id by (unfold is_u64; lia). unfold Memory_Len. rewrite Hl.
  assert (1 <= words size) by (unfold words; apply Z.div_le_lower_bound; lia).
  assert ((0 <? words size * 32) = true) as Hpos by (apply Z.ltb_lt; lia).
  destruct (Z.ltb_spec (32 * w) (words size * 32)) as [Hlt|Hge].
  - destruct (memoryFee_exact (words size) Hws) as [-> Hfr]. rewrite Z.max_r by lia.
    apply wp_bind, wp_modify, wp_ret. rewrite Hpos. cbn [when]. apply wp_bind, wp_modify, wp_ret.
    pose proof (fee_mono w (words size)). assert (0 <= fee w) by (unfold fee; pose proof (Z.div_pos (w * w) 512); nia).
    rewrite Hf, u64_id by (unfold is_u64; lia). split; [done|]. split; [lia|].
    unfold Memory_Resize, Memory_Len. cbn [store]. rewrite Hl. destruct (Z.ltb_spec (32 * w) (words size * 32)); [|lia].
    cbn. split; [|done]. rewrite zlen_app, zlen_zeros by lia. lia.
  - rewrite Z.max_l by lia. apply wp_ret. rewrite Hpos. cbn [when]. apply wp_bind, wp_modify, wp_ret.
    split; [f_equal; lia|]. unfold Memory_Resize, Memory_Len. rewrite Hl.
    destruct (Z.ltb_spec (32 * w) (words size * 32)); [lia|]. done.
Qed.

(** The words a memory has after a sequence of requests. *)
Definition high_water (w : Z) (sizes : list Z) : Z := fold_left (fun w size => Z.max w (words size)) sizes w.

Lemma expand_all_ok sizes w m :
  paid w m -> Forall moderate sizes ->
  wp never False (expand_all sizes) (fun r m' =>
    r = inr (fee (high_water w sizes) - fee w) /\ paid (high_water w sizes) m') m.
Proof.
  revert w m. induction sizes as [|size sizes IH]; intros w m Hp Hs; cbn [expand_all high_water fold_left].
  - apply wp_ret. split; [f_equal; lia|done].
  - apply Forall_cons in Hs as [Hsz Hs]. apply wp_bind. eapply wp_mono; [by apply (expand_ok w)|].
    intros r m1 [-> Hp1]. apply wp_bind. eapply wp_mono; [by apply IH|].
    intros r m2 [-> Hp2]. apply wp_ret. split; [f_equal; unfold high_water; lia|done].
Qed.

(** However an execution grows its memory, the fees it is charged add up to
    the fee of the memory it ends with, as long as that is below 2^32 words. *)
Theorem memory_fees_add_up sizes :
  Forall moderate sizes ->
  wp never False (expand_all sizes) (fun r m' =>
    r = inr (fee (high_water 0 sizes)) /\ paid (high_water 0 sizes) m') NewMemory.
Proof.
  intros Hs. eapply wp_mono; [apply (expand_all_ok sizes 0); [by split_and!|done]|].
  intros r m' [-> Hp]. change (fee 0) with 0. split; [f_equal; lia|done].
Qed.

Lemma memory_fees_add_up_witness :
  wp never False (expand_all [64; 1; 1000; 0; 500]) (fun r m' =>
    r = inr 98 /\ paid 32 m') NewMemory.
Proof. apply (memory_fees_add_up [64; 1; 1000; 0; 500]). repeat constructor; lia. Defined.

(** The limit 0xffffffffe0 does not keep the fee from overflowing, as its
    comment says: at 2^32 words the square wraps to zero, and a memory of 2^37
    bytes costs less than one a word smaller, whose fee is above 2^54. *)
Theorem memory_fee_overflows :
  exists m, memoryGasCost (32 * 2 ^ 32) NewMemory = Ok (inr (3 * 2 ^ 32), m) /\
    32 * 2 ^ 32 <= 0xffffffffe0 /\ memoryFee (2 ^ 32 - 1) = fee (2 ^ 32 - 1) /\
    memoryFee (2 ^ 32) = 3 * 2 ^ 32 /\ 2 ^ 54 < memoryFee (2 ^ 32 - 1).
Proof. eexists. split; [vm_compute; reflexivity|]. done. Qed.

(** ** Gas of nested calls *)

(** From EIP-150 on, a nested call gets what it asks for, but never more
    than all but one 64th of the gas left after the price of the instruction;
    asking for more is not an error. *)
Theorem callGas_all_but_one_64th gt available base callCost :
  0 < gt_CreateBySuicide gt -> 0 <= base <= available -> available < 2 ^ 64 -> 0 <= callCost ->
  callGas gt available base callCost
  = inr (Z.min callCost ((available - base) - (available - base) / 64)).
Proof.
  intros Hgt Hb Ha Hc. unfold callGas. rewrite (proj2 (Z.ltb_lt _ _) Hgt).
  rewrite (u64_id (available - base)) by (unfold is_u64; lia). set (left := available - base).
  assert (0 <= left / 64 <= left) by (unfold left; split; [apply Z.div_pos; lia|apply Z.div_le_upper_bound; lia]).
  pose proof (BitLen_le callCost 64) as Hbl. unfold Uint64. rewrite Z.abs_eq by done.
  destruct (Z.ltb_spec 64 (BitLen callCost)); cbn [orb].
  - assert (2 ^ 64 <= callCost)
      by (destruct (Z.lt_ge_cases callCost (2 ^ 64)); [|done]; assert (BitLen callCost <= 64) by (apply Hbl; lia); lia).
    f_equal. lia.
  - assert (callCost < 2 ^ 64) by (apply Hbl; lia). rewrite u64_id by (unfold is_u64; lia).
    destruct (Z.ltb_spec (left - left / 64) callCost); f_equal; lia.
Qed.

Lemma callGas_all_but_one_64th_witness : callGas GasTableEIP158 6400 400 (2 ^ 70) = inr 5907.
Proof. rewrite (callGas_all_but_one_64th GasTableEIP158 6400 400 (2 ^ 70)); [reflexivity|done..]. Defined.

(** ** Slices of data *)

(** [getData] is not safe for all arguments, as its comment says: when the
    sum of its arguments passes 2^64, the end of the slice wraps to a position
    before its start and the slice expression panics. *)
Theorem getData_overflows : getData [1; 2; 3] 2 (2 ^ 64 - 1) = None.
Proof. reflexivity. Qed.

(** Apart from that, [getData] gives exactly the requested number of bytes:
    those of the data where there are any, and zeros after its end. *)
Theorem getData_pads data start size :
  0 <= start -> 0 <= size < 2 ^ 63 -> zlen data < 2 ^ 63 ->
  exists b, getData data start size = Some b /\ zlen b = size /\
    forall i : nat, Z.of_nat i < size ->
      b !! i = Some (padded_byte data (Z.min start (zlen data) + Z.of_nat i)).
Proof.
  intros Hs Hz Hd. pose proof (zlen_nonneg data). unfold getData.
  assert ((if zlen data <? start then zlen data else start) = Z.min start (zlen data)) as ->
    by (destruct (Z.ltb_spec (zlen data) start); lia).
  set (s := Z.min start (zlen data)). rewrite u64_id by (unfold is_u64; lia).
  assert ((if zlen data <? s + size then zlen data else s + size) = Z.min (s + size) (zlen data)) as ->
    by (destruct (Z.ltb_spec (zlen data) (s + size)); lia).
  rewrite (proj2 (Z.ltb_ge _ s)) by lia. eexists. split; [done|]. rewrite i64_id by lia.
  split; [rewrite zlen_RightPadBytes, zlen_slice by lia; lia|]. intros i Hi. apply lookup_slice_pad; lia.
Qed.

Lemma getData_pads_witness :
  exists b, getData [1; 2; 3] 2 4 = Some b /\ zlen b = 4.
Proof.
  destruct (getData_pads [1; 2; 3] 2 4) as (b & Hb & Hl & _); [done..|]. exists b. split; [exact Hb|exact Hl].
Defined.
