(* ===== verification/Evm.v ===== *)
(** * Calls and contract creation

    Models the operations of [core/vm/evm.go]: dispatch to the precompiled
    contracts or the interpreter, the four kinds of call and the creation of
    contracts. The interpreter is an argument ([Run]); [Interpreter] ties the
    knot. Tracing and logging are left out. *)

From S2P Require Import Prelude CommonMath Params Opcodes StateIface Machine EvmTypes Precompiles.
Local Open Scope Z_scope.

Section evm_calls.
Context {S : Type} `{StateDB S} `{Crypto} (env : Env S).
(** [Interpreter.Run] of the one interpreter there is. *)
Context (Run : RunFunc S).

Definition precompiled (addr : Address) : option PrecompiledContract :=
  assoc Z.eqb addr
    (if IsByzantium (chainConfig env) (number env)
     then PrecompiledContractsByzantium else PrecompiledContractsHomestead).

(** The list of interpreters holds [EVMInterpreter] alone, which can run any
    code. *)
Definition run (contract : Contract) (input : bytes) (readOnly : bool)
    : M (EVM S) (bytes * option Error * Contract) :=
  match (addr ← CodeAddr contract; precompiled addr) with
  | Some p => of_option Index (RunPrecompiledContract p input contract)
  | None => Run contract input readOnly
  end.

(** [NewContract] on the map of analyses of the virtual machine. *)
Definition newContract (caller : ContractRef) (object : Address) (value : option Z) (gas : Z)
    : M (EVM S) Contract :=
  jd ← gets jumpdests;
  let '(c, jd) := NewContract caller object value gas jd in
  modify (set_jumpdests jd);; mret c.

(** What every call does with the result of [run]: an error reverts the state
    and, unless it is a revert, takes the gas. *)
Definition afterRun (snapshot : Z) (r : bytes * option Error * Contract)
    : M (EVM S) (bytes * Z * option Error) :=
  let '(ret, err, contract) := r in
  match err with
  | None => mret (ret, Gas contract, None)
  | Some e =>
      on_db (RevertToSnapshot snapshot);;
      let contract :=
        if decide (e = errExecutionReverted) then contract
        else snd (UseGas (Gas contract) contract) in
      mret (ret, Gas contract, Some e)
  end.

Definition Call (caller : ContractRef) (addr : Address) (input : bytes) (gas value : Z)
    : M (EVM S) (bytes * Z * option Error) :=
  d ← gets depth;
  if NoRecursion (vmConfig env) && (0 <? d) then mret ([], gas, None)
  else if CallCreateDepth <? d then mret ([], gas, Some ErrDepth)
  else
    ok ← on_db (CanTransfer (context env) (ContractRef_Address caller) value);
    if negb ok then mret ([], gas, Some ErrInsufficientBalance)
    else
      snapshot ← on_db Snapshot;
      exist ← on_db (Exist addr);
      if negb exist && (match precompiled addr with None => true | Some _ => false end) &&
         IsEIP158 (chainConfig env) (number env) && (value =? 0)
      then mret ([], gas, None)
      else
        when (negb exist) (on_db (CreateAccount addr));;
        on_db (Transfer (context env) (ContractRef_Address caller) addr value);;
        contract ← newContract caller addr (Some value) gas;
        hash ← on_db (GetCodeHash addr);
        code ← on_db (GetCode addr);
        r ← run (SetCallCode (Some addr) hash code contract) input false;
        afterRun snapshot r.

Definition CallCode (caller : ContractRef) (addr : Address) (input : bytes) (gas value : Z)
    : M (EVM S) (bytes * Z * option Error) :=
  d ← gets depth;
  if NoRecursion (vmConfig env) && (0 <? d) then mret ([], gas, None)
  else if CallCreateDepth <? d then mret ([], gas, Some ErrDepth)
  else
    ok ← on_db (CanTransfer (context env) (ContractRef_Address caller) value);
    if negb ok then mret ([], gas, Some ErrInsufficientBalance)
    else
      snapshot ← on_db Snapshot;
      contract ← newContract caller (ContractRef_Address caller) (Some value) gas;
      hash ← on_db (GetCodeHash addr);
      code ← on_db (GetCode addr);
      r ← run (SetCallCode (Some addr) hash code contract) input false;
      afterRun snapshot r.

Definition DelegateCall (caller : ContractRef) (addr : Address) (input : bytes) (gas : Z)
    : M (EVM S) (bytes * Z * option Error) :=
  d ← gets depth;
  if NoRecursion (vmConfig env) && (0 <? d) then mret ([], gas, None)
  else if CallCreateDepth <? d then mret ([], gas, Some ErrDepth)
  else
    snapshot ← on_db Snapshot;
    contract ← newContract caller (ContractRef_Address caller) None gas;
    contract ← of_option TypeAssertion (AsDelegate contract);
    hash ← on_db (GetCodeHash addr);
    code ← on_db (GetCode addr);
    r ← run (SetCallCode (Some addr) hash code contract) input false;
    afterRun snapshot r.

Definition StaticCall (caller : ContractRef) (addr : Address) (input : bytes) (gas : Z)
    : M (EVM S) (bytes * Z * option Error) :=
  d ← gets depth;
  if NoRecursion (vmConfig env) && (0 <? d) then mret ([], gas, None)
  else if CallCreateDepth <? d then mret ([], gas, Some ErrDepth)
  else
    snapshot ← on_db Snapshot;
    contract ← newContract caller addr (Some 0) gas;
    hash ← on_db (GetCodeHash addr);
    code ← on_db (GetCode addr);
    on_db (AddBalance addr 0);;
    r ← run (SetCallCode (Some addr) hash code contract) input true;
    afterRun snapshot r.

(** [codeAndHash.Hash] computes the hash once. *)
Definition codeAndHash_Hash (c : codeAndHash) : codeAndHash :=
  if cah_hash c =? 0 then mkCodeAndHash (cah_code c) (Keccak256Hash [cah_code c]) else c.

(** The end of [create]: the code is stored if its price can be paid, and the
    state is reverted if it cannot or if it is too large. *)
Definition storeCode (address : Address) (ret : bytes) (err : option Error) (contract : Contract)
    : M (EVM S) (option Error * Contract) :=
  let createDataGas := u64 (zlen ret * CreateDataGas) in
  let '(ok, contract) := UseGas createDataGas contract in
  if ok : bool then on_db (SetCode address ret);; mret (err, contract)
  else mret (Some ErrCodeStoreOutOfGas, contract).

(** The part of [create] that runs the code and stores its result, or undoes what was done. *)
Definition create_run (c : Contract) (address : Address) (snapshot : Z)
    : M (EVM S) (bytes * Address * Z * option Error) :=
  '(ret, err, contract) ← run c [] false;
  let maxCodeSizeExceeded := IsEIP158 (chainConfig env) (number env) && (MaxCodeSize <? zlen ret) in
  '(err, contract) ←
    (if bool_decide (err = None) && negb maxCodeSizeExceeded
     then storeCode address ret err contract else mret (err, contract));
  let failed :=
    maxCodeSizeExceeded ||
    (negb (bool_decide (err = None)) &&
     (IsHomestead (chainConfig env) (number env) ||
      negb (bool_decide (err = Some ErrCodeStoreOutOfGas)))) in
  when failed (on_db (RevertToSnapshot snapshot));;
  let contract :=
    if failed && negb (bool_decide (err = Some errExecutionReverted))
    then snd (UseGas (Gas contract) contract) else contract in
  let err :=
    if maxCodeSizeExceeded && bool_decide (err = None)
    then Some errMaxCodeSizeExceeded else err in
  mret (ret, address, Gas contract, err).

Definition create (caller : ContractRef) (codeAndHash : codeAndHash) (gas value : Z)
    (address : Address) : M (EVM S) (bytes * Address * Z * option Error) :=
  d ← gets depth;
  if CallCreateDepth <? d then mret ([], 0, gas, Some ErrDepth)
  else
    ok ← on_db (CanTransfer (context env) (ContractRef_Address caller) value);
    if negb ok then mret ([], 0, gas, Some ErrInsufficientBalance)
    else
      nonce ← on_db (GetNonce (ContractRef_Address caller));
      on_db (SetNonce (ContractRef_Address caller) (u64 (nonce + 1)));;
      contractHash ← on_db (GetCodeHash address);
      n ← on_db (GetNonce address);
      if negb (n =? 0) || (negb (contractHash =? 0) && negb (contractHash =? emptyCodeHash))
      then mret ([], 0, 0, Some ErrContractAddressCollision)
      else
        snapshot ← on_db Snapshot;
        on_db (CreateAccount address);;
        when (IsEIP158 (chainConfig env) (number env)) (on_db (SetNonce address 1));;
        on_db (Transfer (context env) (ContractRef_Address caller) address value);;
        contract ← newContract caller address (Some value) gas;
        let contract := SetCodeOptionalHash (Some address) codeAndHash contract in
        if NoRecursion (vmConfig env) && (0 <? d) then mret ([], address, gas, None)
        else create_run contract address snapshot.

Definition Create (caller : ContractRef) (code : bytes) (gas value : Z)
    : M (EVM S) (bytes * Address * Z * option Error) :=
  nonce ← on_db (GetNonce (ContractRef_Address caller));
  let contractAddr := CreateAddress (ContractRef_Address caller) nonce in
  create caller (mkCodeAndHash code 0) gas value contractAddr.

Definition Create2 (caller : ContractRef) (code : bytes) (gas endowment salt : Z)
    : M (EVM S) (bytes * Address * Z * option Error) :=
  let cah := codeAndHash_Hash (mkCodeAndHash code 0) in
  let contractAddr :=
    CreateAddress2 (ContractRef_Address caller) (BigToHash salt) (Hash_Bytes (cah_hash cah)) in
  create caller cah gas endowment contractAddr.
End evm_calls.
