(* ===== verification/Instructions.v ===== *)
(** * Instructions

    Models [core/vm/instructions.go]: one definition per instruction, on the
    frame of the running contract. The pool of integers is left out: an
    integer is put back only when nothing refers to it. *)

From S2P Require Import Prelude CommonMath Params Opcodes StateIface Machine EvmTypes GasTable Evm.
Local Open Scope Z_scope.

Section instructions.
Context {S : Type} `{StateDB S} `{Crypto} (env : Env S) (Run : RunFunc S).

(** The result and the error of an instruction. *)
Definition executed : Type := M (Frame S) (bytes * option Error).
Definition nil_nil : executed := mret ([], None).

(** [big.Int.Int64] *)
Definition Int64 (x : Z) : Z := i64 x.

Definition opAdd : executed :=
  x ← pop; y ← peek; poke (U256 (x + y));; nil_nil.
Definition opSub : executed :=
  x ← pop; y ← peek; poke (U256 (x - y));; nil_nil.
Definition opMul : executed :=
  x ← pop; y ← pop; push (U256 (x * y));; nil_nil.
Definition opDiv : executed :=
  x ← pop; y ← peek;
  poke (if negb (y =? 0) then U256 (x / y) else 0);; nil_nil.
Definition opSdiv : executed :=
  x ← pop; y ← pop;
  let x := S256 x in let y := S256 y in
  push (if (Z.sgn y =? 0) || (Z.sgn x =? 0) then 0
        else U256 (if negb (Z.sgn x =? Z.sgn y) then - (Z.abs x / Z.abs y)
                   else Z.abs x / Z.abs y));;
  nil_nil.
Definition opMod : executed :=
  x ← pop; y ← pop;
  push (if y =? 0 then 0 else U256 (x mod y));; nil_nil.
Definition opSmod : executed :=
  x ← pop; y ← pop;
  let x := S256 x in let y := S256 y in
  push (if y =? 0 then 0
        else U256 (if Z.sgn x <? 0 then - (Z.abs x mod Z.abs y) else Z.abs x mod Z.abs y));;
  nil_nil.
Definition opExp : executed :=
  base ← pop; exponent ← pop;
  push (if exponent <? 1 then 1
        else if base =? 0 then 0
        else if exponent =? 1 then base
        else fst (Exp base exponent));;
  nil_nil.
Definition opSignExtend : executed :=
  back ← pop;
  when (back <? 31)
    (let bit := Uint64 back * 8 + 7 in
     num ← pop;
     let mask := Z.shiftl 1 bit - 1 in
     push (U256 (if Z.testbit num bit then Z.lor num (Z.lnot mask) else Z.land num mask)));;
  nil_nil.
Definition opNot : executed := x ← peek; poke (U256 (Z.lnot x));; nil_nil.
Definition opLt : executed :=
  x ← pop; y ← peek; poke (if x <? y then 1 else 0);; nil_nil.
Definition opGt : executed :=
  x ← pop; y ← peek; poke (if y <? x then 1 else 0);; nil_nil.
Definition opSlt : executed :=
  x ← pop; y ← peek;
  poke (if (tt255 <=? x) && (y <? tt255) then 1
        else if (x <? tt255) && (tt255 <=? y) then 0
        else if x <? y then 1 else 0);;
  nil_nil.
Definition opSgt : executed :=
  x ← pop; y ← peek;
  poke (if (tt255 <=? x) && (y <? tt255) then 0
        else if (x <? tt255) && (tt255 <=? y) then 1
        else if y <? x then 1 else 0);;
  nil_nil.
Definition opEq : executed :=
  x ← pop; y ← peek; poke (if x =? y then 1 else 0);; nil_nil.
Definition opIszero : executed := x ← peek; poke (if 0 <? x then 0 else 1);; nil_nil.
Definition opAnd : executed := x ← pop; y ← pop; push (Z.land x y);; nil_nil.
Definition opOr : executed := x ← pop; y ← peek; poke (Z.lor x y);; nil_nil.
Definition opXor : executed := x ← pop; y ← peek; poke (Z.lxor x y);; nil_nil.
Definition opByte : executed :=
  th ← pop; val ← peek;
  poke (if th <? 32 then Byte val 32 (Int64 th) else 0);; nil_nil.
Definition opAddmod : executed :=
  x ← pop; y ← pop; z ← pop;
  push (if 0 <? z then U256 ((x + y) mod z) else 0);; nil_nil.
Definition opMulmod : executed :=
  x ← pop; y ← pop; z ← pop;
  push (if 0 <? z then U256 ((x * y) mod z) else 0);; nil_nil.
Definition opSHL : executed :=
  shift ← pop; value ← peek;
  let shift := U256 shift in let value := U256 value in
  poke (if 256 <=? shift then 0 else U256 (Z.shiftl value (Uint64 shift)));; nil_nil.
Definition opSHR : executed :=
  shift ← pop; value ← peek;
  let shift := U256 shift in let value := U256 value in
  poke (if 256 <=? shift then 0 else U256 (Z.shiftr value (Uint64 shift)));; nil_nil.
Definition opSAR : executed :=
  shift ← pop; value ← pop;
  let shift := U256 shift in let value := S256 value in
  push (if 256 <=? shift then U256 (if 0 <=? value then 0 else -1)
        else U256 (Z.shiftr value (Uint64 shift)));;
  nil_nil.

(** [memory.Get] and [memory.GetPtr] of the frame. *)
Definition memory_Get (offset size : Z) : M (Frame S) bytes :=
  m ← gets memory; of_option Index (Memory_Get offset size m).
Definition memory_GetPtr (offset size : Z) : M (Frame S) bytes :=
  m ← gets memory; of_option Index (Memory_GetPtr offset size m).

Definition opSha3 : executed :=
  offset ← pop; size ← pop;
  data ← memory_Get (Int64 offset) (Int64 size);
  let h := keccak data in
  when (EnablePreimageRecording (vmConfig env)) (db (AddPreimage (be_dec h) data));;
  push (be_dec h);; nil_nil.
Definition opAddress : executed :=
  c ← gets contract; push (Address_Big (self c));; nil_nil.
Definition opBalance : executed :=
  slot ← peek; b ← db (GetBalance (BigToAddress slot)); poke b;; nil_nil.
Definition opOrigin : executed := push (Address_Big (Origin (context env)));; nil_nil.
Definition opCaller : executed :=
  c ← gets contract; push (Address_Big (CallerAddress c));; nil_nil.
Definition opCallValue : executed :=
  c ← gets contract; v ← of_option NilDeref (value c); push v;; nil_nil.
Definition opCallDataLoad : executed :=
  c ← gets contract; off ← pop;
  push (be_dec (getDataBig (Input c) off 32));; nil_nil.
Definition opCallDataSize : executed := c ← gets contract; push (zlen (Input c));; nil_nil.
Definition opCallDataCopy : executed :=
  memOffset ← pop; dataOffset ← pop; length ← pop;
  c ← gets contract;
  on_memory (Memory_Set (Uint64 memOffset) (Uint64 length)
               (getDataBig (Input c) dataOffset length));;
  nil_nil.
Definition opReturnDataSize : executed :=
  d ← gets (fun f => returnData (evm f)); push (zlen d);; nil_nil.
Definition opReturnDataCopy : executed :=
  memOffset ← pop; dataOffset ← pop; length ← pop;
  let end_ := dataOffset + length in
  d ← gets (fun f => returnData (evm f));
  if (64 <? BitLen end_) || (zlen d <? Uint64 end_)
  then mret ([], Some errReturnDataOutOfBounds)
  else if Uint64 dataOffset <=? Uint64 end_ then
    on_memory (Memory_Set (Uint64 memOffset) (Uint64 length)
                 (slice d (Uint64 dataOffset) (Uint64 end_)));;
    nil_nil
  else panic Index.
Definition opExtCodeSize : executed :=
  slot ← peek; n ← db (GetCodeSize (BigToAddress slot)); poke n;; nil_nil.
Definition opCodeSize : executed := c ← gets contract; push (zlen (Code c));; nil_nil.
Definition opCodeCopy : executed :=
  memOffset ← pop; codeOffset ← pop; length ← pop;
  c ← gets contract;
  on_memory (Memory_Set (Uint64 memOffset) (Uint64 length)
               (getDataBig (Code c) codeOffset length));;
  nil_nil.
Definition opExtCodeCopy : executed :=
  a ← pop; memOffset ← pop; codeOffset ← pop; length ← pop;
  code ← db (GetCode (BigToAddress a));
  on_memory (Memory_Set (Uint64 memOffset) (Uint64 length)
               (getDataBig code codeOffset length));;
  nil_nil.
Definition opExtCodeHash : executed :=
  slot ← peek;
  let address := BigToAddress slot in
  e ← db (Empty address);
  (if e : bool then poke 0
   else h ← db (GetCodeHash address); poke (be_dec (Hash_Bytes h)));;
  nil_nil.
Definition opGasprice : executed := push (GasPrice (context env));; nil_nil.
Definition opBlockhash : executed :=
  num ← pop;
  let n := BlockNumber (context env) - 257 in
  push (if (n <? num) && (num <? BlockNumber (context env))
        then Hash_Big (GetHash (context env) (Uint64 num)) else 0);;
  nil_nil.
Definition opCoinbase : executed := push (Address_Big (Coinbase (context env)));; nil_nil.
Definition opTimestamp : executed := push (U256 (Time (context env)));; nil_nil.
Definition opNumber : executed := push (U256 (BlockNumber (context env)));; nil_nil.
Definition opDifficulty : executed := push (U256 (Difficulty (context env)));; nil_nil.
Definition opGasLimit : executed := push (U256 (GasLimit (context env)));; nil_nil.
Definition opPop : executed := pop;; nil_nil.
Definition opMload : executed :=
  offset ← pop; d ← memory_Get (Int64 offset) 32; push (be_dec d);; nil_nil.
Definition opMstore : executed :=
  mStart ← pop; val ← pop; on_memory (Memory_Set32 (Uint64 mStart) val);; nil_nil.
Definition opMstore8 : executed :=
  off ← pop; val ← pop;
  m ← gets memory;
  if (0 <=? Int64 off) && (Int64 off <? zlen (store m))
  then modify (fun f => set_memory
         (set_store (<[Z.to_nat (Int64 off) := Z.land (Int64 val) 0xff]> (store m)) m) f);;
       nil_nil
  else panic Index.
Definition opSload : executed :=
  loc ← peek; c ← gets contract;
  val ← db (GetState (self c) (BigToHash loc));
  poke (be_dec (Hash_Bytes val));; nil_nil.
Definition opSstore : executed :=
  loc ← pop; val ← pop; c ← gets contract;
  db (SetState (self c) (BigToHash loc) (BigToHash val));; nil_nil.

(** [contract.validJumpdest] on the contract and the shared analyses. *)
Definition contract_validJumpdest (dest : Z) : M (Frame S) bool :=
  zoom (fun f => (contract f, jumpdests (evm f)))
    (fun '(c, jd) f => set_evm (set_jumpdests jd (evm f)) (set_contract c f))
    (validJumpdest dest).
Definition jump_to (pos : Z) : executed :=
  ok ← contract_validJumpdest pos;
  if negb ok then
    c ← gets contract; mret ([], Some (InvalidJump (GetOp c (Uint64 pos)) pos))
  else modify (set_pc (Uint64 pos));; nil_nil.
Definition opJump : executed := pos ← pop; jump_to pos.
Definition opJumpi : executed :=
  pos ← pop; cond ← pop;
  if negb (cond =? 0) then jump_to pos
  else modify (fun f => set_pc (u64 (pc f + 1)) f);; nil_nil.
Definition opJumpdest : executed := nil_nil.
Definition opPc : executed := p ← gets pc; push p;; nil_nil.
Definition opMsize : executed := m ← gets memory; push (Memory_Len m);; nil_nil.
Definition opGas : executed := c ← gets contract; push (Gas c);; nil_nil.

(** [contract.Gas += returnGas] and [contract.UseGas(gas)] with the result
    dropped. *)
Definition return_gas (returnGas : Z) : M (Frame S) unit :=
  modify (fun f => set_contract (set_Gas (u64 (Gas (contract f) + returnGas)) (contract f)) f).
Definition use_gas (gas : Z) : M (Frame S) unit :=
  modify (fun f => set_contract (snd (UseGas gas (contract f))) f).

Definition opCreate : executed :=
  value ← pop; offset ← pop; size ← pop;
  input ← memory_Get (Int64 offset) (Int64 size);
  gas ← gets (fun f => Gas (contract f));
  let gas := if IsEIP150 (chainConfig env) (number env) then gas - gas / 64 else gas in
  use_gas gas;;
  c ← gets contract;
  '(res, addr, returnGas, suberr) ← on_evm (Create env Run (ref_of c) input gas value);
  (if IsHomestead (chainConfig env) (number env) && bool_decide (suberr = Some ErrCodeStoreOutOfGas)
   then push 0
   else if negb (bool_decide (suberr = None)) && negb (bool_decide (suberr = Some ErrCodeStoreOutOfGas))
   then push 0
   else push (Address_Big addr));;
  return_gas returnGas;;
  mret (if bool_decide (suberr = Some errExecutionReverted) then (res, None) else ([], None)).

Definition opCreate2 : executed :=
  endowment ← pop; offset ← pop; size ← pop; salt ← pop;
  input ← memory_Get (Int64 offset) (Int64 size);
  gas ← gets (fun f => Gas (contract f));
  let gas := gas - gas / 64 in
  use_gas gas;;
  c ← gets contract;
  '(res, addr, returnGas, suberr) ← on_evm (Create2 env Run (ref_of c) input gas endowment salt);
  (if negb (bool_decide (suberr = None)) then push 0 else push (Address_Big addr));;
  return_gas returnGas;;
  mret (if bool_decide (suberr = Some errExecutionReverted) then (res, None) else ([], None)).

(** What the four calls do with the result: push the success flag, copy the
    returned data and take the returned gas. *)
Definition after_call (retOffset retSize : Z) (r : bytes * Z * option Error) : executed :=
  let '(ret, returnGas, err) := r in
  push (if bool_decide (err = None) then 1 else 0);;
  when (bool_decide (err = None) || bool_decide (err = Some errExecutionReverted))
    (on_memory (Memory_Set (Uint64 retOffset) (Uint64 retSize) ret));;
  return_gas returnGas;;
  mret (ret, None).

Definition opCall : executed :=
  pop;;
  gas ← gets (fun f => callGasTemp (evm f));
  addr ← pop; value ← pop; inOffset ← pop; inSize ← pop; retOffset ← pop; retSize ← pop;
  let toAddr := BigToAddress addr in
  let value := U256 value in
  args ← memory_Get (Int64 inOffset) (Int64 inSize);
  let gas := if negb (value =? 0) then u64 (gas + CallStipend) else gas in
  c ← gets contract;
  r ← on_evm (Call env Run (ref_of c) toAddr args gas value);
  after_call retOffset retSize r.

Definition opCallCode : executed :=
  pop;;
  gas ← gets (fun f => callGasTemp (evm f));
  addr ← pop; value ← pop; inOffset ← pop; inSize ← pop; retOffset ← pop; retSize ← pop;
  let toAddr := BigToAddress addr in
  let value := U256 value in
  args ← memory_Get (Int64 inOffset) (Int64 inSize);
  let gas := if negb (value =? 0) then u64 (gas + CallStipend) else gas in
  c ← gets contract;
  r ← on_evm (CallCode env Run (ref_of c) toAddr args gas value);
  after_call retOffset retSize r.

Definition opDelegateCall : executed :=
  pop;;
  gas ← gets (fun f => callGasTemp (evm f));
  addr ← pop; inOffset ← pop; inSize ← pop; retOffset ← pop; retSize ← pop;
  let toAddr := BigToAddress addr in
  args ← memory_Get (Int64 inOffset) (Int64 inSize);
  c ← gets contract;
  r ← on_evm (DelegateCall env Run (ref_of c) toAddr args gas);
  after_call retOffset retSize r.

Definition opStaticCall : executed :=
  pop;;
  gas ← gets (fun f => callGasTemp (evm f));
  addr ← pop; inOffset ← pop; inSize ← pop; retOffset ← pop; retSize ← pop;
  let toAddr := BigToAddress addr in
  args ← memory_Get (Int64 inOffset) (Int64 inSize);
  c ← gets contract;
  r ← on_evm (StaticCall env Run (ref_of c) toAddr args gas);
  after_call retOffset retSize r.

Definition opReturn : executed :=
  offset ← pop; size ← pop; ret ← memory_GetPtr (Int64 offset) (Int64 size); mret (ret, None).
Definition opRevert : executed :=
  offset ← pop; size ← pop; ret ← memory_GetPtr (Int64 offset) (Int64 size); mret (ret, None).
Definition opStop : executed := nil_nil.
Definition opSuicide : executed :=
  c ← gets contract;
  balance ← db (GetBalance (self c));
  a ← pop;
  db (AddBalance (BigToAddress a) balance);;
  db (Suicide (self c));; nil_nil.

Fixpoint pop_topics (n : nat) : M (Frame S) (list Hash) :=
  match n with
  | O => mret []
  | Datatypes.S n' => t ← pop; ts ← pop_topics n'; mret (BigToHash t :: ts)
  end.
Definition makeLog (size : nat) : executed :=
  mStart ← pop; mSize ← pop;
  topics ← pop_topics size;
  d ← memory_Get (Int64 mStart) (Int64 mSize);
  c ← gets contract;
  db (AddLog {| log_Address := self c; log_Topics := topics; log_Data := d;
                log_BlockNumber := Uint64 (BlockNumber (context env));
                log_TxHash := 0; log_TxIndex := 0; log_BlockHash := 0; log_Index := 0 |});;
  nil_nil.

Definition makePush (size pushByteSize : Z) : executed :=
  c ← gets contract;
  p ← gets pc;
  let codeLen := zlen (Code c) in
  let startMin := if i64 (p + 1) <? codeLen then i64 (p + 1) else codeLen in
  let endMin := if startMin + pushByteSize <? codeLen then startMin + pushByteSize else codeLen in
  if (0 <=? startMin) && (startMin <=? endMin) then
    push (be_dec (RightPadBytes (slice (Code c) startMin endMin) pushByteSize));;
    modify (fun f => set_pc (u64 (pc f + size)) f);;
    nil_nil
  else panic Index.
Definition makeDup (size : Z) : executed :=
  st ← gets stack;
  st ← of_option Index (Stack_dup size st);
  modify (set_stack st);; nil_nil.
Definition makeSwap (size : Z) : executed :=
  let size := size + 1 in
  st ← gets stack;
  st ← of_option Index (Stack_swap size st);
  modify (set_stack st);; nil_nil.
End instructions.
