(* ===== verification/JumpTable.v ===== *)
(** * Jump tables

    Models [core/vm/jump_table.go]: the operations of every opcode, by fork. An
    instruction set is the list of its initialised entries; a fork that adds
    instructions puts them in front, and an opcode without an entry is the
    zero [operation], which is not valid. *)

From S2P Require Import Prelude CommonMath Params Opcodes StateIface Machine EvmTypes GasTable Evm Instructions.
Local Open Scope Z_scope.

(** [operation]; [memorySize] is [nil] for most. *)
Record operation (S : Type) : Type := mkOperation {
  execute : executed (S := S);
  gasCost : gasFunc S;
  validateStack : list Z -> option Error;
  memorySize : option memorySizeFunc;
  halts : bool;
  jumps : bool;
  writes : bool;
  valid : bool;
  reverts : bool;
  returns : bool;
}.
Arguments mkOperation {S}.
Arguments execute {S}.
Arguments gasCost {S}.
Arguments validateStack {S}.
Arguments memorySize {S}.
Arguments halts {S}.
Arguments jumps {S}.
Arguments writes {S}.
Arguments valid {S}.
Arguments reverts {S}.
Arguments returns {S}.

(** The flags a table entry sets. *)
Inductive flag : Type := Halts | Jumps | Writes | Reverts | Returns.
#[export] Instance flag_eq_dec : EqDecision flag.
Proof. solve_decision. Defined.

Section jump_tables.
Context {S : Type} `{StateDB S} `{Crypto} (env : Env S) (Run : RunFunc S).

Definition JumpTable : Type := list (OpCode * operation S).

(** A valid operation with the given flags. *)
Definition op_entry (ex : executed) (gas : gasFunc S) (val : list Z -> option Error)
    (mem : option memorySizeFunc) (flags : list flag) : operation S :=
  {| execute := ex; gasCost := gas; validateStack := val; memorySize := mem;
     halts := bool_decide (Halts ∈ flags); jumps := bool_decide (Jumps ∈ flags);
     writes := bool_decide (Writes ∈ flags); valid := true;
     reverts := bool_decide (Reverts ∈ flags); returns := bool_decide (Returns ∈ flags) |}.

Definition frontier_arithmetic : JumpTable :=
  [(STOP, op_entry opStop (constGasFunc 0) (makeStackFunc 0 0) None [Halts]);
   (ADD, op_entry opAdd (constGasFunc GasFastestStep) (makeStackFunc 2 1) None []);
   (MUL, op_entry opMul (constGasFunc GasFastStep) (makeStackFunc 2 1) None []);
   (SUB, op_entry opSub (constGasFunc GasFastestStep) (makeStackFunc 2 1) None []);
   (DIV, op_entry opDiv (constGasFunc GasFastStep) (makeStackFunc 2 1) None []);
   (SDIV, op_entry opSdiv (constGasFunc GasFastStep) (makeStackFunc 2 1) None []);
   (MOD, op_entry opMod (constGasFunc GasFastStep) (makeStackFunc 2 1) None []);
   (SMOD, op_entry opSmod (constGasFunc GasFastStep) (makeStackFunc 2 1) None []);
   (ADDMOD, op_entry opAddmod (constGasFunc GasMidStep) (makeStackFunc 3 1) None []);
   (MULMOD, op_entry opMulmod (constGasFunc GasMidStep) (makeStackFunc 3 1) None []);
   (EXP, op_entry opExp gasExp (makeStackFunc 2 1) None []);
   (SIGNEXTEND, op_entry opSignExtend (constGasFunc GasFastStep) (makeStackFunc 2 1) None [])].
Definition frontier_comparison : JumpTable :=
  [(LT, op_entry opLt (constGasFunc GasFastestStep) (makeStackFunc 2 1) None []);
   (GT, op_entry opGt (constGasFunc GasFastestStep) (makeStackFunc 2 1) None []);
   (SLT, op_entry opSlt (constGasFunc GasFastestStep) (makeStackFunc 2 1) None []);
   (SGT, op_entry opSgt (constGasFunc GasFastestStep) (makeStackFunc 2 1) None []);
   (EQ, op_entry opEq (constGasFunc GasFastestStep) (makeStackFunc 2 1) None []);
   (ISZERO, op_entry opIszero (constGasFunc GasFastestStep) (makeStackFunc 1 1) None []);
   (AND, op_entry opAnd (constGasFunc GasFastestStep) (makeStackFunc 2 1) None []);
   (XOR, op_entry opXor (constGasFunc GasFastestStep) (makeStackFunc 2 1) None []);
   (OR, op_entry opOr (constGasFunc GasFastestStep) (makeStackFunc 2 1) None []);
   (NOT, op_entry opNot (constGasFunc GasFastestStep) (makeStackFunc 1 1) None []);
   (BYTE, op_entry opByte (constGasFunc GasFastestStep) (makeStackFunc 2 1) None []);
   (SHA3, op_entry (opSha3 env) gasSha3 (makeStackFunc 2 1) (Some memorySha3) [])].
Definition frontier_closure_state : JumpTable :=
  [(ADDRESS, op_entry opAddress (constGasFunc GasQuickStep) (makeStackFunc 0 1) None []);
   (BALANCE, op_entry opBalance gasBalance (makeStackFunc 1 1) None []);
   (ORIGIN, op_entry (opOrigin env) (constGasFunc GasQuickStep) (makeStackFunc 0 1) None []);
   (CALLER, op_entry opCaller (constGasFunc GasQuickStep) (makeStackFunc 0 1) None []);
   (CALLVALUE, op_entry opCallValue (constGasFunc GasQuickStep) (makeStackFunc 0 1) None []);
   (CALLDATALOAD, op_entry opCallDataLoad (constGasFunc GasFastestStep) (makeStackFunc 1 1) None []);
   (CALLDATASIZE, op_entry opCallDataSize (constGasFunc GasQuickStep) (makeStackFunc 0 1) None []);
   (CALLDATACOPY, op_entry opCallDataCopy gasCallDataCopy (makeStackFunc 3 0) (Some memoryCallDataCopy) []);
   (CODESIZE, op_entry opCodeSize (constGasFunc GasQuickStep) (makeStackFunc 0 1) None []);
   (CODECOPY, op_entry opCodeCopy gasCodeCopy (makeStackFunc 3 0) (Some memoryCodeCopy) []);
   (GASPRICE, op_entry (opGasprice env) (constGasFunc GasQuickStep) (makeStackFunc 0 1) None []);
   (EXTCODESIZE, op_entry opExtCodeSize gasExtCodeSize (makeStackFunc 1 1) None []);
   (EXTCODECOPY, op_entry opExtCodeCopy gasExtCodeCopy (makeStackFunc 4 0) (Some memoryExtCodeCopy) [])].
Definition frontier_block : JumpTable :=
  [(BLOCKHASH, op_entry (opBlockhash env) (constGasFunc GasExtStep) (makeStackFunc 1 1) None []);
   (COINBASE, op_entry (opCoinbase env) (constGasFunc GasQuickStep) (makeStackFunc 0 1) None []);
   (TIMESTAMP, op_entry (opTimestamp env) (constGasFunc GasQuickStep) (makeStackFunc 0 1) None []);
   (NUMBER, op_entry (opNumber env) (constGasFunc GasQuickStep) (makeStackFunc 0 1) None []);
   (DIFFICULTY, op_entry (opDifficulty env) (constGasFunc GasQuickStep) (makeStackFunc 0 1) None []);
   (GASLIMIT, op_entry (opGasLimit env) (constGasFunc GasQuickStep) (makeStackFunc 0 1) None [])].
Definition frontier_storage : JumpTable :=
  [(POP, op_entry opPop (constGasFunc GasQuickStep) (makeStackFunc 1 0) None []);
   (MLOAD, op_entry opMload gasMLoad (makeStackFunc 1 1) (Some memoryMLoad) []);
   (MSTORE, op_entry opMstore gasMStore (makeStackFunc 2 0) (Some memoryMStore) []);
   (MSTORE8, op_entry opMstore8 gasMStore8 (makeStackFunc 2 0) (Some memoryMStore8) []);
   (SLOAD, op_entry opSload gasSLoad (makeStackFunc 1 1) None []);
   (SSTORE, op_entry opSstore (gasSStore env) (makeStackFunc 2 0) None [Writes]);
   (JUMP, op_entry opJump (constGasFunc GasMidStep) (makeStackFunc 1 0) None [Jumps]);
   (JUMPI, op_entry opJumpi (constGasFunc GasSlowStep) (makeStackFunc 2 0) None [Jumps]);
   (PC, op_entry opPc (constGasFunc GasQuickStep) (makeStackFunc 0 1) None []);
   (MSIZE, op_entry opMsize (constGasFunc GasQuickStep) (makeStackFunc 0 1) None []);
   (GAS, op_entry opGas (constGasFunc GasQuickStep) (makeStackFunc 0 1) None []);
   (JUMPDEST, op_entry opJumpdest (constGasFunc JumpdestGas) (makeStackFunc 0 0) None [])].
Definition frontier_push_low : JumpTable :=
  [(PUSH1, op_entry (makePush 1 1) gasPush (makeStackFunc 0 1) None []);
   (PUSH2, op_entry (makePush 2 2) gasPush (makeStackFunc 0 1) None []);
   (PUSH3, op_entry (makePush 3 3) gasPush (makeStackFunc 0 1) None []);
   (PUSH4, op_entry (makePush 4 4) gasPush (makeStackFunc 0 1) None []);
   (PUSH5, op_entry (makePush 5 5) gasPush (makeStackFunc 0 1) None []);
   (PUSH6, op_entry (makePush 6 6) gasPush (makeStackFunc 0 1) None []);
   (PUSH7, op_entry (makePush 7 7) gasPush (makeStackFunc 0 1) None []);
   (PUSH8, op_entry (makePush 8 8) gasPush (makeStackFunc 0 1) None []);
   (PUSH9, op_entry (makePush 9 9) gasPush (makeStackFunc 0 1) None []);
   (PUSH10, op_entry (makePush 10 10) gasPush (makeStackFunc 0 1) None []);
   (PUSH11, op_entry (makePush 11 11) gasPush (makeStackFunc 0 1) None []);
   (PUSH12, op_entry (makePush 12 12) gasPush (makeStackFunc 0 1) None []);
   (PUSH13, op_entry (makePush 13 13) gasPush (makeStackFunc 0 1) None []);
   (PUSH14, op_entry (makePush 14 14) gasPush (makeStackFunc 0 1) None []);
   (PUSH15, op_entry (makePush 15 15) gasPush (makeStackFunc 0 1) None []);
   (PUSH16, op_entry (makePush 16 16) gasPush (makeStackFunc 0 1) None [])].
Definition frontier_push_high : JumpTable :=
  [(PUSH17, op_entry (makePush 17 17) gasPush (makeStackFunc 0 1) None []);
   (PUSH18, op_entry (makePush 18 18) gasPush (makeStackFunc 0 1) None []);
   (PUSH19, op_entry (makePush 19 19) gasPush (makeStackFunc 0 1) None []);
   (PUSH20, op_entry (makePush 20 20) gasPush (makeStackFunc 0 1) None []);
   (PUSH21, op_entry (makePush 21 21) gasPush (makeStackFunc 0 1) None []);
   (PUSH22, op_entry (makePush 22 22) gasPush (makeStackFunc 0 1) None []);
   (PUSH23, op_entry (makePush 23 23) gasPush (makeStackFunc 0 1) None []);
   (PUSH24, op_entry (makePush 24 24) gasPush (makeStackFunc 0 1) None []);
   (PUSH25, op_entry (makePush 25 25) gasPush (makeStackFunc 0 1) None []);
   (PUSH26, op_entry (makePush 26 26) gasPush (makeStackFunc 0 1) None []);
   (PUSH27, op_entry (makePush 27 27) gasPush (makeStackFunc 0 1) None []);
   (PUSH28, op_entry (makePush 28 28) gasPush (makeStackFunc 0 1) None []);
   (PUSH29, op_entry (makePush 29 29) gasPush (makeStackFunc 0 1) None []);
   (PUSH30, op_entry (makePush 30 30) gasPush (makeStackFunc 0 1) None []);
   (PUSH31, op_entry (makePush 31 31) gasPush (makeStackFunc 0 1) None []);
   (PUSH32, op_entry (makePush 32 32) gasPush (makeStackFunc 0 1) None [])].
Definition frontier_dup : JumpTable :=
  [(DUP1, op_entry (makeDup 1) gasDup (makeDupStackFunc 1) None []);
   (DUP2, op_entry (makeDup 2) gasDup (makeDupStackFunc 2) None []);
   (DUP3, op_entry (makeDup 3) gasDup (makeDupStackFunc 3) None []);
   (DUP4, op_entry (makeDup 4) gasDup (makeDupStackFunc 4) None []);
   (DUP5, op_entry (makeDup 5) gasDup (makeDupStackFunc 5) None []);
   (DUP6, op_entry (makeDup 6) gasDup (makeDupStackFunc 6) None []);
   (DUP7, op_entry (makeDup 7) gasDup (makeDupStackFunc 7) None []);
   (DUP8, op_entry (makeDup 8) gasDup (makeDupStackFunc 8) None []);
   (DUP9, op_entry (makeDup 9) gasDup (makeDupStackFunc 9) None []);
   (DUP10, op_entry (makeDup 10) gasDup (makeDupStackFunc 10) None []);
   (DUP11, op_entry (makeDup 11) gasDup (makeDupStackFunc 11) None []);
   (DUP12, op_entry (makeDup 12) gasDup (makeDupStackFunc 12) None []);
   (DUP13, op_entry (makeDup 13) gasDup (makeDupStackFunc 13) None []);
   (DUP14, op_entry (makeDup 14) gasDup (makeDupStackFunc 14) None []);
   (DUP15, op_entry (makeDup 15) gasDup (makeDupStackFunc 15) None []);
   (DUP16, op_entry (makeDup 16) gasDup (makeDupStackFunc 16) None [])].
Definition frontier_swap : JumpTable :=
  [(SWAP1, op_entry (makeSwap 1) gasSwap (makeSwapStackFunc 2) None []);
   (SWAP2, op_entry (makeSwap 2) gasSwap (makeSwapStackFunc 3) None []);
   (SWAP3, op_entry (makeSwap 3) gasSwap (makeSwapStackFunc 4) None []);
   (SWAP4, op_entry (makeSwap 4) gasSwap (makeSwapStackFunc 5) None []);
   (SWAP5, op_entry (makeSwap 5) gasSwap (makeSwapStackFunc 6) None []);
   (SWAP6, op_entry (makeSwap 6) gasSwap (makeSwapStackFunc 7) None []);
   (SWAP7, op_entry (makeSwap 7) gasSwap (makeSwapStackFunc 8) None []);
   (SWAP8, op_entry (makeSwap 8) gasSwap (makeSwapStackFunc 9) None []);
   (SWAP9, op_entry (makeSwap 9) gasSwap (makeSwapStackFunc 10) None []);
   (SWAP10, op_entry (makeSwap 10) gasSwap (makeSwapStackFunc 11) None []);
   (SWAP11, op_entry (makeSwap 11) gasSwap (makeSwapStackFunc 12) None []);
   (SWAP12, op_entry (makeSwap 12) gasSwap (makeSwapStackFunc 13) None []);
   (SWAP13, op_entry (makeSwap 13) gasSwap (makeSwapStackFunc 14) None []);
   (SWAP14, op_entry (makeSwap 14) gasSwap (makeSwapStackFunc 15) None []);
   (SWAP15, op_entry (makeSwap 15) gasSwap (makeSwapStackFunc 16) None []);
   (SWAP16, op_entry (makeSwap 16) gasSwap (makeSwapStackFunc 17) None [])].
Definition frontier_log : JumpTable :=
  [(LOG0, op_entry (makeLog env 0%nat) (makeGasLog 0) (makeStackFunc 2 0) (Some memoryLog) [Writes]);
   (LOG1, op_entry (makeLog env 1%nat) (makeGasLog 1) (makeStackFunc 3 0) (Some memoryLog) [Writes]);
   (LOG2, op_entry (makeLog env 2%nat) (makeGasLog 2) (makeStackFunc 4 0) (Some memoryLog) [Writes]);
   (LOG3, op_entry (makeLog env 3%nat) (makeGasLog 3) (makeStackFunc 5 0) (Some memoryLog) [Writes]);
   (LOG4, op_entry (makeLog env 4%nat) (makeGasLog 4) (makeStackFunc 6 0) (Some memoryLog) [Writes])].
Definition frontier_closures : JumpTable :=
  [(CREATE, op_entry (opCreate env Run) gasCreate (makeStackFunc 3 1) (Some memoryCreate) [Writes; Returns]);
   (CALL, op_entry (opCall env Run) (gasCall env) (makeStackFunc 7 1) (Some memoryCall) [Returns]);
   (CALLCODE, op_entry (opCallCode env Run) gasCallCode (makeStackFunc 7 1) (Some memoryCall) [Returns]);
   (RETURN, op_entry opReturn gasReturn (makeStackFunc 2 0) (Some memoryReturn) [Halts]);
   (SELFDESTRUCT, op_entry opSuicide (gasSuicide env) (makeStackFunc 1 0) None [Halts; Writes])].
Definition newFrontierInstructionSet : JumpTable :=
  frontier_arithmetic ++ frontier_comparison ++ frontier_closure_state ++ frontier_block ++
  frontier_storage ++ frontier_push_low ++ frontier_push_high ++ frontier_dup ++ frontier_swap ++
  frontier_log ++ frontier_closures.

Definition newHomesteadInstructionSet : JumpTable :=
  [(DELEGATECALL, op_entry (opDelegateCall env Run) gasDelegateCall (makeStackFunc 6 1) (Some memoryDelegateCall) [Returns])] ++ newFrontierInstructionSet.

Definition newByzantiumInstructionSet : JumpTable :=
  [(REVERT, op_entry opRevert gasRevert (makeStackFunc 2 0) (Some memoryRevert) [Reverts; Returns]);
   (RETURNDATACOPY, op_entry opReturnDataCopy gasReturnDataCopy (makeStackFunc 3 0) (Some memoryReturnDataCopy) []);
   (RETURNDATASIZE, op_entry opReturnDataSize (constGasFunc GasQuickStep) (makeStackFunc 0 1) None []);
   (STATICCALL, op_entry (opStaticCall env Run) gasStaticCall (makeStackFunc 6 1) (Some memoryStaticCall) [Returns])] ++ newHomesteadInstructionSet.

Definition newConstantinopleInstructionSet : JumpTable :=
  [(CREATE2, op_entry (opCreate2 env Run) gasCreate2 (makeStackFunc 4 1) (Some memoryCreate2) [Writes; Returns]);
   (EXTCODEHASH, op_entry opExtCodeHash gasExtCodeHash (makeStackFunc 1 1) None []);
   (SAR, op_entry opSAR (constGasFunc GasFastestStep) (makeStackFunc 2 1) None []);
   (SHR, op_entry opSHR (constGasFunc GasFastestStep) (makeStackFunc 2 1) None []);
   (SHL, op_entry opSHL (constGasFunc GasFastestStep) (makeStackFunc 2 1) None [])] ++ newByzantiumInstructionSet.

(** The table [NewEVMInterpreter] picks. *)
Definition instructionSet : JumpTable :=
  if IsConstantinople (chainConfig env) (number env) then newConstantinopleInstructionSet
  else if IsByzantium (chainConfig env) (number env) then newByzantiumInstructionSet
  else if IsHomestead (chainConfig env) (number env) then newHomesteadInstructionSet
  else newFrontierInstructionSet.
End jump_tables.
