(* ===== verification/InstrSpec.v ===== *)
(** * What the arithmetic instructions compute

    The instructions of [core/vm/instructions.go] that work on the stack alone,
    as the jump table of a block has them, against the definitions of the
    operations on 256-bit words: unsigned words are the numbers below 2^256,
    signed words are in two's complement. *)

From S2P Require Import Prelude CommonMath Params Opcodes StateIface Machine EvmTypes GasTable Evm Instructions JumpTable.
From Stdlib Require Import Zquot.
Local Open Scope Z_scope.

(** The signed number a word stands for, and the word of a number. *)
Definition signed (x : Z) : Z := if x <? 2 ^ 255 then x else x - 2 ^ 256.
Definition word (x : Z) : Z := x mod 2 ^ 256.
Definition truth (b : bool) : Z := if b then 1 else 0.

Section spec.
Context {S : Type} `{StateDB S} `{Crypto}.

(** With the arguments on top of the stack, the instruction replaces them by
    the result and touches nothing else. *)
Definition evaluates (ex : M (Frame S) (bytes * option Error)) (args : list Z) (r : Z) : Prop :=
  forall f rest, stack f = args ++ rest -> ex f = Ok (([], None), set_stack (r :: rest) f).

Lemma evaluates_eq ex args r r' : evaluates ex args r -> r = r' -> evaluates ex args r'.
Proof. by intros He <-. Qed.

Lemma S256_signed x : is_u256 x -> S256 x = signed x.
Proof. intros Hx. by unfold S256, signed. Qed.

(** The shapes of the instructions. *)
Lemma eval_peek1 (g : Z -> Z) x : evaluates (x ← peek; poke (g x);; mret ([] : bytes, None : option Error)) [x] (g x).
Proof. intros [p c m st e] rest Hs. cbn in Hs. subst st. reflexivity. Qed.
Lemma eval_peek2 (g : Z -> Z -> Z) x y : evaluates (x ← pop; y ← peek; poke (g x y);; mret ([] : bytes, None : option Error)) [x; y] (g x y).
Proof. intros [p c m st e] rest Hs. cbn in Hs. subst st. reflexivity. Qed.
Lemma eval_pop2 (g : Z -> Z -> Z) x y : evaluates (x ← pop; y ← pop; push (g x y);; mret ([] : bytes, None : option Error)) [x; y] (g x y).
Proof. intros [p c m st e] rest Hs. cbn in Hs. subst st. reflexivity. Qed.
Lemma eval_pop3 (g : Z -> Z -> Z -> Z) x y z : evaluates (x ← pop; y ← pop; z ← pop; push (g x y z);; mret ([] : bytes, None : option Error)) [x; y; z] (g x y z).
Proof. intros [p c m st e] rest Hs. cbn in Hs. subst st. reflexivity. Qed.

(** The instruction has one of the shapes, and what it computes is [r]. *)
Lemma eval_peek1_eq (g : Z -> Z) x r : g x = r -> evaluates (x ← peek; poke (g x);; mret ([] : bytes, None : option Error)) [x] r.
Proof. intros <-. apply eval_peek1. Qed.
Lemma eval_peek2_eq (g : Z -> Z -> Z) x y r : g x y = r -> evaluates (x ← pop; y ← peek; poke (g x y);; mret ([] : bytes, None : option Error)) [x; y] r.
Proof. intros <-. apply eval_peek2. Qed.
Lemma eval_pop2_eq (g : Z -> Z -> Z) x y r : g x y = r -> evaluates (x ← pop; y ← pop; push (g x y);; mret ([] : bytes, None : option Error)) [x; y] r.
Proof. intros <-. apply eval_pop2. Qed.
Lemma eval_pop3_eq (g : Z -> Z -> Z -> Z) x y z r :
  g x y z = r -> evaluates (x ← pop; y ← pop; z ← pop; push (g x y z);; mret ([] : bytes, None : option Error)) [x; y; z] r.
Proof. intros <-. apply eval_pop3. Qed.

Lemma U256_word x : U256 x = word x.
Proof. apply U256_mod. Qed.
Lemma word_small x : 0 <= x < 2 ^ 256 -> word x = x.
Proof. apply Z.mod_small. Qed.
Lemma signed_range x : is_u256 x -> - 2 ^ 255 <= signed x < 2 ^ 255.
Proof. intros Hx. rewrite <- S256_signed by done. by apply S256_range. Qed.
Lemma signed_zero x : is_u256 x -> signed x = 0 <-> x = 0.
Proof. unfold is_u256, signed. intros Hx. destruct (Z.ltb_spec x (2 ^ 255)); lia. Qed.

(** Division and remainder by magnitudes and signs are the truncated ones. *)
Lemma quot_by_sign x y :
  (if negb (Z.sgn x =? Z.sgn y) then - (Z.abs x / Z.abs y) else Z.abs x / Z.abs y) = Z.quot x y
  \/ x = 0 \/ y = 0.
Proof.
  destruct (Z.eq_dec x 0); [by auto|]. destruct (Z.eq_dec y 0); [by auto|]. left.
  rewrite Z.quot_div by done. destruct x, y; try done; cbn -[Z.div Z.mul Z.opp]; ring.
Qed.
Lemma rem_by_sign x y :
  y <> 0 -> (if Z.sgn x <? 0 then - (Z.abs x mod Z.abs y) else Z.abs x mod Z.abs y) = Z.rem x y.
Proof.
  intros Hy. rewrite Z.rem_mod by done. destruct x; cbn -[Z.modulo Z.mul Z.opp]; [|ring..].
  rewrite Z.mod_0_l; lia.
Qed.

(** Setting all the bits from [n] on. *)
Lemma lor_lnot_ones x n : 0 <= n -> Z.lor x (Z.lnot (Z.ones n)) = x mod 2 ^ n - 2 ^ n.
Proof.
  intros Hn. assert (0 < 2 ^ n) as Hp by (by apply Z.pow_pos_nonneg).
  rewrite <- (Z.lnot_involutive x) at 1. rewrite <- Z.lnot_land, Z.land_ones by done.
  unfold Z.lnot. rewrite (Z.mod_eq x) by lia.
  assert ((Z.pred (- x)) mod 2 ^ n = 2 ^ n - 1 - x mod 2 ^ n) as ->.
  { symmetry. apply (Z.mod_unique_pos _ _ (- (x / 2 ^ n) - 1)); [pose proof (Z.mod_pos_bound x (2 ^ n)); lia|].
    pose proof (Z.div_mod x (2 ^ n)). nia. }
  rewrite (Z.mod_eq x) by lia. lia.
Qed.

Lemma signextend_bits x n :
  0 <= n -> (if Z.testbit x n then Z.lor x (Z.lnot (Z.ones n)) else Z.land x (Z.ones n))
  = let low := x mod 2 ^ (n + 1) in if low <? 2 ^ n then low else low - 2 ^ (n + 1).
Proof.
  intros Hn. assert (0 < 2 ^ n) as Hp by (by apply Z.pow_pos_nonneg). cbn zeta.
  rewrite lor_lnot_ones, Z.land_ones by done. rewrite Z.pow_add_r, Z.pow_1_r by lia.
  rewrite Z.rem_mul_r by lia.
  pose proof (Z.mod_pos_bound x (2 ^ n)). pose proof (Z.testbit_spec' x n Hn) as Hb.
  destruct (Z.testbit x n); cbn [Z.b2z] in Hb; rewrite <- Hb.
  - destruct (Z.ltb_spec (x mod 2 ^ n + 2 ^ n * 1) (2 ^ n)); lia.
  - destruct (Z.ltb_spec (x mod 2 ^ n + 2 ^ n * 0) (2 ^ n)); lia.
Qed.

(** Copies the sign bit of the low [k+1] bytes of a word upwards. *)
Definition sign_extend (k x : Z) : Z :=
  if k <? 31 then
    let low := x mod 256 ^ (k + 1) in
    word (if low <? 256 ^ (k + 1) / 2 then low else low - 256 ^ (k + 1))
  else x.

(** ** The groups of instructions *)

(** The unsigned operations: sum, difference and product wrap at 2^256,
    division and remainder by zero give zero, and the sum and product of
    ADDMOD and MULMOD do not wrap before the reduction. *)
Lemma unsigned_arithmetic x y z :
  is_u256 x -> is_u256 y -> is_u256 z ->
  evaluates opAdd [x; y] (word (x + y)) /\ evaluates opSub [x; y] (word (x - y)) /\
  evaluates opMul [x; y] (word (x * y)) /\
  evaluates opDiv [x; y] (if y =? 0 then 0 else x / y) /\
  evaluates opMod [x; y] (if y =? 0 then 0 else x mod y) /\
  evaluates opAddmod [x; y; z] (if z =? 0 then 0 else (x + y) mod z) /\
  evaluates opMulmod [x; y; z] (if z =? 0 then 0 else (x * y) mod z) /\
  evaluates opLt [x; y] (truth (x <? y)) /\ evaluates opGt [x; y] (truth (y <? x)) /\
  evaluates opEq [x; y] (truth (x =? y)) /\ evaluates opIszero [x] (truth (x =? 0)).
Proof.
  unfold is_u256. intros Hx Hy Hz.
  assert (forall n, 0 <= n mod z < 2 ^ 256 \/ z = 0) as Hm
    by (intros n; destruct (Z.eq_dec z 0); [by right|left; pose proof (Z.mod_pos_bound n z); lia]).
  split_and!; unfold opAdd, opSub, opMul, opDiv, opMod, opAddmod, opMulmod, opLt, opGt, opEq, opIszero, nil_nil.
  - apply eval_peek2_eq, U256_word.
  - apply eval_peek2_eq, U256_word.
  - apply eval_pop2_eq, U256_word.
  - apply eval_peek2_eq. destruct (Z.eqb_spec y 0); cbn [negb]; [done|]. rewrite U256_word.
    apply word_small. split; [apply Z.div_pos; lia|]. apply Z.div_lt_upper_bound; nia.
  - apply eval_pop2_eq. destruct (Z.eqb_spec y 0); [done|]. rewrite U256_word.
    apply word_small. pose proof (Z.mod_pos_bound x y). lia.
  - apply (eval_pop3_eq (fun x y z => if 0 <? z then U256 ((x + y) mod z) else 0)).
    destruct (Z.eqb_spec z 0), (Z.ltb_spec 0 z); try lia. rewrite U256_word.
    apply word_small. destruct (Hm (x + y)); lia.
  - apply (eval_pop3_eq (fun x y z => if 0 <? z then U256 ((x * y) mod z) else 0)).
    destruct (Z.eqb_spec z 0), (Z.ltb_spec 0 z); try lia. rewrite U256_word.
    apply word_small. destruct (Hm (x * y)); lia.
  - by apply eval_peek2_eq.
  - by apply (eval_peek2_eq (fun x y => if y <? x then 1 else 0)).
  - by apply eval_peek2_eq.
  - apply (eval_peek1_eq (fun x => if 0 <? x then 0 else 1)).
    destruct (Z.ltb_spec 0 x), (Z.eqb_spec x 0); try lia; done.
Qed.

(** The signed operations, in two's complement: division rounds towards
    zero, the remainder has the sign of the dividend, and the comparisons are
    those of the signed numbers. The one overflow of the division, the least
    number by minus one, wraps around to itself. *)
Lemma signed_arithmetic x y :
  is_u256 x -> is_u256 y ->
  evaluates opSdiv [x; y] (word (Z.quot (signed x) (signed y))) /\
  evaluates opSmod [x; y] (if y =? 0 then 0 else word (Z.rem (signed x) (signed y))) /\
  evaluates opSlt [x; y] (truth (signed x <? signed y)) /\
  evaluates opSgt [x; y] (truth (signed y <? signed x)).
Proof.
  intros Hx Hy. pose proof (signed_zero x Hx) as Hx0. pose proof (signed_zero y Hy) as Hy0.
  assert (forall n, (Z.sgn n =? 0) = (n =? 0)) as Hsgn by (intros []; done).
  split_and!; unfold opSdiv, opSmod, opSlt, opSgt, nil_nil.
  - apply (eval_pop2_eq (fun x y => if (Z.sgn (S256 y) =? 0) || (Z.sgn (S256 x) =? 0) then 0
        else U256 (if negb (Z.sgn (S256 x) =? Z.sgn (S256 y)) then - (Z.abs (S256 x) / Z.abs (S256 y))
                   else Z.abs (S256 x) / Z.abs (S256 y)))).
    rewrite (S256_signed x Hx), (S256_signed y Hy), !Hsgn, U256_word.
    destruct (Z.eqb_spec (signed y) 0) as [->|]; [by rewrite Zquot_0_r|].
    destruct (Z.eqb_spec (signed x) 0) as [->|]; [by rewrite Z.quot_0_l|]. cbn [orb].
    destruct (quot_by_sign (signed x) (signed y)) as [->|[?|?]]; done.
  - apply (eval_pop2_eq (fun x y => if S256 y =? 0 then 0
        else U256 (if Z.sgn (S256 x) <? 0 then - (Z.abs (S256 x) mod Z.abs (S256 y))
                   else Z.abs (S256 x) mod Z.abs (S256 y)))).
    rewrite (S256_signed x Hx), (S256_signed y Hy), U256_word.
    destruct (Z.eqb_spec y 0), (Z.eqb_spec (signed y) 0); try tauto. by rewrite rem_by_sign.
  - apply eval_peek2_eq. unfold signed, truth. unfold is_u256 in *. change (BigPow 2 255) with (2 ^ 255).
    destruct (Z.leb_spec (2 ^ 255) x), (Z.ltb_spec y (2 ^ 255)), (Z.ltb_spec x (2 ^ 255)), (Z.leb_spec (2 ^ 255) y);
      try lia; cbn [andb]; repeat match goal with |- context [?a <? ?b] => destruct (Z.ltb_spec a b) end; lia.
  - apply eval_peek2_eq. unfold signed, truth. unfold is_u256 in *. change (BigPow 2 255) with (2 ^ 255).
    destruct (Z.leb_spec (2 ^ 255) x), (Z.ltb_spec y (2 ^ 255)), (Z.ltb_spec x (2 ^ 255)), (Z.leb_spec (2 ^ 255) y);
      try lia; cbn [andb]; repeat match goal with |- context [?a <? ?b] => destruct (Z.ltb_spec a b) end; lia.
Qed.

(** Exponentiation by squaring over the words of the exponent gives the
    power modulo 2^256. *)
Lemma exponentiation x y :
  is_u256 x -> is_u256 y -> evaluates opExp [x; y] (word (x ^ y)).
Proof.
  intros Hx Hy. unfold is_u256 in *. unfold opExp, nil_nil.
  apply (eval_pop2_eq (fun base exponent => if exponent <? 1 then 1 else if base =? 0 then 0
    else if exponent =? 1 then base else fst (Exp base exponent))).
  destruct (Z.ltb_spec y 1); [by replace y with 0 by lia|].
  destruct (Z.eqb_spec x 0) as [->|]; [rewrite Z.pow_0_l by lia; done|].
  destruct (Z.eqb_spec y 1) as [->|]; [rewrite Z.pow_1_r; symmetry; by apply word_small|].
  apply Exp_result; [done|lia].
Qed.

Lemma Uint64_small x : 0 <= x < 2 ^ 64 -> Uint64 x = x.
Proof. intros Hx. unfold Uint64. rewrite Z.abs_eq by lia. apply Z.mod_small. lia. Qed.

Lemma eval_not x : is_u256 x -> evaluates opNot [x] (2 ^ 256 - 1 - x).
Proof.
  unfold is_u256. intros Hx. unfold opNot, nil_nil. apply eval_peek1_eq. rewrite U256_word. unfold Z.lnot, word.
  symmetry. apply (Z.mod_unique_pos _ _ (-1)); lia.
Qed.
Lemma eval_byte x y :
  is_u256 x -> is_u256 y -> evaluates opByte [x; y] (if x <? 32 then y / 256 ^ (31 - x) mod 256 else 0).
Proof.
  unfold is_u256. intros Hx Hy. unfold opByte, nil_nil. apply eval_peek2_eq.
  destruct (Z.ltb_spec x 32); [|done]. unfold Int64.
  rewrite i64_id by lia. apply Byte_spec; lia.
Qed.
Lemma eval_signextend x y : is_u256 x -> is_u256 y -> evaluates opSignExtend [x; y] (sign_extend x y).
Proof.
  unfold is_u256. intros Hx Hy [p c m st e] rest Hs. cbn in Hs. subst st.
  transitivity ((when (x <? 31)
    (let bit := Uint64 x * 8 + 7 in
     num ← pop;
     let mask := Z.shiftl 1 bit - 1 in
     push (U256 (if Z.testbit num bit then Z.lor num (Z.lnot mask) else Z.land num mask)));;
    mret ([] : bytes, None : option Error)) (mkFrame p c m (y :: rest) e)); [reflexivity|].
  unfold sign_extend. destruct (Z.ltb_spec x 31) as [Hlt|]; [|reflexivity].
  transitivity (Ok ([] : bytes, None : option Error, mkFrame p c m (U256 (if Z.testbit y (Uint64 x * 8 + 7)
    then Z.lor y (Z.lnot (Z.shiftl 1 (Uint64 x * 8 + 7) - 1))
    else Z.land y (Z.shiftl 1 (Uint64 x * 8 + 7) - 1)) :: rest) e)); [reflexivity|].
  unfold set_stack. cbn [pc contract memory evm]. repeat f_equal.
  rewrite U256_word. cbn zeta. f_equal.
  rewrite Uint64_small by lia. change (Z.shiftl 1 (x * 8 + 7) - 1) with (Z.pred (Z.shiftl 1 (x * 8 + 7))).
  change (Z.pred (Z.shiftl 1 (x * 8 + 7))) with (Z.ones (x * 8 + 7)). rewrite signextend_bits by lia. cbn zeta.
  assert (2 ^ (x * 8 + 7 + 1) = 256 ^ (x + 1)) as ->
      by (change 256 with (2 ^ 8); rewrite <- Z.pow_mul_r by lia; f_equal; lia).
  assert (256 ^ (x + 1) / 2 = 2 ^ (x * 8 + 7)) as ->; [|done].
  change 256 with (2 ^ 8). rewrite <- Z.pow_mul_r by lia.
  replace (8 * (x + 1)) with (x * 8 + 7 + 1) by lia. rewrite Z.pow_add_r, Z.pow_1_r by lia.
  apply Z.div_mul. lia.
Qed.
Lemma eval_shl x y : is_u256 x -> is_u256 y -> evaluates opSHL [x; y] (word (y * 2 ^ x)).
Proof.
  unfold is_u256. intros Hx Hy. unfold opSHL, nil_nil.
  apply (eval_peek2_eq (fun shift value => if 256 <=? U256 shift then 0 else U256 (Z.shiftl (U256 value) (Uint64 (U256 shift))))).
  rewrite !U256_word, !(word_small x), !(word_small y) by lia. destruct (Z.leb_spec 256 x).
  - unfold word. replace x with (256 + (x - 256)) by lia. rewrite Z.pow_add_r by lia.
    replace (y * (2 ^ 256 * 2 ^ (x - 256))) with (y * 2 ^ (x - 256) * 2 ^ 256) by ring. by rewrite Z.mod_mul by lia.
  - by rewrite Uint64_small, Z.shiftl_mul_pow2 by lia.
Qed.
Lemma eval_shr x y : is_u256 x -> is_u256 y -> evaluates opSHR [x; y] (y / 2 ^ x).
Proof.
  unfold is_u256. intros Hx Hy. unfold opSHR, nil_nil.
  apply (eval_peek2_eq (fun shift value => if 256 <=? U256 shift then 0 else U256 (Z.shiftr (U256 value) (Uint64 (U256 shift))))).
  rewrite !U256_word, !(word_small x), !(word_small y) by lia. assert (0 < 2 ^ x) by (apply Z.pow_pos_nonneg; lia).
  destruct (Z.leb_spec 256 x).
  - symmetry. apply Z.div_small. assert (2 ^ 256 <= 2 ^ x) by (by apply Z.pow_le_mono_r). lia.
  - rewrite Uint64_small, Z.shiftr_div_pow2 by lia. apply word_small.
    split; [apply Z.div_pos; lia|]. apply Z.div_lt_upper_bound; nia.
Qed.
Lemma eval_sar x y : is_u256 x -> is_u256 y -> evaluates opSAR [x; y] (word (signed y / 2 ^ x)).
Proof.
  intros Hx Hy. pose proof (signed_range y Hy) as Hs. unfold opSAR, nil_nil.
  apply (eval_pop2_eq (fun shift value => if 256 <=? U256 shift then U256 (if 0 <=? S256 value then 0 else -1)
    else U256 (Z.shiftr (S256 value) (Uint64 (U256 shift))))).
  rewrite S256_signed by done. unfold is_u256 in *. rewrite !U256_word, !(word_small x) by lia.
  destruct (Z.leb_spec 256 x).
  - f_equal. assert (2 ^ 256 <= 2 ^ x) by (by apply Z.pow_le_mono_r).
    destruct (Z.leb_spec 0 (signed y)); [symmetry; apply Z.div_small; lia|].
    apply (Z.div_unique_pos _ _ _ (signed y + 2 ^ x)); lia.
  - by rewrite Uint64_small, Z.shiftr_div_pow2 by lia.
Qed.

(** Complement, byte selection, sign extension and the shifts: the logical
    ones multiply and divide by a power of two, the arithmetic one divides the
    signed number rounding down, also for shifts of 256 bits and more. *)
Lemma bit_operations x y :
  is_u256 x -> is_u256 y ->
  evaluates opNot [x] (2 ^ 256 - 1 - x) /\
  evaluates opByte [x; y] (if x <? 32 then y / 256 ^ (31 - x) mod 256 else 0) /\
  evaluates opSignExtend [x; y] (sign_extend x y) /\
  evaluates opSHL [x; y] (word (y * 2 ^ x)) /\ evaluates opSHR [x; y] (y / 2 ^ x) /\
  evaluates opSAR [x; y] (word (signed y / 2 ^ x)).
Proof.
  intros Hx Hy. split_and!.
  - apply eval_not. by unfold is_u256 in *.
  - by apply eval_byte.
  - by apply eval_signextend.
  - by apply eval_shl.
  - by apply eval_shr.
  - by apply eval_sar.
Qed.

(** ** The table of a block *)

(** Instructions with their arguments and the results on words. *)
Definition word_results (x y z : Z) : list (OpCode * list Z * Z) :=
  [(ADD, [x; y], word (x + y)); (SUB, [x; y], word (x - y)); (MUL, [x; y], word (x * y));
   (DIV, [x; y], if y =? 0 then 0 else x / y); (MOD, [x; y], if y =? 0 then 0 else x mod y);
   (ADDMOD, [x; y; z], if z =? 0 then 0 else (x + y) mod z);
   (MULMOD, [x; y; z], if z =? 0 then 0 else (x * y) mod z);
   (SDIV, [x; y], word (Z.quot (signed x) (signed y)));
   (SMOD, [x; y], if y =? 0 then 0 else word (Z.rem (signed x) (signed y)));
   (EXP, [x; y], word (x ^ y)); (SIGNEXTEND, [x; y], sign_extend x y);
   (LT, [x; y], truth (x <? y)); (GT, [x; y], truth (y <? x));
   (SLT, [x; y], truth (signed x <? signed y)); (SGT, [x; y], truth (signed y <? signed x));
   (EQ, [x; y], truth (x =? y)); (ISZERO, [x], truth (x =? 0));
   (AND, [x; y], Z.land x y); (OR, [x; y], Z.lor x y); (XOR, [x; y], Z.lxor x y);
   (NOT, [x], 2 ^ 256 - 1 - x); (BYTE, [x; y], if x <? 32 then y / 256 ^ (31 - x) mod 256 else 0)].
Definition shift_results (x y : Z) : list (OpCode * list Z * Z) :=
  [(SHL, [x; y], word (y * 2 ^ x)); (SHR, [x; y], y / 2 ^ x); (SAR, [x; y], word (signed y / 2 ^ x))].

Context (env : Env S) (Run : RunFunc S).
Definition computes (table : JumpTable (S := S)) (entry : OpCode * list Z * Z) : Prop :=
  let '(op, args, r) := entry in
  exists o, assoc Z.eqb op table = Some o /\ valid o = true /\ evaluates (execute o) args r.

Lemma computes_entry op o table args r :
  assoc Z.eqb op table = Some o -> valid o = true -> evaluates (execute o) args r -> computes table (op, args, r).
Proof. by exists o. Qed.

Lemma frontier_computes x y z :
  is_u256 x -> is_u256 y -> is_u256 z -> Forall (computes (newFrontierInstructionSet env Run)) (word_results x y z).
Proof.
  intros Hx Hy Hz. destruct (unsigned_arithmetic x y z Hx Hy Hz) as (?&?&?&?&?&?&?&?&?&?&?).
  destruct (signed_arithmetic x y Hx Hy) as (?&?&?&?). destruct (bit_operations x y Hx Hy) as (?&?&?&_).
  pose proof (exponentiation x y Hx Hy).
  repeat (apply Forall_cons; split; [eapply computes_entry; [reflexivity|reflexivity|cbn [execute op_entry]; try eassumption]|]).
  - by apply eval_pop2_eq.
  - by apply eval_peek2_eq.
  - by apply eval_peek2_eq.
  - by apply Forall_nil.
Qed.

(** A fork adds instructions; the others stay what they were. *)
Definition unchanged (table table' : JumpTable (S := S)) : Prop :=
  Forall (fun '(op, _, _) => assoc Z.eqb op table' = assoc Z.eqb op table) (word_results 0 0 0).
Lemma unchanged_computes table table' x y z :
  unchanged table table' -> Forall (computes table) (word_results x y z) -> Forall (computes table') (word_results x y z).
Proof.
  unfold unchanged, word_results. intros Hu Hc.
  repeat match goal with
  | H : Forall _ (_ :: _) |- _ => apply Forall_cons in H as [? H]
  | |- Forall _ (_ :: _) => apply Forall_cons; split
  | |- Forall _ [] => by apply Forall_nil
  end; unfold computes in *; match goal with H : _ = assoc _ _ _ |- _ => by rewrite H end.
Qed.
Lemma forks_unchanged : unchanged (newFrontierInstructionSet env Run) (instructionSet env Run).
Proof. unfold instructionSet. repeat case_match; repeat constructor. Qed.

(** C39. In the table of every block the instructions that work on words compute
    the operations on 256-bit numbers: sums and products wrap, division by zero
    gives zero, ADDMOD and MULMOD do not wrap before the reduction, the signed
    ones are those of two's complement with the remainder of the sign of the
    dividend, and EXP by squaring is the power. The shifts, also by 256 bits and
    more, are there from Constantinople on and not before. *)
Theorem instructions_compute x y z :
  is_u256 x -> is_u256 y -> is_u256 z ->
  Forall (computes (instructionSet env Run)) (word_results x y z) /\
  if IsConstantinople (chainConfig env) (number env) then Forall (computes (instructionSet env Run)) (shift_results x y)
  else Forall (fun '(op, _, _) => assoc Z.eqb op (instructionSet env Run) = None) (shift_results x y).
Proof.
  intros Hx Hy Hz. split; [exact (unchanged_computes _ _ x y z forks_unchanged (frontier_computes x y z Hx Hy Hz))|].
  destruct (bit_operations x y Hx Hy) as (_&_&_&?&?&?). unfold instructionSet. case_match.
  - repeat (apply Forall_cons; split; [eapply computes_entry; [reflexivity|reflexivity|cbn [execute op_entry]; eassumption]|]).
    by apply Forall_nil.
  - repeat case_match; repeat constructor.
Qed.
End spec.

