(* ===== verification/Interpreter.v ===== *)
(** * The interpreter

    Models [core/vm/interpreter.go]: the restrictions of read-only contexts,
    the main loop and the entry to it, and closes the recursion between the
    interpreter and the calls of [Evm]. The loop and the nested calls share one
    fuel. *)

From S2P Require Import Prelude CommonMath Params Opcodes StateIface Machine EvmTypes GasTable.
From S2P Require Import Evm Instructions JumpTable.
Local Open Scope Z_scope.

Section interpreter.
Context {S : Type} `{StateDB S} `{Crypto} (env : Env S).

Definition enforceRestrictions (op : OpCode) (operation : operation S)
    : M (Frame S) (option Error) :=
  ro ← gets (fun f => readOnly (evm f));
  if R_IsByzantium (chainRules env) && ro then
    if writes operation then mret (Some errWriteProtection)
    else if op =? CALL then
      v ← back 2;
      mret (if 0 <? BitLen v then Some errWriteProtection else None)
    else mret None
  else mret None.

(** The size of the memory an operation asks for, in whole words. *)
Definition requiredMemory (operation : operation S) : M (Frame S) (Error + Z) :=
  match memorySize operation with
  | None => mret (inr 0)
  | Some f =>
      st ← gets stack;
      ms ← of_option Index (f st);
      let '(memSize, overflow) := bigUint64 ms in
      if overflow : bool then mret (inl errGasUintOverflow)
      else
        let '(memorySize, overflow) := SafeMul (toWordSize memSize) 32 in
        mret (if overflow : bool then inl errGasUintOverflow else inr memorySize)
  end.

(** Takes the gas of an operation and makes room in memory. *)
Definition chargeGas (operation : operation S) (memorySize : Z) : M (Frame S) (option Error) :=
  cost ← gasCost operation (gasTable env) memorySize;
  match cost with
  | inl _ => mret (Some ErrOutOfGas)
  | inr cost =>
      c ← gets contract;
      let '(ok, c) := UseGas cost c in
      if negb ok then mret (Some ErrOutOfGas)
      else
        modify (set_contract c);;
        when (0 <? memorySize)
          (on_memory (modify (Memory_Resize memorySize)));;
        mret None
  end.

(** The end of a round: [None] goes on, [Some] leaves the loop. *)
Definition finish (operation : operation S) (r : bytes * option Error)
    : M (Frame S) (option (bytes * option Error)) :=
  let '(res, err) := r in
  when (returns operation) (on_evm (modify (set_returnData res)));;
  match err with
  | Some err => mret (Some ([], Some err))
  | None =>
      if reverts operation then mret (Some (res, Some errExecutionReverted))
      else if halts operation then mret (Some (res, None))
      else
        when (negb (jumps operation)) (modify (fun f => set_pc (u64 (pc f + 1)) f));;
        mret None
  end.

Definition zero_operation : operation S :=
  {| execute := nil_nil; gasCost := constGasFunc 0; validateStack := fun _ => None;
     memorySize := None; halts := false; jumps := false; writes := false; valid := false;
     reverts := false; returns := false |}.

(** One round of the loop. *)
Definition iteration (table : JumpTable) : M (Frame S) (option (bytes * option Error)) :=
  c ← gets contract;
  p ← gets pc;
  let op := GetOp c p in
  let operation := default zero_operation (assoc Z.eqb op table) in
  if negb (valid operation) then mret (Some ([], Some (InvalidOpcode op)))
  else
    st ← gets stack;
    match validateStack operation st with
    | Some err => mret (Some ([], Some err))
    | None =>
        err ← enforceRestrictions op operation;
        match err with
        | Some err => mret (Some ([], Some err))
        | None =>
            m ← requiredMemory operation;
            match m with
            | inl err => mret (Some ([], Some err))
            | inr memorySize =>
                err ← chargeGas operation memorySize;
                match err with
                | Some err => mret (Some ([], Some err))
                | None => r ← execute operation; finish operation r
                end
            end
        end
    end.

(** [atomic.LoadInt32(&in.evm.abort)] *)
Definition load_abort : M (Frame S) bool :=
  n ← gets (fun f => loads (evm f));
  on_evm (modify (fun e => set_loads (Datatypes.S (loads e)) e));;
  mret (abort env n).

(** The locals of [Run] exist only while its loop runs. *)
Definition in_frame (contract : Contract) (loop : M (Frame S) (bytes * option Error))
    : M (EVM S) (bytes * option Error * Contract) := fun e =>
  match loop (mkFrame 0 contract NewMemory newstack e) with
  | Ok ((ret, err), f) => Ok ((ret, err, EvmTypes.contract f), evm f)
  | Panic r => Panic r
  | OutOfFuel => OutOfFuel
  end.

(** [EVMInterpreter.Run] around a loop. *)
Definition interpreter_Run (loop : M (Frame S) (bytes * option Error)) : RunFunc S :=
  fun contract input ro =>
    modify (fun e => set_depth (depth e + 1) e);;
    inro ← gets readOnly;
    let enter := ro && negb inro in
    when enter (modify (set_readOnly true));;
    modify (set_returnData []);;
    r ← (if zlen (Code contract) =? 0 then mret ([], None, contract)
         else in_frame (set_Input input contract) loop);
    when enter (modify (set_readOnly false));;
    modify (fun e => set_depth (depth e - 1) e);;
    mret r.

Fixpoint Run_loop (fuel : nat) : M (Frame S) (bytes * option Error) :=
  match fuel with
  | O => out_of_fuel
  | Datatypes.S fuel' =>
      aborted ← load_abort;
      if aborted : bool then mret ([], None)
      else
        r ← iteration (instructionSet env (interpreter_Run (Run_loop fuel')));
        match r with
        | Some res => mret res
        | None => Run_loop fuel'
        end
  end.

Definition EVMInterpreter_Run (fuel : nat) : RunFunc S := interpreter_Run (Run_loop fuel).

(** The operations of the virtual machine, with the interpreter. *)
Definition EVM_Call (fuel : nat) := Call env (EVMInterpreter_Run fuel).
Definition EVM_CallCode (fuel : nat) := CallCode env (EVMInterpreter_Run fuel).
Definition EVM_DelegateCall (fuel : nat) := DelegateCall env (EVMInterpreter_Run fuel).
Definition EVM_StaticCall (fuel : nat) := StaticCall env (EVMInterpreter_Run fuel).
Definition EVM_Create (fuel : nat) := Create env (EVMInterpreter_Run fuel).
Definition EVM_Create2 (fuel : nat) := Create2 env (EVMInterpreter_Run fuel).

(** [NewEVM] on a state. *)
Definition NewEVM (s : S) : outcome (EVM S) :=
  if IsEWASM (chainConfig env) (number env)
  then Panic (Msg "No supported ewasm interpreter yet.")
  else Ok (mkEVM s 0 0 false [] ∅ 0).
End interpreter.
