(* ===== verification/EvmInv.v ===== *)
(** * Invariants of the virtual machine

    What is true of the virtual machine, a contract, the memory, the stack and
    a frame between instructions, how a state may evolve, and the rules to
    reason about the operations of a frame. *)

From S2P Require Import Prelude CommonMath Params Opcodes StateIface Machine EvmTypes GasTable Evm Instructions.
Local Open Scope Z_scope.

(** The gas a call may start with. Above it, the lengths a call of the modular
    exponentiation can pay for no longer fit the integers of the code. *)
Definition MaxGas : Z := 2 ^ 60.
Definition MaxMemory : Z := 0xffffffffe0.

(** A slice that fits Go's [int]. *)
Definition data_ok (d : bytes) : Prop := bytes_ok d /\ zlen d < 2 ^ 63.

Lemma data_ok_nil : data_ok [].
Proof. split; [apply Forall_nil_2|by vm_compute]. Qed.

Section invariants.
Context {S : Type} `{StateDB S} `{Crypto} {SL : StateDBLaws S}.

(** Every cached analysis is that of some program with the hash it is stored
    under. *)
Definition jumpdests_ok (jd : gmap Z (list Z)) : Prop :=
  forall h bits, jd !! h = Some bits ->
    exists c, codeBitmap c = Some bits /\ Keccak256Hash [c] = h.

Definition evm_ok (e : EVM S) : Prop :=
  inv (statedb e) /\ world_ok (view (statedb e)) /\ jumpdests_ok (jumpdests e) /\
  data_ok (returnData e) /\ 0 <= depth e.

Definition code_ok (c : Contract) : Prop :=
  data_ok (Code c) /\ (CodeHash c = 0 \/ CodeHash c = Keccak256Hash [Code c]) /\
  (forall bits, analysis c = Some bits -> codeBitmap (Code c) = Some bits).

Definition contract_ok (c : Contract) : Prop :=
  code_ok c /\ data_ok (Input c) /\ (exists v, value c = Some v /\ is_u256 v) /\
  0 <= Gas c < MaxGas.

Definition mem_ok (m : Memory) : Prop := bytes_ok (store m) /\ zlen (store m) <= MaxMemory.

Definition stack_ok (st : list Z) : Prop := Forall is_u256 st.

Definition frame_ok (f : Frame S) : Prop :=
  contract_ok (contract f) /\ mem_ok (memory f) /\ stack_ok (stack f) /\
  is_u64 (pc f) /\ evm_ok (evm f).

(** How the state evolves: under [ro], only by what a read-only context
    allows, and without losing snapshots. *)
Definition db_le (ro : bool) (s s' : S) : Prop :=
  inv s' /\ wtrace ro (view s) (view s') /\ revs s `prefix_of` revs s'.

Definition evm_le (ro : bool) (e e' : EVM S) : Prop :=
  evm_ok e' /\ depth e' = depth e /\ readOnly e' = readOnly e /\
  db_le ro (statedb e) (statedb e').

Lemma wtrace_weaken ro w w' : wtrace true w w' -> wtrace ro w w'.
Proof.
  induction 1 as [w|w1 w2 w3 Hst _ IH]; [constructor|]. eapply rtc_l; [|exact IH].
  remember true as b. destruct Hst; subst; try done; constructor.
Qed.

Lemma db_le_refl ro s : inv s -> db_le ro s s.
Proof. intros Hi. split; [done|]. split; [constructor|done]. Qed.

Lemma db_le_trans ro s1 s2 s3 : db_le ro s1 s2 -> db_le ro s2 s3 -> db_le ro s1 s3.
Proof.
  intros (_ & Ht1 & Hr1) (Hi & Ht2 & Hr2). split; [done|].
  unfold wtrace in *. by split; etrans.
Qed.

Lemma db_le_ok ro s s' : db_le ro s s' -> world_ok (view s) -> world_ok (view s').
Proof. intros (_ & Ht & _). by apply wtrace_ok with ro. Qed.

Lemma evm_le_refl ro e : evm_ok e -> evm_le ro e e.
Proof. intros He. split_and!; try done. apply db_le_refl, He. Qed.

Lemma evm_le_trans ro e1 e2 e3 : evm_le ro e1 e2 -> evm_le ro e2 e3 -> evm_le ro e1 e3.
Proof.
  intros (_ & Hd1 & Hr1 & Hs1) (He & Hd2 & Hr2 & Hs2).
  split_and!; [done|congruence|congruence|by eapply db_le_trans].
Qed.

(** An operation of the state database that steps to world [w]. *)
Lemma becomes_le ro s w s' :
  becomes inv view revs s w s' -> wtrace ro (view s) w -> db_le ro s s'.
Proof. intros (Hi & Hv & Hr) Ht. unfold db_le. rewrite Hv, Hr. by split_and!. Qed.

Lemma wtrace_once ro w w' : wstep ro w w' -> wtrace ro w w'.
Proof. apply rtc_once. Qed.

Lemma evm_ok_db ro e s' :
  evm_ok e -> db_le ro (statedb e) s' -> evm_ok (set_statedb s' e).
Proof.
  intros (Hi & Hw & Hj & Hr & Hd) Hle. split_and!; try done; [apply Hle|by eapply db_le_ok].
Qed.

Lemma evm_le_db ro e s' :
  evm_ok e -> db_le ro (statedb e) s' -> evm_le ro e (set_statedb s' e).
Proof. intros He Hle. split_and!; [by eapply evm_ok_db|done..]. Qed.

(** Reads of the state database: the world and the snapshots stay. *)
Lemma wp_db_read {A} (PN : reason -> Prop) (FU : Prop) (m : M S A) (P : A -> Prop)
    (Q : A -> EVM S -> Prop) e :
  evm_ok e ->
  wp never False m (fun a s' => P a /\ becomes inv view revs (statedb e) (view (statedb e)) s')
    (statedb e) ->
  (forall a s', P a -> becomes inv view revs (statedb e) (view (statedb e)) s' ->
     (forall ro, evm_le ro e (set_statedb s' e)) -> Q a (set_statedb s' e)) ->
  wp PN FU (on_db m) Q e.
Proof.
  intros He Hm HQ. apply wp_zoom. eapply wp_mono; [eapply wp_weaken; [exact Hm|done|done]|].
  intros a s' [HP Hb]. apply HQ; [done|done|]. intros ro. apply evm_le_db; [done|].
  eapply becomes_le; [done|constructor].
Qed.

(** Updates of the state database. *)
Lemma wp_db_write {A} (PN : reason -> Prop) (FU : Prop) ro (m : M S A) w
    (Q : A -> EVM S -> Prop) e :
  evm_ok e -> wtrace ro (view (statedb e)) w ->
  wp never False m (fun _ => becomes inv view revs (statedb e) w) (statedb e) ->
  (forall a s', becomes inv view revs (statedb e) w s' ->
     evm_le ro e (set_statedb s' e) -> Q a (set_statedb s' e)) ->
  wp PN FU (on_db m) Q e.
Proof.
  intros He Ht Hm HQ. apply wp_zoom. eapply wp_mono; [eapply wp_weaken; [exact Hm|done|done]|].
  intros a s' Hb. apply HQ; [done|]. apply evm_le_db; [done|]. by apply (becomes_le _ _ w).
Qed.

(** Reads of the state database, forgetting which state they end in. *)
Lemma wp_read {A} PN FU (m : M S A) (P : A -> Prop) (Q : A -> EVM S -> Prop) e :
  evm_ok e ->
  wp never False m (fun a s' => P a /\ becomes inv view revs (statedb e) (view (statedb e)) s')
    (statedb e) ->
  (forall a e', P a -> evm_ok e' -> view (statedb e') = view (statedb e) ->
     (forall ro, evm_le ro e e') -> Q a e') ->
  wp PN FU (on_db m) Q e.
Proof.
  intros He Hm HQ. eapply wp_db_read; [done|exact Hm|]. intros a s' HP (_ & Hv & _) Hle.
  apply HQ; [done|apply (Hle true)|done|done].
Qed.

(** ** Rules for the operations of a frame *)

Section frame_rules.
Context (PN : reason -> Prop) (FU : Prop).
Implicit Types (p : Z) (c : Contract) (m : Memory) (st : list Z) (e : EVM S).

Lemma wp_pop p c m x st e Q :
  Q x (mkFrame p c m st e) -> wp PN FU pop Q (mkFrame p c m (x :: st) e).
Proof. done. Qed.
Lemma wp_peek p c m x st e Q :
  Q x (mkFrame p c m (x :: st) e) -> wp PN FU peek Q (mkFrame p c m (x :: st) e).
Proof. done. Qed.
Lemma wp_push p c m x st e Q :
  Q tt (mkFrame p c m (x :: st) e) -> wp PN FU (push x) Q (mkFrame p c m st e).
Proof. done. Qed.
Lemma wp_poke p c m x y st e Q :
  Q tt (mkFrame p c m (x :: st) e) -> wp PN FU (poke x) Q (mkFrame p c m (y :: st) e).
Proof. done. Qed.
Lemma wp_back p c m n x st e Q :
  zindex st n = Some x -> Q x (mkFrame p c m st e) -> wp PN FU (back n) Q (mkFrame p c m st e).
Proof.
  intros Hx HQ. unfold back, wp, mbind, M_bind, gets. cbn. unfold Stack_Back. by rewrite Hx.
Qed.
Lemma wp_on_evm {A} (k : M (EVM S) A) p c m st e Q :
  wp PN FU k (fun a e' => Q a (mkFrame p c m st e')) e ->
  wp PN FU (on_evm k) Q (mkFrame p c m st e).
Proof. intros Hk. by apply wp_zoom. Qed.
Lemma wp_on_memory {A} (k : M Memory A) p c m st e Q :
  wp PN FU k (fun a m' => Q a (mkFrame p c m' st e)) m ->
  wp PN FU (on_memory k) Q (mkFrame p c m st e).
Proof. intros Hk. by apply wp_zoom. Qed.
End frame_rules.
End invariants.

(** A read with one of the laws. *)
Ltac read law He :=
  eapply wp_read; [exact He|apply law, (proj1 He)|].

(** One step of a computation on a frame. *)
Ltac wp_step :=
  lazymatch goal with
  | |- wp _ _ (mbind _ _) _ _ => apply wp_bind
  | |- wp _ _ (mret _) _ _ => apply wp_ret
  | |- wp _ _ pop _ (mkFrame _ _ _ (_ :: _) _) => apply wp_pop
  | |- wp _ _ peek _ (mkFrame _ _ _ (_ :: _) _) => apply wp_peek
  | |- wp _ _ (push _) _ _ => apply wp_push
  | |- wp _ _ (poke _) _ (mkFrame _ _ _ (_ :: _) _) => apply wp_poke
  | |- wp _ _ (gets _) _ _ => apply wp_gets
  | |- wp _ _ (modify _) _ _ => apply wp_modify
  | |- wp _ _ (db _) _ _ => apply wp_on_evm
  | |- wp _ _ (on_evm _) _ _ => apply wp_on_evm
  | |- wp _ _ (on_memory _) _ _ => apply wp_on_memory
  | |- wp _ _ (when ?b _) _ _ => apply wp_when; intros ?
  | |- wp _ _ nil_nil _ _ => apply wp_ret
  end.

(** Splits a frame and the operands an instruction takes. *)
Ltac take_operands :=
  repeat match goal with
  | Hs : stack_ok ?st, Hl : ?n <= ?r |- _ =>
      is_var st;
      lazymatch r with context [zlen st] => idtac end;
      destruct st as [|? st];
      [rewrite ?zlen_cons, zlen_nil in Hl; lia
      |rewrite ?zlen_cons in Hl;
       apply Forall_cons in Hs as [? Hs]; change (Forall is_u256 st) with (stack_ok st) in Hs]
  end.

(** Computes the fields of updated frames. *)
Ltac frame_simpl :=
  unfold Stack_push in *;
  cbn [pc contract memory stack evm set_pc set_contract set_memory set_stack set_evm
       statedb depth callGasTemp readOnly returnData jumpdests loads
       set_statedb set_depth set_callGasTemp set_readOnly set_returnData set_jumpdests set_loads
       fst snd] in *.

(** Runs the operations of a frame. *)
Ltac unfold_head t := match t with ?f _ => unfold_head f | _ => unfold t end.
Ltac run_frame :=
  cbv beta iota zeta delta
    [mbind M_bind mret M_ret when nil_nil push poke pop peek gets modify of_option
     Stack_pop Stack_peek Stack_push pc contract memory stack evm set_stack].
