(* ===== verification/InstrSafe.v ===== *)
(** * Instructions keep the invariants

    For every instruction that makes no call: started with enough operands and
    enough memory it does not panic, it leaves the declared number of items on
    the stack, every one of them a 256-bit word, and it keeps the invariants of
    the frame. *)

From S2P Require Import Prelude CommonMath Params Opcodes StateIface Machine EvmTypes GasTable.
From S2P Require Import Evm Instructions EvmInv.
Local Open Scope Z_scope.

Section safety.
Context {S : Type} `{StateDB S} `{Crypto} {SL : StateDBLaws S} {CL : CryptoLaws}.
Context (env : Env S).

(** What is assumed of the context: its numbers are 256-bit words, its
    functions on the state database move value as they should. *)
Definition context_ok (ctx : Context S) : Prop :=
  is_u256 (GasPrice ctx) /\
  (forall s a v, inv s -> wp never False (CanTransfer ctx a v) (fun b s' =>
     b = (v <=? w_balance (view s) a) /\ becomes inv view revs s (view s) s') s) /\
  (forall s a b v, inv s -> wp never False (Transfer ctx a b v) (fun _ =>
     becomes inv view revs s (w_add_balance b v (w_add_balance a (- v) (view s)))) s).

(** Writes are refused: the read-only flag is set and the rules enforce it. *)
Definition static (e : EVM S) : bool := R_IsByzantium (chainRules env) && readOnly e.

(** The rules of EIP-1283 are active. *)
Definition eip1283 : bool :=
  negb (R_IsPetersburg (chainRules env) || negb (R_IsConstantinople (chainRules env))).

(** The panics that are not excluded: a jump whose cached analysis is that of
    another program with the same hash, and, under EIP-1283, a refund counter
    below zero. *)
Definition allowed (r : reason) : Prop :=
  match r with
  | BadAnalysis code bits =>
      exists c, codeBitmap c = Some bits /\ c <> code /\
        Keccak256Hash [c] = Keccak256Hash [code]
  | _ => refund_panic r /\ eip1283 = true
  end.

Definition exec_post (pops pushes bound : Z) (f : Frame S) (r : bytes * option Error)
    (f' : Frame S) : Prop :=
  contract_ok (contract f') /\ Gas (contract f') <= bound /\ mem_ok (memory f') /\
  stack_ok (stack f') /\ zlen (stack f') = zlen (stack f) - pops + pushes /\
  is_u64 (pc f') /\ evm_le (static (evm f)) (evm f) (evm f') /\ data_ok (fst r).

(** The instruction works on any frame with [pops] operands that satisfies
    [pre]. *)
Definition exec_ok (pops pushes : Z) (pre : Frame S -> Prop) (ex : executed) : Prop :=
  forall f, frame_ok f -> pops <= zlen (stack f) -> pre f ->
    wp allowed False ex (exec_post pops pushes (Gas (contract f)) f) f.

Definition no_pre (f : Frame S) : Prop := True.

(** The memory holds what [fm] asks for. *)
Definition mem_pre (fm : memorySizeFunc) (f : Frame S) : Prop :=
  exists ms, fm (stack f) = Some ms /\ ms <= zlen (store (memory f)).

Definition writable (f : Frame S) : Prop := static (evm f) = false.

(** ** Instructions that only touch the stack *)

(** The instruction replaces the stack and does nothing else. *)
Definition stack_effect (pops pushes : Z) (ex : executed) : Prop :=
  forall f, frame_ok f -> pops <= zlen (stack f) ->
    exists st, ex f = Ok (([], None), set_stack st f) /\ stack_ok st /\
      zlen st = zlen (stack f) - pops + pushes.

Lemma stack_effect_ok pops pushes ex :
  stack_effect pops pushes ex -> exec_ok pops pushes no_pre ex.
Proof.
  intros He f Hf Hl _. destruct (He f Hf Hl) as (st & Heq & Hst & Hlen).
  unfold wp. rewrite Heq. destruct Hf as (Hc & Hm & _ & Hp & He').
  unfold exec_post. split_conj; try done; [by apply evm_le_refl|apply data_ok_nil].
Qed.

(** A closed computation on the stack of a frame. *)
Ltac stack_compute :=
  intros [p c m st e] Hf Hl; pose proof Hf as (Hc & Hm & Hst & Hp & He);
  frame_simpl; take_operands;
  match goal with |- exists st, ?ex _ = _ /\ _ => unfold_head ex end;
  eexists; split; [run_frame; reflexivity|]; frame_simpl; split;
  [repeat first [apply Forall_cons; split | done] | rewrite ?zlen_cons; lia].

Lemma u256_bool (b : bool) : is_u256 (if b then 1 else 0).
Proof. unfold is_u256. destruct b; lia. Qed.
Lemma u256_0 : is_u256 0.
Proof. unfold is_u256. lia. Qed.
Lemma u256_1 : is_u256 1.
Proof. unfold is_u256. lia. Qed.
Lemma u256_land x y : is_u256 x -> is_u256 y -> is_u256 (Z.land x y).
Proof.
  intros Hx Hy. rewrite <- (U256_id x Hx), <- (U256_id y Hy). unfold U256.
  rewrite (Z.land_comm y), Z.land_assoc, <- (Z.land_assoc x), Z.land_diag, <- Z.land_assoc,
    (Z.land_comm tt256m1), Z.land_assoc.
  apply U256_range.
Qed.
Lemma u256_lor x y : is_u256 x -> is_u256 y -> is_u256 (Z.lor x y).
Proof.
  intros Hx Hy. rewrite <- (U256_id x Hx), <- (U256_id y Hy). unfold U256.
  rewrite <- Z.land_lor_distr_l. apply U256_range.
Qed.
Lemma u256_lxor x y : is_u256 x -> is_u256 y -> is_u256 (Z.lxor x y).
Proof.
  intros Hx Hy. rewrite <- (U256_id x Hx), <- (U256_id y Hy). unfold U256.
  replace (Z.lxor _ _) with (Z.land (Z.lxor x y) tt256m1); [apply U256_range|].
  apply Z.bits_inj'. intros i Hi. rewrite !Z.land_spec, !Z.lxor_spec, !Z.land_spec.
  by destruct (Z.testbit x i), (Z.testbit y i), (Z.testbit tt256m1 i).
Qed.

Lemma u256_byte x n : 0 <= x -> 0 <= n < 32 -> is_u256 (Byte x 32 n).
Proof.
  intros. rewrite Byte_spec by done. pose proof (Z.mod_pos_bound (x / 256 ^ (31 - n)) 256).
  unfold is_u256. lia.
Qed.
Lemma u256_u64 x : is_u64 x -> is_u256 x.
Proof. unfold is_u64, is_u256. lia. Qed.
Lemma u256_zlen {A} (l : list A) : zlen l < 2 ^ 63 -> is_u256 (zlen l).
Proof. intros. pose proof (zlen_nonneg l). unfold is_u256. lia. Qed.
Lemma u256_Exp base e : is_u256 base -> is_u256 e -> is_u256 (fst (Exp base e)).
Proof.
  intros Hb [He _]. rewrite Exp_result by done. by apply Z.mod_pos_bound.
Qed.
Lemma u256_address a : is_u256 (Address_Big a).
Proof. pose proof (Address_Big_range a). unfold is_u256. lia. Qed.

(** Closes the range conditions of the values pushed. *)
Ltac u256 :=
  lazymatch goal with
  | |- is_u256 (if ?b then _ else _) => destruct b eqn:?; u256
  | |- is_u256 (U256 _) => apply U256_range
  | |- is_u256 0 => apply u256_0
  | |- is_u256 1 => apply u256_1
  | |- is_u256 (Z.land _ _) => by apply u256_land
  | |- is_u256 (Z.lor _ _) => by apply u256_lor
  | |- is_u256 (Z.lxor _ _) => by apply u256_lxor
  | |- is_u256 (Address_Big _) => apply u256_address
  | |- is_u256 (Hash_Big _) => apply Hash_Big_range
  | |- is_u256 (fst (Exp _ _)) => by apply u256_Exp
  | |- is_u256 _ => try solve [assumption | by apply u256_u64]
  end.

Lemma opAdd_ok : stack_effect 2 1 opAdd.
Proof. stack_compute; u256. Qed.
Lemma opSub_ok : stack_effect 2 1 opSub.
Proof. stack_compute; u256. Qed.
Lemma opMul_ok : stack_effect 2 1 opMul.
Proof. stack_compute; u256. Qed.
Lemma opDiv_ok : stack_effect 2 1 opDiv.
Proof. stack_compute; u256. Qed.
Lemma opSdiv_ok : stack_effect 2 1 opSdiv.
Proof. stack_compute; u256. Qed.
Lemma opMod_ok : stack_effect 2 1 opMod.
Proof. stack_compute; u256. Qed.
Lemma opSmod_ok : stack_effect 2 1 opSmod.
Proof. stack_compute; u256. Qed.
Lemma opExp_ok : stack_effect 2 1 opExp.
Proof. stack_compute; u256. Qed.
Lemma opSignExtend_ok : stack_effect 2 1 opSignExtend.
Proof.
  intros [p c m st e] Hf Hl. pose proof Hf as (Hc & Hm & Hst & Hp & He). frame_simpl. take_operands.
  destruct (z <? 31) eqn:Hz.
  - exists (U256 (let bit := Uint64 z * 8 + 7 in let mask := Z.shiftl 1 bit - 1 in
              if Z.testbit z0 bit then Z.lor z0 (Z.lnot mask) else Z.land z0 mask) :: st).
    split; [by unfold opSignExtend; run_frame; rewrite Hz|].
    split; [apply Forall_cons; split; [u256|done]|]. rewrite ?zlen_cons. lia.
  - exists (z0 :: st).
    split; [by unfold opSignExtend; run_frame; rewrite Hz|].
    split; [by apply Forall_cons|]. rewrite ?zlen_cons. lia.
Qed.
Lemma opNot_ok : stack_effect 1 1 opNot.
Proof. stack_compute; u256. Qed.
Lemma opLt_ok : stack_effect 2 1 opLt.
Proof. stack_compute; u256. Qed.
Lemma opGt_ok : stack_effect 2 1 opGt.
Proof. stack_compute; u256. Qed.
Lemma opSlt_ok : stack_effect 2 1 opSlt.
Proof. stack_compute; u256. Qed.
Lemma opSgt_ok : stack_effect 2 1 opSgt.
Proof. stack_compute; u256. Qed.
Lemma opEq_ok : stack_effect 2 1 opEq.
Proof. stack_compute; u256. Qed.
Lemma opIszero_ok : stack_effect 1 1 opIszero.
Proof. stack_compute; u256. Qed.
Lemma opAnd_ok : stack_effect 2 1 opAnd.
Proof. stack_compute; u256. Qed.
Lemma opOr_ok : stack_effect 2 1 opOr.
Proof. stack_compute; u256. Qed.
Lemma opXor_ok : stack_effect 2 1 opXor.
Proof. stack_compute; u256. Qed.
Lemma opByte_ok : stack_effect 2 1 opByte.
Proof.
  stack_compute. u256. apply u256_byte; [by apply H2|].
  unfold Int64. unfold is_u256 in *. rewrite i64_id by lia. lia.
Qed.
Lemma opAddmod_ok : stack_effect 3 1 opAddmod.
Proof. stack_compute; u256. Qed.
Lemma opMulmod_ok : stack_effect 3 1 opMulmod.
Proof. stack_compute; u256. Qed.
Lemma opSHL_ok : stack_effect 2 1 opSHL.
Proof. stack_compute; u256. Qed.
Lemma opSHR_ok : stack_effect 2 1 opSHR.
Proof. stack_compute; u256. Qed.
Lemma opSAR_ok : stack_effect 2 1 opSAR.
Proof. stack_compute; u256. Qed.

(** ** Environment instructions *)

Context (Hctx : context_ok (context env)).

Lemma be_dec_u256 d : bytes_ok d -> zlen d = 32 -> is_u256 (be_dec d).
Proof.
  intros Hd Hl. pose proof (be_dec_bound d Hd) as Hb.
  replace (length d) with 32%nat in Hb by (unfold zlen in Hl; lia).
  change (256 ^ Z.of_nat 32) with (2 ^ 256) in Hb. done.
Qed.

Lemma opAddress_ok : stack_effect 0 1 opAddress.
Proof. stack_compute; u256. Qed.
Lemma opOrigin_ok : stack_effect 0 1 (opOrigin env).
Proof. stack_compute; u256. Qed.
Lemma opCaller_ok : stack_effect 0 1 opCaller.
Proof. stack_compute; u256. Qed.
Lemma opCallValue_ok : stack_effect 0 1 opCallValue.
Proof.
  intros [p c m st e] Hf Hl. pose proof Hf as ((_ & _ & (v & Hv & Hr) & _) & Hm & Hst & Hp & He).
  exists (v :: st). frame_simpl. split; [unfold opCallValue; run_frame; by rewrite Hv|].
  split; [by apply Forall_cons|]. rewrite zlen_cons. lia.
Qed.
Lemma opCallDataLoad_ok : stack_effect 1 1 opCallDataLoad.
Proof.
  stack_compute. destruct Hc as (_ & (Hi & Hil) & _). unfold is_u256 in H1.
  apply be_dec_u256; [by apply getDataBig_ok|]. apply zlen_getDataBig; lia.
Qed.
Lemma opCallDataSize_ok : stack_effect 0 1 opCallDataSize.
Proof. stack_compute. apply u256_zlen, Hc. Qed.
Lemma opReturnDataSize_ok : stack_effect 0 1 opReturnDataSize.
Proof. stack_compute. apply u256_zlen, He. Qed.
Lemma opCodeSize_ok : stack_effect 0 1 opCodeSize.
Proof. stack_compute. apply u256_zlen, Hc. Qed.
Lemma opGasprice_ok : stack_effect 0 1 (opGasprice env).
Proof. stack_compute. apply Hctx. Qed.
Lemma opBlockhash_ok : stack_effect 1 1 (opBlockhash env).
Proof. stack_compute; u256. Qed.
Lemma opCoinbase_ok : stack_effect 0 1 (opCoinbase env).
Proof. stack_compute; u256. Qed.
Lemma opTimestamp_ok : stack_effect 0 1 (opTimestamp env).
Proof. stack_compute; u256. Qed.
Lemma opNumber_ok : stack_effect 0 1 (opNumber env).
Proof. stack_compute; u256. Qed.
Lemma opDifficulty_ok : stack_effect 0 1 (opDifficulty env).
Proof. stack_compute; u256. Qed.
Lemma opGasLimit_ok : stack_effect 0 1 (opGasLimit env).
Proof. stack_compute; u256. Qed.
Lemma opPop_ok : stack_effect 1 0 opPop.
Proof. stack_compute. Qed.
Lemma opPc_ok : stack_effect 0 1 opPc.
Proof. stack_compute; u256. Qed.
Lemma opMsize_ok : stack_effect 0 1 opMsize.
Proof.
  stack_compute. apply u256_zlen. destruct Hm as [_ Hm]. unfold MaxMemory in Hm. lia.
Qed.
Lemma opGas_ok : stack_effect 0 1 opGas.
Proof.
  stack_compute. destruct Hc as (_ & _ & _ & Hg). unfold MaxGas in Hg. unfold is_u256. lia.
Qed.
Lemma opJumpdest_ok : stack_effect 0 0 opJumpdest.
Proof. stack_compute. Qed.
Lemma opStop_ok : stack_effect 0 0 opStop.
Proof. stack_compute. Qed.

Lemma zindex_stack_ok (st : list Z) i x : stack_ok st -> zindex st i = Some x -> is_u256 x.
Proof.
  intros Hs. unfold zindex. destruct (0 <=? i); [|done]. intros Hx.
  by eapply Forall_lookup_1.
Qed.

Lemma makeDup_ok n : 1 <= n -> stack_effect n (n + 1) (makeDup n).
Proof.
  intros Hn [p c m st e] Hf Hl. pose proof Hf as (Hc & Hm & Hst & Hp & He). frame_simpl.
  destruct (zindex_Some st (n - 1)) as [x Hx]; [lia|].
  exists (x :: st). split; [|split].
  - unfold makeDup, Stack_dup. run_frame. by rewrite Hx.
  - apply Forall_cons. split; [by eapply zindex_stack_ok|done].
  - rewrite zlen_cons. lia.
Qed.

Lemma makeSwap_ok n : 0 <= n -> stack_effect (n + 1) (n + 1) (makeSwap n).
Proof.
  intros Hn [p c m st e] Hf Hl. pose proof Hf as (Hc & Hm & Hst & Hp & He). frame_simpl.
  destruct (zindex_Some st (n + 1 - 1)) as [x Hx]; [lia|].
  destruct (zindex_Some st 0) as [y Hy]; [lia|].
  eexists. split; [|split].
  - unfold makeSwap, Stack_swap. run_frame. rewrite Hx, Hy. reflexivity.
  - apply Forall_insert; [|by eapply zindex_stack_ok].
    apply Forall_insert; [done|by eapply zindex_stack_ok].
  - unfold zlen in *. rewrite !length_insert. lia.
Qed.

(** ** Instructions that read the state *)

(** Opens the specification of an instruction. *)
Ltac start_op :=
  intros [p c m st e] Hf Hl Hpre; pose proof Hf as (Hc & Hm & Hst & Hp & He);
  frame_simpl; take_operands;
  match goal with |- wp _ _ ?ex _ _ => unfold_head ex end.
(** Closes a goal about the frame an instruction leaves. *)
Ltac end_op :=
  unfold exec_post; frame_simpl; rewrite ?zlen_cons; split_conj;
  try first [ done | lia | apply data_ok_nil | by repeat (apply Forall_cons; split)
            | by apply evm_le_refl | by auto ].

Lemma opBalance_ok : exec_ok 1 1 no_pre opBalance.
Proof.
  start_op. repeat wp_step.
  apply (wp_db_read _ _ _ _ _ _ He (law_GetBalance _ _ (proj1 He))).
  intros b s' -> Hb Hle. repeat wp_step. end_op.
  apply Forall_cons; split; [|done]. apply w_balance_range, He.
Qed.

Lemma opExtCodeSize_ok : exec_ok 1 1 no_pre opExtCodeSize.
Proof.
  start_op. repeat wp_step.
  apply (wp_db_read _ _ _ _ _ _ He (law_GetCodeSize _ _ (proj1 He))).
  intros b s' -> Hb Hle. repeat wp_step. end_op.
  apply Forall_cons; split; [|done]. apply u256_zlen. apply w_get_ok, He.
Qed.

Lemma opExtCodeHash_ok : exec_ok 1 1 no_pre opExtCodeHash.
Proof.
  start_op. repeat wp_step.
  apply (wp_db_read _ _ _ _ _ _ He (law_Empty _ _ (proj1 He))).
  intros b s' -> Hb Hle. repeat wp_step. destruct (acct_empty _).
  { repeat wp_step. end_op. }
  pose proof (Hle true) as (He' & _).
  repeat wp_step. apply (wp_db_read _ _ _ _ _ _ He' (law_GetCodeHash _ _ (proj1 He'))).
  intros h s'' _ Hb' Hle'. repeat wp_step. end_op.
  - apply Forall_cons; split; [apply Hash_Bytes_range|done].
  - eapply evm_le_trans; [apply Hle|apply Hle'].
Qed.

Lemma opSload_ok : exec_ok 1 1 no_pre opSload.
Proof.
  start_op. repeat wp_step.
  apply (wp_db_read _ _ _ _ _ _ He (law_GetState _ _ _ (proj1 He))).
  intros b s' -> Hb Hle. repeat wp_step. end_op.
  apply Forall_cons; split; [apply Hash_Bytes_range|done].
Qed.

(** ** Memory *)

Lemma Memory_slice_ok m a l :
  mem_ok m -> 0 <= a -> 0 <= l -> a + l <= zlen (store m) ->
  exists d, Memory_slice a (a + l) m = Some d /\ data_ok d /\ zlen d = l.
Proof.
  intros [Hb Hs] Ha Hl Hal. unfold MaxMemory in Hs. unfold Memory_slice.
  rewrite !(proj2 (Z.leb_le _ _)) by lia. cbn [andb].
  exists (slice (store m) a (a + l)). split; [done|].
  rewrite zlen_slice by lia. split; [|lia]. split; [by apply bytes_ok_slice|].
  rewrite zlen_slice; lia.
Qed.

(** What a window of a memory that was made large enough looks like to the
    64-bit conversions. *)
Lemma window_small off l m :
  mem_ok m -> is_u256 off -> is_u256 l -> l <> 0 -> calcMemSize off l <= zlen (store m) ->
  0 <= off /\ 0 < l /\ off + l <= zlen (store m) /\ off + l < 2 ^ 63.
Proof.
  intros [_ Hs] [Ho _] [Hl _] Hne. unfold calcMemSize, MaxMemory in *.
  destruct (Z.eqb_spec l 0); [done|]. lia.
Qed.

Lemma Memory_Get_ok off l m :
  mem_ok m -> is_u256 off -> is_u256 l -> calcMemSize off l <= zlen (store m) ->
  exists d, Memory_Get (Int64 off) (Int64 l) m = Some d /\ data_ok d /\ zlen d = l.
Proof.
  intros Hm Ho Hl Hs. destruct (decide (l = 0)) as [->|Hne].
  { exists []. split; [done|]. split; [apply data_ok_nil|done]. }
  destruct (window_small _ _ _ Hm Ho Hl Hne Hs) as (? & ? & ? & ?).
  unfold Memory_Get, Int64. rewrite !i64_id by lia.
  destruct (Z.eqb_spec l 0); [done|]. rewrite (proj2 (Z.ltb_lt _ _)), (proj2 (Z.leb_le 0 l)) by lia.
  apply Memory_slice_ok; [done|lia..].
Qed.

Lemma Memory_GetPtr_ok off l m :
  mem_ok m -> is_u256 off -> is_u256 l -> calcMemSize off l <= zlen (store m) ->
  exists d, Memory_GetPtr (Int64 off) (Int64 l) m = Some d /\ data_ok d /\ zlen d = l.
Proof.
  intros Hm Ho Hl Hs. destruct (decide (l = 0)) as [->|Hne].
  { exists []. split; [done|]. split; [apply data_ok_nil|done]. }
  destruct (window_small _ _ _ Hm Ho Hl Hne Hs) as (? & ? & ? & ?).
  unfold Memory_GetPtr, Int64. rewrite !i64_id by lia.
  destruct (Z.eqb_spec l 0); [done|]. rewrite (proj2 (Z.ltb_lt _ _)) by lia.
  apply Memory_slice_ok; [done|lia..].
Qed.

Lemma mem_ok_copy m off n d :
  mem_ok m -> bytes_ok d -> 0 <= off -> 0 <= n -> off + n <= zlen (store m) ->
  mem_ok (set_store (copy_at (store m) off n d) m) /\
  zlen (copy_at (store m) off n d) = zlen (store m).
Proof.
  intros [Hb Hs] Hd Ho Hn Hl. assert (zlen (copy_at (store m) off n d) = zlen (store m)) as He
    by (by apply zlen_copy_at).
  split; [|done]. split; cbn; [by apply bytes_ok_copy_at|lia].
Qed.

Lemma Memory_Set_ok PN FU off l d m (Q : unit -> Memory -> Prop) :
  mem_ok m -> is_u256 off -> is_u256 l -> calcMemSize off l <= zlen (store m) -> bytes_ok d ->
  (forall m', mem_ok m' -> zlen (store m') = zlen (store m) -> Q tt m') ->
  wp PN FU (Memory_Set (Uint64 off) (Uint64 l) d) Q m.
Proof.
  intros Hm Ho Hl Hs Hd HQ. unfold Memory_Set. destruct (decide (l = 0)) as [->|Hne].
  { apply wp_ret. by apply HQ. }
  destruct (window_small _ _ _ Hm Ho Hl Hne Hs) as (? & ? & ? & ?).
  unfold Uint64. rewrite !Z.abs_eq, !(u64_id off), !(u64_id l) by (unfold is_u64; lia).
  rewrite (proj2 (Z.ltb_lt 0 l)) by lia. repeat wp_step. cbn [id].
  rewrite u64_id by (unfold is_u64; lia).
  rewrite (proj2 (Z.ltb_ge _ _)), (proj2 (Z.leb_le off _)) by lia. wp_step.
  destruct (mem_ok_copy m off l d) as [Hm' Hz]; [done..|lia|lia|lia|]. by apply HQ.
Qed.

Lemma Memory_Set32_ok PN FU off v m (Q : unit -> Memory -> Prop) :
  mem_ok m -> is_u256 off -> is_u256 v -> calcMemSize off 32 <= zlen (store m) ->
  (forall m', mem_ok m' -> Q tt m') ->
  wp PN FU (Memory_Set32 (Uint64 off) v) Q m.
Proof.
  intros Hm Ho Hv Hs HQ.
  destruct (window_small off 32 m) as (? & ? & ? & ?); [done..|unfold is_u256; lia|done|done|].
  unfold Memory_Set32, Uint64. rewrite !Z.abs_eq, !(u64_id off) by (unfold is_u64; lia).
  repeat wp_step. cbn [id]. rewrite u64_id by (unfold is_u64; lia).
  rewrite (proj2 (Z.ltb_ge _ _)), (proj2 (Z.leb_le off _)) by lia. repeat wp_step.
  destruct (mem_ok_copy m off 32 (zeros 32)) as [Hm1 Hz1]; [done|apply bytes_ok_zeros|lia..|].
  apply HQ. apply mem_ok_copy; [done| |lia|lia|cbn; lia].
  apply ReadBits_ok; [apply Hv|]. apply bytes_ok_slice, Hm1.
Qed.

Lemma wp_memory_Get PN FU off l p c m st e (Q : bytes -> Frame S -> Prop) :
  mem_ok m -> is_u256 off -> is_u256 l -> calcMemSize off l <= zlen (store m) ->
  (forall d, data_ok d -> zlen d = l -> Q d (mkFrame p c m st e)) ->
  wp PN FU (memory_Get (Int64 off) (Int64 l)) Q (mkFrame p c m st e).
Proof.
  intros Hm Ho Hl Hs HQ. destruct (Memory_Get_ok off l m) as (d & Hd & ? & ?); [done..|].
  unfold memory_Get. repeat wp_step. frame_simpl. eapply wp_of_option; [exact Hd|]. by apply HQ.
Qed.

Lemma wp_memory_GetPtr PN FU off l p c m st e (Q : bytes -> Frame S -> Prop) :
  mem_ok m -> is_u256 off -> is_u256 l -> calcMemSize off l <= zlen (store m) ->
  (forall d, data_ok d -> zlen d = l -> Q d (mkFrame p c m st e)) ->
  wp PN FU (memory_GetPtr (Int64 off) (Int64 l)) Q (mkFrame p c m st e).
Proof.
  intros Hm Ho Hl Hs HQ. destruct (Memory_GetPtr_ok off l m) as (d & Hd & ? & ?); [done..|].
  unfold memory_GetPtr. repeat wp_step. frame_simpl. eapply wp_of_option; [exact Hd|]. by apply HQ.
Qed.

(** Reads off the memory requirement of the operands. *)
Ltac mem_operands :=
  match goal with Hpre : mem_pre _ _ |- _ => destruct Hpre as (ms & [= <-] & Hms) end; frame_simpl.

Lemma keccak_u256 d : is_u256 (be_dec (keccak d)).
Proof.
  apply be_dec_u256; [apply keccak_ok|]. unfold zlen. by rewrite keccak_length.
Qed.

Lemma opSha3_ok : exec_ok 2 1 (mem_pre memorySha3) (opSha3 env).
Proof.
  start_op. mem_operands. repeat wp_step. apply wp_memory_Get; [done..|]. intros d Hd Hz.
  repeat wp_step.
  - eapply (wp_db_write _ _ (static e)); [done|apply wtrace_once, ws_preimage|
      apply law_AddPreimage, He|].
    intros _ s' Hb Hle. repeat wp_step. end_op. apply Forall_cons; split; [apply keccak_u256|done].
  - end_op. apply Forall_cons; split; [apply keccak_u256|done].
Qed.

Lemma opCallDataCopy_ok : exec_ok 3 0 (mem_pre memoryCallDataCopy) opCallDataCopy.
Proof.
  start_op. mem_operands. repeat wp_step. frame_simpl.
  apply Memory_Set_ok; [done..|apply getDataBig_ok, Hc|]. intros m' Hm' Hz. repeat wp_step. end_op.
Qed.
Lemma opCodeCopy_ok : exec_ok 3 0 (mem_pre memoryCodeCopy) opCodeCopy.
Proof.
  start_op. mem_operands. repeat wp_step. frame_simpl.
  apply Memory_Set_ok; [done..|apply getDataBig_ok, Hc|]. intros m' Hm' Hz. repeat wp_step. end_op.
Qed.
Lemma opExtCodeCopy_ok : exec_ok 4 0 (mem_pre memoryExtCodeCopy) opExtCodeCopy.
Proof.
  start_op. mem_operands. repeat wp_step.
  apply (wp_db_read _ _ _ _ _ _ He (law_GetCode _ _ (proj1 He))).
  intros code s' -> Hb Hle. repeat wp_step.
  apply Memory_Set_ok; [done..|apply getDataBig_ok, w_get_ok, He|]. intros m' Hm' Hz.
  repeat wp_step. end_op.
Qed.
Lemma opReturnDataCopy_ok : exec_ok 3 0 (mem_pre memoryReturnDataCopy) opReturnDataCopy.
Proof.
  start_op. mem_operands. repeat wp_step. frame_simpl.
  destruct ((64 <? BitLen (z0 + z1)) || _) eqn:Hend; [apply wp_ret; end_op|].
  apply orb_false_iff in Hend as [Hbl%Z.ltb_ge _].
  assert (0 <= z0 /\ 0 <= z1) as [? ?] by (unfold is_u256 in *; lia).
  apply BitLen_le in Hbl; [|lia..]. unfold Uint64 at 1 2.
  rewrite !Z.abs_eq, !u64_id by (unfold is_u64; lia). rewrite (proj2 (Z.leb_le _ _)) by lia.
  repeat wp_step. apply Memory_Set_ok; [done..|apply bytes_ok_slice, He|].
  intros m' Hm' Hz. repeat wp_step. end_op.
Qed.

Lemma opMload_ok : exec_ok 1 1 (mem_pre memoryMLoad) opMload.
Proof.
  start_op. mem_operands. repeat wp_step.
  change 32 with (Int64 32). apply wp_memory_Get; [done..|unfold is_u256; lia|done|].
  intros d [Hd _] Hz. repeat wp_step. end_op. apply Forall_cons; split; [by apply be_dec_u256|done].
Qed.
Lemma opMstore_ok : exec_ok 2 0 (mem_pre memoryMStore) opMstore.
Proof.
  start_op. mem_operands. repeat wp_step. apply Memory_Set32_ok; [done..|].
  intros m' Hm'. repeat wp_step. end_op.
Qed.
Lemma opMstore8_ok : exec_ok 2 0 (mem_pre memoryMStore8) opMstore8.
Proof.
  start_op. mem_operands. repeat wp_step. frame_simpl.
  destruct (window_small z 1 m) as (? & ? & ? & ?); [done..|unfold is_u256; lia|done|done|].
  unfold Int64. rewrite (i64_id z) by lia.
  rewrite (proj2 (Z.leb_le _ _)), (proj2 (Z.ltb_lt _ _)) by lia. cbn [andb].
  repeat wp_step. end_op. destruct Hm as [Hb Hs]. split; cbn.
  - apply Forall_insert; [done|]. change 0xff with (Z.ones 8).
    rewrite Z.land_ones by lia. by apply Z.mod_pos_bound.
  - unfold zlen in *. rewrite length_insert. lia.
Qed.
Lemma opReturn_ok : exec_ok 2 0 (mem_pre memoryReturn) opReturn.
Proof.
  start_op. mem_operands. repeat wp_step. apply wp_memory_GetPtr; [done..|]. intros d Hd Hz.
  repeat wp_step. end_op.
Qed.
Lemma opRevert_ok : exec_ok 2 0 (mem_pre memoryRevert) opRevert.
Proof.
  start_op. mem_operands. repeat wp_step. apply wp_memory_GetPtr; [done..|]. intros d Hd Hz.
  repeat wp_step. end_op.
Qed.

(** ** Instructions that write the state *)

Lemma BigToHash_u256 x : 0 <= x -> is_u256 (BigToHash x).
Proof. intros. rewrite BigToHash_spec by done. by apply Z.mod_pos_bound. Qed.

Lemma opSstore_ok : exec_ok 2 0 writable opSstore.
Proof.
  start_op. unfold writable in Hpre. frame_simpl. repeat wp_step. frame_simpl.
  eapply (wp_db_write _ _ (static e)); [done| |apply law_SetState, He|].
  { rewrite Hpre. apply wtrace_once, ws_state, BigToHash_u256. by apply H2. }
  intros _ s' Hb Hle. repeat wp_step. end_op.
Qed.

Lemma wp_pop_topics PN FU n p c m st e (Q : list Z -> Frame S -> Prop) :
  Z.of_nat n <= zlen st -> stack_ok st ->
  (forall ts st', stack_ok st' -> zlen st' = zlen st - Z.of_nat n -> Q ts (mkFrame p c m st' e)) ->
  wp PN FU (pop_topics n) Q (mkFrame p c m st e).
Proof.
  revert st Q. induction n as [|n IH]; intros st Q Hl Hst HQ.
  - apply wp_ret. apply HQ; [done|lia].
  - cbn [pop_topics]. destruct st as [|x st]; [rewrite zlen_nil in Hl; lia|].
    rewrite zlen_cons in *. apply Forall_cons in Hst as [_ Hst]. repeat wp_step.
    apply IH; [lia|done|]. intros ts st' Hst' Hz. repeat wp_step. apply HQ; [done|]. lia.
Qed.

Lemma makeLog_ok n :
  exec_ok (Z.of_nat n + 2) 0 (fun f => mem_pre memoryLog f /\ writable f) (makeLog env n).
Proof.
  intros [p c m st e] Hf Hl [Hpre Hw]. pose proof Hf as (Hc & Hm & Hst & Hp & He).
  unfold writable in Hw. frame_simpl.
  destruct st as [|z [|z0 st]]; [rewrite ?zlen_cons, zlen_nil in Hl; lia..|].
  apply Forall_cons in Hst as [Hz Hst]. apply Forall_cons in Hst as [Hz0 Hst].
  rewrite !zlen_cons in Hl. mem_operands. unfold makeLog. repeat wp_step.
  apply wp_pop_topics; [lia|done|]. intros ts st' Hst' Hlen. repeat wp_step.
  apply wp_memory_Get; [done..|]. intros d Hd Hzd. repeat wp_step. frame_simpl.
  apply wp_zoom. eapply wp_mono; [eapply wp_weaken; [apply law_AddLog, He|done|done]|].
  intros _ s' (l & _ & _ & _ & _ & Hb).
  assert (evm_le (static e) e (set_statedb s' e)) as Hle.
  { apply evm_le_db; [done|]. eapply becomes_le; [done|]. rewrite Hw.
    apply wtrace_once, ws_log. }
  repeat wp_step. end_op.
Qed.

Lemma opSuicide_ok : exec_ok 1 0 writable opSuicide.
Proof.
  start_op. unfold writable in Hpre. frame_simpl. repeat wp_step. frame_simpl.
  apply (wp_db_read _ _ _ _ _ _ He (law_GetBalance _ _ (proj1 He))).
  intros b s1 -> Hb1 Hle1. pose proof (Hle1 true) as (He1 & _). repeat wp_step.
  apply wp_zoom. eapply wp_mono; [eapply wp_weaken; [apply law_AddBalance, He1|done|done]|].
  intros _ s2 (Hi2 & Hv2 & Hr2). repeat wp_step. apply wp_zoom. frame_simpl.
  eapply wp_mono; [eapply wp_weaken; [by apply law_Suicide|done|done]|].
  intros _ s3 [_ (Hi3 & Hv3 & Hr3)]. repeat wp_step.
  assert (evm_le (static e) e (set_statedb s3 e)) as Hle; [|end_op].
  destruct Hb1 as (Hi1 & Hv1 & Hr1). apply evm_le_db; [done|]. split; [done|].
  rewrite Hpre, Hv3, Hv2, Hr3, Hr2, Hv1, Hr1. split; [apply wtrace_once, ws_suicide|done].
Qed.

(** ** Jumps and pushes *)

Lemma codeSegment_Some code bits i :
  codeBitmap code = Some bits -> 0 <= i < zlen code -> is_Some (codeSegment bits i).
Proof.
  intros Hb Hi. destruct (codeBitmap_spec code) as (bits' & Hb' & Hl & _).
  rewrite Hb in Hb'. injection Hb' as <-. rewrite codeSegment_spec; [done|lia|].
  pose proof (Z.div_le_mono i (zlen code) 8). lia.
Qed.

Lemma wp_segment_of {T} FU code bits i (Q : bool -> T -> Prop) s :
  codeBitmap code = Some bits -> 0 <= i < zlen code ->
  (forall b, Q b s) -> wp allowed FU (segment_of code bits i) Q s.
Proof.
  intros Hb Hi HQ. destruct (codeSegment_Some _ _ _ Hb Hi) as [b Hs].
  unfold segment_of. eapply wp_of_option; [exact Hs|]. apply HQ.
Qed.

(** The same when the analysis comes from the shared map: a panic tells of two
    programs with one hash. *)
Lemma wp_segment_cached {T} FU code bits h i (Q : bool -> T -> Prop) s :
  (exists c, codeBitmap c = Some bits /\ Keccak256Hash [c] = h) -> h = Keccak256Hash [code] ->
  0 <= i < zlen code -> (forall b, Q b s) -> wp allowed FU (segment_of code bits i) Q s.
Proof.
  intros (c & Hc & Hh) He Hi HQ. destruct (decide (c = code)) as [->|Hne]; [by apply wp_segment_of|].
  unfold segment_of, of_option. destruct (codeSegment bits i); [apply wp_ret, HQ|].
  apply wp_panic. exists c. split_conj; [done|done|congruence].
Qed.

Lemma wp_validJumpdest FU dest c jd (Q : bool -> Contract * gmap Z (list Z) -> Prop) :
  0 <= dest -> contract_ok c -> jumpdests_ok jd ->
  (forall b c' jd', contract_ok c' -> Gas c' = Gas c -> jumpdests_ok jd' -> Q b (c', jd')) ->
  wp allowed FU (validJumpdest dest) Q (c, jd).
Proof.
  intros Hd Hc Hj HQ. pose proof Hc as (((Hcb & Hcl) & Hh & Ha) & Hin & Hv & Hg).
  unfold validJumpdest. repeat wp_step. cbn [id].
  destruct ((63 <=? BitLen dest) || (zlen (Code c) <=? Uint64 dest)) eqn:Hr;
    [apply wp_ret; by apply HQ|].
  apply orb_false_iff in Hr as [_ Hr%Z.leb_gt].
  assert (0 <= Uint64 dest < zlen (Code c)) as Hi by (split; [apply u64_range|done]).
  destruct (zindex_Some (Code c) (Uint64 dest) Hi) as [op Hop].
  repeat wp_step. eapply wp_of_option; [exact Hop|].
  destruct (negb (op =? JUMPDEST)); [apply wp_ret; by apply HQ|].
  destruct (codeBitmap_spec (Code c)) as (bits & Hb & _).
  destruct (negb (CodeHash c =? 0)) eqn:Hz.
  - apply negb_true_iff, Z.eqb_neq in Hz. destruct Hh as [?|Hh]; [done|].
    destruct (jd !! CodeHash c) as [bits'|] eqn:Hl.
    + apply (wp_segment_cached _ _ _ (CodeHash c)); [by apply Hj|done|done|]. intros b. by apply HQ.
    + repeat wp_step. eapply wp_of_option; [exact Hb|]. repeat wp_step.
      eapply wp_segment_of; [done|done|]. intros b. apply HQ; [done|done|].
      intros h bits'. rewrite lookup_insert_Some. intros [[<- <-]|[_ Hl']]; [by eauto|by apply Hj].
  - destruct (analysis c) as [bits'|] eqn:Hl.
    + eapply wp_segment_of; [by apply Ha|done|]. intros b. by apply HQ.
    + repeat wp_step. eapply wp_of_option; [exact Hb|]. repeat wp_step.
      eapply wp_segment_of; [done|done|]. intros b. apply HQ; [|done|done].
      unfold contract_ok, code_ok. cbn. split_conj; try apply Hg; try done. by intros ? [= <-].
Qed.

Lemma wp_jump_to FU pos p c m st e (Q : bytes * option Error -> Frame S -> Prop) :
  0 <= pos -> contract_ok c -> evm_ok e -> is_u64 p ->
  (forall err p' c' e', contract_ok c' -> Gas c' = Gas c -> is_u64 p' ->
     (forall ro, evm_le ro e e') -> Q ([], err) (mkFrame p' c' m st e')) ->
  wp allowed FU (jump_to pos) Q (mkFrame p c m st e).
Proof.
  intros Hpos Hc He Hp HQ. unfold jump_to, contract_validJumpdest. wp_step.
  apply wp_zoom. frame_simpl. apply wp_validJumpdest; [done|done|apply He|].
  intros b c' jd' Hc' Hg Hj'.
  assert (forall ro, evm_le ro e (set_jumpdests jd' e)) as Hle.
  { intros ro. destruct He as (Hi & Hw & Hj & Hr & Hd). unfold evm_le, evm_ok. frame_simpl.
    split_conj; done. }
  destruct b; cbn [negb]; repeat wp_step; frame_simpl; apply HQ; try done. apply u64_range.
Qed.

Lemma opJump_ok : exec_ok 1 0 no_pre opJump.
Proof.
  start_op. repeat wp_step. apply wp_jump_to; [apply H1|done..|].
  intros err p' c' e' Hc' Hg Hp' Hle. end_op.
Qed.
Lemma opJumpi_ok : exec_ok 2 0 no_pre opJumpi.
Proof.
  start_op. repeat wp_step. destruct (negb (z0 =? 0)).
  - apply wp_jump_to; [apply H1|done..|]. intros err p' c' e' Hc' Hg Hp' Hle. end_op.
  - repeat wp_step. end_op. apply u64_range.
Qed.

(** A push instruction is inside the program, or its opcode would not have been
    read. *)
Definition in_code (f : Frame S) : Prop := pc f < zlen (Code (contract f)).

Lemma makePush_ok size n : 1 <= n <= 32 -> exec_ok 0 1 in_code (makePush size n).
Proof.
  intros Hn [p c m st e] Hf Hl Hpre. pose proof Hf as (Hc & Hm & Hst & Hp & He).
  unfold in_code in Hpre. pose proof Hc as (((Hcb & Hcl) & _) & _). unfold is_u64 in Hp. frame_simpl.
  unfold makePush. repeat wp_step. frame_simpl. rewrite i64_id by lia.
  set (a := if p + 1 <? zlen (Code c) then p + 1 else zlen (Code c)).
  set (b := if a + n <? zlen (Code c) then a + n else zlen (Code c)).
  assert (0 <= a <= zlen (Code c)) by (subst a; destruct (Z.ltb_spec (p + 1) (zlen (Code c))); lia).
  assert (a <= b <= zlen (Code c) /\ b <= a + n)
    by (subst b; destruct (Z.ltb_spec (a + n) (zlen (Code c))); lia).
  rewrite !(proj2 (Z.leb_le _ _)) by lia. cbn [andb]. repeat wp_step. end_op; [|apply u64_range].
  apply Forall_cons; split; [|done].
  assert (zlen (RightPadBytes (slice (Code c) a b) n) = n) as Hz
    by (rewrite zlen_RightPadBytes, zlen_slice; lia).
  pose proof (be_dec_bound _ (RightPadBytes_ok (slice (Code c) a b) n (bytes_ok_slice _ a b Hcb))) as Hb.
  unfold zlen in Hz. unfold is_u256. split; [apply Hb|]. eapply Z.lt_le_trans; [apply Hb|].
  change (2 ^ 256) with (256 ^ 32). apply Z.pow_le_mono_r; lia.
Qed.
End safety.
