(* ===== verification/GasSafe.v ===== *)
(** * Gas functions keep the invariants

    For every gas function: it does not panic, changes nothing but the fee
    remembered by the memory, the gas set aside for a call and the refund
    counter, and a cost it returns pays for the gas set aside and, for an
    instruction that lets the loop go on, for at least one unit more. *)

From S2P Require Import Prelude CommonMath Params Opcodes StateIface Machine EvmTypes GasTable.
From S2P Require Import Evm Instructions EvmInv InstrSafe.
Local Open Scope Z_scope.

Section gas_safety.
Context {S : Type} `{StateDB S} `{Crypto} {SL : StateDBLaws S} {CL : CryptoLaws}.
Context (env : Env S).

(** The four tables there are. *)
Definition gt_ok (gt : GasTable) : Prop :=
  gt = GasTableHomestead \/ gt = GasTableEIP150 \/ gt = GasTableEIP158 \/ gt = GasTableConstantinople.

Lemma gasTable_ok : gt_ok (gasTable env).
Proof. unfold gasTable, ChainConfig_GasTable, gt_ok. cbn. repeat case_match; tauto. Qed.

(** [extra] is the gas the instruction may hand on beyond what the contract has
    left. *)
Definition gas_post (minc : Z) (extra : Frame S -> Z) (m : Z) (f : Frame S) (r : Error + Z)
    (f' : Frame S) : Prop :=
  pc f' = pc f /\ contract f' = contract f /\ stack f' = stack f /\
  store (memory f') = store (memory f) /\
  evm_le (static env (evm f)) (evm f) (evm f') /\
  match r with
  | inl _ => True
  | inr cost => is_u64 cost /\ 0 <= extra f' /\ minc + extra f' <= cost /\ m <= MaxMemory
  end.

(** [nomem]: the function is used by instructions that need no memory. *)
Definition gas_ok (nomem : bool) (pops minc : Z) (extra : Frame S -> Z) (pre : Frame S -> Prop)
    (g : gasFunc S) : Prop :=
  forall gt m f, gt = gasTable env -> frame_ok f -> pops <= zlen (stack f) -> pre f -> is_u64 m ->
    (nomem = true -> m = 0) ->
    wp (allowed env) False (g gt m) (gas_post minc extra m f) f.

Definition no_extra (f : Frame S) : Z := 0.
Definition temp_extra (f : Frame S) : Z := callGasTemp (evm f).
(** The stipend of a call that moves value. *)
Definition stipend (f : Frame S) : Z :=
  match stack f !! 2%nat with
  | Some v => if v =? 0 then 0 else CallStipend
  | None => 0
  end.
Definition call_extra (f : Frame S) : Z := callGasTemp (evm f) + stipend f.

(** ** Rules *)

Lemma wp_checked PN FU (r : Z * bool) (Q : Error + Z -> Frame S -> Prop) f :
  Q (inl errGasUintOverflow) f -> (forall z, r = (z, false) -> Q (inr z) f) ->
  wp PN FU (checked r) Q f.
Proof. intros He Hs. apply wp_ret. destruct r as [z []]; cbn; [done|by apply Hs]. Qed.

Lemma wp_memGas PN FU m p c mem st e (Q : Error + Z -> Frame S -> Prop) :
  is_u64 m ->
  (forall err, Q (inl err) (mkFrame p c mem st e)) ->
  (forall gas last, is_u64 gas -> m <= MaxMemory ->
     Q (inr gas) (mkFrame p c (mkMemory (store mem) last) st e)) ->
  wp PN FU (memGas m) Q (mkFrame p c mem st e).
Proof.
  intros Hm He Hs. unfold memGas, memoryGasCost. unfold is_u64 in Hm. wp_step.
  assert (mkMemory (store mem) (lastGasCost mem) = mem) as Heta by (by destruct mem).
  destruct (Z.eqb_spec m 0) as [->|Hne].
  { wp_step. rewrite <- Heta. apply Hs; [done|unfold MaxMemory; lia]. }
  case (Z.ltb_spec 0xffffffffe0 m); intros Hlt; [wp_step; apply He|].
  repeat wp_step. cbn [id]. destruct (_ <? _).
  - repeat wp_step. apply Hs; [apply u64_range|done].
  - repeat wp_step. rewrite <- Heta. by apply Hs.
Qed.

Lemma wp_backUint64 PN FU n x p c m st e (Q : Error + Z -> Frame S -> Prop) :
  zindex st n = Some x -> 0 <= x ->
  Q (inl errGasUintOverflow) (mkFrame p c m st e) ->
  (is_u64 x -> Q (inr x) (mkFrame p c m st e)) ->
  wp PN FU (backUint64 n) Q (mkFrame p c m st e).
Proof.
  intros Hx H0x He Hs. unfold backUint64. wp_step. eapply wp_back; [done|].
  apply wp_checked; [done|]. intros z Hz. apply bigUint64_ok in Hz as [-> Hu]; auto.
Qed.

Lemma toWordSize_u64 x : is_u64 x -> is_u64 (toWordSize x).
Proof.
  intros Hx. rewrite toWordSize_spec by done. unfold is_u64 in *.
  split; [apply Z.div_pos; lia|]. apply Z.div_lt_upper_bound; lia.
Qed.

Lemma callGas_ok gt available base callCost g :
  callGas gt available base callCost = inr g -> is_u64 g.
Proof.
  unfold callGas. assert (forall x, is_u64 (Uint64 x)) as Hu by (intros; apply u64_range).
  pose proof (u64_range (available - base)) as [Ha Hb].
  assert (is_u64 (u64 (available - base) - u64 (available - base) / 64)).
  { pose proof (Z.div_pos (u64 (available - base)) 64).
    pose proof (Z.div_le_upper_bound (u64 (available - base)) 64 (u64 (available - base))).
    unfold is_u64. lia. }
  repeat case_match; intros; simplify_eq; done.
Qed.

Lemma evm_le_temp ro x (e : EVM S) : evm_ok e -> evm_le ro e (set_callGasTemp x e).
Proof. intros He. unfold evm_le. split_conj; try done. apply db_le_refl, He. Qed.

Lemma wp_withCallGas PN FU gt gas x p c m st e (Q : Error + Z -> Frame S -> Prop) :
  is_u64 gas -> zindex st 0 = Some x ->
  (forall err t, Q (inl err) (mkFrame p c m st (set_callGasTemp t e))) ->
  (forall t, is_u64 t -> is_u64 (gas + t) ->
     Q (inr (gas + t)) (mkFrame p c m st (set_callGasTemp t e))) ->
  wp PN FU (withCallGas gt gas) Q (mkFrame p c m st e).
Proof.
  intros Hg Hx He Hs. unfold withCallGas. repeat wp_step. frame_simpl.
  eapply wp_back; [done|]. repeat wp_step. apply wp_ebind. apply wp_ret.
  destruct (callGas _ _ _ _) as [err|t] eqn:Hc; [apply He|].
  apply callGas_ok in Hc. apply wp_checked; [apply He|]. intros z Hz.
  apply SafeAdd_ok in Hz as [-> Hz]; [|done..]. by apply Hs.
Qed.

(** ** The gas functions *)

Lemma is_u256_nonneg x : is_u256 x -> 0 <= x.
Proof. by intros [? _]. Qed.

(** Opens the specification of a gas function. *)
Ltac start_gas :=
  intros gt m [p c mem st e] Heq Hf Hl Hpre Hm Hnm;
  assert (gt_ok gt) as Hgt by (rewrite Heq; apply gasTable_ok); pose proof Hf as (Hc & Hmem & Hst & Hp & He);
  frame_simpl; take_operands;
  match goal with |- wp _ _ (?g _ _) _ _ => unfold_head g end.
Ltac gas_lia :=
  unfold is_u64 in *;
  lia.
(** Closes a goal about the frame and the cost a gas function leaves. *)
Ltac end_gas :=
  unfold gas_post, no_extra, temp_extra; frame_simpl; split_conj;
  try first [ done | lia | by apply evm_le_refl | by apply evm_le_temp | by auto | gas_lia ].
(** One step of a chain of checked operations, whose failure is an error. *)
Ltac gas_step :=
  lazymatch goal with
  | |- wp _ _ (ebind _ _) _ _ => apply wp_ebind
  | |- wp _ _ (memGas _) _ _ =>
      apply wp_memGas; [done|intros err; end_gas|intros gas last Hgas Hmax]
  | |- wp _ _ (backUint64 _) _ _ =>
      eapply wp_backUint64; [reflexivity|by apply is_u256_nonneg|end_gas|intros ?]
  | |- wp _ _ (checked _) _ _ => apply wp_checked; [end_gas|intros ? ?]
  end.
(** Reads off what a checked operation returned. *)
Ltac checked_facts :=
  repeat match goal with
  | Hs : SafeAdd ?x ?y = (?z, false) |- _ =>
      apply SafeAdd_ok in Hs as [-> ?]; [|solve [done | split; (done || lia)]..]
  | Hs : SafeMul ?x ?y = (?z, false) |- _ =>
      apply SafeMul_ok in Hs as [-> ?]; [|solve [done | by apply toWordSize_u64 | split; (done || lia)]..]
  end.

Lemma constGas_ok n pops minc pre :
  is_u64 n -> minc <= n -> gas_ok true pops minc no_extra pre (constGasFunc n).
Proof.
  intros Hn Hmin gt m f Hgt Hf Hl Hpre Hm Hnm. apply wp_ret. specialize (Hnm eq_refl) as ->.
  unfold gas_post, no_extra, MaxMemory. split_conj; try done; [apply evm_le_refl, Hf|lia].
Qed.

(** A chain of checked operations. *)
Ltac gas_chain := start_gas; repeat (gas_step; checked_facts; cbn beta); end_gas.

Lemma gasCallDataCopy_ok : gas_ok false 3 1 no_extra no_pre gasCallDataCopy.
Proof. gas_chain. Qed.
Lemma gasReturnDataCopy_ok : gas_ok false 3 1 no_extra no_pre gasReturnDataCopy.
Proof. gas_chain. Qed.
Lemma makeGasLog_ok n : 0 <= n <= 4 -> gas_ok false 2 1 no_extra no_pre (makeGasLog n).
Proof.
  intros Hn. start_gas.
  assert (u64 (n * LogTopicGas) = n * LogTopicGas) as ->
    by (apply u64_id; unfold is_u64; lia).
  assert (is_u64 (n * LogTopicGas)) by (unfold is_u64; lia).
  repeat (gas_step; checked_facts; cbn beta). end_gas.
Qed.
Lemma gasSha3_ok : gas_ok false 2 1 no_extra no_pre gasSha3.
Proof. gas_chain. Qed.
Lemma gasCodeCopy_ok : gas_ok false 3 1 no_extra no_pre gasCodeCopy.
Proof. gas_chain. Qed.
Lemma gasExtCodeCopy_ok : gas_ok false 4 1 no_extra no_pre gasExtCodeCopy.
Proof.
  start_gas.
  assert (1 <= gt_ExtcodeCopy gt < 1000) by (destruct Hgt as [->|[->|[->| ->]]]; cbn; lia).
  assert (is_u64 (gt_ExtcodeCopy gt)) by (unfold is_u64; lia).
  repeat (gas_step; checked_facts; cbn beta). end_gas.
Qed.
Lemma gasMLoad_ok : gas_ok false 1 1 no_extra no_pre gasMLoad.
Proof. gas_chain. Qed.
Lemma gasMStore_ok : gas_ok false 2 1 no_extra no_pre gasMStore.
Proof. gas_chain. Qed.
Lemma gasMStore8_ok : gas_ok false 2 1 no_extra no_pre gasMStore8.
Proof. gas_chain. Qed.
Lemma gasCreate_ok : gas_ok false 3 1 no_extra no_pre gasCreate.
Proof. gas_chain. Qed.
Lemma gasCreate2_ok : gas_ok false 4 1 no_extra no_pre gasCreate2.
Proof. gas_chain. Qed.
Lemma gasReturn_ok : gas_ok false 2 0 no_extra no_pre gasReturn.
Proof. gas_chain. Qed.
Lemma gasRevert_ok : gas_ok false 2 0 no_extra no_pre gasRevert.
Proof. gas_chain. Qed.

(** Functions that read a column of the table. *)
Lemma table_gas_ok (col : GasTable -> Z) pops pre :
  (forall gt, gt_ok gt -> 1 <= col gt < 1000) ->
  gas_ok true pops 1 no_extra pre (fun gt _ => mret (inr (col gt))).
Proof.
  intros Hcol gt m f Heq. assert (gt_ok gt) as Hgt by (rewrite Heq; apply gasTable_ok).
  specialize (Hcol gt Hgt).
  assert (gas_ok true pops 1 no_extra pre (constGasFunc (col gt))) as Hc
    by (apply constGas_ok; unfold is_u64; lia).
  exact (Hc gt m f Heq).
Qed.
Ltac table_gas := apply table_gas_ok; intros gt [->|[->|[->| ->]]]; cbn; lia.

Lemma gasBalance_ok : gas_ok true 1 1 no_extra no_pre gasBalance.
Proof. table_gas. Qed.
Lemma gasExtCodeSize_ok : gas_ok true 1 1 no_extra no_pre gasExtCodeSize.
Proof. table_gas. Qed.
Lemma gasSLoad_ok : gas_ok true 1 1 no_extra no_pre gasSLoad.
Proof. table_gas. Qed.

Lemma gasExp_ok : gas_ok true 2 1 no_extra no_pre gasExp.
Proof.
  start_gas. specialize (Hnm eq_refl) as ->. wp_step. eapply wp_back; [reflexivity|].
  apply wp_checked; [end_gas|]. intros w Hw. pose proof (u64_range ((BitLen z0 + 7) / 8 * gt_ExpByte gt)).
  checked_facts. end_gas.
Qed.

Lemma gasDelegateCall_ok : gas_ok false 6 1 temp_extra no_pre gasDelegateCall.
Proof.
  start_gas.
  assert (1 <= gt_Calls gt < 1000) by (destruct Hgt as [->|[->|[->| ->]]]; cbn; lia).
  assert (is_u64 (gt_Calls gt)) by (unfold is_u64; lia).
  repeat (gas_step; checked_facts; cbn beta). eapply wp_withCallGas; [done|reflexivity| |].
  - intros err t. end_gas.
  - intros t Ht Hs. end_gas.
Qed.
Lemma gasStaticCall_ok : gas_ok false 6 1 temp_extra no_pre gasStaticCall.
Proof. exact gasDelegateCall_ok. Qed.

Lemma gasCallCode_ok : gas_ok false 7 1 call_extra no_pre gasCallCode.
Proof.
  start_gas.
  assert (1 <= gt_Calls gt < 1000) by (destruct Hgt as [->|[->|[->| ->]]]; cbn; lia).
  wp_step. eapply wp_back; [reflexivity|].
  set (base := u64 (gt_Calls gt + _)).
  assert (is_u64 base /\ 1 + (if z1 =? 0 then 0 else CallStipend) <= base) as [Hb Hb'].
  { subst base. rewrite u64_id; [|destruct (z1 =? 0); cbn; gas_lia].
    destruct (z1 =? 0); cbn; gas_lia. }
  repeat (gas_step; checked_facts; cbn beta). eapply wp_withCallGas; [done|reflexivity| |].
  - intros err t. end_gas.
  - intros t Ht Hs. unfold gas_post, call_extra, stipend. frame_simpl. cbn [lookup list_lookup].
    split_conj; try done; [by apply evm_le_temp| |]; destruct (z1 =? 0); gas_lia.
Qed.

(** The remaining functions use the state database. *)
Lemma evm_le_set_db ro s' (e : EVM S) :
  evm_ok e -> becomes inv view revs (statedb e) (view (statedb e)) s' ->
  evm_le ro e (set_statedb s' e).
Proof. intros He Hb. apply evm_le_db; [done|]. eapply becomes_le; [done|constructor]. Qed.

Lemma gasCall_ok : gas_ok false 7 1 call_extra no_pre (gasCall env).
Proof.
  start_gas.
  assert (1 <= gt_Calls gt < 1000) by (destruct Hgt as [->|[->|[->| ->]]]; cbn; lia).
  wp_step. eapply wp_back; [reflexivity|]. wp_step. eapply wp_back; [reflexivity|]. wp_step.
  eapply wp_mono with (Q := fun _ f => exists s', f = mkFrame p c mem (z :: z0 :: z1 :: z2 :: z3 :: z4 :: z5 :: st)
    (set_statedb s' e) /\ forall ro, evm_le ro e (set_statedb s' e)).
  { destruct (IsEIP158 _ _); [destruct (negb _)|].
    - wp_step. apply (wp_db_read _ _ _ _ _ _ He (law_Empty _ _ (proj1 He))). eauto.
    - wp_step. exists (statedb e). split; [by destruct e|]. intros ro. apply evm_le_set_db; [done|].
      by destruct He as (Hi & _).
    - repeat wp_step. apply (wp_db_read _ _ _ _ _ _ He (law_Exist _ _ (proj1 He))).
      intros b s' _ _ Hle. wp_step. eauto. }
  intros new f' (s' & -> & Hle). pose proof (Hle true) as (He' & _).
  set (base := u64 (u64 _ + _)).
  assert (is_u64 base /\ 1 + (if z1 =? 0 then 0 else CallStipend) <= base) as [Hb Hb'].
  { subst base. destruct new, (z1 =? 0); cbn [negb]; rewrite (u64_id (gt_Calls gt + _)), u64_id; gas_lia. }
  repeat (gas_step; checked_facts; cbn beta). eapply wp_withCallGas; [done|reflexivity| |].
  - intros err t. end_gas. eapply evm_le_trans; [done|by apply evm_le_temp].
  - intros t Ht Hs. unfold gas_post, call_extra, stipend. frame_simpl. cbn [lookup list_lookup].
    split_conj; try done; [eapply evm_le_trans; [done|by apply evm_le_temp]| |];
      destruct (z1 =? 0); gas_lia.
Qed.

(** The table of Constantinople is in use whenever the instruction exists. *)
Lemma gasExtCodeHash_ok :
  IsConstantinople (chainConfig env) (number env) = true ->
  gas_ok true 1 1 no_extra no_pre gasExtCodeHash.
Proof.
  intros Hcon gt m f -> . assert (gt_ExtcodeHash (gasTable env) = 400) as Hg.
  { unfold gasTable, ChainConfig_GasTable, number in *. by rewrite Hcon. }
  assert (gas_ok true 1 1 no_extra no_pre (constGasFunc 400)) as Hc
    by (apply constGas_ok; unfold is_u64; lia).
  unfold gasExtCodeHash. rewrite Hg. by apply (Hc (gasTable env) m f).
Qed.

(** Refunds count as writes; the counter wraps, so no bound is needed. *)
Lemma wp_AddRefund PN FU g (Q : unit -> EVM S -> Prop) e :
  evm_ok e ->
  (forall s', evm_le false e (set_statedb s' e) -> Q tt (set_statedb s' e)) ->
  wp PN FU (on_db (AddRefund g)) Q e.
Proof.
  intros He HQ. eapply wp_db_write with (ro := false); [done| |apply law_AddRefund, He|].
  - apply wtrace_once, ws_refund, u64_range.
  - intros [] s' _ Hle. by apply HQ.
Qed.
Lemma wp_SubRefund FU g (Q : unit -> EVM S -> Prop) e :
  evm_ok e -> eip1283 env = true -> 0 <= g ->
  (forall s', evm_le false e (set_statedb s' e) -> Q tt (set_statedb s' e)) ->
  wp (allowed env) FU (on_db (SubRefund g)) Q e.
Proof.
  intros He Heip Hg0 HQ. apply wp_zoom.
  eapply wp_mono; [eapply wp_weaken; [apply law_SubRefund, He| |done]|].
  - intros r [-> _]. split; [done|]. exact Heip.
  - intros [] s' [Hg Hb]. apply HQ, evm_le_db; [done|]. eapply becomes_le; [done|].
    apply wtrace_once, ws_refund. destruct He as (_ & (_ & Hr & _) & _).
    unfold is_u64 in *. lia.
Qed.

(** What a gas function that only uses the state database leaves behind. *)
Lemma gas_post_db ro minc p c mem st e e' cost :
  evm_le ro e e' -> static env e = ro -> is_u64 cost -> minc <= cost ->
  gas_post minc no_extra 0 (mkFrame p c mem st e) (inr cost) (mkFrame p c mem st e').
Proof.
  intros Hle <- Hc Hm. unfold gas_post, no_extra, MaxMemory. frame_simpl. split_conj; (done || lia).
Qed.

Ltac finish_gas :=
  repeat wp_step; apply (gas_post_db false); [eauto using evm_le_trans|done|done|try done].

Lemma gasSuicide_ok : gas_ok true 1 0 no_extra (writable env) (gasSuicide env).
Proof.
  start_gas. specialize (Hnm eq_refl) as ->. unfold writable in Hpre. frame_simpl. repeat wp_step. frame_simpl.
  eapply wp_mono with (Q := fun cost f => is_u64 cost /\ exists e1, f = mkFrame p c mem (z :: st) e1 /\
    evm_ok e1 /\ forall ro, evm_le ro e e1).
  { destruct (IsEIP150 _ _).
    - repeat wp_step. eapply wp_back; [reflexivity|]. repeat wp_step. destruct (IsEIP158 _ _).
      + repeat wp_step. read law_Empty He. intros b e1 _ He1 _ Hle1. destruct b.
        * repeat wp_step. read law_GetBalance He1. intros b e2 _ He2 _ Hle2. repeat wp_step.
          split; [apply u64_range|]. eauto 10 using evm_le_trans.
        * repeat wp_step. split; [apply u64_range|]. eauto 10.
      + repeat wp_step. read law_Exist He. intros b e1 _ He1 _ Hle1. repeat wp_step.
        split; [apply u64_range|]. eauto 10.
    - wp_step. split; [done|]. eauto using evm_le_refl. }
  intros cost f' (Hcost & e1 & -> & He1 & Hle1). repeat wp_step. read law_HasSuicided He1.
  intros b e2 _ He2 _ Hle2. wp_step. assert (evm_le false e e2) by eauto using evm_le_trans.
  wp_step.
  - wp_step. apply wp_AddRefund; [done|]. intros s' Hle3. finish_gas. apply Hcost.
  - finish_gas. apply Hcost.
Qed.

Lemma gasSStore_ok : gas_ok true 2 1 no_extra (writable env) (gasSStore env).
Proof.
  start_gas. specialize (Hnm eq_refl) as ->. unfold writable in Hpre. frame_simpl.
  wp_step. eapply wp_back; [reflexivity|]. wp_step. eapply wp_back; [reflexivity|].
  repeat wp_step. frame_simpl. read law_GetState He. intros current e1 _ He1 _ Hle1.
  destruct (R_IsPetersburg _ || _) eqn:Heip.
  - case_match; [finish_gas|]. case_match; [|finish_gas].
    repeat wp_step. apply wp_AddRefund; [done|]. intros s' Hle2. finish_gas.
  - assert (eip1283 env = true) as Hnew by (unfold eip1283; by rewrite Heip).
    case_match; [finish_gas|]. repeat wp_step. read law_GetCommittedState He1.
    intros original e2 _ He2 _ Hle2. case_match; [case_match; [finish_gas|]|].
    + repeat wp_step; [|finish_gas]. apply wp_AddRefund; [done|]. intros s' Hle3. finish_gas.
    + assert (evm_le false e e2) as Hle by eauto using evm_le_trans.
      apply wp_bind. eapply wp_mono with (Q := fun _ f => exists e3,
        f = mkFrame p c mem (z :: z0 :: st) e3 /\ evm_ok e3 /\ evm_le false e e3).
      { wp_step; [|by eauto]. case_match; wp_step.
        - apply wp_SubRefund; [done|done|by vm_compute|]. intros s' Hle3.
          eexists. split_conj; [reflexivity|apply Hle3|by eapply evm_le_trans].
        - wp_step. apply wp_AddRefund; [done|]. intros s' Hle3.
          eexists. split_conj; [reflexivity|apply Hle3|by eapply evm_le_trans].
        - by eauto. }
      intros _ f' (e3 & -> & He3 & Hle3). repeat wp_step; [|finish_gas].
      case_match; wp_step; (apply wp_AddRefund; [done|]; intros s' Hle4; finish_gas).
Qed.
End gas_safety.
