(* ===== verification/PrecompileSafe.v ===== *)
(** * Precompiled contracts do not panic

    A precompiled contract whose gas has been paid returns a slice that fits
    the integers of the code. The only one for which this needs an argument is
    the modular exponentiation: the lengths in its input are arbitrary 256-bit
    words that are truncated to 64 bits, and it is the price that keeps them
    small. *)

From S2P Require Import Prelude CommonMath Params Opcodes StateIface Machine EvmTypes Precompiles Evm EvmInv.
From Stdlib Require Import Zpow_facts.
Local Open Scope Z_scope.

Lemma zlen_LeftPadBytes s l : zlen (LeftPadBytes s l) = Z.max l (zlen s).
Proof.
  unfold LeftPadBytes. case_match; [lia|]. rewrite zlen_app, zlen_zeros; lia.
Qed.

Lemma getData_total data start size :
  0 <= start -> 0 <= size < 2 ^ 63 -> zlen data < 2 ^ 63 ->
  exists b, getData data start size = Some b /\ zlen b = size.
Proof.
  intros Hs Hz Hd. pose proof (zlen_nonneg data). unfold getData.
  set (s := if zlen data <? start then zlen data else start).
  assert (0 <= s <= zlen data) by (subst s; case_match; lia).
  rewrite u64_id by (unfold is_u64; lia).
  set (e := if zlen data <? s + size then zlen data else s + size).
  assert (s <= e <= s + size /\ e <= zlen data) as [? ?] by (subst e; case_match; lia).
  rewrite (proj2 (Z.ltb_ge e s)) by lia. eexists. split; [done|].
  rewrite zlen_RightPadBytes, zlen_slice, i64_id by lia. lia.
Qed.

(** [getData] reads a word. *)
Lemma getData_word data start :
  0 <= start -> data_ok data ->
  exists b, getData data start 32 = Some b /\ is_u256 (be_dec b).
Proof.
  intros Hs [Hb Hd]. destruct (getData_total data start 32) as (b & Hg & Hl); [lia..|].
  exists b. split; [done|]. pose proof (be_dec_bound b (getData_ok _ _ _ _ Hb Hg)) as Hbd.
  unfold zlen in Hl. rewrite Hl in Hbd. exact Hbd.
Qed.

Lemma data_ok_tail input : data_ok input -> data_ok (modexp_tail input).
Proof.
  intros [Hb Hl]. unfold modexp_tail. case_match; [|apply data_ok_nil].
  split; [by apply bytes_ok_drop|]. unfold zlen in *. rewrite length_drop. lia.
Qed.

Lemma mult_complexity_lower x : 0 <= x -> x <= mult_complexity x /\ x * x <= 16 * mult_complexity x + 16.
Proof.
  intros Hx. unfold mult_complexity.
  destruct (Z.leb_spec x 64); [nia|]. destruct (Z.leb_spec x 1024).
  - pose proof (Z.div_mod (x * x) 4). pose proof (Z.mod_pos_bound (x * x) 4). nia.
  - pose proof (Z.div_mod (x * x) 16). pose proof (Z.mod_pos_bound (x * x) 16). nia.
Qed.

(** The price of an exponentiation in terms of the lengths. *)
Lemma modexp_price_bound baseLen modLen adj :
  0 <= baseLen -> 0 <= modLen -> 0 <= adj ->
  mult_complexity (BigMax modLen baseLen) * BigMax adj 1 / ModExpQuadCoeffDiv < MaxGas ->
  baseLen < 2 ^ 36 /\ modLen < 2 ^ 36 /\ ((baseLen = 0 /\ modLen = 0) \/ adj < 20 * MaxGas).
Proof.
  intros Hb Hm Ha. rewrite !BigMax_spec. set (x := Z.max modLen baseLen). set (y := Z.max adj 1).
  unfold MaxGas. intros Hp.
  destruct (mult_complexity_lower x) as [Hc1 Hc2]; [lia|].
  assert (mult_complexity x * y < 20 * 2 ^ 60).
  { pose proof (Z.div_mod (mult_complexity x * y) 20). pose proof (Z.mod_pos_bound (mult_complexity x * y) 20).
    lia. }
  assert (mult_complexity x <= mult_complexity x * y) by nia.
  assert (x < 2 ^ 36) by nia.
  split; [lia|]. split; [lia|]. destruct (Z.eq_dec x 0); [left; lia|right]. nia.
Qed.

(** The three lengths at the start of the input. *)
Definition modexp_lengths (input : bytes) (baseLen expLen modLen : Z) : Prop :=
  exists b e m,
    getData input 0 32 = Some b /\ getData input 32 32 = Some e /\ getData input 64 32 = Some m /\
    be_dec b = baseLen /\ be_dec e = expLen /\ be_dec m = modLen.

Lemma modexp_lengths_total input :
  data_ok input ->
  exists bl el ml, modexp_lengths input bl el ml /\ is_u256 bl /\ is_u256 el /\ is_u256 ml.
Proof.
  intros Hd. destruct (getData_word input 0) as (b & Hb & ?); [lia|done|].
  destruct (getData_word input 32) as (e & He & ?); [lia|done|].
  destruct (getData_word input 64) as (m & Hm & ?); [lia|done|].
  exists (be_dec b), (be_dec e), (be_dec m). split; [|done]. exists b, e, m. done.
Qed.

(** The price is computed without a panic and is that of an adjusted length of
    the exponent that counts every byte after the first 32. *)
Lemma bigModExp_RequiredGas_spec input bl el ml :
  data_ok input -> modexp_lengths input bl el ml -> is_u256 bl -> is_u256 el -> is_u256 ml ->
  exists adj gas, bigModExp_RequiredGas input = Some gas /\ 0 <= adj /\ 8 * (el - 32) <= adj /\
    let price := mult_complexity (BigMax ml bl) * BigMax adj 1 / ModExpQuadCoeffDiv in
    gas = (if 64 <? BitLen price then MaxUint64 else Uint64 price).
Proof.
  intros Hd (b & e & m & Hb & He & Hm & <- & <- & <-) Hbl Hel Hml. unfold bigModExp_RequiredGas.
  rewrite Hb, He, Hm. cbn [mbind option_bind].
  pose proof (data_ok_tail input Hd) as Ht. set (tail := modexp_tail input) in *.
  assert (exists h, 0 <= h /\
    (if zlen tail <=? be_dec b then Some 0
     else if 32 <? be_dec e then d ← getData tail (Uint64 (be_dec b)) 32; Some (be_dec d)
     else d ← getData tail (Uint64 (be_dec b)) (Uint64 (be_dec e)); Some (be_dec d)) = Some h)
    as (h & Hh & ->).
  { case_match; [by exists 0|]. assert (0 <= Uint64 (be_dec b)) by apply u64_range.
    case_match eqn:Hlt.
    - destruct (getData_word tail (Uint64 (be_dec b))) as (d & -> & Hr); [done|done|].
      exists (be_dec d). split; [apply Hr|done].
    - apply Z.ltb_ge in Hlt. unfold is_u256 in Hel.
      assert (Uint64 (be_dec e) = be_dec e) as He32
        by (unfold Uint64; rewrite Z.abs_eq, u64_id by (unfold is_u64; lia); done).
      destruct (getData_total tail (Uint64 (be_dec b)) (Uint64 (be_dec e))) as (d & Hg & _);
        [done|lia|apply Ht|].
      rewrite Hg. exists (be_dec d). split; [|done].
      apply be_dec_bound. eapply getData_ok; [apply Ht|done]. }
  cbn [mbind option_bind]. eexists _, _. split; [reflexivity|]. split_conj; [| |done].
  - pose proof (BitLen_nonneg h). destruct (Z.ltb_spec 32 (be_dec e)), (Z.ltb_spec 0 (BitLen h)); lia.
  - pose proof (BitLen_nonneg h). destruct (Z.ltb_spec 32 (be_dec e)), (Z.ltb_spec 0 (BitLen h)); lia.
Qed.

(** A price that can be paid keeps the lengths within the integers of the
    code. *)
Lemma bigModExp_affordable input gas bl el ml :
  data_ok input -> modexp_lengths input bl el ml -> is_u256 bl -> is_u256 el -> is_u256 ml ->
  bigModExp_RequiredGas input = Some gas -> gas < MaxGas ->
  bl < 2 ^ 36 /\ ml < 2 ^ 36 /\ ((bl = 0 /\ ml = 0) \/ el < 2 ^ 63).
Proof.
  intros Hd Hl Hbl Hel Hml Hg Hlt.
  destruct (bigModExp_RequiredGas_spec _ _ _ _ Hd Hl Hbl Hel Hml) as (adj & gas' & Hg' & Hadj & Ha & Hgas).
  rewrite Hg in Hg'. injection Hg' as <-.
  set (price := mult_complexity (BigMax ml bl) * BigMax adj 1 / ModExpQuadCoeffDiv) in *.
  assert (0 <= price).
  { apply Z.div_pos; [|done]. rewrite !BigMax_spec.
    destruct (mult_complexity_lower (Z.max ml bl)); unfold is_u256 in *; nia. }
  assert (price < MaxGas).
  { revert Hgas. cbv zeta. destruct (Z.ltb_spec 64 (BitLen price)) as [|Hle]; [intros ->; by vm_compute in Hlt|].
    apply BitLen_le in Hle; [|lia|done]. unfold Uint64. rewrite Z.abs_eq, u64_id by done. lia. }
  destruct (modexp_price_bound bl ml adj) as (? & ? & Hor); [apply Hbl|apply Hml|done|done|].
  split; [done|]. split; [done|]. destruct Hor as [|Hadj']; [by left|right].
  unfold MaxGas in Hadj'. lia.
Qed.

Lemma bigModExp_Run_ok input gas :
  data_ok input -> bigModExp_RequiredGas input = Some gas -> gas < MaxGas ->
  exists ret, bigModExp_Run input = Some ret /\ data_ok ret.
Proof.
  intros Hd Hg Hlt. destruct (modexp_lengths_total input Hd) as (bl & el & ml & Hl & Hbl & Hel & Hml).
  destruct (bigModExp_affordable _ _ _ _ _ Hd Hl Hbl Hel Hml Hg Hlt) as (Hb36 & Hm36 & Hor).
  destruct Hl as (b & e & m & Hb & He & Hm & <- & <- & <-). unfold bigModExp_Run.
  rewrite Hb, He, Hm. cbn [mbind option_bind]. unfold is_u256 in *.
  rewrite (Uint64_id (be_dec b)), (Uint64_id (be_dec m)) by (unfold is_u64; lia).
  case_match eqn:Hz; [exists []; split; [done|apply data_ok_nil]|].
  assert (be_dec e < 2 ^ 63) as He63.
  { destruct Hor as [[Hz1 Hz2]|]; [|done]. rewrite Hz1, Hz2 in Hz. done. }
  rewrite (Uint64_id (be_dec e)) by (unfold is_u64; lia).
  destruct (data_ok_tail input Hd) as [Htb Htl]. set (tail := modexp_tail input) in *.
  destruct (getData_total tail 0 (be_dec b)) as (b' & -> & _); [lia..|].
  destruct (getData_total tail (be_dec b) (be_dec e)) as (e' & -> & _); [lia..|].
  rewrite u64_id by (unfold is_u64; lia).
  destruct (getData_total tail (be_dec b + be_dec e) (be_dec m)) as (m' & Hm' & Hlen); [lia..|].
  rewrite Hm'. cbn [mbind option_bind]. rewrite i64_id by lia.
  assert (0 <= be_dec m' < 256 ^ be_dec m) as Hbd.
  { rewrite <- Hlen. apply be_dec_bound. by eapply getData_ok. }
  case_match eqn:H0.
  - eexists. split; [reflexivity|]. split; [apply LeftPadBytes_ok, Forall_nil_2|].
    rewrite zlen_LeftPadBytes, zlen_nil. lia.
  - eexists. split; [reflexivity|]. split; [apply LeftPadBytes_ok, big_bytes_ok|].
    assert (be_dec m' <> 0) as Hne by (intros Hc; by rewrite Hc in H0).
    rewrite zlen_LeftPadBytes, Zpow_mod_correct by done.
    pose proof (Z.mod_pos_bound (be_dec b' ^ be_dec e') (be_dec m') ltac:(lia)) as Hr.
    pose proof (length_big_bytes_le (be_dec b' ^ be_dec e' mod be_dec m') (be_dec m)) as Hlb.
    rewrite (Z.pow_mul_r 2 8) in Hlb by lia. change (2 ^ 8) with 256 in Hlb. lia.
Qed.

Section precompile_safety.
Context `{Crypto} {CL : CryptoLaws}.

Lemma data_ok_len d n : bytes_ok d -> length d = n -> Z.of_nat n < 2 ^ 63 -> data_ok d.
Proof. intros Hb Hl Hn. split; [done|]. unfold zlen. by rewrite Hl. Qed.

Lemma ecrecover_Run_ok input : data_ok (ecrecover_Run input).
Proof.
  unfold ecrecover_Run. case_match; [apply data_ok_nil|]. case_match; [|apply data_ok_nil].
  split; [apply LeftPadBytes_ok, bytes_ok_drop, keccak_ok|].
  rewrite zlen_LeftPadBytes. unfold zlen, Keccak256. rewrite length_drop, keccak_length. lia.
Qed.

Lemma G1_Marshal_data p : data_ok (G1_Marshal p).
Proof. eapply data_ok_len; [apply G1_Marshal_ok|apply G1_Marshal_length|lia]. Qed.

Lemma bn256Pairing_loop_total input fuel i cs ts :
  zlen input - i <= 192 * (Z.of_nat fuel - 1) -> (0 < fuel)%nat ->
  is_Some (bn256Pairing_loop fuel input i cs ts).
Proof.
  revert i cs ts. induction fuel as [|fuel IH]; intros i cs ts Hf Hpos; [lia|]. cbn.
  case_match eqn:Hlt; [|done]. apply Z.ltb_lt in Hlt.
  case_match; [done|]. case_match; [done|]. apply IH; lia.
Qed.

Lemma bn256Pairing_Run_ok input :
  exists r, bn256Pairing_Run input = Some r /\ (forall ret, r = inr ret -> data_ok ret).
Proof.
  unfold bn256Pairing_Run. case_match; [by eexists|].
  destruct (bn256Pairing_loop_total input (S (length input)) 0 [] []) as [r ->];
    [unfold zlen; lia|lia|]. cbn [mbind option_bind].
  destruct r as [err|[cs ts]]; [by eexists|]. eexists. split; [done|]. intros ret [= <-].
  case_match; (eapply data_ok_len; [|reflexivity|done]); repeat constructor; done.
Qed.

(** A precompiled contract that is paid for returns. *)
Lemma Precompiled_Run_ok p input gas :
  data_ok input -> RequiredGas p input = Some gas -> gas < MaxGas ->
  exists r, Precompiled_Run p input = Some r /\ (forall ret, r = inr ret -> data_ok ret).
Proof.
  intros Hd Hg Hlt. pose proof Hd as [Hdb Hdl]. destruct p; cbn [Precompiled_Run RequiredGas] in *.
  - eexists. split; [done|]. intros ? [= <-]. apply ecrecover_Run_ok.
  - eexists. split; [done|]. intros ? [= <-].
    eapply data_ok_len; [apply sha256_ok|apply sha256_length|lia].
  - eexists. split; [done|]. intros ? [= <-]. split; [apply LeftPadBytes_ok, ripemd160_ok|].
    unfold ripemd160hash_Run. rewrite zlen_LeftPadBytes. unfold zlen. rewrite ripemd160_length. lia.
  - eexists. split; [done|]. by intros ? [= <-].
  - destruct (bigModExp_Run_ok input gas Hd Hg Hlt) as (ret & -> & Hr). eexists. split; [done|].
    by intros ? [= <-].
  - unfold bn256Add_Run.
    destruct (getData_total input 0 64) as (b1 & -> & _); [lia..|]. cbn [mbind option_bind].
    case_match; [by eexists|].
    destruct (getData_total input 64 64) as (b2 & -> & _); [lia..|]. cbn [mbind option_bind].
    case_match; [by eexists|]. eexists. split; [done|]. intros ? [= <-]. apply G1_Marshal_data.
  - unfold bn256ScalarMul_Run.
    destruct (getData_total input 0 64) as (b1 & -> & _); [lia..|]. cbn [mbind option_bind].
    case_match; [by eexists|].
    destruct (getData_total input 64 32) as (b2 & -> & _); [lia..|]. cbn [mbind option_bind].
    eexists. split; [done|]. intros ? [= <-]. apply G1_Marshal_data.
  - apply bn256Pairing_Run_ok.
Qed.

Lemma RequiredGas_total p input :
  data_ok input -> exists gas, RequiredGas p input = Some gas /\ 0 <= gas.
Proof.
  intros Hd. destruct p; cbn [RequiredGas]; try (eexists; split; [reflexivity|]; first [done|apply u64_range]).
  destruct (modexp_lengths_total input Hd) as (bl & el & ml & Hl & Hbl & Hel & Hml).
  destruct (bigModExp_RequiredGas_spec _ _ _ _ Hd Hl Hbl Hel Hml) as (adj & gas & -> & _ & _ & Hgas).
  eexists. split; [done|]. rewrite Hgas. case_match; [done|apply u64_range].
Qed.

Lemma RunPrecompiledContract_ok p input c :
  data_ok input -> contract_ok c ->
  exists ret err c', RunPrecompiledContract p input c = Some (ret, err, c') /\
    data_ok ret /\ 0 <= Gas c' <= Gas c.
Proof.
  intros Hd (_ & _ & _ & Hgas). unfold RunPrecompiledContract.
  destruct (RequiredGas_total p input Hd) as (gas & Hg & Hg0). rewrite Hg. cbn [mbind option_bind].
  unfold UseGas. destruct (Z.ltb_spec (Gas c) gas).
  - eexists _, _, _. split; [done|]. split; [apply data_ok_nil|lia].
  - destruct (Precompiled_Run_ok p input gas Hd Hg) as (r & -> & Hr); [lia|]. cbn [mbind option_bind].
    destruct r as [err|ret]; eexists _, _, _; (split; [done|]); cbn.
    + split; [apply data_ok_nil|lia].
    + split; [by apply Hr|lia].
Qed.
End precompile_safety.
