(* ===== verification/CallSafe.v ===== *)
(** * Calls and contract creation keep the invariants

    The four kinds of call and the creation of contracts, for any interpreter
    that keeps the invariants: they do not panic, give back no more gas than
    they are handed, only run out of fuel if the interpreter does, and a call
    that fails leaves the world as it was. *)

From S2P Require Import Prelude CommonMath Params Opcodes StateIface Machine EvmTypes.
From S2P Require Import Precompiles GasTable Evm Instructions EvmInv InstrSafe GasSafe.
From S2P Require Import PrecompileSafe.
Local Open Scope Z_scope.

Section call_safety.
Context {S : Type} `{StateDB S} `{Crypto} {SL : StateDBLaws S} {CL : CryptoLaws}.
Context (env : Env S).

(** Writes are refused to a call made with the flag [ro]. *)
Definition static_under (ro : bool) (e : EVM S) : bool :=
  R_IsByzantium (chainRules env) && (readOnly e || ro).

Definition run_post (ro : bool) (c : Contract) (e : EVM S) (r : bytes * option Error * Contract)
    (e' : EVM S) : Prop :=
  let '(ret, err, c') := r in
  data_ok ret /\ 0 <= Gas c' <= Gas c /\ evm_le (static_under ro e) e e'.

(** An interpreter that keeps the invariants; it may give up only when the
    contract has at least [n] gas. *)
Definition runs (n : Z) (Run : RunFunc S) : Prop :=
  forall c input ro e, contract_ok c -> data_ok input -> evm_ok e ->
    wp (allowed env) (n <= Gas c) (Run c input ro) (run_post ro c e) e.

Definition call_post (ro : bool) (gas : Z) (e : EVM S) (r : bytes * Z * option Error)
    (e' : EVM S) : Prop :=
  let '(ret, g, err) := r in
  data_ok ret /\ 0 <= g <= gas /\ evm_le ro e e' /\
  (err <> None -> view (statedb e') = view (statedb e)).

(** The value a delegate call inherits. *)
Definition ref_ok (r : ContractRef) : Prop :=
  match r with
  | AccountRef _ => True
  | RefContract _ _ v => exists x, v = Some x /\ is_u256 x
  end.

Lemma ref_of_ok c : contract_ok c -> ref_ok (ref_of c).
Proof. by intros (_ & _ & Hv & _). Qed.

Lemma evm_le_weaken ro ro' e e' : (ro' = true -> ro = true) -> evm_le ro e e' -> evm_le ro' e e'.
Proof.
  intros Hro (He & Hd & Hr & Hi & Ht & Hp). unfold evm_le, db_le. split_conj; try done.
  destruct ro; [by apply wtrace_weaken|]. destruct ro'; [by specialize (Hro eq_refl)|done].
Qed.

(** ** After a snapshot *)

(** [e] evolved from [e0] after the snapshot [id] was taken there. *)
Definition snapshot_of (ro : bool) (e0 : EVM S) (id : Z) (e : EVM S) : Prop :=
  evm_ok e0 /\ evm_le ro e0 e /\
  (revs (statedb e0) ++ [(id, view (statedb e0))]) `prefix_of` revs (statedb e).

Lemma snapshot_of_le ro e0 id e e' :
  snapshot_of ro e0 id e -> evm_le ro e e' -> snapshot_of ro e0 id e'.
Proof.
  unfold snapshot_of. intros (He0 & Hle & Hp) Hle'. split_conj; [done|by eapply evm_le_trans|].
  destruct Hle' as (_ & _ & _ & _ & _ & Hp'). by etrans.
Qed.

Lemma wp_Snapshot PN FU ro (Q : Z -> EVM S -> Prop) e :
  evm_ok e ->
  (forall id s', snapshot_of ro e id (set_statedb s' e) -> view s' = view (statedb e) ->
     Q id (set_statedb s' e)) ->
  wp PN FU (on_db Snapshot) Q e.
Proof.
  intros He HQ. apply wp_zoom.
  eapply wp_mono; [eapply wp_weaken; [apply law_Snapshot, He|done|done]|].
  intros id s' (Hi & Hv & Hr). apply HQ; [|done].
  unfold snapshot_of.
  split_conj; [done| |frame_simpl; by rewrite Hr]. apply evm_le_db; [done|]. unfold db_le.
  split_conj; [done| |].
  - rewrite Hv. constructor.
  - rewrite Hr. by eexists.
Qed.

Lemma wp_Revert PN FU ro e0 id (Q : unit -> EVM S -> Prop) e :
  snapshot_of ro e0 id e ->
  (forall e', evm_le ro e0 e' -> view (statedb e') = view (statedb e0) -> Q tt e') ->
  wp PN FU (on_db (RevertToSnapshot id)) Q e.
Proof.
  intros (He0 & Hle & [l Hl]) HQ. apply wp_zoom. pose proof Hle as (He & Hd & Hr & _).
  eapply wp_mono; [apply (wp_weaken never _ False); [|done|done]|].
  { apply (law_RevertToSnapshot _ _ (view (statedb e0)) (revs (statedb e0)) l); [apply He|].
    rewrite Hl, <- app_assoc. done. }
  intros [] s' (Hi & Hv & Hrv). apply HQ; [|done].
  destruct He0 as (_ & Hw0 & _), He as (_ & _ & Hj & Hrd & Hdp).
  unfold evm_le, evm_ok, db_le. frame_simpl. rewrite Hv, Hrv. split_conj; done.
Qed.

(** ** Contracts *)

Lemma wp_newContract PN FU cl obj v gas (Q : Contract -> EVM S -> Prop) e :
  evm_ok e ->
  (forall e', view (statedb e') = view (statedb e) -> (forall ro, evm_le ro e e') ->
     Q (fst (NewContract cl obj v gas ∅)) e') ->
  wp PN FU (newContract cl obj v gas) Q e.
Proof.
  intros He HQ. unfold newContract. wp_step. wp_step. cbn [NewContract].
  repeat wp_step. apply (HQ (set_jumpdests _ e)); [done|]. intros ro.
  destruct He as (Hi & Hw & Hj & Hr & Hd). unfold evm_le, evm_ok. frame_simpl.
  split_conj; try done. destruct cl; [|done]. intros h bits. by rewrite lookup_empty.
Qed.

(** The code of an account and its hash. *)
Definition code_of (code : bytes) (hash : Hash) : Prop :=
  data_ok code /\ (hash = 0 \/ hash = Keccak256Hash [code]).

Lemma wp_load_code {A} PN FU addr (k : Hash -> bytes -> M (EVM S) A) (Q : A -> EVM S -> Prop) e :
  evm_ok e ->
  (forall hash code e', code_of code hash -> evm_ok e' -> (forall ro, evm_le ro e e') ->
     wp PN FU (k hash code) Q e') ->
  wp PN FU (hash ← on_db (GetCodeHash addr); code ← on_db (GetCode addr); k hash code) Q e.
Proof.
  intros He HQ. wp_step. apply (wp_db_read _ _ _ _ _ _ He (law_GetCodeHash _ _ (proj1 He))).
  intros hash s1 -> (Hi1 & Hv1 & _) Hle1. pose proof (Hle1 true) as (He1 & _). wp_step.
  apply (wp_db_read _ _ _ _ _ _ He1 (law_GetCode _ _ (proj1 He1))).
  intros code s2 -> _ Hle2. frame_simpl.
  apply HQ; [|apply (Hle2 true)|intros ro; by eapply evm_le_trans].
  rewrite Hv1. destruct He as (_ & Hw & _).
  pose proof (w_get_ok _ addr Hw) as (_ & _ & Hb & Hl & Hh & _).
  split; [done|]. case_match; [by right|by left].
Qed.

Lemma call_contract_ok cl obj v gas addr hash code :
  code_of code hash -> is_u256 v -> 0 <= gas < MaxGas ->
  contract_ok (SetCallCode addr hash code (fst (NewContract cl obj (Some v) gas ∅))).
Proof.
  intros (Hc & Hh) Hv Hg. unfold contract_ok, code_ok. cbn.
  split_conj; try done; [apply data_ok_nil|by eexists|lia|lia].
Qed.

(** ** Running a contract *)

Context (n : Z) (Run : RunFunc S) (HRun : runs n Run).

Lemma run_ok : runs n (run env Run).
Proof.
  intros c input ro e Hc Hin He. unfold run. case_match; [|by apply HRun].
  destruct (RunPrecompiledContract_ok p input c Hin Hc) as (ret & err & c' & Hr & Hd & Hg).
  eapply wp_of_option; [exact Hr|]. split; [done|]. split; [done|]. by apply evm_le_refl.
Qed.

Lemma call_tail ro c input e0 id e gas :
  contract_ok c -> data_ok input -> snapshot_of (static_under ro e0) e0 id e -> gas = Gas c ->
  wp (allowed env) (n <= gas) (r ← run env Run c input ro; afterRun id r)
    (call_post (static_under ro e0) gas e0) e.
Proof.
  intros Hc Hin Hs ->. pose proof Hs as (He0 & Hle & _). pose proof Hle as (He & _ & Hro & _).
  wp_step. eapply wp_mono; [by apply run_ok|]. intros [[ret err] c'] e' (Hd & Hg & Hle').
  assert (static_under ro e = static_under ro e0) as Hst by (unfold static_under; by rewrite Hro).
  rewrite Hst in Hle'. unfold afterRun. destruct err as [err|].
  - wp_step. eapply wp_Revert; [by eapply snapshot_of_le|].
    intros e2 Hle2 Hv. wp_step. unfold call_post. split_conj; try done.
    + case_decide; [lia|]. unfold UseGas. case_match; cbn; lia.
    + case_decide; [lia|]. unfold UseGas. case_match; cbn; lia.
  - wp_step. unfold call_post. split_conj; try done; [lia|lia|by eapply evm_le_trans].
Qed.

(** ** The calls *)

Lemma call_refused ro gas e e' err :
  0 <= gas -> evm_le ro e e' -> view (statedb e') = view (statedb e) ->
  call_post ro gas e ([], gas, err) e'.
Proof. intros Hg Hle Hv. split; [apply data_ok_nil|]. split; [lia|]. by split. Qed.

Lemma call_refused_refl ro gas e err : 0 <= gas -> evm_ok e -> call_post ro gas e ([], gas, err) e.
Proof. intros. apply call_refused; [done|by apply evm_le_refl|done]. Qed.

Lemma static_false e : static_under false e = static env e.
Proof. unfold static_under, static. by rewrite orb_false_r. Qed.

(** The test that stops a call before anything happens. *)
Ltac call_guards :=
  wp_step; wp_step;
  case_match; [wp_step; by apply call_refused_refl|];
  case_match; [wp_step; by apply call_refused_refl|].

Lemma DelegateCall_ok cl addr input gas e :
  (exists a b x, cl = RefContract a b (Some x) /\ is_u256 x) -> data_ok input -> 0 <= gas < MaxGas ->
  evm_ok e ->
  wp (allowed env) (n <= gas) (DelegateCall env Run cl addr input gas) (call_post (static env e) gas e) e.
Proof.
  intros (a & b & x & -> & Hx) Hin [Hg0 Hg1] He. unfold DelegateCall. call_guards.
  wp_step. apply (wp_Snapshot _ _ (static env e)); [done|]. intros id s1 Hs1 _.
  pose proof Hs1 as (_ & (He1 & _) & _). wp_step. apply wp_newContract; [done|].
  intros e2 _ Hle2. wp_step. cbn. wp_step. apply wp_load_code; [apply (Hle2 true)|].
  intros hash code e3 Hc He3 Hle3. rewrite <- static_false in *.
  apply call_tail; [|done| |done].
  - unfold contract_ok, code_ok. cbn. destruct Hc as [Hcd Hch].
    split_conj; try done; [apply data_ok_nil|by eexists].
  - eauto 8 using snapshot_of_le.
Qed.

Lemma StaticCall_ok cl addr input gas e :
  data_ok input -> 0 <= gas < MaxGas -> evm_ok e ->
  wp (allowed env) (n <= gas) (StaticCall env Run cl addr input gas)
    (call_post (static_under true e) gas e) e.
Proof.
  intros Hin [Hg0 Hg1] He. unfold StaticCall. call_guards.
  wp_step. apply (wp_Snapshot _ _ (static_under true e)); [done|]. intros id s1 Hs1 _.
  pose proof Hs1 as (_ & (He1 & _) & _). wp_step. apply wp_newContract; [done|].
  intros e2 _ Hle2. apply wp_load_code; [apply (Hle2 true)|].
  intros hash code e3 Hc He3 Hle3. wp_step.
  eapply wp_db_write; [done|apply wtrace_once, (ws_touch (static_under true e))|apply law_AddBalance, He3|].
  intros [] s4 _ Hle4.
  apply call_tail; [by apply call_contract_ok|done| |done].
  eauto 8 using snapshot_of_le.
Qed.

(** Reads before the snapshot do not show. *)
Lemma call_post_before ro gas e e1 r e' :
  evm_le ro e e1 -> view (statedb e1) = view (statedb e) ->
  call_post ro gas e1 r e' -> call_post ro gas e r e'.
Proof.
  intros Hle Hv. destruct r as [[ret g] err]. intros (Hd & Hg & Hle' & Herr).
  split; [done|]. split; [done|]. split; [by eapply evm_le_trans|]. intros He. by rewrite Herr.
Qed.

Lemma static_le ro e e' : evm_le ro e e' -> static env e' = static env e.
Proof. intros (_ & _ & Hr & _). unfold static. by rewrite Hr. Qed.

Context (Hctx : context_ok (context env)).

Lemma wp_CanTransfer PN FU a v (Q : bool -> EVM S -> Prop) e :
  evm_ok e ->
  (forall s', becomes inv view revs (statedb e) (view (statedb e)) s' ->
     (forall ro, evm_le ro e (set_statedb s' e)) ->
     Q (v <=? w_balance (view (statedb e)) a) (set_statedb s' e)) ->
  wp PN FU (on_db (CanTransfer (context env) a v)) Q e.
Proof.
  intros He HQ. destruct Hctx as (_ & Hcan & _).
  apply (wp_db_read _ _ _ _ _ _ He (Hcan _ _ _ (proj1 He))). intros b s' -> Hb Hle. by apply HQ.
Qed.

Lemma CallCode_ok cl addr input gas v e :
  data_ok input -> 0 <= gas < MaxGas -> is_u256 v -> evm_ok e ->
  wp (allowed env) (n <= gas) (CallCode env Run cl addr input gas v) (call_post (static env e) gas e) e.
Proof.
  intros Hin [Hg0 Hg1] Hv He. unfold CallCode. call_guards.
  wp_step. apply wp_CanTransfer; [done|]. intros s1 (_ & Hv1 & _) Hle1.
  case_match; [wp_step; by apply call_refused|].
  pose proof (Hle1 true) as (He1 & _). eapply wp_mono; [|intros r e'; by apply call_post_before].
  rewrite <- (static_le _ _ _ (Hle1 true)).
  wp_step. apply (wp_Snapshot _ _ (static env (set_statedb s1 e))); [done|]. intros id s2 Hs2 _.
  pose proof Hs2 as (_ & (He2 & _) & _). wp_step. apply wp_newContract; [done|].
  intros e3 _ Hle3. apply wp_load_code; [apply (Hle3 true)|].
  intros hash code e4 Hc He4 Hle4. rewrite <- static_false in *.
  apply call_tail; [by apply call_contract_ok|done| |done]. eauto 8 using snapshot_of_le.
Qed.

(** Creating an account that does not exist is a touch. *)
Lemma w_create_touch a w : w_exist w a = false -> w_create a w = w_add_balance a 0 w.
Proof.
  unfold w_exist, w_create, w_add_balance, w_upd, w_balance, w_get. by destruct (w_acct w a).
Qed.

Lemma wp_create_missing PN FU ro addr (Q : unit -> EVM S -> Prop) e :
  evm_ok e -> w_exist (view (statedb e)) addr = false ->
  (forall s', becomes inv view revs (statedb e) (w_add_balance addr 0 (view (statedb e))) s' ->
     evm_le ro e (set_statedb s' e) -> Q tt (set_statedb s' e)) ->
  wp PN FU (on_db (CreateAccount addr)) Q e.
Proof.
  intros He Hex HQ. eapply wp_db_write with (ro := ro); [done| |apply law_CreateAccount, He|].
  - rewrite w_create_touch by done. apply wtrace_once, ws_touch.
  - intros [] s' Hb. rewrite w_create_touch in Hb by done. by apply HQ.
Qed.

Lemma wp_Transfer PN FU ro a b v (Q : unit -> EVM S -> Prop) e :
  evm_ok e -> (ro = true -> v = 0) -> 0 <= v <= w_balance (view (statedb e)) a ->
  (forall s', becomes inv view revs (statedb e)
       (w_add_balance b v (w_add_balance a (- v) (view (statedb e)))) s' ->
     evm_le ro e (set_statedb s' e) -> Q tt (set_statedb s' e)) ->
  wp PN FU (on_db (Transfer (context env) a b v)) Q e.
Proof.
  intros He Hro Hv HQ. destruct Hctx as (_ & _ & Htr).
  eapply wp_db_write with (ro := ro); [done| |apply Htr, He|intros []; exact HQ].
  destruct ro; [|by apply wtrace_once, ws_transfer]. rewrite Hro by done.
  eapply rtc_l; [apply (ws_touch true a)|]. apply wtrace_once, ws_touch.
Qed.

Lemma w_balance_touch a w b : w_balance (w_add_balance a 0 w) b = w_balance w b.
Proof. rewrite w_balance_add. destruct (b =? a); lia. Qed.

(** The part of [Call] after the account is known to be worth calling. *)
Lemma Call_transfer cl addr input gas v e0 id e :
  data_ok input -> 0 <= gas < MaxGas -> is_u256 v -> (static env e0 = true -> v = 0) ->
  snapshot_of (static env e0) e0 id e -> v <= w_balance (view (statedb e)) (ContractRef_Address cl) ->
  wp (allowed env) (n <= gas)
    (on_db (Transfer (context env) (ContractRef_Address cl) addr v);;
     contract ← newContract cl addr (Some v) gas;
     hash ← on_db (GetCodeHash addr);
     code ← on_db (GetCode addr);
     r ← run env Run (SetCallCode (Some addr) hash code contract) input false;
     afterRun id r)
    (call_post (static env e0) gas e0) e.
Proof.
  intros Hin [Hg0 Hg1] Hv Hst Hs Hbal. pose proof Hs as (_ & (He & _) & _).
  wp_step. apply (wp_Transfer _ _ (static env e0)); [done|done|split; [apply Hv|done]|].
  intros s1 _ Hle1. pose proof Hle1 as (He1 & _). wp_step. apply wp_newContract; [done|].
  intros e2 _ Hle2. apply wp_load_code; [apply (Hle2 true)|].
  intros hash code e3 Hc He3 Hle3. rewrite <- static_false in *.
  apply call_tail; [by apply call_contract_ok|done| |done]. eauto 8 using snapshot_of_le.
Qed.

Lemma Call_ok cl addr input gas v e :
  data_ok input -> 0 <= gas < MaxGas -> is_u256 v -> (static env e = true -> v = 0) -> evm_ok e ->
  wp (allowed env) (n <= gas) (Call env Run cl addr input gas v) (call_post (static env e) gas e) e.
Proof.
  intros Hin [Hg0 Hg1] Hv Hst He. unfold Call. call_guards.
  wp_step. apply wp_CanTransfer; [done|]. intros s1 (_ & Hv1 & _) Hle1.
  case_match eqn:Hbal; [wp_step; by apply call_refused|].
  apply negb_false_iff, Z.leb_le in Hbal.
  pose proof (Hle1 true) as (He1 & _). eapply wp_mono; [|intros r e'; by apply call_post_before].
  rewrite <- (static_le _ _ _ (Hle1 true)) in *. rewrite <- Hv1 in Hbal. change s1 with (statedb (set_statedb s1 e)) in Hbal.
  clear Hle1. set (e1 := set_statedb s1 e) in *. clearbody e1.
  wp_step. apply (wp_Snapshot _ _ (static env e1)); [done|]. intros id s2 Hs2 Hv2.
  pose proof Hs2 as (_ & (He2 & _) & _). wp_step.
  apply (wp_db_read _ _ _ _ _ _ He2 (law_Exist _ _ (proj1 He2))).
  intros ex s3 -> (Hi3 & Hv3 & Hr3) Hle3. frame_simpl. pose proof (Hle3 true) as (He3 & _).
  assert (snapshot_of (static env e1) e1 id (set_statedb s3 (set_statedb s2 e1))) as Hs3
    by eauto using snapshot_of_le.
  case_match.
  { wp_step. apply call_refused; [done|apply Hs3|]. frame_simpl. congruence. }
  wp_step. wp_step.
  - apply (wp_create_missing _ _ (static env e1)); [done|frame_simpl; rewrite Hv3; by apply negb_true_iff|].
    intros s4 (_ & Hv4 & _) Hle4. apply Call_transfer; try done; [by eapply snapshot_of_le|].
    frame_simpl. rewrite Hv4, w_balance_touch, Hv3, Hv2. done.
  - apply Call_transfer; try done. frame_simpl. by rewrite Hv3, Hv2.
Qed.

(** ** Contract creation *)

Definition create_post (gas : Z) (e : EVM S) (r : bytes * Address * Z * option Error)
    (e' : EVM S) : Prop :=
  let '(ret, addr, g, err) := r in
  data_ok ret /\ 0 <= g <= gas /\ evm_le false e e'.

Lemma wp_write {A} PN FU (m : M S A) w (Q : A -> EVM S -> Prop) e :
  evm_ok e -> wstep false (view (statedb e)) w ->
  wp never False m (fun _ => becomes inv view revs (statedb e) w) (statedb e) ->
  (forall a e', evm_ok e' -> view (statedb e') = w -> evm_le false e e' -> Q a e') ->
  wp PN FU (on_db m) Q e.
Proof.
  intros He Hw Hm HQ. eapply wp_db_write with (ro := false); [done|by apply wtrace_once|done|].
  intros a s' (_ & Hv & _) Hle. apply HQ; [apply Hle|done|done].
Qed.

Lemma UseGas_all c : 0 <= Gas c -> 0 <= Gas (snd (UseGas (Gas c) c)) <= Gas c.
Proof. intros. unfold UseGas. rewrite Z.ltb_irrefl. cbn. lia. Qed.

Lemma storeCode_ok FU addr ret err c (Q : option Error * Contract -> EVM S -> Prop) e :
  evm_ok e -> data_ok ret -> 0 <= Gas c ->
  (forall err' c' e', 0 <= Gas c' <= Gas c -> evm_le false e e' -> Q (err', c') e') ->
  wp (allowed env) FU (storeCode addr ret err c) Q e.
Proof.
  intros He [Hb Hl] Hg HQ. unfold storeCode, UseGas. pose proof (u64_range (zlen ret * CreateDataGas)) as Hr.
  unfold is_u64 in Hr. destruct (Z.ltb_spec (Gas c) (u64 (zlen ret * CreateDataGas))).
  - wp_step. apply HQ; [lia|by apply evm_le_refl].
  - wp_step. eapply wp_write; [done|by apply (ws_code addr ret)|apply law_SetCode, He|].
    intros _ e' _ _ Hle. wp_step. apply HQ; [cbn; lia|done].
Qed.

Lemma create_run_ok c address id e0 e :
  contract_ok c -> snapshot_of false e0 id e -> static env e = false ->
  wp (allowed env) (n <= Gas c) (create_run env Run c address id) (create_post (Gas c) e0) e.
Proof.
  intros Hc Hs Hst. pose proof Hs as (_ & (He & _) & _). unfold create_run. wp_step.
  eapply wp_mono; [apply run_ok; [done|apply data_ok_nil|done]|].
  intros [[ret err] c1] e1 (Hd & Hg & Hle1). rewrite static_false, Hst in Hle1.
  pose proof Hle1 as (He1 & _).
  set (big := IsEIP158 (chainConfig env) (number env) && (MaxCodeSize <? zlen ret)).
  wp_step. eapply wp_mono with (Q := fun '(err, c2) e2 => 0 <= Gas c2 <= Gas c /\ snapshot_of false e0 id e2).
  { assert (snapshot_of false e0 id e1) by eauto using snapshot_of_le. case_match.
    - apply storeCode_ok; [done|done|lia|]. intros err' c' e' Hg' Hle'.
      split; [lia|by eapply snapshot_of_le].
    - wp_step. by split. }
  intros [err2 c2] e2 [Hg2 Hs2].
  set (failed := big || _). wp_step.
  assert (forall b : bool, 0 <= Gas (if b then snd (UseGas (Gas c2) c2) else c2) <= Gas c) as Hg3.
  { intros []; [|done]. pose proof (UseGas_all c2). lia. }
  wp_step; [eapply wp_Revert; [done|]; intros e3 Hle3 _|]; wp_step; (split; [done|]; split; [apply Hg3|]).
  - done.
  - apply Hs2.
Qed.

Lemma w_balance_create a w b : w_balance (w_create a w) b = w_balance w b.
Proof. unfold w_create. rewrite w_balance_set. by destruct (Z.eqb_spec b a) as [->|]. Qed.
Lemma w_balance_nonce a x w b : w_balance (w_upd a (set_nonce x) w) b = w_balance w b.
Proof. unfold w_upd. rewrite w_balance_set. by destruct (Z.eqb_spec b a) as [->|]. Qed.

(** From the snapshot on. *)
Lemma create_init_ok cl cah gas v address id (d : Z) e0 e :
  data_ok (cah_code cah) -> (cah_hash cah = 0 \/ cah_hash cah = Keccak256Hash [cah_code cah]) ->
  0 <= gas < MaxGas -> is_u256 v -> static env e = false -> snapshot_of false e0 id e ->
  v <= w_balance (view (statedb e)) (ContractRef_Address cl) ->
  wp (allowed env) (n <= gas)
    (on_db (CreateAccount address);;
     when (IsEIP158 (chainConfig env) (number env)) (on_db (SetNonce address 1));;
     on_db (Transfer (context env) (ContractRef_Address cl) address v);;
     contract ← newContract cl address (Some v) gas;
     let contract := SetCodeOptionalHash (Some address) cah contract in
     if NoRecursion (vmConfig env) && (0 <? d) then mret ([], address, gas, None)
     else create_run env Run contract address id)
    (create_post gas e0) e.
Proof.
  intros Hcd Hch [Hg0 Hg1] Hv Hst Hs Hbal. pose proof Hs as (_ & (He & _) & _).
  wp_step. eapply wp_write; [done|apply ws_create|apply law_CreateAccount, He|].
  intros _ e1 He1 Hv1 Hle1. wp_step.
  eapply wp_mono with (Q := fun _ e2 => evm_le false e1 e2 /\
    v <= w_balance (view (statedb e2)) (ContractRef_Address cl)).
  { wp_step.
    - eapply wp_write; [done|apply (ws_nonce address 1); by vm_compute|apply law_SetNonce, He1|].
      intros _ e2 _ Hv2 Hle2. split; [done|]. by rewrite Hv2, w_balance_nonce, Hv1, w_balance_create.
    - split; [by apply evm_le_refl|]. by rewrite Hv1, w_balance_create. }
  intros _ e2 [Hle2 Hbal2]. pose proof Hle2 as (He2 & _). wp_step.
  apply (wp_Transfer _ _ false); [done|done|split; [apply Hv|done]|].
  intros s3 _ Hle3. pose proof Hle3 as (He3 & _). wp_step. apply wp_newContract; [done|].
  intros e4 _ Hle4. cbv zeta.
  assert (snapshot_of false e0 id e4) as Hs4 by eauto 8 using snapshot_of_le.
  case_match; [wp_step; split; [apply data_ok_nil|]; split; [lia|apply Hs4]|].
  apply create_run_ok; [|done|].
  - unfold contract_ok, code_ok. cbn. split_conj; try done; [apply data_ok_nil|by eexists].
  - rewrite <- Hst. rewrite (static_le _ _ _ (Hle4 false)), (static_le _ _ _ Hle3), (static_le _ _ _ Hle2).
    by apply (static_le false).
Qed.

Lemma create_ok cl cah gas v address e :
  data_ok (cah_code cah) -> (cah_hash cah = 0 \/ cah_hash cah = Keccak256Hash [cah_code cah]) ->
  0 <= gas < MaxGas -> is_u256 v -> static env e = false -> evm_ok e ->
  wp (allowed env) (n <= gas) (create env Run cl cah gas v address) (create_post gas e) e.
Proof.
  intros Hcd Hch Hg Hv Hst He. unfold create. do 2 wp_step.
  assert (forall g e' err, 0 <= g <= gas -> evm_le false e e' -> create_post gas e ([], 0, g, err) e') as Hret.
  { intros g e' err ? ?. split; [apply data_ok_nil|]. by split. }
  case_match; [wp_step; apply Hret; [lia|by apply evm_le_refl]|].
  wp_step. apply wp_CanTransfer; [done|]. intros s1 (_ & Hv1 & _) Hle1.
  case_match eqn:Hbal; [wp_step; apply Hret; [lia|done]|].
  apply negb_false_iff, Z.leb_le in Hbal. pose proof (Hle1 false) as Hle. pose proof Hle as (He1 & _).
  wp_step. read law_GetNonce He1. intros nonce e2 _ He2 Hv2 Hle2.
  wp_step. eapply wp_write; [done|apply (ws_nonce (ContractRef_Address cl)), u64_range|apply law_SetNonce, He2|].
  intros _ e3 He3 Hv3 Hle3. wp_step. read law_GetCodeHash He3. intros hash e4 _ He4 Hv4 Hle4.
  wp_step. read law_GetNonce He4. intros x e5 _ He5 Hv5 Hle5.
  assert (evm_le false e e5) as Hle05 by eauto 8 using evm_le_trans.
  case_match; [wp_step; apply Hret; [lia|done]|].
  wp_step. apply (wp_Snapshot _ _ false); [done|]. intros id s6 Hs6 Hv6.
  eapply wp_mono; [apply create_init_ok; try done|].
  - rewrite <- Hst. rewrite <- (static_le _ _ _ Hle05). done.
  - frame_simpl. rewrite Hv6, Hv5, Hv4, Hv3, w_balance_nonce, Hv2. frame_simpl. by rewrite Hv1.
  - intros [[[ret a] g] err] e7 (Hd & Hg7 & Hle7). split; [done|]. split; [done|].
    by eapply evm_le_trans.
Qed.

Lemma Create_ok cl code gas v e :
  data_ok code -> 0 <= gas < MaxGas -> is_u256 v -> static env e = false -> evm_ok e ->
  wp (allowed env) (n <= gas) (Create env Run cl code gas v) (create_post gas e) e.
Proof.
  intros Hc Hg Hv Hst He. unfold Create. wp_step. read law_GetNonce He. intros x e1 _ He1 _ Hle1.
  eapply wp_mono; [apply create_ok; try done; [by left|]|].
  - rewrite <- Hst. apply (static_le false), Hle1.
  - intros [[[ret a] g] err] e2 (Hd & Hg2 & Hle2). split; [done|]. split; [done|].
    by eapply evm_le_trans.
Qed.

Lemma Create2_ok cl code gas v salt e :
  data_ok code -> 0 <= gas < MaxGas -> is_u256 v -> static env e = false -> evm_ok e ->
  wp (allowed env) (n <= gas) (Create2 env Run cl code gas v salt) (create_post gas e) e.
Proof.
  intros Hc Hg Hv Hst He. unfold Create2. apply create_ok; try done; unfold codeAndHash_Hash; cbn.
  by right.
Qed.
End call_safety.
