(* ===== verification/OpSafe.v ===== *)
(** * The instructions that call keep the invariants

    The call and create instructions, and the table: every entry of every
    instruction set has a price that pays for what its instruction does. *)

From S2P Require Import Prelude CommonMath Params Opcodes StateIface Machine EvmTypes.
From S2P Require Import Precompiles GasTable Evm Instructions JumpTable EvmInv InstrSafe.
From S2P Require Import GasSafe CallSafe.
Local Open Scope Z_scope.

(** Opens and closes the specification of an instruction. *)
Ltac start_call :=
  intros [p c m st e] Hf Hl Hpre Hex Hmax; pose proof Hf as (Hc & Hm & Hst & Hp & He);
  frame_simpl; take_operands;
  match goal with |- wp _ _ ?ex _ _ => unfold_head ex end.
Ltac end_call :=
  unfold exec_post; frame_simpl; rewrite ?zlen_cons; split_conj;
  try first [ done | lia | apply data_ok_nil | by repeat (apply Forall_cons; split) ].

Section op_safety.
Context {S : Type} `{StateDB S} `{Crypto} {SL : StateDBLaws S} {CL : CryptoLaws}.
Context (env : Env S) (Hctx : context_ok (context env)).
Context (n : Z) (Run : RunFunc S) (HRun : runs env n Run).

(** An instruction that hands on at most the gas left and [extra]. Only those
    that make calls ([calls]) can run out of fuel. *)
Definition op_exec_ok (calls : Prop) (pops pushes : Z) (extra : Frame S -> Z) (pre : Frame S -> Prop) (ex : executed)
    : Prop :=
  forall f, frame_ok f -> pops <= zlen (stack f) -> pre f -> 0 <= extra f ->
    Gas (contract f) + extra f < MaxGas ->
    wp (allowed env) (calls /\ n <= Gas (contract f) + extra f) ex
      (exec_post env pops pushes (Gas (contract f) + extra f) f) f.

Lemma exec_op_ok calls pops pushes extra pre ex :
  exec_ok env pops pushes pre ex -> op_exec_ok calls pops pushes extra pre ex.
Proof.
  intros Hx f Hf Hl Hpre He Hmax.
  eapply wp_mono; [eapply wp_weaken; [by apply Hx|done|done]|].
  intros r f' (? & ? & ?). split; [done|]. split; [lia|done].
Qed.

Lemma contract_ok_Gas x c : contract_ok c -> 0 <= x < MaxGas -> contract_ok (set_Gas x c).
Proof. intros (Hc & Hi & Hv & _) Hx. split; [done|]. split; [done|]. by split. Qed.

Lemma wp_return_gas PN FU g p c m st e (Q : unit -> Frame S -> Prop) :
  0 <= g -> 0 <= Gas c -> Gas c + g < MaxGas ->
  Q tt (mkFrame p (set_Gas (Gas c + g) c) m st e) ->
  wp PN FU (return_gas g) Q (mkFrame p c m st e).
Proof.
  intros Hg Hc Hmax HQ. unfold return_gas. wp_step. frame_simpl.
  by rewrite u64_id by (unfold is_u64, MaxGas in *; lia).
Qed.

Lemma wp_after_call FU gas off l ret g err p c m st e (Q : bytes * option Error -> Frame S -> Prop) :
  mem_ok m -> is_u256 off -> is_u256 l -> calcMemSize off l <= zlen (store m) -> data_ok ret ->
  contract_ok c -> 0 <= g <= gas -> Gas c + gas < MaxGas ->
  (forall m' flag, mem_ok m' -> is_u256 flag ->
     Q (ret, None) (mkFrame p (set_Gas (Gas c + g) c) m' (flag :: st) e)) ->
  wp (allowed env) FU (after_call off l (ret, g, err)) Q (mkFrame p c m st e).
Proof.
  intros Hm Ho Hl Hs [Hd _] (_ & _ & _ & Hg0) Hg Hmax HQ. unfold after_call. wp_step. wp_step.
  pose proof (u256_bool (bool_decide (err = None))) as Hb.
  wp_step. wp_step.
  - wp_step. apply Memory_Set_ok; [done..|]. intros m' Hm' _. wp_step.
    apply wp_return_gas; [lia..|]. wp_step. by apply HQ.
  - wp_step. apply wp_return_gas; [lia..|]. wp_step. by apply HQ.
Qed.

Definition call_pre (f : Frame S) : Prop :=
  mem_pre memoryCall f /\ (static env (evm f) = true -> forall v, stack f !! 2%nat = Some v -> v = 0).

(** The windows of the arguments and of the result. *)
Lemma BigMax_le x y z : BigMax x y <= z -> x <= z /\ y <= z.
Proof. rewrite BigMax_spec. lia. Qed.

Ltac call_windows :=
  match goal with Hpre : mem_pre _ _ |- _ => destruct Hpre as (ms & [= <-] & [Hret Hargs]%BigMax_le) end;
  frame_simpl.

(** The rest of a call instruction once the call has returned. *)
Ltac finish_call :=
  intros [[ret g] err] e' (Hrd & Hg & Hle & _); (eapply wp_after_call; [done..|]);
  intros m' flag Hm' Hflag; end_call; [apply contract_ok_Gas; [done|]; lia|cbn; lia].

(** The gas of a call that may carry a stipend. *)
Lemma stipend_gas t v x :
  0 <= x -> x + (t + (if v =? 0 then 0 else CallStipend)) < MaxGas ->
  0 <= t + (if v =? 0 then 0 else CallStipend) ->
  (if negb (v =? 0) then u64 (t + CallStipend) else t) = t + (if v =? 0 then 0 else CallStipend).
Proof.
  intros Hx Hmax H0'. destruct (v =? 0); cbn [negb]; [lia|]. apply u64_id.
  unfold is_u64, MaxGas in *. lia.
Qed.

Lemma opCall_ok : op_exec_ok True 7 1 call_extra call_pre (opCall env Run).
Proof.
  start_call. destruct Hpre as [Hpre Hv0]. call_windows.
  unfold call_extra, stipend in *. frame_simpl. cbn in Hmax, Hex, Hv0 |- *.
  pose proof Hc as (_ & _ & _ & [Hc0 _]). repeat wp_step. cbv zeta. rewrite (U256_id z1) by done.
  apply wp_memory_Get; [done..|]. intros d Hd _. repeat wp_step. frame_simpl.
  rewrite (stipend_gas _ _ (Gas c)) by done.
  eapply wp_mono; [eapply wp_weaken; [apply (Call_ok env n Run HRun Hctx)|done|intros; split; [done|lia]]|finish_call];
    [done|lia|done| |done].
  intros Hs. by apply Hv0.
Qed.
Lemma opCallCode_ok : op_exec_ok True 7 1 call_extra (mem_pre memoryCall) (opCallCode env Run).
Proof.
  start_call. call_windows.
  unfold call_extra, stipend in *. frame_simpl. cbn in Hmax, Hex |- *.
  pose proof Hc as (_ & _ & _ & [Hc0 _]). repeat wp_step. cbv zeta. rewrite (U256_id z1) by done.
  apply wp_memory_Get; [done..|]. intros d Hd _. repeat wp_step. frame_simpl.
  rewrite (stipend_gas _ _ (Gas c)) by done.
  eapply wp_mono; [eapply wp_weaken; [apply (CallCode_ok env n Run HRun Hctx)|done|intros; split; [done|lia]]|finish_call];
    done || lia.
Qed.

Lemma opDelegateCall_ok : op_exec_ok True 6 1 temp_extra (mem_pre memoryDelegateCall) (opDelegateCall env Run).
Proof.
  start_call. call_windows. unfold temp_extra in *. frame_simpl.
  pose proof Hc as (_ & _ & (v & Hval & Hv) & [Hc0 _]). repeat wp_step. cbv zeta.
  apply wp_memory_Get; [done..|]. intros d Hd _. repeat wp_step. frame_simpl.
  eapply wp_mono; [eapply wp_weaken; [apply (DelegateCall_ok env n Run HRun)|done|intros; split; [done|lia]]|finish_call];
    [|done|lia|done].
  unfold ref_of. rewrite Hval. by eexists _, _, v.
Qed.
Lemma opStaticCall_ok : op_exec_ok True 6 1 temp_extra (mem_pre memoryStaticCall) (opStaticCall env Run).
Proof.
  start_call. call_windows. unfold temp_extra in *. frame_simpl.
  pose proof Hc as (_ & _ & (v & Hval & Hv) & [Hc0 _]). repeat wp_step. cbv zeta.
  apply wp_memory_Get; [done..|]. intros d Hd _. repeat wp_step. frame_simpl.
  eapply wp_mono with (Q := call_post (static env e) (callGasTemp e) e); [|finish_call].
  eapply wp_mono; [eapply wp_weaken; [apply (StaticCall_ok env n Run HRun)|done|intros; split; [done|lia]]|]; [done|lia|done|].
  intros [[ret g] err] e' (Hrd & Hg & Hle & Herr).
  split; [done|]. split; [done|]. split; [|done]. eapply evm_le_weaken; [|exact Hle].
  unfold static, static_under. by intros [-> ->]%andb_true_iff.
Qed.

Lemma wp_use_gas PN FU g p c m st e (Q : unit -> Frame S -> Prop) :
  g <= Gas c -> Q tt (mkFrame p (set_Gas (Gas c - g) c) m st e) ->
  wp PN FU (use_gas g) Q (mkFrame p c m st e).
Proof.
  intros Hg HQ. unfold use_gas. wp_step. frame_simpl. unfold UseGas.
  by rewrite (proj2 (Z.ltb_ge (Gas c) g)).
Qed.

Lemma most_gas (b : bool) g :
  0 <= g -> 0 <= (if b then g - g / 64 else g) <= g.
Proof.
  intros Hg. destruct b; [|lia]. pose proof (Z.div_pos g 64). pose proof (Z.div_le_upper_bound g 64 g).
  lia.
Qed.

Definition create_pre (fm : memorySizeFunc) (f : Frame S) : Prop := mem_pre fm f /\ writable env f.

(** The end of a create instruction. *)
Lemma create_end FU (flag : bool) addr g r p c0 c m st e0 e (pops : Z) st0 bound
    (k : M (Frame S) unit) :
  k = push 0 \/ k = push (Address_Big addr) ->
  evm_le (static env e0) e0 e -> contract_ok c -> mem_ok m -> stack_ok st -> is_u64 p -> data_ok r ->
  0 <= g -> Gas c + g <= bound -> bound < MaxGas -> zlen st + pops = zlen st0 ->
  wp (allowed env) FU
    (k;; return_gas g;; mret (if flag then (r, None) else ([], None)))
    (exec_post env pops 1 bound (mkFrame p c0 m st0 e0)) (mkFrame p c m st e).
Proof.
  intros Hk Hle Hc Hm Hst Hp Hr Hg Hb Hmax Hz. pose proof Hc as (_ & _ & _ & Hg0).
  wp_step. apply (wp_mono _ _ _ (fun _ f => exists x, is_u256 x /\ f = mkFrame p c m (x :: st) e)).
  { destruct Hk as [-> | ->]; wp_step; eexists; split; try reflexivity; [apply u256_0|apply u256_address]. }
  intros _ f (x & Hx & ->). wp_step. apply wp_return_gas; [lia..|]. wp_step.
  end_call; try (destruct flag; [done|apply data_ok_nil]).
  apply contract_ok_Gas; [done|lia].
Qed.

Lemma opCreate2_ok : op_exec_ok True 4 1 no_extra (create_pre memoryCreate2) (opCreate2 env Run).
Proof.
  start_call. destruct Hpre as [Hpre Hw]. unfold writable, no_extra in *. frame_simpl.
  destruct Hpre as (ms & [= <-] & Hms). frame_simpl. repeat wp_step.
  apply wp_memory_Get; [done..|]. intros d Hd _. repeat wp_step. frame_simpl.
  pose proof Hc as (_ & _ & _ & [Hc0 _]). pose proof (most_gas true (Gas c) Hc0) as Hmg. cbv iota in Hmg.
  apply wp_use_gas; [lia|]. repeat wp_step. frame_simpl.
  eapply wp_mono; [eapply wp_weaken; [apply (Create2_ok env n Run HRun Hctx)|done|intros; split; [done|lia]]|];
    [done|lia|done|done|done|].
  intros [[[res addr] g] err] e' (Hrd & Hg & Hle).
  apply (create_end _ _ addr); try done; [case_match; tauto|by rewrite Hw|apply contract_ok_Gas; [done|lia]|lia|cbn; lia|].
  rewrite !zlen_cons. lia.
Qed.
Lemma opCreate_ok : op_exec_ok True 3 1 no_extra (create_pre memoryCreate) (opCreate env Run).
Proof.
  start_call. destruct Hpre as [Hpre Hw]. unfold writable, no_extra in *. frame_simpl.
  destruct Hpre as (ms & [= <-] & Hms). frame_simpl. repeat wp_step.
  apply wp_memory_Get; [done..|]. intros d Hd _. repeat wp_step. frame_simpl.
  pose proof Hc as (_ & _ & _ & [Hc0 _]).
  pose proof (most_gas (IsEIP150 (chainConfig env) (number env)) (Gas c) Hc0) as Hmg.
  set (gas := if IsEIP150 _ _ then _ else _) in *.
  apply wp_use_gas; [lia|]. repeat wp_step. frame_simpl.
  eapply wp_mono; [eapply wp_weaken; [apply (Create_ok env n Run HRun Hctx)|done|intros; split; [done|lia]]|];
    [done|lia|done|done|done|].
  intros [[[res addr] g] err] e' (Hrd & Hg & Hle).
  apply (create_end _ _ addr); try done;
    [repeat case_match; tauto|by rewrite Hw|apply contract_ok_Gas; [done|lia]|lia|cbn; lia|].
  rewrite !zlen_cons. lia.
Qed.
End op_safety.
