(* ===== verification/TableSafe.v ===== *)
(** * The instruction sets are consistent

    For every entry of every instruction set: the items the stack is checked
    for are those the instruction takes, the memory function reads no more,
    and the gas function charges for what the instruction hands on and, unless
    the instruction ends the loop, for at least one unit more. *)

From S2P Require Import Prelude CommonMath Params Opcodes StateIface Machine EvmTypes.
From S2P Require Import Precompiles GasTable Evm Instructions JumpTable EvmInv InstrSafe.
From S2P Require Import GasSafe CallSafe OpSafe.
Local Open Scope Z_scope.

(** The lemmas on instructions and on gas functions. *)
Create HintDb evm_exec discriminated.
Create HintDb evm_gas discriminated.
#[export] Hint Resolve opAdd_ok opSub_ok opMul_ok opDiv_ok opSdiv_ok opMod_ok opSmod_ok opExp_ok
  opSignExtend_ok opNot_ok opLt_ok opGt_ok opSlt_ok opSgt_ok opEq_ok opIszero_ok opAnd_ok opOr_ok
  opXor_ok opByte_ok opAddmod_ok opMulmod_ok opSHL_ok opSHR_ok opSAR_ok opAddress_ok opOrigin_ok
  opCaller_ok opCallValue_ok opCallDataLoad_ok opCallDataSize_ok opReturnDataSize_ok opCodeSize_ok
  opGasprice_ok opBlockhash_ok opCoinbase_ok opTimestamp_ok opNumber_ok opDifficulty_ok opGasLimit_ok
  opPop_ok opPc_ok opMsize_ok opGas_ok opJumpdest_ok opStop_ok stack_effect_ok : evm_exec.
#[export] Hint Resolve opBalance_ok opExtCodeSize_ok opExtCodeHash_ok opSload_ok opSha3_ok
  opExtCodeCopy_ok opMload_ok opMstore_ok
  opMstore8_ok opReturn_ok opRevert_ok opSstore_ok opSuicide_ok opJump_ok opJumpi_ok : evm_exec.
#[export] Hint Resolve gasExp_ok gasSha3_ok gasBalance_ok gasCallDataCopy_ok gasReturnDataCopy_ok
  gasCodeCopy_ok gasExtCodeCopy_ok gasExtCodeSize_ok gasExtCodeHash_ok gasMLoad_ok gasMStore_ok
  gasMStore8_ok gasSLoad_ok gasSStore_ok gasCreate_ok gasCreate2_ok gasReturn_ok gasRevert_ok
  gasSuicide_ok gasCall_ok gasCallCode_ok gasDelegateCall_ok gasStaticCall_ok : evm_gas.

Section table_safety.
Context {S : Type} `{StateDB S} `{Crypto} {SL : StateDBLaws S} {CL : CryptoLaws}.
Context (env : Env S) (Hctx : context_ok (context env)).
Context (n : Z) (Run : RunFunc S) (HRun : runs env n Run).

(** What the loop has established before it charges for an instruction. *)
Definition pre_gas (o : operation S) (f : Frame S) : Prop := writes o = true -> writable env f.

(** What it has established before it runs it. *)
Definition pre_exec (op : OpCode) (o : operation S) (f : Frame S) : Prop :=
  (writes o = true -> writable env f) /\
  (forall fm, memorySize o = Some fm -> mem_pre fm f) /\
  (op <> STOP -> in_code f) /\
  (op = CALL -> static env (evm f) = true -> forall v, stack f !! 2%nat = Some v -> v = 0).

(** The memory function works on a stack with the operands. *)
Definition mem_total (pops : Z) (fm : memorySizeFunc) : Prop :=
  forall st, stack_ok st -> pops <= zlen st -> exists ms, fm st = Some ms /\ 0 <= ms.

(** The gas handed on depends on the stack and the virtual machine only. *)
Definition stable (extra : Frame S -> Z) : Prop :=
  forall f f', stack f = stack f' -> evm f = evm f' -> extra f = extra f'.

Record entry_ok (op : OpCode) (o : operation S) (pops pushes minc : Z) (extra : Frame S -> Z)
    (nomem : bool) : Prop := {
  entry_stack st : validateStack o st = None ->
    pops <= zlen st /\ zlen st - pops + pushes <= StackLimit;
  entry_gas : gas_ok env nomem pops minc extra (pre_gas o) (gasCost o);
  entry_exec : op_exec_ok env n (minc = 1) pops pushes extra (pre_exec op o) (execute o);
  entry_nomem : nomem = true -> memorySize o = None;
  entry_mem fm : memorySize o = Some fm -> mem_total pops fm;
  entry_stable : stable extra;
  entry_minc : minc = 1 \/ (minc = 0 /\ (halts o = true \/ reverts o = true));
}.
Definition consistent (op : OpCode) (o : operation S) : Prop :=
  exists pops pushes minc extra nomem, entry_ok op o pops pushes minc extra nomem.
Definition table_ok (t : JumpTable (S := S)) : Prop := Forall (fun '(op, o) => consistent op o) t.

Lemma makeStackFunc_None pop push st :
  makeStackFunc pop push st = None ->
  pop <= zlen st /\ zlen st - pop + push <= StackLimit.
Proof.
  unfold makeStackFunc, Stack_require, Stack_len. repeat case_match; try done.
  rewrite Z.ltb_ge in *. lia.
Qed.

Lemma gas_ok_pre nomem pops minc extra (P P' : Frame S -> Prop) g :
  (forall f, P' f -> P f) -> gas_ok env nomem pops minc extra P g ->
  gas_ok env nomem pops minc extra P' g.
Proof. intros HP Hg gt m f Heq Hf Hl Hpre. apply Hg; auto. Qed.

Lemma exec_ok_pre (C C' : Prop) pops pushes extra (P P' : Frame S -> Prop) ex :
  (forall f, P' f -> P f) -> (C -> C') -> op_exec_ok env n C pops pushes extra P ex ->
  op_exec_ok env n C' pops pushes extra P' ex.
Proof.
  intros HP HC Hx f Hf Hl Hpre He Hmax. eapply wp_weaken; [apply Hx; auto|done|]. tauto.
Qed.

Lemma no_extra_stable : stable no_extra.
Proof. done. Qed.
Lemma temp_extra_stable : stable temp_extra.
Proof. intros f f' _ He. unfold temp_extra. by rewrite He. Qed.
Lemma call_extra_stable : stable call_extra.
Proof. intros f f' Hs He. unfold call_extra, stipend. by rewrite Hs, He. Qed.

(** How an entry is put together. *)
Lemma entry_intro op ex gas pops pushes mem flags minc extra nomem (P P' : Frame S -> Prop) :
  gas_ok env nomem pops minc extra P gas -> op_exec_ok env n (minc = 1) pops pushes extra P' ex ->
  (nomem = true -> mem = None) -> (forall fm, mem = Some fm -> mem_total pops fm) -> stable extra ->
  minc = 1 \/ (minc = 0 /\ (Halts ∈ flags \/ Reverts ∈ flags)) ->
  let o := op_entry ex gas (makeStackFunc pops pushes) mem flags in
  (forall f, pre_gas o f -> P f) -> (forall f, pre_exec op o f -> P' f) ->
  entry_ok op o pops pushes minc extra nomem.
Proof.
  intros Hg Hx Hn Hm Hs Hc o HP HP'. split; try done.
  - apply makeStackFunc_None.
  - by eapply gas_ok_pre.
  - by apply (exec_ok_pre (minc = 1) _ _ _ _ P').
  - destruct Hc as [?|[? Hf]]; [by left|right]. split; [done|].
    destruct Hf; [left|right]; cbn; by apply bool_decide_eq_true.
Qed.

(** An instruction that only touches the stack at a constant price. *)
Lemma const_entry op ex g pops pushes flags :
  exec_ok env pops pushes no_pre ex -> is_u64 g -> 1 <= g \/ Halts ∈ flags ->
  consistent op (op_entry ex (constGasFunc g) (makeStackFunc pops pushes) None flags).
Proof.
  intros Hx Hg Hc. set (minc := if decide (1 <= g) then 1 else 0).
  exists pops, pushes, minc, no_extra, true.
  apply entry_intro with (P := no_pre) (P' := no_pre); try done.
  - apply constGas_ok; [done|]. subst minc. unfold is_u64 in Hg. case_decide; lia.
  - by apply exec_op_ok.
  - subst minc. case_decide; [by left|right]. destruct Hc; [done|]. tauto.
Qed.
Lemma stack_entry op ex g pops pushes :
  stack_effect pops pushes ex -> 1 <= g < 2 ^ 64 ->
  consistent op (op_entry ex (constGasFunc g) (makeStackFunc pops pushes) None []).
Proof.
  intros Hx Hg. apply const_entry; [|unfold is_u64; lia|left; lia].
  by apply stack_effect_ok.
Qed.

(** An instruction without memory. *)
Lemma plain_entry op ex gas pops pushes :
  gas_ok env true pops 1 no_extra no_pre gas -> exec_ok env pops pushes no_pre ex ->
  consistent op (op_entry ex gas (makeStackFunc pops pushes) None []).
Proof.
  intros Hg Hx. exists pops, pushes, 1, no_extra, true.
  apply entry_intro with (P := no_pre) (P' := no_pre); try done; [|by left]. by apply exec_op_ok.
Qed.

(** An instruction with memory. *)
Lemma mem_entry op ex gas pops pushes fm flags :
  gas_ok env false pops 1 no_extra no_pre gas -> exec_ok env pops pushes (mem_pre fm) ex ->
  mem_total pops fm ->
  consistent op (op_entry ex gas (makeStackFunc pops pushes) (Some fm) flags).
Proof.
  intros Hg Hx Hm. exists pops, pushes, 1, no_extra, false.
  apply entry_intro with (P := no_pre) (P' := mem_pre fm); try done.
  - by apply exec_op_ok.
  - by intros fm' [= <-].
  - by left.
  - intros f (_ & Hmem & _). by apply Hmem.
Qed.

Lemma push_entry op k :
  op <> STOP -> 1 <= k <= 32 ->
  consistent op (op_entry (makePush k k) gasPush (makeStackFunc 0 1) None []).
Proof.
  intros Hop Hk. exists 0, 1, 1, no_extra, true.
  apply entry_intro with (P := no_pre) (P' := in_code); try done.
  - by apply (constGas_ok env GasFastestStep).
  - by apply exec_op_ok, makePush_ok.
  - by left.
  - intros f (_ & _ & Hin & _). by apply Hin.
Qed.
Lemma dup_entry op k :
  1 <= k -> consistent op (op_entry (makeDup k) gasDup (makeDupStackFunc k) None []).
Proof. intros Hk. apply (stack_entry op (makeDup k) GasFastestStep); [by apply makeDup_ok|by vm_compute]. Qed.
Lemma swap_entry op k :
  0 <= k -> consistent op (op_entry (makeSwap k) gasSwap (makeSwapStackFunc (k + 1)) None []).
Proof. intros Hk. apply (stack_entry op (makeSwap k) GasFastestStep); [by apply makeSwap_ok|by vm_compute]. Qed.

Ltac mem_total :=
  intros st Hst Hl; take_operands; eexists; (split; [reflexivity|]);
  rewrite ?BigMax_spec; unfold calcMemSize, is_u256 in *; repeat case_match; lia.

Lemma memoryLog_total k : 0 <= k -> mem_total (k + 2) memoryLog.
Proof.
  intros Hk st Hst Hl. assert (2 <= zlen st) as Hl2 by lia. clear Hl.
  take_operands. eexists. split; [reflexivity|]. unfold calcMemSize, is_u256 in *. case_match; lia.
Qed.
Lemma log_entry op (k : nat) :
  (k <= 4)%nat ->
  consistent op (op_entry (makeLog env k) (makeGasLog (Z.of_nat k)) (makeStackFunc (Z.of_nat k + 2) 0)
    (Some memoryLog) [Writes]).
Proof.
  intros Hk. exists (Z.of_nat k + 2), 0, 1, no_extra, false.
  apply entry_intro with (P := no_pre) (P' := fun f => mem_pre memoryLog f /\ writable env f); try done.
  - intros gt m f Heq Hf Hl. apply makeGasLog_ok; [lia|done|done|lia].
  - apply exec_op_ok, makeLog_ok.
  - intros fm [= <-]. apply memoryLog_total. lia.
  - by left.
  - intros f (Hw & Hmem & _). split; [by apply Hmem|by apply Hw].
Qed.

(** An instruction that changes the state. *)
Lemma write_entry op ex gas pops pushes minc extra mem nomem flags (P : Frame S -> Prop) :
  gas_ok env nomem pops minc extra (writable env) gas ->
  op_exec_ok env n (minc = 1) pops pushes extra P ex -> Writes ∈ flags ->
  (nomem = true -> mem = None) -> (forall fm, mem = Some fm -> mem_total pops fm) -> stable extra ->
  minc = 1 \/ (minc = 0 /\ (Halts ∈ flags \/ Reverts ∈ flags)) ->
  (forall f, (forall fm, mem = Some fm -> mem_pre fm f) -> writable env f -> P f) ->
  consistent op (op_entry ex gas (makeStackFunc pops pushes) mem flags).
Proof.
  intros Hg Hx Hfl Hn Hm Hst Hc HP. exists pops, pushes, minc, extra, nomem.
  apply entry_intro with (P := writable env) (P' := P); try done.
  - intros f Hw. apply Hw. cbn. by apply bool_decide_eq_true.
  - intros f (Hw & Hmem & _). apply HP; [done|]. apply Hw. cbn. by apply bool_decide_eq_true.
Qed.

(** ** The tables *)

Ltac entry :=
  first
  [ solve [apply stack_entry; [eauto with evm_exec|by vm_compute]]
  | solve [apply plain_entry; [eauto with evm_gas|eauto with evm_exec]]
  | solve [apply mem_entry; [eauto with evm_gas|eauto with evm_exec|mem_total]]
  | solve [apply push_entry; [done|lia]]
  | solve [apply dup_entry; lia]
  | solve [apply (swap_entry _ _); lia]
  | idtac ].
Ltac entries := repeat (apply Forall_cons; split; [entry|]); try apply Forall_nil_2.

Lemma arithmetic_ok : table_ok frontier_arithmetic.
Proof.
  entries. apply const_entry; [|done|right; left].
  apply stack_effect_ok, opStop_ok.
Qed.
Lemma comparison_ok : table_ok (frontier_comparison env).
Proof. entries. Qed.
Lemma closure_state_ok : table_ok (frontier_closure_state env).
Proof.
  entries.
  - apply mem_entry; [apply gasCallDataCopy_ok|apply opCallDataCopy_ok|mem_total].
  - apply mem_entry; [apply gasCodeCopy_ok|apply opCodeCopy_ok|mem_total].
Qed.
Lemma block_ok : table_ok (frontier_block env).
Proof. entries. Qed.
Lemma storage_ok : table_ok (frontier_storage env).
Proof.
  entries.
  - eapply write_entry with (nomem := true) (P := writable env); try done.
    + apply gasSStore_ok.
    + apply exec_op_ok, opSstore_ok.
    + apply elem_of_cons; by left.
    + apply no_extra_stable.
    + by left.
  - apply const_entry; [apply opJump_ok|by vm_compute|by left].
  - apply const_entry; [apply opJumpi_ok|by vm_compute|by left].
Qed.
Lemma push_low_ok : table_ok frontier_push_low.
Proof. entries. Qed.
Lemma push_high_ok : table_ok frontier_push_high.
Proof. entries. Qed.
Lemma dup_ok : table_ok frontier_dup.
Proof. entries. Qed.
Lemma swap_ok : table_ok frontier_swap.
Proof.
  unfold table_ok, frontier_swap.
  repeat (apply Forall_cons; split; [refine (swap_entry _ _ _); lia|]). apply Forall_nil_2.
Qed.
Lemma log_ok : table_ok (frontier_log env).
Proof.
  unfold table_ok, frontier_log.
  repeat (apply Forall_cons; split; [refine (log_entry _ _ _); lia|]). apply Forall_nil_2.
Qed.

(** A call: the gas set aside for it is part of the price. *)
Lemma call_entry op ex gas pops pushes extra fm (P : Frame S -> Prop) :
  gas_ok env false pops 1 extra no_pre gas -> op_exec_ok env n True pops pushes extra P ex ->
  mem_total pops fm -> stable extra ->
  (forall f, mem_pre fm f ->
     (op = CALL -> static env (evm f) = true -> forall v, stack f !! 2%nat = Some v -> v = 0) -> P f) ->
  consistent op (op_entry ex gas (makeStackFunc pops pushes) (Some fm) [Returns]).
Proof.
  intros Hg Hx Hm Hst HP. exists pops, pushes, 1, extra, false.
  apply entry_intro with (P := no_pre) (P' := P); try done.
  - by apply (exec_ok_pre True _ _ _ _ P).
  - by intros fm' [= <-].
  - by left.
  - intros f (_ & Hmem & _ & Hcall). apply HP; [by apply Hmem|done].
Qed.

Lemma create_entry op ex gas pops fm :
  gas_ok env false pops 1 no_extra no_pre gas ->
  op_exec_ok env n True pops 1 no_extra (create_pre env fm) ex -> mem_total pops fm ->
  consistent op (op_entry ex gas (makeStackFunc pops 1) (Some fm) [Writes; Returns]).
Proof.
  intros Hg Hx Hm. eapply write_entry with (nomem := false); 
    [eapply gas_ok_pre; [|exact Hg]; done
    |eapply (exec_ok_pre True (1 = 1)); [|done|exact Hx]; done|left|done| | | |].
  - by intros fm' [= <-].
  - done.
  - by left.
  - intros f Hmem Hw. split; [by apply Hmem|done].
Qed.

(** An instruction that ends the loop may be free. *)
Lemma end_entry op ex gas pops fm flags :
  gas_ok env false pops 0 no_extra no_pre gas -> exec_ok env pops 0 (mem_pre fm) ex ->
  mem_total pops fm -> Halts ∈ flags \/ Reverts ∈ flags ->
  consistent op (op_entry ex gas (makeStackFunc pops 0) (Some fm) flags).
Proof.
  intros Hg Hx Hm Hfl. exists pops, 0, 0, no_extra, false.
  apply entry_intro with (P := no_pre) (P' := mem_pre fm); try done.
  - by apply exec_op_ok.
  - by intros fm' [= <-].
  - by right.
  - intros f (_ & Hmem & _). by apply Hmem.
Qed.

Lemma closures_ok : table_ok (frontier_closures env Run).
Proof.
  unfold table_ok, frontier_closures. repeat (apply Forall_cons; split); try apply Forall_nil_2.
  - apply create_entry; [apply gasCreate_ok|by apply opCreate_ok|mem_total].
  - eapply call_entry; [apply gasCall_ok|by apply opCall_ok|mem_total|apply call_extra_stable|].
    intros f Hm Hv. split; [done|]. by apply Hv.
  - eapply call_entry; [apply gasCallCode_ok|by apply opCallCode_ok|mem_total|apply call_extra_stable|done].
  - apply end_entry; [apply gasReturn_ok|apply opReturn_ok|mem_total|]. left. left.
  - eapply write_entry with (nomem := true) (P := writable env); try done.
    + apply gasSuicide_ok.
    + apply exec_op_ok, opSuicide_ok.
    + right. left.
    + apply no_extra_stable.
    + right. split; [done|]. left. left.
Qed.

Lemma table_ok_app t1 t2 : table_ok t1 -> table_ok t2 -> table_ok (t1 ++ t2).
Proof. apply Forall_app_2. Qed.

Lemma frontier_ok : table_ok (newFrontierInstructionSet env Run).
Proof.
  unfold newFrontierInstructionSet.
  auto 20 using table_ok_app, arithmetic_ok, comparison_ok, closure_state_ok, block_ok, storage_ok, push_low_ok,
      push_high_ok, dup_ok, swap_ok, log_ok, closures_ok.
Qed.
Lemma homestead_ok : table_ok (newHomesteadInstructionSet env Run).
Proof.
  apply Forall_app. split; [|apply frontier_ok]. apply Forall_cons; split; [|apply Forall_nil_2].
  eapply call_entry; [apply gasDelegateCall_ok|by apply opDelegateCall_ok|mem_total|
    apply temp_extra_stable|done].
Qed.
Lemma byzantium_ok : table_ok (newByzantiumInstructionSet env Run).
Proof.
  apply Forall_app. split; [|apply homestead_ok].
  repeat (apply Forall_cons; split); try apply Forall_nil_2.
  - apply end_entry; [apply gasRevert_ok|apply opRevert_ok|mem_total|]. right. apply elem_of_cons; by left.
  - apply mem_entry; [apply gasReturnDataCopy_ok|apply opReturnDataCopy_ok|mem_total].
  - entry.
  - eapply call_entry; [apply gasStaticCall_ok|by apply opStaticCall_ok|mem_total|
      apply temp_extra_stable|done].
Qed.
Lemma constantinople_ok :
  IsConstantinople (chainConfig env) (number env) = true ->
  table_ok (newConstantinopleInstructionSet env Run).
Proof.
  intros Hcon. apply Forall_app. split; [|apply byzantium_ok].
  entries. apply create_entry; [apply gasCreate2_ok|by apply opCreate2_ok|mem_total].
Qed.

(** Every entry of the table in use. *)
Lemma instructionSet_ok : table_ok (instructionSet env Run).
Proof.
  unfold instructionSet. case_match; [by apply constantinople_ok|].
  case_match; [apply byzantium_ok|]. case_match; [apply homestead_ok|apply frontier_ok].
Qed.
End table_safety.
