(* ===== verification/LoopSafe.v ===== *)
(** * The interpreter keeps the invariants and stops

    One round of the loop keeps the invariants of the frame and, unless it
    leaves the loop, uses at least one unit of gas; so the loop, and the nested
    calls it makes, need no more fuel than the contract has gas. *)

From S2P Require Import Prelude CommonMath Params Opcodes StateIface Machine EvmTypes.
From S2P Require Import Precompiles GasTable Evm Instructions JumpTable Interpreter EvmInv.
From S2P Require Import InstrSafe GasSafe CallSafe OpSafe TableSafe.
Local Open Scope Z_scope.

Section loop_safety.
Context {S : Type} `{StateDB S} `{Crypto} {SL : StateDBLaws S} {CL : CryptoLaws}.
Context (env : Env S) (Hctx : context_ok (context env)).

(** A frame with a stack within the limit. *)
Definition loop_ok (f : Frame S) : Prop := frame_ok f /\ zlen (stack f) <= StackLimit.

Definition round_post (f : Frame S) (r : option (bytes * option Error)) (f' : Frame S) : Prop :=
  loop_ok f' /\ evm_le (static env (evm f)) (evm f) (evm f') /\
  Gas (contract f') <= Gas (contract f) /\
  match r with
  | Some (ret, _) => data_ok ret
  | None => Gas (contract f') + 1 <= Gas (contract f)
  end.

Section round.
Context (n : Z) (Run : RunFunc S) (HRun : runs env n Run).

(** An error leaves the loop. *)
Lemma round_error f err : loop_ok f -> round_post f (Some ([], err)) f.
Proof.
  intros Hf. split; [done|]. split; [apply evm_le_refl, Hf|]. split; [lia|apply data_ok_nil].
Qed.

Lemma assoc_elem {B} op (t : list (Z * B)) o : assoc Z.eqb op t = Some o -> (op, o) ∈ t.
Proof.
  induction t as [|[op' o'] t IH]; cbn; [done|]. case_match eqn:He.
  - apply Z.eqb_eq in He as ->. intros [= ->]. left.
  - intros Ho. right. by apply IH.
Qed.

Lemma table_lookup op o :
  assoc Z.eqb op (instructionSet env Run) = Some o -> consistent env n op o.
Proof.
  intros Ho%assoc_elem. pose proof (instructionSet_ok env Hctx n Run HRun) as Ht.
  unfold table_ok in Ht. rewrite Forall_forall in Ht. by apply (Ht (op, o)).
Qed.

Lemma CALL_entry :
  assoc Z.eqb CALL (instructionSet env Run) =
  Some (op_entry (opCall env Run) (gasCall env) (makeStackFunc 7 1) (Some memoryCall) [Returns]).
Proof. unfold instructionSet. repeat case_match; reflexivity. Qed.

Lemma GetOp_in_code (f : Frame S) :
  GetOp (contract f) (pc f) <> STOP -> in_code f.
Proof. unfold GetOp, GetByte, in_code. case_match eqn:Hlt; [|done]. intros _. lia. Qed.

(** What [enforceRestrictions] lets through. *)
Definition permitted (op : OpCode) (o : operation S) (f : Frame S) : Prop :=
  (writes o = true -> writable env f) /\
  (op = CALL -> static env (evm f) = true -> forall v, stack f !! 2%nat = Some v -> v = 0).

Lemma wp_enforceRestrictions PN FU op o f (Q : option Error -> Frame S -> Prop) :
  (op = CALL -> 3 <= zlen (stack f)) -> stack_ok (stack f) ->
  (forall err, Q (Some err) f) -> (permitted op o f -> Q None f) ->
  wp PN FU (enforceRestrictions env op o) Q f.
Proof.
  intros Hcall Hst He Hs. unfold enforceRestrictions. wp_step. wp_step.
  fold (static env (evm f)). case_match eqn:Hro.
  - case_match eqn:Hw; [wp_step; apply He|]. case_match eqn:Hop.
    + apply Z.eqb_eq in Hop. specialize (Hcall Hop). destruct f as [p c m st e]. frame_simpl.
      take_operands. wp_step. eapply wp_back; [reflexivity|]. wp_step.
      case_match eqn:Hb; [apply He|]. apply Hs. split; [by rewrite Hw|].
      frame_simpl. intros _ _ v [= <-]. apply Z.ltb_ge in Hb. unfold BitLen in Hb.
      destruct (Z.eqb_spec z1 0); [done|]. pose proof (Z.log2_nonneg (Z.abs z1)). lia.
    + wp_step. apply Hs. split; [by rewrite Hw|]. by apply Z.eqb_neq in Hop.
  - wp_step. apply Hs. split; [by intros _|]. by rewrite Hro.
Qed.

(** The memory asked for is a number of bytes that covers what the memory
    function says. *)
Lemma wp_requiredMemory PN FU o pops f (Q : Error + Z -> Frame S -> Prop) :
  (forall fm, memorySize o = Some fm -> mem_total pops fm) -> pops <= zlen (stack f) ->
  stack_ok (stack f) ->
  (forall err, Q (inl err) f) ->
  (forall m, is_u64 m -> (memorySize o = None -> m = 0) ->
     (forall fm, memorySize o = Some fm -> exists ms, fm (stack f) = Some ms /\ ms <= m) -> Q (inr m) f) ->
  wp PN FU (requiredMemory o) Q f.
Proof.
  intros Hm Hl Hst He Hs. unfold requiredMemory. destruct (memorySize o) as [fm|] eqn:Ho.
  - destruct (Hm fm eq_refl (stack f) Hst Hl) as (ms & Hms & Hms0). do 2 wp_step.
    wp_step. eapply wp_of_option; [exact Hms|].
    destruct (bigUint64 ms) as [sz ov] eqn:Hb. destruct ov; [wp_step; apply He|].
    apply bigUint64_ok in Hb as [-> Hu]; [|done].
    destruct (SafeMul (toWordSize ms) 32) as [m ov] eqn:Hmul. wp_step. destruct ov; [apply He|].
    apply SafeMul_ok in Hmul as [-> Hu2]; [|by apply toWordSize_u64|by unfold is_u64].
    apply Hs; [done|done|]. intros fm' [= <-]. exists ms. split; [done|].
    rewrite toWordSize_spec by done. unfold is_u64 in *.
    pose proof (Z.div_mod (ms + 31) 32). pose proof (Z.mod_pos_bound (ms + 31) 32). lia.
  - wp_step. apply Hs; [done|done|]. done.
Qed.

(** After the charge: the gas is taken, the memory is large enough, nothing
    else of the frame has changed. *)
Record charged (cost m : Z) (f f' : Frame S) : Prop := {
  charged_pc : pc f' = pc f;
  charged_stack : stack f' = stack f;
  charged_gas : Gas (contract f') = Gas (contract f) - cost;
  charged_contract : contract f' = set_Gas (Gas (contract f')) (contract f);
  charged_memory : mem_ok (memory f') /\ m <= zlen (store (memory f'));
  charged_evm : evm_le (static env (evm f)) (evm f) (evm f');
}.

Lemma Memory_Resize_ok m size :
  mem_ok m -> size <= MaxMemory ->
  mem_ok (Memory_Resize size m) /\ size <= zlen (store (Memory_Resize size m)).
Proof.
  intros [Hb Hl] Hs. unfold Memory_Resize, Memory_Len.
  destruct (Z.ltb_spec (zlen (store m)) size); [|done]. cbn.
  assert (zlen (store m ++ zeros (size - zlen (store m))) = size) as He
    by (rewrite zlen_app, zlen_zeros; lia).
  split; [|lia]. split; cbn; [|lia]. apply bytes_ok_app. split; [done|apply bytes_ok_zeros].
Qed.

Lemma set_Gas_id c : set_Gas (Gas c) c = c.
Proof. by destruct c. Qed.

Lemma wp_chargeGas FU op o pops pushes minc extra nomem m f (Q : option Error -> Frame S -> Prop) :
  entry_ok env n op o pops pushes minc extra nomem -> loop_ok f -> pops <= zlen (stack f) ->
  pre_gas env o f -> is_u64 m -> (memorySize o = None -> m = 0) ->
  (forall err f', loop_ok f' -> evm_le (static env (evm f)) (evm f) (evm f') ->
     contract f' = contract f -> Q (Some err) f') ->
  (forall cost f', charged cost m f f' -> 0 <= extra f' -> minc + extra f' <= cost ->
     cost <= Gas (contract f) -> is_u64 cost -> Q None f') ->
  wp (allowed env) FU (chargeGas env o m) Q f.
Proof.
  intros He [Hf Hlim] Hl Hpre Hm Hnm Herr Hs. unfold chargeGas. wp_step.
  eapply wp_mono.
  { eapply wp_weaken; [apply (entry_gas _ _ _ _ _ _ _ _ _ He); try done|done|done].
    intros Hn. by apply Hnm, (entry_nomem _ _ _ _ _ _ _ _ _ He). }
  pose proof Hf as (Hc & Hmem & Hst & Hp & Hevm).
  intros r f' (Hpc & Hct & Hstk & Hstore & Hle & Hr).
  assert (loop_ok f') as Hf'.
  { split; [|by rewrite Hstk]. unfold frame_ok, mem_ok. rewrite Hpc, Hct, Hstk, Hstore.
    split_conj; try done; try apply Hmem; apply Hle. }
  destruct r as [err|cost]; [wp_step; by apply Herr|]. destruct Hr as (Hcost & Hex & Hmin & Hmax).
  do 2 wp_step. unfold UseGas. destruct (Z.ltb_spec (Gas (contract f')) cost); cbn [negb];
    [wp_step; by apply Herr|].
  do 2 wp_step. rewrite Hct in *.
  assert (Hex' : forall f2, stack f2 = stack f' -> evm f2 = evm f' -> extra f2 = extra f')
    by (intros f2; apply (entry_stable _ _ _ _ _ _ _ _ _ He)).
  destruct Hmem as [Hb Hml]. assert (mem_ok (memory f')) as Hmem' by (by split; rewrite Hstore).
  wp_step. wp_step.
  - destruct f' as [p' c' m' st' e']. frame_simpl. do 3 wp_step. frame_simpl. subst.
    destruct (Memory_Resize_ok m' m Hmem' Hmax) as [Hm1 Hm2].
    eapply Hs; [|by rewrite Hex'|by rewrite Hex'|done|done]. by split; frame_simpl.
  - wp_step. eapply Hs; [|by rewrite Hex'|by rewrite Hex'|done|done].
    split; frame_simpl; try done. split; [done|].
    assert (m <= 0) by (by apply Z.ltb_ge). pose proof (zlen_nonneg (store (memory f'))). lia.
Qed.

Lemma frame_ok_charged cost m f f' :
  loop_ok f -> charged cost m f f' -> 0 <= cost <= Gas (contract f) -> loop_ok f'.
Proof.
  intros [(Hc & _ & Hst & Hp & _) Hlim] [Hpc Hstk Hg Hct [Hm _] Hle] Hcost.
  split; [|by rewrite Hstk]. unfold frame_ok. rewrite Hpc, Hstk, Hct.
  split_conj; try done; try apply Hle; try apply Hm.
  apply contract_ok_Gas; [done|]. destruct Hc as (_ & _ & _ & Hc). lia.
Qed.

Lemma wp_finish PN FU o r f (Q : option (bytes * option Error) -> Frame S -> Prop) :
  loop_ok f -> data_ok (fst r) ->
  (forall ret err f', loop_ok f' -> contract f' = contract f -> (forall ro, evm_le ro (evm f) (evm f')) ->
     data_ok ret -> Q (Some (ret, err)) f') ->
  (forall f', halts o = false -> reverts o = false -> loop_ok f' -> contract f' = contract f ->
     (forall ro, evm_le ro (evm f) (evm f')) -> Q None f') ->
  wp PN FU (finish o r) Q f.
Proof.
  intros Hf Hd Hsome Hnone. destruct r as [res err]. cbn in Hd. unfold finish. wp_step.
  eapply wp_mono with (Q := fun _ f' => loop_ok f' /\ contract f' = contract f /\
    forall ro, evm_le ro (evm f) (evm f')).
  { wp_step; [|split_conj; try done; intros ro; apply evm_le_refl, Hf].
    destruct f as [p c m st e]. do 2 wp_step. frame_simpl.
    destruct Hf as [(Hc & Hm & Hst & Hp & (Hi & Hw & Hj & Hr & Hdp)) Hlim]. frame_simpl.
    assert (evm_ok (set_returnData res e)) as He by (unfold evm_ok; frame_simpl; by split_conj).
    split; [split; [|done]; unfold frame_ok; frame_simpl; by split_conj|]. split; [done|]. intros ro.
    unfold evm_le. frame_simpl. split_conj; try done. }
  intros _ f' (Hf' & Hc & Hle). destruct err as [err|].
  { wp_step. apply Hsome; try done. apply data_ok_nil. }
  case_match; [wp_step; by apply Hsome|]. case_match; [wp_step; by apply Hsome|].
  wp_step. wp_step; [|wp_step; by apply Hnone]. do 2 wp_step. apply Hnone; try done.
  destruct Hf' as [(?&?&?&?&?) ?]. split; [|done]. unfold frame_ok. frame_simpl.
  split_conj; try done. apply u64_range.
Qed.

Lemma iteration_ok f :
  loop_ok f ->
  wp (allowed env) (n + 1 <= Gas (contract f)) (iteration env (instructionSet env Run)) (round_post f) f.
Proof.
  intros Hf. pose proof Hf as [Hfr Hlim]. pose proof Hfr as (Hc & Hm & Hst & Hp & Hevm).
  unfold iteration. do 4 wp_step. set (op := GetOp _ _).
  destruct (assoc Z.eqb op (instructionSet env Run)) as [o|] eqn:Ho; cbn [from_option id];
    [|cbn; wp_step; by apply round_error].
  destruct (negb (valid o)); [wp_step; by apply round_error|]. do 2 wp_step.
  destruct (table_lookup op o Ho) as (pops & pushes & minc & extra & nomem & He).
  destruct (validateStack o (stack f)) as [err|] eqn:Hv; [wp_step; by apply round_error|].
  pose proof (entry_stack _ _ _ _ _ _ _ _ _ He (stack f) Hv) as [Hl Hlim'].
  wp_step. apply wp_enforceRestrictions; [|done|intros err; wp_step; by apply round_error|].
  { intros Hop. rewrite Hop, CALL_entry in Ho. injection Ho as <-.
    apply makeStackFunc_None in Hv. lia. }
  intros [Hw Hcall]. wp_step. eapply wp_requiredMemory; [apply (entry_mem _ _ _ _ _ _ _ _ _ He)|done|done| |].
  { intros err. wp_step. by apply round_error. }
  intros m Hmu Hm0 Hmem. wp_step.
  eapply wp_chargeGas; [exact He|done|done|done|done|done| |].
  { intros err f' Hf' Hle Hct. wp_step. split; [done|]. split; [done|]. rewrite Hct.
    split; [lia|apply data_ok_nil]. }
  intros cost f1 Hch Hex0 Hex Hcost Hcu. unfold is_u64 in Hcu.
  pose proof (frame_ok_charged _ _ _ _ Hf Hch ltac:(lia)) as Hf1.
  destruct Hch as [Hpc1 Hst1 Hg1 Hct1 [Hmem1 Hml1] Hle1].
  pose proof (entry_minc _ _ _ _ _ _ _ _ _ He) as Hminc.
  assert (static env (evm f1) = static env (evm f)) as Hro by (by eapply static_le).
  wp_step. eapply wp_mono.
  { eapply wp_weaken; [apply (entry_exec _ _ _ _ _ _ _ _ _ He)|done|]; [apply Hf1|by rewrite Hst1| |done| |].
    - unfold pre_exec, writable, mem_pre, in_code. rewrite Hst1, Hro, Hpc1, Hct1. split_conj; try done.
      + intros fm Hfm. destruct (Hmem fm Hfm) as (ms & Hms & Hle). exists ms. split; [done|lia].
      + intros Hop. by apply GetOp_in_code.
    - destruct Hc as (_ & _ & _ & Hc). lia.
    - intros [-> ?]. lia. }
  intros r f2 (Hc2 & Hg2 & Hmem2 & Hst2 & Hl2 & Hp2 & Hle2 & Hd).
  rewrite Hst1 in Hl2. rewrite Hro in Hle2.
  assert (loop_ok f2) as Hf2.
  { split; [|lia]. unfold frame_ok. split_conj; try done; apply Hle2 || apply Hmem2 || apply Hc2. }
  assert (evm_le (static env (evm f)) (evm f) (evm f2)) as Hle by (by eapply evm_le_trans).
  apply wp_finish; [done|done| |].
  - intros ret err f3 Hf3 Hc3 Hle3 Hret. split; [done|].
    split; [by eapply evm_le_trans|]. rewrite Hc3. split; [destruct Hminc as [->|[-> _]]; lia|done].
  - intros f3 Hh Hr Hf3 Hc3 Hle3. split; [done|]. split; [by eapply evm_le_trans|]. rewrite Hc3.
    destruct Hminc as [->|[_ [?|?]]]; [lia|congruence..].
Qed.
End round.

(** ** The loop *)

Definition loop_post (f : Frame S) (r : bytes * option Error) (f' : Frame S) : Prop :=
  loop_ok f' /\ evm_le (static env (evm f)) (evm f) (evm f') /\
  Gas (contract f') <= Gas (contract f) /\ data_ok (fst r).

Lemma load_abort_ok PN FU f (Q : bool -> Frame S -> Prop) :
  loop_ok f ->
  (forall b f', loop_ok f' -> contract f' = contract f -> (forall ro, evm_le ro (evm f) (evm f')) -> Q b f') ->
  wp PN FU (load_abort env) Q f.
Proof.
  intros [(Hc & Hm & Hst & Hp & He) Hlim] HQ. destruct f as [p c m st e]. unfold load_abort.
  repeat wp_step. frame_simpl. destruct He as (Hi & Hw & Hj & Hr & Hd). apply HQ; frame_simpl.
  - split; [|done]. unfold frame_ok, evm_ok. frame_simpl. by split_conj.
  - done.
  - intros ro. unfold evm_le, evm_ok. frame_simpl. split_conj; done.
Qed.

(** The locals of [Run] as its loop starts. *)
Lemma wp_in_frame PN FU c loop (Q : bytes * option Error * Contract -> EVM S -> Prop) e :
  wp PN FU loop (fun r f => Q (r, contract f) (evm f)) (mkFrame 0 c NewMemory newstack e) ->
  wp PN FU (in_frame c loop) Q e.
Proof. unfold wp, in_frame. destruct (loop _) as [[[ret err] f]| |]; done. Qed.

Section entering.
Context (n : Z) (loop : M (Frame S) (bytes * option Error)).
Context (Hloop : forall f, loop_ok f ->
  wp (allowed env) (n <= Gas (contract f)) loop (loop_post f) f).

Lemma contract_ok_Input x c : contract_ok c -> data_ok x -> contract_ok (set_Input x c).
Proof. intros (Hc & _ & Hv) Hx. split; [done|]. by split. Qed.

Lemma body_ok c input e :
  contract_ok c -> data_ok input -> evm_ok e ->
  wp (allowed env) (n <= Gas c)
    (if zlen (Code c) =? 0 then mret ([], None, c) else in_frame (set_Input input c) loop)
    (fun '(ret, err, c') e' => data_ok ret /\ 0 <= Gas c' <= Gas c /\ evm_le (static env e) e e') e.
Proof.
  intros Hc Hin He. pose proof Hc as (_ & _ & _ & Hg). case_match.
  - wp_step. split; [apply data_ok_nil|]. split; [lia|by apply evm_le_refl].
  - apply wp_in_frame. eapply wp_mono.
    { apply Hloop. split; [|by vm_compute]. unfold frame_ok. frame_simpl.
      split; [by apply contract_ok_Input|]. split; [split; [apply Forall_nil_2|by vm_compute]|].
      split; [apply Forall_nil_2|]. split; [done|done]. }
    intros [ret err] f ([(Hcf & _) _] & Hle & Hgf & Hd). frame_simpl. cbn in Hgf.
    destruct Hcf as (_ & _ & _ & Hgf0). split; [done|]. split; [lia|done].
Qed.

(** Around the loop: the depth, the read-only flag and the return data. *)
Definition entered (ro : bool) (e : EVM S) : EVM S :=
  let e1 := set_depth (depth e + 1) e in
  set_returnData [] (if ro && negb (readOnly e) then set_readOnly true e1 else e1).

Lemma entered_ok ro e : evm_ok e -> evm_ok (entered ro e).
Proof.
  intros (Hi & Hw & Hj & Hr & Hd). unfold entered, evm_ok.
  case_match; frame_simpl; split_conj; try done; try lia; apply data_ok_nil.
Qed.

Lemma entered_static ro e : static env (entered ro e) = static_under env ro e.
Proof. unfold static, static_under, entered. by destruct ro, (readOnly e) eqn:Hr; cbn; rewrite ?Hr. Qed.

(** Leaving undoes it. *)
Definition left (ro : bool) (e e' : EVM S) : EVM S :=
  let e1 := if ro && negb (readOnly e) then set_readOnly false e' else e' in
  set_depth (depth e1 - 1) e1.

Lemma left_le b ro e e' : evm_ok e -> evm_le b (entered ro e) e' -> evm_le b e (left ro e e').
Proof.
  intros He ((Hi & Hw & Hj & Hr & Hd) & Hdp & Hro & Hdb). unfold entered, left, evm_le, evm_ok in *.
  destruct ro, (readOnly e) eqn:Hrd; cbn in *; split_conj; try done; try lia; try apply Hdb;
    destruct He as (_ & _ & _ & _ & He); lia || congruence.
Qed.

Lemma interpreter_Run_ok : runs env n (interpreter_Run loop).
Proof.
  intros c input ro e Hc Hin He. pose proof (entered_ok ro e He) as He1.
  pose proof (body_ok c input _ Hc Hin He1) as Hb. rewrite entered_static in Hb.
  unfold interpreter_Run. do 4 wp_step. frame_simpl.
  pose proof (fun b e' => left_le b ro e e' He) as Hleft. unfold entered, left in *.
  destruct (ro && negb (readOnly e)); cbn [when]; repeat wp_step;
    (eapply wp_mono; [exact Hb|]); intros [[ret err] c'] e' (Hd & Hg & Hle); repeat wp_step;
    (split; [done|]; split; [done|]; by apply Hleft).
Qed.
End entering.

(** The loop runs out of fuel only if it has no more fuel than gas. *)
Lemma Run_loop_ok fuel f :
  loop_ok f ->
  wp (allowed env) (Z.of_nat fuel <= Gas (contract f)) (Run_loop env fuel) (loop_post f) f.
Proof.
  revert f. induction fuel as [|fuel IH]; intros f Hf.
  { cbn. destruct Hf as [((_ & _ & _ & Hg) & _) _]. apply Hg. }
  cbn [Run_loop]. wp_step. apply load_abort_ok; [done|]. intros b f1 Hf1 Hc1 Hle1.
  pose proof (static_le env _ _ _ (Hle1 true)) as Hst.
  destruct b.
  { wp_step. split; [done|]. split; [done|]. rewrite Hc1. split; [lia|apply data_ok_nil]. }
  wp_step. eapply wp_mono.
  { eapply wp_weaken; [apply (iteration_ok (Z.of_nat fuel)); [by apply interpreter_Run_ok|done]|done|].
    rewrite Hc1. lia. }
  intros r f2 (Hf2 & Hle2 & Hg2 & Hr). rewrite Hst in Hle2. rewrite Hc1 in *.
  assert (evm_le (static env (evm f)) (evm f) (evm f2)) as Hle by (by eapply evm_le_trans).
  destruct r as [[ret err]|]; [by wp_step|].
  eapply wp_mono; [eapply wp_weaken; [by apply IH|done|lia]|].
  intros r f3 (Hf3 & Hle3 & Hg3 & Hd). rewrite (static_le env _ _ _ Hle) in Hle3.
  split; [done|]. split; [by eapply evm_le_trans|]. split; [lia|done].
Qed.

(** So the interpreter is one that keeps the invariants. *)
Lemma EVMInterpreter_Run_ok fuel : runs env (Z.of_nat fuel) (EVMInterpreter_Run env fuel).
Proof. apply interpreter_Run_ok, Run_loop_ok. Qed.
End loop_safety.
