(* ===== verification/CoreState.v ===== *)
(** * The state database

    Models [core/state/state_object.go], [core/state/journal.go] and the part of
    [core/state/statedb.go] that the virtual machine and the end of a
    transaction use. Tries and the code store are those of a [Database]; a
    pointer to a live object is its address. [nil] and the empty slice are both
    the empty list. *)

From S2P Require Import Prelude CommonMath Rlp StateIface.
Local Open Scope Z_scope.

(** ** database.go: the interfaces *)

(** [Account]; a [nil] balance is 0 and a [nil] code hash the empty list. *)
Record Account : Type := mkAccount {
  Nonce : Z;
  Balance : Z;
  Root : Hash;
  acc_CodeHash : bytes;
}.

(** The errors that reach [setError]; the number stands for the error value of
    the layer below. *)
Inductive dbError : Type :=
| TrieError (code : Z)
| NoStorageTrie (code : Z)
| NoCode (hash : bytes) (code : Z)
| BadEncoding (e : rlpError).

(** The operations of [Trie] and [Database] used here, and the decoder of an
    account ([rlp.DecodeBytes] at that type). The caches of a trie are not
    visible to its users, so reads are functions. *)
Class Database (T : Type) : Type := {
  TryGet : T -> bytes -> Z + bytes;
  TryUpdate : bytes -> bytes -> T -> option Z * T;
  TryDelete : bytes -> T -> option Z * T;
  Trie_Hash : T -> Hash;
  OpenStorageTrie : Hash -> Hash -> Z + T;
  ContractCode : Hash -> Hash -> bytes * option Z;
  ContractCodeSize : Hash -> Hash -> Z * option Z;
  DecodeAccount : bytes -> option Account;
}.

(** ** state_object.go: data *)

Record stateObject (T : Type) : Type := mkObject {
  address : Address;
  addrHash : Hash;
  data : Account;
  dbErr : option dbError;
  trie : option T;
  code : bytes;
  originStorage : gmap Z Hash;
  dirtyStorage : gmap Z Hash;
  dirtyCode : bool;
  suicided : bool;
  deleted : bool;
}.
Arguments mkObject {T}.
Arguments address {T}.
Arguments addrHash {T}.
Arguments data {T}.
Arguments dbErr {T}.
Arguments trie {T}.
Arguments code {T}.
Arguments originStorage {T}.
Arguments dirtyStorage {T}.
Arguments dirtyCode {T}.
Arguments suicided {T}.
Arguments deleted {T}.

Section object_fields.
Context {T : Type}.
Implicit Types o : stateObject T.

Definition o_data (x : Account) o : stateObject T :=
  mkObject (address o) (addrHash o) x (dbErr o) (trie o) (code o) (originStorage o) (dirtyStorage o)
    (dirtyCode o) (suicided o) (deleted o).
Definition o_dbErr (x : option dbError) o : stateObject T :=
  mkObject (address o) (addrHash o) (data o) x (trie o) (code o) (originStorage o) (dirtyStorage o)
    (dirtyCode o) (suicided o) (deleted o).
Definition o_trie (x : option T) o : stateObject T :=
  mkObject (address o) (addrHash o) (data o) (dbErr o) x (code o) (originStorage o) (dirtyStorage o)
    (dirtyCode o) (suicided o) (deleted o).
Definition o_code (x : bytes) o : stateObject T :=
  mkObject (address o) (addrHash o) (data o) (dbErr o) (trie o) x (originStorage o) (dirtyStorage o)
    (dirtyCode o) (suicided o) (deleted o).
Definition o_originStorage (x : gmap Z Hash) o : stateObject T :=
  mkObject (address o) (addrHash o) (data o) (dbErr o) (trie o) (code o) x (dirtyStorage o)
    (dirtyCode o) (suicided o) (deleted o).
Definition o_dirtyStorage (x : gmap Z Hash) o : stateObject T :=
  mkObject (address o) (addrHash o) (data o) (dbErr o) (trie o) (code o) (originStorage o) x
    (dirtyCode o) (suicided o) (deleted o).
Definition o_dirtyCode (x : bool) o : stateObject T :=
  mkObject (address o) (addrHash o) (data o) (dbErr o) (trie o) (code o) (originStorage o) (dirtyStorage o)
    x (suicided o) (deleted o).
Definition o_suicided (x : bool) o : stateObject T :=
  mkObject (address o) (addrHash o) (data o) (dbErr o) (trie o) (code o) (originStorage o) (dirtyStorage o)
    (dirtyCode o) x (deleted o).
Definition o_deleted (x : bool) o : stateObject T :=
  mkObject (address o) (addrHash o) (data o) (dbErr o) (trie o) (code o) (originStorage o) (dirtyStorage o)
    (dirtyCode o) (suicided o) x.

Definition set_Balance (x : Z) (a : Account) : Account := mkAccount (Nonce a) x (Root a) (acc_CodeHash a).
Definition set_Nonce (x : Z) (a : Account) : Account := mkAccount x (Balance a) (Root a) (acc_CodeHash a).
Definition set_Root (x : Hash) (a : Account) : Account := mkAccount (Nonce a) (Balance a) x (acc_CodeHash a).
Definition set_CodeHash (x : bytes) (a : Account) : Account := mkAccount (Nonce a) (Balance a) (Root a) x.

(** [setBalance], [setNonce], [setCode], [setState], [markSuicided] and
    [setError] of an object. *)
Definition setBalance (amount : Z) o : stateObject T := o_data (set_Balance amount (data o)) o.
Definition setNonce (nonce : Z) o : stateObject T := o_data (set_Nonce nonce (data o)) o.
Definition setCode (codeHash : Hash) (c : bytes) o : stateObject T :=
  o_dirtyCode true (o_data (set_CodeHash (Hash_Bytes codeHash) (data o)) (o_code c o)).
Definition setState (key value : Hash) o : stateObject T :=
  o_dirtyStorage (<[key := value]> (dirtyStorage o)) o.
Definition markSuicided o : stateObject T := o_suicided true o.
Definition object_setError (err : option dbError) o : stateObject T :=
  match dbErr o with None => o_dbErr err o | Some _ => o end.
End object_fields.

(** ** journal.go: data *)

Inductive journalEntry (T : Type) : Type :=
| createObjectChange (account : Address)
| resetObjectChange (prev : stateObject T)
| suicideChange (account : Address) (prev : bool) (prevbalance : Z)
| balanceChange (account : Address) (prev : Z)
| nonceChange (account : Address) (prev : Z)
| storageChange (account : Address) (key prevalue : Hash)
| codeChange (account : Address) (prevcode prevhash : bytes)
| refundChange (prev : Z)
| addLogChange (txhash : Hash)
| addPreimageChange (hash : Hash)
| touchChange (account : Address).
Arguments createObjectChange {T}.
Arguments resetObjectChange {T}.
Arguments suicideChange {T}.
Arguments balanceChange {T}.
Arguments nonceChange {T}.
Arguments storageChange {T}.
Arguments codeChange {T}.
Arguments refundChange {T}.
Arguments addLogChange {T}.
Arguments addPreimageChange {T}.
Arguments touchChange {T}.

Definition dirtied {T} (ch : journalEntry T) : option Address :=
  match ch with
  | createObjectChange a => Some a
  | resetObjectChange _ => None
  | suicideChange a _ _ => Some a
  | balanceChange a _ => Some a
  | nonceChange a _ => Some a
  | storageChange a _ _ => Some a
  | codeChange a _ _ => Some a
  | refundChange _ => None
  | addLogChange _ => None
  | addPreimageChange _ => None
  | touchChange a => Some a
  end.

Record journal (T : Type) : Type := mkJournal {
  entries : list (journalEntry T);
  dirties : gmap Z Z;
}.
Arguments mkJournal {T}.
Arguments entries {T}.
Arguments dirties {T}.

(** ** statedb.go: data *)

Record revision : Type := mkRevision { rev_id : Z; journalIndex : Z }.

(** [StateDB] without the database handle, which is the [Database] instance. *)
Record stateDB (T : Type) : Type := mkStateDB {
  s_trie : T;
  stateObjects : gmap Z (stateObject T);
  stateObjectsDirty : gmap Z unit;
  s_dbErr : option dbError;
  refund : Z;
  thash : Hash;
  bhash : Hash;
  txIndex : Z;
  logs : gmap Z (list Log);
  logSize : Z;
  preimages : gmap Z bytes;
  s_journal : journal T;
  validRevisions : list revision;
  nextRevisionId : Z;
}.
Arguments mkStateDB {T}.
Arguments s_trie {T}.
Arguments stateObjects {T}.
Arguments stateObjectsDirty {T}.
Arguments s_dbErr {T}.
Arguments refund {T}.
Arguments thash {T}.
Arguments bhash {T}.
Arguments txIndex {T}.
Arguments logs {T}.
Arguments logSize {T}.
Arguments preimages {T}.
Arguments s_journal {T}.
Arguments validRevisions {T}.
Arguments nextRevisionId {T}.

Section statedb_fields.
Context {T : Type}.
Implicit Types s : stateDB T.

Definition s_set_trie (x : T) s : stateDB T :=
  mkStateDB x (stateObjects s) (stateObjectsDirty s) (s_dbErr s) (refund s) (thash s) (bhash s) (txIndex s)
    (logs s) (logSize s) (preimages s) (s_journal s) (validRevisions s) (nextRevisionId s).
Definition s_set_objects (x : gmap Z (stateObject T)) s : stateDB T :=
  mkStateDB (s_trie s) x (stateObjectsDirty s) (s_dbErr s) (refund s) (thash s) (bhash s) (txIndex s)
    (logs s) (logSize s) (preimages s) (s_journal s) (validRevisions s) (nextRevisionId s).
Definition s_set_dirty (x : gmap Z unit) s : stateDB T :=
  mkStateDB (s_trie s) (stateObjects s) x (s_dbErr s) (refund s) (thash s) (bhash s) (txIndex s)
    (logs s) (logSize s) (preimages s) (s_journal s) (validRevisions s) (nextRevisionId s).
Definition s_set_dbErr (x : option dbError) s : stateDB T :=
  mkStateDB (s_trie s) (stateObjects s) (stateObjectsDirty s) x (refund s) (thash s) (bhash s) (txIndex s)
    (logs s) (logSize s) (preimages s) (s_journal s) (validRevisions s) (nextRevisionId s).
Definition s_set_refund (x : Z) s : stateDB T :=
  mkStateDB (s_trie s) (stateObjects s) (stateObjectsDirty s) (s_dbErr s) x (thash s) (bhash s) (txIndex s)
    (logs s) (logSize s) (preimages s) (s_journal s) (validRevisions s) (nextRevisionId s).
Definition s_set_tx (th bh : Hash) (ti : Z) s : stateDB T :=
  mkStateDB (s_trie s) (stateObjects s) (stateObjectsDirty s) (s_dbErr s) (refund s) th bh ti
    (logs s) (logSize s) (preimages s) (s_journal s) (validRevisions s) (nextRevisionId s).
Definition s_set_logs (x : gmap Z (list Log)) (n : Z) s : stateDB T :=
  mkStateDB (s_trie s) (stateObjects s) (stateObjectsDirty s) (s_dbErr s) (refund s) (thash s) (bhash s)
    (txIndex s) x n (preimages s) (s_journal s) (validRevisions s) (nextRevisionId s).
Definition s_set_preimages (x : gmap Z bytes) s : stateDB T :=
  mkStateDB (s_trie s) (stateObjects s) (stateObjectsDirty s) (s_dbErr s) (refund s) (thash s) (bhash s)
    (txIndex s) (logs s) (logSize s) x (s_journal s) (validRevisions s) (nextRevisionId s).
Definition s_set_journal (x : journal T) s : stateDB T :=
  mkStateDB (s_trie s) (stateObjects s) (stateObjectsDirty s) (s_dbErr s) (refund s) (thash s) (bhash s)
    (txIndex s) (logs s) (logSize s) (preimages s) x (validRevisions s) (nextRevisionId s).
Definition s_set_revisions (x : list revision) (n : Z) s : stateDB T :=
  mkStateDB (s_trie s) (stateObjects s) (stateObjectsDirty s) (s_dbErr s) (refund s) (thash s) (bhash s)
    (txIndex s) (logs s) (logSize s) (preimages s) (s_journal s) x n.
End statedb_fields.

Section statedb_ops.
Context {T : Type} `{Database T} `{Crypto}.
Abbreviation SM := (M (stateDB T)).

(** ** journal.go: operations *)

Definition newJournal : journal T := mkJournal [] ∅.

(** [m[k]++] and [m[k]--] on a map of counters, where a missing key counts as
    0. *)
Definition bump (d : Z) (k : Z) (m : gmap Z Z) : gmap Z Z := <[k := default 0 (m !! k) + d]> m.

Definition journal_append (entry : journalEntry T) : SM unit :=
  modify (fun s =>
    let j := s_journal s in
    s_set_journal (mkJournal (entries j ++ [entry])
      (match dirtied entry with Some addr => bump 1 addr (dirties j) | None => dirties j end)) s).
Definition journal_dirty (addr : Address) : SM unit :=
  modify (fun s => let j := s_journal s in
    s_set_journal (mkJournal (entries j) (bump 1 addr (dirties j))) s).
Definition journal_length (j : journal T) : Z := zlen (entries j).

(** ** Objects *)

Definition StateDB_setError (err : option dbError) : SM unit :=
  modify (fun s => match s_dbErr s with None => s_set_dbErr err s | Some _ => s end).
Definition setStateObject (object : stateObject T) : SM unit :=
  modify (fun s => s_set_objects (<[address object := object]> (stateObjects s)) s).

(** The object behind a pointer, and an update of it. *)
Definition deref (addr : Address) : SM (stateObject T) :=
  objs ← gets stateObjects; of_option NilDeref (objs !! addr).
Definition update_object (addr : Address) (f : stateObject T -> stateObject T) : SM unit :=
  o ← deref addr;
  modify (fun s => s_set_objects (<[addr := f o]> (stateObjects s)) s).

Definition newObject (addr : Address) (d : Account) : stateObject T :=
  {| address := addr; addrHash := Keccak256Hash [Address_Bytes addr];
     data := if zlen (acc_CodeHash d) =? 0 then set_CodeHash (Hash_Bytes emptyCodeHash) d else d;
     dbErr := None; trie := None; code := []; originStorage := ∅; dirtyStorage := ∅;
     dirtyCode := false; suicided := false; deleted := false |}.

Definition bytes_eqb (a b : bytes) : bool := bool_decide (a = b).
Definition empty (o : stateObject T) : bool :=
  (Nonce (data o) =? 0) && (Balance (data o) =? 0) &&
  bytes_eqb (acc_CodeHash (data o)) (Hash_Bytes emptyCodeHash).

Definition getStateObject (addr : Address) : SM (option (stateObject T)) :=
  objs ← gets stateObjects;
  match objs !! addr with
  | Some obj => mret (if deleted obj then None else Some obj)
  | None =>
      tr ← gets s_trie;
      match TryGet tr (Address_Bytes addr) with
      | inl err => StateDB_setError (Some (TrieError err));; mret None
      | inr enc =>
          if zlen enc =? 0 then mret None
          else
            match DecodeAccount enc with
            | None => mret None
            | Some d =>
                let obj := newObject addr d in
                setStateObject obj;; mret (Some obj)
            end
      end
  end.

(** Returns the object that was there before, if any. *)
Definition createObject (addr : Address) : SM (option (stateObject T)) :=
  prev ← getStateObject addr;
  let newobj := setNonce 0 (newObject addr (mkAccount 0 0 0 [])) in
  journal_append (match prev with
                  | None => createObjectChange addr
                  | Some prev => resetObjectChange prev
                  end);;
  setStateObject newobj;; mret prev.

(** Afterwards there is an object at the address, which is not deleted. *)
Definition GetOrNewStateObject (addr : Address) : SM unit :=
  so ← getStateObject addr;
  match so with
  | Some _ => mret tt
  | None => createObject addr;; mret tt
  end.

(** ** state_object.go: operations on the object at an address *)

Definition ripemd : Address := 3.
Definition stateObject_touch (addr : Address) : SM unit :=
  journal_append (touchChange addr);;
  when (addr =? ripemd) (journal_dirty addr).

Definition getTrie (addr : Address) : SM T :=
  o ← deref addr;
  match trie o with
  | Some t => mret t
  | None =>
      match OpenStorageTrie (addrHash o) (Root (data o)) with
      | inr t => update_object addr (o_trie (Some t));; mret t
      | inl err =>
          t ← of_option NilDeref
                (match OpenStorageTrie (addrHash o) 0 with inr t => Some t | inl _ => None end);
          update_object addr (fun o => object_setError (Some (NoStorageTrie err)) (o_trie (Some t) o));;
          mret t
      end
  end.

Definition stateObject_GetCommittedState (addr : Address) (key : Hash) : SM Hash :=
  o ← deref addr;
  match originStorage o !! key with
  | Some value => mret value
  | None =>
      tr ← getTrie addr;
      match TryGet tr (Hash_Bytes key) with
      | inl err => update_object addr (object_setError (Some (TrieError err)));; mret 0
      | inr enc =>
          value ←
            (if 0 <? zlen enc then
               match Split enc with
               | inl err => update_object addr (object_setError (Some (BadEncoding err)));; mret 0
               | inr (_, content, _) => mret (SetBytes HashLength 0 content)
               end
             else mret 0);
          update_object addr (fun o => o_originStorage (<[key := value]> (originStorage o)) o);;
          mret value
      end
  end.

Definition stateObject_GetState (addr : Address) (key : Hash) : SM Hash :=
  o ← deref addr;
  match dirtyStorage o !! key with
  | Some value => mret value
  | None => stateObject_GetCommittedState addr key
  end.

Definition stateObject_SetState (addr : Address) (key value : Hash) : SM unit :=
  prev ← stateObject_GetState addr key;
  when (negb (prev =? value))
    (journal_append (storageChange addr key prev);;
     update_object addr (setState key value)).

Definition stateObject_SetBalance (addr : Address) (amount : Z) : SM unit :=
  o ← deref addr;
  journal_append (balanceChange addr (Balance (data o)));;
  update_object addr (setBalance amount).
Definition stateObject_AddBalance (addr : Address) (amount : Z) : SM unit :=
  o ← deref addr;
  if amount =? 0 then when (empty o) (stateObject_touch addr)
  else stateObject_SetBalance addr (Balance (data o) + amount).
Definition stateObject_SubBalance (addr : Address) (amount : Z) : SM unit :=
  o ← deref addr;
  when (negb (amount =? 0)) (stateObject_SetBalance addr (Balance (data o) - amount)).

Definition stateObject_SetNonce (addr : Address) (nonce : Z) : SM unit :=
  o ← deref addr;
  journal_append (nonceChange addr (Nonce (data o)));;
  update_object addr (setNonce nonce).

Definition stateObject_Code (addr : Address) : SM bytes :=
  o ← deref addr;
  if negb (zlen (code o) =? 0) then mret (code o)
  else if bytes_eqb (acc_CodeHash (data o)) (Hash_Bytes emptyCodeHash) then mret []
  else
    let '(c, err) := ContractCode (addrHash o) (BytesToHash (acc_CodeHash (data o))) in
    update_object addr (fun o =>
      let o := match err with
               | Some err => object_setError (Some (NoCode (acc_CodeHash (data o)) err)) o
               | None => o
               end in
      o_code c o);;
    mret c.
Definition stateObject_SetCode (addr : Address) (codeHash : Hash) (c : bytes) : SM unit :=
  prevcode ← stateObject_Code addr;
  o ← deref addr;
  journal_append (codeChange addr prevcode (acc_CodeHash (data o)));;
  update_object addr (setCode codeHash c).

(** [updateTrie] takes the entries of a map in any order. They have different
    keys, and here they come in that of [map_to_list]. *)
Definition updateTrie_entry (kv : Hash * Hash) (st : stateObject T * T) : stateObject T * T :=
  let '(key, value) := kv in
  let '(o, tr) := st in
  let o := o_dirtyStorage (delete key (dirtyStorage o)) o in
  if value =? default 0 (originStorage o !! key) then (o, tr)
  else
    let o := o_originStorage (<[key := value]> (originStorage o)) o in
    let '(err, tr) :=
      if value =? 0 then TryDelete (Hash_Bytes key) tr
      else TryUpdate (Hash_Bytes key) (default [] (EncodeToBytes (IBytes (big_bytes value)))) tr in
    (object_setError (TrieError <$> err) o, tr).
(** The trie of the object is the one that was changed. *)
Definition updateTrie (addr : Address) : SM T :=
  tr ← getTrie addr;
  o ← deref addr;
  let '(o, tr) := fold_right updateTrie_entry (o, tr) (map_to_list (dirtyStorage o)) in
  update_object addr (fun _ => o_trie (Some tr) o);;
  mret tr.
Definition updateRoot (addr : Address) : SM unit :=
  tr ← updateTrie addr;
  update_object addr (fun o => o_data (set_Root (Trie_Hash tr) (data o)) o).

(** ** statedb.go: reads *)

Definition StateDB_Exist (addr : Address) : SM bool :=
  so ← getStateObject addr;
  mret (match so with Some _ => true | None => false end).
Definition StateDB_Empty (addr : Address) : SM bool :=
  so ← getStateObject addr;
  mret (match so with Some o => empty o | None => true end).
Definition StateDB_GetBalance (addr : Address) : SM Z :=
  so ← getStateObject addr;
  mret (match so with Some o => Balance (data o) | None => 0 end).
Definition StateDB_GetNonce (addr : Address) : SM Z :=
  so ← getStateObject addr;
  mret (match so with Some o => Nonce (data o) | None => 0 end).
Definition StateDB_GetCode (addr : Address) : SM bytes :=
  so ← getStateObject addr;
  match so with Some _ => stateObject_Code addr | None => mret [] end.
Definition StateDB_GetCodeSize (addr : Address) : SM Z :=
  so ← getStateObject addr;
  match so with
  | None => mret 0
  | Some o =>
      if negb (zlen (code o) =? 0) then mret (zlen (code o))
      else
        let '(size, err) := ContractCodeSize (addrHash o) (BytesToHash (acc_CodeHash (data o))) in
        StateDB_setError (TrieError <$> err);; mret size
  end.
Definition StateDB_GetCodeHash (addr : Address) : SM Hash :=
  so ← getStateObject addr;
  mret (match so with Some o => BytesToHash (acc_CodeHash (data o)) | None => 0 end).
Definition StateDB_GetState (addr : Address) (key : Hash) : SM Hash :=
  so ← getStateObject addr;
  match so with Some _ => stateObject_GetState addr key | None => mret 0 end.
Definition StateDB_GetCommittedState (addr : Address) (key : Hash) : SM Hash :=
  so ← getStateObject addr;
  match so with Some _ => stateObject_GetCommittedState addr key | None => mret 0 end.
Definition StateDB_HasSuicided (addr : Address) : SM bool :=
  so ← getStateObject addr;
  mret (match so with Some o => suicided o | None => false end).
Definition StateDB_GetRefund : SM Z := gets refund.
Definition StateDB_GetLogs (hash : Hash) : SM (list Log) :=
  gets (fun s => default [] (logs s !! hash)).

(** ** statedb.go: updates *)

Definition StateDB_AddBalance (addr : Address) (amount : Z) : SM unit :=
  GetOrNewStateObject addr;; stateObject_AddBalance addr amount.
Definition StateDB_SubBalance (addr : Address) (amount : Z) : SM unit :=
  GetOrNewStateObject addr;; stateObject_SubBalance addr amount.
Definition StateDB_SetBalance (addr : Address) (amount : Z) : SM unit :=
  GetOrNewStateObject addr;; stateObject_SetBalance addr amount.
Definition StateDB_SetNonce (addr : Address) (nonce : Z) : SM unit :=
  GetOrNewStateObject addr;; stateObject_SetNonce addr nonce.
Definition StateDB_SetCode (addr : Address) (c : bytes) : SM unit :=
  GetOrNewStateObject addr;; stateObject_SetCode addr (Keccak256Hash [c]) c.
Definition StateDB_SetState (addr : Address) (key value : Hash) : SM unit :=
  GetOrNewStateObject addr;; stateObject_SetState addr key value.
Definition StateDB_CreateAccount (addr : Address) : SM unit :=
  prev ← createObject addr;
  match prev with
  | Some prev => update_object addr (setBalance (Balance (data prev)))
  | None => mret tt
  end.
Definition StateDB_Suicide (addr : Address) : SM bool :=
  so ← getStateObject addr;
  match so with
  | None => mret false
  | Some o =>
      journal_append (suicideChange addr (suicided o) (Balance (data o)));;
      update_object addr (fun o => setBalance 0 (markSuicided o));;
      mret true
  end.

(** The virtual machine leaves the last four fields to the state database. *)
Definition StateDB_AddLog (log : Log) : SM unit :=
  th ← gets thash;
  journal_append (addLogChange th);;
  modify (fun s =>
    let log := {| log_Address := log_Address log; log_Topics := log_Topics log;
                  log_Data := log_Data log; log_BlockNumber := log_BlockNumber log;
                  log_TxHash := th; log_TxIndex := txIndex s; log_BlockHash := bhash s;
                  log_Index := logSize s |} in
    s_set_logs (<[th := default [] (logs s !! th) ++ [log]]> (logs s)) (logSize s + 1) s).
Definition StateDB_AddPreimage (hash : Hash) (preimage : bytes) : SM unit :=
  ps ← gets preimages;
  match ps !! hash with
  | Some _ => mret tt
  | None =>
      journal_append (addPreimageChange hash);;
      modify (fun s => s_set_preimages (<[hash := preimage]> (preimages s)) s)
  end.
Definition StateDB_AddRefund (gas : Z) : SM unit :=
  r ← gets refund;
  journal_append (refundChange r);;
  modify (s_set_refund (u64 (r + gas))).
Definition StateDB_SubRefund (gas : Z) : SM unit :=
  r ← gets refund;
  journal_append (refundChange r);;
  if r <? gas then panic (Msg "Refund counter below zero")
  else modify (s_set_refund (r - gas)).

(** ** Snapshots *)

Definition journalEntry_revert (ch : journalEntry T) : SM unit :=
  match ch with
  | createObjectChange a =>
      modify (fun s => s_set_dirty (delete a (stateObjectsDirty s))
                         (s_set_objects (delete a (stateObjects s)) s))
  | resetObjectChange prev => setStateObject prev
  | suicideChange a prev prevbalance =>
      obj ← getStateObject a;
      match obj with
      | Some _ => update_object a (fun o => setBalance prevbalance (o_suicided prev o))
      | None => mret tt
      end
  | touchChange _ => mret tt
  | balanceChange a prev =>
      obj ← getStateObject a;
      of_option NilDeref obj;; update_object a (setBalance prev)
  | nonceChange a prev =>
      obj ← getStateObject a;
      of_option NilDeref obj;; update_object a (setNonce prev)
  | codeChange a prevcode prevhash =>
      obj ← getStateObject a;
      of_option NilDeref obj;; update_object a (setCode (BytesToHash prevhash) prevcode)
  | storageChange a key prevalue =>
      obj ← getStateObject a;
      of_option NilDeref obj;; update_object a (setState key prevalue)
  | refundChange prev => modify (s_set_refund prev)
  | addLogChange txhash =>
      modify (fun s =>
        let l := default [] (logs s !! txhash) in
        s_set_logs (if zlen l =? 1 then delete txhash (logs s)
                    else <[txhash := take (length l - 1) l]> (logs s)) (logSize s - 1) s)
  | addPreimageChange hash =>
      modify (fun s => s_set_preimages (delete hash (preimages s)) s)
  end.

(** Undo of one entry with its dirty count. *)
Definition journal_undo (ch : journalEntry T) : SM unit :=
  journalEntry_revert ch;;
  match dirtied ch with
  | None => mret tt
  | Some addr =>
      modify (fun s =>
        let j := s_journal s in
        let d := bump (-1) addr (dirties j) in
        s_set_journal (mkJournal (entries j)
          (if default 0 (d !! addr) =? 0 then delete addr d else d)) s)
  end.
(** From the newest entry down to the snapshot. *)
Fixpoint journal_undo_all (newest_first : list (journalEntry T)) : SM unit :=
  match newest_first with
  | [] => mret tt
  | ch :: l => journal_undo ch;; journal_undo_all l
  end.
Definition journal_revert (snapshot : Z) : SM unit :=
  es ← gets (fun s => entries (s_journal s));
  journal_undo_all (reverse (drop (Z.to_nat snapshot) es));;
  modify (fun s => let j := s_journal s in
    s_set_journal (mkJournal (take (Z.to_nat snapshot) (entries j)) (dirties j)) s).

Definition StateDB_Snapshot : SM Z :=
  id ← gets nextRevisionId;
  modify (fun s =>
    s_set_revisions (validRevisions s ++ [mkRevision id (journal_length (s_journal s))]) (id + 1) s);;
  mret id.
End statedb_ops.

(** [sort.Search] of the standard library: binary search for the smallest index
    at which a monotone test succeeds. *)
Fixpoint sort_Search_loop (fuel : nat) (f : Z -> bool) (i j : Z) : Z :=
  match fuel with
  | O => i
  | S fuel' =>
      if i <? j then
        let h := (i + j) / 2 in
        if negb (f h) then sort_Search_loop fuel' f (h + 1) j else sort_Search_loop fuel' f i h
      else i
  end.
Definition sort_Search (n : Z) (f : Z -> bool) : Z := sort_Search_loop (Z.to_nat n) f 0 n.

Section statedb_end.
Context {T : Type} `{Database T} `{Crypto}.
Abbreviation SM := (M (stateDB T)).

Definition StateDB_RevertToSnapshot (revid : Z) : SM unit :=
  revs ← gets validRevisions;
  let idx := sort_Search (zlen revs)
    (fun i => match zindex revs i with Some r => revid <=? rev_id r | None => false end) in
  match zindex revs idx with
  | Some r =>
      if rev_id r =? revid then
        journal_revert (journalIndex r);;
        modify (fun s => s_set_revisions (take (Z.to_nat idx) (validRevisions s)) (nextRevisionId s) s)
      else panic (Msg "revision id cannot be reverted")
  | None => panic (Msg "revision id cannot be reverted")
  end.

(** ** The end of a transaction *)

Definition Prepare (th bh : Hash) (ti : Z) : SM unit := modify (s_set_tx th bh ti).

Definition clearJournalAndRefund : SM unit :=
  modify (fun s => s_set_refund 0 (s_set_revisions [] (nextRevisionId s) (s_set_journal newJournal s))).

(** The account as it is stored in the trie. *)
Definition encode_Account (a : Account) : option bytes :=
  EncodeToBytes (IList [IUint (Nonce a); IBig (Balance a); IBytes (Hash_Bytes (Root a)); IBytes (acc_CodeHash a)]).
Definition updateStateObject (addr : Address) : SM unit :=
  o ← deref addr;
  d ← of_option (Msg "can't encode object") (encode_Account (data o));
  tr ← gets s_trie;
  let '(err, tr) := TryUpdate (Address_Bytes addr) d tr in
  modify (s_set_trie tr);;
  StateDB_setError (TrieError <$> err).
Definition deleteStateObject (addr : Address) : SM unit :=
  update_object addr (o_deleted true);;
  tr ← gets s_trie;
  let '(err, tr) := TryDelete (Address_Bytes addr) tr in
  modify (s_set_trie tr);;
  StateDB_setError (TrieError <$> err).

(** The type assertion comes before the test whether there is an object. *)
Definition Finalise_account (deleteEmptyObjects : bool) (addr : Address) : SM unit :=
  objs ← gets stateObjects;
  o ← of_option TypeAssertion (objs !! addr);
  (if suicided o || (deleteEmptyObjects && empty o) then deleteStateObject addr
   else updateRoot addr;; updateStateObject addr);;
  modify (fun s => s_set_dirty (<[addr := tt]> (stateObjectsDirty s)) s).
Fixpoint Finalise_accounts (deleteEmptyObjects : bool) (addrs : list Address) : SM unit :=
  match addrs with
  | [] => mret tt
  | a :: l => Finalise_account deleteEmptyObjects a;; Finalise_accounts deleteEmptyObjects l
  end.
Definition Finalise (deleteEmptyObjects : bool) : SM unit :=
  j ← gets s_journal;
  Finalise_accounts deleteEmptyObjects (map fst (map_to_list (dirties j)));;
  clearJournalAndRefund.
Definition IntermediateRoot (deleteEmptyObjects : bool) : SM Hash :=
  Finalise deleteEmptyObjects;; gets (fun s => Trie_Hash (s_trie s)).

(** [New] on an opened trie. *)
Definition StateDB_New (tr : T) : stateDB T :=
  {| s_trie := tr; stateObjects := ∅; stateObjectsDirty := ∅; s_dbErr := None; refund := 0;
     thash := 0; bhash := 0; txIndex := 0; logs := ∅; logSize := 0; preimages := ∅;
     s_journal := newJournal; validRevisions := []; nextRevisionId := 0 |}.

(** The state database offers what the virtual machine asks for. *)
#[export] Instance stateDB_StateDB : StateDB (stateDB T) := {|
  CreateAccount := StateDB_CreateAccount;
  SubBalance := StateDB_SubBalance;
  AddBalance := StateDB_AddBalance;
  GetBalance := StateDB_GetBalance;
  GetNonce := StateDB_GetNonce;
  SetNonce := StateDB_SetNonce;
  GetCodeHash := StateDB_GetCodeHash;
  GetCode := StateDB_GetCode;
  SetCode := StateDB_SetCode;
  GetCodeSize := StateDB_GetCodeSize;
  AddRefund := StateDB_AddRefund;
  SubRefund := StateDB_SubRefund;
  GetRefund := StateDB_GetRefund;
  GetCommittedState := StateDB_GetCommittedState;
  GetState := StateDB_GetState;
  SetState := StateDB_SetState;
  Suicide := StateDB_Suicide;
  HasSuicided := StateDB_HasSuicided;
  Exist := StateDB_Exist;
  Empty := StateDB_Empty;
  RevertToSnapshot := StateDB_RevertToSnapshot;
  Snapshot := StateDB_Snapshot;
  AddLog := StateDB_AddLog;
  AddPreimage := StateDB_AddPreimage;
|}.
End statedb_end.
