(* ===== verification/CoreStateOk.v ===== *)
(** * The state database keeps the promises of its interface

    The abstract world a state database stands for, the effect of undoing a
    journal entry on it, and the refinement: every operation of the interface
    does to the world what [StateDBLaws] says, and reverting to a snapshot
    restores the world there was when it was taken. *)

From S2P Require Import Prelude CommonMath Rlp StateIface CoreState.
From Stdlib Require Import FunctionalExtensionality.
Local Open Scope Z_scope.

(** What the documentation of [trie.New] and of the code store says. *)
Class DatabaseLaws (T : Type) `{Database T} `{Crypto} : Prop := {
  OpenStorageTrie_empty h : exists t, OpenStorageTrie h 0 = inr t /\ forall k, TryGet t k = inr [];
  ContractCodeSize_spec h ch : fst (ContractCodeSize h ch) = zlen (fst (ContractCode h ch));
  ContractCode_empty h : fst (ContractCode h emptyCodeHash) = [];
}.

Section views.
Context {T : Type} `{Database T} `{Crypto}.
Implicit Types (o : stateObject T) (s : stateDB T) (tr : T).

(** ** The world of a state *)

(** The storage trie of an object, opened or not. *)
Definition storage_of o : option T :=
  match trie o with
  | Some t => Some t
  | None =>
      match OpenStorageTrie (addrHash o) (Root (data o)) with
      | inr t => Some t
      | inl _ => match OpenStorageTrie (addrHash o) 0 with inr t => Some t | inl _ => None end
      end
  end.
Definition trie_value tr (key : Hash) : Hash :=
  match TryGet tr (Hash_Bytes key) with
  | inl _ => 0
  | inr enc =>
      if 0 <? zlen enc then
        match Split enc with inl _ => 0 | inr (_, content, _) => SetBytes HashLength 0 content end
      else 0
  end.
Definition committed_of o (key : Hash) : Hash :=
  match originStorage o !! key with
  | Some v => v
  | None => match storage_of o with Some t => trie_value t key | None => 0 end
  end.
(** The code with this cached part, from this account and with this hash. *)
Definition code_from (ah : Hash) (hash cached : bytes) : bytes :=
  if negb (zlen cached =? 0) then cached
  else if bytes_eqb hash (Hash_Bytes emptyCodeHash) then []
  else fst (ContractCode ah (BytesToHash hash)).

Definition acct_of o : Acct := {|
  ac_balance := Balance (data o);
  ac_nonce := Nonce (data o);
  ac_code := code_from (addrHash o) (acc_CodeHash (data o)) (code o);
  ac_codehash := BytesToHash (acc_CodeHash (data o));
  ac_state := fun k => match dirtyStorage o !! k with Some v => v | None => committed_of o k end;
  ac_committed := committed_of o;
  ac_suicided := suicided o;
|}.

(** The account the trie has for an address. *)
Definition stored tr (a : Address) : option Acct :=
  match TryGet tr (Address_Bytes a) with
  | inl _ => None
  | inr enc =>
      if zlen enc =? 0 then None
      else match DecodeAccount enc with Some d => Some (acct_of (newObject a d)) | None => None end
  end.
Definition account_at tr (objs : gmap Z (stateObject T)) (a : Address) : option Acct :=
  match objs !! a with
  | Some o => if deleted o then None else Some (acct_of o)
  | None => stored tr a
  end.
Definition state_view s : World :=
  mkWorld (account_at (s_trie s) (stateObjects s)) (refund s) (default [] (logs s !! thash s)) (preimages s).

(** ** Undoing a journal entry, on worlds *)

Definition w_on (a : Address) (f : Acct -> Acct) (w : World) : option World :=
  match w_acct w a with Some x => Some (w_set a (Some (f x)) w) | None => None end.

(** [None] is a panic. *)
Definition w_revert tr (ch : journalEntry T) (w : World) : option World :=
  match ch with
  | createObjectChange a => Some (w_set a (stored tr a) w)
  | resetObjectChange prev => Some (w_set (address prev) (Some (acct_of prev)) w)
  | suicideChange a p b =>
      match w_acct w a with
      | Some x => Some (w_set a (Some (set_suicided p (set_balance b x))) w)
      | None => Some w
      end
  | balanceChange a p => w_on a (set_balance p) w
  | nonceChange a p => w_on a (set_nonce p) w
  | storageChange a k v => w_on a (set_state k v) w
  | codeChange a c h =>
      w_on a (set_code (BytesToHash h) (code_from (Keccak256Hash [Address_Bytes a]) h c)) w
  | refundChange p => Some (w_set_refund p w)
  | addLogChange _ => Some (w_set_logs (take (length (w_logs w) - 1) (w_logs w)) w)
  | addPreimageChange h => Some (w_set_preimages (delete h (w_preimages w)) w)
  | touchChange _ => Some w
  end.
Fixpoint w_undo tr (newest_first : list (journalEntry T)) (w : World) : option World :=
  match newest_first with
  | [] => Some w
  | ch :: l => match w_revert tr ch w with Some w' => w_undo tr l w' | None => None end
  end.

(** ** The invariant *)

Definition object_ok (a : Address) o : Prop :=
  address o = a /\ addrHash o = Keccak256Hash [Address_Bytes a] /\ hash_ok (acc_CodeHash (data o)).
Definition trie_ok tr : Prop :=
  forall a enc d, TryGet tr (Address_Bytes a) = inr enc -> DecodeAccount enc = Some d ->
    acc_CodeHash d = [] \/ hash_ok (acc_CodeHash d).

(** The live objects: an object that was deleted is no longer in the trie. *)
Definition objects_ok tr (objs : gmap Z (stateObject T)) : Prop :=
  forall a o, objs !! a = Some o -> object_ok a o /\ (deleted o = true -> stored tr a = None).

Definition jentry_ok (th : Hash) (ch : journalEntry T) : Prop :=
  match ch with
  | resetObjectChange prev => object_ok (address prev) prev /\ deleted prev = false
  | codeChange _ _ h => hash_ok h
  | addLogChange t => t = th
  | _ => True
  end.

(** The worlds that can be reverted to. *)
Definition world_of_revision s (r : revision) : Z * World :=
  (rev_id r,
   default (state_view s)
     (w_undo (s_trie s) (reverse (drop (Z.to_nat (journalIndex r)) (entries (s_journal s)))) (state_view s))).
Definition state_revs s : list (Z * World) := map (world_of_revision s) (validRevisions s).

Fixpoint revisions_ok (lo : Z) (idx : Z) (l : list revision) (hi : Z) (len : Z) : Prop :=
  match l with
  | [] => lo <= hi /\ idx <= len
  | r :: l' => lo <= rev_id r /\ idx <= journalIndex r /\ revisions_ok (rev_id r + 1) (journalIndex r) l' hi len
  end.

Record state_inv s : Prop := {
  inv_trie : trie_ok (s_trie s);
  inv_objects : objects_ok (s_trie s) (stateObjects s);
  inv_entries : Forall (jentry_ok (thash s)) (entries (s_journal s));
  inv_undo : is_Some (w_undo (s_trie s) (reverse (entries (s_journal s))) (state_view s));
  inv_revisions : exists lo, revisions_ok lo 0 (validRevisions s) (nextRevisionId s) (zlen (entries (s_journal s)));
}.
End views.

(** ** Facts about revisions, worlds and undoing *)

Lemma revisions_bound lo i l hi len : revisions_ok lo i l hi len -> i <= len /\ lo <= hi.
Proof.
  revert lo i. induction l as [|r l IH]; intros lo i; cbn; [lia|].
  intros (H1 & H2 & H3%IH). lia.
Qed.
Lemma revisions_index lo i l hi len r :
  revisions_ok lo i l hi len -> In r l -> i <= journalIndex r <= len /\ lo <= rev_id r < hi.
Proof.
  revert lo i. induction l as [|r' l IH]; intros lo i; cbn; [done|].
  intros (H1 & H2 & H3) [->|Hin]; [apply revisions_bound in H3; lia|].
  destruct (IH _ _ H3 Hin). lia.
Qed.
Lemma revisions_grow lo i l hi len hi' len' :
  revisions_ok lo i l hi len -> hi <= hi' -> len <= len' -> revisions_ok lo i l hi' len'.
Proof.
  revert lo i. induction l as [|r l IH]; intros lo i; cbn; [lia|]. intros (? & ? & ?); auto.
Qed.

Lemma w_set_set a x y (w : World) : w_set a x (w_set a y w) = w_set a x w.
Proof.
  unfold w_set. cbn. f_equal. extensionality b. by destruct (b =? a).
Qed.
Lemma w_set_id a (w : World) : w_set a (w_acct w a) w = w.
Proof.
  destruct w as [f r l p]. unfold w_set. cbn. f_equal. extensionality b.
  destruct (Z.eqb_spec b a) as [->|]; done.
Qed.
Lemma w_acct_set a x (w : World) : w_acct (w_set a x w) a = x.
Proof. cbn. by rewrite Z.eqb_refl. Qed.
Lemma w_acct_set_ne a b x (w : World) : b <> a -> w_acct (w_set a x w) b = w_acct w b.
Proof. intros Hne. cbn. by rewrite (proj2 (Z.eqb_neq b a)). Qed.

(** Undoing a change made by [w_set]. *)
Lemma w_on_set a f x y (w : World) :
  w_acct w a = Some x -> f y = x -> w_on a f (w_set a (Some y) w) = Some w.
Proof.
  intros Hx Hf. unfold w_on. rewrite w_acct_set, Hf, w_set_set, <- Hx, w_set_id. done.
Qed.

Lemma revisions_snoc lo i l hi len :
  revisions_ok lo i l hi len -> revisions_ok lo i (l ++ [mkRevision hi len]) (hi + 1) len.
Proof.
  revert lo i. induction l as [|r l IH]; intros lo i; cbn; [lia|]. intros (? & ? & ?); auto.
Qed.
(** A prefix of the revisions, up to the one reverted to. *)
Lemma revisions_prefix lo i l1 r l2 hi len :
  revisions_ok lo i (l1 ++ r :: l2) hi len -> revisions_ok lo i l1 hi (journalIndex r).
Proof.
  revert lo i. induction l1 as [|r' l1 IH]; intros lo i; cbn.
  - intros (? & ? & H%revisions_bound). lia.
  - intros (? & ? & ?). auto.
Qed.
Lemma revisions_before lo i l1 r l2 hi len r' :
  revisions_ok lo i (l1 ++ r :: l2) hi len -> In r' l1 -> rev_id r' < rev_id r.
Proof.
  revert lo i. induction l1 as [|x l1 IH]; intros lo i; cbn; [done|].
  intros (? & ? & H) [->|Hin]; [|by eapply IH].
  apply (revisions_index _ _ _ _ _ r) in H; [lia|]. apply in_or_app. right. by left.
Qed.

Lemma revisions_after lo i l1 r l2 hi len r' :
  revisions_ok lo i (l1 ++ r :: l2) hi len -> In r' l2 -> rev_id r < rev_id r'.
Proof.
  revert lo i. induction l1 as [|x l1 IH]; intros lo i; cbn; [|intros (? & ? & ?); by eapply IH].
  intros (? & ? & Hr) Hin. apply (revisions_index _ _ _ _ _ r') in Hr; [lia|done].
Qed.

(** Binary search finds the first success of a monotone test. *)
Lemma sort_Search_loop_spec n f fuel i j :
  0 <= i <= j -> j <= n -> j - i <= Z.of_nat fuel ->
  (forall k l, 0 <= k <= l -> l < n -> f k = true -> f l = true) ->
  (forall k, 0 <= k < i -> f k = false) -> (forall k, j <= k < n -> f k = true) ->
  let r := sort_Search_loop fuel f i j in
  i <= r <= j /\ (forall k, 0 <= k < r -> f k = false) /\ (forall k, r <= k < n -> f k = true).
Proof.
  revert i j. induction fuel as [|fuel IH]; intros i j Hij Hn Hf Hm Hlo Hhi; cbn.
  - split; [lia|]. split; [done|]. intros k Hk. apply Hhi. lia.
  - destruct (Z.ltb_spec i j) as [Hlt|Hge].
    2: { split; [lia|]. split; [done|]. intros k Hk. apply Hhi. lia. }
    assert (i <= (i + j) / 2 < j) as Hh by (split; [apply Z.div_le_lower_bound|apply Z.div_lt_upper_bound]; lia).
    destruct (f ((i + j) / 2)) eqn:Hfh; cbn [negb].
    + destruct (IH i ((i + j) / 2)) as (? & ? & ?); try done; try lia; [|split; [lia|done]].
      intros k Hk. apply (Hm ((i + j) / 2)); [lia|lia|done].
    + destruct (IH ((i + j) / 2 + 1) j) as (? & ? & ?); try done; try lia; [|split; [lia|done]].
      intros k Hk. destruct (f k) eqn:Hfk; [|done].
      rewrite (Hm k ((i + j) / 2)) in Hfh by (done || lia). done.
Qed.
Lemma sort_Search_spec n f i :
  0 <= i < n -> (forall k, 0 <= k < i -> f k = false) -> (forall k, i <= k < n -> f k = true) ->
  sort_Search n f = i.
Proof.
  intros Hi Hlo Hhi. unfold sort_Search.
  destruct (sort_Search_loop_spec n f (Z.to_nat n) 0 n) as (Hr & Hfalse & Htrue); try lia.
  - intros k l Hk Hl Hf. apply Hhi. split; [|lia].
    destruct (Z.lt_ge_cases k i) as [Hlt|]; [|lia]. by rewrite Hlo in Hf by lia.
  - destruct (Z.lt_trichotomy (sort_Search_loop (Z.to_nat n) f 0 n) i) as [Hlt|[Heq|Hgt]]; [|done|].
    + specialize (Htrue (sort_Search_loop (Z.to_nat n) f 0 n)). rewrite Hlo in Htrue by lia. by discriminate Htrue; lia.
    + specialize (Hfalse i). rewrite Hhi in Hfalse by lia. by discriminate Hfalse; lia.
Qed.

Section refinement.
Context {T : Type} `{Database T} `{Crypto} {CL : CryptoLaws} {DL : DatabaseLaws T}.
Implicit Types (o : stateObject T) (s : stateDB T) (tr : T).

Lemma w_undo_app tr l1 l2 w :
  w_undo tr (l1 ++ l2) w = match w_undo tr l1 w with Some w' => w_undo tr l2 w' | None => None end.
Proof.
  revert w. induction l1 as [|ch l1 IH]; intros w; cbn; [done|].
  destruct (w_revert tr ch w); [apply IH|done].
Qed.

(** The part of a state that is not the objects nor the error. *)
Definition same_rest s s' : Prop :=
  s_trie s' = s_trie s /\ refund s' = refund s /\ thash s' = thash s /\ logs s' = logs s /\
  preimages s' = preimages s /\ s_journal s' = s_journal s /\ validRevisions s' = validRevisions s /\
  nextRevisionId s' = nextRevisionId s.

(** A step that only touches caches. *)
Definition quiet s s' : Prop :=
  same_rest s s' /\ state_view s' = state_view s /\
  (objects_ok (s_trie s) (stateObjects s) -> objects_ok (s_trie s) (stateObjects s')).

Lemma quiet_refl s : quiet s s.
Proof. split; [done|]. by split. Qed.
Lemma quiet_trans s1 s2 s3 : quiet s1 s2 -> quiet s2 s3 -> quiet s1 s3.
Proof.
  intros ((?&?&?&?&?&?&?&?) & Hv & Ho) ((Ht&?&?&?&?&?&?&?) & Hv' & Ho').
  split; [|split; [congruence|]].
  - unfold same_rest. split_conj; congruence.
  - intros Hok. rewrite H1 in Ho'. auto.
Qed.

Lemma quiet_becomes s s' :
  state_inv s -> quiet s s' -> becomes state_inv state_view state_revs s (state_view s) s'.
Proof.
  intros [Ht Ho He Hu Hr] ((Htr & Hrf & Hth & Hl & Hp & Hj & Hvr & Hn) & Hv & Hok).
  split; [|split; [done|]].
  - split; rewrite ?Htr, ?Hth, ?Hj, ?Hv, ?Hvr, ?Hn; auto.
  - unfold state_revs, world_of_revision. by rewrite Hvr, Htr, Hj, Hv.
Qed.

(** A step that makes one journal entry. *)
Lemma journaled s s' ch :
  state_inv s -> s_trie s' = s_trie s -> thash s' = thash s ->
  entries (s_journal s') = entries (s_journal s) ++ [ch] ->
  validRevisions s' = validRevisions s -> nextRevisionId s' = nextRevisionId s ->
  objects_ok (s_trie s) (stateObjects s') -> jentry_ok (thash s) ch ->
  w_revert (s_trie s) ch (state_view s') = Some (state_view s) ->
  becomes state_inv state_view state_revs s (state_view s') s'.
Proof.
  intros [Ht Ho He Hu [lo Hr]] Htr Hth Hj Hvr Hn Hok Hch Hrev.
  split; [|split; [done|]].
  - split; rewrite ?Htr, ?Hth, ?Hj, ?Hvr, ?Hn; auto.
    + apply Forall_app. split; [done|]. by apply Forall_singleton.
    + rewrite reverse_snoc. cbn. by rewrite Hrev.
    + exists lo. eapply revisions_grow; [done|lia|]. rewrite zlen_app. change (zlen [ch]) with 1. lia.
  - unfold state_revs. rewrite Hvr. apply map_ext_in. intros r Hin. unfold world_of_revision.
    f_equal. rewrite Htr, Hj.
    assert ((Z.to_nat (journalIndex r) <= length (entries (s_journal s)))%nat) as Hle.
    { apply (revisions_index _ _ _ _ _ r) in Hr; [|done]. unfold zlen in Hr. lia. }
    rewrite drop_app_le by done. rewrite reverse_snoc. cbn. rewrite Hrev.
    destruct (w_undo (s_trie s) (reverse (drop (Z.to_nat (journalIndex r)) (entries (s_journal s))))
      (state_view s)) eqn:Hw; [done|]. exfalso.
    rewrite <- (take_drop (Z.to_nat (journalIndex r)) (entries (s_journal s))), reverse_app, w_undo_app, Hw in Hu.
    by destruct Hu.
Qed.

(** ** Objects *)

Lemma Keccak_hash d : is_hash (Keccak256Hash d).
Proof.
  pose proof (be_dec_bound _ (keccak_ok (concat d))) as Hb. rewrite keccak_length in Hb. exact Hb.
Qed.
Lemma hash_ok_eqb h : hash_ok h -> bytes_eqb h (Hash_Bytes emptyCodeHash) = (BytesToHash h =? emptyCodeHash).
Proof.
  intros Hh. unfold bytes_eqb. destruct (Z.eqb_spec (BytesToHash h) emptyCodeHash) as [He|He].
  - apply bool_decide_eq_true. by rewrite <- He, Bytes_BytesToHash.
  - apply bool_decide_eq_false. intros ->. apply He, BytesToHash_Bytes, Keccak_hash.
Qed.

Lemma empty_spec a o : object_ok a o -> empty o = acct_empty (acct_of o).
Proof. intros (_ & _ & Hh). unfold empty, acct_empty. cbn. by rewrite hash_ok_eqb. Qed.

Lemma newObject_ok a d :
  acc_CodeHash d = [] \/ hash_ok (acc_CodeHash d) -> object_ok (T := T) a (newObject a d).
Proof.
  intros Hd. split; [done|]. split; [done|]. cbn.
  destruct Hd as [->|Hh]; [apply hash_ok_Bytes|].
  case_match eqn:He; [apply hash_ok_Bytes|done].
Qed.

(** The object [createObject] makes. *)
Definition fresh_object (a : Address) : stateObject T := setNonce 0 (newObject a (mkAccount 0 0 0 [])).

Lemma fresh_object_ok a : object_ok a (fresh_object a).
Proof. apply (newObject_ok a (mkAccount 0 0 0 [])). by left. Qed.

Lemma committed_of_fresh a k : committed_of (fresh_object a) k = 0.
Proof.
  destruct (OpenStorageTrie_empty (Keccak256Hash [Address_Bytes a])) as (t & Ht & Hg).
  assert (storage_of (fresh_object a) = Some t) as Hs.
  { unfold storage_of. change (trie (fresh_object a)) with (@None T).
    change (addrHash (fresh_object a)) with (Keccak256Hash [Address_Bytes a]).
    change (Root (data (fresh_object a))) with 0. by rewrite Ht. }
  unfold committed_of. change (originStorage (fresh_object a)) with (∅ : gmap Z Z).
  rewrite lookup_empty, Hs. unfold trie_value. by rewrite Hg.
Qed.

Lemma acct_of_fresh a : acct_of (fresh_object a) = new_acct.
Proof.
  unfold acct_of, new_acct. f_equal.
  - unfold code_from. change (code (fresh_object a)) with (@nil Z).
    change (acc_CodeHash (data (fresh_object a))) with (Hash_Bytes emptyCodeHash).
    unfold bytes_eqb. by rewrite bool_decide_true.
  - apply BytesToHash_Bytes, Keccak_hash.
  - extensionality k. change (dirtyStorage (fresh_object a)) with (∅ : gmap Z Z).
    rewrite lookup_empty. apply committed_of_fresh.
  - extensionality k. apply committed_of_fresh.
Qed.

Lemma view_insert s a o :
  deleted o = false ->
  state_view (s_set_objects (<[a := o]> (stateObjects s)) s) = w_set a (Some (acct_of o)) (state_view s).
Proof.
  intros Hd. unfold state_view, w_set. cbn. f_equal. extensionality b. unfold account_at.
  destruct (Z.eqb_spec b a) as [->|Hne].
  - by rewrite lookup_insert_eq, Hd.
  - by rewrite lookup_insert_ne.
Qed.

Lemma objects_ok_insert tr objs a o :
  objects_ok tr objs -> object_ok a o -> deleted o = false -> objects_ok tr (<[a := o]> objs).
Proof.
  intros Hok Ho Hd b o'. rewrite lookup_insert_Some. intros [[<- <-]|[_ Hl]]; [|by apply Hok].
  split; [done|]. by rewrite Hd.
Qed.

(** Replacing an object by one that stands for the same account. *)
Lemma quiet_insert s a o o' :
  stateObjects s !! a = Some o -> deleted o = false -> acct_of o' = acct_of o -> object_ok a o' ->
  deleted o' = false -> quiet s (s_set_objects (<[a := o']> (stateObjects s)) s).
Proof.
  intros Hl Hd Ha Hok Hd'. split; [done|]. split.
  - rewrite view_insert by done. rewrite Ha.
    assert (w_acct (state_view s) a = Some (acct_of o)) as <- by (cbn; unfold account_at; by rewrite Hl, Hd).
    apply w_set_id.
  - intros Ho. by apply objects_ok_insert.
Qed.

(** ** Reads *)

Ltac step :=
  lazymatch goal with
  | |- wp _ _ (mbind _ _) _ _ => apply wp_bind
  | |- wp _ _ (mret _) _ _ => apply wp_ret
  | |- wp _ _ (gets _) _ _ => apply wp_gets
  | |- wp _ _ (modify _) _ _ => apply wp_modify
  | |- wp _ _ (StateDB_setError _) _ _ => apply wp_modify
  | |- wp _ _ (setStateObject _) _ _ => apply wp_modify
  | |- wp _ _ (journal_append _) _ _ => apply wp_modify
  | |- wp _ _ (journal_dirty _) _ _ => apply wp_modify
  | |- wp _ _ (when _ _) _ _ => apply wp_when; intros ?
  end.

(** A state with the invariants of objects. *)
Definition live_ok s : Prop := trie_ok (s_trie s) /\ objects_ok (s_trie s) (stateObjects s).

Lemma live_ok_quiet s s' : live_ok s -> quiet s s' -> live_ok s'.
Proof. intros [Ht Ho] ((Htr & _) & _ & Hq). split; rewrite Htr; auto. Qed.

(** The object at [a] in [s], if there is one, stands for the account. *)
Definition found (a : Address) (so : option (stateObject T)) s : Prop :=
  match so with
  | Some o => stateObjects s !! a = Some o /\ deleted o = false /\ object_ok a o /\
              w_acct (state_view s) a = Some (acct_of o)
  | None => w_acct (state_view s) a = None /\ stored (s_trie s) a = None
  end.

Lemma found_lookup a o s :
  live_ok s -> stateObjects s !! a = Some o -> deleted o = false -> found a (Some o) s.
Proof.
  intros [_ Ho] Hl Hd. split; [done|]. split; [done|]. split; [by apply Ho|].
  cbn. unfold account_at. by rewrite Hl, Hd.
Qed.

Lemma setError_quiet err s :
  quiet s (match s_dbErr s with None => s_set_dbErr err s | Some _ => s end).
Proof. case_match; [apply quiet_refl|]. split; [done|]. by split. Qed.

Lemma wp_getStateObject PN FU a s (Q : option (stateObject T) -> stateDB T -> Prop) :
  live_ok s -> (forall so s', quiet s s' -> live_ok s' -> found a so s' -> Q so s') ->
  wp PN FU (getStateObject a) Q s.
Proof.
  intros Hs HQ. pose proof Hs as [Ht Ho]. unfold getStateObject. do 2 step.
  destruct (stateObjects s !! a) as [o|] eqn:Hl.
  { step. apply HQ; [apply quiet_refl|done|]. destruct (Ho a o Hl) as [Hok Hdel].
    destruct (deleted o) eqn:Hd; [|by apply found_lookup].
    split; [|by apply Hdel]. cbn. unfold account_at. by rewrite Hl, Hd. }
  assert (forall x, stored (s_trie s) a = x -> w_acct (state_view s) a = x) as Hacc
    by (intros x <-; cbn; unfold account_at; by rewrite Hl).
  do 2 step. unfold stored in Hacc. destruct (TryGet _ _) as [err|enc] eqn:Hg.
  { pose proof (setError_quiet (Some (TrieError err)) s) as Hq. do 3 step. apply HQ; [done|by eapply live_ok_quiet|].
    destruct Hq as ((Htr & _) & Hv & _). split; [rewrite Hv; by apply Hacc|].
    unfold stored. by rewrite Htr, Hg. }
  destruct (zlen enc =? 0) eqn:He.
  { step. apply HQ; [apply quiet_refl|done|]. split; [by apply Hacc|]. unfold stored. by rewrite Hg, He. }
  destruct (DecodeAccount enc) as [d|] eqn:Hd.
  - do 3 step. assert (object_ok (T := T) a (newObject a d)) as Hok by (apply newObject_ok; by eapply Ht).
    assert (quiet s (s_set_objects (<[a := newObject a d]> (stateObjects s)) s)) as Hq.
    { split; [done|]. split; [|intros _; by apply objects_ok_insert].
      rewrite view_insert by done. rewrite <- (Hacc _ eq_refl). apply w_set_id. }
    apply HQ; [done|by eapply live_ok_quiet|]. apply found_lookup; [by eapply live_ok_quiet| |done].
    cbn. by rewrite lookup_insert_eq.
  - step. apply HQ; [apply quiet_refl|done|]. split; [by apply Hacc|]. unfold stored. by rewrite Hg, He, Hd.
Qed.

Lemma wp_deref PN FU a s o (Q : stateObject T -> stateDB T -> Prop) :
  stateObjects s !! a = Some o -> Q o s -> wp PN FU (deref a) Q s.
Proof. intros Hl HQ. unfold deref. do 2 step. by eapply wp_of_option. Qed.
Lemma wp_update_object PN FU a f s o (Q : unit -> stateDB T -> Prop) :
  stateObjects s !! a = Some o -> Q tt (s_set_objects (<[a := f o]> (stateObjects s)) s) ->
  wp PN FU (update_object a f) Q s.
Proof. intros Hl HQ. unfold update_object. step. eapply wp_deref; [done|]. by step. Qed.

(** Two objects that differ in caches only. *)
Definition same_object o o' : Prop :=
  address o' = address o /\ addrHash o' = addrHash o /\ data o' = data o /\ code o' = code o /\
  dirtyStorage o' = dirtyStorage o /\ suicided o' = suicided o /\ deleted o' = deleted o /\
  storage_of o' = storage_of o /\ (forall k, committed_of o' k = committed_of o k).

Lemma same_object_acct o o' : same_object o o' -> acct_of o' = acct_of o.
Proof.
  intros (Ha & Hh & Hd & Hc & Hds & Hsu & Hde & Hst & Hco). unfold acct_of. rewrite Hd, Hh, Hc, Hsu, Hds.
  f_equal; extensionality k; by rewrite Hco.
Qed.
Lemma same_object_ok a o o' : same_object o o' -> object_ok a o -> object_ok a o'.
Proof. intros (Ha & Hh & Hd & _). unfold object_ok. by rewrite Ha, Hh, Hd. Qed.
Lemma same_object_trans o1 o2 o3 : same_object o1 o2 -> same_object o2 o3 -> same_object o1 o3.
Proof.
  intros (?&?&?&?&?&?&?&?&Hk) (?&?&?&?&?&?&?&?&Hk'). unfold same_object.
  split_conj; try congruence; intros k; by rewrite Hk'.
Qed.
Lemma same_object_setError err o : same_object o (object_setError err o).
Proof. unfold object_setError. by destruct (dbErr o). Qed.

(** A step that replaces the object at [a] by one that differs in caches. *)
Definition recached (a : Address) o s s' : Prop :=
  quiet s s' /\ live_ok s' /\ exists o', stateObjects s' !! a = Some o' /\ deleted o' = false /\ same_object o o'.

Lemma recached_insert a o o' s :
  live_ok s -> stateObjects s !! a = Some o -> deleted o = false -> same_object o o' ->
  recached a o s (s_set_objects (<[a := o']> (stateObjects s)) s).
Proof.
  intros Hs Hl Hd Hso. assert (deleted o' = false) as Hd' by (by rewrite (proj1 (proj2 (proj2 (proj2 (proj2 (proj2 (proj2 Hso)))))))).
  assert (object_ok a o') as Hok by (eapply same_object_ok; [done|by apply Hs]).
  assert (quiet s (s_set_objects (<[a := o']> (stateObjects s)) s)) as Hq
    by (eapply quiet_insert; [done|done|by apply same_object_acct|done|done]).
  split; [done|]. split; [by eapply live_ok_quiet|]. exists o'. cbn. by rewrite lookup_insert_eq.
Qed.

Lemma storage_of_Some o : is_Some (storage_of o).
Proof.
  unfold storage_of. case_match; [done|]. case_match; [|done].
  destruct (OpenStorageTrie_empty (addrHash o)) as (t & -> & _). done.
Qed.

Lemma same_object_trie o t : storage_of o = Some t -> same_object o (o_trie (Some t) o).
Proof.
  intros Ht. unfold same_object. split_conj; try done. intros k. unfold committed_of. cbn. by rewrite Ht.
Qed.

Lemma wp_getTrie PN FU a s o t (Q : T -> stateDB T -> Prop) :
  live_ok s -> stateObjects s !! a = Some o -> deleted o = false -> storage_of o = Some t ->
  (forall s', recached a o s s' -> Q t s') -> wp PN FU (getTrie a) Q s.
Proof.
  intros Hs Hl Hd Ht HQ. unfold getTrie. step. eapply wp_deref; [done|].
  pose proof Ht as Ht'. unfold storage_of in Ht'. destruct (trie o) as [t'|] eqn:Hto.
  { injection Ht' as ->. step. apply HQ. split; [apply quiet_refl|]. split; [done|]. by exists o. }
  destruct (OpenStorageTrie _ (Root (data o))) as [err|t'].
  - step. destruct (OpenStorageTrie (addrHash o) 0) as [|t']; [done|]. injection Ht' as ->.
    apply wp_of_option with t; [done|]. step. eapply wp_update_object; [done|]. step.
    apply HQ, recached_insert; try done.
    eapply same_object_trans; [by apply same_object_trie|apply same_object_setError].
  - injection Ht' as ->. step. eapply wp_update_object; [done|]. step.
    apply HQ, recached_insert; try done. by apply same_object_trie.
Qed.

Lemma same_object_origin o k v :
  v = committed_of o k -> same_object o (o_originStorage (<[k := v]> (originStorage o)) o).
Proof.
  intros ->. unfold same_object. split_conj; try done. intros k'.
  destruct (decide (k = k')) as [<-|Hne]; unfold committed_of at 1; cbn.
  - by rewrite lookup_insert_eq.
  - by rewrite lookup_insert_ne.
Qed.

Lemma recached_trans a o o1 s s1 s2 :
  recached a o s s1 -> stateObjects s1 !! a = Some o1 -> recached a o1 s1 s2 -> recached a o s s2.
Proof.
  intros (Hq & _ & o' & Hl & _ & Hso) Hl1 (Hq' & Hs' & o2 & Hl2 & Hd2 & Hso2).
  rewrite Hl in Hl1. injection Hl1 as ->. split; [by eapply quiet_trans|]. split; [done|].
  exists o2. split; [done|]. split; [done|]. by eapply same_object_trans.
Qed.

Lemma wp_GetCommittedState PN FU a s o k (Q : Hash -> stateDB T -> Prop) :
  live_ok s -> stateObjects s !! a = Some o -> deleted o = false ->
  (forall s', recached a o s s' -> Q (committed_of o k) s') ->
  wp PN FU (stateObject_GetCommittedState a k) Q s.
Proof.
  intros Hs Hl Hd HQ. unfold stateObject_GetCommittedState. step. eapply wp_deref; [done|].
  destruct (originStorage o !! k) as [v|] eqn:Hk.
  { step. replace v with (committed_of o k) by (unfold committed_of; by rewrite Hk). apply HQ.
    split; [apply quiet_refl|]. split; [done|]. by exists o. }
  destruct (storage_of_Some o) as [t Ht]. step. eapply wp_getTrie; [done..|].
  intros s1 Hr1. pose proof Hr1 as (Hq1 & Hs1 & o1 & Hl1 & Hd1 & Hso1).
  assert (committed_of o k = trie_value t k) as Hv by (unfold committed_of; by rewrite Hk, Ht).
  assert (forall f : stateObject T -> stateObject T, (forall o', same_object o' (f o')) ->
    recached a o s (s_set_objects (<[a := f o1]> (stateObjects s1)) s1)) as Hupd.
  { intros f Hf. eapply recached_trans; [done|done|]. by apply recached_insert. }
  destruct (TryGet t (Hash_Bytes k)) as [err|enc] eqn:Hg.
  { step. eapply wp_update_object; [done|]. step. rewrite Hv in HQ. unfold trie_value in HQ.
    rewrite Hg in HQ. apply HQ, Hupd. intros o'. apply same_object_setError. }
  step.
  eapply wp_mono with (Q := fun v s2 => v = trie_value t k /\ recached a o s s2).
  { unfold trie_value. rewrite Hg. case_match; [|by step]. case_match; [|repeat case_match; by step].
    step. eapply wp_update_object; [done|]. step. split; [done|].
    apply Hupd. intros o'. apply same_object_setError. }
  intros v s2 [-> Hr2]. pose proof Hr2 as (Hq2 & Hs2 & o2 & Hl2 & Hd2 & Hso2).
  step. eapply wp_update_object; [done|]. step. rewrite <- Hv. apply HQ.
  eapply recached_trans; [done|done|]. apply recached_insert; try done.
  apply same_object_origin. symmetry. apply Hso2.
Qed.

Lemma wp_GetState PN FU a s o k (Q : Hash -> stateDB T -> Prop) :
  live_ok s -> stateObjects s !! a = Some o -> deleted o = false ->
  (forall s', recached a o s s' -> Q (ac_state (acct_of o) k) s') ->
  wp PN FU (stateObject_GetState a k) Q s.
Proof.
  intros Hs Hl Hd HQ. unfold stateObject_GetState. step. eapply wp_deref; [done|]. cbn in HQ.
  destruct (dirtyStorage o !! k) as [v|] eqn:Hk.
  - step. apply HQ. split; [apply quiet_refl|]. split; [done|]. by exists o.
  - by apply (wp_GetCommittedState _ _ _ _ o).
Qed.

(** Loading the code changes the cached code, not the account. *)
Lemma wp_Code PN FU a s o (Q : bytes -> stateDB T -> Prop) :
  live_ok s -> stateObjects s !! a = Some o -> deleted o = false ->
  (forall s' o', quiet s s' -> live_ok s' -> stateObjects s' !! a = Some o' -> deleted o' = false ->
     acct_of o' = acct_of o -> data o' = data o -> Q (ac_code (acct_of o)) s') ->
  wp PN FU (stateObject_Code a) Q s.
Proof.
  intros Hs Hl Hd HQ. unfold stateObject_Code. step. eapply wp_deref; [done|].
  cbn in HQ. unfold code_from in HQ.
  destruct (negb (zlen (code o) =? 0)) eqn:Hc; [step; by apply (HQ s o (quiet_refl s))|].
  destruct (bytes_eqb _ _) eqn:Hb; [step; by apply (HQ s o (quiet_refl s))|].
  destruct (ContractCode _ _) as [c err] eqn:Hcc. step. eapply wp_update_object; [done|]. step.
  set (o' := o_code c _).
  assert (address o' = address o /\ addrHash o' = addrHash o /\ data o' = data o /\ code o' = c /\
    dirtyStorage o' = dirtyStorage o /\ originStorage o' = originStorage o /\ trie o' = trie o /\
    suicided o' = suicided o /\ deleted o' = deleted o) as (Ha & Hh & Hda & Hco & Hds & Hos & Htr & Hsu & Hde).
  { subst o'. destruct err; [|done]. unfold object_setError. by destruct (dbErr o). }
  assert (acct_of o' = acct_of o) as Hacc.
  { unfold acct_of, committed_of, storage_of, code_from. rewrite Hh, Hda, Hco, Hds, Hos, Htr, Hsu, Hc, Hb, Hcc.
    cbn [fst]. f_equal. case_match; [done|]. apply negb_false_iff, Z.eqb_eq in H1.
    destruct c; [done|]. rewrite zlen_cons in H1. pose proof (zlen_nonneg c). lia. }
  assert (object_ok a o') as Hok by (unfold object_ok; rewrite Ha, Hh, Hda; by apply Hs).
  assert (quiet s (s_set_objects (<[a := o']> (stateObjects s)) s)) as Hq
    by (eapply quiet_insert; [done|done|done|done|congruence]).
  apply (HQ _ o'); [done|by eapply live_ok_quiet|cbn; by rewrite lookup_insert_eq|congruence|done|done].
Qed.

(** ** Updates *)

Abbreviation goes_to := (becomes state_inv state_view state_revs).

Lemma goes_to_trans s1 w2 s2 w3 s3 : goes_to s1 w2 s2 -> goes_to s2 w3 s3 -> goes_to s1 w3 s3.
Proof. intros (_ & _ & Hr) (Hi & Hv & Hr'). split; [done|]. split; [done|]. congruence. Qed.

Lemma inv_live s : state_inv s -> live_ok s.
Proof. intros [Ht Ho _ _ _]. by split. Qed.

Lemma wp_get PN FU a s (Q : option (stateObject T) -> stateDB T -> Prop) :
  state_inv s ->
  (forall so s', goes_to s (state_view s) s' -> found a so s' -> Q so s') ->
  wp PN FU (getStateObject a) Q s.
Proof.
  intros Hi HQ. apply wp_getStateObject; [by apply inv_live|]. intros so s' Hq _ Hf.
  apply HQ; [by apply quiet_becomes|done].
Qed.

(** A journal entry and the update it undoes. *)
Lemma wp_journal_update PN FU a ch f s o (Q : unit -> stateDB T -> Prop) :
  state_inv s -> stateObjects s !! a = Some o -> jentry_ok (thash s) ch -> object_ok a (f o) ->
  deleted (f o) = false ->
  w_revert (s_trie s) ch (w_set a (Some (acct_of (f o))) (state_view s)) = Some (state_view s) ->
  (forall s', goes_to s (w_set a (Some (acct_of (f o))) (state_view s)) s' ->
     stateObjects s' !! a = Some (f o) -> Q tt s') ->
  wp PN FU (journal_append ch;; update_object a f) Q s.
Proof.
  intros Hi Hl Hch Hok Hd Hrev HQ. do 2 step. eapply wp_update_object; [done|].
  set (s' := s_set_objects _ _).
  assert (state_view s' = w_set a (Some (acct_of (f o))) (state_view s)) as Hv by (by apply (view_insert s)).
  apply HQ; [|cbn; by rewrite lookup_insert_eq]. rewrite <- Hv in *.
  apply (journaled s s' ch); try done. apply objects_ok_insert; [apply Hi|done|done].
Qed.

(** Putting a new object at an address. *)
Definition creation (a : Address) (prev : option (stateObject T)) : journalEntry T :=
  match prev with None => createObjectChange a | Some prev => resetObjectChange prev end.

Lemma created a prev o s1 s2 :
  state_inv s1 -> found a prev s1 -> object_ok a o -> deleted o = false ->
  s2 = s_set_objects (<[a := o]> (stateObjects s1))
         (s_set_journal (mkJournal (entries (s_journal s1) ++ [creation a prev]) (dirties (s_journal s2))) s1) ->
  goes_to s1 (w_set a (Some (acct_of o)) (state_view s1)) s2.
Proof.
  intros Hi Hf Hok Hd Hs2.
  assert (state_view s2 = w_set a (Some (acct_of o)) (state_view s1)) as Hv2
    by (rewrite Hs2; by apply (view_insert s1)).
  rewrite <- Hv2. apply (journaled s1 s2 (creation a prev)); try (by rewrite Hs2); try done.
  - rewrite Hs2. apply objects_ok_insert; [apply Hi|done|done].
  - destruct prev as [o'|]; [|done]. destruct Hf as (_ & Hdo & Hoo & _). split; [|done].
    by rewrite (proj1 Hoo).
  - rewrite Hv2. destruct prev as [o'|]; cbn [w_revert creation].
    + destruct Hf as (_ & _ & (Ha & _) & Hw). by rewrite Ha, w_set_set, <- Hw, w_set_id.
    + destruct Hf as [Hw Hst]. by rewrite w_set_set, Hst, <- Hw, w_set_id.
Qed.

Lemma wp_GetOrNew PN FU a s (Q : unit -> stateDB T -> Prop) :
  state_inv s ->
  (forall o s' w, goes_to s w s' -> found a (Some o) s' -> acct_of o = w_get (state_view s) a ->
     w = w_set a (Some (w_get (state_view s) a)) (state_view s) -> Q tt s') ->
  wp PN FU (GetOrNewStateObject a) Q s.
Proof.
  intros Hi HQ. unfold GetOrNewStateObject. step. apply wp_get; [done|]. intros so s1 Hgo Hf.
  pose proof Hgo as (Hi1 & Hv1 & Hr1). destruct so as [o|].
  - pose proof Hf as (_ & _ & _ & Hw). rewrite Hv1 in Hw.
    assert (acct_of o = w_get (state_view s) a) as Hacc by (unfold w_get; by rewrite Hw).
    step. eapply HQ; [exact Hgo|done|done|]. by rewrite <- Hacc, <- Hw, w_set_id.
  - step. unfold createObject. step. apply wp_get; [done|]. intros prev s2 Hgo2 Hf2.
    pose proof Hgo2 as (Hi2 & Hv2 & Hr2).
    assert (prev = None) as ->.
    { destruct prev as [o|]; [|done]. destruct Hf2 as (_ & _ & _ & Hw). rewrite Hv2 in Hw.
      destruct Hf as [Hn _]. congruence. }
    do 6 step. destruct Hf as [Hn _]. rewrite Hv1 in Hn.
    assert (w_get (state_view s) a = new_acct) as Hg by (unfold w_get; by rewrite Hn).
    set (s3 := s_set_objects _ _).
    assert (goes_to s2 (w_set a (Some (acct_of (fresh_object a))) (state_view s2)) s3) as Hgo3
      by (apply (created a None); [done|done|apply fresh_object_ok|done|done]).
    eapply HQ.
    + eapply goes_to_trans; [exact Hgo|]. eapply goes_to_trans; [exact Hgo2|exact Hgo3].
    + apply found_lookup; [apply inv_live, Hgo3|cbn; by rewrite lookup_insert_eq|done].
    + rewrite Hg. apply acct_of_fresh.
    + by rewrite Hv2, Hv1, Hg, acct_of_fresh.
Qed.

(** An update of the account at an address, made if need be. *)
Lemma wp_on_account PN FU a (m : M (stateDB T) unit) (f : Acct -> Acct) s (Q : unit -> stateDB T -> Prop) :
  state_inv s ->
  (forall o s1, state_inv s1 -> found a (Some o) s1 ->
     wp PN FU m (fun _ => goes_to s1 (w_set a (Some (f (acct_of o))) (state_view s1))) s1) ->
  (forall s', goes_to s (w_upd a f (state_view s)) s' -> Q tt s') ->
  wp PN FU (GetOrNewStateObject a;; m) Q s.
Proof.
  intros Hi Hm HQ. step. apply wp_GetOrNew; [done|]. intros o s1 w Hgo Hf Hacc ->.
  eapply wp_mono; [apply Hm; [apply Hgo|done]|]. intros [] s2 Hgo2. apply HQ.
  unfold w_upd. rewrite <- Hacc. eapply goes_to_trans; [exact Hgo|].
  destruct Hgo as (_ & Hv & _). rewrite Hv, w_set_set in Hgo2. by rewrite Hacc in *.
Qed.

(** What the setters of an object do to its account. *)
Lemma acct_of_setBalance v o : acct_of (setBalance v o) = set_balance v (acct_of o).
Proof. done. Qed.
Lemma acct_of_setNonce v o : acct_of (setNonce v o) = set_nonce v (acct_of o).
Proof. done. Qed.
Lemma acct_of_setState k v o : acct_of (setState k v o) = set_state k v (acct_of o).
Proof.
  unfold acct_of, set_state. cbn. f_equal. extensionality k'. destruct (Z.eqb_spec k' k) as [->|Hne].
  - by rewrite lookup_insert_eq.
  - by rewrite lookup_insert_ne by congruence.
Qed.
Lemma acct_of_setCode a h c o :
  object_ok a o -> is_hash h ->
  acct_of (setCode h c o) =
  set_code h (code_from (Keccak256Hash [Address_Bytes a]) (Hash_Bytes h) c) (acct_of o).
Proof.
  intros (_ & Hah & _) Hh. unfold acct_of, set_code. cbn. f_equal; [by rewrite Hah|].
  by apply BytesToHash_Bytes.
Qed.

Lemma code_from_idem ah h c : code_from ah h (code_from ah h c) = code_from ah h c.
Proof.
  unfold code_from at 2 3. destruct (zlen c =? 0) eqn:Hc; cbn [negb].
  - destruct (bytes_eqb h (Hash_Bytes emptyCodeHash)) eqn:Hb.
    + unfold code_from. rewrite Hb. by destruct (negb _).
    + unfold code_from. rewrite Hb. by destruct (negb _).
  - unfold code_from. by rewrite Hc.
Qed.
Lemma code_from_hash ah c : code_from ah (Hash_Bytes (Keccak256Hash [c])) c = c.
Proof.
  unfold code_from. destruct c as [|x c].
  - cbn [zlen length negb Z.of_nat Z.eqb]. unfold bytes_eqb. by rewrite bool_decide_true.
  - rewrite (proj2 (Z.eqb_neq _ _)); [done|]. rewrite zlen_cons. pose proof (zlen_nonneg c). lia.
Qed.

Lemma set_balance_undo x v : set_balance (ac_balance x) (set_balance v x) = x.
Proof. by destruct x. Qed.
Lemma set_nonce_undo x v : set_nonce (ac_nonce x) (set_nonce v x) = x.
Proof. by destruct x. Qed.
Lemma set_code_undo x h c : set_code (ac_codehash x) (ac_code x) (set_code h c x) = x.
Proof. by destruct x. Qed.
Lemma set_state_undo x k v : set_state k (ac_state x k) (set_state k v x) = x.
Proof.
  destruct x. unfold set_state. cbn. f_equal. extensionality k'.
  by destruct (Z.eqb_spec k' k) as [->|].
Qed.

Section object_updates.
Context (PN : reason -> Prop) (FU : Prop) (a : Address) (s : stateDB T) (o : stateObject T).
Context (Hi : state_inv s) (Hf : found a (Some o) s).
Abbreviation becoming x := (fun _ : unit => goes_to s (w_set a (Some x) (state_view s))).

Lemma unchanged : goes_to s (w_set a (Some (acct_of o)) (state_view s)) s.
Proof.
  destruct Hf as (_ & _ & _ & <-). rewrite w_set_id. by apply quiet_becomes, quiet_refl.
Qed.

Lemma SetBalance_ok v : wp PN FU (stateObject_SetBalance a v) (becoming (set_balance v (acct_of o))) s.
Proof.
  destruct Hf as (Hl & Hd & Hok & Hw). unfold stateObject_SetBalance. step. eapply wp_deref; [done|].
  eapply wp_journal_update; [done|done|done|done|done| |by intros].
  cbn [w_revert]. rewrite acct_of_setBalance. eapply w_on_set; [done|]. apply (set_balance_undo (acct_of o)).
Qed.
Lemma SetNonce_ok v : wp PN FU (stateObject_SetNonce a v) (becoming (set_nonce v (acct_of o))) s.
Proof.
  destruct Hf as (Hl & Hd & Hok & Hw). unfold stateObject_SetNonce. step. eapply wp_deref; [done|].
  eapply wp_journal_update; [done|done|done|done|done| |by intros].
  cbn [w_revert]. rewrite acct_of_setNonce. eapply w_on_set; [done|]. apply (set_nonce_undo (acct_of o)).
Qed.
Lemma AddBalance_ok v :
  wp PN FU (stateObject_AddBalance a v) (becoming (set_balance (ac_balance (acct_of o) + v) (acct_of o))) s.
Proof.
  destruct Hf as (Hl & Hd & Hok & Hw). unfold stateObject_AddBalance. step. eapply wp_deref; [done|].
  destruct (Z.eqb_spec v 0) as [->|Hne]; [|apply SetBalance_ok].
  assert (set_balance (ac_balance (acct_of o) + 0) (acct_of o) = acct_of o) as ->
    by (rewrite Z.add_0_r; apply (set_balance_undo (acct_of o) (ac_balance (acct_of o)))).
  step; [|apply unchanged]. unfold stateObject_touch. rewrite <- Hw, w_set_id. do 2 step.
  assert (forall d, goes_to s (state_view s)
    (s_set_journal (mkJournal (entries (s_journal s) ++ [touchChange a]) d) s)) as Hgo.
  { intros d. set (s' := s_set_journal _ s). change (state_view s) with (state_view s').
    apply (journaled s s' (touchChange a)); try done. apply Hi. }
  step; [step|]; exact (Hgo _).
Qed.
Lemma SubBalance_ok v :
  wp PN FU (stateObject_SubBalance a v) (becoming (set_balance (ac_balance (acct_of o) + - v) (acct_of o))) s.
Proof.
  destruct Hf as (Hl & Hd & Hok & Hw). unfold stateObject_SubBalance. step. eapply wp_deref; [done|].
  step; [apply SetBalance_ok|]. apply negb_false_iff, Z.eqb_eq in H1 as ->.
  assert (set_balance (ac_balance (acct_of o) + -0) (acct_of o) = acct_of o) as ->
    by (rewrite Z.add_0_r; apply (set_balance_undo (acct_of o) (ac_balance (acct_of o)))).
  apply unchanged.
Qed.

Lemma SetState_ok k v :
  wp PN FU (stateObject_SetState a k v) (becoming (set_state k v (acct_of o))) s.
Proof.
  pose proof Hf as (Hl & Hd & Hok & Hw). unfold stateObject_SetState. step.
  apply (wp_GetState _ _ _ _ o); [by apply inv_live|done|done|].
  intros s1 (Hq & Hs1 & o1 & Hl1 & Hd1 & Hso).
  pose proof (quiet_becomes _ _ Hi Hq) as Hgo. pose proof Hgo as (Hi1 & Hv1 & _).
  pose proof (same_object_acct _ _ Hso) as Hacc.
  step.
  - eapply wp_journal_update; [done|done|done|exact (same_object_ok a o o1 Hso Hok)|done| |].
    + cbn [w_revert]. rewrite acct_of_setState. eapply w_on_set; [by rewrite Hv1, Hw, <- Hacc|].
      rewrite Hacc. apply set_state_undo.
    + intros s2 Hgo2 _. rewrite acct_of_setState, Hacc, Hv1 in Hgo2. by eapply goes_to_trans.
  - apply negb_false_iff, Z.eqb_eq in H1 as <-.
    assert (set_state k (ac_state (acct_of o) k) (acct_of o) = acct_of o) as ->; [|by rewrite <- Hw, w_set_id].
    rewrite <- (set_state_undo (acct_of o) k 0) at 3. unfold set_state. cbn. f_equal. extensionality k'.
    by destruct (k' =? k).
Qed.

Lemma SetCode_ok c :
  wp PN FU (stateObject_SetCode a (Keccak256Hash [c]) c)
    (becoming (set_code (Keccak256Hash [c]) c (acct_of o))) s.
Proof.
  pose proof Hf as (Hl & Hd & Hok & Hw). unfold stateObject_SetCode. step.
  eapply wp_Code; [by apply inv_live|done|done|]. intros s1 o1 Hq Hs1 Hl1 Hd1 Hacc Hda.
  pose proof (quiet_becomes _ _ Hi Hq) as Hgo. pose proof Hgo as (Hi1 & Hv1 & _).
  step. eapply wp_deref; [done|].
  assert (object_ok a o1) as Hok1 by (by apply Hs1).
  pose proof (acct_of_setCode a (Keccak256Hash [c]) c o1 Hok1 (Keccak_hash _)) as Hsc.
  rewrite code_from_hash, Hacc in Hsc.
  eapply wp_journal_update; [done|done| | |done| |].
  - rewrite Hda. apply Hok.
  - destruct Hok1 as (? & ? & _). split; [done|]. split; [done|]. apply hash_ok_Bytes.
  - cbn [w_revert]. rewrite Hsc, Hv1. eapply w_on_set; [done|]. rewrite Hda.
    rewrite <- (set_code_undo (acct_of o) (Keccak256Hash [c]) c) at 3. f_equal.
    cbn. destruct Hok as (_ & -> & _). apply code_from_idem.
  - intros s2 Hgo2 _. rewrite Hsc, Hv1 in Hgo2. by eapply goes_to_trans.
Qed.
End object_updates.

Lemma CreateAccount_ok PN FU a s :
  state_inv s ->
  wp PN FU (StateDB_CreateAccount a) (fun _ => goes_to s (w_create a (state_view s))) s.
Proof.
  intros Hi. unfold StateDB_CreateAccount, createObject. do 2 step. apply wp_get; [done|].
  intros prev s1 Hgo Hf. pose proof Hgo as (Hi1 & Hv1 & _). do 5 step. unfold w_create.
  assert (forall o s2, object_ok a o -> deleted o = false ->
    acct_of o = set_balance (w_balance (state_view s) a) new_acct ->
    s2 = s_set_objects (<[a := o]> (stateObjects s1))
           (s_set_journal (mkJournal (entries (s_journal s1) ++ [creation a prev]) (dirties (s_journal s2))) s1) ->
    goes_to s (w_set a (Some (set_balance (w_balance (state_view s) a) new_acct)) (state_view s)) s2) as Hnew.
  { intros o s2 Hok Hd Hacc Hs2. eapply goes_to_trans; [exact Hgo|]. rewrite <- Hacc, <- Hv1.
    by apply (created a prev). }
  destruct prev as [o|].
  - destruct Hf as (_ & _ & _ & Hw). rewrite Hv1 in Hw.
    eapply wp_update_object; [cbn; by rewrite lookup_insert_eq|].
    apply (Hnew (setBalance (Balance (data o)) (fresh_object a))).
    + apply (fresh_object_ok a).
    + done.
    + rewrite acct_of_setBalance, acct_of_fresh. unfold w_balance, w_get. by rewrite Hw.
    + unfold s_set_objects. cbn. by rewrite insert_insert_eq.
  - destruct Hf as [Hw _]. rewrite Hv1 in Hw. step.
    apply (Hnew (fresh_object a)); [apply fresh_object_ok|done| |done].
    rewrite acct_of_fresh. unfold w_balance, w_get. by rewrite Hw.
Qed.

Lemma wp_assoc {A B C} PN FU (m : M (stateDB T) A) (k : A -> M (stateDB T) B)
    (l : B -> M (stateDB T) C) Q s :
  wp PN FU (x ← m; k x) (fun y => wp PN FU (l y) Q) s -> wp PN FU (x ← m; y ← k x; l y) Q s.
Proof.
  unfold wp, mbind, M_bind. destruct (m s) as [[x s']| |]; [|done|done]. by destruct (k x s') as [[y s'']| |].
Qed.

Lemma Suicide_ok PN FU a s :
  state_inv s ->
  wp PN FU (StateDB_Suicide a) (fun b s' =>
    b = w_exist (state_view s) a /\ goes_to s (w_suicide a (state_view s)) s') s.
Proof.
  intros Hi. unfold StateDB_Suicide. step. apply wp_get; [done|]. intros so s1 Hgo Hf.
  pose proof Hgo as (Hi1 & Hv1 & _). unfold w_exist, w_suicide. destruct so as [o|].
  - destruct Hf as (Hl & Hd & Hok & Hw). rewrite <- Hv1, Hw.
    apply wp_assoc.
    apply (wp_journal_update _ _ a _ (fun o => setBalance 0 (markSuicided o)) _ o); try done.
    + cbn [w_revert]. rewrite w_acct_set. f_equal. rewrite w_set_set.
      replace (set_suicided _ _) with (acct_of o); [by rewrite <- Hw, w_set_id|done].
    + intros s2 Hgo2 _. step. split; [done|]. by eapply goes_to_trans.
  - destruct Hf as [Hw _]. rewrite <- Hv1, Hw. step. split; [done|]. by rewrite <- Hv1 in Hgo.
Qed.

(** Updates outside the accounts. *)
Lemma journaled_rest s s' ch :
  state_inv s -> s_trie s' = s_trie s -> thash s' = thash s -> stateObjects s' = stateObjects s ->
  entries (s_journal s') = entries (s_journal s) ++ [ch] ->
  validRevisions s' = validRevisions s -> nextRevisionId s' = nextRevisionId s ->
  jentry_ok (thash s) ch ->
  w_revert (s_trie s) ch (state_view s') = Some (state_view s) -> goes_to s (state_view s') s'.
Proof.
  intros Hi Ht Hth Ho. intros. apply (journaled s s' ch); try done. rewrite Ho. apply Hi.
Qed.

Lemma AddRefund_ok PN FU g s :
  state_inv s ->
  wp PN FU (StateDB_AddRefund g)
    (fun _ => goes_to s (w_set_refund (u64 (w_refund (state_view s) + g)) (state_view s))) s.
Proof.
  intros Hi. unfold StateDB_AddRefund. do 5 step. set (s' := s_set_refund _ _).
  apply (journaled_rest s s' (refundChange (refund s))); done.
Qed.
Lemma SubRefund_ok g s :
  state_inv s ->
  wp (fun r => refund_panic r /\ w_refund (state_view s) < g) False (StateDB_SubRefund g) (fun _ s' =>
    g <= w_refund (state_view s) /\
    goes_to s (w_set_refund (w_refund (state_view s) - g) (state_view s)) s') s.
Proof.
  intros Hi. unfold StateDB_SubRefund. do 4 step. destruct (Z.ltb_spec (refund s) g).
  - by apply wp_panic.
  - step. split; [done|]. set (s' := s_set_refund _ _).
    apply (journaled_rest s s' (refundChange (refund s))); done.
Qed.
Lemma AddPreimage_ok PN FU h d s :
  state_inv s ->
  wp PN FU (StateDB_AddPreimage h d) (fun _ => goes_to s (w_add_preimage h d (state_view s))) s.
Proof.
  intros Hi. unfold StateDB_AddPreimage, w_add_preimage. do 2 step. cbn [w_preimages state_view].
  destruct (preimages s !! h) as [p|] eqn:Hp; [step; by apply quiet_becomes, quiet_refl|].
  do 3 step. set (s' := s_set_preimages _ _).
  apply (journaled_rest s s' (addPreimageChange h)); try done. cbn. unfold w_set_preimages. cbn.
  by rewrite delete_insert_id.
Qed.
Lemma AddLog_ok PN FU l s :
  state_inv s ->
  wp PN FU (StateDB_AddLog l) (fun _ s' => exists l',
    log_Address l' = log_Address l /\ log_Topics l' = log_Topics l /\
    log_Data l' = log_Data l /\ log_BlockNumber l' = log_BlockNumber l /\
    goes_to s (w_set_logs (w_logs (state_view s) ++ [l']) (state_view s)) s') s.
Proof.
  intros Hi. unfold StateDB_AddLog. do 5 step. set (l' := mkLog _ _ _ _ _ _ _ _).
  exists l'. split_conj; try done. set (s' := s_set_logs _ _ _).
  assert (default [] (logs s' !! thash s') = default [] (logs s !! thash s) ++ [l']) as Hl
    by (cbn; by rewrite lookup_insert_eq).
  assert (state_view s' = w_set_logs (w_logs (state_view s) ++ [l']) (state_view s)) as Hv.
  { unfold state_view at 1. by rewrite Hl. }
  rewrite <- Hv. apply (journaled_rest s s' (addLogChange (thash s))); try done.
  rewrite Hv. cbn [w_revert w_logs w_set_logs state_view]. unfold w_set_logs. cbn.
  rewrite length_app. cbn. rewrite Nat.add_sub. by rewrite take_app_length.
Qed.

(** ** Undoing *)

(** What undoing an entry leaves alone. *)
Definition same_history s s' : Prop :=
  s_trie s' = s_trie s /\ thash s' = thash s /\ entries (s_journal s') = entries (s_journal s) /\
  validRevisions s' = validRevisions s /\ nextRevisionId s' = nextRevisionId s.

Lemma same_history_trans s1 s2 s3 : same_history s1 s2 -> same_history s2 s3 -> same_history s1 s3.
Proof. intros (?&?&?&?&?) (?&?&?&?&?). unfold same_history. split_conj; congruence. Qed.
Lemma quiet_history s s' : quiet s s' -> same_history s s'.
Proof. intros ((?&?&?&?&?&Hj&?&?) & _). unfold same_history. rewrite Hj. by split_conj. Qed.

Definition undone (w : World) s s' : Prop := live_ok s' /\ state_view s' = w /\ same_history s s'.

Lemma undo_on_account PN FU a f (g : Acct -> Acct) w s :
  live_ok s -> w_on a g (state_view s) = Some w ->
  (forall o, object_ok a o -> object_ok a (f o) /\ deleted (f o) = deleted o /\ acct_of (f o) = g (acct_of o)) ->
  wp PN FU (obj ← getStateObject a; of_option NilDeref obj;; update_object a f) (fun _ => undone w s) s.
Proof.
  intros Hs Hw Hf. step. apply wp_getStateObject; [done|]. intros so s1 Hq Hs1 Hfound.
  pose proof (quiet_history _ _ Hq) as Hh. destruct Hq as (_ & Hv & _).
  unfold w_on in Hw. rewrite <- Hv in Hw. destruct so as [o|].
  - destruct Hfound as (Hl & Hd & Hok & Ha). rewrite Ha in Hw. injection Hw as <-.
    destruct (Hf o Hok) as (Hok' & Hd' & Hacc). rewrite Hd in Hd'.
    step. eapply wp_of_option; [done|]. eapply wp_update_object; [done|].
    split; [split; [apply Hs1|]; by apply objects_ok_insert; [apply Hs1|..]|].
    split; [by rewrite view_insert, Hacc|done].
  - destruct Hfound as [Hn _]. by rewrite Hn in Hw.
Qed.

Lemma view_delete s a :
  state_view (s_set_objects (delete a (stateObjects s)) s) = w_set a (stored (s_trie s) a) (state_view s).
Proof.
  unfold state_view, w_set. cbn. f_equal. extensionality b. unfold account_at.
  destruct (Z.eqb_spec b a) as [->|Hne].
  - by rewrite lookup_delete_eq.
  - by rewrite lookup_delete_ne.
Qed.

Lemma setCode_undo a h c o :
  object_ok a o -> hash_ok h ->
  object_ok a (setCode (BytesToHash h) c o) /\ deleted (setCode (BytesToHash h) c o) = deleted o /\
  acct_of (setCode (BytesToHash h) c o) =
    set_code (BytesToHash h) (code_from (Keccak256Hash [Address_Bytes a]) h c) (acct_of o).
Proof.
  intros Hok Hh. split; [destruct Hok as (? & ? & _); split; [done|]; split; [done|apply hash_ok_Bytes]|].
  split; [done|].
  rewrite (acct_of_setCode a) by (exact Hok || by apply is_hash_BytesToHash).
  rewrite Bytes_BytesToHash by exact Hh. reflexivity.
Qed.

Lemma take_pred_snoc {A} (l : list A) : zlen l = 1 -> take (length l - 1) l = [].
Proof. unfold zlen. intros Hl. replace (length l) with 1%nat by lia. done. Qed.

Lemma journalEntry_revert_ok PN FU ch w s :
  live_ok s -> jentry_ok (thash s) ch -> w_revert (s_trie s) ch (state_view s) = Some w ->
  wp PN FU (journalEntry_revert ch) (fun _ => undone w s) s.
Proof.
  intros Hs Hch Hw. pose proof Hs as [Ht Ho].
  destruct ch as [a|prev|a p b|a p|a p|a k v|a c h|p|t|h|a]; cbn [journalEntry_revert w_revert] in *.
  - injection Hw as <-. step. split; [split; [done|]|split; [apply (view_delete s a)|done]].
    intros b o. cbn. rewrite lookup_delete_Some. intros [_ Hl]. by apply Ho.
  - injection Hw as <-. step. destruct Hch as [Hok Hd].
    split; [split; [done|by apply objects_ok_insert]|]. split; [by apply view_insert|done].
  - step. apply wp_getStateObject; [done|]. intros so s1 Hq Hs1 Hfound.
    pose proof (quiet_history _ _ Hq) as Hh. destruct Hq as (_ & Hv & _). rewrite <- Hv in Hw.
    destruct so as [o|].
    + destruct Hfound as (Hl & Hd & Hok & Ha). rewrite Ha in Hw. injection Hw as <-.
      eapply wp_update_object; [done|].
      split; [split; [apply Hs1|]; by apply objects_ok_insert; [apply Hs1|..]|].
      split; [by rewrite view_insert|done].
    + destruct Hfound as [Hn _]. rewrite Hn in Hw. injection Hw as <-. step. by split.
  - by eapply undo_on_account.
  - by eapply undo_on_account.
  - eapply undo_on_account; [done|done|]. intros o Hok. split; [done|]. split; [done|apply acct_of_setState].
  - eapply undo_on_account; [done|exact Hw|]. intros o Hok. by apply setCode_undo.
  - injection Hw as <-. by step.
  - injection Hw as <-. step. cbn in Hch. subst t. split; [done|]. split; [|done].
    unfold state_view, w_set_logs. cbn. f_equal.
    destruct (Z.eqb_spec (zlen (default [] (logs s !! thash s))) 1) as [He|He].
    + rewrite lookup_delete_eq. cbn. by rewrite take_pred_snoc.
    + by rewrite lookup_insert_eq.
  - injection Hw as <-. by step.
  - injection Hw as <-. by step.
Qed.

Lemma journal_undo_all_ok PN FU l w s :
  live_ok s -> Forall (jentry_ok (thash s)) l -> w_undo (s_trie s) l (state_view s) = Some w ->
  wp PN FU (journal_undo_all l) (fun _ => undone w s) s.
Proof.
  revert s. induction l as [|ch l IH]; intros s Hs Hl Hw; cbn [journal_undo_all w_undo] in *.
  - injection Hw as <-. step. by split.
  - apply Forall_cons in Hl as [Hch Hl]. destruct (w_revert (s_trie s) ch (state_view s)) as [w1|] eqn:Hr; [|done].
    unfold journal_undo. step. step. eapply wp_mono; [by eapply journalEntry_revert_ok|].
    intros [] s1 (Hs1 & Hv1 & Hh1).
    assert (forall s2, live_ok s2 -> state_view s2 = w1 -> same_history s s2 ->
      wp PN FU (journal_undo_all l) (fun _ => undone w s) s2) as Hrest.
    { intros s2 Hs2 Hv2 Hh2. pose proof Hh2 as (Ht & Hth & _).
      eapply wp_mono; [apply IH; [done|by rewrite Hth|by rewrite Ht, Hv2]|].
      intros [] s3 (? & ? & ?). split; [done|]. split; [done|]. by eapply same_history_trans. }
    destruct (dirtied ch); step; by apply Hrest.
Qed.

Lemma Snapshot_ok s : state_inv s ->
  wp never False StateDB_Snapshot (fun id s' =>
    state_inv s' /\ state_view s' = state_view s /\ state_revs s' = state_revs s ++ [(id, state_view s)]) s.
Proof.
  intros [Ht Ho He Hu [lo Hr]]. unfold StateDB_Snapshot. step. step. step. step.
  split; [split; try done|].
  - exists lo. cbn. by apply revisions_snoc.
  - split; [done|]. unfold state_revs. cbn. rewrite map_app. f_equal.
    unfold world_of_revision, journal_length, zlen. cbn. rewrite Nat2Z.id, drop_all. done.
Qed.

(** The search of [RevertToSnapshot] finds the revision. *)
Lemma search_revision lo i l1 r l2 hi len :
  revisions_ok lo i (l1 ++ r :: l2) hi len ->
  sort_Search (zlen (l1 ++ r :: l2))
    (fun k => match zindex (l1 ++ r :: l2) k with Some r' => rev_id r <=? rev_id r' | None => false end)
  = zlen l1.
Proof.
  intros Hr. pose proof (zlen_nonneg l1) as Hl1. pose proof (zlen_nonneg l2) as Hl2.
  assert (forall k, 0 <= k -> zindex (l1 ++ r :: l2) k = (l1 ++ r :: l2) !! Z.to_nat k) as Hz.
  { intros k Hk. unfold zindex. by destruct (Z.leb_spec 0 k); [|lia]. }
  apply sort_Search_spec.
  - rewrite zlen_app, zlen_cons. lia.
  - intros k Hk. rewrite Hz by lia. unfold zlen in *. rewrite lookup_app_l by lia.
    destruct (l1 !! Z.to_nat k) as [r'|] eqn:Hl; [|done].
    apply Z.leb_gt. eapply revisions_before; [done|]. by apply list_elem_of_In, (list_elem_of_lookup_2 _ (Z.to_nat k)).
  - intros k Hk. rewrite Hz by lia. rewrite zlen_app, zlen_cons in Hk. unfold zlen in *.
    destruct (lookup_lt_is_Some_2 (l1 ++ r :: l2) (Z.to_nat k)) as [r' Hr'].
    { rewrite length_app. cbn. lia. }
    rewrite Hr'. apply Z.leb_le. rewrite lookup_app_r in Hr' by lia.
    apply list_elem_of_lookup_2, list_elem_of_In in Hr' as [->|Hin]; [lia|].
    by apply Z.lt_le_incl, (revisions_after _ _ _ _ _ _ _ _ Hr).
Qed.

Lemma drop_split {A} (l : list A) i n : (i <= n <= length l)%nat -> drop i l = drop i (take n l) ++ drop n l.
Proof.
  intros Hi. rewrite <- (take_drop n l) at 1. rewrite drop_app_le by (rewrite length_take; lia). done.
Qed.

(** Reverting to a revision: what is left of the journal, and the worlds of the
    older revisions. *)
Lemma reverted_inv lo l1 r l2 w s s' :
  live_ok s' -> Forall (jentry_ok (thash s)) (entries (s_journal s)) ->
  is_Some (w_undo (s_trie s) (reverse (entries (s_journal s))) (state_view s)) ->
  revisions_ok lo 0 (l1 ++ r :: l2) (nextRevisionId s) (zlen (entries (s_journal s))) ->
  world_of_revision s r = (rev_id r, w) ->
  s_trie s' = s_trie s -> thash s' = thash s -> state_view s' = w ->
  entries (s_journal s') = take (Z.to_nat (journalIndex r)) (entries (s_journal s)) ->
  validRevisions s' = l1 -> nextRevisionId s' = nextRevisionId s ->
  state_inv s' /\ state_revs s' = map (world_of_revision s) l1.
Proof.
  intros [Ht Ho] He Hu Hr Hw Htr Hth Hv Hes Hrs Hn.
  assert (0 <= journalIndex r <= zlen (entries (s_journal s))) as Hj.
  { apply (revisions_index _ _ _ _ _ r) in Hr; [lia|]. apply in_or_app. right. by left. }
  unfold world_of_revision in Hw. unfold zlen in Hj.
  set (n := Z.to_nat (journalIndex r)) in *. set (es := entries (s_journal s)) in *.
  assert (w_undo (s_trie s) (reverse (drop n es)) (state_view s) = Some w) as Hund.
  { rewrite <- (take_drop n es), reverse_app, w_undo_app in Hu.
    destruct (w_undo (s_trie s) (reverse (drop n es)) (state_view s)); cbn in Hw; [congruence|by destruct Hu]. }
  split; [split; try done|].
  - rewrite Hes, Hth. by apply Forall_take.
  - rewrite Hes, Htr, Hv. rewrite <- (take_drop n es), reverse_app, w_undo_app, Hund in Hu. done.
  - exists lo. rewrite Hes, Hrs, Hn. unfold zlen. rewrite length_take.
    replace (Z.of_nat (n `min` length es)) with (journalIndex r) by lia. by eapply revisions_prefix.
  - unfold state_revs. rewrite Hrs. apply map_ext_in. intros r' Hin.
    apply revisions_prefix in Hr. apply (revisions_index _ _ _ _ _ r') in Hr as [Hr' _]; [|done].
    unfold world_of_revision. rewrite Hes, Htr, Hv. f_equal. fold es.
    assert (is_Some (w_undo (s_trie s) (reverse (drop (Z.to_nat (journalIndex r')) es)) (state_view s))) as [w' Hw'].
    { rewrite <- (take_drop (Z.to_nat (journalIndex r')) es), reverse_app, w_undo_app in Hu.
      destruct (w_undo _ (reverse (drop _ _)) _); [done|by destruct Hu]. }
    rewrite Hw'. rewrite (drop_split es _ n), reverse_app, w_undo_app, Hund in Hw' by (unfold n; lia).
    by rewrite Hw'.
Qed.

Lemma RevertToSnapshot_ok s id w l1 l2 : state_inv s -> state_revs s = l1 ++ (id, w) :: l2 ->
  wp never False (StateDB_RevertToSnapshot id) (fun _ s' =>
    state_inv s' /\ state_view s' = w /\ state_revs s' = l1) s.
Proof.
  intros Hi Hrevs. pose proof Hi as [Ht Ho He Hu [lo Hr]].
  unfold state_revs in Hrevs. apply map_eq_app in Hrevs as (r1 & r2' & Hvr & <- & Hm2).
  destruct r2' as [|r r2]; [done|]. injection Hm2 as Hid Hw <-. subst id. rewrite Hvr in Hr.
  unfold StateDB_RevertToSnapshot. step. step. rewrite Hvr, (search_revision lo 0 _ _ _ _ _ Hr).
  unfold zindex. destruct (Z.leb_spec 0 (zlen r1)); [|by pose proof (zlen_nonneg r1); lia].
  unfold zlen at 1. rewrite Nat2Z.id, list_lookup_middle, Z.eqb_refl by done.
  assert (world_of_revision s r = (rev_id r, w)) as Hwr by (unfold world_of_revision; by rewrite Hw).
  unfold journal_revert. do 4 step.
  assert (w_undo (s_trie s) (reverse (drop (Z.to_nat (journalIndex r)) (entries (s_journal s)))) (state_view s) = Some w)
    as Hund.
  { rewrite <- (take_drop (Z.to_nat (journalIndex r)) (entries (s_journal s))), reverse_app, w_undo_app in Hu.
    destruct (w_undo _ (reverse (drop _ _)) _); cbn in Hw; [congruence|by destruct Hu]. }
  eapply wp_mono; [apply journal_undo_all_ok; [by apply inv_live|by apply Forall_reverse, Forall_drop|exact Hund]|].
  intros [] s1 (Hs1 & Hv1 & Htr & Hth & Hen & Hvr1 & Hn). step. step.
  set (s2 := s_set_revisions _ _ _).
  assert (state_inv s2 /\ state_revs s2 = map (world_of_revision s) r1) as [? ?].
  { eapply (reverted_inv lo r1 r r2 w s s2); try done; cbn.
    - by rewrite Hen.
    - rewrite Hvr1, Hvr. unfold zlen. by rewrite Nat2Z.id, take_app_length. }
  done.
Qed.

(** ** Reads *)

(** A read of a field of the object. *)
Lemma read_ok {A} a (f : stateObject T -> A) (d : A) (g : Acct -> A) s :
  state_inv s -> (forall o, object_ok a o -> f o = g (acct_of o)) -> d = g new_acct ->
  wp never False (so ← getStateObject a; mret (match so with Some o => f o | None => d end))
    (fun v s' => v = g (w_get (state_view s) a) /\ goes_to s (state_view s) s') s.
Proof.
  intros Hi Hf ->. step. apply wp_get; [done|]. intros so s' Hg Hfound. step. split; [|done].
  destruct Hg as (_ & Hv & _). unfold w_get. rewrite <- Hv. destruct so as [o|].
  - destruct Hfound as (_ & _ & Hok & ->). by apply Hf.
  - by destruct Hfound as [-> _].
Qed.
(** A read through an operation of the object. *)
Lemma read_via {A} a (m : M (stateDB T) A) (d : A) (g : Acct -> A) s :
  state_inv s -> d = g new_acct ->
  (forall s1 o, state_inv s1 -> stateObjects s1 !! a = Some o -> deleted o = false -> object_ok a o ->
     wp never False m (fun v s' => v = g (acct_of o) /\ quiet s1 s') s1) ->
  wp never False (so ← getStateObject a; match so with Some _ => m | None => mret d end)
    (fun v s' => v = g (w_get (state_view s) a) /\ goes_to s (state_view s) s') s.
Proof.
  intros Hi -> Hm. step. apply wp_get; [done|]. intros so s1 Hg Hfound. pose proof Hg as (Hi1 & Hv1 & Hr1).
  unfold w_get. rewrite <- Hv1. destruct so as [o|].
  - destruct Hfound as (Hl & Hd & Hok & ->). eapply wp_mono; [by apply (Hm s1 o)|].
    intros v s2 [-> Hq]. split; [done|]. destruct (quiet_becomes s1 s2 Hi1 Hq) as (? & ? & ?).
    split; [done|]. split; congruence.
  - destruct Hfound as [-> _]. step. rewrite Hv1. by split.
Qed.

Lemma acct_empty_new : acct_empty new_acct = true.
Proof. unfold acct_empty, new_acct. cbn [ac_nonce ac_balance ac_codehash]. by rewrite !Z.eqb_refl. Qed.

Lemma GetCodeHash_ok s a : state_inv s ->
  wp never False (StateDB_GetCodeHash a) (fun v s' =>
    v = (if w_exist (state_view s) a then ac_codehash (w_get (state_view s) a) else 0) /\
    goes_to s (state_view s) s') s.
Proof.
  intros Hi. unfold StateDB_GetCodeHash. step. apply wp_get; [done|]. intros so s' Hg Hfound. step.
  split; [|done]. destruct Hg as (_ & Hv & _). unfold w_get, w_exist. rewrite <- Hv. destruct so as [o|].
  - by destruct Hfound as (_ & _ & _ & ->).
  - by destruct Hfound as [-> _].
Qed.

Lemma code_size o :
  hash_ok (acc_CodeHash (data o)) -> zlen (code o) = 0 ->
  fst (ContractCodeSize (addrHash o) (BytesToHash (acc_CodeHash (data o)))) = zlen (ac_code (acct_of o)).
Proof.
  intros Hh Hc. rewrite ContractCodeSize_spec. cbn [acct_of ac_code]. unfold code_from. rewrite Hc.
  cbn [Z.eqb negb]. rewrite hash_ok_eqb by done. destruct (Z.eqb_spec (BytesToHash (acc_CodeHash (data o))) emptyCodeHash) as [->|]; [|done].
  by rewrite ContractCode_empty.
Qed.

Lemma GetCodeSize_ok s a : state_inv s ->
  wp never False (StateDB_GetCodeSize a) (fun v s' =>
    v = zlen (ac_code (w_get (state_view s) a)) /\ goes_to s (state_view s) s') s.
Proof.
  intros Hi. unfold StateDB_GetCodeSize. step. apply wp_get; [done|]. intros so s' Hg Hfound.
  pose proof Hg as (Hi' & Hv & Hr). unfold w_get. rewrite <- Hv. destruct so as [o|].
  2: { destruct Hfound as [-> _]. step. rewrite Hv. by split. }
  destruct Hfound as (_ & _ & (_ & _ & Hh) & ->).
  destruct (Z.eqb_spec (zlen (code o)) 0) as [Hc|Hc]; cbn [negb].
  - pose proof (code_size o Hh Hc) as Hsz.
    destruct (ContractCodeSize _ _) as [size err]. cbn in Hsz. subst size.
    do 3 step. split; [done|].
    destruct (quiet_becomes s' _ Hi' (setError_quiet (TrieError <$> err) s')) as (? & ? & ?).
    split; [done|]. split; congruence.
  - step. rewrite Hv. split; [|done].
    change (zlen (code o) = zlen (code_from (addrHash o) (acc_CodeHash (data o)) (code o))).
    unfold code_from. by rewrite (proj2 (Z.eqb_neq _ _) Hc).
Qed.

(** The state database keeps the promises the virtual machine relies on. *)
#[export] Instance stateDB_Laws : StateDBLaws (stateDB T).
Proof.
  refine {| inv := state_inv; view := state_view; revs := state_revs |}.
  - intros s a. apply CreateAccount_ok.
  - intros s a v Hi. apply (wp_on_account _ _ _ _ (fun x => set_balance (ac_balance x + - v) x)); [done| |by intros].
    intros o s1 Hi1 Hf1. by apply SubBalance_ok.
  - intros s a v Hi. apply (wp_on_account _ _ _ _ (fun x => set_balance (ac_balance x + v) x)); [done| |by intros].
    intros o s1 Hi1 Hf1. by apply AddBalance_ok.
  - intros s a Hi. by apply (read_ok a (fun o => Balance (data o)) 0 ac_balance).
  - intros s a Hi. by apply (read_ok a (fun o => Nonce (data o)) 0 ac_nonce).
  - intros s a v Hi. apply (wp_on_account _ _ _ _ (set_nonce v)); [done| |by intros].
    intros o s1 Hi1 Hf1. by apply SetNonce_ok.
  - apply GetCodeHash_ok.
  - intros s a Hi. apply (read_via a _ [] ac_code); [done..|]. intros s1 o Hi1 Hl Hd Hok.
    apply (wp_Code _ _ _ _ o); [by apply inv_live|done|done|]. intros s' o' Hq _ _ _ _ _. by split.
  - intros s a c Hi. apply (wp_on_account _ _ _ _ (set_code (Keccak256Hash [c]) c)); [done| |by intros].
    intros o s1 Hi1 Hf1. by apply SetCode_ok.
  - apply GetCodeSize_ok.
  - intros s g. apply AddRefund_ok.
  - intros s g. apply SubRefund_ok.
  - intros s Hi. split; [done|]. apply quiet_becomes; [done|apply quiet_refl].
  - intros s a k Hi. apply (read_via a _ 0 (fun x => ac_committed x k)); [done..|]. intros s1 o Hi1 Hl Hd Hok.
    apply (wp_GetCommittedState _ _ _ _ o); [by apply inv_live|done|done|]. intros s' [Hq _]. by split.
  - intros s a k Hi. apply (read_via a _ 0 (fun x => ac_state x k)); [done..|]. intros s1 o Hi1 Hl Hd Hok.
    apply (wp_GetState _ _ _ _ o); [by apply inv_live|done|done|]. intros s' [Hq _]. by split.
  - intros s a k v Hi. apply (wp_on_account _ _ _ _ (set_state k v)); [done| |by intros].
    intros o s1 Hi1 Hf1. by apply SetState_ok.
  - intros s a. apply Suicide_ok.
  - intros s a Hi. by apply (read_ok a suicided false ac_suicided).
  - intros s a Hi. cbn [Exist stateDB_StateDB]. unfold StateDB_Exist. step. apply wp_get; [done|].
    intros so s' Hg Hfound. step. split; [|done]. destruct Hg as (_ & Hv & _). unfold w_exist. rewrite <- Hv.
    destruct so as [o|]; [by destruct Hfound as (_ & _ & _ & ->)|by destruct Hfound as [-> _]].
  - intros s a Hi. apply (read_ok a empty true acct_empty); [done|apply empty_spec|].
    symmetry. apply acct_empty_new.
  - apply RevertToSnapshot_ok.
  - apply Snapshot_ok.
  - intros s l. apply AddLog_ok.
  - intros s h d. apply AddPreimage_ok.
Defined.
End refinement.
