(* ===== verification/TransferLock.v ===== *)
(** * Concurrent transfers

    Models [Transfer] of [core/evm.go] as several threads run it on one state
    database. (The threads of the miner share [InUseAccounts] and the trie, and
    have objects of their own: what that does to payments is in [StateCopy].) The
    accounts in use are the keys of the map [InUseAccounts],
    shared by all the threads; a thread takes the sender and then the
    recipient, and gives up and backs off if one of them is taken. Between
    threads the operations of the map are atomic, but reading a balance and
    writing it back are two steps. A schedule is the list of the threads that
    take the next step. An address stands for its [String], which is
    injective. *)

From S2P Require Import Prelude Schedule.
From stdpp Require Import gmap sets.
Local Open Scope Z_scope.

(** ** Threads *)

(** Where a thread is in [Transfer]. *)
Inductive pc : Type :=
| Loop                (* before LoadOrStore of the sender *)
| HasSender           (* before LoadOrStore of the recipient *)
| Critical            (* before SubBalance *)
| Subtracting (v : Z) (* SubBalance has read the balance v *)
| Subtracted          (* before AddBalance *)
| Adding (v : Z)      (* AddBalance has read the balance v *)
| Added               (* before Delete of the sender *)
| SenderFreed         (* before Delete of the recipient *)
| GiveUp              (* before Delete of the sender, without the recipient *)
| Waiting             (* in Backoff *)
| Returned.

#[export] Instance pc_eq_dec : EqDecision pc.
Proof. solve_decision. Defined.

Record thread : Type := mkThread {
  sender : Z;
  recipient : Z;
  amount : Z;
  at_pc : pc;
}.
Definition goto (p : pc) (t : thread) : thread := mkThread (sender t) (recipient t) (amount t) p.
Definition sameAccount (t : thread) : bool := sender t =? recipient t.

(** The memory the threads share. *)
Record shared : Type := mkShared {
  InUseAccounts : gset Z;
  balances : gmap Z Z;
}.
Definition balance (m : shared) (a : Z) : Z := default 0 (balances m !! a).
Definition LoadOrStore (a : Z) (m : shared) : bool * shared :=
  if decide (a ∈ InUseAccounts m) then (true, m)
  else (false, mkShared ({[a]} ∪ InUseAccounts m) (balances m)).
Definition Delete (a : Z) (m : shared) : shared :=
  mkShared (InUseAccounts m ∖ {[a]}) (balances m).
Definition set_balance_of (a v : Z) (m : shared) : shared :=
  mkShared (InUseAccounts m) (<[a := v]> (balances m)).

(** The next step of a thread, if it has not returned. The balances are those of
    the one state database the threads work on. *)
Definition Transfer_step (t : thread) (m : shared) : option (thread * shared) :=
  match at_pc t with
  | Loop =>
      let '(senderInUse, m) := LoadOrStore (sender t) m in
      Some (goto (if senderInUse then Waiting else HasSender) t, m)
  | HasSender =>
      let '(recipientInUse, m) := LoadOrStore (recipient t) m in
      Some (goto (if negb recipientInUse || sameAccount t then Critical else GiveUp) t, m)
  | Critical =>
      Some (goto (if amount t =? 0 then Subtracted else Subtracting (balance m (sender t))) t, m)
  | Subtracting v => Some (goto Subtracted t, set_balance_of (sender t) (v - amount t) m)
  | Subtracted =>
      Some (goto (if amount t =? 0 then Added else Adding (balance m (recipient t))) t, m)
  | Adding v => Some (goto Added t, set_balance_of (recipient t) (v + amount t) m)
  | Added => Some (goto SenderFreed t, Delete (sender t) m)
  | SenderFreed => Some (goto Returned t, Delete (recipient t) m)
  | GiveUp => Some (goto Waiting t, Delete (sender t) m)
  | Waiting => Some (goto Loop t, m)
  | Returned => None
  end.

(** ** Schedules *)

Abbreviation config := (Schedule.config thread shared).
Abbreviation run_schedule := (Schedule.run_schedule Transfer_step).

Definition initial (ts : list thread) (bal : gmap Z Z) : config := (ts, mkShared ∅ bal).
Definition reachable (ts : list thread) (bal : gmap Z Z) (c : config) : Prop :=
  Forall (fun t => at_pc t = Loop) ts /\ exists sched, run_schedule sched (initial ts bal) = Some c.

(** A thread that may read or write the balance of an account. *)
Definition in_critical (t : thread) : bool :=
  match at_pc t with
  | Critical | Subtracting _ | Subtracted | Adding _ | Added => true
  | _ => false
  end.
Definition uses (t : thread) (a : Z) : bool := in_critical t && ((sender t =? a) || (recipient t =? a)).

(** The accounts a thread has marked. *)
Definition holds (t : thread) : gset Z :=
  match at_pc t with
  | HasSender | GiveUp => {[sender t]}
  | Critical | Subtracting _ | Subtracted | Adding _ | Added => {[sender t; recipient t]}
  | SenderFreed => {[recipient t]}
  | _ => ∅
  end.
(** What a thread has done to the balance of an account so far. *)
Definition moved (t : thread) (a : Z) : Z :=
  let out := if sender t =? a then - amount t else 0 in
  let into := if recipient t =? a then amount t else 0 in
  match at_pc t with
  | Subtracted | Adding _ => out
  | Added | SenderFreed | Returned => out + into
  | _ => 0
  end.
Definition all_moved (ts : list thread) (a : Z) : Z := zsum (fun t => moved t a) ts.

Definition distinct_accounts (t : thread) : Prop := sender t <> recipient t.

(** ** The invariant *)

(** The value a thread has read is still there. *)
Definition fresh_read (m : shared) (t : thread) : Prop :=
  match at_pc t with
  | Subtracting v => balance m (sender t) = v
  | Adding v => balance m (recipient t) = v
  | _ => True
  end.

Record lock_inv (bal : gmap Z Z) (c : config) : Prop := {
  li_distinct : Forall distinct_accounts c.1;
  li_disjoint : forall i j t u, i <> j -> c.1 !! i = Some t -> c.1 !! j = Some u -> holds t ## holds u;
  li_marked : forall i t, c.1 !! i = Some t -> holds t ⊆ InUseAccounts c.2;
  li_owned : forall a, a ∈ InUseAccounts c.2 -> exists i t, c.1 !! i = Some t /\ a ∈ holds t;
  li_fresh : Forall (fresh_read c.2) c.1;
  li_balance : forall a, balance c.2 a = default 0 (bal !! a) + all_moved c.1 a;
}.

(** What one step does, for the thread and for the memory. *)
Record step_effect (t t' : thread) (m m' : shared) : Prop := {
  se_same : sender t' = sender t /\ recipient t' = recipient t /\ amount t' = amount t;
  se_marks : forall a, a ∈ InUseAccounts m' <-> (a ∈ InUseAccounts m /\ a ∉ holds t) \/ a ∈ holds t';
  se_free : forall a, a ∈ holds t' -> a ∈ InUseAccounts m -> a ∈ holds t;
  se_elsewhere : forall a, a ∉ holds t -> balance m' a = balance m a;
  se_balance : forall a, balance m' a = balance m a + (moved t' a - moved t a);
  se_fresh : fresh_read m' t';
}.

Lemma balance_set a v m b : balance (set_balance_of a v m) b = if b =? a then v else balance m b.
Proof.
  unfold balance, set_balance_of. cbn. destruct (Z.eqb_spec b a) as [->|Hne].
  - by rewrite lookup_insert_eq.
  - by rewrite lookup_insert_ne.
Qed.


Lemma Transfer_step_effect t m t' m' :
  distinct_accounts t -> holds t ⊆ InUseAccounts m -> fresh_read m t ->
  Transfer_step t m = Some (t', m') -> step_effect t t' m m'.
Proof.
  destruct t as [s r v p]. intros Hne Hh Hf Hst. unfold distinct_accounts in Hne. cbn in Hne, Hf.
  assert ((s =? r) = false) as Hsr by (by apply Z.eqb_neq).
  assert ((r =? s) = false) as Hrs by (apply Z.eqb_neq; congruence).
  pose proof (Hh s) as Hs. pose proof (Hh r) as Hr. clear Hh.
  destruct p; cbn in Hst, Hs, Hr, Hf; unfold LoadOrStore, sameAccount in Hst; cbn in Hst;
    rewrite ?Hsr in Hst; repeat (case_decide || case_match; simplify_eq/=);
    try injection Hst as <- <-; (split; cbn; rewrite ?balance_set, ?Z.eqb_refl).
  all: try done.
  all: intros a; rewrite ?balance_set; try (unfold balance; cbn).
  all: rewrite ?elem_of_union, ?elem_of_difference, ?elem_of_union, ?elem_of_singleton, ?elem_of_empty in *.
  all: repeat match goal with |- context [?x =? ?y] => destruct (Z.eqb_spec x y) end; subst;
    try solve [lia | unfold balance; lia | congruence | intuition congruence | intros []; auto].
  all: destruct (decide (a = s)) as [Has|Has]; [rewrite Has in *|destruct (decide (a = r)) as [Har|Har]; [rewrite Har in *|]];
    intuition congruence.
Qed.

(** Another thread's read stays fresh: what it has read is not what the step wrote. *)
Lemma fresh_other m m' t u :
  fresh_read m u -> (forall a, a ∉ holds t -> balance m' a = balance m a) -> holds t ## holds u ->
  fresh_read m' u.
Proof.
  unfold fresh_read. intros Hf He Hd. destruct (at_pc u) eqn:Hp; try done.
  - rewrite He; [done|]. intros Hin. apply (Hd _ Hin). unfold holds. rewrite Hp. set_solver.
  - rewrite He; [done|]. intros Hin. apply (Hd _ Hin). unfold holds. rewrite Hp. set_solver.
Qed.

Lemma lock_inv_step bal i c t t' m' :
  lock_inv bal c -> c.1 !! i = Some t -> Transfer_step t c.2 = Some (t', m') -> lock_inv bal (<[i := t']> c.1, m').
Proof.
  intros [Hne Hdis Hmark Hown Hfr Hbal] Hi Ht. destruct c as [ts m]. cbn in *.
  assert (distinct_accounts t) as Hnt by (by apply (Forall_lookup_1 _ _ _ _ Hne Hi)).
  destruct (Transfer_step_effect t m t' m' Hnt (Hmark _ _ Hi) (Forall_lookup_1 _ _ _ _ Hfr Hi) Ht)
    as [(Hs & Hr & Ha) Hmk Hfree Hels Hb Hfr'].
  assert (forall j u, j <> i -> ts !! j = Some u -> holds t' ## holds u) as Hd'.
  { intros j u Hj Hu a Ha1 Ha2. pose proof (Hmark j u Hu a Ha2) as Hin.
    by apply (Hdis i j t u (not_eq_sym Hj) Hi Hu a (Hfree a Ha1 Hin)). }
  split; cbn.
  - apply Forall_insert; [done|]. unfold distinct_accounts. by rewrite Hs, Hr.
  - intros j k u v Hjk Hu Hv. apply list_lookup_insert_Some in Hu, Hv.
    destruct Hu as [(<- & <- & _)|(Hj & Hu)], Hv as [(<- & <- & _)|(Hk & Hv)];
      [done|by apply (Hd' k)|symmetry; by apply (Hd' j)|by apply (Hdis j k)].
  - intros j u Hu a Hin. apply Hmk. apply list_lookup_insert_Some in Hu as [(<- & <- & _)|(Hj & Hu)]; [by right|].
    left. split; [by apply (Hmark j u)|]. intros Ht'. by apply (Hdis i j t u Hj Hi Hu a).
  - intros a [[Hin Hnh]|Hin]%Hmk.
    + destruct (Hown a Hin) as (j & u & Hu & Hau). exists j, u. split; [|done].
      rewrite list_lookup_insert_ne; [done|]. intros ->. by simplify_eq.
    + exists i, t'. split; [|done]. apply list_lookup_insert_eq. by eapply lookup_lt_Some.
  - apply Forall_lookup. intros j u Hu. apply list_lookup_insert_Some in Hu as [(<- & <- & _)|(Hj & Hu)]; [done|].
    apply (fresh_other m m' t); [by apply (Forall_lookup_1 _ _ _ _ Hfr Hu)|done|by apply (Hdis i j)].
  - intros a. unfold all_moved in *. rewrite Hb, Hbal, (zsum_insert _ _ _ t t' Hi). lia.
Qed.

Lemma lock_inv_initial ts bal :
  Forall distinct_accounts ts -> Forall (fun t => at_pc t = Loop) ts -> lock_inv bal (initial ts bal).
Proof.
  intros Hne Hl.
  assert (forall i t, ts !! i = Some t -> holds t = ∅) as Hh.
  { intros i t Hi. unfold holds. by rewrite (Forall_lookup_1 _ _ _ _ Hl Hi). }
  split; cbn.
  - done.
  - intros i j t u _ Hi _. rewrite (Hh i t Hi). set_solver.
  - intros i t Hi. rewrite (Hh i t Hi). set_solver.
  - set_solver.
  - apply (Forall_impl _ _ _ Hl). intros t Ht. unfold fresh_read. by rewrite Ht.
  - intros a. enough (zsum (fun t => moved t a) ts = 0) as -> by (unfold balance; cbn; lia).
    apply zsum_zero, (Forall_impl _ _ _ Hl). intros t Ht. unfold moved. by rewrite Ht.
Qed.

Lemma lock_inv_run bal sched c c' : lock_inv bal c -> run_schedule sched c = Some c' -> lock_inv bal c'.
Proof. apply (run_schedule_ind Transfer_step (lock_inv bal)). eauto using lock_inv_step. Qed.

Lemma lock_inv_reachable ts bal c : Forall distinct_accounts ts -> reachable ts bal c -> lock_inv bal c.
Proof. intros Hne (Hl & sched & Hr). eapply lock_inv_run; [by apply lock_inv_initial|done]. Qed.

(** ** Progress *)

(** How far a thread is from the end of its attempt. *)
Definition rank (t : thread) : nat :=
  match at_pc t with
  | HasSender => 8
  | Critical => 7
  | Subtracting _ => 6
  | Subtracted => 5
  | Adding _ => 4
  | Added => 3
  | SenderFreed | GiveUp => 2
  | Waiting => 1
  | Loop | Returned => 0
  end.
(** A thread that will return without trying again. *)
Definition committed (t : thread) : bool :=
  match at_pc t with
  | Critical | Subtracting _ | Subtracted | Adding _ | Added | SenderFreed | Returned => true
  | _ => false
  end.
Definition ranks : list thread -> nat := nsum rank.
Definition pending : list thread -> nat := nsum (fun t => if committed t then O else 1%nat).

Lemma Transfer_step_rank t m :
  (0 < rank t)%nat ->
  exists t' m', Transfer_step t m = Some (t', m') /\ (rank t' < rank t)%nat /\
    (committed t = true -> committed t' = true).
Proof.
  destruct t as [s r v p]. unfold rank, Transfer_step, LoadOrStore. intros Hr. cbn in *.
  destruct p; cbn in *; try lia; repeat case_decide; repeat case_match; simplify_eq/=;
    (eexists _, _; split; [reflexivity|]; split; [cbn; lia|done]).
Qed.

(** Every attempt ends, whoever runs. *)
Lemma settle n c : (ranks c.1 <= n)%nat ->
  exists sched c', run_schedule sched c = Some c' /\ ranks c'.1 = O /\ (pending c'.1 <= pending c.1)%nat.
Proof.
  revert c. induction n as [|n IH]; intros c Hn; [exists [], c; split; [done|lia]|].
  destruct (decide (ranks c.1 = O)) as [Hz|Hz]; [exists [], c; split; [done|lia]|].
  destruct (nsum_pos rank c.1) as (i & t & Hi & Ht); [unfold ranks in *; lia|].
  destruct (Transfer_step_rank t c.2 Ht) as (t' & m' & Hst & Hr & Hc).
  pose proof (nsum_insert rank _ _ _ t' Hi) as HR.
  pose proof (nsum_insert (fun t => if committed t then O else 1%nat) _ _ _ t' Hi) as HP. unfold ranks, pending in *.
  destruct (IH (<[i := t']> c.1, m')) as (sched & c' & Hrun & Hz' & Hp'); [cbn [fst]; lia|].
  exists (i :: sched), c'. split; [|split; [done|]].
  - cbn. unfold step_thread. by rewrite Hi, Hst.
  - cbn [fst] in Hp'. destruct (committed t); [rewrite Hc in HP by done|destruct (committed t')]; lia.
Qed.

Lemma pending_pos ts : ranks ts = O -> (0 < pending ts)%nat -> exists i t, ts !! i = Some t /\ at_pc t = Loop.
Proof.
  induction ts as [|u ts IH]; cbn; [lia|]. intros Hr Hp. destruct (decide (at_pc u = Loop)) as [Hu|Hu].
  - by exists O, u.
  - destruct IH as (i & t & Hi & Ht); [lia| |by exists (S i), t].
    unfold rank, committed in *. destruct (at_pc u); try done; lia.
Qed.

(** With no attempt under way, a waiting thread gets its accounts. *)
Lemma start_attempt bal c i t :
  lock_inv bal c -> ranks c.1 = O -> c.1 !! i = Some t -> at_pc t = Loop ->
  exists c', run_schedule [i; i] c = Some c' /\ (pending c'.1 < pending c.1)%nat.
Proof.
  intros Hinv Hr Hi Hp. destruct c as [ts m]. cbn [fst] in *.
  assert (InUseAccounts m = ∅) as Hm.
  { apply elem_of_equiv_empty_L. intros a Ha. destruct (li_owned _ _ Hinv a Ha) as (j & u & Hu & Hau).
    cbn in Hu. pose proof (nsum_zero rank _ _ _ Hr Hu) as Hz. unfold rank, holds in *. destruct (at_pc u); done. }
  pose proof (Forall_lookup_1 _ _ _ _ (li_distinct _ _ Hinv) Hi) as Hne.
  pose proof (lookup_lt_Some _ _ _ Hi) as Hlt.
  destruct t as [s r v p]. cbn in Hp, Hne. subst p. unfold distinct_accounts in Hne. cbn in Hne.
  set (t2 := mkThread s r v Critical).
  exists (<[i := t2]> (<[i := mkThread s r v HasSender]> ts), mkShared ({[r]} ∪ ({[s]} ∪ ∅)) (balances m)).
  split.
  - cbn [run_schedule]. unfold step_thread at 1. cbn [fst snd]. rewrite Hi. cbn. unfold LoadOrStore.
    rewrite Hm. rewrite decide_False by set_solver. cbn [run_schedule]. unfold step_thread. cbn [fst snd].
    rewrite list_lookup_insert_eq by done. cbn. unfold LoadOrStore. cbn.
    rewrite decide_False by set_solver. done.
  - cbn [fst]. rewrite list_insert_insert_eq. pose proof (nsum_insert (fun t => if committed t then O else 1%nat) _ _ _ t2 Hi) as HP. unfold pending in *. cbn in HP. cbn. lia.
Qed.

Lemma finish_all n bal c :
  lock_inv bal c -> (pending c.1 <= n)%nat ->
  exists sched c', run_schedule sched c = Some c' /\ ranks c'.1 = O /\ pending c'.1 = O.
Proof.
  revert c. induction n as [|n IH]; intros c Hi Hn.
  - destruct (settle (ranks c.1) c) as (sched & c' & Hr & Hz & Hp); [done|]. exists sched, c'. split; [done|lia].
  - destruct (settle (ranks c.1) c) as (sched & c1 & Hr1 & Hz1 & Hp1); [done|].
    destruct (decide (pending c1.1 = O)) as [Hz|Hz]; [by exists sched, c1|].
    destruct (pending_pos c1.1) as (i & t & Hit & Ht); [done|lia|].
    pose proof (lock_inv_run _ _ _ _ Hi Hr1) as Hi1.
    destruct (start_attempt bal c1 i t Hi1 Hz1 Hit Ht) as (c2 & Hr2 & Hp2).
    destruct (IH c2) as (s3 & c3 & Hr3 & Hz3 & Hp3); [by eapply lock_inv_run|lia|].
    exists (sched ++ [i; i] ++ s3), c3. rewrite run_schedule_app, Hr1, run_schedule_app, Hr2. done.
Qed.

(** What the transfers of a list of threads do to an account in the end. *)
Definition net (ts : list thread) (a : Z) : Z :=
  zsum (fun t => (if recipient t =? a then amount t else 0) - (if sender t =? a then amount t else 0)) ts.

Lemma Transfer_step_same t m t' m' :
  Transfer_step t m = Some (t', m') ->
  sender t' = sender t /\ recipient t' = recipient t /\ amount t' = amount t.
Proof.
  unfold Transfer_step, LoadOrStore. intros Hst. by repeat case_decide; repeat case_match; simplify_eq/=.
Qed.
Lemma net_run sched c c' a : run_schedule sched c = Some c' -> net c'.1 a = net c.1 a.
Proof.
  intros Hr. apply (run_schedule_ind Transfer_step (fun c' => net c'.1 a = net c.1 a)) with sched c; [|done|done].
  intros i c1 t t' m' Hc1 Hi Ht. apply Transfer_step_same in Ht as (Hs & Hrc & Ha).
  unfold net in *. cbn [fst]. rewrite (zsum_insert _ _ _ t t' Hi), Hc1, Hs, Hrc, Ha. lia.
Qed.
Lemma all_moved_returned ts a : Forall (fun t => at_pc t = Returned) ts -> all_moved ts a = net ts a.
Proof.
  intros Hr. apply zsum_ext, (Forall_impl _ _ _ Hr). intros t Ht. unfold moved. rewrite Ht.
  destruct (_ =? a), (_ =? a); lia.
Qed.

Lemma returned_all ts : ranks ts = O -> pending ts = O -> Forall (fun t => at_pc t = Returned) ts.
Proof.
  induction ts as [|t ts IH]; cbn; intros Hr Hp; constructor; [|apply IH; lia].
  unfold rank, committed in *. destruct (at_pc t); done || lia.
Qed.

(** ** Properties *)

(** Four transfers that compete for three accounts, for the examples. *)
Definition competing : list thread :=
  [mkThread 1 2 5 Loop; mkThread 2 3 7 Loop; mkThread 1 3 2 Loop; mkThread 3 1 1 Loop].
Definition competing_balances : gmap Z Z := {[1 := 100; 2 := 50; 3 := 0]}.

(** C32. Whatever the schedule, two transfers never work on the same account at
    the same time, as long as nobody transfers to itself. *)
Theorem transfers_exclusive ts bal c i j t u a :
  Forall distinct_accounts ts -> reachable ts bal c -> i <> j ->
  c.1 !! i = Some t -> c.1 !! j = Some u -> uses t a && uses u a = false.
Proof.
  intros Hne Hr Hij Hi Hj. pose proof (lock_inv_reachable _ _ _ Hne Hr) as Hinv.
  pose proof (li_disjoint _ _ Hinv i j t u Hij Hi Hj) as Hd.
  apply not_true_is_false. intros [Ht Hu]%andb_prop.
  assert (forall t, uses t a = true -> a ∈ holds t) as Hh; [|by apply (Hd a); apply Hh].
  clear. intros t Ht. unfold uses, in_critical, holds in *.
  destruct (at_pc t); try done; cbn in Ht; apply orb_true_iff in Ht as [->%Z.eqb_eq| ->%Z.eqb_eq]; set_solver.
Qed.

(** On one state no update is lost: once all the transfers have returned, every
    account has what it started with plus what was sent to it minus what it sent,
    although reading and writing a balance are separate steps, as long as nobody
    transfers to itself. *)
Theorem transfers_exact ts bal c a :
  Forall distinct_accounts ts -> reachable ts bal c -> Forall (fun t => at_pc t = Returned) c.1 ->
  balance c.2 a = default 0 (bal !! a) + net ts a.
Proof.
  intros Hne Hr Hret. pose proof (lock_inv_reachable _ _ _ Hne Hr) as Hinv.
  destruct Hr as (_ & sched & Hr). rewrite (li_balance _ _ Hinv a), all_moved_returned by done.
  by rewrite (net_run _ _ _ _ Hr).
Qed.

(** C34. There is no deadlock: as long as nobody transfers to itself, whatever has
    happened so far, the transfers can all still return. *)
Theorem transfers_finish ts bal c :
  Forall distinct_accounts ts -> reachable ts bal c ->
  exists sched c', run_schedule sched c = Some c' /\ Forall (fun t => at_pc t = Returned) c'.1.
Proof.
  intros Hne Hr. pose proof (lock_inv_reachable _ _ _ Hne Hr) as Hinv.
  destruct (finish_all (pending c.1) bal c Hinv) as (sched & c' & Hrun & Hz & Hp); [done|].
  exists sched, c'. split; [done|]. by apply returned_all.
Qed.

(** A transfer from account 1 to itself beside two transfers from account 1. *)
Definition self_transfer : list thread :=
  [mkThread 1 1 10 Loop; mkThread 1 2 5 Loop; mkThread 1 3 7 Loop].
(** The first thread frees its account twice; the second thread takes it in
    between, and the third after the second time. *)
Definition race : list nat :=
  [0; 0; 0; 0; 0; 0; 0; 1; 1; 1; 0; 2; 2; 2]%nat.
Definition race_end : list nat := [1; 1; 1; 1; 1; 2; 2; 2; 2; 2]%nat.

(** A transfer of an account to itself breaks the exclusion: it deletes its
    one mark twice, so that a later holder loses its mark, two threads work on
    the same balance and the accounts end with 105 out of 100. *)
Theorem self_transfer_breaks_exclusion :
  exists c c' t u,
    run_schedule race (initial self_transfer {[1 := 100]}) = Some c /\
    c.1 !! 1%nat = Some t /\ c.1 !! 2%nat = Some u /\ uses t 1 && uses u 1 = true /\
    run_schedule race_end c = Some c' /\ Forall (fun t => at_pc t = Returned) c'.1 /\
    balance c'.2 1 = 93 /\ balance c'.2 2 = 5 /\ balance c'.2 3 = 7.
Proof.
  eexists _, _, _, _. split_and!; try (vm_compute; reflexivity). repeat constructor.
Qed.

(** After three of the competing transfers have taken steps. *)
Definition competing_now : config :=
  default ([], mkShared ∅ ∅)
    (run_schedule [0; 1; 0; 1; 1; 0; 2; 0]%nat (initial competing competing_balances)).
Definition competing_done : config :=
  default ([], mkShared ∅ ∅)
    (run_schedule (concat (map (replicate 8) [0; 1; 2; 3]%nat)) (initial competing competing_balances)).

Lemma transfers_exclusive_witness :
  exists t u, competing_now.1 !! 1%nat = Some t /\ competing_now.1 !! 2%nat = Some u /\
    uses t 3 = true /\ uses t 3 && uses u 3 = false.
Proof.
  eexists _, _. split; [vm_compute; reflexivity|]. split; [vm_compute; reflexivity|]. split; [reflexivity|].
  apply (transfers_exclusive competing competing_balances competing_now 1 2);
    [repeat constructor; done|split; [repeat constructor|exists [0; 1; 0; 1; 1; 0; 2; 0]%nat; vm_compute; reflexivity]|done
    |vm_compute; reflexivity..].
Defined.

Lemma transfers_exact_witness : balance competing_done.2 3 = 8.
Proof.
  etrans; [apply (transfers_exact competing competing_balances)|vm_compute; reflexivity].
  - repeat constructor; done.
  - split; [repeat constructor|].
    exists (concat (map (replicate 8) [0; 1; 2; 3]%nat)). vm_compute. reflexivity.
  - vm_compute. repeat constructor.
Defined.

Lemma transfers_finish_witness :
  exists sched c', run_schedule sched competing_now = Some c' /\ Forall (fun t => at_pc t = Returned) c'.1.
Proof.
  apply (transfers_finish competing competing_balances competing_now);
    [repeat constructor; done|split; [repeat constructor|exists [0; 1; 0; 1; 1; 0; 2; 0]%nat; vm_compute; reflexivity]].
Defined.
