(* ===== verification/TxSet.v ===== *)
(** * The set of transactions shared by the miner's threads

    Models [TransactionsByPriceAndNonce] of [core/types/transaction.go]: the
    head transaction of every account, the queues behind the heads, and the
    marks that let one thread at a time work on an account. The threads call
    [Peek], and [Shift] or [Remove] on the account they got, as [txnWorker] of
    [miner/worker.go] does; every access to a shared variable is a step. The
    sender of a transaction is a function here, see [Transaction]. *)

From S2P Require Import Prelude Heap Schedule CommonMath.
From stdpp Require Import gmap sets.
Local Open Scope Z_scope.

(** ** The set *)

Section tx_set.
Context {Tx : Type} (from : Tx -> option Address) (price : Tx -> Z).

(** [handed] is not in the code: the transactions returned by [Peek] so far. *)
Record tx_set : Type := mkSet {
  txs : gmap Z (list Tx);
  heads : list (option Tx);
  accountLock : gset Z;
  headsAvailable : list bool;
  t_index : Z;
  handed : list Tx;
}.
Definition set_txs (x : gmap Z (list Tx)) (t : tx_set) : tx_set :=
  mkSet x (heads t) (accountLock t) (headsAvailable t) (t_index t) (handed t).
Definition set_heads (x : list (option Tx)) (t : tx_set) : tx_set :=
  mkSet (txs t) x (accountLock t) (headsAvailable t) (t_index t) (handed t).
Definition set_lock (x : gset Z) (t : tx_set) : tx_set :=
  mkSet (txs t) (heads t) x (headsAvailable t) (t_index t) (handed t).
Definition set_available (x : list bool) (t : tx_set) : tx_set :=
  mkSet (txs t) (heads t) (accountLock t) x (t_index t) (handed t).
Definition set_index (x : Z) (t : tx_set) : tx_set :=
  mkSet (txs t) (heads t) (accountLock t) (headsAvailable t) x (handed t).
Definition set_handed (x : list Tx) (t : tx_set) : tx_set :=
  mkSet (txs t) (heads t) (accountLock t) (headsAvailable t) (t_index t) x.

Definition TxByPrice_Less (x y : Tx) : bool := price y <? price x.

(** The map is iterated in some order, which the list gives; accounts without
    transactions are an index error. A sender that does not recover is the zero
    address, and [Insert] keeps the first queue of an account. *)
Definition NewTransactionsByPriceAndNonce (queues : list (list Tx)) : option tx_set :=
  hs ← mapM (fun q => head q) queues;
  let heads := heap_Init TxByPrice_Less hs in
  Some (mkSet (list_to_map (zip_with (fun x q => (default 0 (from x), tail q)) hs queues))
          (map Some heads) ∅ (replicate (length heads) true) 0 []).

(** ** Threads *)

Inductive find_for : Type := ForShift | ForRemove.
Inductive set_pc : Type :=
| PeekStart                                     (* before the load of the index *)
| PeekAvailable (index : Z) (i : nat)           (* before the load of headsAvailable *)
| PeekHead (index : Z) (i : nat)                (* the head was available *)
| PeekLoad (index : Z) (i : nat) (s : Address)  (* before accountLock.Load *)
| PeekStore (index : Z) (i : nat) (s : Address) (* before LoadOrStore *)
| PeekIncrement (index : Z) (i : nat) (s : Address) (* the account is marked *)
| PeekResult (index : Z) (i : nat) (s : Address)
| Working (s : Address)                         (* Peek has returned a transaction *)
| FindHead (for_ : find_for) (j : nat) (s : Address)
| FindAvailable (for_ : find_for) (j : nat) (head : option Tx) (s : Address)
| ShiftGet (k : nat) (s : Address)
| ShiftHead (k : nat) (next : Tx) (rest : list Tx) (s : Address)
| ShiftSet (rest : list Tx) (s : Address)
| ShiftUnlock (s : Address)
| RemoveSwap (k : nat) (s : Address)
| RemoveHead (k : nat) (s : Address)
| SetReturned
| Crashed.

(** What a thread does with the transactions it gets: shift ([true]) or
    remove; it returns when there is nothing more to do. *)
Record set_thread : Type := mkSetThread { script : list bool; s_pc : set_pc }.
Definition s_goto (p : set_pc) (t : set_thread) : set_thread := mkSetThread (script t) p.

Definition slot (index : Z) (i : nat) (t : tx_set) : nat :=
  Z.to_nat ((index + Z.of_nat i) mod zlen (heads t)).

Definition Peek_step (p : set_pc) (t : tx_set) : set_pc * tx_set :=
  match p with
  | PeekStart => (PeekAvailable (t_index t) 0, t)
  | PeekAvailable index i =>
      if (length (heads t) <=? i)%nat then (SetReturned, t)
      else match headsAvailable t !! slot index i t with
           | None => (Crashed, t)
           | Some true => (PeekHead index i, t)
           | Some false => (PeekAvailable index (S i), t)
           end
  | PeekHead index i =>
      match heads t !! slot index i t with
      | None | Some None => (Crashed, t)
      | Some (Some tx) =>
          match from tx with
          | None => (SetReturned, t)
          | Some s => (PeekLoad index i s, t)
          end
      end
  | PeekLoad index i s =>
      (if decide (s ∈ accountLock t) then PeekAvailable index (S i) else PeekStore index i s, t)
  | PeekStore index i s =>
      if decide (s ∈ accountLock t) then (PeekAvailable index (S i), t)
      else (PeekIncrement index i s, set_lock ({[s]} ∪ accountLock t) t)
  | PeekIncrement index i s => (PeekResult index i s, set_index ((t_index t + 1) mod 2 ^ 32) t)
  | PeekResult index i s =>
      match heads t !! slot index i t with
      | None => (Crashed, t)
      | Some None => (SetReturned, t)
      | Some (Some tx) => (Working s, set_handed (handed t ++ [tx]) t)
      end
  | _ => (p, t)
  end.

(** [find] returns -1 at the end, which is an index error in its callers. *)
Definition Find_step (p : set_pc) (t : tx_set) : set_pc * tx_set :=
  match p with
  | FindHead for_ j s =>
      match heads t !! j with
      | None => (Crashed, t)
      | Some head => (FindAvailable for_ j head s, t)
      end
  | FindAvailable for_ j head s =>
      match headsAvailable t !! j with
      | None => (Crashed, t)
      | Some false => (FindHead for_ (S j) s, t)
      | Some true =>
          match head with
          | None => (Crashed, t)
          | Some tx =>
              (if default 0 (from tx) =? s
               then match for_ with ForShift => ShiftGet j s | ForRemove => RemoveSwap j s end
               else FindHead for_ (S j) s, t)
          end
      end
  | _ => (p, t)
  end.
Definition Shift_step (p : set_pc) (t : tx_set) : set_pc * tx_set :=
  match p with
  | ShiftGet k s =>
      (match txs t !! s with
       | Some (next :: rest) => ShiftHead k next rest s
       | _ => FindHead ForRemove 0 s
       end, t)
  | ShiftHead k next rest s => (ShiftSet rest s, set_heads (<[k := Some next]> (heads t)) t)
  | ShiftSet rest s => (ShiftUnlock s, set_txs (<[s := rest]> (txs t)) t)
  | ShiftUnlock s => (PeekStart, set_lock (accountLock t ∖ {[s]}) t)
  | _ => (p, t)
  end.
Definition Remove_step (p : set_pc) (t : tx_set) : set_pc * tx_set :=
  match p with
  | RemoveSwap k s =>
      match headsAvailable t !! k with
      | Some true => (RemoveHead k s, set_available (<[k := false]> (headsAvailable t)) t)
      | _ => (PeekStart, t)
      end
  | RemoveHead k s => (PeekStart, set_heads (<[k := None]> (heads t)) t)
  | _ => (p, t)
  end.

Definition worker_step (w : set_thread) (t : tx_set) : option (set_thread * tx_set) :=
  match s_pc w with
  | SetReturned | Crashed => None
  | Working s =>
      match script w with
      | [] => None
      | b :: script' =>
          Some (mkSetThread script' (FindHead (if b : bool then ForShift else ForRemove) 0 s), t)
      end
  | PeekStart | PeekAvailable _ _ | PeekHead _ _ | PeekLoad _ _ _ | PeekStore _ _ _ | PeekIncrement _ _ _
  | PeekResult _ _ _ => let '(p, t) := Peek_step (s_pc w) t in Some (s_goto p w, t)
  | FindHead _ _ _ | FindAvailable _ _ _ _ => let '(p, t) := Find_step (s_pc w) t in Some (s_goto p w, t)
  | ShiftGet _ _ | ShiftHead _ _ _ _ | ShiftSet _ _ | ShiftUnlock _ =>
      let '(p, t) := Shift_step (s_pc w) t in Some (s_goto p w, t)
  | RemoveSwap _ _ | RemoveHead _ _ => let '(p, t) := Remove_step (s_pc w) t in Some (s_goto p w, t)
  end.
End tx_set.
