(* ===== verification/TxSetProps.v ===== *)
(** * Properties of the shared set of transactions

    The threads of [TxSet] never work on one account at the same time, and the
    transactions of every account are handed out in the order of its queue;
    and a schedule on which [Peek] crashes. *)

From S2P Require Import Prelude Heap Schedule CommonMath TxSet.
From stdpp Require Import gmap sets.
Local Open Scope Z_scope.

Section set_invariant.
Context {Tx : Type} (from : Tx -> option Address) (price : Tx -> Z).
(** The account of every head, and the queue it starts with. *)
Context (owners : list Address) (queue : Address -> list Tx).
Implicit Types (t : @tx_set Tx) (w : @set_thread Tx) (p : @set_pc Tx) (s : Address).
Abbreviation config := (Schedule.config (@set_thread Tx) (@tx_set Tx)).

(** The transactions of an account that have been handed out. *)
Definition handed_of s t : list Tx := filter (fun tx => from tx = Some s) (handed t).

(** The account a thread has marked. *)
Definition holding p : option Address :=
  match p with
  | PeekIncrement _ _ s | PeekResult _ _ s | Working s | FindHead _ _ s | FindAvailable _ _ _ s
  | ShiftGet _ s | ShiftHead _ _ _ s | ShiftSet _ s | ShiftUnlock s | RemoveSwap _ s | RemoveHead _ s => Some s
  | _ => None
  end.

(** The head comes next, and the queue after it. *)
Definition ready k s t : Prop :=
  headsAvailable t !! k = Some true /\
  exists tx, heads t !! k = Some (Some tx) /\ queue s = handed_of s t ++ tx :: default [] (txs t !! s).
(** The head has been handed out. *)
Definition busy k s t : Prop :=
  headsAvailable t !! k = Some true /\ queue s = handed_of s t ++ default [] (txs t !! s).
(** The account is finished. *)
Definition removed k s t : Prop :=
  headsAvailable t !! k = Some false /\ handed_of s t `prefix_of` queue s.

(** Where an account is, while a thread works on it. *)
Definition stage p k s t : Prop :=
  match p with
  | PeekIncrement index i _ | PeekResult index i _ => ready k s t /\ slot index i t = k
  | ShiftUnlock _ => ready k s t
  | Working _ => busy k s t
  | FindHead _ j _ | FindAvailable _ j _ _ => busy k s t /\ (j <= k)%nat
  | ShiftGet k' _ | RemoveSwap k' _ => busy k s t /\ k' = k
  | ShiftHead k' next rest _ => busy k s t /\ k' = k /\ txs t !! s = Some (next :: rest) /\ from next = Some s
  | ShiftSet rest _ =>
      headsAvailable t !! k = Some true /\
      (exists tx, heads t !! k = Some (Some tx) /\ queue s = handed_of s t ++ tx :: rest) /\
      (exists next, txs t !! s = Some (next :: rest))
  | RemoveHead k' _ => removed k s t /\ k' = k
  | _ => False
  end.
(** An account is worked on by a thread, or waits for one, or is finished. *)
Definition account_ok (c : config) k s : Prop :=
  (exists i w, c.1 !! i = Some w /\ holding (s_pc w) = Some s /\ s ∈ accountLock c.2 /\ stage (s_pc w) k s c.2) \/
  ((forall i w, c.1 !! i = Some w -> holding (s_pc w) <> Some s) /\
   ((s ∉ accountLock c.2) /\ ready k s c.2 \/ (s ∈ accountLock c.2) /\ removed k s c.2)).

(** What a thread has read stays true. *)
Definition read_ok p t : Prop :=
  match p with
  | PeekLoad index i s | PeekStore index i s => owners !! slot index i t = Some s
  | FindAvailable _ j head _ =>
      match head with
      | Some tx => from tx = owners !! j
      | None => headsAvailable t !! j = Some false
      end
  | _ => True
  end.

Record set_inv (c : config) : Prop := {
  in_heads : length (heads c.2) = length owners;
  in_available : length (headsAvailable c.2) = length owners;
  in_from : forall k tx, heads c.2 !! k = Some (Some tx) -> from tx = owners !! k;
  in_head : forall k, headsAvailable c.2 !! k = Some true -> exists tx, heads c.2 !! k = Some (Some tx);
  in_queues : forall s tx, tx ∈ default [] (txs c.2 !! s) -> from tx = Some s;
  in_read : forall i w, c.1 !! i = Some w -> read_ok (s_pc w) c.2;
  in_disjoint : forall i j w w' s, i <> j -> c.1 !! i = Some w -> c.1 !! j = Some w' ->
    holding (s_pc w) = Some s -> holding (s_pc w') <> Some s;
  in_accounts : forall k s, owners !! k = Some s -> account_ok c k s;
  in_holders : forall i w s, c.1 !! i = Some w -> holding (s_pc w) = Some s -> s ∈ owners;
}.

Context (Hnodup : NoDup owners).

Lemma owner_unique k k' s : owners !! k = Some s -> owners !! k' = Some s -> k' = k.
Proof. intros H1 H2. by eapply NoDup_lookup. Qed.

(** The part of the set that belongs to other accounts is the same. *)
Definition same_elsewhere s t t' : Prop :=
  (forall k s', owners !! k = Some s' -> s' <> s ->
     heads t' !! k = heads t !! k /\ headsAvailable t' !! k = headsAvailable t !! k /\
     txs t' !! s' = txs t !! s' /\ handed_of s' t' = handed_of s' t /\
     (s' ∈ accountLock t' <-> s' ∈ accountLock t)) /\
  zlen (heads t') = zlen (heads t).

Lemma ready_elsewhere s t t' k s' :
  same_elsewhere s t t' -> owners !! k = Some s' -> s' <> s -> ready k s' t -> ready k s' t'.
Proof.
  intros [He _] Hk Hne. destruct (He k s' Hk Hne) as (Hh & Ha & Ht & Hd & _). unfold ready. by rewrite Hh, Ha, Ht, Hd.
Qed.
Lemma removed_elsewhere s t t' k s' :
  same_elsewhere s t t' -> owners !! k = Some s' -> s' <> s -> removed k s' t -> removed k s' t'.
Proof.
  intros [He _] Hk Hne. destruct (He k s' Hk Hne) as (Hh & Ha & Ht & Hd & _). unfold removed. by rewrite Ha, Hd.
Qed.
Lemma stage_elsewhere s t t' p k s' :
  same_elsewhere s t t' -> owners !! k = Some s' -> s' <> s -> stage p k s' t -> stage p k s' t'.
Proof.
  intros Hs Hk Hne. pose proof Hs as [He Hz]. pose proof (He k s' Hk Hne) as (Hh & Ha & Ht & Hd & _).
  pose proof (ready_elsewhere s t t' k s' Hs Hk Hne) as Hr. pose proof (removed_elsewhere s t t' k s' Hs Hk Hne) as Hrm.
  destruct p; cbn; try done; unfold busy, slot; rewrite ?Hz, ?Hh, ?Ha, ?Ht, ?Hd; try done; intuition.
Qed.

(** A step of thread [i] that touches one account only keeps the others. *)
Lemma accounts_step c i w w' t' s :
  set_inv c -> c.1 !! i = Some w ->
  (holding (s_pc w) = Some s \/ holding (s_pc w) = None) ->
  (holding (s_pc w') = Some s \/ holding (s_pc w') = None) ->
  same_elsewhere s c.2 t' ->
  (forall k, owners !! k = Some s -> account_ok (<[i := w']> c.1, t') k s) ->
  forall k s', owners !! k = Some s' -> account_ok (<[i := w']> c.1, t') k s'.
Proof.
  intros Hinv Hi Hw Hw' Hs Hself k s' Hk. destruct (decide (s' = s)) as [->|Hne]; [by apply Hself|].
  pose proof (proj1 Hs k s' Hk Hne) as (_ & _ & _ & _ & Hlock).
  assert (holding (s_pc w) <> Some s' /\ holding (s_pc w') <> Some s') as [Hn Hn'] by (destruct Hw, Hw'; split; congruence).
  destruct (in_accounts c Hinv k s' Hk) as [(j & v & Hj & Hv & Hin & Hst)|[Hnone Hrest]].
  - left. exists j, v. cbn. rewrite list_lookup_insert_ne by congruence. split; [done|]. split; [done|].
    split; [by apply Hlock|by eapply stage_elsewhere].
  - right. split; cbn.
    + intros j v Hj. apply list_lookup_insert_Some in Hj as [(<- & <- & _)|(_ & Hj)]; [done|by eapply Hnone].
    + rewrite Hlock. destruct Hrest as [[? ?]|[? ?]]; [left|right];
        eauto using ready_elsewhere, removed_elsewhere.
Qed.

Lemma slot_owner c k (x : option Tx) : set_inv c -> heads c.2 !! k = Some x -> exists s, owners !! k = Some s.
Proof.
  intros Hinv Hk. apply lookup_lt_Some in Hk. rewrite (in_heads c Hinv) in Hk. by apply lookup_lt_is_Some in Hk.
Qed.

(** The rest of the invariant after such a step. *)
Lemma set_inv_step c i w w' t' s :
  set_inv c -> c.1 !! i = Some w -> s ∈ owners ->
  (holding (s_pc w) = Some s \/ holding (s_pc w) = None /\ forall j v, c.1 !! j = Some v -> holding (s_pc v) <> Some s) ->
  (holding (s_pc w') = Some s \/ holding (s_pc w') = None) ->
  same_elsewhere s c.2 t' ->
  length (headsAvailable t') = length owners ->
  (forall s', s' <> s -> txs t' !! s' = txs c.2 !! s') ->
  (forall k, owners !! k = Some s -> headsAvailable c.2 !! k = Some false -> headsAvailable t' !! k = Some false) ->
  (forall k tx, owners !! k = Some s -> heads t' !! k = Some (Some tx) -> from tx = Some s) ->
  (forall k, owners !! k = Some s -> headsAvailable t' !! k = Some true -> exists tx, heads t' !! k = Some (Some tx)) ->
  (forall tx, tx ∈ default [] (txs t' !! s) -> from tx = Some s) ->
  read_ok (s_pc w') t' ->
  (forall k, owners !! k = Some s -> account_ok (<[i := w']> c.1, t') k s) ->
  set_inv (<[i := w']> c.1, t').
Proof.
  intros Hinv Hi Hs Hw Hw' Hsame Hav Htxs Hmono Hfrom Hhead Hq Hread Hself. pose proof Hsame as [He Hz].
  assert (length (heads t') = length owners) as Hlen.
  { rewrite <- (in_heads c Hinv). unfold zlen in Hz. lia. }
  assert (forall k, is_Some (heads t' !! k) \/ is_Some (headsAvailable t' !! k) -> exists s', owners !! k = Some s') as Hown.
  { intros k [Hk|Hk]; apply lookup_lt_is_Some in Hk; rewrite ?Hlen, ?Hav in Hk; by apply lookup_lt_is_Some in Hk. }
  assert (holding (s_pc w) = Some s \/ holding (s_pc w) = None) as Hw0 by (destruct Hw as [|[? _]]; auto).
  split; cbn [fst snd].
  - done.
  - done.
  - intros k tx Hk. destruct (Hown k) as [s' Hs']; [left; by rewrite Hk|]. rewrite Hs'.
    destruct (decide (s' = s)) as [->|Hne]; [by apply (Hfrom k)|].
    rewrite <- Hs'. apply (in_from c Hinv). by rewrite <- (proj1 (He k s' Hs' Hne)).
  - intros k Hk. destruct (Hown k) as [s' Hs']; [right; by rewrite Hk|].
    destruct (decide (s' = s)) as [->|Hne]; [by apply Hhead|].
    destruct (He k s' Hs' Hne) as (-> & Ha & _). apply (in_head c Hinv). by rewrite <- Ha.
  - intros s' tx Htx. destruct (decide (s' = s)) as [->|Hne]; [by apply Hq|].
    rewrite Htxs in Htx by done. by apply (in_queues c Hinv).
  - intros j v Hj. apply list_lookup_insert_Some in Hj as [(<- & <- & _)|(_ & Hj)]; [done|].
    pose proof (in_read c Hinv j v Hj) as Hr. destruct (s_pc v); cbn in *; unfold slot in *; rewrite ?Hz; try done.
    destruct head; [done|]. destruct (decide (owners !! j0 = Some s)) as [Ho|Ho]; [by apply Hmono|].
    destruct (owners !! j0) as [s'|] eqn:Hs'; [|apply lookup_lt_Some in Hr; rewrite (in_available c Hinv) in Hr;
      apply lookup_lt_is_Some in Hr; rewrite Hs' in Hr; by destruct Hr].
    assert (s' <> s) as Hne by congruence. by rewrite (proj1 (proj2 (He j0 s' Hs' Hne))).
  - assert (forall j v s', j <> i -> c.1 !! j = Some v -> holding (s_pc w') = Some s' -> holding (s_pc v) <> Some s') as Hd.
    { intros j v s' Hji Hj Hs'. destruct Hw' as [Hw'|Hw']; [|congruence]. rewrite Hw' in Hs'. injection Hs' as <-.
      destruct Hw as [Hw|[_ Hfree]]; [by eapply (in_disjoint c Hinv i j)|by eapply Hfree]. }
    intros j1 j2 v1 v2 s' Hne H1 H2 Hs'. apply list_lookup_insert_Some in H1, H2.
    destruct H1 as [(<- & <- & _)|(Hn1 & H1)], H2 as [(<- & <- & _)|(Hn2 & H2)]; [done|by eapply (Hd j2)| |by eapply (in_disjoint c Hinv j1 j2)].
    intros Hs2. by eapply (Hd j1).
  - by eapply accounts_step.
  - intros j v s' Hj Hv. apply list_lookup_insert_Some in Hj as [(<- & <- & _)|(_ & Hj)]; [|by eapply (in_holders c Hinv)].
    destruct Hw' as [Hw'|Hw']; congruence.
Qed.

(** A step that changes the thread only. *)
Lemma set_inv_quiet c i w w' :
  set_inv c -> c.1 !! i = Some w -> holding (s_pc w') = holding (s_pc w) -> read_ok (s_pc w') c.2 ->
  (forall k s, owners !! k = Some s -> holding (s_pc w) = Some s -> stage (s_pc w) k s c.2 -> stage (s_pc w') k s c.2) ->
  set_inv (<[i := w']> c.1, c.2).
Proof.
  intros Hinv Hi Hh Hr Hst. pose proof Hinv as [H1 H2 H3 H4 H5 H6 H7 H8 H9]. split; cbn [fst snd]; try done.
  - intros j v Hj. apply list_lookup_insert_Some in Hj as [(<- & <- & _)|(_ & Hj)]; [done|by eapply H6].
  - intros j1 j2 v1 v2 s Hne Hj1 Hj2 Hs. apply list_lookup_insert_Some in Hj1, Hj2.
    destruct Hj1 as [(<- & <- & _)|(_ & Hj1)], Hj2 as [(<- & <- & _)|(_ & Hj2)]; rewrite ?Hh in *; by eapply H7.
  - intros k s Hk. destruct (H8 k s Hk) as [(j & v & Hj & Hv & Hin & Hstv)|[Hnone Hrest]].
    + left. destruct (decide (j = i)) as [->|Hne].
      * rewrite Hi in Hj. injection Hj as <-. exists i, w'. cbn. rewrite list_lookup_insert_eq by (by eapply lookup_lt_Some).
        rewrite Hh. split_and!; try done. by apply Hst.
      * exists j, v. cbn. by rewrite list_lookup_insert_ne.
    + right. split; [|done]. intros j v Hj. cbn in Hj.
      apply list_lookup_insert_Some in Hj as [(<- & <- & _)|(_ & Hj)]; [rewrite Hh|]; by eapply Hnone.
  - intros j v s Hj Hv. apply list_lookup_insert_Some in Hj as [(<- & <- & _)|(_ & Hj)]; [|by eapply H9].
    rewrite Hh in Hv. by eapply H9.
Qed.

Lemma held_stage c i w s k :
  set_inv c -> c.1 !! i = Some w -> holding (s_pc w) = Some s -> owners !! k = Some s ->
  s ∈ accountLock c.2 /\ stage (s_pc w) k s c.2.
Proof.
  intros Hinv Hi Hs Hk. destruct (in_accounts c Hinv k s Hk) as [(j & v & Hj & Hv & Hin & Hst)|[Hnone _]].
  - destruct (decide (j = i)) as [->|Hne]; [by simplify_eq|]. by destruct (in_disjoint c Hinv j i v w s Hne Hj Hi Hv).
  - by destruct (Hnone i w Hi).
Qed.
(** A thread holds the account after the step. *)
Lemma account_held (ts : list (@set_thread Tx)) i w w' t' k s :
  ts !! i = Some w -> holding (s_pc w') = Some s -> s ∈ accountLock t' -> stage (s_pc w') k s t' ->
  account_ok (<[i := w']> ts, t') k s.
Proof.
  intros Hi Hs Hl Hst. left. exists i, w'. cbn. rewrite list_lookup_insert_eq by (by eapply lookup_lt_Some). done.
Qed.
(** No thread does. *)
Lemma nobody_holds c i w w' s :
  set_inv c -> c.1 !! i = Some w -> holding (s_pc w) = Some s -> holding (s_pc w') = None ->
  forall j v, <[i := w']> c.1 !! j = Some v -> holding (s_pc v) <> Some s.
Proof.
  intros Hinv Hi Hs Hn j v Hj. apply list_lookup_insert_Some in Hj as [(<- & <- & _)|(Hne & Hj)]; [congruence|].
  by eapply (in_disjoint c Hinv i j).
Qed.

Lemma same_elsewhere_refl s t : same_elsewhere s t t.
Proof. split; [|done]. intros k s' _ _. by split_and!. Qed.

(** ** The steps that change the set *)

Lemma store_ok c i w index n s :
  set_inv c -> c.1 !! i = Some w -> s_pc w = PeekStore index n s -> s ∉ accountLock c.2 ->
  set_inv (<[i := s_goto (PeekIncrement index n s) w]> c.1, set_lock ({[s]} ∪ accountLock c.2) c.2).
Proof.
  intros Hinv Hi Hp Hs. pose proof (in_read c Hinv i w Hi) as Hread. rewrite Hp in Hread. cbn in Hread.
  destruct (in_accounts c Hinv _ _ Hread) as [(j & v & _ & _ & Hin & _)|[Hnone [[_ Hrdy]|[Hin _]]]]; [done| |done].
  pose proof (list_elem_of_lookup_2 _ _ _ Hread) as Hso.
  eapply (set_inv_step c i w _ _ s); try done; cbn [s_pc s_goto holding].
  - right. by rewrite Hp.
  - by left.
  - split; [|done]. intros k s' _ Hne. cbn. split_and!; try done. set_solver.
  - apply (in_available c Hinv).
  - intros k tx Hk Htx. rewrite <- Hk. by apply (in_from c Hinv).
  - intros k _ Hk. by apply (in_head c Hinv).
  - apply (in_queues c Hinv).
  - intros k Hk. apply (account_held _ _ w); [done|done|cbn; set_solver|].
    rewrite (owner_unique _ _ _ Hread Hk). split; [exact Hrdy|done].
Qed.

Lemma increment_ok c i w index n s :
  set_inv c -> c.1 !! i = Some w -> s_pc w = PeekIncrement index n s ->
  set_inv (<[i := s_goto (PeekResult index n s) w]> c.1, set_index ((t_index c.2 + 1) mod 2 ^ 32) c.2).
Proof.
  intros Hinv Hi Hp. assert (holding (s_pc w) = Some s) as Hh by (by rewrite Hp).
  pose proof (in_holders c Hinv i w s Hi Hh) as Hso.
  eapply (set_inv_step c i w _ _ s); try done; cbn [s_pc s_goto holding].
  - by left.
  - by left.
  - apply (in_available c Hinv).
  - intros k tx Hk Htx. rewrite <- Hk. by apply (in_from c Hinv).
  - intros k _ Hk. by apply (in_head c Hinv).
  - apply (in_queues c Hinv).
  - intros k Hk. destruct (held_stage c i w s k Hinv Hi Hh Hk) as [Hl Hst]. rewrite Hp in Hst.
    apply (account_held _ _ w); done.
Qed.

Lemma handed_of_app s t tx :
  handed_of s (set_handed (handed t ++ [tx]) t) = handed_of s t ++ if decide (from tx = Some s) then [tx] else [].
Proof. unfold handed_of. cbn. rewrite filter_app. f_equal. Qed.

Lemma result_ok c i w index n s k tx :
  set_inv c -> c.1 !! i = Some w -> s_pc w = PeekResult index n s -> slot index n c.2 = k ->
  heads c.2 !! k = Some (Some tx) ->
  set_inv (<[i := s_goto (Working s) w]> c.1, set_handed (handed c.2 ++ [tx]) c.2).
Proof.
  intros Hinv Hi Hp Hslot Hhd. assert (holding (s_pc w) = Some s) as Hh by (by rewrite Hp).
  pose proof (in_holders c Hinv i w s Hi Hh) as Hso. pose proof Hso as [k' Hk']%list_elem_of_lookup.
  destruct (held_stage c i w s k' Hinv Hi Hh Hk') as [Hl Hst]. rewrite Hp in Hst. destruct Hst as [(Hav & tx' & Htx' & Hq) Hsl].
  rewrite Hslot in Hsl. subst k'. rewrite Hhd in Htx'. injection Htx' as <-.
  pose proof (in_from c Hinv k tx Hhd) as Hfrom. rewrite Hk' in Hfrom.
  eapply (set_inv_step c i w _ _ s); try done; cbn [s_pc s_goto holding].
  - by left.
  - by left.
  - split; [|done]. intros k2 s' _ Hne. split_and!; try done. rewrite handed_of_app, decide_False by congruence. apply app_nil_r.
  - apply (in_available c Hinv).
  - intros k2 tx2 Hk2 Htx2. rewrite <- Hk2. by apply (in_from c Hinv).
  - intros k2 _ Hk2. by apply (in_head c Hinv).
  - apply (in_queues c Hinv).
  - intros k2 Hk2. rewrite (owner_unique _ _ _ Hk' Hk2). apply (account_held _ _ w); [done|done|done|].
    split; [done|]. rewrite handed_of_app, decide_True by done. by rewrite <- app_assoc.
Qed.

Lemma shift_head_ok c i w k next rest s :
  set_inv c -> c.1 !! i = Some w -> s_pc w = ShiftHead k next rest s ->
  set_inv (<[i := s_goto (ShiftSet rest s) w]> c.1, set_heads (<[k := Some next]> (heads c.2)) c.2).
Proof.
  intros Hinv Hi Hp. assert (holding (s_pc w) = Some s) as Hh by (by rewrite Hp).
  pose proof (in_holders c Hinv i w s Hi Hh) as Hso. pose proof Hso as [k' Hk']%list_elem_of_lookup.
  destruct (held_stage c i w s k' Hinv Hi Hh Hk') as [Hl Hst]. rewrite Hp in Hst.
  destruct Hst as ([Hav Hq] & <- & Htx & Hfrom). rewrite Htx in Hq. cbn in Hq.
  assert (k < length (heads c.2))%nat as Hlt by (rewrite (in_heads c Hinv); by eapply lookup_lt_Some).
  eapply (set_inv_step c i w _ _ s); try done; cbn [s_pc s_goto holding].
  - by left.
  - by left.
  - split; [|cbn; unfold zlen; by rewrite length_insert]. intros k2 s' Hk2 Hne. cbn.
    rewrite list_lookup_insert_ne by (intros ->; congruence). by split_and!.
  - apply (in_available c Hinv).
  - intros k2 tx2 Hk2 Htx2. rewrite (owner_unique _ _ _ Hk' Hk2) in Htx2. cbn in Htx2.
    rewrite list_lookup_insert_eq in Htx2 by done. by injection Htx2 as <-.
  - intros k2 Hk2 _. rewrite (owner_unique _ _ _ Hk' Hk2). exists next. cbn. by apply list_lookup_insert_eq.
  - apply (in_queues c Hinv).
  - intros k2 Hk2. rewrite (owner_unique _ _ _ Hk' Hk2). apply (account_held _ _ w); [done|done|done|].
    split; [done|]. split; [|by exists next]. exists next. split; [cbn; by apply list_lookup_insert_eq|done].
Qed.

Lemma shift_set_ok c i w rest s :
  set_inv c -> c.1 !! i = Some w -> s_pc w = ShiftSet rest s ->
  set_inv (<[i := s_goto (ShiftUnlock s) w]> c.1, set_txs (<[s := rest]> (txs c.2)) c.2).
Proof.
  intros Hinv Hi Hp. assert (holding (s_pc w) = Some s) as Hh by (by rewrite Hp).
  pose proof (in_holders c Hinv i w s Hi Hh) as Hso. pose proof Hso as [k' Hk']%list_elem_of_lookup.
  destruct (held_stage c i w s k' Hinv Hi Hh Hk') as [Hl Hst]. rewrite Hp in Hst.
  eapply (set_inv_step c i w _ _ s); try done; cbn [s_pc s_goto holding].
  - by left.
  - by left.
  - split; [|done]. intros k2 s' Hk2 Hne. cbn. rewrite lookup_insert_ne by done. by split_and!.
  - apply (in_available c Hinv).
  - intros s' Hne. cbn. by rewrite lookup_insert_ne.
  - intros k2 tx2 Hk2 Htx2. rewrite <- Hk2. by apply (in_from c Hinv).
  - intros k2 _ Hk2. by apply (in_head c Hinv).
  - cbn. rewrite lookup_insert_eq. cbn. destruct Hst as (_ & _ & next & Hn). intros tx Htx.
    apply (in_queues c Hinv). rewrite Hn. cbn. by right.
  - intros k2 Hk2. rewrite (owner_unique _ _ _ Hk' Hk2). apply (account_held _ _ w); [done|done|done|].
    destruct Hst as (Hav & (tx & Hhd & Hq) & _). split; [done|]. exists tx. split; [done|]. cbn. by rewrite lookup_insert_eq.
Qed.

Lemma shift_unlock_ok c i w s :
  set_inv c -> c.1 !! i = Some w -> s_pc w = ShiftUnlock s ->
  set_inv (<[i := s_goto PeekStart w]> c.1, set_lock (accountLock c.2 ∖ {[s]}) c.2).
Proof.
  intros Hinv Hi Hp. assert (holding (s_pc w) = Some s) as Hh by (by rewrite Hp).
  pose proof (in_holders c Hinv i w s Hi Hh) as Hso. pose proof Hso as [k' Hk']%list_elem_of_lookup.
  destruct (held_stage c i w s k' Hinv Hi Hh Hk') as [Hl Hst]. rewrite Hp in Hst.
  eapply (set_inv_step c i w _ _ s); try done; cbn [s_pc s_goto holding].
  - by left.
  - by right.
  - split; [|done]. intros k2 s' Hk2 Hne. cbn. split_and!; try done. set_solver.
  - apply (in_available c Hinv).
  - intros k2 tx2 Hk2 Htx2. rewrite <- Hk2. by apply (in_from c Hinv).
  - intros k2 _ Hk2. by apply (in_head c Hinv).
  - apply (in_queues c Hinv).
  - intros k2 Hk2. rewrite (owner_unique _ _ _ Hk' Hk2). right. split; [by eapply nobody_holds|].
    left. split; [cbn; set_solver|exact Hst].
Qed.

Lemma remove_swap_ok c i w k s :
  set_inv c -> c.1 !! i = Some w -> s_pc w = RemoveSwap k s ->
  set_inv (<[i := s_goto (RemoveHead k s) w]> c.1, set_available (<[k := false]> (headsAvailable c.2)) c.2).
Proof.
  intros Hinv Hi Hp. assert (holding (s_pc w) = Some s) as Hh by (by rewrite Hp).
  pose proof (in_holders c Hinv i w s Hi Hh) as Hso. pose proof Hso as [k' Hk']%list_elem_of_lookup.
  destruct (held_stage c i w s k' Hinv Hi Hh Hk') as [Hl Hst]. rewrite Hp in Hst. destruct Hst as [[Hav Hq] <-].
  pose proof (lookup_lt_Some _ _ _ Hav) as Hlt.
  eapply (set_inv_step c i w _ _ s); try done; cbn [s_pc s_goto holding].
  - by left.
  - by left.
  - split; [|done]. intros k2 s' Hk2 Hne. cbn. rewrite list_lookup_insert_ne by (intros ->; congruence). by split_and!.
  - cbn. rewrite length_insert. apply (in_available c Hinv).
  - intros k2 Hk2 _. rewrite (owner_unique _ _ _ Hk' Hk2). cbn. by apply list_lookup_insert_eq.
  - intros k2 tx2 Hk2 Htx2. rewrite <- Hk2. by apply (in_from c Hinv).
  - intros k2 Hk2. rewrite (owner_unique _ _ _ Hk' Hk2). cbn. by rewrite list_lookup_insert_eq.
  - apply (in_queues c Hinv).
  - intros k2 Hk2. rewrite (owner_unique _ _ _ Hk' Hk2). apply (account_held _ _ w); [done|done|done|].
    split; [|done]. split; [cbn; by apply list_lookup_insert_eq|]. rewrite Hq. by eexists.
Qed.

Lemma remove_head_ok c i w k s :
  set_inv c -> c.1 !! i = Some w -> s_pc w = RemoveHead k s ->
  set_inv (<[i := s_goto PeekStart w]> c.1, set_heads (<[k := None]> (heads c.2)) c.2).
Proof.
  intros Hinv Hi Hp. assert (holding (s_pc w) = Some s) as Hh by (by rewrite Hp).
  pose proof (in_holders c Hinv i w s Hi Hh) as Hso. pose proof Hso as [k' Hk']%list_elem_of_lookup.
  destruct (held_stage c i w s k' Hinv Hi Hh Hk') as [Hl Hst]. rewrite Hp in Hst. destruct Hst as [Hrm <-].
  assert (k < length (heads c.2))%nat as Hlt by (rewrite (in_heads c Hinv); by eapply lookup_lt_Some).
  eapply (set_inv_step c i w _ _ s); try done; cbn [s_pc s_goto holding].
  - by left.
  - by right.
  - split; [|cbn; unfold zlen; by rewrite length_insert]. intros k2 s' Hk2 Hne. cbn.
    rewrite list_lookup_insert_ne by (intros ->; congruence). by split_and!.
  - apply (in_available c Hinv).
  - intros k2 tx2 Hk2 Htx2. rewrite (owner_unique _ _ _ Hk' Hk2) in Htx2. cbn in Htx2.
    by rewrite list_lookup_insert_eq in Htx2.
  - intros k2 Hk2 Ha2. rewrite (owner_unique _ _ _ Hk' Hk2) in Ha2. cbn in Ha2. rewrite (proj1 Hrm) in Ha2. done.
  - apply (in_queues c Hinv).
  - intros k2 Hk2. rewrite (owner_unique _ _ _ Hk' Hk2). right. split; [by eapply nobody_holds|]. by right.
Qed.

(** ** All steps *)

Lemma slot_bound index n t : heads t <> [] -> (slot index n t < length (heads t))%nat.
Proof.
  intros Hne. unfold slot, zlen. destruct (heads t) as [|h l]; [done|].
  pose proof (Z.mod_pos_bound (index + Z.of_nat n) (Z.of_nat (length (h :: l)))). cbn [length] in *. lia.
Qed.

(** A crash is an index or a nil error; only the look at a head that another
    thread has removed can cause one. *)
Definition looks_at_head p : Prop := match p with PeekHead _ _ => True | _ => False end.

Lemma Peek_step_ok c i w w' t' :
  set_inv c -> c.1 !! i = Some w -> Peek_step from (s_pc w) c.2 = (s_pc w', t') -> script w' = script w ->
  match s_pc w with
  | PeekStart | PeekAvailable _ _ | PeekHead _ _ | PeekLoad _ _ _ | PeekStore _ _ _ | PeekIncrement _ _ _
  | PeekResult _ _ _ => True | _ => False end ->
  set_inv (<[i := w']> c.1, t') /\ (s_pc w' = Crashed -> looks_at_head (s_pc w)).
Proof.
  intros Hinv Hi Hst Hsc Hp. destruct w as [sc p], w' as [sc' p']. cbn in Hsc. subst sc'. cbn [s_pc] in *.
  assert (forall p2, holding p2 = None -> holding p = None -> read_ok p2 c.2 ->
    set_inv (<[i := mkSetThread sc p2]> c.1, c.2)) as Hquiet.
  { intros p2 Hh2 Hh Hr. eapply (set_inv_quiet c i (mkSetThread sc p)); try done; cbn; congruence. }
  destruct p; try done; cbn in Hst.
  - injection Hst as <- <-. split; [by apply Hquiet|done].
  - destruct (Nat.leb_spec (length (heads c.2)) i0) as [|Hlt]; [injection Hst as <- <-; split; [by apply Hquiet|done]|].
    assert (slot index i0 c.2 < length (headsAvailable c.2))%nat as Hs.
    { rewrite (in_available c Hinv), <- (in_heads c Hinv). apply slot_bound. intros He. rewrite He in Hlt. cbn in Hlt. lia. }
    apply lookup_lt_is_Some in Hs as [b Hb]. rewrite Hb in Hst. destruct b; injection Hst as <- <-; (split; [by apply Hquiet|done]).
  - destruct (heads c.2 !! slot index i0 c.2) as [[tx|]|] eqn:Hhd; [|injection Hst as <- <-; split; [by apply Hquiet|done]..].
    pose proof (in_from c Hinv _ _ Hhd) as Hf. destruct (from tx) as [s|]; injection Hst as <- <-; (split; [by apply Hquiet|done]).
  - pose proof (in_read c Hinv i _ Hi) as Hr. cbn in Hr. injection Hst as <- <-. case_decide; (split; [by apply Hquiet|done]).
  - case_decide; injection Hst as <- <-; [split; [by apply Hquiet|done]|]. split; [|done].
    by apply (store_ok c i (mkSetThread sc (PeekStore index i0 s)) index i0 s).
  - injection Hst as <- <-. split; [|done]. by apply (increment_ok c i (mkSetThread sc (PeekIncrement index i0 s)) index i0 s).
  - assert (s ∈ owners) as [k Hk]%list_elem_of_lookup by (by apply (in_holders c Hinv i _ s Hi)).
    destruct (held_stage c i _ s k Hinv Hi eq_refl Hk) as [_ [(_ & tx & Hhd & _) Hsl]]. cbn in Hsl. rewrite Hsl, Hhd in Hst.
    injection Hst as <- <-. split; [|done]. by apply (result_ok c i (mkSetThread sc (PeekResult index i0 s)) index i0 s k).
Qed.

Lemma Find_step_ok c i w w' t' :
  set_inv c -> c.1 !! i = Some w -> Find_step from (s_pc w) c.2 = (s_pc w', t') -> script w' = script w ->
  match s_pc w with FindHead _ _ _ | FindAvailable _ _ _ _ => True | _ => False end ->
  set_inv (<[i := w']> c.1, t') /\ s_pc w' <> Crashed.
Proof.
  intros Hinv Hi Hst Hsc Hp. destruct w as [sc p], w' as [sc' p']. cbn in Hsc. subst sc'. cbn [s_pc] in *.
  assert (exists s, holding p = Some s) as [s Hh] by (destruct p; try done; by eexists).
  assert (s ∈ owners) as [k Hk]%list_elem_of_lookup by (by apply (in_holders c Hinv i _ s Hi)).
  destruct (held_stage c i _ s k Hinv Hi Hh Hk) as [_ Hstage]. cbn [s_pc] in Hstage.
  assert (forall p2, holding p2 = Some s -> read_ok p2 c.2 -> stage p2 k s c.2 ->
    set_inv (<[i := mkSetThread sc p2]> c.1, c.2)) as Hquiet.
  { intros p2 Hh2 Hr Hs2. eapply (set_inv_quiet c i (mkSetThread sc p)); try done; cbn; [congruence|].
    intros k2 s2 Hk2 Hs2' _. rewrite Hh in Hs2'. injection Hs2' as <-. by rewrite (owner_unique _ _ _ Hk Hk2). }
  destruct p; try done; cbn in Hst, Hh, Hstage; injection Hh as ->; destruct Hstage as [Hbusy Hj].
  - assert (j < length (heads c.2))%nat as [hd Hhd]%lookup_lt_is_Some.
    { rewrite (in_heads c Hinv). apply lookup_lt_Some in Hk. lia. }
    rewrite Hhd in Hst. injection Hst as <- <-. split; [|done]. apply Hquiet; [done| |by split].
    cbn. destruct hd as [tx|]; [by apply (in_from c Hinv)|].
    assert (j < length (headsAvailable c.2))%nat as [b Hb]%lookup_lt_is_Some.
    { rewrite (in_available c Hinv). apply lookup_lt_Some in Hk. lia. }
    destruct b; [|done]. destruct (in_head c Hinv j Hb) as [tx Htx]. congruence.
  - pose proof (in_read c Hinv i _ Hi) as Hr. cbn in Hr.
    assert (j <> k -> (S j <= k)%nat) as Hnext by lia.
    assert (j < length (headsAvailable c.2))%nat as [b Hb]%lookup_lt_is_Some.
    { rewrite (in_available c Hinv). apply lookup_lt_Some in Hk. lia. }
    rewrite Hb in Hst. destruct b.
    + destruct head as [tx|]; [|congruence]. rewrite Hr in Hst.
      destruct (owners !! j) as [sj|] eqn:Hsj.
      2: { apply lookup_lt_Some in Hb. rewrite (in_available c Hinv) in Hb. apply lookup_lt_is_Some in Hb. rewrite Hsj in Hb. by destruct Hb. }
      cbn in Hst. destruct (Z.eqb_spec sj s) as [->|Hne].
      * pose proof (owner_unique _ _ _ Hk Hsj) as ->. destruct for_; injection Hst as <- <-; (split; [|done]; by apply Hquiet).
      * injection Hst as <- <-. split; [|done]. apply Hquiet; [done|done|]. split; [done|]. apply Hnext. congruence.
    + injection Hst as <- <-. split; [|done]. apply Hquiet; [done|done|]. split; [done|]. apply Hnext. intros ->.
      destruct Hbusy as [Hav _]. congruence.
Qed.

(** A thread that changes its own place only, on the account it holds. *)
Lemma set_inv_goto c i w p2 s k :
  set_inv c -> c.1 !! i = Some w -> holding (s_pc w) = Some s -> owners !! k = Some s ->
  holding p2 = Some s -> read_ok p2 c.2 -> stage p2 k s c.2 -> forall sc, set_inv (<[i := mkSetThread sc p2]> c.1, c.2).
Proof.
  intros Hinv Hi Hh Hk Hh2 Hr Hs2 sc. eapply (set_inv_quiet c i w); try done; cbn; [congruence|].
  intros k2 s2 Hk2 Hs2' _. rewrite Hh in Hs2'. injection Hs2' as <-. by rewrite (owner_unique _ _ _ Hk Hk2).
Qed.

Lemma worker_step_ok c i w w' t' :
  set_inv c -> c.1 !! i = Some w -> worker_step from w c.2 = Some (w', t') ->
  set_inv (<[i := w']> c.1, t') /\ (s_pc w' = Crashed -> looks_at_head (s_pc w)).
Proof.
  intros Hinv Hi Hst. unfold worker_step in Hst.
  assert (forall s, holding (s_pc w) = Some s -> exists k, owners !! k = Some s /\ stage (s_pc w) k s c.2) as Hstage.
  { intros s Hs. assert (s ∈ owners) as [k Hk]%list_elem_of_lookup by (by apply (in_holders c Hinv i w s Hi)).
    exists k. split; [done|]. by apply (held_stage c i w s k). }
  destruct w as [sc p]. cbn [s_pc script] in *. destruct p; try done;
    try (destruct (Peek_step from _ c.2) as [p1 t1] eqn:Hp; injection Hst as <- <-;
         by apply (Peek_step_ok c i _ (s_goto p1 _) t1 Hinv Hi Hp));
    try (destruct (Find_step from _ c.2) as [p1 t1] eqn:Hp; injection Hst as <- <-;
         lazymatch type of Hi with _ = Some ?w =>
           destruct (Find_step_ok c i w (s_goto p1 w) t1 Hinv Hi Hp eq_refl I) as [? Hn] end;
         split; [done|]; intros Hc; by destruct (Hn Hc)).
  - destruct sc as [|b sc]; [done|]. injection Hst as <- <-. split; [|by destruct b].
    destruct (Hstage _ eq_refl) as (k & Hk & Hs). eapply (set_inv_goto c i _ _ s k); try done. split; [exact Hs|lia].
  - destruct (Hstage _ eq_refl) as (k' & Hk & [Hb ->]). cbn in Hst. injection Hst as <- <-. split; [|by repeat case_match].
    destruct (txs c.2 !! s) as [[|next rest]|] eqn:Htx;
      (eapply (set_inv_goto c i _ _ s k'); try done); [split; [exact Hb|lia]| |split; [exact Hb|lia]].
    split_and!; try done; try apply Hb. apply (in_queues c Hinv). rewrite Htx. by left.
  - cbn in Hst. injection Hst as <- <-. split; [|done]. by eapply shift_head_ok.
  - cbn in Hst. injection Hst as <- <-. split; [|done]. by eapply shift_set_ok.
  - cbn in Hst. injection Hst as <- <-. split; [|done]. by eapply shift_unlock_ok.
  - destruct (Hstage _ eq_refl) as (k' & Hk & [[Hav Hq] ->]). cbn in Hst. rewrite Hav in Hst. injection Hst as <- <-.
    split; [|done]. by eapply remove_swap_ok.
  - cbn in Hst. injection Hst as <- <-. split; [|done]. by eapply remove_head_ok.
Qed.

Lemma set_inv_run sched c c' :
  set_inv c -> run_schedule (worker_step from) sched c = Some c' -> set_inv c'.
Proof.
  apply (run_schedule_ind (worker_step from) set_inv). intros i c1 w w' t' Hinv Hi Hst.
  by apply (worker_step_ok c1 i w w' t').
Qed.
End set_invariant.

(** ** The start *)

Section start.
Context {Tx : Type} (from : Tx -> option Address) (price : Tx -> Z).

(** The pending transactions as the pool gives them: a queue that is not empty
    for every account, of transactions the account has signed. *)
Abbreviation pending := (list (Address * list Tx)) (only parsing).
Definition pending_ok (l : pending) : Prop :=
  NoDup l.*1 /\ forall s q, (s, q) ∈ l -> q <> [] /\ Forall (fun tx => from tx = Some s) q.
Definition queue_of (l : pending) (s : Address) : list Tx := default [] ((list_to_map l : gmap Z (list Tx)) !! s).

Lemma pending_heads l hs :
  pending_ok l -> mapM head l.*2 = Some hs ->
  map from hs = map Some l.*1 /\
  zip_with (fun x (q : list Tx) => (default 0 (from x), tail q)) hs l.*2 = prod_map id tail <$> l /\
  (forall k s q, l !! k = Some (s, q) -> exists tx, hs !! k = Some tx /\ q = tx :: tail q).
Proof.
  intros [_ Hq]. revert hs. induction l as [|[s q] l IH]; intros hs Hm; cbn in Hm.
  { injection Hm as <-. split_and!; [done..|]. by intros k s q. }
  destruct (Hq s q ltac:(left)) as [Hne Hf]. destruct q as [|tx q]; [done|]. cbn in Hm.
  destruct (mapM head l.*2) as [hs'|]; [|done]. injection Hm as <-.
  destruct (IH ltac:(intros; apply Hq; by right) hs' eq_refl) as (H1 & H2 & H3).
  pose proof (Forall_inv Hf) as Hs. cbn in Hs. cbn. rewrite Hs. split_and!; [by f_equal|cbn; by f_equal|].
  intros [|k] s' q' Hk; [|by apply (H3 k s')]. injection Hk as <- <-. by exists tx.
Qed.

(** The threads before their first [Peek]. *)
Definition start_threads (scripts : list (list bool)) : list (@set_thread Tx) :=
  map (fun sc => mkSetThread sc PeekStart) scripts.
Definition owners_of (t : @tx_set Tx) : list Address :=
  map (fun h => default 0 (h ≫= from)) (heads t).

Lemma start_pc scripts i w : start_threads scripts !! i = Some w -> s_pc w = PeekStart.
Proof. unfold start_threads. intros Hi. rewrite list_lookup_fmap in Hi. destruct (scripts !! i); by simplify_eq/=. Qed.

Lemma queue_of_lookup l s q : pending_ok l -> (s, q) ∈ l -> queue_of l s = q.
Proof. intros [Hnd _] Hin. unfold queue_of. by rewrite (elem_of_list_to_map_1 _ _ _ Hnd Hin). Qed.
Lemma tails_lookup l s q :
  pending_ok l -> (s, q) ∈ l -> (list_to_map (prod_map id tail <$> l) : gmap Z (list Tx)) !! s = Some (tail q).
Proof.
  intros [Hnd _] Hin. apply elem_of_list_to_map_1.
  - by rewrite <- list_fmap_compose.
  - apply list_elem_of_fmap. by exists (s, q).
Qed.

(** Every head is the first transaction of the queue of its sender. *)
Lemma start_heads l t :
  pending_ok l -> NewTransactionsByPriceAndNonce from price l.*2 = Some t ->
  owners_of t ≡ₚ l.*1 /\ txs t = list_to_map (prod_map id tail <$> l) /\
  accountLock t = ∅ /\ headsAvailable t = replicate (length (heads t)) true /\ handed t = [] /\
  forall k h, heads t !! k = Some h -> exists tx s, h = Some tx /\ from tx = Some s /\ (s, tx :: tail (queue_of l s)) ∈ l.
Proof.
  intros Hl Ht. unfold NewTransactionsByPriceAndNonce in Ht. destruct (mapM _ l.*2) as [hs|] eqn:Hm; [|done].
  cbn in Ht. injection Ht as <-. destruct (pending_heads l hs Hl Hm) as (Hfrom & Hz & Hq).
  pose proof (heap_Init_perm (TxByPrice_Less price) hs) as Hperm. unfold owners_of.
  cbn [heads txs accountLock headsAvailable handed]. rewrite Hz. split_and!; try done.
  - rewrite map_map. cbn. rewrite (Permutation_map (fun x => default 0 (from x)) Hperm).
    rewrite <- (map_map from (default 0)), Hfrom, map_map. cbn. by rewrite map_id.
  - by rewrite length_map.
  - intros k h Hk. apply list_elem_of_lookup_2 in Hk. apply list_elem_of_fmap in Hk as (tx & -> & Hin).
    rewrite Hperm in Hin. apply list_elem_of_lookup in Hin as [j Hj].
    assert (map from hs !! j = Some (from tx)) as Hf by (by rewrite list_lookup_fmap, Hj).
    rewrite Hfrom, list_lookup_fmap, list_lookup_fmap in Hf. destruct (l !! j) as [[s q]|] eqn:Hlj; cbn in Hf; [|discriminate Hf].
    injection Hf as Hf. destruct (Hq j s q Hlj) as (tx' & Hj' & Heq). rewrite Hj in Hj'. injection Hj' as <-.
    apply list_elem_of_lookup_2 in Hlj. exists tx, s. split; [done|]. split; [done|].
    rewrite (queue_of_lookup l s q Hl Hlj). by rewrite <- Heq.
Qed.

Lemma start_inv l t scripts :
  pending_ok l -> NewTransactionsByPriceAndNonce from price l.*2 = Some t ->
  NoDup (owners_of t) /\ set_inv from (owners_of t) (queue_of l) (start_threads scripts, t).
Proof.
  intros Hl Ht. destruct (start_heads l t Hl Ht) as (Hown & Htxs & Hlock & Hav & Hhd & Hheads).
  assert (forall k tx, heads t !! k = Some (Some tx) -> from tx = owners_of t !! k) as Hfrom.
  { intros k tx Hk. unfold owners_of. rewrite list_lookup_fmap, Hk. cbn.
    destruct (Hheads k _ Hk) as (tx' & s & [= <-] & Hs & _). by rewrite Hs. }
  split; [rewrite Hown; apply Hl|]. split; cbn [fst snd].
  - unfold owners_of. by rewrite length_map.
  - rewrite Hav, length_replicate. unfold owners_of. by rewrite length_map.
  - done.
  - intros k Hk. rewrite Hav in Hk. apply lookup_replicate in Hk as [_ [h Hh]%lookup_lt_is_Some].
    destruct (Hheads k h Hh) as (tx & s & -> & _). by exists tx.
  - intros s tx Hin. rewrite Htxs in Hin. destruct (list_to_map _ !! s) as [q|] eqn:Hq; [|by apply not_elem_of_nil in Hin].
    apply elem_of_list_to_map_2, list_elem_of_fmap in Hq as ([s' q'] & [= -> ->] & Hin').
    destruct (proj2 Hl _ _ Hin') as [_ Hf]. rewrite Forall_forall in Hf. apply Hf. destruct q'; [done|by right].
  - intros i w Hi. by rewrite (start_pc scripts i w Hi).
  - intros i j w w' s _ Hi _. by rewrite (start_pc scripts i w Hi).
  - intros k s Hk. right. split; [intros i w Hi; by rewrite (start_pc scripts i w Hi)|].
    left. cbn. rewrite Hlock. split; [apply not_elem_of_empty|].
    assert (k < length (heads t))%nat as Hlt.
    { apply lookup_lt_Some in Hk. unfold owners_of in Hk. by rewrite length_map in Hk. }
    pose proof Hlt as [h Hh]%lookup_lt_is_Some. destruct (Hheads k h Hh) as (tx & s' & -> & Hs' & Hin).
    pose proof (Hfrom k tx Hh) as Hf. rewrite Hs', Hk in Hf. injection Hf as ->.
    split; [rewrite Hav; by apply lookup_replicate_2|]. exists tx. split; [done|].
    rewrite (queue_of_lookup l s _ Hl Hin) at 1. rewrite Htxs, (tails_lookup l s _ Hl Hin).
    unfold handed_of. by rewrite Hhd.
  - intros i w s Hi. by rewrite (start_pc scripts i w Hi).
Qed.
End start.

(** ** What the threads may rely on *)

Lemma account_prefix {Tx} from queue (c : Schedule.config (@set_thread Tx) (@tx_set Tx)) k s :
  account_ok from queue c k s -> handed_of from s c.2 `prefix_of` queue s.
Proof.
  assert (forall k t, ready from queue k s t -> handed_of from s t `prefix_of` queue s) as Hready.
  { intros k' t (_ & tx & _ & ->). by apply prefix_app_r. }
  assert (forall k t, busy from queue k s t -> handed_of from s t `prefix_of` queue s) as Hbusy.
  { intros k' t (_ & ->). by apply prefix_app_r. }
  intros [(i & w & _ & _ & _ & Hst)|[_ [[_ Hr]|[_ [_ Hr]]]]]; [|by eapply Hready|done].
  destruct (s_pc w); cbn in Hst; try done; try (by eapply Hready, Hst); try (by eapply Hbusy, Hst).
  - destruct Hst as (_ & (tx & _ & ->) & _). by apply prefix_app_r.
  - by destruct Hst as [[_ ?] _].
Qed.

Section threads.
Context {Tx : Type} (from : Tx -> option Address) (price : Tx -> Z).
Implicit Types (l : list (Address * list Tx)).

Lemma reachable_inv l t scripts sched c :
  pending_ok from l -> NewTransactionsByPriceAndNonce from price l.*2 = Some t ->
  run_schedule (worker_step from) sched (start_threads scripts, t) = Some c ->
  NoDup (owners_of from t) /\ owners_of from t ≡ₚ l.*1 /\ set_inv from (owners_of from t) (queue_of l) c.
Proof.
  intros Hl Ht Hrun. destruct (start_inv from price l t scripts Hl Ht) as [Hnd Hinv]. split; [done|].
  split; [by apply (start_heads from price l t Hl Ht)|]. by eapply set_inv_run.
Qed.

(** C17. However the miner's threads are scheduled, no two of them work on the
    transactions of one account at the same time: from the moment [Peek] marks
    the account of a head until [Shift] releases it, or [Remove] retires it,
    the account belongs to one thread. *)
Theorem accounts_exclusive l t scripts sched c i j w w' s :
  pending_ok from l -> NewTransactionsByPriceAndNonce from price l.*2 = Some t ->
  run_schedule (worker_step from) sched (start_threads scripts, t) = Some c ->
  i <> j -> c.1 !! i = Some w -> c.1 !! j = Some w' ->
  holding (s_pc w) = Some s -> holding (s_pc w') <> Some s.
Proof.
  intros Hl Ht Hrun. destruct (reachable_inv l t scripts sched c Hl Ht Hrun) as (_ & _ & Hinv). apply (in_disjoint _ _ _ _ Hinv).
Qed.

(** C18. However the miner's threads are scheduled, the transactions of an
    account that [Peek] has handed out, by whichever thread, are a prefix of
    the account's queue: none is skipped, none handed out twice, and they come
    in the order of the queue. *)
Theorem handed_in_order l t scripts sched c s q :
  pending_ok from l -> NewTransactionsByPriceAndNonce from price l.*2 = Some t ->
  run_schedule (worker_step from) sched (start_threads scripts, t) = Some c ->
  (s, q) ∈ l -> handed_of from s c.2 `prefix_of` q.
Proof.
  intros Hl Ht Hrun Hin. destruct (reachable_inv l t scripts sched c Hl Ht Hrun) as (_ & Hown & Hinv).
  assert (s ∈ owners_of from t) as [k Hk]%list_elem_of_lookup.
  { rewrite Hown. apply list_elem_of_fmap. by exists (s, q). }
  rewrite <- (queue_of_lookup from l s q Hl Hin). eapply account_prefix. by apply (in_accounts _ _ _ _ Hinv).
Qed.

(** A thread of the miner can crash in one place only, where [Peek] reads
    the sender of a head: the searches and the updates of [Shift] and [Remove]
    never use an index out of range or a head that is gone. *)
Theorem crash_only_in_Peek l t scripts sched c i w w' t' :
  pending_ok from l -> NewTransactionsByPriceAndNonce from price l.*2 = Some t ->
  run_schedule (worker_step from) sched (start_threads scripts, t) = Some c ->
  c.1 !! i = Some w -> worker_step from w c.2 = Some (w', t') ->
  s_pc w' = Crashed -> looks_at_head (s_pc w).
Proof.
  intros Hl Ht Hrun Hi Hst. destruct (reachable_inv l t scripts sched c Hl Ht Hrun) as (Hnd & _ & Hinv).
  by eapply worker_step_ok.
Qed.
End threads.

(** ** Schedules *)

(** Transactions given by their sender and their price; two accounts. *)
Definition demo_from (tx : Z * Z) : option Address := Some tx.1.
Definition demo_price (tx : Z * Z) : Z := tx.2.
Definition demo_pending : list (Address * list (Z * Z)) := [(1, [(1, 20); (1, 90)]); (2, [(2, 50)])].
Definition demo_set : @tx_set (Z * Z) :=
  default (mkSet ∅ [] ∅ [] 0 []) (NewTransactionsByPriceAndNonce demo_from demo_price demo_pending.*2).

Lemma demo_pending_ok : pending_ok demo_from demo_pending.
Proof.
  split.
  - apply NoDup_cons. split; [set_solver|]. apply NoDup_singleton.
  - intros s q Hin. unfold demo_pending in Hin. rewrite !elem_of_cons, elem_of_nil in Hin.
    destruct Hin as [[= -> ->]|[[= -> ->]|[]]]; (split; [done|by repeat constructor]).
Qed.

(** Both threads have a transaction, then thread 1 shifts the next one of
    account 1 in and takes it. *)
Definition demo_schedule : list nat :=
  repeat 0%nat 7 ++ repeat 1%nat 26.
Definition demo_scripts : list (list bool) := [[true]; [true; false]].
Definition demo_config :=
  default ([], demo_set) (run_schedule (worker_step demo_from) demo_schedule (start_threads demo_scripts, demo_set)).

Lemma demo_starts : NewTransactionsByPriceAndNonce demo_from demo_price demo_pending.*2 = Some demo_set.
Proof. vm_compute. reflexivity. Qed.
Lemma demo_runs :
  run_schedule (worker_step demo_from) demo_schedule (start_threads demo_scripts, demo_set) = Some demo_config.
Proof. vm_compute. reflexivity. Qed.
Definition demo_thread (i : nat) : @set_thread (Z * Z) := default (mkSetThread [] Crashed) (demo_config.1 !! i).
Lemma demo_threads : demo_config.1 !! 0%nat = Some (demo_thread 0) /\ demo_config.1 !! 1%nat = Some (demo_thread 1).
Proof. split; vm_compute; reflexivity. Qed.

Lemma accounts_exclusive_witness :
  holding (s_pc (demo_thread 0)) = Some 2 /\ holding (s_pc (demo_thread 1)) <> Some 2.
Proof.
  split; [vm_compute; reflexivity|].
  apply (accounts_exclusive demo_from demo_price demo_pending demo_set demo_scripts demo_schedule demo_config
    0 1 (demo_thread 0) (demo_thread 1) 2 demo_pending_ok demo_starts demo_runs ltac:(discriminate)
    (proj1 demo_threads) (proj2 demo_threads)).
  vm_compute. reflexivity.
Defined.
Lemma handed_in_order_witness :
  handed_of demo_from 1 demo_config.2 = [(1, 20); (1, 90)] /\
  handed_of demo_from 1 demo_config.2 `prefix_of` [(1, 20); (1, 90)].
Proof.
  split; [vm_compute; reflexivity|].
  apply (handed_in_order demo_from demo_price demo_pending demo_set demo_scripts demo_schedule demo_config
    1 [(1, 20); (1, 90)] demo_pending_ok demo_starts demo_runs). left.
Defined.

(** Thread 0 finds the head of account 2 available; before it reads the head,
    thread 1 takes the account and removes it. *)
Definition race_schedule : list nat := repeat 0%nat 2 ++ repeat 1%nat 12.
Definition race_scripts : list (list bool) := [[]; [false]].
Definition race_config :=
  default ([], demo_set) (run_schedule (worker_step demo_from) race_schedule (start_threads race_scripts, demo_set)).
Lemma race_runs :
  run_schedule (worker_step demo_from) race_schedule (start_threads race_scripts, demo_set) = Some race_config.
Proof. vm_compute. reflexivity. Qed.
Definition race_thread : @set_thread (Z * Z) := mkSetThread [] (PeekHead 0 0).
Definition race_crashed : @set_thread (Z * Z) := mkSetThread [] Crashed.
Lemma race_step :
  race_config.1 !! 0%nat = Some race_thread /\ worker_step demo_from race_thread race_config.2 = Some (race_crashed, race_config.2).
Proof. split; vm_compute; reflexivity. Qed.

Lemma crash_only_in_Peek_witness : looks_at_head (s_pc race_thread).
Proof.
  exact (crash_only_in_Peek demo_from demo_price demo_pending demo_set race_scripts race_schedule race_config
    0 race_thread race_crashed race_config.2 demo_pending_ok demo_starts race_runs (proj1 race_step) (proj2 race_step) eq_refl).
Defined.

(** And there it does crash: a thread that finds a head available in [Peek]
    and is overtaken by a thread that takes and removes that account then
    dereferences the nil head. *)
Theorem Peek_races_with_Remove :
  exists c, run_schedule (worker_step demo_from) (race_schedule ++ [0%nat]) (start_threads race_scripts, demo_set) = Some c /\
    c.1 !! 0%nat = Some (mkSetThread [] Crashed).
Proof. eexists. split; vm_compute; reflexivity. Qed.
