(* ===== verification/GasPool.v ===== *)
(** * The gas pool under threads

    Models [core/gaspool.go] as the threads of the miner use it: a transaction
    takes its gas limit from the pool with a loop around compare-and-swap and
    later adds back what it did not use. The check of [AddGas] reads the pool
    before the atomic addition, in a step of its own. *)

From S2P Require Import Prelude Schedule.
Local Open Scope Z_scope.

Inductive gas_pc : Type :=
| Loading               (* before the load of SubGas *)
| Swapping (gaspool : Z) (* before the compare-and-swap *)
| LimitReached          (* SubGas has returned ErrGasLimitReached *)
| Executing             (* before the check of AddGas *)
| AddingBack            (* before the addition of AddGas *)
| Overflowed            (* AddGas has panicked *)
| Finished.

(** A transaction: its gas limit and what it will add back. *)
Record gas_thread : Type := mkGasThread {
  take : Z;
  back : Z;
  g_pc : gas_pc;
}.
Definition g_goto (p : gas_pc) (t : gas_thread) : gas_thread := mkGasThread (take t) (back t) p.

Definition GasPool_step (t : gas_thread) (pool : Z) : option (gas_thread * Z) :=
  match g_pc t with
  | Loading => Some (g_goto (if pool <? take t then LimitReached else Swapping pool) t, pool)
  | Swapping gaspool =>
      Some (if pool =? gaspool then (g_goto Executing t, gaspool - take t) else (g_goto Loading t, pool))
  | Executing => Some (g_goto (if MaxUint64 - back t <? pool then Overflowed else AddingBack) t, pool)
  | AddingBack => Some (g_goto Finished t, u64 (pool + back t))
  | LimitReached | Overflowed | Finished => None
  end.
Abbreviation run_pool := (run_schedule GasPool_step).

(** The gas a transaction keeps from the pool. *)
Definition kept (t : gas_thread) : Z :=
  match g_pc t with
  | Executing | AddingBack => take t
  | Finished => take t - back t
  | _ => 0
  end.
Definition thread_ok (t : gas_thread) : Prop :=
  0 <= back t <= take t /\ g_pc t <> Overflowed /\
  match g_pc t with Swapping v => take t <= v | _ => True end.
Record pool_inv (init : Z) (c : config gas_thread Z) : Prop := {
  pi_threads : Forall thread_ok c.1;
  pi_pool : c.2 + zsum kept c.1 = init;
  pi_range : 0 <= c.2;
}.

Lemma kept_nonneg ts : Forall thread_ok ts -> Forall (fun t => 0 <= kept t) ts.
Proof. intros Ht. apply (Forall_impl _ _ _ Ht). intros t (Hb & _). unfold kept. destruct (g_pc t); lia. Qed.

Lemma pool_inv_step init i c t t' m' :
  is_u64 init -> pool_inv init c -> c.1 !! i = Some t -> GasPool_step t c.2 = Some (t', m') ->
  pool_inv init (<[i := t']> c.1, m').
Proof.
  intros Hu [Hts Hp Hr] Hi Hst. destruct c as [ts pool]. cbn [fst snd] in *.
  pose proof (Forall_lookup_1 _ _ _ _ Hts Hi) as Ht. pose proof Ht as (Hb & Hov & Hsw).
  pose proof (zsum_lookup kept ts i t (kept_nonneg _ Hts) Hi) as Hk.
  pose proof (zsum_nonneg kept ts (kept_nonneg _ Hts)) as Hk0. unfold is_u64, MaxUint64 in *.
  assert (thread_ok t' /\ m' + (kept t' - kept t) = pool /\ 0 <= m') as (Hok & Hm & Hm0).
  { destruct t as [tk bk p]. unfold GasPool_step, thread_ok, kept, g_goto in *. cbn in *.
    destruct p; try done.
    - injection Hst as <- <-. destruct (Z.ltb_spec pool tk); cbn; split_and!; try done; lia.
    - destruct (Z.eqb_spec pool gaspool); injection Hst as <- <-; cbn; split_and!; try done; lia.
    - unfold MaxUint64 in Hst. injection Hst as <- <-. destruct (Z.ltb_spec (2 ^ 64 - 1 - bk) pool); [lia|].
      cbn. split_and!; try done; lia.
    - injection Hst as <- <-. cbn. rewrite u64_id by (unfold is_u64; lia). split_and!; try done; lia. }
  split; cbn [fst snd]; [by apply Forall_insert| |done]. rewrite (zsum_insert _ _ _ t t' Hi). lia.
Qed.

Lemma pool_inv_run init sched c c' :
  is_u64 init -> pool_inv init c -> run_pool sched c = Some c' -> pool_inv init c'.
Proof. intros Hu. apply (run_schedule_ind GasPool_step (pool_inv init)). eauto using pool_inv_step. Qed.

(** ** Progress *)

(** How often a thread will still change the pool, and how many steps it is
    from the next change if nobody interferes. *)
Definition changes (t : gas_thread) : nat :=
  match g_pc t with
  | Loading | Swapping _ => 2
  | Executing | AddingBack => 1
  | _ => 0
  end.
Definition steps_left (pool : Z) (t : gas_thread) : nat :=
  match g_pc t with
  | Loading => 2
  | Swapping v => if v =? pool then 1 else 3
  | Executing => 1
  | _ => 0
  end.
(** A bound on the steps of all the threads together. *)
Definition work (c : config gas_thread Z) : nat :=
  nsum changes c.1 * (3 * length c.1 + 1) + nsum (steps_left c.2) c.1.

Lemma steps_left_bound pool ts : (nsum (steps_left pool) ts <= 3 * length ts)%nat.
Proof.
  induction ts as [|t ts IH]; cbn [nsum length]; [lia|].
  assert (steps_left pool t <= 3)%nat by (unfold steps_left; repeat case_match; lia). lia.
Qed.

Lemma work_step i c t t' m' :
  c.1 !! i = Some t -> GasPool_step t c.2 = Some (t', m') -> (work (<[i := t']> c.1, m') < work c)%nat.
Proof.
  intros Hi Hst. destruct c as [ts pool]. cbn [fst snd] in *. unfold work. cbn [fst snd]. rewrite length_insert.
  pose proof (nsum_insert changes _ _ _ t' Hi) as Hc. pose proof (nsum_insert (steps_left pool) _ _ _ t' Hi) as Hs.
  pose proof (steps_left_bound m' (<[i := t']> ts)) as Hb. rewrite length_insert in Hb.
  assert ((changes t' < changes t)%nat \/ changes t' = changes t /\ m' = pool /\ (steps_left pool t' < steps_left pool t)%nat)
    as [Hlt|(He & -> & Hlt)].
  - destruct t as [tk bk p]. unfold GasPool_step, changes, steps_left, g_goto in *. cbn in *.
    destruct p; try done.
    + injection Hst as <- <-. destruct (pool <? tk); cbn; [left; lia|]. rewrite Z.eqb_refl. right. split_and!; done || lia.
    + destruct (Z.eqb_spec pool gaspool) as [->|Hne]; injection Hst as <- <-; cbn; [left; lia|]. right.
      destruct (Z.eqb_spec gaspool pool); [congruence|]. split_and!; done || lia.
    + injection Hst as <- <-. destruct (MaxUint64 - bk <? pool); cbn; [left; lia|]. right. split_and!; done || lia.
    + injection Hst as <- <-. cbn. left. lia.
  - nia.
  - assert (nsum changes (<[i := t']> ts) = nsum changes ts) as -> by lia. lia.
Qed.
Lemma work_run sched c c' : run_pool sched c = Some c' -> (length sched + work c' <= work c)%nat.
Proof.
  revert c. induction sched as [|i sched IH]; intros c Hr; cbn in Hr; [simplify_eq; cbn; lia|].
  destruct (step_thread GasPool_step i c) as [c1|] eqn:Hst; [|done]. specialize (IH c1 Hr).
  apply step_thread_inv in Hst as (t & t' & m' & Hi & Ht & ->). pose proof (work_step _ _ _ _ _ Hi Ht).
  cbn [length]. lia.
Qed.

(** ** Properties *)

Definition pool_start (ts : list gas_thread) (init : Z) : config gas_thread Z := (ts, init).
Definition transactions_ok (ts : list gas_thread) : Prop :=
  Forall (fun t => g_pc t = Loading /\ 0 <= back t <= take t) ts.

Lemma pool_inv_start ts init : transactions_ok ts -> is_u64 init -> pool_inv init (pool_start ts init).
Proof.
  intros Hts Hu. split; cbn; [|rewrite zsum_zero; [lia|]|apply Hu].
  - apply (Forall_impl _ _ _ Hts). intros t [Hp Hb]. unfold thread_ok. by rewrite Hp.
  - apply (Forall_impl _ _ _ Hts). intros t [Hp _]. unfold kept. by rewrite Hp.
Qed.

(** C35. However the threads are scheduled, the pool is exactly what the block
    started with less the gas the transactions keep: none is taken twice or
    lost, the pool never wraps around, the check of [AddGas] never fires, and
    the transactions of a block never use more than its gas limit. *)
Theorem gas_pool_exact ts init sched c :
  transactions_ok ts -> is_u64 init -> run_pool sched (pool_start ts init) = Some c ->
  c.2 = init - zsum kept c.1 /\ 0 <= c.2 <= init /\ Forall (fun t => g_pc t <> Overflowed) c.1.
Proof.
  intros Hts Hu Hr. destruct (pool_inv_run init _ _ _ Hu (pool_inv_start ts init Hts Hu) Hr) as [Ht Hp H0].
  pose proof (zsum_nonneg kept _ (kept_nonneg _ Ht)). split; [lia|]. split; [lia|].
  apply (Forall_impl _ _ _ Ht). intros t (_ & Hov & _). done.
Qed.

(** The loop around compare-and-swap cannot run for ever: all the threads
    together take at most quadratically many steps, whatever the schedule, and
    when none can take a step all of them have finished. *)
Theorem gas_pool_lock_free ts init sched c :
  transactions_ok ts -> is_u64 init -> run_pool sched (pool_start ts init) = Some c ->
  (length sched <= 2 * length ts * (3 * length ts + 1) + 3 * length ts)%nat /\
  ((forall i, step_thread GasPool_step i c = None) -> Forall (fun t => g_pc t = Finished \/ g_pc t = LimitReached) c.1).
Proof.
  intros Hts Hu Hr. split.
  - pose proof (work_run _ _ _ Hr) as Hw. unfold work in Hw at 2. cbn in Hw.
    assert (nsum changes ts <= 2 * length ts)%nat.
    { clear. induction ts as [|t ts IH]; cbn [nsum length]; [lia|].
      assert (changes t <= 2)%nat by (unfold changes; case_match; lia). lia. }
    pose proof (steps_left_bound init ts). nia.
  - intros Hstop. destruct (pool_inv_run init _ _ _ Hu (pool_inv_start ts init Hts Hu) Hr) as [Ht _ _].
    apply Forall_lookup. intros i t Hi. specialize (Hstop i). unfold step_thread in Hstop. rewrite Hi in Hstop.
    pose proof (Forall_lookup_1 _ _ _ _ Ht Hi) as (_ & Hov & _). unfold GasPool_step in Hstop.
    destruct (g_pc t); try done; auto. by case_match.
Qed.

(** Three transactions that want 60, 50 and 30 of 100 gas. *)
Definition three_transactions : list gas_thread :=
  [mkGasThread 60 10 Loading; mkGasThread 50 5 Loading; mkGasThread 30 0 Loading].
(** All of them load the pool first, so only the first swap succeeds; the last
    of the others finds too little left. *)
Definition contended : list nat := [0; 1; 2; 1; 0; 0; 2; 2; 2; 1; 2; 1]%nat.
Definition contended_end : config gas_thread Z :=
  default ([], 0) (run_pool contended (pool_start three_transactions 100)).
Lemma three_transactions_ok : transactions_ok three_transactions.
Proof. repeat constructor; cbn; lia. Qed.
Lemma hundred_gas : is_u64 100.
Proof. done. Qed.
Lemma contended_runs : run_pool contended (pool_start three_transactions 100) = Some contended_end.
Proof. vm_compute. reflexivity. Qed.

Lemma gas_pool_exact_witness :
  map g_pc contended_end.1 = [LimitReached; Finished; AddingBack] /\ contended_end.2 = 25 /\
  contended_end.2 = 100 - zsum kept contended_end.1.
Proof.
  split; [vm_compute; reflexivity|]. split; [vm_compute; reflexivity|].
  exact (proj1 (gas_pool_exact three_transactions 100 contended contended_end three_transactions_ok hundred_gas contended_runs)).
Defined.
Lemma gas_pool_lock_free_witness : (length contended <= 69)%nat.
Proof.
  exact (proj1 (gas_pool_lock_free three_transactions 100 contended contended_end three_transactions_ok hundred_gas contended_runs)).
Defined.
