(* ===== verification/Verifier.v ===== *)
(** * The run-time checker of transaction histories

    Models [concurrent/verifier] (package [correctness_tool]): the history of
    the transactions a block has committed, as the miner's threads record it,
    and the check that it is ordered, by items that are demoted and promoted by
    powers of two. The fractions keep their int64 numerators and denominators;
    the float64 quotient [sum] is kept as the pair it is computed from, since
    only its sign and the sign of its ceiling are tested: rounding keeps the
    first, and the second where the first is not negative. A conversion of a float64 outside int64 gives the smallest int64,
    as on amd64. *)

From S2P Require Import Prelude Schedule.
Local Open Scope Z_scope.

(** ** types.go *)

Inductive Status : Type := PRESENT | ABSENT.
Inductive Semantics : Type := FIFO | LIFO | SET | MAPP | PRIORITY.
Inductive Types : Type := PRODUCER | CONSUMER | READER | WRITER.
#[export] Instance Status_eq_dec : EqDecision Status.
Proof. solve_decision. Defined.
#[export] Instance Semantics_eq_dec : EqDecision Semantics.
Proof. solve_decision. Defined.
#[export] Instance Types_eq_dec : EqDecision Types.
Proof. solve_decision. Defined.

Record Method : Type := NewMethod {
  m_id : Z;
  itemAddrS : string;
  itemAddrR : string;
  semantics : Semantics;
  types : Types;
  m_status : bool;
  requestAmnt : Z;
}.
Record TransactionData : Type := NewTxData {
  addrSender : string;
  addrReceiver : string;
  amount : Z;
  tId : nat;
}.

(** ** item.go *)

(** A sum with its fraction. The Item has three: its own, the one of failed
    consumers and the one of readers. *)
Record Sum : Type := mkSum {
  sum : Z * Z;
  numerator : Z;
  denominator : Z;
  exponent : Z;
}.
Definition zero_sum : Sum := mkSum (0, 1) 0 1 0.
Record Item : Type := mkItem {
  key : Z;
  own : Sum;
  i_status : Status;
  promoteItems : list Z;
  producer : Z;
  failed : Sum;
  reader : Sum;
}.
Definition set_own (x : Sum) (i : Item) : Item :=
  mkItem (key i) x (i_status i) (promoteItems i) (producer i) (failed i) (reader i).
Definition set_status (x : Status) (i : Item) : Item :=
  mkItem (key i) (own i) x (promoteItems i) (producer i) (failed i) (reader i).
Definition set_promoteItems (x : list Z) (i : Item) : Item :=
  mkItem (key i) (own i) (i_status i) x (producer i) (failed i) (reader i).
Definition set_producer (x : Z) (i : Item) : Item :=
  mkItem (key i) (own i) (i_status i) (promoteItems i) x (failed i) (reader i).
Definition set_failed (x : Sum) (i : Item) : Item :=
  mkItem (key i) (own i) (i_status i) (promoteItems i) (producer i) x (reader i).
Definition set_reader (x : Sum) (i : Item) : Item :=
  mkItem (key i) (own i) (i_status i) (promoteItems i) (producer i) (failed i) x.
Definition NewItem (key : Z) : Item := mkItem key zero_sum PRESENT [] 0 zero_sum zero_sum.

Definition SetItemKV (key value : Z) (i : Item) : Item :=
  mkItem key zero_sum PRESENT (promoteItems i) (producer i) zero_sum zero_sum.

(** Sign and ceiling of a quotient; no denominator is ever zero. *)
Definition negative (q : Z * Z) : bool := q.1 * q.2 <? 0.
Definition positive (q : Z * Z) : bool := 0 <? q.1 * q.2.
Definition ceil (q : Z * Z) : Z := - ((- q.1) / q.2).
(** An integer and a quotient. *)
Definition plus_int (z : Z) (q : Z * Z) : Z * Z := (z * q.2 + q.1, q.2).

(** The fraction [n / d] with its quotient. *)
Definition fraction (n d e : Z) : Sum := mkSum (n, d) n d e.

Definition addInt (x : Z) (i : Item) : Item :=
  let s := own i in
  let addNum := i64 (x * denominator s) in
  set_own (fraction (i64 (numerator s + addNum)) (denominator s) (exponent s)) i.
Definition subInt (x : Z) (i : Item) : Item :=
  let s := own i in
  let subNum := i64 (x * denominator s) in
  set_own (fraction (i64 (numerator s - subNum)) (denominator s) (exponent s)) i.

(** The three sums are changed by the same code; [op] is the addition or the
    subtraction. A division by zero panics. *)
Definition frac_op (op : Z -> Z -> Z) (num den : Z) (s : Sum) : option Sum :=
  if den =? 0 then None
  else if Z.rem (denominator s) den =? 0 then
    Some (fraction (i64 (op (numerator s) (i64 (Z.quot (i64 (num * denominator s)) den)))) (denominator s) (exponent s))
  else if denominator s =? 0 then None
  else if Z.rem den (denominator s) =? 0 then
    Some (fraction (i64 (op (i64 (Z.quot (i64 (numerator s * den)) (denominator s))) num)) den (exponent s))
  else
    Some (fraction (i64 (op (i64 (numerator s * den)) (i64 (num * denominator s))))
            (i64 (denominator s * den)) (exponent s)).
Definition with_exponent (e : Z) (s : Sum) : Sum := mkSum (sum s) (numerator s) (denominator s) e.

Definition addFrac (num den : Z) (i : Item) : option Item := s ← frac_op Z.add num den (own i); Some (set_own s i).
Definition subFrac (num den : Z) (i : Item) : option Item := s ← frac_op Z.sub num den (own i); Some (set_own s i).

(** [int64(math.Exp2(e))] *)
Definition exp2 (e : Z) : Z := if e <? 0 then 0 else if e <? 63 then 2 ^ e else - 2 ^ 63.

Definition demote (i : Item) : option Item :=
  let i := set_own (with_exponent (exponent (own i) + 1) (own i)) i in
  let den := exp2 (exponent (own i)) in
  subFrac 1 den i.
Definition promote (i : Item) : option Item :=
  let den := exp2 (exponent (own i)) in
  let den := if exponent (own i) <? 0 then 1 else den in
  i ← addFrac 1 den i;
  Some (set_own (with_exponent (exponent (own i) - 1) (own i)) i).

Definition addFracFailed (num den : Z) (i : Item) : option Item :=
  s ← frac_op Z.add num den (failed i); Some (set_failed s i).
Definition subFracFailed (num den : Z) (i : Item) : option Item :=
  s ← frac_op Z.sub num den (failed i); Some (set_failed s i).
Definition demoteFailed (i : Item) : option Item :=
  let i := set_failed (with_exponent (exponent (failed i) + 1) (failed i)) i in
  subFracFailed 1 (exp2 (exponent (failed i))) i.
Definition promoteFailed (i : Item) : option Item :=
  i ← addFracFailed 1 (exp2 (exponent (failed i))) i;
  Some (set_failed (with_exponent (exponent (failed i) - 1) (failed i)) i).

Definition addFracReader (num den : Z) (i : Item) : option Item :=
  s ← frac_op Z.add num den (reader i); Some (set_reader s i).
(** The second branch assigns the denominator twice and not the numerator. *)
Definition subFracReader (num den : Z) (i : Item) : option Item :=
  let s := reader i in
  s ← (if den =? 0 then None
       else if Z.rem (denominator s) den =? 0 then frac_op Z.sub num den s
       else if denominator s =? 0 then None
       else if Z.rem den (denominator s) =? 0 then Some (fraction (numerator s) den (exponent s))
       else frac_op Z.sub num den s);
  Some (set_reader s i).
Definition demoteReader (i : Item) : option Item :=
  let i := set_reader (with_exponent (exponent (reader i) + 1) (reader i)) i in
  subFracReader 1 (exp2 (exponent (reader i))) i.
Definition promoteReader (i : Item) : option Item :=
  i ← addFracReader 1 (exp2 (exponent (reader i))) i;
  Some (set_reader (with_exponent (exponent (reader i) - 1) (reader i)) i).

(** ** verifier.go *)

Record Verifier : Type := mkVerifier {
  methodCount : Z;
  finalOutcome : bool;
  GlobalCount : Z;
}.
Definition NewVerifier : Verifier := mkVerifier 0 true 0.

Abbreviation Methods := (gmap Z Method).
Abbreviation Items := (gmap Z Item).

(** An access to a missing key of the maps is a nil dereference. *)
Definition update (k : Z) (f : Item -> option Item) (items : Items) : option Items :=
  i ← items !! k; i ← f i; Some (<[k := i]> items).

(** [for it := from; it < to; it++] *)
Definition for_range {A} (from to : Z) (f : Z -> A -> option A) (a : A) : option A :=
  foldl (fun acc it => acc ≫= f it) (Some a) (seqZ from (to - from)).

(** The body of the loop over the earlier methods. *)
Definition order_pair (methods : Methods) (it it0 : Z) (items : Items) : option Items :=
  m0 ← methods !! it0; m ← methods !! it;
  if decide (itemAddrS m0 = itemAddrS m) then
    i0 ← items !! it0; i ← items !! it;
    if (requestAmnt m <? requestAmnt m0) && bool_decide (i_status i0 = PRESENT) && bool_decide (semantics m0 = FIFO) then
      items ← update it0 (fun i0 => Some (set_promoteItems (key i :: promoteItems i0) i0)) items;
      update it demote items
    else if (requestAmnt m0 <? requestAmnt m) && bool_decide (i_status i0 = PRESENT) && bool_decide (semantics m0 = FIFO) then
      items ← update it (fun i => Some (set_promoteItems (key i0 :: promoteItems i) i)) items;
      update it0 demote items
    else Some items
  else Some items.

(** The body of the loop over the methods; [int32] counters wrap. *)
Definition i32 (x : Z) : Z := let y := x mod 2 ^ 32 in if y <? 2 ^ 31 then y else y - 2 ^ 32.
Definition visit (methods : Methods) (it : Z) (vi : Verifier * Items) : option (Verifier * Items) :=
  let '(v, items) := vi in
  let v := mkVerifier (i32 (methodCount v + 1)) (finalOutcome v) (GlobalCount v) in
  m ← methods !! it;
  if decide (types m = PRODUCER) then
    items ← update it (fun i => Some (set_producer it i)) items;
    items ← update it (fun i => Some (match i_status i with ABSENT => set_status PRESENT i | PRESENT => i end)) items;
    items ← update it (fun i => Some (addInt 1 i)) items;
    if decide (semantics m = FIFO) then
      for_range 0 it (fun it0 (vi : Verifier * Items) =>
        let '(v, items) := vi in
        let v := mkVerifier (methodCount v) (finalOutcome v) (i32 (GlobalCount v + 1)) in
        items ← order_pair methods it it0 items; Some (v, items)) (v, items)
    else Some (v, items)
  else Some (v, items).

(** The loop that pops and promotes, with the stack of [it] at its start. *)
Fixpoint promote_all (it : Z) (stack : list Z) (items : Items) : option Items :=
  match stack with
  | [] => Some items
  | itemPromote :: stack' =>
      items ← update itemPromote promote items;
      items ← update it (fun i => Some (set_promoteItems stack' i)) items;
      promote_all it stack' items
  end.

Definition nonce_turn (methods : Methods) (it : Z) (ri : bool * Verifier * Items) : option (bool * Verifier * Items) :=
  let '(result, v, items) := ri in
  m ← methods !! it;
  if m_status m then
    i ← items !! it;
    let i := if positive (sum (own i))
             then set_reader (mkSum (0, 1) (numerator (reader i)) (denominator (reader i)) (exponent (reader i))) i
             else i in
    let i := subInt 1 i in
    let '(result, v) := if negative (sum (own i))
                        then (false, mkVerifier (methodCount v) false (GlobalCount v)) else (result, v) in
    let i := set_status ABSENT i in
    items ← promote_all it (promoteItems i) (<[it := i]> items);
    Some (result, v, items)
  else Some (result, v, items).
Definition handleNonceOrder (methods : Methods) (items : Items) (v : Verifier) : option (bool * Verifier * Items) :=
  for_range 0 (Z.of_nat (size items)) (nonce_turn methods) (true, v, items).

(** The tests of the sums of one item. *)
Definition verify_sums (items : Items) (itVerify : Z) (outcome : bool) : option bool :=
  i ← items !! itVerify;
  let outcome := if negative (sum (own i)) then false
                 else if negative (plus_int (ceil (sum (own i))) (sum (reader i))) then false
                 else outcome in
  let n := if (sum (failed i)).1 =? 0 then 0 else -1 in
  let total := plus_int (ceil (sum (own i))) (sum (failed i)) in
  Some (if negative (total.1 * n, total.2) then false else outcome).

(** The counters [itStart] and [countIterated] live across checkpoints. *)
Record progress : Type := mkProgress { itStart : Z; countIterated : Z }.

Definition verifyCheckpoint (methods : Methods) (items : Items) (resetItStart : bool) (vp : Verifier * progress)
  : option (Verifier * progress) :=
  let '(v, p) := vp in
  let len := Z.of_nat (size methods) in
  let v := mkVerifier (i32 len) (finalOutcome v) (GlobalCount v) in
  if methodCount v =? 0 then Some (v, p)
  else
    let it := 0 in
    let end_ := len - 1 in
    let '(resetItStart, p, it) :=
      if countIterated p =? 0 then (false, p, it)
      else if negb (it =? end_) then
        let p := mkProgress (itStart p + 1) (countIterated p) in (resetItStart, p, itStart p)
      else (resetItStart, p, it) in
    '(v, items) ← for_range it len (visit methods) (v, items);
    let '(resetItStart, p) :=
      if it <? len then (false, mkProgress (len - 1) (u64 (countIterated p + (len - it)))) else (resetItStart, p) in
    let p := if resetItStart : bool then mkProgress (itStart p - 1) (countIterated p) else p in
    '(outcome, v, items) ← handleNonceOrder methods items v;
    outcome ← for_range 0 (Z.of_nat (size items)) (verify_sums items) outcome;
    Some (mkVerifier (methodCount v) outcome (GlobalCount v), p).

(** What a round of [verify] finds in the lists of the threads. *)
Definition collect_method (maxTxs : Z) (mi : Methods * Items) (m : Method) : Methods * Items :=
  let '(methods, items) := mi in
  if (m_id m =? -1) && (m_id m <? maxTxs) then (methods, items)
  else
    let item := set_producer (m_id m) (NewItem (m_id m)) in
    (<[m_id m := m]> methods, <[key item := item]> items).
(** The lists, each with the number of transactions read before it. *)
Definition collect (lists : list (Z * list Method)) : Methods * Items :=
  foldl (fun mi l => foldl (collect_method l.1) mi l.2) (∅, ∅) lists.

(** The rounds of [verify], one if it does not run in the background; the maps
    of the last checkpoint are the ones declared before the loop. *)
Fixpoint verify_rounds (rounds : list (list (Z * list Method))) (vp : Verifier * progress) : option (Verifier * progress) :=
  match rounds with
  | [] => Some vp
  | lists :: rounds' =>
      let '(methods, items) := collect lists in
      vp ← verifyCheckpoint methods items true vp;
      verify_rounds rounds' vp
  end.
Definition verify (rounds : list (list (Z * list Method))) (v : Verifier) : option Verifier :=
  vp ← verify_rounds rounds (v, mkProgress 0 0);
  '(v, _) ← verifyCheckpoint ∅ ∅ false vp;
  Some v.
Definition Verify (numTxnsAdded : Z) (threadLists : list (list Method)) (v : Verifier) : option (bool * Verifier) :=
  v ← verify [map (pair numTxnsAdded) threadLists] v;
  Some (finalOutcome v, v).

(** ** The threads of the miner record their transactions *)

(** [LockFreeAddTxn]: the method is pushed on the list of the thread, then the
    shared counter is incremented, then the number is stored in the method. *)
Inductive add_pc : Type := Pushing | Counting | Numbering (index : Z).
Record adder : Type := mkAdder { tid : nat; todo : list TransactionData; a_pc : add_pc }.
Record history : Type := mkHistory { threadLists : list (list Method); numTxnsAdded : Z }.

Definition method_of (d : TransactionData) (id : Z) : Method :=
  NewMethod id (addrSender d) (addrReceiver d) FIFO PRODUCER true (amount d).
(** Only its thread pushes on a list, so the method is the last one. *)
Fixpoint set_last (id : Z) (l : list Method) : list Method :=
  match l with
  | [] => []
  | [m] => [NewMethod id (itemAddrS m) (itemAddrR m) (semantics m) (types m) (m_status m) (requestAmnt m)]
  | m :: l' => m :: set_last id l'
  end.

Definition LockFreeAddTxn_step (w : adder) (h : history) : option (adder * history) :=
  match todo w with
  | [] => None
  | d :: rest =>
      l ← threadLists h !! tid w;
      match a_pc w with
      | Pushing =>
          Some (mkAdder (tid w) (todo w) Counting,
                mkHistory (<[tid w := l ++ [method_of d (-1)]]> (threadLists h)) (numTxnsAdded h))
      | Counting =>
          Some (mkAdder (tid w) (todo w) (Numbering (i32 (numTxnsAdded h + 1) - 1)),
                mkHistory (threadLists h) (i32 (numTxnsAdded h + 1)))
      | Numbering index =>
          Some (mkAdder (tid w) rest Pushing,
                mkHistory (<[tid w := set_last index l]> (threadLists h)) (numTxnsAdded h))
      end
  end.
