(* ===== verification/VerifierProps.v ===== *)
(** * What the checker decides

    The sum of an item is [2 ^ - e] for an item with [e] demotions outstanding,
    less one once its turn has come. Every demotion of an item is one entry of
    a stack, and is undone when the stack is popped; so when its turn comes an
    item is negative exactly if a later item has demoted it. *)

From S2P Require Import Prelude Schedule Verifier.
Local Open Scope Z_scope.

(** ** Fractions *)

Lemma i64_small x : - 2 ^ 63 <= x < 2 ^ 63 -> i64 x = x.
Proof.
  intros Hx. unfold i64. destruct (Z.leb_spec 0 x).
  - rewrite Z.mod_small by lia. destruct (Z.ltb_spec x (2 ^ 63)); lia.
  - replace (x mod 2 ^ 64) with (x + 2 ^ 64) by (apply (Z.mod_unique _ _ (-1)); lia).
    destruct (Z.ltb_spec (x + 2 ^ 64) (2 ^ 63)); lia.
Qed.

Lemma pow2_rem a b : 0 <= b <= a -> Z.rem (2 ^ a) (2 ^ b) = 0.
Proof.
  intros Hab. replace a with (a - b + b) by lia. rewrite Z.pow_add_r by lia. apply Z.rem_mul. lia.
Qed.
Lemma pow2_quot a b : 0 <= b <= a -> Z.quot (2 ^ a) (2 ^ b) = 2 ^ (a - b).
Proof.
  intros Hab. replace a with (a - b + b) at 1 by lia. rewrite Z.pow_add_r by lia. apply Z.quot_mul. lia.
Qed.
Lemma pow2_le a b : 0 <= a <= b -> 1 <= 2 ^ a <= 2 ^ b.
Proof. intros Hab. split; [apply (Z.pow_le_mono_r 2 0 a); lia|apply Z.pow_le_mono_r; lia]. Qed.
Lemma exp2_pow e : 0 <= e <= 62 -> exp2 e = 2 ^ e.
Proof. intros He. unfold exp2. destruct (Z.ltb_spec e 0); [lia|]. destruct (Z.ltb_spec e 63); [done|lia]. Qed.

(** [base + 2 ^ - e], as a fraction the code computes; [base] is 0 or -1. *)
Definition sum_is (e base : Z) (s : Sum) : Prop :=
  exists d, 0 <= e <= d /\ d <= 62 /\ s = fraction (2 ^ (d - e) + base * 2 ^ d) (2 ^ d) e.

Lemma zero_sum_is : sum_is 0 (-1) zero_sum.
Proof. exists 0. split_and!; [lia..|]. done. Qed.

Lemma sum_is_sign e base s :
  sum_is e base s -> base = 0 \/ base = -1 ->
  negative (sum s) = bool_decide (base = -1 /\ 0 < e).
Proof.
  intros (d & He & Hd & ->) Hb. unfold negative, fraction. cbn [sum fst snd].
  pose proof (pow2_le (d - e) d ltac:(lia)). pose proof (pow2_le 0 d ltac:(lia)).
  destruct (decide (0 < e)) as [Hpos|Hpos].
  - pose proof (Z.pow_lt_mono_r 2 (d - e) d ltac:(lia) ltac:(lia) ltac:(lia)).
    destruct Hb as [-> | ->]; [rewrite bool_decide_eq_false_2 by lia; apply Z.ltb_ge; nia|].
    rewrite bool_decide_eq_true_2 by lia. apply Z.ltb_lt. nia.
  - rewrite bool_decide_eq_false_2 by lia. apply Z.ltb_ge. replace (d - e) with d by lia. destruct Hb as [-> | ->]; nia.
Qed.
Lemma sum_is_done s : sum_is 0 (-1) s -> (sum s).1 = 0 /\ negative (sum s) = false /\ ceil (sum s) = 0.
Proof.
  intros (d & He & Hd & ->). rewrite Z.sub_0_r. replace (2 ^ d + -1 * 2 ^ d) with 0 by lia.
  unfold negative, ceil. cbn [sum fraction fst snd]. rewrite Z.mul_0_l, Z.div_0_l by (pose proof (pow2_le 0 d ltac:(lia)); lia). done.
Qed.

Lemma addInt_sum e i : sum_is e (-1) (own i) -> exists s, addInt 1 i = set_own s i /\ sum_is e 0 s.
Proof.
  intros (d & He & Hd & Hs). pose proof (pow2_le (d - e) d ltac:(lia)). pose proof (pow2_le d 62 ltac:(lia)).
  eexists. split; [reflexivity|]. exists d. split_and!; [lia..|]. rewrite Hs. cbn [numerator denominator exponent fraction].
  f_equal. rewrite (i64_small (1 * 2 ^ d)) by lia. rewrite i64_small; lia.
Qed.
Lemma subInt_sum e i : sum_is e 0 (own i) -> exists s, subInt 1 i = set_own s i /\ sum_is e (-1) s.
Proof.
  intros (d & He & Hd & Hs). pose proof (pow2_le (d - e) d ltac:(lia)). pose proof (pow2_le d 62 ltac:(lia)).
  eexists. split; [reflexivity|]. exists d. split_and!; [lia..|]. rewrite Hs. cbn [numerator denominator exponent fraction].
  f_equal. rewrite (i64_small (1 * 2 ^ d)) by lia. rewrite i64_small; lia.
Qed.

Lemma demote_sum e i :
  sum_is e 0 (own i) -> e + 1 <= 62 -> exists s, demote i = Some (set_own s i) /\ sum_is (e + 1) 0 s.
Proof.
  intros (d & He & Hd & Hs) He1. unfold demote, subFrac. cbn [own set_own exponent with_exponent]. rewrite Hs.
  cbn [exponent numerator denominator fraction sum]. rewrite exp2_pow by lia. unfold frac_op.
  cbn [exponent numerator denominator with_exponent fraction]. rewrite !Z.add_0_r, !Z.mul_1_l.
  pose proof (pow2_le (d - e) d ltac:(lia)). pose proof (pow2_le d 62 ltac:(lia)). pose proof (pow2_le (e + 1) 62 ltac:(lia)).
  destruct (Z.eqb_spec (2 ^ (e + 1)) 0); [lia|]. destruct (decide (d = e)) as [->|Hne].
  - rewrite Z.rem_small by (rewrite Z.pow_add_r by lia; lia). destruct (Z.eqb_spec (2 ^ e) 0); [lia|].
    rewrite pow2_rem by lia. cbn [Z.eqb]. rewrite Z.sub_diag, Z.pow_0_r, Z.mul_1_l, (i64_small (2 ^ (e + 1))), pow2_quot by lia.
    eexists. split; [reflexivity|]. exists (e + 1). split_and!; [lia..|]. cbn [sum fraction].
    replace (e + 1 - e) with 1 by lia. rewrite Z.sub_diag. done.
  - rewrite pow2_rem by lia. cbn [Z.eqb]. rewrite (i64_small (2 ^ d)), pow2_quot by lia.
    pose proof (pow2_le (d - (e + 1)) d ltac:(lia)).
    assert (2 ^ (d - e) = 2 * 2 ^ (d - (e + 1))) as Hp by (rewrite <- Z.pow_succ_r by lia; f_equal; lia).
    rewrite !i64_small by (rewrite ?i64_small by lia; lia).
    eexists. split; [reflexivity|]. exists d. split_and!; [lia..|]. f_equal. lia.
Qed.
Lemma promote_sum e base i :
  sum_is e base (own i) -> 1 <= e -> base = 0 \/ base = -1 ->
  exists s, promote i = Some (set_own s i) /\ sum_is (e - 1) base s.
Proof.
  intros (d & He & Hd & Hs) He1 Hb. unfold promote, addFrac. rewrite Hs. cbn [exponent fraction].
  destruct (Z.ltb_spec e 0); [lia|]. rewrite exp2_pow by lia. unfold frac_op. cbn [numerator denominator fraction].
  pose proof (pow2_le (d - e) d ltac:(lia)). pose proof (pow2_le d 62 ltac:(lia)). pose proof (pow2_le e d ltac:(lia)).
  destruct (Z.eqb_spec (2 ^ e) 0); [lia|]. rewrite pow2_rem by lia. cbn [Z.eqb].
  pose proof (pow2_le (d - (e - 1)) d ltac:(lia)).
  assert (2 ^ (d - (e - 1)) = 2 * 2 ^ (d - e)) as Hp by (rewrite <- Z.pow_succ_r by lia; f_equal; lia).
  rewrite Z.mul_1_l, (i64_small (2 ^ d)), pow2_quot by lia.
  rewrite (i64_small (2 ^ (d - e))) by lia. rewrite i64_small by (destruct Hb as [-> | ->]; lia).
  eexists. split; [reflexivity|]. exists d. split_and!; [lia..|]. cbn [own set_own fraction sum exponent with_exponent].
  unfold fraction. replace (2 ^ (d - e) + base * 2 ^ d + 2 ^ (d - e)) with (2 ^ (d - (e - 1)) + base * 2 ^ d) by lia. done.
Qed.

(** ** Loops and maps *)

Lemma for_range_rule {A} (P : nat -> A -> Prop) (n : nat) (f : Z -> A -> option A) (a : A) :
  P O a ->
  (forall k a, (k < n)%nat -> P k a -> exists a', f (Z.of_nat k) a = Some a' /\ P (S k) a') ->
  exists a', for_range 0 (Z.of_nat n) f a = Some a' /\ P n a'.
Proof.
  intros H0 Hstep. unfold for_range. rewrite Z.sub_0_r. induction n as [|n IH]; [by exists a|].
  destruct IH as (a1 & Ha1 & HP); [intros; apply Hstep; [lia|done]|].
  rewrite seqZ_S, foldl_app, Ha1. cbn. rewrite Z.add_0_l. apply Hstep; [lia|done].
Qed.

(** The maps of the code have the keys 0, 1, ...; they are lists. *)
Definition represents {A} (m : gmap Z A) (l : list A) : Prop :=
  (forall k : nat, m !! Z.of_nat k = l !! k) /\ size m = length l.

Lemma represents_insert {A} (m : gmap Z A) l k x :
  represents m l -> (k < length l)%nat -> represents (<[Z.of_nat k := x]> m) (<[k := x]> l).
Proof.
  intros [Hm Hsz] Hk. split.
  - intros j. destruct (decide (j = k)) as [->|Hne].
    + by rewrite lookup_insert_eq, list_lookup_insert_eq.
    + rewrite lookup_insert_ne by lia. by rewrite list_lookup_insert_ne.
  - pose proof Hk as [y Hy]%lookup_lt_is_Some. rewrite <- Hm in Hy.
    by rewrite map_size_insert, Hy, length_insert.
Qed.
Lemma update_represents items l k i i' f :
  represents items l -> l !! k = Some i -> f i = Some i' ->
  exists items', update (Z.of_nat k) f items = Some items' /\ represents items' (<[k := i']> l).
Proof.
  intros Hr Hi Hf. eexists. split.
  - unfold update. rewrite (proj1 Hr), Hi. cbn. rewrite Hf. reflexivity.
  - apply represents_insert; [done|by eapply lookup_lt_Some].
Qed.

Lemma update_represents_eq items l k i i' f :
  represents items (<[k := i]> l) -> (k < length l)%nat -> f i = Some i' ->
  exists items', update (Z.of_nat k) f items = Some items' /\ represents items' (<[k := i']> l).
Proof.
  intros Hr Hk Hf. destruct (update_represents items _ k i i' f Hr (list_lookup_insert_eq _ _ _ Hk) Hf) as (items' & Hu & Hr').
  exists items'. by rewrite list_insert_insert_eq in Hr'.
Qed.

(** ** Outstanding demotions *)

Abbreviation count := (count_occ Z.eq_dec).
(** How often an item is on a stack. *)
Definition occurrences (a : nat) (l : list Item) : nat := nsum (fun i => count (promoteItems i) (Z.of_nat a)) l.

(** An item before its method is visited, after it, and after its turn. *)
Inductive item_stage : Type := Unvisited | Visited | Consumed.
Definition stage_base (g : item_stage) : Z := match g with Visited => 0 | _ => -1 end.
Definition stage_status (g : item_stage) : Status := match g with Consumed => ABSENT | _ => PRESENT end.
Record item_ok (k : nat) (g : item_stage) (e : nat) (i : Item) : Prop := {
  io_key : key i = Z.of_nat k;
  io_sum : sum_is (Z.of_nat e) (stage_base g) (own i);
  io_status : i_status i = stage_status g;
  io_failed : failed i = zero_sum;
  io_reader : reader i = zero_sum;
}.

(** [R a b]: the item [a] is on the stack of [b]. *)
Record balanced (g : nat -> item_stage) (R : nat -> nat -> bool) (l : list Item) : Prop := {
  ba_items : forall k i, l !! k = Some i -> item_ok k (g k) (occurrences k l) i;
  ba_stacks : forall b i a, l !! b = Some i -> count (promoteItems i) (Z.of_nat a) = if R a b then 1%nat else O;
  ba_range : forall b i z, l !! b = Some i -> z ∈ promoteItems i -> exists a, z = Z.of_nat a /\ (a < length l)%nat;
}.

Lemma balanced_ext g g' R R' l :
  balanced g R l -> (forall k, g' k = g k) -> (forall a b, (b < length l)%nat -> R' a b = R a b) -> balanced g' R' l.
Proof.
  intros [Hi Hs Hr] Hg HR. split.
  - intros k i Hk. rewrite Hg. by apply Hi.
  - intros b i a Hb. rewrite HR by (by eapply lookup_lt_Some). by apply Hs.
  - done.
Qed.

Lemma occurrences_zero g R l a :
  balanced g R l -> (occurrences a l = O <-> forall b, (b < length l)%nat -> R a b = false).
Proof.
  intros Hb. split.
  - intros Hz b [i Hi]%lookup_lt_is_Some. pose proof (nsum_zero _ _ _ _ Hz Hi) as H0. cbn in H0.
    rewrite (ba_stacks _ _ _ Hb b i a Hi) in H0. by destruct (R a b).
  - intros HR. destruct (decide (occurrences a l = O)) as [|Hne]; [done|]. unfold occurrences in Hne.
    destruct (nsum_pos _ l ltac:(apply Nat.neq_0_lt_0, Hne)) as (b & i & Hi & Hpos).
    rewrite (ba_stacks _ _ _ Hb b i a Hi), HR in Hpos by (by eapply lookup_lt_Some). lia.
Qed.

Lemma nsum_le_length {T} (f : T -> nat) ts : Forall (fun t => f t <= 1)%nat ts -> (nsum f ts <= length ts)%nat.
Proof. induction 1 as [|t ts Ht _ IH]; cbn; lia. Qed.
(** Two stacks without an item leave it the others. *)
Lemma occurrences_bound g R l a b :
  balanced g R l -> (a < length l)%nat -> (b < length l)%nat -> a <> b -> R a a = false -> R a b = false ->
  (occurrences a l + 2 <= length l)%nat.
Proof.
  intros Hb Ha Hbl Hne Raa Rab. pose proof Ha as [ia Hia]%lookup_lt_is_Some. pose proof Hbl as [ib Hib]%lookup_lt_is_Some.
  unfold occurrences. set (f i := count (promoteItems i) (Z.of_nat a)).
  set (one := set_promoteItems [Z.of_nat a] ia).
  assert (f one = 1%nat) as Hone by (unfold f, one; cbn; by destruct (Z.eq_dec _ _)).
  assert (f ia = O /\ f ib = O) as [Hfa Hfb].
  { unfold f. by rewrite (ba_stacks _ _ _ Hb a ia a Hia), (ba_stacks _ _ _ Hb b ib a Hib), Raa, Rab. }
  pose proof (nsum_insert f l b ib one Hib) as H1.
  pose proof (nsum_insert f (<[b := one]> l) a ia one ltac:(by rewrite list_lookup_insert_ne)) as H2.
  assert (nsum f (<[a := one]> (<[b := one]> l)) <= length l)%nat as H3.
  { rewrite <- (length_insert l b one), <- (length_insert (<[b := one]> l) a one).
    apply nsum_le_length. apply Forall_insert; [|lia]. apply Forall_insert; [|lia].
    apply Forall_lookup_2. intros k i Hk. unfold f. rewrite (ba_stacks _ _ _ Hb k i a Hk). destruct (R a k); lia. }
  lia.
Qed.

(** A new stack for [b], and a new sum for the one item that this concerns. *)
Lemma balanced_change g R R' l a b ia ib s st :
  balanced g R l -> a <> b -> l !! a = Some ia -> l !! b = Some ib ->
  (forall x y, y <> b -> R' x y = R x y) -> (forall x, x <> a -> R' x b = R x b) ->
  (forall x, count st (Z.of_nat x) = if R' x b then 1%nat else O) ->
  (forall z, z ∈ st -> exists x, z = Z.of_nat x /\ (x < length l)%nat) ->
  (forall e, (e + (if R a b then 1 else 0) = occurrences a l + (if R' a b then 1 else 0))%nat ->
     sum_is (Z.of_nat e) (stage_base (g a)) s) ->
  balanced g R' (<[a := set_own s ia]> (<[b := set_promoteItems st ib]> l)).
Proof.
  intros Hbal Hne Ha Hb HR' HRb Hst Hrange Hs.
  assert ((<[b := set_promoteItems st ib]> l) !! a = Some ia) as Ha' by (by rewrite list_lookup_insert_ne).
  assert (forall x, (occurrences x (<[a := set_own s ia]> (<[b := set_promoteItems st ib]> l)) + (if R x b then 1 else 0)
                     = occurrences x l + (if R' x b then 1 else 0))%nat) as Hocc.
  { intros x. set (f i := count (promoteItems i) (Z.of_nat x)).
    pose proof (nsum_insert f l b ib (set_promoteItems st ib) Hb) as H1.
    pose proof (nsum_insert f _ a ia (set_own s ia) Ha') as H2.
    unfold f in H1 at 2 4. cbn [promoteItems set_promoteItems] in H1.
    rewrite Hst, (ba_stacks _ _ _ Hbal b ib x Hb) in H1. unfold f in H2 at 2 4. cbn [promoteItems set_own] in H2.
    unfold occurrences. fold f. lia. }
  assert (forall x, x <> a -> occurrences x (<[a := set_own s ia]> (<[b := set_promoteItems st ib]> l)) = occurrences x l) as Hother.
  { intros x Hx. specialize (Hocc x). rewrite (HRb x Hx) in Hocc. lia. }
  assert (forall k i, (<[a := set_own s ia]> (<[b := set_promoteItems st ib]> l)) !! k = Some i ->
    (k = a /\ i = set_own s ia) \/ (k = b /\ i = set_promoteItems st ib) \/ (k <> a /\ k <> b /\ l !! k = Some i)) as Hlook.
  { intros k i [(<- & <- & _)|[? Hk]]%list_lookup_insert_Some; [by left|].
    apply list_lookup_insert_Some in Hk as [(<- & <- & _)|[? Hk]]; [right; by left|right; right; done]. }
  split.
  - intros k i [[-> ->]|[[-> ->]|(Hka & Hkb & Hk)]]%Hlook.
    + destruct (ba_items _ _ _ Hbal a ia Ha). split; try done. by apply Hs.
    + rewrite Hother by congruence. destruct (ba_items _ _ _ Hbal b ib Hb). by split.
    + rewrite Hother by done. by apply (ba_items _ _ _ Hbal).
  - intros k i x [[-> ->]|[[-> ->]|(Hka & Hkb & Hk)]]%Hlook.
    + rewrite HR' by done. by apply (ba_stacks _ _ _ Hbal a ia).
    + apply Hst.
    + rewrite HR' by done. by apply (ba_stacks _ _ _ Hbal).
  - intros k i z Hk. rewrite !length_insert.
    destruct (Hlook k i Hk) as [[-> ->]|[[-> ->]|(Hka & Hkb & Hk')]];
      [by apply (ba_range _ _ _ Hbal a ia)|apply Hrange|by apply (ba_range _ _ _ Hbal k i)].
Qed.

(** [a] goes on the stack of [b] and is demoted. *)
Definition link (a b : nat) (R : nat -> nat -> bool) (x y : nat) : bool := R x y || ((x =? a)%nat && (y =? b)%nat).
Lemma balanced_link g R l a b ia ib :
  balanced g R l -> (length l <= 63)%nat -> a <> b -> l !! a = Some ia -> l !! b = Some ib ->
  g a = Visited -> R a a = false -> R a b = false ->
  exists s, demote ia = Some (set_own s ia) /\
    balanced g (link a b R) (<[a := set_own s ia]> (<[b := set_promoteItems (Z.of_nat a :: promoteItems ib) ib]> l)).
Proof.
  intros Hbal Hlen Hne Ha Hb Hg Raa Rab. pose proof (ba_items _ _ _ Hbal a ia Ha) as [_ Hs _ _ _]. rewrite Hg in Hs.
  pose proof (occurrences_bound g R l a b Hbal (lookup_lt_Some _ _ _ Ha) (lookup_lt_Some _ _ _ Hb) Hne Raa Rab) as Hocc.
  destruct (demote_sum _ ia Hs ltac:(lia)) as (s & Hd & Hs'). exists s. split; [done|].
  eapply balanced_change; try done; unfold link.
  - intros x y Hy. rewrite (proj2 (Nat.eqb_neq y b) Hy), andb_false_r. by rewrite orb_false_r.
  - intros x Hx. rewrite (proj2 (Nat.eqb_neq x a) Hx). by rewrite orb_false_r.
  - intros x. cbn [count_occ]. rewrite (ba_stacks _ _ _ Hbal b ib x Hb). rewrite Nat.eqb_refl.
    destruct (Z.eq_dec _ _) as [He|He].
    + apply Nat2Z.inj in He as ->. rewrite Rab. by rewrite Nat.eqb_refl.
    + rewrite (proj2 (Nat.eqb_neq x a)) by (intros ->; done). by rewrite orb_false_r.
  - intros z [->|Hz]%elem_of_cons; [exists a; split; [done|by eapply lookup_lt_Some]|by apply (ba_range _ _ _ Hbal b ib)].
  - intros e He. rewrite Rab, !Nat.eqb_refl in He. cbn in He. rewrite Hg. replace (Z.of_nat e) with (Z.of_nat (occurrences a l) + 1) by lia. done.
Qed.

(** The top of the stack of [b] is promoted and popped. *)
Lemma balanced_unlink g R l b ib z st :
  balanced g R l -> l !! b = Some ib -> promoteItems ib = z :: st -> (forall x, R x x = false) ->
  exists a ia s, z = Z.of_nat a /\ a <> b /\ l !! a = Some ia /\ promote ia = Some (set_own s ia) /\
    balanced g (fun x y => R x y && negb ((x =? a)%nat && (y =? b)%nat))
      (<[b := set_promoteItems st ib]> (<[a := set_own s ia]> l)).
Proof.
  intros Hbal Hb Hst Hirr. destruct (ba_range _ _ _ Hbal b ib z Hb) as (a & -> & Ha); [rewrite Hst; left|].
  pose proof (ba_stacks _ _ _ Hbal b ib) as Hcount. rewrite Hst in Hcount.
  assert (R a b = true) as Rab.
  { specialize (Hcount a Hb). cbn in Hcount. destruct (Z.eq_dec _ _); [|done]. destruct (R a b); [done|lia]. }
  assert (a <> b) as Hne by (intros ->; by rewrite Hirr in Rab).
  pose proof Ha as [ia Hia]%lookup_lt_is_Some. pose proof (ba_items _ _ _ Hbal a ia Hia) as [_ Hs _ _ _].
  assert (1 <= Z.of_nat (occurrences a l)) as Hpos.
  { destruct (occurrences a l) eqn:Ho; [|lia]. rewrite (proj1 (occurrences_zero g R l a Hbal) Ho b) in Rab; [done|by eapply lookup_lt_Some]. }
  destruct (promote_sum _ _ ia Hs Hpos) as (s & Hp & Hs'); [destruct (g a); cbn; lia|].
  exists a, ia, s. split_and!; try done. rewrite list_insert_insert_ne by done.
  eapply balanced_change; try done.
  - intros x y Hy. rewrite (proj2 (Nat.eqb_neq y b) Hy), andb_false_r. by rewrite andb_true_r.
  - intros x Hx. rewrite (proj2 (Nat.eqb_neq x a) Hx). by rewrite andb_true_r.
  - intros x. specialize (Hcount x Hb). cbn [count_occ] in Hcount. rewrite Nat.eqb_refl.
    destruct (Z.eq_dec _ _) as [He|He].
    + apply Nat2Z.inj in He as ->. rewrite Nat.eqb_refl, Rab in *. cbn. lia.
    + rewrite (proj2 (Nat.eqb_neq x a)) by (intros ->; done). by rewrite andb_true_r.
  - intros z Hz. apply (ba_range _ _ _ Hbal b ib z Hb). rewrite Hst. by right.
  - intros e He. rewrite Rab, !Nat.eqb_refl in He. cbn in He. replace (Z.of_nat e) with (Z.of_nat (occurrences a l) - 1) by lia. done.
Qed.

(** An item goes to its next stage. *)
Lemma balanced_restage g g' R l k i i' :
  balanced g R l -> l !! k = Some i -> promoteItems i' = promoteItems i ->
  item_ok k (g' k) (occurrences k l) i' -> (forall j, j <> k -> g' j = g j) ->
  balanced g' R (<[k := i']> l).
Proof.
  intros Hbal Hk Hst Hok Hg.
  assert (forall a, occurrences a (<[k := i']> l) = occurrences a l) as Hocc.
  { intros a. pose proof (nsum_insert (fun i => count (promoteItems i) (Z.of_nat a)) l k i i' Hk) as H. cbn in H.
    rewrite Hst in H. unfold occurrences. lia. }
  assert (forall j x, (<[k := i']> l) !! j = Some x -> exists y, l !! j = Some y /\ promoteItems x = promoteItems y) as Hlook.
  { intros j x [(<- & <- & _)|[_ Hj]]%list_lookup_insert_Some; [by exists i|by exists x]. }
  split.
  - intros j x [(<- & <- & _)|[Hne Hj]]%list_lookup_insert_Some; rewrite Hocc; [done|].
    rewrite Hg by done. by apply (ba_items _ _ _ Hbal).
  - intros b x a (y & Hy & ->)%Hlook. by apply (ba_stacks _ _ _ Hbal).
  - intros b x z (y & Hy & ->)%Hlook. rewrite length_insert. by apply (ba_range _ _ _ Hbal b).
Qed.

(** ** One checkpoint *)

(** What [LockFreeAddTxn] records. *)
Definition recorded (m : Method) : Prop := semantics m = FIFO /\ types m = PRODUCER /\ m_status m = true.
(** The second of two methods of one account requests more. *)
Definition above_method (m m' : Method) : bool :=
  bool_decide (itemAddrS m = itemAddrS m') && (requestAmnt m <? requestAmnt m').

Section checkpoint.
Context (ms : list Method) (methods : Methods).
Context (Hlen : (length ms <= 63)%nat) (Hrec : Forall recorded ms) (Hmethods : represents methods ms).

Definition above (a b : nat) : bool :=
  match ms !! a, ms !! b with Some m, Some m' => above_method m m' | _, _ => false end.
(** The pairs compared before the pair of [it] and [j]. *)
Definition links (it j a b : nat) : bool :=
  above a b && ((Nat.max a b <? it)%nat || ((Nat.max a b =? it)%nat && (Nat.min a b <? j)%nat)).
Definition items_ok (g : nat -> item_stage) (R : nat -> nat -> bool) (items : Items) : Prop :=
  exists l, represents items l /\ length l = length ms /\ balanced g R l.

Lemma above_irrefl a : above a a = false.
Proof. unfold above. destruct (ms !! a) as [m|]; [|done]. unfold above_method. rewrite Z.ltb_irrefl. apply andb_false_r. Qed.
Lemma above_asym a b : above a b = true -> above b a = false.
Proof.
  unfold above. destruct (ms !! a) as [m|], (ms !! b) as [m'|]; try done. unfold above_method.
  intros [_ H%Z.ltb_lt]%andb_true_iff. apply andb_false_iff. right. apply Z.ltb_ge. lia.
Qed.
Lemma above_range a b : above a b = true -> (a < length ms)%nat /\ (b < length ms)%nat.
Proof.
  unfold above. intros H. destruct (ms !! a) eqn:Ha; [|done]. destruct (ms !! b) eqn:Hb; [|done].
  split; by eapply lookup_lt_Some.
Qed.

Lemma items_ok_ext g g' R R' items :
  items_ok g R items -> (forall k, g' k = g k) -> (forall a b, R' a b = R a b) -> items_ok g' R' items.
Proof. intros (l & Hr & Hl & Hb) Hg HR. exists l. split_and!; try done. eapply balanced_ext; eauto. Qed.

(** Pushing and demoting, as the code does it. *)
Lemma link_ok g R items a b ib :
  items_ok g R items -> (a < length ms)%nat -> a <> b -> items !! Z.of_nat b = Some ib ->
  g a = Visited -> R a a = false -> R a b = false ->
  exists items', (items ← update (Z.of_nat b) (fun i => Some (set_promoteItems (Z.of_nat a :: promoteItems i) i)) items;
                  update (Z.of_nat a) demote items) = Some items' /\ items_ok g (link a b R) items'.
Proof.
  intros (l & Hr & Hl & Hbal) Ha Hne Hib Hg Raa Rab. rewrite (proj1 Hr) in Hib.
  rewrite <- Hl in Ha. apply lookup_lt_is_Some in Ha as [ia Hia].
  destruct (balanced_link g R l a b ia ib Hbal ltac:(lia) Hne Hia Hib Hg Raa Rab) as (s & Hd & Hbal').
  destruct (update_represents items l b ib _ (fun i => Some (set_promoteItems (Z.of_nat a :: promoteItems i) i)) Hr Hib eq_refl)
    as (items1 & Hu1 & Hr1).
  destruct (update_represents items1 _ a ia _ demote Hr1 ltac:(by rewrite list_lookup_insert_ne) Hd) as (items2 & Hu2 & Hr2).
  exists items2. split; [rewrite Hu1; exact Hu2|]. eexists. split; [exact Hr2|]. by rewrite !length_insert.
Qed.

(** Both pairs of the two methods are outside the compared ones. *)
Lemma links_before it it0 :
  (it0 < it)%nat -> links it it0 it0 it = false /\ links it it0 it it0 = false.
Proof.
  intros Hlt. unfold links. rewrite Nat.max_r, Nat.max_l, Nat.min_l, Nat.min_r by lia.
  rewrite !Nat.ltb_irrefl, andb_false_r. cbn. by rewrite !andb_false_r.
Qed.
Lemma links_irrefl it j a : links it j a a = false.
Proof. unfold links. by rewrite above_irrefl. Qed.
(** One more pair: nothing to do, or a link. *)
Lemma links_next it it0 a b :
  (it0 < it)%nat -> links it (S it0) a b =
    links it it0 a b || (above a b && (((a =? it0)%nat && (b =? it)%nat) || ((a =? it)%nat && (b =? it0)%nat))).
Proof.
  intros Hlt. unfold links. destruct (above a b); [|done]. cbn [andb].
  apply eq_true_iff_eq. rewrite ?orb_true_iff, ?andb_true_iff, ?orb_true_iff, ?andb_true_iff, ?Nat.ltb_lt, ?Nat.eqb_eq. lia.
Qed.
Lemma links_equal it it0 x y :
  (it0 < it)%nat -> above it0 it = false -> above it it0 = false -> links it (S it0) x y = links it it0 x y.
Proof.
  intros Hlt H1 H2. rewrite links_next by done. apply eq_true_iff_eq.
  rewrite orb_true_iff, andb_true_iff, orb_true_iff, !andb_true_iff, !Nat.eqb_eq.
  split; [intros [?|[Hxy [[-> ->]|[-> ->]]]]; [done|congruence..]|by left].
Qed.
Lemma links_linked it it0 a b x y :
  (it0 < it)%nat -> (a = it0 /\ b = it \/ a = it /\ b = it0) -> above a b = true ->
  links it (S it0) x y = link a b (links it it0) x y.
Proof.
  intros Hlt Hab Hup. rewrite links_next by done. unfold link. f_equal. pose proof (above_asym a b Hup) as Hdown.
  apply eq_true_iff_eq. rewrite !andb_true_iff, orb_true_iff, !andb_true_iff, !Nat.eqb_eq.
  split; [intros [Hxy [[-> ->]|[-> ->]]]|intros [-> ->]]; destruct Hab as [[-> ->]|[-> ->]]; split; auto; congruence.
Qed.

Lemma order_pair_ok g it it0 items :
  (it0 < it)%nat -> (it < length ms)%nat -> g it = Visited -> g it0 = Visited ->
  items_ok g (links it it0) items ->
  exists items', order_pair methods (Z.of_nat it) (Z.of_nat it0) items = Some items' /\ items_ok g (links it (S it0)) items'.
Proof.
  intros Hlt Hit Hg Hg0 Hok. pose proof Hok as (l & Hr & Hl & Hbal).
  assert (it0 < length ms)%nat as [m0 Hm0]%lookup_lt_is_Some by lia. pose proof Hit as [m Hm]%lookup_lt_is_Some.
  assert (it0 < length l)%nat as [i0 Hi0]%lookup_lt_is_Some by lia.
  assert (it < length l)%nat as [i Hi]%lookup_lt_is_Some by lia.
  destruct (ba_items _ _ _ Hbal it0 i0 Hi0) as [Hk0 _ Hst0 _ _]. destruct (ba_items _ _ _ Hbal it i Hi) as [Hk _ _ _ _].
  rewrite Hg0 in Hst0. cbn in Hst0. rewrite Forall_lookup in Hrec. destruct (Hrec it0 m0 Hm0) as (Hsem & _).
  destruct (links_before it it0 Hlt) as [Hl1 Hl2].
  assert (above it0 it = above_method m0 m /\ above it it0 = above_method m m0) as [Ha0 Ha] by (unfold above; by rewrite Hm0, Hm).
  unfold order_pair. rewrite !(proj1 Hmethods), !(proj1 Hr), Hm0, Hm, Hi0, Hi. cbn [mbind option_bind].
  rewrite Hst0, Hsem, Hk, Hk0, !bool_decide_eq_true_2, !andb_true_r by done. unfold above_method in Ha0, Ha.
  destruct (decide (itemAddrS m0 = itemAddrS m)) as [Hs|Hs].
  2: { exists items. split; [done|]. apply (items_ok_ext g g _ _ _ Hok); [done|]. intros a b.
       rewrite bool_decide_eq_false_2 in Ha0, Ha by congruence. by apply links_equal. }
  rewrite bool_decide_eq_true_2 in Ha0, Ha by congruence. cbn [andb] in Ha0, Ha.
  rewrite <- Ha, <- Ha0. destruct (above it it0) eqn:Hup; [|destruct (above it0 it) eqn:Hup0].
  - destruct (link_ok g _ items it it0 i0 Hok Hit ltac:(lia) ltac:(by rewrite (proj1 Hr)) Hg (links_irrefl _ _ _) Hl2) as (items' & Hu & Hok').
    exists items'. split; [exact Hu|]. apply (items_ok_ext _ _ _ _ _ Hok'); [done|]. intros a b. apply links_linked; auto.
  - destruct (link_ok g _ items it0 it i Hok ltac:(lia) ltac:(lia) ltac:(by rewrite (proj1 Hr)) Hg0 (links_irrefl _ _ _) Hl1) as (items' & Hu & Hok').
    exists items'. split; [exact Hu|]. apply (items_ok_ext _ _ _ _ _ Hok'); [done|]. intros a b. apply links_linked; auto.
  - exists items. split; [done|]. apply (items_ok_ext g g _ _ _ Hok); [done|]. intros a b. by apply links_equal.
Qed.

Definition visited_before (it k : nat) : item_stage := if (k <? it)%nat then Visited else Unvisited.

(** The item of the method gets its unit. *)
Lemma visit_item it items :
  (it < length ms)%nat -> items_ok (visited_before it) (links it 0) items ->
  exists items', (items ← update (Z.of_nat it) (fun i => Some (set_producer (Z.of_nat it) i)) items;
                  items ← update (Z.of_nat it) (fun i => Some (match i_status i with ABSENT => set_status PRESENT i | PRESENT => i end)) items;
                  update (Z.of_nat it) (fun i => Some (addInt 1 i)) items) = Some items' /\
    items_ok (visited_before (S it)) (links it 0) items'.
Proof.
  intros Hit (l & Hr & Hl & Hbal). pose proof Hit as Hit'. rewrite <- Hl in Hit'. apply lookup_lt_is_Some in Hit' as [i Hi].
  destruct (ba_items _ _ _ Hbal it i Hi) as [Hk Hs Hst Hf Hrd]. unfold visited_before in Hs, Hst. rewrite Nat.ltb_irrefl in Hs, Hst.
  destruct (update_represents items l it i _ (fun i => Some (set_producer (Z.of_nat it) i)) Hr Hi eq_refl) as (items1 & Hu1 & Hr1).
  pose proof (lookup_lt_Some _ _ _ Hi) as Hitl.
  destruct (update_represents_eq items1 l it _ (set_producer (Z.of_nat it) i)
    (fun i => Some (match i_status i with ABSENT => set_status PRESENT i | PRESENT => i end)) Hr1 Hitl) as (items2 & Hu2 & Hr2);
    [cbn; by rewrite Hst|].
  destruct (update_represents_eq items2 l it _ _ (fun i => Some (addInt 1 i)) Hr2 Hitl eq_refl) as (items3 & Hu3 & Hr3).
  exists items3. rewrite Hu1. cbn. rewrite Hu2. cbn. split; [exact Hu3|].
  eexists. split; [exact Hr3|]. rewrite length_insert. split; [done|]. destruct (addInt_sum _ (set_producer (Z.of_nat it) i) Hs) as (s & -> & Hs').
  eapply balanced_restage; try done.
  - unfold visited_before. destruct (Nat.ltb_spec it (S it)); [|lia]. by split.
  - intros j Hj. unfold visited_before. destruct (Nat.ltb_spec j (S it)), (Nat.ltb_spec j it); try done; lia.
Qed.

Lemma visit_ok it v items :
  (it < length ms)%nat -> items_ok (visited_before it) (links it 0) items ->
  exists v' items', visit methods (Z.of_nat it) (v, items) = Some (v', items') /\
    items_ok (visited_before (S it)) (links (S it) 0) items'.
Proof.
  intros Hit Hok. destruct (visit_item it items Hit Hok) as (items1 & Hu & Hok1). pose proof Hit as [m Hm]%lookup_lt_is_Some.
  pose proof (proj1 (Forall_lookup _ _) Hrec it m Hm) as (Hsem & Hty & _).
  unfold visit. rewrite (proj1 Hmethods), Hm. cbn [mbind option_bind]. rewrite decide_True by done.
  destruct (update _ _ items) as [items2|]; [|done]. cbn [mbind option_bind] in Hu |- *.
  destruct (update _ _ items2) as [items3|]; [|done]. cbn [mbind option_bind] in Hu |- *. rewrite Hu. cbn [mbind option_bind].
  rewrite decide_True by done.
  match goal with |- context [for_range _ _ ?f ?a] =>
    destruct (for_range_rule (fun j (vi : Verifier * Items) => items_ok (visited_before (S it)) (links it j) vi.2) it f a)
      as ([v' items'] & Hf & Hok'); [exact Hok1| |]
  end.
  2: { exists v', items'. split; [exact Hf|]. apply (items_ok_ext _ _ _ _ _ Hok'); [done|]. intros a b. unfold links.
       destruct (above a b) eqn:Hab; [|done]. cbn [andb]. assert (a <> b) by (intros ->; by rewrite above_irrefl in Hab).
       apply eq_true_iff_eq. rewrite !orb_true_iff, !andb_true_iff, !Nat.ltb_lt, !Nat.eqb_eq. lia. }
  intros j [v2 items4] Hj Hok2.
  destruct (order_pair_ok (visited_before (S it)) it j items4) as (items5 & Ho & Hok5); try done;
    [unfold visited_before; by destruct (Nat.ltb_spec it (S it)); [|lia]|unfold visited_before; by destruct (Nat.ltb_spec j (S it)); [|lia]|].
  eexists (_, items5). cbn. rewrite Ho. by split.
Qed.

(** ** The turns *)

Lemma promote_all_ok g st R items l b ib :
  represents items l -> length l = length ms -> balanced g R l -> (forall x, R x x = false) ->
  l !! b = Some ib -> promoteItems ib = st ->
  exists items', promote_all (Z.of_nat b) st items = Some items' /\ items_ok g (fun x y => R x y && negb (y =? b)%nat) items'.
Proof.
  revert R items l ib. induction st as [|z st IH]; intros R items l ib Hr Hl Hbal Hirr Hb Hst.
  - exists items. split; [done|]. exists l. split_and!; try done. apply (balanced_ext g g R _ l Hbal); [done|].
    intros x y _. destruct (Nat.eqb_spec y b) as [->|]; [|apply andb_true_r]. rewrite andb_false_r.
    pose proof (ba_stacks _ _ _ Hbal b ib x Hb) as Hc. rewrite Hst in Hc. by destruct (R x b).
  - destruct (balanced_unlink g R l b ib z st Hbal Hb Hst Hirr) as (a & ia & s & -> & Hne & Ha & Hp & Hbal').
    destruct (update_represents items l a ia _ promote Hr Ha Hp) as (items1 & Hu1 & Hr1).
    destruct (update_represents items1 _ b ib _ (fun i => Some (set_promoteItems st i)) Hr1 ltac:(by rewrite list_lookup_insert_ne) eq_refl)
      as (items2 & Hu2 & Hr2).
    destruct (IH _ items2 _ (set_promoteItems st ib) Hr2 ltac:(by rewrite !length_insert) Hbal') as (items' & Hpa & Hok').
    + intros x. by rewrite Hirr.
    + apply list_lookup_insert_eq. rewrite length_insert. by eapply lookup_lt_Some.
    + done.
    + exists items'. split; [cbn; rewrite Hu1; cbn; rewrite Hu2; exact Hpa|].
      apply (items_ok_ext _ _ _ _ _ Hok'); [done|]. intros x y. destruct (Nat.eqb_spec y b) as [->|].
      * by rewrite !andb_false_r.
      * by rewrite !andb_true_r, andb_false_r, andb_true_r.
Qed.

Definition consumed_before (it k : nat) : item_stage := if (k <? it)%nat then Consumed else Visited.
Definition remaining (it a b : nat) : bool := above a b && (it <=? b)%nat.
(** No method before [it] is followed by one that is above it. *)
Definition ordered_before (it : nat) : Prop := forall a b, (a < it)%nat -> (a < b)%nat -> above a b = false.

Lemma ordered_next it l :
  length l = length ms -> balanced (consumed_before it) (remaining it) l ->
  (ordered_before (S it) <-> ordered_before it /\ occurrences it l = O).
Proof.
  intros Hl Hbal. rewrite (occurrences_zero _ _ _ it Hbal), Hl. unfold ordered_before, remaining. split.
  - intros Ho. split; [intros; apply Ho; lia|]. intros b Hb.
    destruct (Nat.leb_spec it b); [|apply andb_false_r]. rewrite andb_true_r.
    destruct (decide (b = it)) as [->|]; [apply above_irrefl|apply Ho; lia].
  - intros [Ho Hz] a b Ha Hab. destruct (decide (a = it)) as [->|]; [|apply Ho; lia].
    destruct (above it b) eqn:Hup; [|done]. specialize (Hz b ltac:(by apply (above_range it b))).
    rewrite Hup in Hz. destruct (Nat.leb_spec it b); [done|lia].
Qed.

Lemma nonce_turn_ok it result v items :
  (it < length ms)%nat -> items_ok (consumed_before it) (remaining it) items -> (result = true <-> ordered_before it) ->
  exists result' v' items', nonce_turn methods (Z.of_nat it) (result, v, items) = Some (result', v', items') /\
    items_ok (consumed_before (S it)) (remaining (S it)) items' /\ (result' = true <-> ordered_before (S it)).
Proof.
  intros Hit (l & Hr & Hl & Hbal) Hres. pose proof Hit as [m Hm]%lookup_lt_is_Some.
  assert (it < length l)%nat as [i Hi]%lookup_lt_is_Some by lia.
  pose proof (proj1 (Forall_lookup _ _) Hrec it m Hm) as (_ & _ & Hstatus).
  pose proof (ba_items _ _ _ Hbal it i Hi) as [Hk Hs Hst Hf Hrd].
  unfold consumed_before in Hs at 1. rewrite Nat.ltb_irrefl in Hs. cbn [stage_base] in Hs.
  unfold nonce_turn. rewrite (proj1 Hmethods), Hm, (proj1 Hr), Hi. cbn [mbind option_bind]. rewrite Hstatus.
  replace (if positive (sum (own i))
           then set_reader (mkSum (0, 1) (numerator (reader i)) (denominator (reader i)) (exponent (reader i))) i
           else i) with i by (rewrite Hrd; destruct (positive _); [destruct i; cbn in *; by subst|done]).
  destruct (subInt_sum _ i Hs) as (s & -> & Hs'). cbn [sum own set_own].
  rewrite (sum_is_sign _ _ _ Hs' (or_intror eq_refl)). cbn [promoteItems set_status set_own].
  pose proof (ordered_next it l Hl Hbal) as Hnext.
  set (i' := set_status ABSENT (set_own s i)).
  assert (balanced (consumed_before (S it)) (remaining it) (<[it := i']> l)) as Hbal'.
  { eapply balanced_restage; try done.
    - unfold consumed_before. destruct (Nat.ltb_spec it (S it)); [|lia]. by split.
    - intros j Hj. unfold consumed_before. destruct (Nat.ltb_spec j (S it)), (Nat.ltb_spec j it); try done; lia. }
  destruct (promote_all_ok _ (promoteItems i) _ (<[Z.of_nat it := i']> items) _ it i'
    (represents_insert _ _ _ _ Hr (lookup_lt_Some _ _ _ Hi)) ltac:(by rewrite length_insert) Hbal')
    as (items' & Hpa & Hok').
  { intros x. unfold remaining. by rewrite above_irrefl. }
  { apply list_lookup_insert_eq. by eapply lookup_lt_Some. }
  { done. }
  assert (items_ok (consumed_before (S it)) (remaining (S it)) items') as Hok2.
  { apply (items_ok_ext _ _ _ _ _ Hok'); [done|]. intros a b. unfold remaining. destruct (above a b); [|done]. cbn [andb].
    apply eq_true_iff_eq. rewrite andb_true_iff, negb_true_iff, Nat.eqb_neq, !Nat.leb_le. lia. }
  case_bool_decide as Hneg; (do 3 eexists; split; [rewrite Hpa; reflexivity|]; split; [done|]).
  - split; [done|]. intros [_ Hz]%Hnext. lia.
  - rewrite Hnext, Hres. split; [|by intros [? _]]. intros Ho. split; [done|lia].
Qed.

Lemma handleNonceOrder_ok items v :
  items_ok (visited_before (length ms)) (links (length ms) 0) items ->
  exists result v' items', handleNonceOrder methods items v = Some (result, v', items') /\
    items_ok (consumed_before (length ms)) (remaining (length ms)) items' /\ (result = true <-> ordered_before (length ms)).
Proof.
  intros Hok. assert (size items = length ms) as Hsz by (destruct Hok as (l & Hr & Hl & _); rewrite <- Hl; apply Hr).
  unfold handleNonceOrder. rewrite Hsz.
  destruct (for_range_rule (fun it (ri : bool * Verifier * Items) =>
      items_ok (consumed_before it) (remaining it) ri.2 /\ (ri.1.1 = true <-> ordered_before it))
    (length ms) (nonce_turn methods) (true, v, items)) as ([[result v'] items'] & Hf & Hok' & Hres).
  - split; [|split; [intros _ a b Ha; lia|done]]. destruct Hok as (l & Hr & Hl & Hbal). exists l. split_and!; try done.
    split.
    + intros k i Hk. pose proof (ba_items _ _ _ Hbal k i Hk) as Hi. unfold visited_before in Hi.
      destruct (Nat.ltb_spec k (length ms)); [done|]. apply lookup_lt_Some in Hk. lia.
    + intros b i a Hb. rewrite (ba_stacks _ _ _ Hbal b i a Hb). unfold links, remaining.
      destruct (above a b) eqn:Hab; [|done]. destruct (above_range a b Hab). destruct (Nat.ltb_spec (Nat.max a b) (length ms)); [done|lia].
    + apply (ba_range _ _ _ Hbal).
  - intros it [[result v1] items1] Hit [Hok1 Hres1].
    destruct (nonce_turn_ok it result v1 items1 Hit Hok1 Hres1) as (r2 & v2 & i2 & Hst & Hok2 & Hres2).
    by exists (r2, v2, i2).
  - by exists result, v', items'.
Qed.

Lemma verify_sums_ok items outcome :
  items_ok (consumed_before (length ms)) (remaining (length ms)) items ->
  for_range 0 (Z.of_nat (length ms)) (verify_sums items) outcome = Some outcome.
Proof.
  intros (l & Hr & Hl & Hbal).
  destruct (for_range_rule (fun _ o => o = outcome) (length ms) (verify_sums items) outcome eq_refl) as (o & Hf & ->); [|done].
  intros k o Hk ->. exists outcome. split; [|done]. unfold verify_sums. rewrite (proj1 Hr).
  assert (k < length l)%nat as [i Hi]%lookup_lt_is_Some by lia. rewrite Hi. cbn [mbind option_bind].
  pose proof (ba_items _ _ _ Hbal k i Hi) as [_ Hs _ Hf Hrd]. unfold consumed_before in Hs.
  rewrite (proj2 (Nat.ltb_lt k (length ms)) Hk) in Hs.
  assert (occurrences k l = O) as Hz.
  { apply (occurrences_zero _ _ _ k Hbal). intros b Hb. unfold remaining.
    destruct (Nat.leb_spec (length ms) b); [lia|apply andb_false_r]. }
  rewrite Hz in Hs. destruct (sum_is_done _ Hs) as (_ & -> & ->). by rewrite Hf, Hrd.
Qed.

Lemma checkpoint_ok items v :
  items_ok (fun _ => Unvisited) (fun _ _ => false) items -> ms <> [] ->
  exists v' p', verifyCheckpoint methods items true (v, mkProgress 0 0) = Some (v', p') /\
    (finalOutcome v' = true <-> ordered_before (length ms)).
Proof.
  intros Hok Hne. unfold verifyCheckpoint. rewrite (proj2 Hmethods). cbn [countIterated].
  assert (0 < length ms)%nat as Hpos by (destruct ms; [done|cbn; lia]).
  assert (i32 (Z.of_nat (length ms)) = Z.of_nat (length ms)) as ->.
  { unfold i32. rewrite Z.mod_small by lia. destruct (Z.ltb_spec (Z.of_nat (length ms)) (2 ^ 31)); lia. }
  cbn [methodCount]. destruct (Z.eqb_spec (Z.of_nat (length ms)) 0); [lia|]. cbn [Z.eqb].
  match goal with |- context [for_range 0 _ (visit methods) ?a] =>
    destruct (for_range_rule (fun it (vi : Verifier * Items) => items_ok (visited_before it) (links it 0) vi.2)
      (length ms) (visit methods) a) as ([v1 items1] & Hf & Hok1)
  end.
  - apply (items_ok_ext _ _ _ _ _ Hok).
    + intros k. unfold visited_before. by destruct (Nat.ltb_spec k 0); [lia|].
    + intros a b. unfold links. destruct (Nat.ltb_spec (Nat.max a b) 0); [lia|]. destruct (Nat.ltb_spec (Nat.min a b) 0); [lia|].
      by rewrite !andb_false_r.
  - intros it [v1 items1] Hit Hok1. destruct (visit_ok it v1 items1 Hit Hok1) as (v2 & items2 & Hv & Hok2). by exists (v2, items2).
  - rewrite Hf. cbn [mbind option_bind]. destruct (Z.ltb_spec 0 (Z.of_nat (length ms))); [|lia].
    destruct (handleNonceOrder_ok items1 v1 Hok1) as (result & v2 & items2 & Hh & Hok2 & Hres). rewrite Hh. cbn [mbind option_bind].
    assert (size items2 = length ms) as -> by (destruct Hok2 as (l & Hr & Hl & _); rewrite <- Hl; apply Hr).
    rewrite (verify_sums_ok items2 result Hok2). cbn [mbind option_bind]. do 2 eexists. split; [reflexivity|]. done.
Qed.
End checkpoint.

(** ** The maps of a round *)

(** A history in which every transaction has got its number. *)
Definition history_ok (lists : list (list Method)) : Prop :=
  map m_id (concat lists) ≡ₚ seqZ 0 (Z.of_nat (length (concat lists))) /\ Forall recorded (concat lists).

Definition fresh_item (m : Method) : Item := set_producer (m_id m) (NewItem (m_id m)).
Definition keyed {A} (f : Method -> A) (ms : list Method) : list (Z * A) := map (fun m => (m_id m, f m)) ms.

Lemma collect_list mx ms (methods : Methods) (items : Items) :
  Forall (fun m => 0 <= m_id m) ms ->
  foldl (collect_method mx) (methods, items) ms =
    (foldl (fun M m => <[m_id m := m]> M) methods ms, foldl (fun I m => <[m_id m := fresh_item m]> I) items ms).
Proof.
  intros Hms. revert methods items. induction Hms as [|m ms Hm _ IH]; intros methods items; [done|].
  cbn [foldl]. unfold collect_method at 2. destruct (Z.eqb_spec (m_id m) (-1)); [lia|]. apply IH.
Qed.
Lemma collect_lists mx lists (methods : Methods) (items : Items) :
  Forall (fun m => 0 <= m_id m) (concat lists) ->
  foldl (fun mi l => foldl (collect_method l.1) mi l.2) (methods, items) (map (pair mx) lists) =
    (foldl (fun M m => <[m_id m := m]> M) methods (concat lists),
     foldl (fun I m => <[m_id m := fresh_item m]> I) items (concat lists)).
Proof.
  revert methods items. induction lists as [|l lists IH]; intros methods items H; [done|].
  cbn [concat] in H. apply Forall_app in H as [H1 H2]. cbn [map foldl fst snd concat].
  rewrite collect_list, !foldl_app by done. by apply IH.
Qed.

Lemma foldl_insert {A} (f : Method -> A) ms ms' :
  NoDup (map m_id ms) -> ms ≡ₚ ms' ->
  foldl (fun (M : gmap Z A) m => <[m_id m := f m]> M) ∅ ms = list_to_map (keyed f ms').
Proof.
  intros Hnd Hp. transitivity (list_to_map (keyed f (rev ms)) : gmap Z A).
  - unfold keyed. rewrite map_rev. generalize ms. clear. intros ms. induction ms as [|m ms IH] using rev_ind; [done|].
    rewrite foldl_app, map_app, rev_app_distr. cbn. by rewrite IH.
  - apply list_to_map_proper.
    + unfold keyed. rewrite <- list_fmap_compose. cbn. change (NoDup (map m_id (rev ms))).
      by rewrite map_rev, <- Permutation_rev.
    + unfold keyed. apply Permutation_map. by rewrite <- Permutation_rev.
Qed.
Lemma keyed_represents {A} (f : Method -> A) ms :
  map m_id ms = seqZ 0 (Z.of_nat (length ms)) -> represents (list_to_map (keyed f ms)) (map f ms).
Proof.
  intros Hids.
  assert ((keyed f ms).*1 = seqZ 0 (Z.of_nat (length ms))) as Hk.
  { rewrite <- Hids. unfold keyed. by rewrite <- list_fmap_compose. }
  assert (NoDup (keyed f ms).*1) as Hnd by (rewrite Hk; apply NoDup_seqZ).
  assert (forall k m, ms !! k = Some m -> m_id m = Z.of_nat k) as Hid.
  { intros k m Hm. assert (map m_id ms !! k = Some (m_id m)) as Hl by (by rewrite list_lookup_fmap, Hm).
    rewrite Hids in Hl. apply lookup_seqZ in Hl. lia. }
  split.
  - intros k. rewrite list_lookup_fmap. destruct (ms !! k) as [m|] eqn:Hm; cbn.
    + apply elem_of_list_to_map_1; [done|]. unfold keyed. apply list_elem_of_fmap. exists m. rewrite (Hid k m Hm).
      split; [done|by eapply list_elem_of_lookup_2].
    + apply not_elem_of_list_to_map_1. rewrite Hk. intros Hin%elem_of_seqZ. apply lookup_ge_None in Hm. lia.
  - rewrite <- (length_map_to_list (list_to_map (keyed f ms))), map_to_list_to_map by done. unfold keyed. by rewrite !length_map.
Qed.

Lemma fresh_items_ok ms :
  map m_id ms = seqZ 0 (Z.of_nat (length ms)) ->
  items_ok ms (fun _ => Unvisited) (fun _ _ => false) (list_to_map (keyed fresh_item ms)).
Proof.
  intros Hids. exists (map fresh_item ms). split; [by apply keyed_represents|]. split; [by rewrite length_map|].
  assert (forall k i, map fresh_item ms !! k = Some i -> i = set_producer (Z.of_nat k) (NewItem (Z.of_nat k))) as Hi.
  { intros k i Hk. rewrite list_lookup_fmap in Hk. destruct (ms !! k) as [m|] eqn:Hm; [|done]. cbn in Hk. injection Hk as <-.
    assert (map m_id ms !! k = Some (m_id m)) as Hl by (by rewrite list_lookup_fmap, Hm).
    rewrite Hids in Hl. apply lookup_seqZ in Hl. unfold fresh_item. by replace (m_id m) with (Z.of_nat k) by lia. }
  assert (forall a, occurrences a (map fresh_item ms) = O) as Hocc.
  { intros a. clear. induction ms as [|m ms IH]; [done|]. exact IH. }
  split.
  - intros k i Hk. rewrite (Hi k i Hk), Hocc. split; try done. apply zero_sum_is.
  - intros b i a Hb. by rewrite (Hi b i Hb).
  - intros b i z Hb. rewrite (Hi b i Hb). by intros ?%elem_of_nil.
Qed.

Lemma Verify_ok ms lists n v :
  concat lists ≡ₚ ms -> map m_id ms = seqZ 0 (Z.of_nat (length ms)) -> (length ms <= 63)%nat -> Forall recorded ms ->
  exists b v', Verify n lists v = Some (b, v') /\
    (ms = [] -> b = finalOutcome v) /\ (ms <> [] -> (b = true <-> ordered_before ms (length ms))).
Proof.
  intros Hp Hids Hlen Hrec. unfold Verify, verify. cbn [verify_rounds]. unfold collect.
  assert (NoDup (map m_id (concat lists))) as Hnd by (rewrite (Permutation_map m_id Hp), Hids; apply NoDup_seqZ).
  rewrite collect_lists by (rewrite Hp; rewrite Forall_forall; intros m Hm;
    assert (m_id m ∈ map m_id ms) as Hin by (by apply (list_elem_of_fmap_2 m_id ms m));
    rewrite Hids in Hin; apply elem_of_seqZ in Hin; lia).
  rewrite (foldl_insert (fun m => m) _ ms), (foldl_insert fresh_item _ ms) by done.
  pose proof (keyed_represents (fun m => m) ms Hids) as Hrep. rewrite map_id in Hrep.
  destruct (decide (ms = [])) as [->|Hne]; [by do 2 eexists|].
  destruct (checkpoint_ok ms _ Hlen Hrec Hrep _ v (fresh_items_ok ms Hids) Hne) as (v' & p' & Hc & Hout).
  rewrite Hc. cbn [mbind option_bind]. do 2 eexists. split; [reflexivity|]. done.
Qed.

(** C19. [Verify] always answers on the history of a block in which every
    transaction has got its number (up to 63 of them, so that the denominators
    fit in an int64), and it accepts the history exactly if no account follows
    a transaction with one of a larger amount. *)
Theorem Verify_decides lists n :
  history_ok lists -> (length (concat lists) <= 63)%nat ->
  exists b v, Verify n lists NewVerifier = Some (b, v) /\
    (b = true <-> forall m m', m ∈ concat lists -> m' ∈ concat lists -> itemAddrS m = itemAddrS m' ->
       m_id m < m_id m' -> requestAmnt m' <= requestAmnt m).
Proof.
  intros [Hids Hrec] Hlen.
  destruct (Permutation_map_inv _ _ (symmetry Hids)) as (ms & Hms & Hp).
  rewrite (Permutation_length Hp) in Hms, Hlen. rewrite Hp in Hrec.
  destruct (Verify_ok ms lists n NewVerifier Hp (eq_sym Hms) Hlen Hrec) as (b & v & Hv & Hnil & Hcons).
  exists b, v. split; [done|]. setoid_rewrite Hp.
  destruct (decide (ms = [])) as [->|Hne].
  - rewrite (Hnil eq_refl). split; [|done]. intros _ m m' Hm%elem_of_nil. done.
  - rewrite (Hcons Hne). clear - Hms. assert (forall k m, ms !! k = Some m -> m_id m = Z.of_nat k) as Hid.
    { intros k m Hm. assert (map m_id ms !! k = Some (m_id m)) as Hl by (by rewrite list_lookup_fmap, Hm).
      rewrite <- Hms in Hl. apply lookup_seqZ in Hl. lia. }
    split.
    + intros Ho m m' [a Ha]%list_elem_of_lookup [b' Hb]%list_elem_of_lookup Hs Hlt.
      rewrite (Hid a m Ha), (Hid b' m' Hb) in Hlt. specialize (Ho a b' (lookup_lt_Some _ _ _ Ha) ltac:(lia)).
      unfold above in Ho. rewrite Ha, Hb in Ho. unfold above_method in Ho. rewrite bool_decide_eq_true_2 in Ho by done.
      cbn in Ho. apply Z.ltb_ge in Ho. lia.
    + intros Hle a b' Ha Hab. unfold above. destruct (ms !! a) as [m|] eqn:Hma; [|done]. destruct (ms !! b') as [m'|] eqn:Hmb; [|done].
      unfold above_method. case_bool_decide as Hs; [|done]. cbn. apply Z.ltb_ge.
      apply (Hle m m'); [by eapply list_elem_of_lookup_2..|done|]. rewrite (Hid a m Hma), (Hid b' m' Hmb). lia.
Qed.

(** ** Recording under threads *)

Lemma set_last_app id l m :
  set_last id (l ++ [m]) = l ++ [NewMethod id (itemAddrS m) (itemAddrR m) (semantics m) (types m) (m_status m) (requestAmnt m)].
Proof. induction l as [|x l IH]; [done|]. cbn. rewrite IH. by destruct l. Qed.

(** The methods of a list that have their numbers, and the number a thread is
    about to store. *)
Definition numbered (w : adder) (l : list Method) : list Method :=
  match a_pc w with Pushing => l | _ => removelast l end.
Definition numbers (w : adder) (l : list Method) : list Z :=
  map m_id (numbered w l) ++ match a_pc w with Numbering index => [index] | _ => [] end.
Definition uncounted (w : adder) : nat :=
  match a_pc w with Numbering _ => pred (length (todo w)) | _ => length (todo w) end.
Definition is_method_of (m : Method) (d : TransactionData) : Prop := m = method_of d (m_id m).

(** The list of a thread against all the transactions it has to record. *)
Definition list_ok (all : list TransactionData) (w : adder) (l : list Method) : Prop :=
  exists l0 done, all = done ++ todo w /\ Forall2 is_method_of l0 done /\
    match a_pc w with
    | Pushing => l = l0
    | _ => exists d rest, todo w = d :: rest /\ l = l0 ++ [method_of d (-1)]
    end.

Record history_inv (todos : list (list TransactionData)) (c : config adder history) : Prop := {
  hi_lists : forall i w, c.1 !! i = Some w -> tid w = i /\
    exists all l, todos !! i = Some all /\ threadLists c.2 !! i = Some l /\ list_ok all w l;
  hi_length : length c.1 = length todos /\ length (threadLists c.2) = length todos;
  hi_numbers : concat (zip_with numbers c.1 (threadLists c.2)) ≡ₚ seqZ 0 (numTxnsAdded c.2);
  hi_count : numTxnsAdded c.2 + Z.of_nat (nsum uncounted c.1) = Z.of_nat (length (concat todos));
  hi_pos : 0 <= numTxnsAdded c.2;
}.

Lemma zip_numbers_insert ws ls i w l w' l' extra :
  ws !! i = Some w -> ls !! i = Some l -> numbers w' l' ≡ₚ numbers w l ++ extra ->
  concat (zip_with numbers (<[i := w']> ws) (<[i := l']> ls)) ≡ₚ concat (zip_with numbers ws ls) ++ extra.
Proof.
  revert ls i. induction ws as [|u ws IH]; intros [|k ls] [|i] Hw Hl Hp; try done; cbn in Hw, Hl.
  - injection Hw as ->. injection Hl as ->. cbn. rewrite Hp, <- !app_assoc. by rewrite (Permutation_app_comm extra).
  - change (numbers u k ++ concat (zip_with numbers (<[i := w']> ws) (<[i := l']> ls)) ≡ₚ
      (numbers u k ++ concat (zip_with numbers ws ls)) ++ extra). rewrite (IH ls i Hw Hl Hp). by rewrite app_assoc.
Qed.

(** A step on the list of one thread. *)
Lemma history_inv_intro todos c i w all l w' l' added extra :
  history_inv todos c -> c.1 !! i = Some w -> todos !! i = Some all -> threadLists c.2 !! i = Some l ->
  tid w' = i -> list_ok all w' l' -> numbers w' l' ≡ₚ numbers w l ++ extra ->
  seqZ 0 added ≡ₚ seqZ 0 (numTxnsAdded c.2) ++ extra ->
  added + Z.of_nat (uncounted w') = numTxnsAdded c.2 + Z.of_nat (uncounted w) -> 0 <= added ->
  history_inv todos (<[i := w']> c.1, mkHistory (<[i := l']> (threadLists c.2)) added).
Proof.
  intros [Hlists [Hl1 Hl2] Hnum Hcnt Hpos] Hw Ha Hl Htid Hok Hn Hseq Hc Hp. split; cbn [fst snd threadLists numTxnsAdded].
  - intros j u Hj. apply list_lookup_insert_Some in Hj as [(<- & <- & _)|[Hne Hj]].
    + split; [done|]. exists all, l'. split_and!; try done. apply list_lookup_insert_eq. by eapply lookup_lt_Some.
    + rewrite list_lookup_insert_ne by done. by apply Hlists.
  - by rewrite !length_insert.
  - rewrite (zip_numbers_insert _ _ _ _ _ _ _ extra Hw Hl Hn), Hnum. by symmetry.
  - pose proof (nsum_insert uncounted c.1 i w w' Hw). lia.
  - done.
Qed.

Lemma i32_id x : 0 <= x < 2 ^ 31 -> i32 x = x.
Proof. intros Hx. unfold i32. rewrite Z.mod_small by lia. destruct (Z.ltb_spec x (2 ^ 31)); lia. Qed.

Lemma history_step todos i c w w' h' :
  Z.of_nat (length (concat todos)) < 2 ^ 31 -> history_inv todos c -> c.1 !! i = Some w ->
  LockFreeAddTxn_step w c.2 = Some (w', h') -> history_inv todos (<[i := w']> c.1, h').
Proof.
  intros Hsmall Hinv Hw Hst. destruct (hi_lists _ _ Hinv i w Hw) as (Htid & all & l & Hall & Hl & Hok).
  pose proof Hok as (l0 & dn & Hdone & Hf & Hpc). unfold LockFreeAddTxn_step in Hst.
  destruct w as [t td p]. cbn [tid todo a_pc] in *. subst t. destruct td as [|d rest]; [done|].
  rewrite Hl in Hst. cbn [mbind option_bind] in Hst. destruct p; injection Hst as <- <-.
  - subst l0. eapply (history_inv_intro todos c i _ all l _ _ _ []); try done.
    + exists l, dn. split_and!; try done. by exists d, rest.
    + rewrite app_nil_r. unfold numbers, numbered. cbn [a_pc]. by rewrite removelast_last.
    + by rewrite app_nil_r.
    + apply (hi_pos _ _ Hinv).
  - assert (numTxnsAdded c.2 + 1 < 2 ^ 31) as Hlt.
    { pose proof (hi_count _ _ Hinv) as Hc.
      pose proof (nsum_insert uncounted c.1 i _ (mkAdder i [] Pushing) Hw) as Hn. cbn in Hn. lia. }
    pose proof (hi_pos _ _ Hinv) as Hpos. rewrite i32_id by lia.
    replace (threadLists c.2) with (<[i := l]> (threadLists c.2)) by (by apply list_insert_id).
    eapply (history_inv_intro todos c i _ all l _ _ _ [numTxnsAdded c.2]); try done.
    + unfold numbers, numbered. cbn [a_pc]. rewrite app_nil_r. by replace (numTxnsAdded c.2 + 1 - 1) with (numTxnsAdded c.2) by lia.
    + pose proof (seqZ_S 0 (Z.to_nat (numTxnsAdded c.2))) as Hseq. rewrite Nat2Z.inj_succ, Z2Nat.id, <- Z.add_1_r in Hseq by lia.
      by rewrite Hseq, Z.add_0_l.
    + unfold uncounted. cbn [a_pc todo length]. lia.
    + lia.
  - destruct Hpc as (d' & rest' & [= <- <-] & ->). rewrite set_last_app.
    eapply (history_inv_intro todos c i _ all _ _ _ _ []); try done.
    + exists (l0 ++ [method_of d index]), (dn ++ [d]). cbn [todo a_pc]. rewrite <- app_assoc. split_and!; try done.
      apply Forall2_app; [done|]. by apply Forall2_cons.
    + rewrite app_nil_r. unfold numbers, numbered. cbn [a_pc]. rewrite removelast_last, map_app, app_nil_r. done.
    + by rewrite app_nil_r.
    + apply (hi_pos _ _ Hinv).
Qed.

(** The threads before they have recorded anything. *)
Definition start_adders (todos : list (list TransactionData)) : list adder := imap (fun i todo => mkAdder i todo Pushing) todos.
Definition empty_history (n : nat) : history := mkHistory (replicate n []) 0.

Lemma start_adders_nsum todos k : nsum uncounted (imap (fun i todo => mkAdder (k + i) todo Pushing) todos) = length (concat todos).
Proof.
  revert k. induction todos as [|td todos IH]; intros k; [done|]. cbn. rewrite length_app, <- (IH (S k)). f_equal. f_equal.
  apply imap_ext. intros i x _. cbn. f_equal. lia.
Qed.
Lemma history_start todos : history_inv todos (start_adders todos, empty_history (length todos)).
Proof.
  split; cbn [fst snd empty_history threadLists numTxnsAdded].
  - intros i w Hi. unfold start_adders in Hi. rewrite list_lookup_imap in Hi. destruct (todos !! i) as [all|] eqn:Ha; [|done].
    cbn in Hi. injection Hi as <-. split; [done|]. exists all, []. split_and!; [done|apply lookup_replicate_2; by eapply lookup_lt_Some|].
    by exists [], [].
  - unfold start_adders. by rewrite length_imap, length_replicate.
  - assert (forall ts n, concat (zip_with numbers (imap (fun i todo => mkAdder (n + i) todo Pushing) ts) (replicate (length ts) [])) = []) as Hz.
    { intros ts. induction ts as [|t ts IH]; intros n; [done|]. cbn. etransitivity; [|exact (IH (S n))]. f_equal. f_equal.
      apply imap_ext. intros i x _. cbn. f_equal. lia. }
    pose proof (Hz todos O) as Hz0. cbn in Hz0. unfold start_adders. by rewrite Hz0.
  - pose proof (start_adders_nsum todos O) as Hn. unfold start_adders. cbn in Hn. rewrite Hn. lia.
  - done.
Qed.

(** However the miner's threads are scheduled, once they are done the
    history has a method for every transaction they reported, in the order of
    each thread, and the methods have the numbers 0, 1, 2, ... without a gap or
    a repetition. *)
Theorem history_recorded todos sched c :
  Z.of_nat (length (concat todos)) < 2 ^ 31 ->
  run_schedule LockFreeAddTxn_step sched (start_adders todos, empty_history (length todos)) = Some c ->
  Forall (fun w => todo w = []) c.1 ->
  history_ok (threadLists c.2) /\ Forall2 (Forall2 is_method_of) (threadLists c.2) todos.
Proof.
  intros Hsmall Hrun Hdone.
  assert (history_inv todos c) as Hinv.
  { eapply (run_schedule_ind LockFreeAddTxn_step (history_inv todos)); [|apply history_start|exact Hrun].
    intros i c1 w w' h' Hi Hw Hst. by eapply history_step. }
  rewrite Forall_lookup in Hdone. destruct (hi_length _ _ Hinv) as [Hl1 Hl2].
  assert (forall i w, c.1 !! i = Some w -> a_pc w = Pushing) as Hpc.
  { intros i w Hi. destruct (hi_lists _ _ Hinv i w Hi) as (_ & all & l & _ & _ & l0 & dn & _ & _ & Hp).
    rewrite (Hdone i w Hi) in Hp. by destruct (a_pc w); [|destruct Hp as (? & ? & ? & _)..]. }
  assert (Forall2 (Forall2 is_method_of) (threadLists c.2) todos) as Hall.
  { apply Forall2_same_length_lookup_2; [done|]. intros i l all Hl Ha.
    assert (i < length c.1)%nat as [w Hw]%lookup_lt_is_Some by (rewrite Hl1; by eapply lookup_lt_Some).
    destruct (hi_lists _ _ Hinv i w Hw) as (_ & all' & l' & Ha' & Hl' & l0 & dn & Heq & Hf & Hp).
    rewrite (Hpc i w Hw) in Hp. rewrite (Hdone i w Hw), app_nil_r in Heq. by simplify_eq. }
  split; [|done].
  assert (concat (zip_with numbers c.1 (threadLists c.2)) = map m_id (concat (threadLists c.2))) as Hnum.
  { rewrite <- Hl2 in Hl1. revert Hpc Hl1. generalize c.1, (threadLists c.2). clear.
    intros ws ls. revert ls. induction ws as [|w ws IH]; intros [|l ls] Hpc Hlen; try done.
    cbn. rewrite map_app. f_equal; [|apply IH; [|by injection Hlen]; intros i; apply (Hpc (S i))].
    unfold numbers, numbered. rewrite (Hpc O w eq_refl). apply app_nil_r. }
  pose proof (hi_numbers _ _ Hinv) as Hp. rewrite Hnum in Hp. split.
  - assert (numTxnsAdded c.2 = Z.of_nat (length (concat (threadLists c.2)))) as <-; [|done].
    pose proof (Permutation_length Hp) as Hlen. rewrite length_map, length_seqZ in Hlen. pose proof (hi_pos _ _ Hinv). lia.
  - apply Forall_concat, Forall_lookup. intros i l Hl. destruct (Forall2_lookup_l _ _ _ _ _ Hall Hl) as (all & _ & Hf).
    clear - Hf. induction Hf as [|m d l all -> _ IH]; constructor; [done|exact IH].
Qed.

(** ** Examples *)

(** Alice sends 50 and then 20 on thread 0 while Bob sends 70 on thread 1. *)
Definition demo_todos : list (list TransactionData) :=
  [[NewTxData "alice" "carol" 50 0; NewTxData "alice" "bob" 20 0]; [NewTxData "bob" "carol" 70 1]].
Definition demo_adds : list nat := [0; 1; 1; 0; 0; 1; 0; 0; 0]%nat.
Definition demo_history : config adder history :=
  default ([], empty_history 0) (run_schedule LockFreeAddTxn_step demo_adds (start_adders demo_todos, empty_history 2)).
Lemma demo_adds_run : run_schedule LockFreeAddTxn_step demo_adds (start_adders demo_todos, empty_history 2) = Some demo_history.
Proof. vm_compute. reflexivity. Qed.
Lemma demo_adders_done : Forall (fun w => todo w = []) demo_history.1.
Proof. vm_compute. by repeat constructor. Qed.

Lemma history_recorded_witness :
  history_ok (threadLists demo_history.2) /\ Forall2 (Forall2 is_method_of) (threadLists demo_history.2) demo_todos.
Proof. apply (history_recorded demo_todos demo_adds demo_history); [vm_compute; reflexivity|exact demo_adds_run|exact demo_adders_done]. Defined.

Definition demo_lists : list (list Method) :=
  [[NewMethod 1 "alice" "carol" FIFO PRODUCER true 50; NewMethod 2 "alice" "bob" FIFO PRODUCER true 20];
   [NewMethod 0 "bob" "carol" FIFO PRODUCER true 70]].
Lemma demo_lists_ok : history_ok demo_lists.
Proof. split; [|by repeat constructor]. change ([1; 2; 0] ≡ₚ [0; 1; 2]). apply (Permutation_app_comm [1; 2] [0]). Qed.
Lemma Verify_decides_witness :
  exists b v, Verify 3 demo_lists NewVerifier = Some (b, v) /\
    (b = true <-> forall m m', m ∈ concat demo_lists -> m' ∈ concat demo_lists -> itemAddrS m = itemAddrS m' ->
       m_id m < m_id m' -> requestAmnt m' <= requestAmnt m).
Proof. apply (Verify_decides demo_lists 3); [exact demo_lists_ok|cbn; lia]. Defined.

(** In the background the checker rejects good histories: a second round
    over an accepted history starts after its first method, whose item then
    never gets its unit. *)
Theorem second_round_rejects :
  (exists v, verify [map (pair 3) demo_lists] NewVerifier = Some v /\ finalOutcome v = true) /\
  (exists v, verify [map (pair 3) demo_lists; map (pair 3) demo_lists] NewVerifier = Some v /\ finalOutcome v = false).
Proof. split; eexists; split; vm_compute; reflexivity. Qed.

(** The first demotion of the readers' sum is lost: its numerator stays, where
    that of the other sums is lowered. *)
Lemma demoteReader_is_lost k :
  option_map (fun i => sum (reader i)) (demoteReader (NewItem k)) = Some (0, 2) /\
  option_map (fun i => sum (failed i)) (demoteFailed (NewItem k)) = Some (-1, 2).
Proof. split; reflexivity. Qed.
