(* ===== verification/CoreEvm.v ===== *)
(** * The context of the virtual machine

    Models [core/evm.go]: block headers as far as they are read, the context
    of a message, the look-up of block hashes with its cache, and the transfer
    of funds. A thread that transfers alone is modelled here; [TransferLock]
    has many. *)

From S2P Require Import Prelude CommonMath Params StateIface Machine EvmTypes EvmInv InstrSafe.
From stdpp Require Import gmap relations.
Local Open Scope Z_scope.

(** ** Headers *)

Record Header : Type := mkHeader {
  ParentHash : Hash;
  UncleHash : Hash;
  h_Coinbase : Address;
  h_Root : Hash;
  TxHash : Hash;
  ReceiptHash : Hash;
  Bloom : bytes;
  h_Difficulty : Z;
  Number : Z;
  h_GasLimit : Z;
  GasUsed : Z;
  h_Time : Z;
  Extra : bytes;
  MixDigest : Hash;
  h_Nonce : bytes;
}.

(** ** Block hashes *)

Section block_hashes.
(** [chain.GetHeader] *)
Context (GetHeader : Hash -> Z -> option Header).

(** The loop over the ancestors; the fuel bounds the number of headers. *)
Fixpoint GetHashFn_loop (fuel : nat) (header : option Header) (cache : gmap Z Hash) (n : Z)
    : outcome (Hash * gmap Z Hash) :=
  match header with
  | None => Ok (0, cache)
  | Some header =>
      match fuel with
      | O => OutOfFuel
      | S fuel' =>
          let k := u64 (Uint64 (Number header) - 1) in
          let cache := <[k := ParentHash header]> cache in
          if n =? k then Ok (ParentHash header, cache)
          else GetHashFn_loop fuel' (GetHeader (ParentHash header) k) cache n
      end
  end.

(** The function returned by [GetHashFn]: its state is the cache, [nil] at first. *)
Definition GetHashFn (fuel : nat) (ref : Header) (n : Z) : M (option (gmap Z Hash)) Hash :=
  fun cache =>
    let k := u64 (Uint64 (Number ref) - 1) in
    let cache := default {[k := ParentHash ref]} cache in
    match cache !! n with
    | Some hash => Ok (hash, Some cache)
    | None =>
        match GetHashFn_loop fuel (GetHeader (ParentHash ref) k) cache n with
        | Ok (hash, cache) => Ok (hash, Some cache)
        | Panic r => Panic r
        | OutOfFuel => OutOfFuel
        end
    end.

(** A block and its parent, as hashes and numbers. *)
Definition parent_of (b b' : Hash * Z) : Prop :=
  exists header, GetHeader b.1 b.2 = Some header /\ b' = (ParentHash header, u64 (b.2 - 1)).
(** The [n]-th block below [ref] has hash [h]. *)
Definition ancestor (ref : Header) (n : Z) (h : Hash) : Prop :=
  rtc parent_of (ParentHash ref, u64 (Uint64 (Number ref) - 1)) (h, n).
Definition cache_ok (ref : Header) (cache : gmap Z Hash) : Prop :=
  forall n h, cache !! n = Some h -> ancestor ref n h.

(** [GetHeader] finds a header of the number it is asked for, and block
    numbers stay below 2^63. *)
Context (GetHeader_number : forall h k header, GetHeader h k = Some header -> Number header = k /\ 0 <= k < 2 ^ 63).

Lemma parent_of_functional b b1 b2 : parent_of b b1 -> parent_of b b2 -> b1 = b2.
Proof. intros (h1 & H1 & ->) (h2 & H2 & ->). by simplify_eq. Qed.

Lemma parent_number k : 0 <= k < 2 ^ 63 -> 0 <= u64 (k - 1) < 2 ^ 63 -> u64 (k - 1) = k - 1.
Proof.
  intros Hk Hu. destruct (decide (k = 0)) as [->|Hne]; [change (u64 (0 - 1)) with (2 ^ 64 - 1) in Hu; lia|].
  apply Z.mod_small. lia.
Qed.

(** Walking down from an ancestor. *)
Lemma GetHashFn_loop_ok ref fuel h k cache n :
  ancestor ref k h -> cache_ok ref cache -> n <> k ->
  (forall header, GetHeader h k = Some header -> k < Z.of_nat fuel) ->
  exists r cache', GetHashFn_loop fuel (GetHeader h k) cache n = Ok (r, cache') /\ cache_ok ref cache' /\
    (forall j, is_Some (cache !! j) -> is_Some (cache' !! j)) /\
    (rtc parent_of (h, k) (r, n) \/ r = 0 /\ forall h', ~ rtc parent_of (h, k) (h', n)).
Proof.
  revert h k cache. induction fuel as [|fuel IH]; intros h k cache Ha Hc Hn Hf;
    (destruct (GetHeader h k) as [hd|] eqn:Hg;
    [destruct (GetHeader_number _ _ _ Hg) as [Hk Hr]; specialize (Hf hd eq_refl); cbn [GetHashFn_loop]
    |exists 0, cache; split; [done|]; split; [done|]; split; [done|]; right; split; [done|]; intros h' Hrtc;
     inversion Hrtc as [|? b ? (hd & Hhd & _)]; by simplify_eq/=]); [lia|].
  assert (u64 (Uint64 (Number hd) - 1) = u64 (k - 1)) as ->.
  { rewrite Hk. unfold Uint64. rewrite Z.abs_eq by lia. unfold u64 at 2. rewrite Z.mod_small by lia. done. }
  assert (parent_of (h, k) (ParentHash hd, u64 (k - 1))) as Hp by (by exists hd).
  assert (ancestor ref (u64 (k - 1)) (ParentHash hd)) as Ha' by (by eapply rtc_r).
  assert (cache_ok ref (<[u64 (k - 1) := ParentHash hd]> cache)) as Hc'.
  { intros j x. rewrite lookup_insert_Some. intros [[<- <-]|[_ Hl]]; [done|by apply Hc]. }
  assert (forall j, is_Some (cache !! j) -> is_Some (<[u64 (k - 1) := ParentHash hd]> cache !! j)) as Hd.
  { intros j Hj. apply lookup_insert_is_Some'. by right. }
  destruct (Z.eqb_spec n (u64 (k - 1))) as [->|Hne].
  { exists (ParentHash hd), (<[u64 (k - 1) := ParentHash hd]> cache). split; [done|]. split; [done|].
    split; [done|]. left. by apply rtc_once. }
  destruct (IH (ParentHash hd) (u64 (k - 1)) _ Ha' Hc' Hne) as (r & cache' & Hl & Hck & Hdom & Hres).
  { intros hd' Hg'. destruct (GetHeader_number _ _ _ Hg') as [_ Hr']. rewrite parent_number by lia. lia. }
  exists r, cache'. split; [done|]. split; [done|]. split; [by auto|].
  destruct Hres as [Hrtc|[-> Hno]]; [left; by eapply rtc_l|right; split; [done|]].
  intros h' Hrtc. inversion Hrtc as [|? b ? Hb Hrest]; [by simplify_eq/=|].
  rewrite (parent_of_functional _ _ _ Hb Hp) in Hrest. by apply (Hno h').
Qed.

(** The cache as the function leaves it. *)
Definition cache_inv (ref : Header) (cache : option (gmap Z Hash)) : Prop :=
  forall c, cache = Some c -> cache_ok ref c /\ is_Some (c !! u64 (Uint64 (Number ref) - 1)).

Lemma GetHashFn_ok fuel ref n cache :
  cache_inv ref cache -> Uint64 (Number ref) <= Z.of_nat fuel ->
  wp never False (GetHashFn fuel ref n) (fun r cache' =>
    cache_inv ref cache' /\ (ancestor ref n r \/ r = 0 /\ forall h, ~ ancestor ref n h)) cache.
Proof.
  intros Hinv Hf. unfold wp, GetHashFn. set (k := u64 (Uint64 (Number ref) - 1)) in *.
  set (c := default {[k := ParentHash ref]} cache).
  assert (cache_ok ref c /\ is_Some (c !! k)) as [Hc Hk].
  { destruct cache as [c'|]; [by apply Hinv|].
    split; [|unfold c; cbn; by rewrite lookup_singleton_eq].
    intros j h. cbn. rewrite lookup_singleton_Some. intros [<- <-]. apply rtc_refl. }
  destruct (c !! n) as [h|] eqn:Hn; [split; [by intros ? [= <-]|left; by apply Hc]|].
  destruct (GetHashFn_loop_ok ref fuel (ParentHash ref) k c n) as (r & c' & -> & Hc' & Hd & Hr).
  - apply rtc_refl.
  - done.
  - intros ->. rewrite Hn in Hk. by destruct Hk.
  - intros hd Hg. destruct (GetHeader_number _ _ _ Hg) as [_ Hr]. unfold k in *.
    pose proof (Z.mod_pos_bound (Z.abs (Number ref)) (2 ^ 64)) as Hu. unfold Uint64, u64 in *.
    destruct (decide ((Z.abs (Number ref)) mod 2 ^ 64 = 0)) as [Hz|Hz].
    + rewrite Hz in Hr. change ((0 - 1) mod 2 ^ 64) with (2 ^ 64 - 1) in Hr. lia.
    + rewrite Z.mod_small by lia. lia.
  - split; [intros ? [= <-]; auto|done].
Qed.

(** The answers to a sequence of queries, which share the cache. *)
Fixpoint get_hashes (fuel : nat) (ref : Header) (ns : list Z) : M (option (gmap Z Hash)) (list Hash) :=
  match ns with
  | [] => mret []
  | n :: ns' => h ← GetHashFn fuel ref n; hs ← get_hashes fuel ref ns'; mret (h :: hs)
  end.

(** Whatever has been asked before, the hash returned for a block number is
    that of the ancestor of that number, and zero if there is none: the cache
    never shows, and the search ends within as many steps as there are blocks. *)
Theorem GetHash_is_ancestor fuel ref ns :
  Uint64 (Number ref) <= Z.of_nat fuel ->
  wp never False (get_hashes fuel ref ns) (fun hs _ =>
    Forall2 (fun n h => ancestor ref n h \/ h = 0 /\ forall h', ~ ancestor ref n h') ns hs) None.
Proof.
  intros Hf. assert (cache_inv ref None) as Hc by done. revert Hc. generalize (@None (gmap Z Hash)).
  induction ns as [|n ns IH]; intros cache Hc; cbn [get_hashes]; [by apply wp_ret|].
  apply wp_bind. eapply wp_mono; [by apply GetHashFn_ok|]. intros h cache1 [Hc1 Hh].
  apply wp_bind. eapply wp_mono; [by apply IH|]. intros hs cache2 Hhs. apply wp_ret. by constructor.
Qed.
End block_hashes.

(** A chain of blocks 0, 1, 2 with the hashes 100, 101, 102, below a block 3. *)
Definition block (n : Z) : Header :=
  {| ParentHash := 99 + n; UncleHash := 0; h_Coinbase := 0; h_Root := 0; TxHash := 0; ReceiptHash := 0;
     Bloom := []; h_Difficulty := 1; Number := n; h_GasLimit := 0; GasUsed := 0; h_Time := n;
     Extra := []; MixDigest := 0; h_Nonce := [] |}.
Definition small_chain (h : Hash) (k : Z) : option Header :=
  if (h =? 100 + k) && (0 <=? k) && (k <=? 2) then Some (block k) else None.

Lemma GetHash_is_ancestor_witness :
  wp never False (get_hashes small_chain 3 (block 3) [0; 2; 1; 7; 0]) (fun hs _ =>
    Forall2 (fun n h => ancestor small_chain (block 3) n h \/
      h = 0 /\ forall h', ~ ancestor small_chain (block 3) n h') [0; 2; 1; 7; 0] hs) None.
Proof.
  apply (GetHash_is_ancestor small_chain); [|done]. intros h k hd. unfold small_chain.
  destruct (_ && _) eqn:He; [|done]. intros [= <-]. apply andb_prop in He as [[_ H1%Z.leb_le]%andb_prop H2%Z.leb_le].
  split; [done|lia].
Defined.

(** ** Transfers *)

Section transfers.
Context {S : Type} `{StateDB S} `{Crypto}.

Definition core_CanTransfer (addr : Address) (amount : Z) : M S bool :=
  b ← GetBalance addr; mret (amount <=? b).

(** [InUseAccounts], a global map used as a set, beside the state database. *)
Definition InUse_LoadOrStore (a : Address) : M (gset Z * S) bool :=
  u ← gets fst;
  if decide (a ∈ u) then mret true
  else modify (fun p => ({[a]} ∪ p.1, p.2));; mret false.
Definition InUse_Delete (a : Address) : M (gset Z * S) unit := modify (fun p => (p.1 ∖ {[a]}, p.2)).
Definition with_db {A} (m : M S A) : M (gset Z * S) A := zoom snd (fun s p => (p.1, s)) m.

(** The fuel bounds the attempts. *)
Fixpoint core_Transfer (fuel : nat) (sender recipient : Address) (amount : Z) : M (gset Z * S) unit :=
  match fuel with
  | O => out_of_fuel
  | Datatypes.S fuel' =>
      let sameAccount := Address_Big sender =? Address_Big recipient in
      senderInUse ← InUse_LoadOrStore sender;
      if negb senderInUse then
        recipientInUse ← InUse_LoadOrStore recipient;
        if negb recipientInUse || sameAccount then
          with_db (SubBalance sender amount);;
          with_db (AddBalance recipient amount);;
          InUse_Delete sender;;
          InUse_Delete recipient
        else
          InUse_Delete sender;;
          core_Transfer fuel' sender recipient amount
      else core_Transfer fuel' sender recipient amount
  end.

(** [Transfer] of a thread that runs alone, with no account in use. *)
Definition Transfer_alone (sender recipient : Address) (amount : Z) : M S unit := fun s =>
  match core_Transfer 1 sender recipient amount (∅, s) with
  | Ok (tt, (_, s')) => Ok (tt, s')
  | Panic r => Panic r
  | OutOfFuel => OutOfFuel
  end.

(** [NewEVMContext], from what it reads of the message and the chain. *)
Definition NewEVMContext (from : Address) (gasPrice : Z) (header : Header) (getHash : Z -> Hash)
    (Author : Header -> Address) (author : option Address) : Context S :=
  {| CanTransfer := core_CanTransfer; Transfer := Transfer_alone; GetHash := getHash;
     Origin := from; GasPrice := gasPrice; Coinbase := default (Author header) author;
     GasLimit := h_GasLimit header; BlockNumber := Number header; Time := h_Time header;
     Difficulty := h_Difficulty header |}.

Context {SL : StateDBLaws S}.

(** Alone or not, a transfer whose accounts nobody uses succeeds at once. *)
Lemma core_Transfer_ok fuel sender recipient amount u s :
  sender ∉ u -> recipient ∉ u -> inv s ->
  wp never False (core_Transfer (Datatypes.S fuel) sender recipient amount) (fun _ p =>
    p.1 = u /\
    becomes inv view revs s (w_add_balance recipient amount (w_add_balance sender (- amount) (view s))) p.2)
    (u, s).
Proof.
  intros Hs Hr Hi. cbn [core_Transfer]. apply wp_bind. unfold InUse_LoadOrStore.
  apply wp_bind, wp_gets. cbn [fst]. rewrite decide_False by done. apply wp_bind, wp_modify, wp_ret. cbn [negb fst snd].
  apply wp_bind. apply wp_bind, wp_gets. cbn [fst].
  assert (forall u', u' ∖ {[sender]} ∖ {[recipient]} = u ->
    wp never False (with_db (SubBalance sender amount);; with_db (AddBalance recipient amount);;
          InUse_Delete sender;; InUse_Delete recipient) (fun _ p =>
      p.1 = u /\
      becomes inv view revs s (w_add_balance recipient amount (w_add_balance sender (- amount) (view s))) p.2)
    (u', s)) as Hbody.
  { intros u' Hu'. apply wp_bind, wp_zoom. eapply wp_mono; [by apply law_SubBalance|].
    intros [] s1 (Hi1 & Hv1 & Hr1). cbn [fst snd].
    apply wp_bind, wp_zoom. eapply wp_mono; [by apply law_AddBalance|].
    intros [] s2 (Hi2 & Hv2 & Hr2). cbn [fst snd]. apply wp_bind, wp_modify, wp_modify. cbn [fst snd] in *.
    split; [done|]. split; [done|]. split; [by rewrite Hv2, Hv1|by rewrite Hr2]. }
  destruct (decide (recipient ∈ {[sender]} ∪ u)) as [Hin|Hin].
  - assert (recipient = sender) as -> by set_solver. apply wp_ret. cbn [negb orb]. rewrite Z.eqb_refl.
    apply Hbody. set_solver.
  - apply wp_bind, wp_modify, wp_ret. cbn [negb orb fst snd]. apply Hbody. set_solver.
Qed.

Lemma Transfer_alone_ok sender recipient amount s :
  inv s ->
  wp never False (Transfer_alone sender recipient amount) (fun _ =>
    becomes inv view revs s (w_add_balance recipient amount (w_add_balance sender (- amount) (view s)))) s.
Proof.
  intros Hi. pose proof (core_Transfer_ok 0 sender recipient amount ∅ s) as Ht. unfold wp, Transfer_alone in *.
  destruct (core_Transfer 1 sender recipient amount (∅, s)) as [[[] [u s']]| |];
    [apply Ht; set_solver|apply Ht; set_solver..].
Qed.

Lemma NewEVMContext_ok from gasPrice header getHash Author author :
  is_u256 gasPrice -> context_ok (NewEVMContext from gasPrice header getHash Author author).
Proof.
  intros Hg. split; [done|]. split; [|intros s a b v; apply Transfer_alone_ok].
  intros s a v Hi. cbn. unfold core_CanTransfer. apply wp_bind. eapply wp_mono; [by apply law_GetBalance|].
  intros b s' [-> Hb]. by apply wp_ret.
Qed.
End transfers.
