(* ===== verification/Concrete.v ===== *)
(** * A concrete machine

    Instances of the parameters of the development, small enough to run, beside
    those of [ConcreteCrypto]: a trie that is a finite map, an account database without history, and a state with a funded
    account and a contract. The theorems with parameters are applied to it. *)

From stdpp Require Import gmap.
From S2P Require Import Prelude CommonMath Params Opcodes Rlp StateIface ConcreteCrypto Machine EvmTypes CoreState CoreStateOk.
Local Open Scope Z_scope.

(** An account, from the four strings of its encoding. *)
Definition demo_decode (enc : bytes) : option Account :=
  match SplitList enc with
  | inr (c0, []) =>
      match SplitString c0 with
      | inr (nonce, c1) =>
          match SplitString c1 with
          | inr (balance, c2) =>
              match SplitString c2 with
              | inr (root, c3) =>
                  match SplitString c3 with
                  | inr (codeHash, []) => Some (mkAccount (be_dec nonce) (be_dec balance) (be_dec root) codeHash)
                  | _ => None
                  end
              | inl _ => None
              end
          | inl _ => None
          end
      | inl _ => None
      end
  | _ => None
  end.

(** A trie by its contents; storage tries are not kept. *)
Abbreviation demo_trie := (gmap (list Z) (list Z)).
#[export] Instance demo_Database : Database demo_trie := {|
  TryGet := fun t k => inr (default [] (t !! k));
  TryUpdate := fun k v t => (None, <[k := v]> t);
  TryDelete := fun k t => (None, delete k t);
  Trie_Hash := fun t => be_dec (concat (map snd (map_to_list t))) mod 2 ^ 256;
  OpenStorageTrie := fun _ _ => inr ∅;
  ContractCode := fun _ _ => ([], None);
  ContractCodeSize := fun _ _ => (0, None);
  DecodeAccount := demo_decode;
|}.

#[export] Instance demo_DatabaseLaws : DatabaseLaws demo_trie.
Proof. split; try done. intros h. exists ∅. split; [done|]. intros k. cbn. by rewrite lookup_empty. Qed.

Abbreviation demo_state := (stateDB demo_trie).

(** The empty state. *)
Lemma New_inv : state_inv (StateDB_New (∅ : demo_trie)).
Proof.
  split; cbn.
  - intros a enc d. cbn. rewrite lookup_empty. by intros [= <-].
  - intros a o. by rewrite lookup_empty.
  - constructor.
  - done.
  - by exists 0.
Qed.
Lemma New_world a : w_acct (state_view (StateDB_New (∅ : demo_trie))) a = None.
Proof. cbn. unfold account_at, stored. cbn. by rewrite !lookup_empty. Qed.

Lemma New_world_ok (t := (∅ : demo_trie)) :
  world_ok (state_view (StateDB_New t)) /\ supply_le 0 (state_view (StateDB_New t)).
Proof.
  assert (supply_le 0 (state_view (StateDB_New t))) as Hs.
  { intros l _. induction l as [|a l IH]; [done|].
    change (w_balance (state_view (StateDB_New t)) a + total (state_view (StateDB_New t)) l <= 0).
    unfold w_balance, w_get. rewrite New_world. cbn [default from_option ac_balance new_acct]. lia. }
  split; [|done]. split; [|split; [done|]].
  - intros a x. by rewrite New_world.
  - intros l Hl. specialize (Hs l Hl). lia.
Qed.

(** PUSH1 42, PUSH1 0, MSTORE, PUSH1 32, PUSH1 0, RETURN *)
Definition demo_code : bytes := [0x60; 42; 0x60; 0; 0x52; 0x60; 32; 0x60; 0; 0xf3].
(** PUSH1 1, PUSH1 0, SSTORE, PUSH1 0, PUSH1 0, REVERT *)
Definition failing_code : bytes := [0x60; 1; 0x60; 0; 0x55; 0x60; 0; 0x60; 0; 0xfd].
Definition alice : Address := 0xa11ce.
Definition answer : Address := 0xa45e4.
Definition failing : Address := 0xfa11.

Definition demo_setup : M demo_state unit :=
  AddBalance alice (10 ^ 18);;
  SetCode answer demo_code;;
  AddBalance answer 7;;
  SetCode failing failing_code.
Definition demo_db : demo_state :=
  match demo_setup (StateDB_New ∅) with Ok (_, s) => s | _ => StateDB_New ∅ end.

Lemma demo_setup_ok :
  wp never False demo_setup (fun _ s => state_inv s /\ world_ok (state_view s)) (StateDB_New ∅).
Proof.
  assert (forall c, c = demo_code \/ c = failing_code -> bytes_ok c /\ zlen c < 2 ^ 63) as Hc
    by (intros c [->| ->]; (split; [repeat constructor; lia|done])).
  destruct New_world_ok as [Hw Hs]. unfold demo_setup.
  apply wp_bind. eapply wp_mono; [apply law_AddBalance, New_inv|]. intros [] s1 (Hi1 & Hv1 & _).
  change (view s1 = w_add_balance alice (10 ^ 18) (state_view (StateDB_New ∅))) in Hv1.
  assert (world_ok (view s1) /\ supply_le (0 + 10 ^ 18) (view s1)) as [Hw1 Hs1].
  { rewrite Hv1. split; [apply (world_ok_mint 0); [exact Hw|exact Hs|lia|lia]|].
    apply (supply_le_mint 0); [lia|exact Hs]. }
  apply wp_bind. eapply wp_mono; [apply law_SetCode, Hi1|]. intros [] s2 (Hi2 & Hv2 & _).
  assert (wstep false (view s1) (view s2)) as Hst by (rewrite Hv2; apply ws_code; apply Hc; by left).
  pose proof (wstep_ok _ _ _ Hst Hw1) as Hw2. pose proof (wstep_supply _ _ _ _ Hst Hw1 Hs1) as Hs2.
  apply wp_bind. eapply wp_mono; [apply law_AddBalance, Hi2|]. intros [] s3 (Hi3 & Hv3 & _).
  assert (world_ok (view s3)) as Hw3 by (rewrite Hv3; apply (world_ok_mint (0 + 10 ^ 18)); [exact Hw2|exact Hs2|lia|lia]).
  eapply wp_mono; [apply law_SetCode, Hi3|]. intros [] s4 (Hi4 & Hv4 & _).
  split; [done|]. eapply (wstep_ok false); [|exact Hw3].
  change (wstep false (view s3) (view s4)). rewrite Hv4. apply ws_code; apply Hc; by right.
Qed.

Lemma demo_db_ok : state_inv demo_db /\ world_ok (state_view demo_db).
Proof.
  pose proof demo_setup_ok as Hw. unfold wp in Hw. unfold demo_db. by destruct (demo_setup _) as [[? ?]| |].
Qed.
