(* ===== verification/Hashimoto.v ===== *)
(** * The proof of work function

    Models [consensus/ethash/algorithm.go]: the verification cache, the items of
    the mining dataset that are computed from it, the goroutines that fill the
    dataset, and hashimoto over the cache or over the dataset. The hash function
    of 64 bytes is a parameter; the byte order of the machine is one too, since
    the buffers of 32 bit words are written as bytes. The theorems are in
    [HashimotoProps]. *)

From S2P Require Import Prelude Schedule CommonMath StateIface.
Local Open Scope Z_scope.

Definition u32 (x : Z) : Z := x mod 2 ^ 32.

Abbreviation mixBytes := 128 (only parsing).
Abbreviation hashBytes := 64 (only parsing).
Abbreviation hashWords := 16 (only parsing).
Abbreviation datasetParents := 256%nat (only parsing).
Abbreviation cacheRounds := 3%nat (only parsing).
Abbreviation loopAccesses := 64%nat (only parsing).
Abbreviation DivideByZero := (Msg "integer divide by zero") (only parsing).

(** ** Words and bytes *)

(** [binary.LittleEndian.PutUint32] and the reading of a buffer as words, in
    little endian order and in that of the machine. *)
Definition put_word (w : Z) : bytes := rev (be_enc 4 w).
Definition put_words (ws : list Z) : bytes := concat (map put_word ws).
Fixpoint words (b : bytes) : list Z :=
  match b with
  | b0 :: b1 :: b2 :: b3 :: b' => be_dec [b3; b2; b1; b0] :: words b'
  | _ => []
  end.
(** [binary.LittleEndian.Uint32(b[off:])] *)
Definition word_at (b : bytes) (off : Z) : outcome Z :=
  if (0 <=? off) && (off + 4 <=? zlen b) then mret (be_dec (rev (slice b off (off + 4)))) else Panic Index.
Fixpoint swap (b : bytes) : bytes :=
  match b with
  | b0 :: b1 :: b2 :: b3 :: b' => b3 :: b2 :: b1 :: b0 :: swap b'
  | _ => b
  end.
Definition to_native (isLittleEndian : bool) (b : bytes) : bytes := if isLittleEndian then b else swap b.
Definition native_words (isLittleEndian : bool) (b : bytes) : list Z := words (if isLittleEndian then b else swap b).

(** [l[a:b]] *)
Definition slice_at {A} (l : list A) (a b : Z) : outcome (list A) :=
  if (0 <=? a) && (a <=? b) && (b <=? zlen l) then mret (slice l a b) else Panic Index.
Definition index_at {A} (l : list A) (i : Z) : outcome A := match zindex l i with Some x => mret x | None => Panic Index end.
(** A loop over a counter or a slice, with the variables it assigns. *)
Fixpoint foldM {A B} (f : A -> B -> outcome A) (l : list B) (a : A) : outcome A :=
  match l with [] => mret a | b :: l' => a ← f a b; foldM f l' a end.
(** The values 0, 1, ... of a counter. *)
Definition count (n : nat) : list Z := map Z.of_nat (seq 0 n).

Definition fnv (a b : Z) : Z := Z.lxor (u32 (a * 0x01000193)) b.
Fixpoint fnvHash (mix data : list Z) : outcome (list Z) :=
  match mix, data with
  | [], _ => mret []
  | m :: mix', d :: data' => r ← fnvHash mix' data'; mret (fnv m d :: r)
  | _ :: _, [] => Panic Index
  end.

Section hashimoto.
Context `{Crypto} (keccak512 : bytes -> bytes) (isLittleEndian : bool).

(** ** The cache *)

(** The seed is hashed once for every epoch that is over. *)
Definition seedHash (block : Z) : bytes :=
  let seed := zeros 32 in
  if block <? 30000 then seed else Nat.iter (Z.to_nat (block / 30000)) keccak seed.

(** A hash is written to [dest[off:]]. *)
Definition put_hash (dest : bytes) (off : Z) (data : bytes) : outcome bytes :=
  if (0 <=? off) && (off + hashBytes <=? zlen dest) then mret (copy_at dest off hashBytes (keccak512 data)) else Panic Index.
Definition xor_bytes (a b : bytes) : bytes := zip_with Z.lxor a b.
(** A step of the low-round version of randmemohash. *)
Definition memohash_row (rows : Z) (cache : bytes) (j : Z) : outcome bytes :=
  let srcOff := (j - 1 + rows) mod rows * hashBytes in
  let dstOff := j * hashBytes in
  w ← word_at cache dstOff;
  let xorOff := u32 (w mod u32 rows * hashBytes) in
  src ← slice_at cache srcOff (srcOff + hashBytes);
  other ← slice_at cache xorOff (u32 (xorOff + hashBytes));
  put_hash cache dstOff (xor_bytes src other).
(** The contents of the cache of [size] bytes, as words. *)
Definition generateCache (size : Z) (seed : bytes) : outcome (list Z) :=
  let rows := size / hashBytes in
  cache ← put_hash (zeros size) 0 seed;
  cache ← foldM (fun cache i =>
    last ← slice_at cache (i * hashBytes) ((i + 1) * hashBytes);
    put_hash cache ((i + 1) * hashBytes) last) (count (Z.to_nat ((size - 1) / hashBytes))) cache;
  cache ← foldM (fun cache _ => foldM (memohash_row rows) (count (Z.to_nat rows)) cache) (count cacheRounds) cache;
  mret (native_words isLittleEndian (to_native isLittleEndian cache)).

(** ** Items of the dataset *)

Definition generateDatasetItem (cache : list Z) (index : Z) : outcome bytes :=
  let rows := u32 (zlen cache / hashWords) in
  if rows =? 0 then Panic DivideByZero
  else
    ws ← foldM (fun ws i => w ← index_at cache (u32 (index mod rows * hashWords + i)); mret (ws ++ [w])) (count 16) [];
    let mix := keccak512 (put_words (match ws with w :: ws => Z.lxor w index :: ws | [] => [] end)) in
    let intMix := words mix in
    intMix ← foldM (fun intMix i =>
      w ← index_at intMix (i mod 16);
      let parent := fnv (Z.lxor index i) w mod rows in
      fnvHash intMix (drop (Z.to_nat (u32 (parent * hashWords))) cache)) (count datasetParents) intMix;
    mret (keccak512 (put_words intMix)).

(** ** Hashimoto *)

(** A round mixes two items of the dataset in; the second part of the state is
    the buffer they are copied to. *)
Definition hashimoto_round (seedHead rows : Z) (lookup : Z -> outcome (list Z)) (st : list Z * list Z) (i : Z) : outcome (list Z * list Z) :=
  let '(mix, temp) := st in
  w ← index_at mix (i mod 32);
  if rows =? 0 then Panic DivideByZero
  else
    let parent := fnv (Z.lxor i seedHead) w mod rows in
    temp ← foldM (fun temp j =>
      data ← lookup (u32 (2 * parent + j));
      mret (copy_at temp (j * hashWords) (32 - j * hashWords) data)) (count 2) temp;
    mix ← fnvHash mix temp;
    mret (mix, temp).
Definition hashimoto (hash : bytes) (nonce size : Z) (lookup : Z -> outcome (list Z)) : outcome (bytes * bytes) :=
  let rows := u32 (size / mixBytes) in
  let seed := copy_at (copy_at (zeros 40) 0 40 hash) 32 8 (rev (be_enc 8 nonce)) in
  let seed := keccak512 seed in
  seedHead ← word_at seed 0;
  mix ← foldM (fun mix i => w ← word_at seed (i mod 16 * 4); mret (mix ++ [w])) (count 32) [];
  mix ← foldM (hashimoto_round seedHead rows lookup) (count loopAccesses) (mix, replicate 32 0);
  mix ← foldM (fun mix i =>
    a ← index_at mix (4 * i); b ← index_at mix (4 * i + 1); c ← index_at mix (4 * i + 2); d ← index_at mix (4 * i + 3);
    mret (<[Z.to_nat i := fnv (fnv (fnv a b) c) d]> mix)) (count 8) (fst mix);
  let digest := put_words (take 8 mix) in
  mret (digest, keccak (seed ++ digest)).

Definition hashimotoLight (size : Z) (cache : list Z) (hash : bytes) (nonce : Z) : outcome (bytes * bytes) :=
  hashimoto hash nonce size (fun index => rawData ← generateDatasetItem cache index; mret (words rawData)).
Definition hashimotoFull (dataset : list Z) (hash : bytes) (nonce : Z) : outcome (bytes * bytes) :=
  hashimoto hash nonce (u64 (zlen dataset * 4)) (fun index =>
    let offset := u32 (index * hashWords) in
    slice_at dataset offset (u32 (offset + hashWords))).

(** ** The dataset *)

(** The goroutines share the buffer and the counter of the progress; a panic of
    one ends them all. A step computes an item and copies it. *)
Record filler : Type := mkFiller { f_index : Z; f_limit : Z }.
Section generateDataset.
Context (size threads : Z) (cache : list Z).

Definition filler_start (id : Z) : filler :=
  let batch := u32 ((size + hashBytes * threads - 1) / (hashBytes * threads)) in
  let first := u32 (id * batch) in
  let limit := u32 (first + batch) in
  mkFiller first (if u32 (size / hashBytes) <? limit then u32 (size / hashBytes) else limit).
(** [copy(dataset[index*hashBytes:], item)], the product in 32 bits. *)
Definition copy_item (dataset : bytes) (index : Z) (item : bytes) : outcome bytes :=
  let off := u32 (index * hashBytes) in
  if zlen dataset <? off then Panic Index else mret (copy_at dataset off (zlen dataset - off) item).
Definition fill_item (index : Z) (m : bytes * Z) : outcome (bytes * Z) :=
  item ← generateDatasetItem cache index;
  dataset ← copy_item (fst m) index (to_native isLittleEndian item);
  let status := u32 (snd m + 1) in
  if u32 (size / hashBytes / 100) =? 0 then Panic DivideByZero else mret (dataset, status).
Definition filler_step (t : filler) (m : outcome (bytes * Z)) : option (filler * outcome (bytes * Z)) :=
  match m with
  | Ok d => if f_index t <? f_limit t then Some (mkFiller (u32 (f_index t + 1)) (f_limit t), fill_item (f_index t) d) else None
  | _ => None
  end.
(** The goroutines start on a buffer of zeros; the result is there when all are
    done. *)
Definition fillers : config filler (outcome (bytes * Z)) :=
  (map filler_start (count (Z.to_nat threads)), Ok (zeros size, 0)).
Definition generateDataset (sched : list nat) : option (outcome (bytes * Z)) :=
  match run_schedule filler_step sched fillers with
  | Some (ts, Ok d) => if forallb (fun t => f_limit t <=? f_index t) ts then Some (Ok d) else None
  | Some (_, m) => Some m
  | None => None
  end.
End generateDataset.
End hashimoto.
