(* ===== verification/HashimotoProps.v ===== *)
(** * Light and full verification agree

    Theorems about [Hashimoto]: whatever the order in which the goroutines fill
    the dataset, they end, and hashimoto over the dataset is hashimoto over the
    cache, up to the 4 GiB at which the offsets of the items wrap around. *)

From S2P Require Import Prelude Schedule CommonMath StateIface ConcreteCrypto Hashimoto.
Local Open Scope Z_scope.

(** ** Loops *)

Section loops.
Context {A B : Type}.
Implicit Types (f g : A -> B -> outcome A) (l : list B).
Lemma foldM_ok f l (P : A -> Prop) a : P a -> (forall a b, b ∈ l -> P a -> exists a', f a b = Ok a' /\ P a') -> exists a', foldM f l a = Ok a' /\ P a'.
Proof.
  revert a. induction l as [|b l IH]; intros a Ha Hf; [by exists a|]. destruct (Hf a b ltac:(left) Ha) as (a' & Hb & Ha'). cbn. rewrite Hb. cbn.
  apply IH; [done|]. intros a0 b0 Hin. apply Hf. by right.
Qed.
Lemma foldM_ext f g l a : (forall a b, b ∈ l -> f a b = g a b) -> foldM f l a = foldM g l a.
Proof.
  revert a. induction l as [|b l IH]; intros a Hf; [done|]. cbn. rewrite Hf by left. destruct (g a b); [|done..]. cbn. apply IH. intros a1 b0 Hin. apply Hf. by right.
Qed.
End loops.
Lemma elem_of_count n i : i ∈ count n <-> 0 <= i < Z.of_nat n.
Proof.
  unfold count. rewrite list_elem_of_fmap. split.
  - intros (k & -> & Hk%elem_of_seq). lia.
  - intros Hi. exists (Z.to_nat i). split; [lia|]. apply elem_of_seq. lia.
Qed.
(** A loop that collects a result for every value of the counter. *)
Lemma foldM_collect {A} (f : Z -> outcome A) n : (forall i, 0 <= i < Z.of_nat n -> exists a, f i = Ok a) ->
  exists l, foldM (fun l i => a ← f i; mret (l ++ [a])) (count n) [] = Ok l /\ length l = n.
Proof.
  intros Hf. enough (forall m k l, (k + m = n)%nat -> length l = k -> exists l', foldM (fun l i => a ← f i; mret (l ++ [a])) (map Z.of_nat (seq k m)) l = Ok l' /\ length l' = n) as Hgen
    by (apply (Hgen n 0%nat []); [lia|done]).
  induction m as [|m IH]; intros k l Hk Hl; [exists l; split; [done|lia]|]. cbn. destruct (Hf (Z.of_nat k)) as [a Ha]; [lia|]. rewrite Ha. cbn.
  apply IH; [lia|]. rewrite length_app. cbn. lia.
Qed.

(** ** Words *)

Lemma u32_id x : 0 <= x < 2 ^ 32 -> u32 x = x.
Proof. apply Z.mod_small. Qed.
Lemma length_put_word w : length (put_word w) = 4%nat.
Proof. unfold put_word. by rewrite length_rev, length_be_enc. Qed.
Lemma length_put_words ws : length (put_words ws) = (4 * length ws)%nat.
Proof. induction ws as [|w ws IH]; [done|]. unfold put_words in *. cbn [map concat]. rewrite length_app, IH, length_put_word. cbn. lia. Qed.
Lemma put_words_ok ws : bytes_ok (put_words ws).
Proof.
  induction ws as [|w ws IH]; [constructor|]. unfold put_words in *. cbn [map concat]. apply Forall_app. split; [|done].
  apply List.Forall_rev, be_enc_ok.
Qed.
(** Induction over the groups of four. *)
Lemma groups_ind (P : bytes -> Prop) : P [] -> (forall b0 b1 b2 b3 b, P b -> P (b0 :: b1 :: b2 :: b3 :: b)) ->
  forall n b, length b = (4 * n)%nat -> P b.
Proof.
  intros H0 Hs n. induction n as [|n IH]; intros b Hb; [by destruct b|].
  destruct b as [|b0 [|b1 [|b2 [|b3 b]]]]; cbn in Hb; try lia. apply Hs, IH. lia.
Qed.
Lemma length_words n b : length b = (4 * n)%nat -> length (words b) = n.
Proof. revert b. induction n as [|n IH]; intros b Hb; [by destruct b|]. destruct b as [|b0 [|b1 [|b2 [|b3 b]]]]; cbn in *; try lia. rewrite IH; lia. Qed.
Lemma words_app n b c : length b = (4 * n)%nat -> words (b ++ c) = words b ++ words c.
Proof. revert b. apply groups_ind; [done|]. intros b0 b1 b2 b3 b IH. cbn [app words]. by rewrite IH. Qed.
Lemma length_swap n b : length b = (4 * n)%nat -> length (swap b) = length b.
Proof. revert b. apply groups_ind; [done|]. intros b0 b1 b2 b3 b IH. cbn. by rewrite IH. Qed.
Lemma swap_swap n b : length b = (4 * n)%nat -> swap (swap b) = b.
Proof. revert b. apply groups_ind; [done|]. intros b0 b1 b2 b3 b IH. cbn. by rewrite IH. Qed.
Lemma swap_app n b c : length b = (4 * n)%nat -> swap (b ++ c) = swap b ++ swap c.
Proof. revert b. apply groups_ind; [done|]. intros b0 b1 b2 b3 b IH. cbn [app swap]. by rewrite IH. Qed.
Lemma length_to_native le n b : length b = (4 * n)%nat -> length (to_native le b) = (4 * n)%nat.
Proof. intros Hb. destruct le; cbn; [done|]. by rewrite (length_swap n b Hb). Qed.
(** What is written in the order of the machine is read as little endian words. *)
Lemma native_words_to_native le n b : length b = (4 * n)%nat -> native_words le (to_native le b) = words b.
Proof. intros Hb. destruct le; unfold native_words, to_native; [done|]. by rewrite (swap_swap n b Hb). Qed.
Lemma length_native_words le n b : length b = (4 * n)%nat -> length (native_words le b) = n.
Proof. intros Hb. unfold native_words. destruct le; apply length_words; [done|]. by rewrite (length_swap n b Hb). Qed.
Lemma native_words_app le n b c : length b = (4 * n)%nat -> native_words le (b ++ c) = native_words le b ++ native_words le c.
Proof.
  intros Hb. unfold native_words. destruct le; [by apply (words_app n)|]. rewrite (swap_app n b c Hb). apply (words_app n). by rewrite (length_swap n b Hb).
Qed.
(** A slice of the words is that of the bytes. *)
Lemma native_words_slice le b n i k : length b = (4 * n)%nat -> 0 <= i -> 0 <= k -> (i + k) <= Z.of_nat n ->
  slice (native_words le b) i (i + k) = native_words le (slice b (4 * i) (4 * (i + k))).
Proof.
  intros Hb Hi Hk Hn. unfold slice. replace (Z.to_nat (4 * (i + k) - 4 * i)) with (4 * Z.to_nat k)%nat by lia. replace (Z.to_nat (4 * i)) with (4 * Z.to_nat i)%nat by lia.
  replace (Z.to_nat (i + k - i)) with (Z.to_nat k) by lia.
  rewrite <- (take_drop (4 * Z.to_nat i) b) at 1. rewrite (native_words_app le (Z.to_nat i)) by (rewrite length_take; lia).
  rewrite drop_app_length' by (symmetry; apply length_native_words; rewrite length_take; lia). set (c := drop (4 * Z.to_nat i) b).
  assert (length c = 4 * (n - Z.to_nat i))%nat as Hc by (unfold c; rewrite length_drop; lia).
  rewrite <- (take_drop (4 * Z.to_nat k) c) at 1. rewrite (native_words_app le (Z.to_nat k)) by (rewrite length_take; lia).
  apply take_app_length'. symmetry. apply length_native_words. rewrite length_take. lia.
Qed.
Lemma word_at_ok b off : 0 <= off -> off + 4 <= zlen b -> exists w, word_at b off = Ok w.
Proof. intros Ho Hb. unfold word_at. rewrite (proj2 (Z.leb_le _ _) Ho), (proj2 (Z.leb_le _ _) Hb). by eexists. Qed.
Lemma index_at_ok {A} (l : list A) i : 0 <= i < zlen l -> exists x, index_at l i = Ok x.
Proof.
  intros Hi. unfold index_at, zindex. rewrite (proj2 (Z.leb_le _ _)) by lia. destruct (lookup_lt_is_Some_2 l (Z.to_nat i)) as [x ->]; [unfold zlen in Hi; lia|by exists x].
Qed.
Lemma slice_at_ok {A} (l : list A) a b : 0 <= a -> a <= b -> b <= zlen l -> slice_at l a b = Ok (slice l a b).
Proof. intros Ha Hab Hb. unfold slice_at. by rewrite (proj2 (Z.leb_le _ _) Ha), (proj2 (Z.leb_le _ _) Hab), (proj2 (Z.leb_le _ _) Hb). Qed.
Lemma fnvHash_ok mix data : (length mix <= length data)%nat -> exists r, fnvHash mix data = Ok r /\ length r = length mix.
Proof.
  revert data. induction mix as [|m mix IH]; intros data Hl; [by exists []|]. destruct data as [|d data]; cbn in Hl; [lia|].
  destruct (IH data) as (r & Hr & Hlr); [lia|]. cbn. rewrite Hr. exists (fnv m d :: r). cbn. by rewrite Hlr.
Qed.

Section hashimoto.
Context `{Crypto} {CL : CryptoLaws} (keccak512 : bytes -> bytes) (isLittleEndian : bool).
(** Keccak-512 gives 64 bytes. *)
Context (keccak512_ok : forall d, bytes_ok (keccak512 d)) (keccak512_length : forall d, length (keccak512 d) = 64%nat).

(** ** The cache *)

Lemma put_hash_ok dest off data : 0 <= off -> off + 64 <= zlen dest -> exists dest', put_hash keccak512 dest off data = Ok dest' /\ zlen dest' = zlen dest.
Proof.
  intros Ho Hl. unfold put_hash. rewrite (proj2 (Z.leb_le _ _) Ho), (proj2 (Z.leb_le _ _) Hl). eexists. split; [reflexivity|]. apply zlen_copy_at; lia.
Qed.
Lemma memohash_row_ok rows cache j : 0 < rows -> zlen cache = 64 * rows -> 64 * rows < 2 ^ 32 -> 0 <= j < rows ->
  exists cache', memohash_row keccak512 rows cache j = Ok cache' /\ zlen cache' = zlen cache.
Proof.
  intros Hr Hl Hs Hj. unfold memohash_row. destruct (word_at_ok cache (j * 64)) as [w ->]; [lia..|]. cbn [mbind outcome_bind].
  rewrite (u32_id rows) by lia. pose proof (Z.mod_pos_bound w rows Hr). pose proof (Z.mod_pos_bound (j - 1 + rows) rows Hr).
  rewrite (u32_id (w mod rows * 64)) by lia. rewrite (u32_id (w mod rows * 64 + 64)) by lia. rewrite !slice_at_ok by lia. cbn [mbind outcome_bind]. apply put_hash_ok; lia.
Qed.
(** The cache has the same words whatever the byte order. *)
Lemma generateCache_ok size seed : size mod 64 = 0 -> 64 <= size < 2 ^ 32 ->
  exists b, zlen b = size /\ forall le, generateCache keccak512 le size seed = Ok (words b).
Proof.
  intros Hm Hs. pose proof (Z.div_mod size 64 ltac:(lia)) as Hd. set (rows := size / 64) in *. assert (0 < rows) as Hr by lia.
  destruct (put_hash_ok (zeros size) 0 seed) as (c0 & Hc0 & Hl0); [lia|rewrite zlen_zeros; lia|]. rewrite zlen_zeros in Hl0 by lia.
  destruct (foldM_ok (fun cache i => last ← slice_at cache (i * 64) ((i + 1) * 64); put_hash keccak512 cache ((i + 1) * 64) last)
    (count (Z.to_nat ((size - 1) / 64))) (fun c => zlen c = size) c0 Hl0) as (c1 & Hc1 & Hl1).
  { intros c i Hi%elem_of_count Hc. assert ((size - 1) / 64 < rows) by (apply Z.div_lt_upper_bound; lia). rewrite slice_at_ok by lia. cbn [mbind outcome_bind].
    destruct (put_hash_ok c ((i + 1) * 64) (slice c (i * 64) ((i + 1) * 64))) as (c' & Hp & Hl'); [lia..|]. exists c'. split; [done|lia]. }
  destruct (foldM_ok (fun cache (_ : Z) => foldM (memohash_row keccak512 rows) (count (Z.to_nat rows)) cache) (count 3) (fun c => zlen c = size) c1 Hl1) as (c2 & Hc2 & Hl2).
  { intros c _ _ Hc. apply foldM_ok; [done|]. intros c' j Hj%elem_of_count Hc'. destruct (memohash_row_ok rows c' j) as (c'' & Hrow & Hl''); [lia..|]. exists c''. split; [done|lia]. }
  exists c2. split; [done|]. intros le. unfold generateCache. rewrite Hc0. cbn [mbind outcome_bind]. rewrite Hc1. cbn [mbind outcome_bind]. fold rows. rewrite Hc2. cbn [mbind outcome_bind].
  f_equal. apply (native_words_to_native le (16 * Z.to_nat rows)). unfold zlen in Hl2. lia.
Qed.

(** ** Items *)

Record cache_ok (cache : list Z) : Prop := { ck_rows : zlen cache mod 16 = 0; ck_size : 0 < zlen cache < 2 ^ 32 }.
Lemma cache_rows cache : cache_ok cache -> exists n, zlen cache = 16 * n /\ u32 (zlen cache / 16) = n /\ 0 < n /\ 16 * n < 2 ^ 32.
Proof.
  intros [Hr Hs]. exists (zlen cache / 16). pose proof (Z.div_mod (zlen cache) 16 ltac:(lia)). rewrite u32_id; [lia|].
  split; [apply Z.div_pos; lia|apply Z.div_lt_upper_bound; lia].
Qed.
Lemma generateDatasetItem_ok cache index : cache_ok cache ->
  exists item, generateDatasetItem keccak512 cache index = Ok item /\ length item = 64%nat.
Proof.
  intros Hc. destruct (cache_rows cache Hc) as (n & Hl & Hn & Hn0 & Hn1). unfold generateDatasetItem. rewrite Hn.
  destruct (Z.eqb_spec n 0) as [|_]; [lia|].
  destruct (foldM_collect (fun i => index_at cache (u32 (index mod n * 16 + i))) 16) as (ws & Hws & _).
  { intros i Hi. pose proof (Z.mod_pos_bound index n Hn0). apply index_at_ok. rewrite u32_id by lia. lia. }
  rewrite Hws. cbn [mbind outcome_bind].
  edestruct (foldM_ok (fun intMix i => w ← index_at intMix (i mod 16); fnvHash intMix (drop (Z.to_nat (u32 (fnv (Z.lxor index i) w mod n * 16))) cache)) (count 256) (fun m => length m = 16%nat)) as (intMix & Hi & _).
  3: { unfold mbind, outcome_bind in Hi |- *. rewrite Hi. eexists. split; [reflexivity|]. apply keccak512_length. }
  - apply length_words, keccak512_length.
  - intros mix i _ Hm. destruct (index_at_ok mix (i mod 16)) as [w Hw]; [unfold zlen; pose proof (Z.mod_pos_bound i 16); lia|]. rewrite Hw. cbn [mbind outcome_bind].
    pose proof (Z.mod_pos_bound (fnv (Z.lxor index i) w) n Hn0). rewrite u32_id by lia.
    destruct (fnvHash_ok mix (drop (Z.to_nat (fnv (Z.lxor index i) w mod n * 16)) cache)) as (r & Hr & Hlr); [rewrite length_drop; unfold zlen in Hl; lia|].
    exists r. split; [done|lia].
Qed.

(** ** Hashimoto *)

(** It looks up items of the dataset only, so that two ways to look them up give
    the same result. *)
Lemma hashimoto_ext hash nonce size lookup lookup' :
  0 <= size < 2 ^ 38 -> (forall i, 0 <= i < 2 * (size / 128) -> lookup i = lookup' i) ->
  hashimoto keccak512 hash nonce size lookup = hashimoto keccak512 hash nonce size lookup'.
Proof.
  intros Hs Hl. unfold hashimoto. destruct (word_at _ 0) as [seedHead| |]; [|done..]. cbn [mbind outcome_bind].
  destruct (foldM _ (count 32) _) as [mix| |]; [|done..]. cbn [mbind outcome_bind].
  rewrite (foldM_ext (hashimoto_round seedHead (u32 (size / 128)) lookup) (hashimoto_round seedHead (u32 (size / 128)) lookup')); [done|].
  intros [m temp] i _. unfold hashimoto_round. destruct (index_at m (i mod 32)) as [w| |]; [|done..]. cbn [mbind outcome_bind].
  assert (0 <= size / 128 < 2 ^ 31) as Hr by (split; [apply Z.div_pos; lia|apply Z.div_lt_upper_bound; lia]). rewrite u32_id by lia.
  destruct (Z.eqb_spec (size / 128) 0) as [|Hz]; [done|]. pose proof (Z.mod_pos_bound (fnv (Z.lxor i seedHead) w) (size / 128) ltac:(lia)) as Hp.
  f_equal. apply foldM_ext. intros t j Hj%elem_of_count. rewrite Hl; [done|]. rewrite u32_id; lia.
Qed.

Definition lookup_ok (lookup : Z -> outcome (list Z)) (size : Z) : Prop :=
  forall i, 0 <= i < 2 * (size / 128) -> exists ws, lookup i = Ok ws.
Lemma hashimoto_round_ok seedHead rows lookup mix temp i : 0 < rows < 2 ^ 31 -> (forall i, 0 <= i < 2 * rows -> exists ws, lookup i = Ok ws) ->
  length mix = 32%nat -> length temp = 32%nat ->
  exists mix' temp', hashimoto_round seedHead rows lookup (mix, temp) i = Ok (mix', temp') /\ length mix' = 32%nat /\ length temp' = 32%nat.
Proof.
  intros Hr Hl Hm Ht. unfold hashimoto_round. destruct (index_at_ok mix (i mod 32)) as [w ->]; [unfold zlen; pose proof (Z.mod_pos_bound i 32); lia|]. cbn [mbind outcome_bind].
  destruct (Z.eqb_spec rows 0) as [|_]; [lia|]. pose proof (Z.mod_pos_bound (fnv (Z.lxor i seedHead) w) rows ltac:(lia)) as Hp.
  destruct (foldM_ok (fun temp j => data ← lookup (u32 (2 * (fnv (Z.lxor i seedHead) w mod rows) + j)); mret (copy_at temp (j * 16) (32 - j * 16) data)) (count 2) (fun t => length t = 32%nat) temp Ht) as (temp' & Hf & Ht').
  { intros t j Hj%elem_of_count Hlen. destruct (Hl (2 * (fnv (Z.lxor i seedHead) w mod rows) + j)) as [ws Hws]; [lia|]. rewrite u32_id, Hws by lia. eexists. split; [reflexivity|].
    assert (zlen (copy_at t (j * 16) (32 - j * 16) ws) = zlen t) as Hz by (apply zlen_copy_at; unfold zlen; lia). unfold zlen in Hz. lia. }
  rewrite Hf. cbn [mbind outcome_bind]. destruct (fnvHash_ok mix temp') as (mix' & -> & Hm'); [lia|]. exists mix', temp'. split; [done|]. lia.
Qed.
Lemma hashimoto_ok hash nonce size lookup : 128 <= size < 2 ^ 38 -> lookup_ok lookup size ->
  exists digest result, hashimoto keccak512 hash nonce size lookup = Ok (digest, result) /\ bytes_ok digest /\ length digest = 32%nat.
Proof.
  intros Hs Hl. unfold hashimoto. set (seed := keccak512 _). assert (length seed = 64%nat) as Hseed by apply keccak512_length.
  destruct (word_at_ok seed 0) as [seedHead ->]; [done|unfold zlen; lia|]. cbn [mbind outcome_bind].
  destruct (foldM_collect (fun i => word_at seed (i mod 16 * 4)) 32) as (mix & -> & Hmix).
  { intros i Hi. apply word_at_ok; unfold zlen; pose proof (Z.mod_pos_bound i 16); lia. }
  cbn [mbind outcome_bind]. assert (0 < size / 128 < 2 ^ 31) as Hr by (split; [apply Z.div_str_pos; lia|apply Z.div_lt_upper_bound; lia]). rewrite u32_id by lia.
  destruct (foldM_ok (hashimoto_round seedHead (size / 128) lookup) (count 64) (fun st => length (fst st) = 32%nat /\ length (snd st) = 32%nat) (mix, replicate 32 0)) as ([mix' temp'] & -> & Hm' & _).
  { split; [done|apply length_replicate]. }
  { intros [m t] i _ [Hm Ht]. destruct (hashimoto_round_ok seedHead (size / 128) lookup m t i Hr Hl Hm Ht) as (m' & t' & Hrd & Hm' & Ht'). by exists (m', t'). }
  cbn [mbind outcome_bind fst].
  match goal with |- context [foldM ?f (count 8) mix'] => destruct (foldM_ok f (count 8) (fun m => length m = 32%nat) mix' Hm') as (m & -> & Hlm) end.
  { intros m i Hi%elem_of_count Hm. do 4 (match goal with |- context [index_at m ?k] => destruct (index_at_ok m k) as [? ->]; [unfold zlen; lia|] end; cbn [mbind outcome_bind]).
    eexists. split; [reflexivity|]. by rewrite length_insert. }
  cbn [mbind outcome_bind]. eexists _, _. split; [reflexivity|]. split; [apply put_words_ok|]. rewrite length_put_words, length_take. lia.
Qed.

(** The result is a hash. *)
Lemma hashimoto_result hash nonce size lookup digest result : hashimoto keccak512 hash nonce size lookup = Ok (digest, result) -> exists d, result = keccak d.
Proof.
  unfold hashimoto. destruct (word_at _ 0); [|done..]. cbn [mbind outcome_bind]. destruct (foldM _ (count 32) _); [|done..]. cbn [mbind outcome_bind].
  destruct (foldM _ (count 64) _); [|done..]. cbn [mbind outcome_bind]. destruct (foldM _ (count 8) _); [|done..]. cbn. intros [= <- <-]. by eexists.
Qed.

(** ** Filling the dataset *)

Lemma slice_copy_same (d src : bytes) off : 0 <= off -> off + zlen src <= zlen d -> slice (copy_at d off (zlen d - off) src) off (off + zlen src) = src.
Proof.
  intros Ho Hl. unfold slice, copy_at, zlen in *. rewrite (take_ge src) by lia. rewrite drop_app_length' by (rewrite length_take; lia).
  apply take_app_length'. lia.
Qed.
Lemma slice_copy_other (d src : bytes) off a b : 0 <= off -> off + zlen src <= zlen d -> 0 <= a <= b -> b <= zlen d -> b <= off \/ off + zlen src <= a ->
  slice (copy_at d off (zlen d - off) src) a b = slice d a b.
Proof.
  intros Ho Hl Ha Hb Hd. unfold slice, copy_at, zlen in *. rewrite (take_ge src) by lia. apply list_eq. intros k.
  destruct (decide (k < Z.to_nat (b - a))%nat) as [Hk|Hk]; [|rewrite !lookup_take_ge by lia; done].
  rewrite !lookup_take_lt, !lookup_drop by lia. destruct Hd as [Hd|Hd].
  - rewrite lookup_app_l by (rewrite length_take; lia). apply lookup_take_lt. lia.
  - rewrite lookup_app_r by (rewrite length_take; lia). rewrite lookup_app_r by (rewrite length_take; lia). rewrite lookup_drop, length_take. f_equal. lia.
Qed.

Section dataset.
Context (size threads : Z) (cache : list Z).
Context (Hcache : cache_ok cache) (Hrows : size mod 128 = 0) (Hsize : 6400 <= size <= 2 ^ 32) (Hthreads : 0 < threads < 2 ^ 20).
Abbreviation item := (generateDatasetItem keccak512 cache).
Abbreviation step := (filler_step keccak512 isLittleEndian size cache).
Abbreviation n := (size / 64).
Definition batch : Z := (size + 64 * threads - 1) / (64 * threads).

Lemma size_items : size = 64 * n /\ 100 <= n <= 2 ^ 26.
Proof.
  pose proof (Z.div_mod size 128 ltac:(lia)). assert (n = 2 * (size / 128)) as -> by (symmetry; apply (Z.div_unique_exact size); lia). lia.
Qed.
Lemma batch_bounds : 0 < batch /\ n <= threads * batch < n + threads.
Proof.
  destruct size_items as [Hs Hn]. unfold batch. pose proof (Z.div_mod (size + 64 * threads - 1) (64 * threads) ltac:(lia)) as Hd.
  pose proof (Z.mod_pos_bound (size + 64 * threads - 1) (64 * threads) ltac:(lia)). set (q := (size + 64 * threads - 1) / (64 * threads)) in *. nia.
Qed.
Lemma start_of id : 0 <= id < threads -> filler_start size threads id = mkFiller (id * batch) (Z.min n (id * batch + batch)).
Proof.
  intros Hid. destruct size_items as [Hs Hn]. destruct batch_bounds as [Hb Ht]. unfold filler_start. change ((size + 64 * threads - 1) / (64 * threads)) with batch.
  assert (id * batch + batch <= threads * batch) by nia. assert (0 <= id * batch) by nia. rewrite !(u32_id batch) by lia. rewrite (u32_id (id * batch)) by lia.
  rewrite (u32_id (id * batch + batch)), (u32_id n) by lia. f_equal. destruct (Z.ltb_spec n (id * batch + batch)); lia.
Qed.

Definition filled (d : bytes) (i : Z) : Prop :=
  exists it, item i = Ok it /\ slice d (i * 64) (i * 64 + 64) = to_native isLittleEndian it.
Lemma fill_item_ok i d p : 0 <= i < n -> zlen d = size ->
  exists d', fill_item keccak512 isLittleEndian size cache i (d, p) = Ok (d', u32 (p + 1)) /\ zlen d' = size /\ filled d' i /\
    forall j, 0 <= j < n -> filled d j -> filled d' j.
Proof.
  intros Hi Hd. destruct size_items as [Hs Hn]. destruct (generateDatasetItem_ok cache i Hcache) as (it & Hit & Hlen).
  pose proof (length_to_native isLittleEndian 16 it Hlen) as Hl. set (src := to_native isLittleEndian it) in *. assert (zlen src = 64) as Hz by (unfold zlen; lia).
  unfold fill_item. rewrite Hit. cbn [mbind outcome_bind fst snd]. unfold copy_item. rewrite (u32_id (i * 64)) by lia.
  destruct (Z.ltb_spec (zlen d) (i * 64)) as [|_]; [lia|]. cbn [mbind outcome_bind mret outcome_ret].
  assert (1 <= n / 100 < 2 ^ 32) as Hp by (split; [apply Z.div_le_lower_bound; lia|apply Z.div_lt_upper_bound; lia]). rewrite (u32_id (n / 100)) by lia.
  destruct (Z.eqb_spec (n / 100) 0) as [|_]; [lia|]. eexists. split; [reflexivity|]. split; [|split].
  - transitivity (zlen d); [|done]. unfold copy_at, zlen in *. rewrite (take_ge src) by lia. rewrite !length_app, length_take, length_drop. lia.
  - exists it. split; [done|]. replace (i * 64 + 64) with (i * 64 + zlen src) by lia. apply slice_copy_same; fold src; lia.
  - intros j Hj (jt & Hjt & Hsl). destruct (Z.eq_dec j i) as [->|Hne].
    + exists it. split; [done|]. replace (i * 64 + 64) with (i * 64 + zlen src) by lia. apply slice_copy_same; fold src; lia.
    + exists jt. split; [done|]. rewrite <- Hsl. apply slice_copy_other; fold src; lia.
Qed.

Definition filling (c : config filler (outcome (bytes * Z))) : Prop :=
  exists d p, c.2 = Ok (d, p) /\ zlen d = size /\ length c.1 = Z.to_nat threads /\
    forall id t, c.1 !! id = Some t -> f_limit t = Z.min n (Z.of_nat id * batch + batch) /\ Z.of_nat id * batch <= f_index t /\
      forall i, Z.of_nat id * batch <= i < f_index t -> i < n /\ filled d i.
Definition todo (t : filler) : nat := Z.to_nat (f_limit t - f_index t).
Lemma filling_start : filling (fillers size threads).
Proof.
  exists (zeros size), 0. split; [done|]. split; [apply zlen_zeros; lia|]. cbn. split; [unfold count; by rewrite !length_map, length_seq|].
  intros id t Hl. rewrite list_lookup_fmap in Hl. apply fmap_Some in Hl as (k & Hk & ->). unfold count in Hk. rewrite list_lookup_fmap in Hk. apply fmap_Some in Hk as (k' & Hk & ->).
  apply lookup_seq in Hk as [-> Hk]. rewrite Nat.add_0_l, start_of by lia. cbn. split; [done|]. split; [lia|]. lia.
Qed.
Lemma filling_step id c t t' m' : filling c -> c.1 !! id = Some t -> step t c.2 = Some (t', m') -> filling (<[id := t']> c.1, m') /\ (todo t' < todo t)%nat.
Proof.
  intros (d & p & Hm & Hd & Hlen & Hts) Hid Hst. destruct size_items as [Hs Hn]. destruct batch_bounds as [Hb Ht].
  unfold filler_step in Hst. rewrite Hm in Hst. destruct (Z.ltb_spec (f_index t) (f_limit t)) as [Hlt|]; [|done]. injection Hst as <- <-.
  destruct (Hts id t Hid) as (Hlim & Hlo & Hdone). assert (0 <= f_index t < n) as Hi by lia. rewrite u32_id by lia.
  destruct (fill_item_ok (f_index t) d p Hi Hd) as (d' & Hf & Hd' & Hnew & Hkeep). split; [|unfold todo; cbn; lia].
  exists d', (u32 (p + 1)). cbn [fst snd]. split; [done|]. split; [done|]. split; [by rewrite length_insert|]. intros id' u Hu.
  destruct (decide (id' = id)) as [->|Hne].
  - rewrite list_lookup_insert_eq in Hu by (by eapply lookup_lt_Some). injection Hu as <-. cbn. split; [done|]. split; [lia|]. intros i Hr.
    destruct (Z.eq_dec i (f_index t)) as [->|Hie]; [split; [lia|done]|]. destruct (Hdone i) as [? ?]; [lia|]. split; [done|]. apply Hkeep; [lia|done].
  - rewrite list_lookup_insert_ne in Hu by done. destruct (Hts id' u Hu) as (Hl' & Hlo' & Hd2). split; [done|]. split; [done|].
    intros i Hr. destruct (Hd2 i Hr). split; [done|]. apply Hkeep; [lia|done].
Qed.
(** The segments of the goroutines are one after the other. *)
Lemma nsum_todo k : (k <= Z.to_nat threads)%nat -> Z.of_nat (nsum todo (map (filler_start size threads) (count k))) = Z.min n (Z.of_nat k * batch).
Proof.
  destruct size_items as [Hs Hn]. destruct batch_bounds as [Hb Ht]. induction k as [|k IH]; intros Hk; [cbn; lia|].
  unfold count in *. rewrite seq_S, !map_app, nsum_app. cbn [map nsum]. rewrite start_of by lia. unfold todo at 2. cbn. specialize (IH ltac:(lia)). cbn in IH. nia.
Qed.
Lemma fillers_todo : nsum todo (fillers size threads).1 = Z.to_nat n.
Proof.
  pose proof (nsum_todo (Z.to_nat threads) ltac:(lia)) as Hsum. destruct size_items as [Hs Hn]. destruct batch_bounds as [Hb Ht]. rewrite Z2Nat.id in Hsum by lia. cbn. lia.
Qed.
Lemma run_filling sched c : run_schedule step sched (fillers size threads) = Some c -> filling c /\ (length sched + nsum todo c.1 <= Z.to_nat n)%nat.
Proof. rewrite <- fillers_todo. apply (run_schedule_bound step filling todo filling_step), filling_start. Qed.
Lemma run_finishes k c : filling c -> nsum todo c.1 = k -> exists sched c', run_schedule step sched c = Some c' /\ filling c' /\ nsum todo c'.1 = O.
Proof.
  revert c. induction (lt_wf k) as [k _ IH]. intros c Hc Hk. destruct k as [|k]; [by exists [], c|].
  destruct (nsum_pos todo c.1) as (id & t & Hid & Ht); [lia|]. pose proof Hc as (d & p & Hm & _).
  set (t' := mkFiller (u32 (f_index t + 1)) (f_limit t)).
  assert (step t c.2 = Some (t', fill_item keccak512 isLittleEndian size cache (f_index t) (d, p))) as Hst.
  { unfold filler_step. rewrite Hm. destruct (Z.ltb_spec (f_index t) (f_limit t)); [done|unfold todo in Ht; lia]. }
  destruct (filling_step id c t _ _ Hc Hid Hst) as [Hc' Hw]. pose proof (nsum_insert todo c.1 id t t' Hid) as Hsum.
  assert (nsum todo (<[id := t']> c.1) < S k)%nat as Hlt by lia. destruct (IH _ Hlt _ Hc' eq_refl) as (sched & c' & Hr & Hc2 & Hz). exists (id :: sched), c'. split; [|done].
  cbn. destruct c as [ts m]. by rewrite (step_thread_intro step id ts m t _ _ Hid Hst).
Qed.
(** When the goroutines are done, every item is in its place. *)
Lemma filled_all ts d p : filling (ts, Ok (d, p)) -> nsum todo ts = O -> forall i, 0 <= i < n -> filled d i.
Proof.
  intros (d' & p' & [= <- <-] & Hd & Hlen & Hts) Hz i Hi. destruct size_items as [Hs Hn]. destruct batch_bounds as [Hb Ht]. cbn in *.
  assert (i / batch < threads) as Hid by (apply Z.div_lt_upper_bound; lia). pose proof (Z.div_pos i batch ltac:(lia) Hb) as Hid0.
  pose proof (Z.div_mod i batch ltac:(lia)) as Hdm. pose proof (Z.mod_pos_bound i batch Hb) as Hmb.
  destruct (lookup_lt_is_Some_2 ts (Z.to_nat (i / batch))) as [t Hl]; [lia|]. destruct (Hts _ _ Hl) as (Hlim & Hlo & Hdone). rewrite Z2Nat.id in * by lia.
  pose proof (nsum_zero todo ts _ t Hz Hl) as Hz'. unfold todo in Hz'. apply Hdone. lia.
Qed.
Lemma full_is_light d : zlen d = size -> (forall i, 0 <= i < n -> filled d i) -> forall hash nonce, exists digest result,
  hashimotoFull keccak512 (native_words isLittleEndian d) hash nonce = Ok (digest, result) /\
  hashimotoLight keccak512 size cache hash nonce = Ok (digest, result) /\ bytes_ok digest /\ length digest = 32%nat.
Proof.
  intros Hd Hf hash nonce. destruct size_items as [Hs Hn]. assert (length d = 4 * Z.to_nat (16 * n))%nat as Hl by (unfold zlen in Hd; lia).
  pose proof (length_native_words isLittleEndian _ d Hl) as Hlw. assert (2 * (size / 128) = n) as Hn2 by (pose proof (Z.div_mod size 128 ltac:(lia)); apply (Z.div_unique_exact size); lia).
  unfold hashimotoFull, hashimotoLight. replace (u64 (zlen (native_words isLittleEndian d) * 4)) with size by (rewrite u64_id; unfold is_u64, zlen; lia).
  rewrite (hashimoto_ext hash nonce size _ (fun index => rawData ← generateDatasetItem keccak512 cache index; mret (words rawData))); [|lia|].
  - edestruct (hashimoto_ok hash nonce size) as (digest & result & Hh & Hok); [lia| |exists digest, result; split; [exact Hh|by split]]. intros i Hi.
    destruct (generateDatasetItem_ok cache i Hcache) as (it & Hit & _). exists (words it). cbv beta. by rewrite Hit.
  - intros i Hi. rewrite Hn2 in Hi. destruct (Hf i Hi) as (it & Hit & Hsl). rewrite Hit. cbn [mbind outcome_bind].
    destruct (generateDatasetItem_ok cache i Hcache) as (it' & Hit' & Hlen). rewrite Hit in Hit'. injection Hit' as <-.
    rewrite (u32_id (i * 16)), (u32_id (i * 16 + 16)) by lia. rewrite slice_at_ok by (unfold zlen; lia).
    rewrite (native_words_slice _ d (Z.to_nat (16 * n))) by lia. replace (4 * (i * 16)) with (i * 64) by lia. replace (4 * (i * 16 + 16)) with (i * 64 + 64) by lia.
    rewrite Hsl. by rewrite (native_words_to_native isLittleEndian 16 it Hlen).
Qed.
Lemma all_done ts : forallb (fun t => f_limit t <=? f_index t) ts = true <-> nsum todo ts = O.
Proof.
  induction ts as [|t ts IH]; [done|]. cbn [forallb nsum]. rewrite andb_true_iff, IH, Z.leb_le. unfold todo at 2. lia.
Qed.

Lemma run_completes sched c : run_schedule step sched (fillers size threads) = Some c ->
  exists sched' m, generateDataset keccak512 isLittleEndian size threads cache (sched ++ sched') = Some m.
Proof.
  intros Hr. destruct (run_filling sched c Hr) as [Hc _]. destruct (run_finishes _ c Hc eq_refl) as (sched' & [ts m] & Hr' & Hc' & Hz).
  exists sched', m. unfold generateDataset. rewrite run_schedule_app, Hr, Hr'. destruct Hc' as (d & p & Hm & _). cbn in Hm, Hz. subst m. by rewrite (proj2 (all_done ts) Hz).
Qed.
Lemma dataset_finishes : exists sched m, generateDataset keccak512 isLittleEndian size threads cache sched = Some m.
Proof. destruct (run_completes [] (fillers size threads) eq_refl) as (sched & m & Hg). by exists sched, m. Qed.
Lemma dataset_complete sched m : generateDataset keccak512 isLittleEndian size threads cache sched = Some m ->
  exists dataset p, m = Ok (dataset, p) /\ zlen dataset = size /\ forall i, 0 <= i < n -> filled dataset i.
Proof.
  intros Hg. unfold generateDataset in Hg. destruct (run_schedule _ _ _) as [[ts m']|] eqn:Hr; [|done]. destruct (run_filling sched _ Hr) as [Hc _].
  pose proof Hc as (d & p & Hm & Hd & _). cbn in Hm. subst m'. destruct (forallb _ ts) eqn:Hall; [|done]. injection Hg as <-. exists d, p. split; [done|].
  split; [done|]. apply (filled_all ts d p Hc). by apply all_done.
Qed.

(** C15. The goroutines that fill the mining dataset end whatever their order,
    and hashimoto over the dataset then returns what hashimoto over the cache
    returns, for every header and nonce: full and light verification agree. The
    dataset has at most 4 GiB. *)
Theorem dataset_agrees_with_cache :
  (forall sched c, run_schedule step sched (fillers size threads) = Some c ->
    (length sched <= Z.to_nat n)%nat /\ exists sched' m, generateDataset keccak512 isLittleEndian size threads cache (sched ++ sched') = Some m) /\
  (forall sched m, generateDataset keccak512 isLittleEndian size threads cache sched = Some m ->
    exists dataset p, m = Ok (dataset, p) /\ forall hash nonce, exists r,
      hashimotoFull keccak512 (native_words isLittleEndian dataset) hash nonce = Ok r /\ hashimotoLight keccak512 size cache hash nonce = Ok r).
Proof.
  split.
  - intros sched c Hr. destruct (run_filling sched c Hr) as [_ Hle]. split; [lia|]. by apply (run_completes sched c).
  - intros sched m Hg. destruct (dataset_complete sched m Hg) as (d & p & -> & Hd & Hf). exists d, p. split; [done|]. intros hash nonce.
    destruct (full_is_light d Hd Hf hash nonce) as (digest & result & Hfull & Hlight & _). by exists (digest, result).
Qed.
End dataset.

(** The offsets of the items are computed in 32 bits: nothing is ever written
    beyond 4 GiB. *)
Lemma drop_copy_at (d src : bytes) off k : 0 <= off <= zlen d -> off + zlen src <= Z.of_nat k -> drop k (copy_at d off (zlen d - off) src) = drop k d.
Proof.
  intros Ho Hk. unfold copy_at, zlen in *. set (src' := take _ src). assert (length src' <= length src)%nat by (unfold src'; rewrite length_take; lia).
  rewrite drop_app_ge by (rewrite length_take; lia). rewrite drop_app_ge by (rewrite length_take; lia). rewrite drop_drop, length_take. f_equal. lia.
Qed.
Lemma fill_item_below size cache index d q d' q' : fill_item keccak512 isLittleEndian size cache index (d, q) = Ok (d', q') ->
  drop (Z.to_nat (2 ^ 32)) d' = drop (Z.to_nat (2 ^ 32)) d.
Proof.
  unfold fill_item, generateDatasetItem. destruct (u32 (zlen cache / 16) =? 0); [done|]. destruct (foldM _ (count 16) _) as [ws| |]; [|done..].
  cbn [mbind outcome_bind]. destruct (foldM _ (count 256) _) as [mix| |]; [|done..]. cbn [mbind outcome_bind mret outcome_ret fst snd]. unfold copy_item.
  set (off := u32 (index * 64)). assert (off mod 64 = 0 /\ 0 <= off < 2 ^ 32) as [Hm Ho].
  { unfold off, u32. split; [|apply Z.mod_pos_bound; lia]. change (2 ^ 32) with (64 * 2 ^ 26). rewrite mod_mul_mod, Z.mod_mul; lia. }
  destruct (Z.ltb_spec (zlen d) off) as [|Hle]; [done|]. cbn [mbind outcome_bind mret outcome_ret]. destruct (_ =? 0); [done|]. intros [= <- _].
  pose proof (length_to_native isLittleEndian 16 _ (keccak512_length (put_words mix))) as Hlen. apply drop_copy_at; [lia|].
  unfold zlen. rewrite Hlen, Z2Nat.id by lia. pose proof (Z.div_mod off 64 ltac:(lia)). lia.
Qed.
Lemma dataset_above_4GiB_is_empty size threads cache sched dataset p : 2 ^ 32 <= size ->
  generateDataset keccak512 isLittleEndian size threads cache sched = Some (Ok (dataset, p)) ->
  drop (Z.to_nat (2 ^ 32)) dataset = zeros (size - 2 ^ 32).
Proof.
  intros Hs Hg. unfold generateDataset in Hg. destruct (run_schedule _ _ _) as [[ts m]|] eqn:Hr; [|done].
  assert (forall d q, m = Ok (d, q) -> drop (Z.to_nat (2 ^ 32)) d = zeros (size - 2 ^ 32)) as Hinv.
  { refine (run_schedule_ind _ (fun c => forall d q, c.2 = Ok (d, q) -> drop (Z.to_nat (2 ^ 32)) d = zeros (size - 2 ^ 32)) _ sched (fillers size threads) (ts, m) _ Hr).
    - intros id [us m1] t t' m' IH _ Hst d q Hm. unfold filler_step in Hst. cbn [snd] in *. destruct m1 as [[d1 q1]| |]; [|done..].
      destruct (f_index t <? f_limit t); [|done]. injection Hst as _ <-. rewrite (fill_item_below _ _ _ _ _ _ _ Hm). by apply (IH d1 q1).
    - intros d q [= <- _]. unfold zeros. rewrite drop_replicate. f_equal. lia. }
  destruct m as [[d q]| |]; [|done..]. destruct (forallb _ ts); [|done]. injection Hg as <- <-. by apply (Hinv d q).
Qed.
End hashimoto.

(** ** An instance *)

(** A function of 64 bytes in place of Keccak-512. *)
Definition toy512 (d : bytes) : bytes := map (fun i => (fold_right Z.add 0 d + 7 * i) mod 256) (count 64).
Lemma toy512_length d : length (toy512 d) = 64%nat.
Proof. done. Qed.
Definition small_cache : list Z := count 32.
Lemma small_cache_ok : cache_ok small_cache.
Proof. split; [reflexivity|]. vm_compute. by split. Qed.
Lemma dataset_agrees_with_cache_witness : exists sched dataset p,
  generateDataset toy512 true 6400 3 small_cache sched = Some (Ok (dataset, p)) /\ forall hash nonce, exists r,
    hashimotoFull toy512 (native_words true dataset) hash nonce = Ok r /\ hashimotoLight toy512 6400 small_cache hash nonce = Ok r.
Proof.
  destruct (dataset_agrees_with_cache toy512 true toy512_length 6400 3 small_cache small_cache_ok) as [Hrun Hres]; [reflexivity|lia|lia|].
  destruct (Hrun [] _ eq_refl) as (_ & sched & m & Hg). destruct (Hres _ _ Hg) as (dataset & p & -> & Hagree). by exists sched, dataset, p.
Defined.
