(* ===== verification/StateCopy.v ===== *)
(** * Copies of a state database

    Models [deepCopy] of [core/state/state_object.go], [Copy] and
    [CopySharedTrie] of [core/state/statedb.go], and the states of the miner's
    threads, which [CopySharedTrie] makes and which share one trie. A trie is a
    value here, so [CopyTrie] gives back its argument; the sharing is that of
    [thread_states]. *)

From S2P Require Import Prelude CommonMath Rlp StateIface CoreState CoreStateOk ConcreteCrypto Concrete.
Local Open Scope Z_scope.

Section copies.
Context {T : Type} `{Database T} `{Crypto}.
Implicit Types (s : stateDB T) (o : stateObject T).

Definition deepCopy o : stateObject T :=
  let c := newObject (T := T) (address o) (data o) in
  mkObject (address c) (addrHash c) (data c) (dbErr c) (trie o) (code o) (originStorage o) (dirtyStorage o)
    (dirtyCode o) (suicided o) (deleted o).

(** The objects the journal has as dirty. *)
Definition copied_objects s : gmap Z (stateObject T) :=
  map_imap (fun a _ => deepCopy <$> stateObjects s !! a) (dirties (s_journal s)).
(** The second loop takes the addresses for which there is no object, and casts
    the result of looking for it. *)
Definition objects_missing s : bool :=
  negb (bool_decide (map_Forall (fun a _ => is_Some (stateObjects s !! a)) (stateObjectsDirty s))).

Definition Copy s : outcome (stateDB T) :=
  if objects_missing s then Panic TypeAssertion
  else Ok {| s_trie := s_trie s; stateObjects := copied_objects s; stateObjectsDirty := (fun _ => tt) <$> copied_objects s;
             s_dbErr := None; refund := refund s; thash := 0; bhash := 0; txIndex := 0;
             logs := logs s; logSize := logSize s; preimages := preimages s;
             s_journal := newJournal; validRevisions := []; nextRevisionId := 0 |}.
Definition CopySharedTrie s : outcome (stateDB T) :=
  if objects_missing s then Panic TypeAssertion
  else Ok {| s_trie := s_trie s; stateObjects := copied_objects s; stateObjectsDirty := (fun _ => tt) <$> copied_objects s;
             s_dbErr := None; refund := refund s; thash := 0; bhash := 0; txIndex := 0;
             logs := logs s; logSize := logSize s; preimages := preimages s;
             s_journal := newJournal; validRevisions := []; nextRevisionId := 0 |}.

(** The states of the threads, and the trie that all of them point to. *)
Record thread_states : Type := mkThreadStates { shared_trie : T; states : list (stateDB T) }.
Definition on_thread {A} (i : nat) (m : M (stateDB T) A) : M thread_states A := fun ts =>
  match states ts !! i with
  | None => Panic NilDeref
  | Some s =>
      match m (s_set_trie (shared_trie ts) s) with
      | Ok (a, s') => Ok (a, mkThreadStates (s_trie s') (<[i := s']> (states ts)))
      | Panic r => Panic r
      | OutOfFuel => OutOfFuel
      end
  end.
(** The threads as [txnWorker] starts them. *)
Definition start_states (n : nat) s : outcome thread_states :=
  match CopySharedTrie s with
  | Ok c => Ok (mkThreadStates (s_trie s) (replicate n c))
  | Panic r => Panic r
  | OutOfFuel => OutOfFuel
  end.

(** ** What a copy shows *)

Lemma deepCopy_ok a o : object_ok a o -> object_ok a (deepCopy o) /\ acct_of (deepCopy o) = acct_of o.
Proof.
  intros (<- & Hh & Hc).
  assert (data (deepCopy o) = data o) as Hd.
  { unfold deepCopy. cbn. destruct Hc as [_ Hl]. unfold zlen. rewrite Hl. done. }
  split; [split_and!; [done|done|by rewrite Hd]|].
  unfold acct_of, committed_of, storage_of, code_from. rewrite Hd. unfold deepCopy. cbn. by rewrite Hh.
Qed.

(** A copy of a state whose changed accounts are all in the journal is
    faithful: it satisfies the invariant, shows the same accounts, refund
    counter, logs and preimages, and has an empty journal of its own. *)
Theorem Copy_faithful s :
  state_inv s ->
  map_Forall (fun a _ => is_Some (stateObjects s !! a)) (stateObjectsDirty s) ->
  (forall a o, stateObjects s !! a = Some o -> dirties (s_journal s) !! a = None ->
     account_at (s_trie s) (stateObjects s) a = stored (s_trie s) a) ->
  exists s', Copy s = Ok s' /\ state_inv s' /\ (forall a, w_acct (state_view s') a = w_acct (state_view s) a) /\
    refund s' = refund s /\ logs s' = logs s /\ preimages s' = preimages s /\ validRevisions s' = [].
Proof.
  intros Hinv Hdirty Hclean. unfold Copy, objects_missing. rewrite bool_decide_eq_true_2 by done. cbn [negb].
  eexists. split; [reflexivity|].
  assert (forall a o, copied_objects s !! a = Some o ->
    exists o', o = deepCopy o' /\ stateObjects s !! a = Some o') as Hcopied.
  { intros a o Ho. unfold copied_objects in Ho. rewrite map_lookup_imap in Ho. destruct (dirties (s_journal s) !! a); [|done].
    cbn in Ho. destruct (stateObjects s !! a) as [o'|]; [|done]. injection Ho as <-. by exists o'. }
  assert (forall a, account_at (s_trie s) (copied_objects s) a = account_at (s_trie s) (stateObjects s) a) as Hacct.
  { intros a. unfold account_at at 1, copied_objects. rewrite map_lookup_imap.
    destruct (dirties (s_journal s) !! a) eqn:Hd; cbn; unfold account_at in *.
    - destruct (stateObjects s !! a) as [o|] eqn:Ho; [|done]. cbn.
      destruct (deepCopy_ok a o (proj1 (inv_objects s Hinv a o Ho))) as [_ ->]. done.
    - destruct (stateObjects s !! a) as [o|] eqn:Ho; [|done]. specialize (Hclean a o Ho Hd). by rewrite Ho in Hclean. }
  split_and!; try done. split; cbn.
  - apply (inv_trie s Hinv).
  - intros a o (o' & -> & Ho')%Hcopied. destruct (inv_objects s Hinv a o' Ho') as [Hok Hdel].
    split; [by apply deepCopy_ok|done].
  - constructor.
  - done.
  - by exists 0.
Qed.

(** A thread that has an account in its cache does not see the trie. *)
Lemma cached_balance_ignores_trie s a o tr :
  stateObjects s !! a = Some o -> deleted o = false ->
  StateDB_GetBalance a (s_set_trie tr s) = Ok (Balance (data o), s_set_trie tr s).
Proof.
  intros Ho Hd. unfold StateDB_GetBalance, getStateObject, gets, mbind, M_bind, mret, M_ret. cbn.
  rewrite Ho, Hd. done.
Qed.
End copies.

(** ** Examples *)

Lemma demo_objects_dirty : map_Forall (fun a _ => is_Some (dirties (s_journal demo_db) !! a)) (stateObjects demo_db).
Proof. apply (bool_decide_unpack (map_Forall _ _)). vm_compute. exact I. Qed.
Lemma demo_dirty_empty : stateObjectsDirty demo_db = ∅.
Proof. vm_compute. reflexivity. Qed.
Lemma Copy_faithful_witness :
  exists s', Copy demo_db = Ok s' /\ w_acct (state_view s') alice = w_acct (state_view demo_db) alice.
Proof.
  destruct (Copy_faithful demo_db (proj1 demo_db_ok)) as (s' & Hs & _ & Ha & _).
  - rewrite demo_dirty_empty. apply map_Forall_empty.
  - intros a o Ho Hd. destruct (demo_objects_dirty a o Ho) as [n Hn]. rewrite Hd in Hn. discriminate Hn.
  - exists s'. split; [exact Hs|exact (Ha alice)].
Defined.

(** What a computation returns, and what follows on its state. *)
Definition result {S A} (x : outcome (A * S)) : outcome A :=
  match x with Ok (a, _) => Ok a | Panic r => Panic r | OutOfFuel => OutOfFuel end.
Definition and_then {A B} (x : outcome A) (f : A -> outcome B) : outcome B :=
  match x with Ok a => f a | Panic r => Panic r | OutOfFuel => OutOfFuel end.

(** A transaction deploys a contract and is finished; then the state is copied.
    The code of the contract, in the state and in the copy. *)
Definition deploy_and_copy : outcome (bytes * bytes) :=
  and_then ((SetCode answer demo_code;; Finalise true) (StateDB_New (∅ : demo_trie))) (fun '(_, s) =>
  and_then (Copy s) (fun c =>
  and_then (result (StateDB_GetCode answer s)) (fun code_s =>
  and_then (result (StateDB_GetCode answer c)) (fun code_c => Ok (code_s, code_c))))).

(** [Copy] loses the code of a contract that an earlier transaction of the
    block has deployed: the account is no longer in the journal, its object is
    not copied since it exists, and the code is not in the database before the
    block is committed. *)
Theorem Copy_loses_code : deploy_and_copy = Ok (demo_code, []).
Proof. vm_compute. reflexivity. Qed.

(** Two threads pay one account, one after the other; thread 1 has looked at
    the account before. The balances that the trie has in the end. *)
Definition payee : Address := 0xb0b.
Definition pay (from : Address) (amount : Z) : M demo_state unit :=
  SubBalance from amount;; AddBalance payee amount;; Finalise true.
Definition two_payments : outcome (Z * Z * Z) :=
  and_then ((AddBalance alice 100;; AddBalance answer 100;; AddBalance payee 1;; Finalise true) (StateDB_New (∅ : demo_trie)))
    (fun '(_, s) =>
  and_then (start_states 2 s) (fun ts =>
  and_then ((on_thread 1 (GetBalance payee);; on_thread 0 (pay alice 10);; on_thread 1 (pay answer 5)) ts) (fun '(_, ts) =>
  result ((a ← GetBalance alice; b ← GetBalance answer; p ← GetBalance payee; mret (a, b, p))
            (StateDB_New (shared_trie ts)))))).

(** The threads of the miner do not see each other's writes: of two payments
    of 10 and 5 to an account that has 1, by two threads one after the other,
    the trie has the second only, although both senders have paid. *)
Theorem shared_trie_loses_payment : two_payments = Ok (90, 95, 6).
Proof. vm_compute. reflexivity. Qed.
