(* ===== verification/Ethash.v ===== *)
(** * The ethash engine

    Models [consensus/ethash/consensus.go] and the search of
    [consensus/ethash/sealer.go], with what they call: the check of fork hashes
    ([consensus/misc/forks.go]), the gas limit of the next block
    ([core/block_validator.go]), and the header the miner starts a block with
    ([commitNewWork] of [miner/worker.go]). The headers and blocks of the chain
    are looked up through parameters. *)

From stdpp Require Import gmap.
From S2P Require Import Prelude CommonMath Params Rlp StateIface Transaction CoreState CoreEvm Dao Hashimoto EthashSizes.
Local Open Scope Z_scope.

(** ** Blocks *)

Record Block : Type := mkBlock { b_header : Header; b_uncles : list Header }.

Section hashes.
Context `{Crypto}.
(** The fields of a header that are sealed. *)
Definition sealed_items (h : Header) : list Item :=
  [IBytes (Hash_Bytes (ParentHash h)); IBytes (Hash_Bytes (UncleHash h)); IBytes (Address_Bytes (h_Coinbase h)); IBytes (Hash_Bytes (h_Root h));
   IBytes (Hash_Bytes (TxHash h)); IBytes (Hash_Bytes (ReceiptHash h)); IBytes (Bloom h); IBig (h_Difficulty h); IBig (Number h);
   IUint (h_GasLimit h); IUint (GasUsed h); IBig (h_Time h); IBytes (Extra h)].
Definition SealHash (h : Header) : Hash := rlpHash (IList (sealed_items h)).
Definition header_item (h : Header) : Item := IList (sealed_items h ++ [IBytes (Hash_Bytes (MixDigest h)); IBytes (h_Nonce h)]).
Definition Header_Hash (h : Header) : Hash := rlpHash (header_item h).
Definition CalcUncleHash (uncles : list Header) : Hash := rlpHash (IList (map header_item uncles)).
Definition EmptyUncleHash : Hash := CalcUncleHash [].
End hashes.

Definition with_Difficulty (d : Z) (h : Header) : Header :=
  mkHeader (ParentHash h) (UncleHash h) (h_Coinbase h) (h_Root h) (TxHash h) (ReceiptHash h) (Bloom h) d (Number h) (h_GasLimit h) (GasUsed h) (h_Time h) (Extra h) (MixDigest h) (h_Nonce h).
Definition with_Extra (x : bytes) (h : Header) : Header :=
  mkHeader (ParentHash h) (UncleHash h) (h_Coinbase h) (h_Root h) (TxHash h) (ReceiptHash h) (Bloom h) (h_Difficulty h) (Number h) (h_GasLimit h) (GasUsed h) (h_Time h) x (MixDigest h) (h_Nonce h).
Definition with_seal (nonce : bytes) (mix : Hash) (h : Header) : Header :=
  mkHeader (ParentHash h) (UncleHash h) (h_Coinbase h) (h_Root h) (TxHash h) (ReceiptHash h) (Bloom h) (h_Difficulty h) (Number h) (h_GasLimit h) (GasUsed h) (h_Time h) (Extra h) mix nonce.

(** [types.EncodeNonce] and [BlockNonce.Uint64] *)
Definition EncodeNonce (i : Z) : bytes := be_enc 8 i.
Definition Nonce_Uint64 (n : bytes) : Z := be_dec n.

(** ** Difficulty *)

Abbreviation MinimumDifficulty := 131072 (only parsing).
Abbreviation DifficultyBoundDivisor := 2048 (only parsing).
Abbreviation DurationLimit := 13 (only parsing).
Abbreviation expDiffPeriod := 100000 (only parsing).

Section difficulty.
Context `{Crypto}.
Definition makeDifficultyCalculator (bombDelay : Z) (time : Z) (parent : Header) : Z :=
  let bombDelayFromParent := bombDelay - 1 in
  let x := (time - h_Time parent) / 9 in
  let x := (if UncleHash parent =? EmptyUncleHash then 1 else 2) - x in
  let x := if x <? -99 then -99 else x in
  let y := h_Difficulty parent / DifficultyBoundDivisor in
  let x := h_Difficulty parent + y * x in
  let x := if x <? MinimumDifficulty then MinimumDifficulty else x in
  let fakeBlockNumber := if bombDelayFromParent <=? Number parent then Number parent - bombDelayFromParent else 0 in
  let periodCount := fakeBlockNumber / expDiffPeriod in
  if 1 <? periodCount then x + 2 ^ (periodCount - 2) else x.
Definition calcDifficultyConstantinople : Z -> Header -> Z := makeDifficultyCalculator 5000000.
Definition calcDifficultyByzantium : Z -> Header -> Z := makeDifficultyCalculator 3000000.
Definition calcDifficultyHomestead (time : Z) (parent : Header) : Z :=
  let x := 1 - (time - h_Time parent) / 10 in
  let x := if x <? -99 then -99 else x in
  let y := h_Difficulty parent / DifficultyBoundDivisor in
  let x := h_Difficulty parent + y * x in
  let x := if x <? MinimumDifficulty then MinimumDifficulty else x in
  let periodCount := (Number parent + 1) / expDiffPeriod in
  if 1 <? periodCount then x + 2 ^ (periodCount - 2) else x.
Definition calcDifficultyFrontier (time : Z) (parent : Header) : Z :=
  let adjust := h_Difficulty parent / DifficultyBoundDivisor in
  let diff := if time - h_Time parent <? DurationLimit then h_Difficulty parent + adjust else h_Difficulty parent - adjust in
  let diff := if diff <? MinimumDifficulty then MinimumDifficulty else diff in
  let periodCount := (Number parent + 1) / expDiffPeriod in
  if 1 <? periodCount then BigMax (diff + 2 ^ (periodCount - 2)) MinimumDifficulty else diff.
Definition CalcDifficulty (config : ChainConfig) (time : Z) (parent : Header) : Z :=
  let next := Some (Number parent + 1) in
  if IsConstantinople config next then calcDifficultyConstantinople time parent
  else if IsByzantium config next then calcDifficultyByzantium time parent
  else if IsHomestead config next then calcDifficultyHomestead time parent
  else calcDifficultyFrontier time parent.
End difficulty.

(** ** Gas limits *)

Abbreviation GasLimitBoundDivisor := 1024 (only parsing).
Abbreviation MinGasLimit := 5000 (only parsing).
Definition CalcGasLimit (parent : Header) (gasFloor gasCeil : Z) : Z :=
  let contrib := u64 (GasUsed parent + GasUsed parent / 2) / GasLimitBoundDivisor in
  let decay := u64 (h_GasLimit parent / GasLimitBoundDivisor - 1) in
  let limit := u64 (h_GasLimit parent - decay + contrib) in
  let limit := if limit <? MinGasLimit then MinGasLimit else limit in
  if limit <? gasFloor then
    let limit := u64 (h_GasLimit parent + decay) in
    if gasFloor <? limit then gasFloor else limit
  else if gasCeil <? limit then
    let limit := u64 (h_GasLimit parent - decay) in
    if limit <? gasCeil then gasCeil else limit
  else limit.

(** ** The engine *)

Inductive Mode : Type := ModeNormal | ModeShared | ModeTest | ModeFake | ModeFullFake.
#[export] Instance Mode_eq_dec : EqDecision Mode.
Proof. solve_decision. Defined.
Inductive Ethash : Type := mkEthash (PowMode : Mode) (fakeFail : Z) (shared : option Ethash).
Definition PowMode (e : Ethash) : Mode := let 'mkEthash m _ _ := e in m.

Inductive ethashError : Type :=
| errLargeBlockTime | errZeroBlockTime | errTooManyUncles | errDuplicateUncle | errUncleIsAncestor | errDanglingUncle
| errInvalidDifficulty | errInvalidMixDigest | errInvalidPoW
| ErrExtraTooLong | ErrFutureBlock | ErrWrongDifficulty | ErrGasLimitCap | ErrGasUsed | ErrGasLimit | ErrInvalidNumber | ErrUnknownAncestor
| ErrDAO (err : daoError) | ErrForkHash.

Section engine.
Context `{Crypto} (keccak512 : bytes -> bytes) (isLittleEndian : bool).

(** [cache.generate] and [dataset.generate] when nothing is kept on disk. The
    dataset is there once its goroutines, which take turns as [sched] says, are
    done. *)
Definition cache_generate (test : bool) (epoch : Z) : outcome (list Z) :=
  size ← cacheSize (u64 (epoch * epochLength + 1));
  let seed := seedHash (u64 (epoch * epochLength + 1)) in
  let size := if test then 1024 else size in
  generateCache keccak512 isLittleEndian size seed.
Definition dataset_generate (test : bool) (epoch threads : Z) (sched : list nat) : outcome (option (list Z)) :=
  csize ← cacheSize (u64 (epoch * epochLength + 1));
  dsize ← datasetSize (u64 (epoch * epochLength + 1));
  let seed := seedHash (u64 (epoch * epochLength + 1)) in
  let csize := if test then 1024 else csize in
  let dsize := if test then 32 * 1024 else dsize in
  cache ← generateCache keccak512 isLittleEndian csize seed;
  match generateDataset keccak512 isLittleEndian dsize threads cache sched with
  | None => mret None
  | Some m => d ← m; mret (Some (native_words isLittleEndian (fst d)))
  end.

(** [dataset] is the dataset of the epoch where the full verification was asked
    for and it is there. *)
Fixpoint verifySeal (e : Ethash) (header : Header) (dataset : option (list Z)) : outcome (option ethashError) :=
  let 'mkEthash mode fakeFail shared := e in
  if bool_decide (mode = ModeFake \/ mode = ModeFullFake) then
    mret (if fakeFail =? Uint64 (Number header) then Some errInvalidPoW else None)
  else
    match shared with
    | Some e' => verifySeal e' header dataset
    | None =>
        if Z.sgn (h_Difficulty header) <=? 0 then mret (Some errInvalidDifficulty)
        else
          let number := Uint64 (Number header) in
          let hash := Hash_Bytes (SealHash header) in
          let nonce := Nonce_Uint64 (h_Nonce header) in
          '(digest, result) ← (match dataset with
            | Some dataset => hashimotoFull keccak512 dataset hash nonce
            | None =>
                let test := bool_decide (mode = ModeTest) in
                cache ← cache_generate test (number / epochLength);
                size ← datasetSize number;
                hashimotoLight keccak512 (if test then 32 * 1024 else size) cache hash nonce
            end);
          mret (if negb (bytes_eqb (Hash_Bytes (MixDigest header)) digest) then Some errInvalidMixDigest
                else if 2 ^ 256 / h_Difficulty header <? be_dec result then Some errInvalidPoW
                else None)
    end.
Definition VerifySeal (e : Ethash) (header : Header) : outcome (option ethashError) := verifySeal e header None.

(** The search for a nonce until [tries] have failed, which is when the miner is
    told to stop. A division by the difficulty zero panics. *)
Fixpoint mine (tries : nat) (dataset : list Z) (header : Header) (nonce : Z) : outcome (option Header) :=
  if h_Difficulty header =? 0 then Panic DivideByZero
  else
    match tries with
    | O => mret None
    | S tries =>
        '(digest, result) ← hashimotoFull keccak512 dataset (Hash_Bytes (SealHash header)) nonce;
        if be_dec result <=? 2 ^ 256 / h_Difficulty header
        then mret (Some (with_seal (EncodeNonce nonce) (BytesToHash digest) header))
        else mine tries dataset header (u64 (nonce + 1))
    end.

(** ** Headers *)

(** [misc.VerifyForkHashes] *)
Definition VerifyForkHashes (config : ChainConfig) (header : Header) (uncle : bool) : option ethashError :=
  if uncle then None
  else match EIP150Block config with
       | Some b => if (b =? Number header) && negb (EIP150Hash config =? 0) && negb (EIP150Hash config =? Header_Hash header) then Some ErrForkHash else None
       | None => None
       end.

Section chain.
Context (e : Ethash) (config : ChainConfig) (GetHeader : Hash -> Z -> option Header) (GetBlock : Hash -> Z -> option Block).

(** [now] is the time of the clock in seconds. *)
Definition verifyHeader (now : Z) (header parent : Header) (uncle seal : bool) : outcome (option ethashError) :=
  if 32 <? zlen (Extra header) then mret (Some ErrExtraTooLong)
  else if uncle && (2 ^ 256 - 1 <? h_Time header) then mret (Some errLargeBlockTime)
  else if negb uncle && (now + 15 <? h_Time header) then mret (Some ErrFutureBlock)
  else if h_Time header <=? h_Time parent then mret (Some errZeroBlockTime)
  else if negb (CalcDifficulty config (Uint64 (h_Time header)) parent =? h_Difficulty header) then mret (Some ErrWrongDifficulty)
  else if 0x7fffffffffffffff <? h_GasLimit header then mret (Some ErrGasLimitCap)
  else if h_GasLimit header <? GasUsed header then mret (Some ErrGasUsed)
  else
    let diff := i64 (i64 (h_GasLimit parent) - i64 (h_GasLimit header)) in
    let diff := if diff <? 0 then i64 (diff * -1) else diff in
    let limit := h_GasLimit parent / GasLimitBoundDivisor in
    if (limit <=? u64 diff) || (h_GasLimit header <? MinGasLimit) then mret (Some ErrGasLimit)
    else if negb (Number header - Number parent =? 1) then mret (Some ErrInvalidNumber)
    else
      err ← (if seal then VerifySeal e header else mret None);
      match err with
      | Some err => mret (Some err)
      | None =>
          match VerifyDAOHeaderExtraData config header with
          | Some err => mret (Some (ErrDAO err))
          | None => mret (VerifyForkHashes config header uncle)
          end
      end.
Definition VerifyHeader (now : Z) (header : Header) (seal : bool) : outcome (option ethashError) :=
  if bool_decide (PowMode e = ModeFullFake) then mret None
  else
    let number := Uint64 (Number header) in
    match GetHeader (Header_Hash header) number with
    | Some _ => mret None
    | None =>
        match GetHeader (ParentHash header) (u64 (number - 1)) with
        | None => mret (Some ErrUnknownAncestor)
        | Some parent => verifyHeader now header parent false seal
        end
    end.

(** ** Uncles *)

(** The ancestors up to the seventh and their uncles. *)
Fixpoint gather (i : nat) (parent : Hash) (number : Z) (ancestors : gmap Hash Header) (uncles : gset Hash) : gmap Hash Header * gset Hash :=
  match i with
  | O => (ancestors, uncles)
  | S i =>
      match GetBlock parent number with
      | None => (ancestors, uncles)
      | Some ancestor =>
          gather i (ParentHash (b_header ancestor)) (u64 (number - 1)) (<[Header_Hash (b_header ancestor) := b_header ancestor]> ancestors)
            (uncles ∪ list_to_set (map Header_Hash (b_uncles ancestor)))
      end
  end.
Fixpoint verify_uncles (now : Z) (block : Block) (ancestors : gmap Hash Header) (uncles : gset Hash) (us : list Header) : outcome (option ethashError) :=
  match us with
  | [] => mret None
  | uncle :: us =>
      let hash := Header_Hash uncle in
      if bool_decide (hash ∈ uncles) then mret (Some errDuplicateUncle)
      else
        let uncles := {[hash]} ∪ uncles in
        match ancestors !! hash, ancestors !! ParentHash uncle with
        | Some _, _ => mret (Some errUncleIsAncestor)
        | None, None => mret (Some errDanglingUncle)
        | None, Some parent =>
            if ParentHash uncle =? ParentHash (b_header block) then mret (Some errDanglingUncle)
            else
              err ← verifyHeader now uncle parent true true;
              match err with
              | Some err => mret (Some err)
              | None => verify_uncles now block ancestors uncles us
              end
        end
  end.
Definition VerifyUncles (now : Z) (block : Block) : outcome (option ethashError) :=
  if bool_decide (PowMode e = ModeFullFake) then mret None
  else if 2 <? zlen (b_uncles block) then mret (Some errTooManyUncles)
  else
    let '(ancestors, uncles) := gather 7 (ParentHash (b_header block)) (u64 (Uint64 (Number (b_header block)) - 1)) ∅ ∅ in
    let hash := Header_Hash (b_header block) in
    verify_uncles now block (<[hash := b_header block]> ancestors) ({[hash]} ∪ uncles) (b_uncles block).

Definition Prepare (header : Header) : ethashError + Header :=
  match GetHeader (ParentHash header) (u64 (Uint64 (Number header) - 1)) with
  | None => inl ErrUnknownAncestor
  | Some parent => inr (with_Difficulty (CalcDifficulty config (Uint64 (h_Time header)) parent) header)
  end.

(** The extra data around the DAO fork, as [commitNewWork] sets it. *)
Definition override_extra (header : Header) : Header :=
  match DAOForkBlock config with
  | Some daoBlock =>
      if (daoBlock <=? Number header) && (Number header <? daoBlock + DAOForkExtraRange) then
        if DAOForkSupport config then with_Extra DAOForkBlockExtra header
        else if bytes_eqb (Extra header) DAOForkBlockExtra then with_Extra [] header else header
      else header
  | None => header
  end.
(** The header [commitNewWork] starts with; the engine of the miner is running,
    so that the coinbase is set. *)
Definition newWorkHeader (parent : Header) (timestamp gasFloor gasCeil : Z) (extra : bytes) (coinbase : Address) : ethashError + Header :=
  let timestamp := if timestamp <=? h_Time parent then i64 (i64 (h_Time parent) + 1) else timestamp in
  let header := mkHeader (Header_Hash parent) 0 coinbase 0 0 0 (zeros 256) 0 (Number parent + 1) (CalcGasLimit parent gasFloor gasCeil) 0 timestamp extra 0 (zeros 8) in
  match Prepare header with
  | inl err => inl err
  | inr header => inr (override_extra header)
  end.
End chain.
End engine.

(** ** Rewards *)

Section rewards.
Context {S : Type} `{StateDB S}.
Definition blockReward (config : ChainConfig) (number : Z) : Z :=
  if IsConstantinople config (Some number) then 2000000000000000000
  else if IsByzantium config (Some number) then 3000000000000000000
  else 5000000000000000000.
Fixpoint uncle_rewards (reward_block : Z) (header : Header) (uncles : list Header) (reward : Z) : M S Z :=
  match uncles with
  | [] => mret reward
  | uncle :: uncles =>
      AddBalance (h_Coinbase uncle) ((Number uncle + 8 - Number header) * reward_block / 8);;
      uncle_rewards reward_block header uncles (reward + reward_block / 32)
  end.
Definition accumulateRewards (config : ChainConfig) (header : Header) (uncles : list Header) : M S unit :=
  let reward_block := blockReward config (Number header) in
  reward ← uncle_rewards reward_block header uncles reward_block;
  AddBalance (h_Coinbase header) reward.
End rewards.
