(* ===== verification/EthashProps.v ===== *)
(** * Properties of the ethash engine

    Which headers are accepted, that the blocks the miner makes are among them,
    and what a block with uncles pays. *)

From stdpp Require Import gmap.
From S2P Require Import Prelude Schedule CommonMath Params Rlp StateIface ConcreteCrypto Transaction CoreState CoreEvm Dao CoreStateOk Concrete EthashSizes Hashimoto HashimotoProps Ethash.
Local Open Scope Z_scope.

(** ** Difficulty and gas limit *)

Lemma clamp_le a b : a <= (if b <? a then a else b).
Proof. destruct (Z.ltb_spec b a); lia. Qed.
Lemma with_bomb_ge a x p : a <= x -> a <= (if 1 <? p then x + 2 ^ (p - 2) else x).
Proof. intros Hx. destruct (1 <? p); [|done]. pose proof (Z.pow_nonneg 2 (p - 2) ltac:(lia)). lia. Qed.
Lemma BigMax_ge x y : y <= BigMax x y.
Proof. unfold BigMax. destruct (Z.ltb_spec x y); lia. Qed.
Lemma CalcDifficulty_minimum `{Crypto} config time parent : 131072 <= CalcDifficulty config time parent.
Proof.
  unfold CalcDifficulty. destruct (IsConstantinople _ _); [|destruct (IsByzantium _ _); [|destruct (IsHomestead _ _)]].
  1-3: apply with_bomb_ge, clamp_le.
  unfold calcDifficultyFrontier. destruct (1 <? _); [|apply clamp_le]. apply BigMax_ge.
Qed.

(** The limit the miner chooses stays within a 1024th of that of the parent. *)
Lemma CalcGasLimit_ok parent gasFloor gasCeil :
  5 * 1024 <= h_GasLimit parent < 2 ^ 62 -> 0 <= GasUsed parent <= h_GasLimit parent -> 5000 <= gasCeil ->
  5000 <= CalcGasLimit parent gasFloor gasCeil < 2 ^ 63 /\
  Z.abs (h_GasLimit parent - CalcGasLimit parent gasFloor gasCeil) < h_GasLimit parent / 1024.
Proof.
  intros HL HU Hc. unfold CalcGasLimit. set (L := h_GasLimit parent) in *. set (U := GasUsed parent) in *.
  pose proof (Z.div_mod L 1024 ltac:(lia)) as Hq. pose proof (Z.mod_pos_bound L 1024 ltac:(lia)) as Hqb. set (q := L / 1024) in *.
  pose proof (Z.div_mod U 2 ltac:(lia)) as Hh. pose proof (Z.mod_pos_bound U 2 ltac:(lia)) as Hhb. set (h := U / 2) in *.
  rewrite (u64_id (U + h)) by (unfold is_u64; lia). pose proof (Z.div_mod (U + h) 1024 ltac:(lia)) as Hk. pose proof (Z.mod_pos_bound (U + h) 1024 ltac:(lia)) as Hkb.
  set (k := (U + h) / 1024) in *. rewrite (u64_id (q - 1)) by (unfold is_u64; lia). rewrite (u64_id (L - (q - 1) + k)), (u64_id (L + (q - 1))), (u64_id (L - (q - 1))) by (unfold is_u64; lia).
  destruct (Z.ltb_spec (L - (q - 1) + k) 5000); repeat match goal with |- context [?a <? ?b] => destruct (Z.ltb_spec a b) end; lia.
Qed.

(** ** Which headers are accepted *)

Section headers.
Context `{Crypto} (keccak512 : bytes -> bytes) (isLittleEndian : bool) (e : Ethash) (config : ChainConfig) (now : Z).

(** The rules for a header after its parent. *)
Record valid_header (uncle seal : bool) (header parent : Header) : Prop := {
  vh_extra : zlen (Extra header) <= 32;
  vh_clock : if uncle then h_Time header < 2 ^ 256 else h_Time header <= now + 15;
  vh_later : h_Time parent < h_Time header;
  vh_difficulty : h_Difficulty header = CalcDifficulty config (Uint64 (h_Time header)) parent;
  vh_gasUsed : GasUsed header <= h_GasLimit header;
  vh_gasLimit : 5000 <= h_GasLimit header < 2 ^ 63;
  vh_gasStep : Z.abs (h_GasLimit parent - h_GasLimit header) < h_GasLimit parent / 1024;
  vh_number : Number header = Number parent + 1;
  vh_seal : seal = true -> VerifySeal keccak512 isLittleEndian e header = Ok None;
  vh_dao : VerifyDAOHeaderExtraData config header = None;
  vh_fork : VerifyForkHashes config header uncle = None;
}.

Lemma gas_step_eq a b : 0 <= a < 2 ^ 63 -> 0 <= b < 2 ^ 63 ->
  u64 (if i64 (i64 a - i64 b) <? 0 then i64 (i64 (i64 a - i64 b) * -1) else i64 (i64 a - i64 b)) = Z.abs (a - b).
Proof.
  intros Ha Hb. rewrite (i64_id a), (i64_id b) by done. assert (i64 (a - b) = a - b) as ->.
  { unfold i64. destruct (Z.le_gt_cases 0 (a - b)); [rewrite Z.mod_small by lia; destruct (Z.ltb_spec (a - b) (2 ^ 63)); lia|].
    rewrite <- (Z.mod_add _ 1), Z.mod_small by lia. destruct (Z.ltb_spec (a - b + 1 * 2 ^ 64) (2 ^ 63)); lia. }
  destruct (Z.ltb_spec (a - b) 0); [rewrite i64_id by lia|]; rewrite u64_id by (unfold is_u64; lia); lia.
Qed.

Lemma reject_iff (b : bool) err (k : outcome (option ethashError)) : (if b then mret (Some err) else k) = Ok None <-> b = false /\ k = Ok None.
Proof. destruct b; [|by split; [|intros [_ ?]]]. split; [done|by intros [? _]]. Qed.
Lemma seal_iff (seal : bool) (m : outcome (option ethashError)) k :
  (err ← (if seal then m else mret None); match err with Some err => mret (Some err) | None => k end) = Ok None <-> (seal = true -> m = Ok None) /\ k = Ok None.
Proof.
  destruct seal; cbn.
  - destruct m as [[err|]| |]; cbn; [|by split; [|intros [_ ?]]|..]; (split; [done|]; intros [Hm _]; by specialize (Hm eq_refl)).
  - split; [by split|by intros [_ ?]].
Qed.
Lemma forks_iff header uncle :
  match VerifyDAOHeaderExtraData config header with Some err => mret (Some (ErrDAO err)) | None => mret (VerifyForkHashes config header uncle) end = Ok None <->
  VerifyDAOHeaderExtraData config header = None /\ VerifyForkHashes config header uncle = None.
Proof. destruct (VerifyDAOHeaderExtraData config header); [by split; [|intros [? _]]|]. split; [intros [= ->]; done|]. by intros [_ ->]. Qed.

(** C28. A header is accepted after its parent exactly when it follows the rules:
    a later time that is at most 15 seconds ahead of the clock (for an uncle, only
    one below [2 ^ 256]), the difficulty the algorithm of its fork asks for, a gas limit that moves by less than a 1024th and stays
    above the minimum and below 2^63, gas used within it, the next number, the
    extra data and the hash the forks fix, and a valid seal where one is asked
    for. *)
Theorem verifyHeader_spec header parent uncle seal : 0 <= h_GasLimit parent < 2 ^ 63 -> 0 <= h_GasLimit header ->
  verifyHeader keccak512 isLittleEndian e config now header parent uncle seal = Ok None <-> valid_header uncle seal header parent.
Proof.
  intros Hp Hh. unfold verifyHeader. cbv zeta. rewrite !reject_iff, seal_iff, forks_iff.
  rewrite negb_false_iff, !andb_false_iff, orb_false_iff, !Z.ltb_ge, !Z.leb_gt, Z.eqb_eq. split.
  - intros (? & Ht1 & Ht2 & ? & Hd & ? & ? & (Hstep & ?) & Hn & Hs & ? & ?). rewrite gas_step_eq in Hstep by lia.
    split; try done; [|lia..]. destruct uncle; lia.
  - intros [? Hc ? Hd ? ? ? Hn Hs ? ?]. rewrite gas_step_eq by lia. repeat split; try done; try lia; destruct uncle; auto; lia.
Qed.
End headers.

(** The step the miner takes after a full block of the least gas is as large as a
    1024th of it, which the rules do not allow. *)
Lemma full_small_block_rejected `{Crypto} keccak512 le e config now header parent gasFloor gasCeil uncle seal :
  h_GasLimit parent = 5000 -> GasUsed parent = 5000 -> gasFloor <= 5004 <= gasCeil ->
  h_GasLimit header = CalcGasLimit parent gasFloor gasCeil -> verifyHeader keccak512 le e config now header parent uncle seal <> Ok None.
Proof.
  intros HL HU Hc Hh Hv. assert (CalcGasLimit parent gasFloor gasCeil = 5004) as HC.
  { unfold CalcGasLimit. rewrite HL, HU. change (u64 (5000 - u64 (5000 / 1024 - 1) + u64 (5000 + 5000 / 2) / 1024)) with 5004. cbv zeta. change (if 5004 <? 5000 then 5000 else 5004) with 5004. destruct (Z.ltb_spec 5004 gasFloor); [lia|]. destruct (Z.ltb_spec gasCeil 5004); [lia|done]. }
  apply verifyHeader_spec in Hv; [|lia..]. pose proof (vh_gasStep _ _ _ _ _ _ _ _ _ Hv) as Hs. rewrite Hh, HC, HL in Hs. done.
Qed.

(** ** The miner's blocks *)

Section miner.
Context `{Crypto} (keccak512 : bytes -> bytes) (keccak512_length : forall d, length (keccak512 d) = 64%nat).

(** A generated cache has whole rows and does not depend on the byte order. *)
Lemma cache_generate_ok test epoch : 0 <= epoch < 2 ^ 14 ->
  exists cache, cache_ok cache /\ forall le, cache_generate keccak512 le test epoch = Ok cache.
Proof.
  intros He. destruct (cacheSize_ok (epoch * 30000 + 1)) as (size & Hs & Hm & Hb); [lia|].
  assert ((epoch * 30000 + 1) / 30000 = epoch) as Hq by (symmetry; apply (Z.div_unique _ _ _ 1); lia). rewrite Hq in Hb.
  set (csize := if test then 1024 else size). assert (csize mod 64 = 0 /\ 64 <= csize < 2 ^ 32) as [Hcm Hcb] by (unfold csize; destruct test; [split; [done|lia]|lia]).
  destruct (generateCache_ok keccak512 csize (seedHash (u64 (epoch * 30000 + 1))) Hcm Hcb) as (b & Hl & Hg).
  pose proof (Z.div_mod csize 64 ltac:(lia)) as Hdm. assert (length (words b) = Z.to_nat (16 * (csize / 64))) as Hlen by (apply length_words; unfold zlen in Hl; lia).
  exists (words b). split.
  - split; unfold zlen; rewrite Hlen, Z2Nat.id by lia; [|lia]. rewrite Z.mul_comm. apply Z.mod_mul. lia.
  - intros le. unfold cache_generate. rewrite u64_id by (unfold is_u64; lia). rewrite Hs. cbn [mbind outcome_bind]. rewrite u64_id in Hg by (unfold is_u64; lia). apply Hg.
Qed.
Lemma datasetSize_epoch block : datasetSize (block / 30000 * 30000 + 1) = datasetSize block.
Proof. unfold datasetSize. by replace ((block / 30000 * 30000 + 1) / 30000) with (block / 30000) by (apply (Z.div_unique _ _ _ 1); lia). Qed.

(** The size of the dataset of a block in the mode of the engine. *)
Definition seal_size (test : bool) (number : Z) : outcome Z := size ← datasetSize number; mret (if test then 32 * 1024 else size).
Lemma seal_size_ok test number : 0 <= number < 385 * 30000 -> exists size, seal_size test number = Ok size /\ size mod 128 = 0 /\ 6400 <= size <= 2 ^ 32.
Proof.
  intros Hn. destruct (datasetSize_4GiB number Hn) as (size & Hs & Hm & Hb). exists (if test then 32 * 1024 else size). unfold seal_size. rewrite Hs.
  destruct test; [|done]. split; [done|]. split; [done|lia].
Qed.

(** A dataset that is complete gives what the cache of its block gives. *)
Lemma generated_agrees le test number threads sched dataset : 0 <= number < 385 * 30000 -> 0 < threads < 2 ^ 20 ->
  dataset_generate keccak512 le test (number / 30000) threads sched = Ok (Some dataset) ->
  exists size cache, seal_size test number = Ok size /\ (forall le, cache_generate keccak512 le test (number / 30000) = Ok cache) /\
    forall hash nonce, exists digest result, hashimotoFull keccak512 dataset hash nonce = Ok (digest, result) /\
      hashimotoLight keccak512 size cache hash nonce = Ok (digest, result) /\ bytes_ok digest /\ length digest = 32%nat.
Proof.
  intros Hn Ht Hg. assert (0 <= number / 30000 < 385) as He by (split; [apply Z.div_pos; lia|apply Z.div_lt_upper_bound; lia]).
  destruct (seal_size_ok test number Hn) as (size & Hs & Hm & Hb). destruct (cache_generate_ok test (number / 30000)) as (cache & Hc & Hcg); [lia|].
  exists size, cache. split; [done|]. split; [done|]. unfold dataset_generate in Hg. specialize (Hcg le). unfold cache_generate in Hcg.
  destruct (cacheSize _) as [csize| |]; [|done..]. cbn [mbind outcome_bind] in Hg, Hcg. rewrite u64_id in Hg by (unfold is_u64; lia). rewrite datasetSize_epoch in Hg.
  rewrite u64_id in Hcg by (unfold is_u64; lia). unfold seal_size in Hs. destruct (datasetSize number) as [dsize| |]; [|done..]. cbn [mbind outcome_bind] in Hg, Hs.
  rewrite Hcg in Hg. cbn [mbind outcome_bind] in Hg. injection Hs as Hs. rewrite Hs in Hg.
  destruct (generateDataset keccak512 le size threads cache sched) as [m|] eqn:Hgen; [|done].
  destruct (dataset_complete keccak512 le keccak512_length size threads cache Hc Hm Hb Ht sched m Hgen) as (d & p & -> & Hd & Hf). cbn in Hg. injection Hg as <-.
  apply (full_is_light keccak512 le keccak512_length size cache Hc Hm Hb d Hd Hf).
Qed.

Lemma mine_found tries dataset header nonce sealed : is_u64 nonce -> mine keccak512 tries dataset header nonce = Ok (Some sealed) ->
  exists nonce' digest result, is_u64 nonce' /\ hashimotoFull keccak512 dataset (Hash_Bytes (SealHash header)) nonce' = Ok (digest, result) /\
    be_dec result <= 2 ^ 256 / h_Difficulty header /\ sealed = with_seal (EncodeNonce nonce') (BytesToHash digest) header.
Proof.
  revert nonce. induction tries as [|tries IH]; intros nonce Hn Hm; cbn [mine] in Hm; (destruct (h_Difficulty header =? 0); [done|]); [done|].
  destruct (hashimotoFull _ _ _ _) as [[digest result]| |] eqn:Hf; [|done..]. cbn [mbind outcome_bind] in Hm.
  destruct (Z.leb_spec (be_dec result) (2 ^ 256 / h_Difficulty header)) as [Hle|]; [|apply (IH _ (u64_range _) Hm)].
  injection Hm as <-. by exists nonce, digest, result.
Qed.
Lemma Nonce_EncodeNonce n : is_u64 n -> Nonce_Uint64 (EncodeNonce n) = n.
Proof. intros Hn. unfold Nonce_Uint64, EncodeNonce. rewrite be_dec_enc. by apply Z.mod_small. Qed.

(** What is sealed on the dataset is verified on the cache, whatever the byte
    orders of the two machines. *)
Lemma mined_seal_verifies le le' mode fakeFail threads sched dataset tries nonce header sealed :
  mode <> ModeFake -> mode <> ModeFullFake -> 0 <= Number header < 385 * 30000 -> 0 < threads < 2 ^ 20 -> 0 < h_Difficulty header ->
  dataset_generate keccak512 le (bool_decide (mode = ModeTest)) (Number header / 30000) threads sched = Ok (Some dataset) -> is_u64 nonce ->
  mine keccak512 tries dataset header nonce = Ok (Some sealed) ->
  VerifySeal keccak512 le' (mkEthash mode fakeFail None) sealed = Ok None.
Proof.
  intros Hf Hff Hn Ht Hd Hg Hnon Hm. destruct (mine_found _ _ _ _ _ Hnon Hm) as (n & digest & result & Hnu & Hfull & Hle & ->).
  destruct (generated_agrees le _ _ threads sched dataset Hn Ht Hg) as (size & cache & Hs & Hc & Hagree).
  destruct (Hagree (Hash_Bytes (SealHash header)) n) as (digest' & result' & Hfull' & Hlight & Hok & Hlen). rewrite Hfull in Hfull'. injection Hfull' as <- <-.
  unfold VerifySeal. cbn [verifySeal]. rewrite bool_decide_false by (by intros [?|?]). cbn [h_Difficulty with_seal Number h_Nonce MixDigest].
  rewrite (Z.sgn_pos _ Hd), Nonce_EncodeNonce by done. rewrite Uint64_id by (unfold is_u64; lia). change (1 <=? 0) with false. cbv iota. rewrite Hc. cbn [mbind outcome_bind].
  unfold seal_size in Hs. destruct (datasetSize (Number header)) as [dsize| |]; [|done..]. injection Hs as Hs. cbn [mbind outcome_bind]. rewrite Hs.
  change (SealHash (with_seal (EncodeNonce n) (BytesToHash digest) header)) with (SealHash header). rewrite Hlight. cbn [mbind outcome_bind].
  unfold bytes_eqb. rewrite bool_decide_true by (by apply Bytes_BytesToHash). cbn [negb]. by rewrite (proj2 (Z.ltb_ge _ _) Hle).
Qed.

(** Every dataset is generated: the goroutines can always be run to their end. *)
Lemma dataset_generate_finishes le test number threads : 0 <= number < 385 * 30000 -> 0 < threads < 2 ^ 20 ->
  exists sched dataset, dataset_generate keccak512 le test (number / 30000) threads sched = Ok (Some dataset).
Proof.
  intros Hn Ht. assert (0 <= number / 30000 < 385) as He by (split; [apply Z.div_pos; lia|apply Z.div_lt_upper_bound; lia]).
  destruct (seal_size_ok test number Hn) as (size & Hs & Hm & Hb). destruct (cache_generate_ok test (number / 30000)) as (cache & Hc & Hcg); [lia|].
  destruct (dataset_finishes keccak512 le keccak512_length size threads cache Hc Hm Hb Ht) as (sched & m & Hgen).
  destruct (dataset_complete keccak512 le keccak512_length size threads cache Hc Hm Hb Ht sched m Hgen) as (d & p & -> & _).
  exists sched, (native_words le d). specialize (Hcg le). unfold cache_generate in Hcg. unfold dataset_generate. destruct (cacheSize _) as [csize| |]; [|done..].
  cbn [mbind outcome_bind] in *. rewrite u64_id in * by (unfold is_u64; lia). rewrite datasetSize_epoch. unfold seal_size in Hs. destruct (datasetSize number) as [dsize| |]; [|done..].
  injection Hs as Hs. cbn [mbind outcome_bind]. rewrite Hcg. cbn [mbind outcome_bind]. by rewrite Hs, Hgen.
Qed.

(** The block made from the miner's header: the transactions are executed and the
    roots set, and the gas they use is within the limit. *)
Record assembled (work header : Header) : Prop := {
  as_parent : ParentHash header = ParentHash work;
  as_difficulty : h_Difficulty header = h_Difficulty work;
  as_number : Number header = Number work;
  as_gasLimit : h_GasLimit header = h_GasLimit work;
  as_gasUsed : GasUsed header <= h_GasLimit work;
  as_time : h_Time header = h_Time work;
  as_extra : Extra header = Extra work;
}.
(** A parent the miner can build on. *)
Record parent_ok (parent : Header) : Prop := {
  po_number : 0 <= Number parent < 385 * 30000 - 1;
  po_gasLimit : 5 * 1024 <= h_GasLimit parent < 2 ^ 62;
  po_gasUsed : 0 <= GasUsed parent <= h_GasLimit parent;
  po_time : 0 <= h_Time parent < 2 ^ 62;
}.

(** The extra data of the miner's header is what the rules around the DAO fork ask
    for. *)
Definition dao_extra (config : ChainConfig) (number : Z) (x : bytes) : Prop :=
  match DAOForkBlock config with
  | None => True
  | Some fork => fork <= number < fork + 10 -> if DAOForkSupport config then x = DAOForkBlockExtra else x <> DAOForkBlockExtra
  end.
Lemma dao_extra_verifies config header : dao_extra config (Number header) (Extra header) -> VerifyDAOHeaderExtraData config header = None.
Proof.
  unfold dao_extra, VerifyDAOHeaderExtraData. destruct (DAOForkBlock config) as [fork|]; [|done]. intros Hx.
  destruct (Z.ltb_spec (Number header) fork); [done|]. destruct (Z.leb_spec (fork + 10) (Number header)); [done|]. specialize (Hx ltac:(lia)). cbn [orb].
  unfold bytes_eqb. destruct (DAOForkSupport config); [by rewrite bool_decide_true|by rewrite bool_decide_false].
Qed.
Lemma override_extra_ok config header : zlen (Extra header) <= 32 -> exists x, override_extra config header = with_Extra x header /\ zlen x <= 32 /\ dao_extra config (Number header) x.
Proof.
  intros Hl. assert (header = with_Extra (Extra header) header) as Heq by (by destruct header). unfold override_extra, dao_extra.
  destruct (DAOForkBlock config) as [fork|]; [|by exists (Extra header)].
  destruct (Z.leb_spec fork (Number header)), (Z.ltb_spec (Number header) (fork + 10)); cbn [andb].
  2-4: exists (Extra header); split; [done|]; split; [done|lia].
  unfold bytes_eqb. destruct (DAOForkSupport config); [by exists DAOForkBlockExtra|]. destruct (bool_decide_reflect (Extra header = DAOForkBlockExtra)); [by exists []|by exists (Extra header)].
Qed.

Section work.
Context (config : ChainConfig) (GetHeader : Hash -> Z -> option Header) (parent : Header) (timestamp gasFloor gasCeil : Z) (extra : bytes) (coinbase : Address).
Context (Hparent : parent_ok parent) (Hknown : GetHeader (Header_Hash parent) (Number parent) = Some parent).
Context (Hceil : 5000 <= gasCeil) (Hextra : zlen extra <= 32).
Abbreviation work_time := (Z.max timestamp (h_Time parent + 1)).

Lemma newWorkHeader_ok : exists work, newWorkHeader config GetHeader parent timestamp gasFloor gasCeil extra coinbase = inr work /\
  ParentHash work = Header_Hash parent /\ Number work = Number parent + 1 /\ h_GasLimit work = CalcGasLimit parent gasFloor gasCeil /\
  h_Time work = work_time /\ h_Difficulty work = CalcDifficulty config (Uint64 work_time) parent /\ zlen (Extra work) <= 32 /\
  VerifyDAOHeaderExtraData config work = None.
Proof.
  destruct Hparent as [Hn HL HU HT]. unfold newWorkHeader, Prepare. cbn [ParentHash Number h_Time]. rewrite Uint64_id by (unfold is_u64; lia).
  rewrite (u64_id (Number parent + 1 - 1)) by (unfold is_u64; lia). replace (Number parent + 1 - 1) with (Number parent) by lia. rewrite Hknown.
  replace (if timestamp <=? h_Time parent then i64 (i64 (h_Time parent) + 1) else timestamp) with work_time
    by (destruct (Z.leb_spec timestamp (h_Time parent)); [rewrite (i64_id (h_Time parent)), i64_id by lia|]; lia).
  edestruct (override_extra_ok config) as (x & Hov & Hx & Hdao); [|rewrite Hov]; [exact Hextra|]. eexists. split; [reflexivity|]. split_conj; try done. by apply dao_extra_verifies.
Qed.

(** C14. The blocks the miner makes on a parent of usual size are accepted: the
    miner gets a header to work on, and when it has the results of the
    transactions and is sealed by a search on the generated dataset, then it
    passes the verification of its header and seal by a node that has the
    parent. The parent has a number below that of epoch 385, from which on the
    dataset is larger than 4 GiB; a gas limit from 5120 up to [2 ^ 62], gas used
    within it, and a time below [2 ^ 62]. The miner's ceiling for gas is at least
    5000, its extra data at most 32 bytes long, the gas used by the transactions
    within the limit, and the mode not one of the two that fake seals. The time
    of the block is at most 15 seconds ahead of the clock of the node, and where
    the configuration fixes the hash of the block it has that hash. The dataset
    is filled by at least one and fewer than [2 ^ 20] goroutines. *)
Theorem mined_block_accepted : exists work,
  newWorkHeader config GetHeader parent timestamp gasFloor gasCeil extra coinbase = inr work /\
  forall le le' mode fakeFail threads sched dataset tries nonce header sealed now,
  assembled work header -> mode <> ModeFake -> mode <> ModeFullFake -> 0 < threads < 2 ^ 20 -> is_u64 nonce ->
  dataset_generate keccak512 le (bool_decide (mode = ModeTest)) (Number header / 30000) threads sched = Ok (Some dataset) ->
  mine keccak512 tries dataset header nonce = Ok (Some sealed) ->
  h_Time sealed <= now + 15 -> VerifyForkHashes config sealed false = None ->
  VerifyHeader keccak512 le' (mkEthash mode fakeFail None) config GetHeader now sealed true = Ok None.
Proof.
  destruct newWorkHeader_ok as (work & Hw & HP & HN & HG & HT & HD & HE & Hdao). exists work. split; [done|].
  intros le le' mode fakeFail threads sched dataset tries nonce header sealed now Has Hf Hff Ht Hnon Hg Hm Hnow Hfork.
  destruct Has as [Ap Ad An Agl Agu At Ae]. pose proof Hparent as [Pn Pgl Pgu Pt].
  destruct (CalcGasLimit_ok parent gasFloor gasCeil Pgl Pgu Hceil) as [Hgl Hstep]. pose proof (CalcDifficulty_minimum config (Uint64 work_time) parent) as Hmin.
  pose proof (mined_seal_verifies le le' mode fakeFail threads sched dataset tries nonce header sealed Hf Hff ltac:(lia) Ht ltac:(lia) Hg Hnon Hm) as Hseal.
  destruct (mine_found _ _ _ _ _ Hnon Hm) as (n & digest & result & _ & _ & _ & Hs). unfold VerifyHeader. rewrite bool_decide_false by done.
  destruct (GetHeader (Header_Hash sealed) _); [done|]. assert (ParentHash sealed = Header_Hash parent /\ Number sealed = Number parent + 1) as [-> ->] by (subst sealed; cbn; split; [congruence|lia]).
  rewrite Uint64_id by (unfold is_u64; lia). replace (u64 (Number parent + 1 - 1)) with (Number parent) by (rewrite u64_id; unfold is_u64; lia). rewrite Hknown.
  apply verifyHeader_spec; [lia|subst sealed; cbn; lia|]. subst sealed. split; cbn [Extra h_Time h_Difficulty GasUsed h_GasLimit Number with_seal]; try done; try lia.
  - by rewrite Ae.
  - by rewrite Ad, HD, At, HT.
  - unfold VerifyDAOHeaderExtraData in *. cbn [Number Extra with_seal]. by rewrite An, Ae.
Qed.
End work.
End miner.

(** ** Uncles *)

Section uncles.
Context `{Crypto} (keccak512 : bytes -> bytes) (isLittleEndian : bool) (e : Ethash) (config : ChainConfig) (GetBlock : Hash -> Z -> option Block).
(** The chain finds a block by its hash and number. *)
Context (GetBlock_ok : forall h n b, GetBlock h n = Some b -> Header_Hash (b_header b) = h /\ Number (b_header b) = n /\ 0 <= n < 2 ^ 63).

Lemma gather_beyond i parent number A U : 2 ^ 63 <= number -> gather GetBlock i parent number A U = (A, U).
Proof. intros Hn. destruct i; cbn [gather]; [done|]. destruct (GetBlock parent number) as [b|] eqn:Hb; [|done]. apply GetBlock_ok in Hb as (_ & _ & ?). lia. Qed.
(** What is gathered has the numbers before the block; the last one is its
    parent. *)
Lemma gather_ancestors i parent number A U h hd : (gather GetBlock i parent number A U).1 !! h = Some hd ->
  A !! h = Some hd \/ Header_Hash hd = h /\ number - Z.of_nat i < Number hd <= number /\ (Number hd = number -> h = parent).
Proof.
  revert parent number A U. induction i as [|i IH]; intros parent number A U Hl; cbn [gather] in Hl; [by left|].
  destruct (GetBlock parent number) as [b|] eqn:Hb; [|by left]. destruct (GetBlock_ok _ _ _ Hb) as (Hh & HN & Hr).
  assert (forall A', A' = <[Header_Hash (b_header b) := b_header b]> A -> A' !! h = Some hd ->
    A !! h = Some hd \/ Header_Hash hd = h /\ number - Z.of_nat (S i) < Number hd <= number /\ (Number hd = number -> h = parent)) as Hins.
  { intros A' -> [[<- <-]|[_ Hl']]%lookup_insert_Some; [right|by left]. split; [done|]. split; [lia|done]. }
  destruct (Z.eq_dec number 0) as [->|Hne].
  - rewrite gather_beyond in Hl by (by vm_compute). by apply (Hins _ eq_refl).
  - rewrite u64_id in Hl by (unfold is_u64; lia). apply IH in Hl as [Hl|(Hh' & Hb' & _)]; [by apply (Hins _ eq_refl)|right]. split; [done|]. split; [lia|]. lia.
Qed.

(** An uncle that is accepted, with the ancestor it comes from. *)
Definition good_uncle (now : Z) (block : Block) (ancestors : gmap Hash Header) (u : Header) : Prop :=
  ancestors !! Header_Hash u = None /\ ParentHash u <> ParentHash (b_header block) /\
  exists p, ancestors !! ParentHash u = Some p /\ verifyHeader keccak512 isLittleEndian e config now u p true true = Ok None.
Lemma verify_uncles_sound now block ancestors us U : verify_uncles keccak512 isLittleEndian e config now block ancestors U us = Ok None ->
  NoDup (map Header_Hash us) /\ (forall u, u ∈ us -> Header_Hash u ∉ U) /\ Forall (good_uncle now block ancestors) us.
Proof.
  revert U. induction us as [|u us IH]; intros U Hv; cbn [verify_uncles] in Hv; [split; [constructor|]; split; [by intros u ?%not_elem_of_nil|constructor]|].
  destruct (bool_decide_reflect (Header_Hash u ∈ U)) as [|Hni]; [done|]. destruct (ancestors !! Header_Hash u) eqn:Ha; [done|].
  destruct (ancestors !! ParentHash u) as [p|] eqn:Hp; [|done]. destruct (Z.eqb_spec (ParentHash u) (ParentHash (b_header block))) as [|Hne]; [done|].
  destruct (verifyHeader _ _ _ _ _ _ _ _ _) as [[err|]| |] eqn:Hvh; [done| |done..]. cbn [mbind outcome_bind] in Hv. destruct (IH _ Hv) as (Hnd & Hnew & Hall).
  split; [|split].
  - cbn [map]. constructor; [|done]. intros Hin. apply list_elem_of_fmap in Hin as (u' & Heq & Hin). apply (Hnew u' Hin). rewrite <- Heq. set_solver.
  - intros u' [->|Hin]%elem_of_cons; [done|]. specialize (Hnew u' Hin). set_solver.
  - constructor; [|done]. split; [done|]. split; [done|]. by exists p.
Qed.

Lemma verifyHeader_number now header parent uncle seal :
  verifyHeader keccak512 isLittleEndian e config now header parent uncle seal = Ok None -> Number header = Number parent + 1.
Proof. unfold verifyHeader. cbv zeta. rewrite !reject_iff. intros (_ & _ & _ & _ & _ & _ & _ & _ & Hn%negb_false_iff%Z.eqb_eq & _). lia. Qed.

(** Uncles are accepted: none of them names the block itself as its parent, which
    would be a cycle of hashes. *)
Record uncles_ok (now : Z) (block : Block) : Prop := {
  uo_number : 0 < Number (b_header block) < 2 ^ 63;
  uo_mode : PowMode e <> ModeFullFake;
  uo_acyclic u : u ∈ b_uncles block -> ParentHash u <> Header_Hash (b_header block);
  uo_verified : VerifyUncles keccak512 isLittleEndian e config GetBlock now block = Ok None;
}.
Lemma uncles_ok_facts now block : uncles_ok now block ->
  (length (b_uncles block) <= 2)%nat /\ NoDup (map Header_Hash (b_uncles block)) /\
  forall u, u ∈ b_uncles block -> Number (b_header block) - 6 <= Number u <= Number (b_header block) - 1.
Proof.
  intros [Hn Hmode Hac Hv]. unfold VerifyUncles in Hv. rewrite bool_decide_false in Hv by done. destruct (Z.ltb_spec 2 (zlen (b_uncles block))) as [|Hlen]; [done|].
  destruct (gather _ _ _ _ _ _) as [A U] eqn:Hg. apply verify_uncles_sound in Hv as (Hnd & _ & Hall). split; [unfold zlen in Hlen; lia|]. split; [done|].
  intros u Hu. rewrite Forall_forall in Hall. destruct (Hall u Hu) as (_ & Hne & p & Hp & Hvh). rewrite (verifyHeader_number _ _ _ _ _ Hvh).
  rewrite lookup_insert_ne in Hp by (intros Heq; by apply (Hac u Hu)). rewrite Uint64_id, u64_id in Hg by (unfold is_u64; rewrite ?Uint64_id; unfold is_u64; lia).
  destruct (gather_ancestors 7 (ParentHash (b_header block)) (Number (b_header block) - 1) ∅ ∅ (ParentHash u) p) as [Hem|(_ & Hb & Hlast)]; [by rewrite Hg|by rewrite lookup_empty in Hem|].
  destruct (Z.eq_dec (Number p) (Number (b_header block) - 1)) as [Heq|]; [by destruct (Hne (Hlast Heq))|]. lia.
Qed.
End uncles.

(** ** Rewards *)

Section rewards.
Context {S : Type} `{StateDB S} `{Crypto} {SL : StateDBLaws S}.

(** What a block pays, in the order of the payments. *)
Definition uncle_reward (config : ChainConfig) (header uncle : Header) : Z := (Number uncle + 8 - Number header) * blockReward config (Number header) / 8.
Definition payments (config : ChainConfig) (header : Header) (uncles : list Header) : list (Address * Z) :=
  map (fun u => (h_Coinbase u, uncle_reward config header u)) uncles ++
  [(h_Coinbase header, blockReward config (Number header) + zlen uncles * (blockReward config (Number header) / 32))].
Definition pay (w : World) (p : Address * Z) : World := w_add_balance p.1 p.2 w.
Lemma uncle_rewards_ok config header uncles reward s : inv s ->
  wp never False (uncle_rewards (blockReward config (Number header)) header uncles reward) (fun r s' =>
    r = reward + zlen uncles * (blockReward config (Number header) / 32) /\ inv s' /\
    view s' = fold_left pay (map (fun u => (h_Coinbase u, uncle_reward config header u)) uncles) (view s)) s.
Proof.
  revert reward s. induction uncles as [|u uncles IH]; intros reward s Hs; cbn [uncle_rewards]; [apply wp_ret; split; [change (zlen []) with 0; lia|done]|].
  apply wp_bind. eapply wp_mono; [apply (law_AddBalance s (h_Coinbase u) _ Hs)|]. intros [] s1 (Hs1 & Hv & _).
  eapply wp_mono; [apply (IH _ s1 Hs1)|]. intros r s2 (-> & Hs2 & ->). rewrite zlen_cons. split; [lia|]. split; [done|]. cbn [map fold_left]. unfold pay at 3. cbn. by rewrite Hv.
Qed.
Lemma accumulateRewards_pays config header uncles s : inv s ->
  wp never False (accumulateRewards config header uncles) (fun _ s' => inv s' /\ view s' = fold_left pay (payments config header uncles) (view s)) s.
Proof.
  intros Hs. unfold accumulateRewards. apply wp_bind. eapply wp_mono; [apply (uncle_rewards_ok config header uncles _ s Hs)|]. intros r s1 (-> & Hs1 & Hv).
  eapply wp_mono; [apply (law_AddBalance s1 _ _ Hs1)|]. intros [] s2 (Hs2 & -> & _). split; [done|]. unfold payments. rewrite fold_left_app. cbn. by rewrite Hv.
Qed.
Lemma total_pay w p l : NoDup l -> 0 <= p.2 -> total (pay w p) l <= total w l + p.2.
Proof.
  intros Hl Hp. unfold pay, w_add_balance, w_upd. rewrite total_set by done. destruct (decide (p.1 ∈ l)); [|lia]. unfold set_balance. cbn. unfold w_balance. lia.
Qed.
Lemma total_payments ps w l : NoDup l -> Forall (fun p => 0 <= p.2) ps -> total (fold_left pay ps w) l <= total w l + zsum snd ps.
Proof.
  intros Hl Hps. revert w. induction Hps as [|p ps Hp _ IH]; intros w; cbn [fold_left zsum]; [lia|]. specialize (IH (pay w p)). pose proof (total_pay w p l Hl Hp). lia.
Qed.

Lemma blockReward_whole config number : exists k, blockReward config number = 32 * k /\ 0 < k.
Proof. unfold blockReward. destruct (IsConstantinople _ _); [|destruct (IsByzantium _ _)]; eexists; (split; [|by apply Pos2Z.is_pos]); reflexivity. Qed.
(** An uncle of the last six generations gets from two to seven eighths. *)
Lemma uncle_reward_bounds config header u : Number header - 6 <= Number u <= Number header - 1 ->
  2 * (blockReward config (Number header) / 8) <= uncle_reward config header u <= 7 * (blockReward config (Number header) / 8).
Proof.
  intros Hu. unfold uncle_reward. destruct (blockReward_whole config (Number header)) as (k & -> & Hk).
  replace (32 * k) with (4 * k * 8) by lia. rewrite Z.mul_assoc, !Z.div_mul by lia. nia.
Qed.
Lemma payments_total config header uncles : (length uncles <= 2)%nat ->
  (forall u, u ∈ uncles -> Number header - 6 <= Number u <= Number header - 1) ->
  Forall (fun p => 0 <= p.2) (payments config header uncles) /\
  16 * zsum snd (payments config header uncles) <= 45 * blockReward config (Number header).
Proof.
  intros Hlen Hu. destruct (blockReward_whole config (Number header)) as (k & HR & Hk).
  assert (forall us, (forall u, u ∈ us -> Number header - 6 <= Number u <= Number header - 1) ->
    Forall (fun p : Address * Z => 0 <= p.2) (map (fun u => (h_Coinbase u, uncle_reward config header u)) us) /\
    zsum snd (map (fun u => (h_Coinbase u, uncle_reward config header u)) us) <= Z.of_nat (length us) * (28 * k)) as Hus.
  { induction us as [|u us IH]; intros Hall; [by split; [constructor|]|]. destruct IH as [Hf Hs]; [intros v Hv; apply Hall; by right|].
    pose proof (uncle_reward_bounds config header u (Hall u ltac:(left))) as Hb. rewrite HR in Hb. replace (32 * k) with (4 * k * 8) in Hb by lia. rewrite Z.div_mul in Hb by lia.
    cbn [map zsum length]. split; [constructor; [cbn; lia|done]|]. cbn [snd]. lia. }
  destruct (Hus uncles Hu) as [Hf Hs]. unfold payments. rewrite HR. replace (32 * k / 32) with k by (rewrite Z.mul_comm, Z.div_mul; lia). split.
  - apply Forall_app. split; [done|]. constructor; [|constructor]. cbn. unfold zlen. lia.
  - rewrite zsum_app. cbn [zsum snd]. unfold zlen. assert (Z.of_nat (length uncles) * k <= 2 * k) by nia. lia.
Qed.

(** C27. A block whose uncles are verified pays each uncle between two and seven
    eighths of the block reward, exactly once, and its miner the reward and a 32nd
    for every uncle: the funds of the accounts grow by exactly these payments,
    which are together less than three block rewards. *)
Theorem block_issuance keccak512 isLittleEndian e config GetBlock now block s :
  (forall h n b, GetBlock h n = Some b -> Header_Hash (b_header b) = h /\ Number (b_header b) = n /\ 0 <= n < 2 ^ 63) ->
  uncles_ok keccak512 isLittleEndian e config GetBlock now block -> inv s ->
  (length (b_uncles block) <= 2)%nat /\ NoDup (map Header_Hash (b_uncles block)) /\
  (forall u, u ∈ b_uncles block -> let R := blockReward config (Number (b_header block)) in
    2 * (R / 8) <= uncle_reward config (b_header block) u <= 7 * (R / 8)) /\
  exists s', accumulateRewards config (b_header block) (b_uncles block) s = Ok (tt, s') /\ inv s' /\
    view s' = fold_left pay (payments config (b_header block) (b_uncles block)) (view s) /\
    forall l, NoDup l -> 16 * (total (view s') l - total (view s) l) <= 45 * blockReward config (Number (b_header block)).
Proof.
  intros HG Hu Hs. destruct (uncles_ok_facts _ _ _ _ _ HG now block Hu) as (Hlen & Hnd & Hnum). split; [done|]. split; [done|].
  split; [intros u Hin; by apply uncle_reward_bounds, Hnum|]. pose proof (accumulateRewards_pays config (b_header block) (b_uncles block) s Hs) as Hw. unfold wp in Hw.
  destruct (accumulateRewards _ _ _ s) as [[[] s']| |]; [|done..]. destruct Hw as [Hs' Hv]. exists s'. split; [done|]. split; [done|]. split; [done|].
  intros l Hl. destruct (payments_total config (b_header block) (b_uncles block) Hlen Hnum) as [Hpos Hsum]. pose proof (total_payments _ (view s) l Hl Hpos) as Ht. rewrite Hv. lia.
Qed.
End rewards.

(** ** Instances *)

(** A hash function without information, so that every nonce is good enough. *)
Definition zero_Crypto : Crypto := {|
  keccak := fun _ => zeros 32; sha256_Sum256 := fun _ => zeros 32; ripemd160_Sum := fun _ => zeros 20; secp256k1_Ecrecover := fun _ _ => None;
  bn_G1 := unit; bn_G2 := unit; G1_Unmarshal := fun _ => Some tt; G2_Unmarshal := fun _ => Some tt; G1_Add := fun _ _ => tt; G1_ScalarMult := fun _ _ => tt;
  G1_Marshal := fun _ => zeros 64; PairingCheck := fun _ _ => true |}.
(** A header of number [n] at ten seconds for each block. *)
Definition plain_header (parent uncles : Hash) (n : Z) (nonce : Z) : Header :=
  mkHeader parent uncles (7 + nonce) 0 0 0 (zeros 256) 131072 n 8000000 0 (1000 + 10 * n) [] 0 (be_enc 8 nonce).
Definition zero_parent : Header := plain_header 0 0 9 0.
Definition zero_chain (h : Hash) (n : Z) : option Header := if n =? 9 then Some zero_parent else None.
Lemma zero_parent_ok : parent_ok zero_parent.
Proof. split; cbn; lia. Qed.
Definition zero_work : Header := Eval vm_compute in
  match newWorkHeader (H := zero_Crypto) (homestead_at 0) zero_chain zero_parent 2000 0 8000000 [] 7 with inr h => h | inl _ => zero_parent end.
Lemma zero_mine dataset : (exists digest result, hashimotoFull (H := zero_Crypto) toy512 dataset (Hash_Bytes (SealHash (H := zero_Crypto) zero_work)) 5 = Ok (digest, result)) ->
  exists sealed, mine (H := zero_Crypto) toy512 1 dataset zero_work 5 = Ok (Some sealed) /\ h_Time sealed = 2000.
Proof.
  intros (digest & result & Hf). cbn [mine]. change (h_Difficulty zero_work =? 0) with false. cbv iota. rewrite Hf. cbn [mbind outcome_bind].
  apply (hashimoto_result (H := zero_Crypto)) in Hf as [d ->]. change (be_dec (keccak (Crypto := zero_Crypto) d)) with 0. eexists. split; reflexivity.
Qed.
Lemma mined_block_accepted_witness : exists sched dataset sealed,
  dataset_generate (H := zero_Crypto) toy512 true true 0 3 sched = Ok (Some dataset) /\ mine (H := zero_Crypto) toy512 1 dataset zero_work 5 = Ok (Some sealed) /\
  VerifyHeader (H := zero_Crypto) toy512 false (mkEthash ModeTest 0 None) (homestead_at 0) zero_chain 2000 sealed true = Ok None.
Proof.
  destruct (dataset_generate_finishes (H := zero_Crypto) toy512 toy512_length true true 10 3) as (sched & dataset & Hg); [lia..|].
  destruct (generated_agrees (H := zero_Crypto) toy512 toy512_length true true 10 3 sched dataset) as (size & cache & _ & _ & Hagree); [lia|lia|exact Hg|].
  destruct (Hagree (Hash_Bytes (SealHash (H := zero_Crypto) zero_work)) 5) as (digest & result & Hf & _).
  destruct (zero_mine dataset) as (sealed & Hm & Ht); [exists digest, result; exact Hf|]. exists sched, dataset, sealed. split; [exact Hg|]. split; [exact Hm|].
  destruct (mined_block_accepted (H := zero_Crypto) toy512 toy512_length (homestead_at 0) zero_chain zero_parent 2000 0 8000000 [] 7 zero_parent_ok eq_refl) as (work & Hw & Hacc); [lia|unfold zlen; cbn; lia|].
  assert (work = zero_work) as -> by (vm_compute in Hw; injection Hw as <-; reflexivity).
  refine (Hacc true false ModeTest 0 3 sched dataset 1%nat 5 zero_work sealed 2000 _ _ _ _ _ Hg Hm _ eq_refl).
  - split; try reflexivity. vm_compute. discriminate.
  - discriminate.
  - discriminate.
  - lia.
  - split; lia.
  - rewrite Ht. lia.
Defined.

(** A block with an uncle: the uncle and the parent of the block have the same
    parent. The engine accepts every seal. *)
Definition fake_engine : Ethash := mkEthash ModeFake 0 None.
Definition header_8 : Header := plain_header 0 0 8 1.
Definition header_9 : Header := Eval vm_compute in with_Difficulty (CalcDifficulty (homestead_at 0) 1090 header_8) (plain_header (Header_Hash header_8) 0 9 2).
Definition uncle_9 : Header := Eval vm_compute in with_Difficulty (CalcDifficulty (homestead_at 0) 1090 header_8) (plain_header (Header_Hash header_8) 0 9 3).
Definition block_10 : Block := Eval vm_compute in mkBlock (plain_header (Header_Hash header_9) 0 10 4) [uncle_9].
Definition hash_8 : Hash := Eval vm_compute in Header_Hash header_8.
Definition hash_9 : Hash := Eval vm_compute in Header_Hash header_9.
Definition demo_chain (h : Hash) (n : Z) : option Block :=
  if (h =? hash_8) && (n =? 8) then Some (mkBlock header_8 []) else if (h =? hash_9) && (n =? 9) then Some (mkBlock header_9 []) else None.
Lemma demo_chain_ok h n b : demo_chain h n = Some b -> Header_Hash (b_header b) = h /\ Number (b_header b) = n /\ 0 <= n < 2 ^ 63.
Proof.
  unfold demo_chain. destruct ((h =? hash_8) && (n =? 8)) eqn:H8; [|destruct ((h =? hash_9) && (n =? 9)) eqn:H9; [|discriminate]].
  - apply andb_true_iff in H8 as [->%Z.eqb_eq ->%Z.eqb_eq]. intros [= <-]. split; [vm_compute; reflexivity|]. split; [reflexivity|lia].
  - apply andb_true_iff in H9 as [->%Z.eqb_eq ->%Z.eqb_eq]. intros [= <-]. split; [vm_compute; reflexivity|]. split; [reflexivity|lia].
Qed.
Lemma verifyHeader_spec_witness : valid_header toy512 true fake_engine (homestead_at 0) 2000 true true uncle_9 header_8.
Proof. apply (verifyHeader_spec toy512 true fake_engine (homestead_at 0) 2000 uncle_9 header_8 true true); [cbn; lia|cbn; lia|vm_compute; reflexivity]. Defined.
Lemma block_10_ok : uncles_ok toy512 true fake_engine (homestead_at 0) demo_chain 2000 block_10.
Proof.
  split; [cbn; lia|discriminate| |vm_compute; reflexivity]. intros u ->%list_elem_of_singleton. vm_compute. discriminate.
Qed.
Lemma block_issuance_witness : exists s', accumulateRewards (homestead_at 0) (b_header block_10) (b_uncles block_10) demo_db = Ok (tt, s') /\
  view s' = fold_left pay [(10, 35 * 10 ^ 17 + 875 * 10 ^ 15); (11, 5 * 10 ^ 18 + 15625 * 10 ^ 13)] (view demo_db).
Proof.
  destruct (block_issuance (SL := stateDB_Laws) toy512 true fake_engine (homestead_at 0) demo_chain 2000 block_10 demo_db demo_chain_ok block_10_ok (proj1 demo_db_ok)) as (_ & _ & _ & s' & Hs & _ & Hv & _).
  exists s'. split; [exact Hs|exact Hv].
Defined.
