(* ===== verification/Clique.v ===== *)
(** * The clique engine

    Models the voting of [consensus/clique/snapshot.go] and the verification of
    seals of [consensus/clique/clique.go]. A snapshot is a value: the code copies
    it before it applies headers. The cache of signatures is left out: it holds
    what is recovered from them. *)

From stdpp Require Import gmap sorting.
From S2P Require Import Prelude CommonMath Rlp StateIface Transaction CoreState CoreEvm Ethash.
Local Open Scope Z_scope.

Inductive cliqueError : Type :=
| errUnknownBlock | errInvalidVote | errMissingSignature | errWrongDifficulty
| errInvalidVotingChain | errUnauthorizedSigner | errRecentlySigned | errUnknownAncestor | ErrRecover.

Record CliqueConfig : Type := mkCliqueConfig { Period : Z; Epoch : Z }.
Record Vote : Type := mkVote { v_Signer : Address; v_Block : Z; v_Address : Address; v_Authorize : bool }.
Record Tally : Type := mkTally { t_Authorize : bool; t_Votes : Z }.
Record Snapshot : Type := mkSnapshot {
  s_Number : Z; s_Hash : Hash; Signers : gset Address; Recents : gmap Z Address; Votes : list Vote; Tallies : gmap Address Tally }.

Definition with_Signers (x : gset Address) (s : Snapshot) : Snapshot := mkSnapshot (s_Number s) (s_Hash s) x (Recents s) (Votes s) (Tallies s).
Definition with_Recents (x : gmap Z Address) (s : Snapshot) : Snapshot := mkSnapshot (s_Number s) (s_Hash s) (Signers s) x (Votes s) (Tallies s).
Definition with_Votes (x : list Vote) (s : Snapshot) : Snapshot := mkSnapshot (s_Number s) (s_Hash s) (Signers s) (Recents s) x (Tallies s).
Definition with_Tallies (x : gmap Address Tally) (s : Snapshot) : Snapshot := mkSnapshot (s_Number s) (s_Hash s) (Signers s) (Recents s) (Votes s) x.

(** [New] fills in the length of an epoch. *)
Definition New_config (config : CliqueConfig) : CliqueConfig :=
  if Epoch config =? 0 then mkCliqueConfig (Period config) 30000 else config.
Definition newSnapshot (number : Z) (hash : Hash) (signers : list Address) : Snapshot :=
  mkSnapshot number hash (list_to_set signers) ∅ [] ∅.

(** ** Votes *)

Definition validVote (s : Snapshot) (address : Address) (authorize : bool) : bool :=
  let signer := bool_decide (address ∈ Signers s) in (signer && negb authorize) || (negb signer && authorize).
Definition cast (address : Address) (authorize : bool) (s : Snapshot) : bool * Snapshot :=
  if negb (validVote s address authorize) then (false, s)
  else match Tallies s !! address with
       | Some old => (true, with_Tallies (<[address := mkTally (t_Authorize old) (t_Votes old + 1)]> (Tallies s)) s)
       | None => (true, with_Tallies (<[address := mkTally authorize 1]> (Tallies s)) s)
       end.
Definition uncast (address : Address) (authorize : bool) (s : Snapshot) : bool * Snapshot :=
  match Tallies s !! address with
  | None => (false, s)
  | Some tally =>
      if negb (eqb (t_Authorize tally) authorize) then (false, s)
      else if 1 <? t_Votes tally then (true, with_Tallies (<[address := mkTally (t_Authorize tally) (t_Votes tally - 1)]> (Tallies s)) s)
      else (true, with_Tallies (base.delete address (Tallies s)) s)
  end.

(** The number of blocks among which a signer signs one. *)
Definition sign_limit (s : Snapshot) : Z := Z.of_nat (size (Signers s)) / 2 + 1.
Definition shift_recents (number : Z) (s : Snapshot) : Snapshot :=
  if sign_limit s <=? number then with_Recents (base.delete (number - sign_limit s) (Recents s)) s else s.
(** The vote a signer has for an address goes. *)
Definition discard_vote (signer address : Address) (s : Snapshot) : Snapshot :=
  match list_find (fun v => v_Signer v = signer /\ v_Address v = address) (Votes s) with
  | None => s
  | Some (i, vote) =>
      let s := (uncast (v_Address vote) (v_Authorize vote) s).2 in
      with_Votes (take i (Votes s) ++ drop (S i) (Votes s)) s
  end.
(** The votes of a signer that is no longer one. *)
Fixpoint discard_votes_of (signer : Address) (votes : list Vote) (s : Snapshot) : list Vote * Snapshot :=
  match votes with
  | [] => ([], s)
  | vote :: votes =>
      if v_Signer vote =? signer then discard_votes_of signer votes (uncast (v_Address vote) (v_Authorize vote) s).2
      else let '(votes, s) := discard_votes_of signer votes s in (vote :: votes, s)
  end.
(** A vote that has passed changes the signers. *)
Definition pass_vote (number : Z) (address : Address) (s : Snapshot) : Snapshot :=
  let tally := default (mkTally false 0) (Tallies s !! address) in
  if Z.of_nat (size (Signers s)) / 2 <? t_Votes tally then
    let s :=
      if t_Authorize tally then with_Signers ({[address]} ∪ Signers s) s
      else
        let s := with_Signers (Signers s ∖ {[address]}) s in
        let s := shift_recents number s in
        let '(votes, s) := discard_votes_of address (Votes s) s in
        with_Votes votes s in
    let s := with_Votes (filter (fun v => v_Address v <> address) (Votes s)) s in
    with_Tallies (base.delete address (Tallies s)) s
  else s.

(** ** Headers *)

Abbreviation nonceAuthVote := [255; 255; 255; 255; 255; 255; 255; 255] (only parsing).
Abbreviation nonceDropVote := [0; 0; 0; 0; 0; 0; 0; 0] (only parsing).
Abbreviation extraSeal := 65 (only parsing).

Section clique.
Context `{Crypto} (config : CliqueConfig).

(** [SealHash] of the package: the signature at the end of the extra data is cut
    off. *)
Definition clique_SealHash (h : Header) : Hash :=
  rlpHash (IList (sealed_items (with_Extra (take (length (Extra h) - 65) (Extra h)) h) ++ [IBytes (Hash_Bytes (MixDigest h)); IBytes (h_Nonce h)])).
Definition ecrecover (h : Header) : cliqueError + Address :=
  if zlen (Extra h) <? extraSeal then inl errMissingSignature
  else
    let signature := drop (length (Extra h) - 65) (Extra h) in
    match secp256k1_Ecrecover (Hash_Bytes (clique_SealHash h)) signature with
    | None => inl ErrRecover
    | Some pubkey => inr (be_dec (drop 12 (Keccak256 [drop 1 pubkey])))
    end.
Definition vote_of (nonce : bytes) : option bool :=
  if bytes_eqb nonce nonceAuthVote then Some true else if bytes_eqb nonce nonceDropVote then Some false else None.

Definition apply_header (s : Snapshot) (header : Header) : cliqueError + Snapshot :=
  let number := Uint64 (Number header) in
  let s := if number mod Epoch config =? 0 then with_Tallies ∅ (with_Votes [] s) else s in
  let s := shift_recents number s in
  match ecrecover header with
  | inl err => inl err
  | inr signer =>
      if negb (bool_decide (signer ∈ Signers s)) then inl errUnauthorizedSigner
      else if bool_decide (map_Exists (fun _ recent => recent = signer) (Recents s)) then inl errRecentlySigned
      else
        let s := with_Recents (<[number := signer]> (Recents s)) s in
        let s := discard_vote signer (h_Coinbase header) s in
        match vote_of (h_Nonce header) with
        | None => inl errInvalidVote
        | Some authorize =>
            let '(counted, s) := cast (h_Coinbase header) authorize s in
            let s := if counted then with_Votes (Votes s ++ [mkVote signer number (h_Coinbase header) authorize]) s else s in
            inr (pass_vote number (h_Coinbase header) s)
        end
  end.
Fixpoint apply_headers (s : Snapshot) (headers : list Header) : cliqueError + Snapshot :=
  match headers with
  | [] => inr s
  | header :: headers => match apply_header s header with inl err => inl err | inr s => apply_headers s headers end
  end.
Fixpoint contiguous (number : Z) (headers : list Header) : bool :=
  match headers with [] => true | h :: headers => (Uint64 (Number h) =? u64 (number + 1)) && contiguous (Uint64 (Number h)) headers end.
Definition apply (s : Snapshot) (headers : list Header) : cliqueError + Snapshot :=
  match last headers with
  | None => inr s
  | Some l =>
      if negb (contiguous (s_Number s) headers) then inl errInvalidVotingChain
      else match apply_headers s headers with
           | inl err => inl err
           | inr s => inr (mkSnapshot (u64 (s_Number s + zlen headers)) (Header_Hash l) (Signers s) (Recents s) (Votes s) (Tallies s))
           end
  end.

(** ** Finding a snapshot *)

(** The signers in the extra data of a checkpoint. *)
Definition checkpoint_signers (checkpoint : Header) : outcome (list Address) :=
  let n := Z.quot (zlen (Extra checkpoint) - 32 - extraSeal) 20 in
  if n <? 0 then Panic (Msg "makeslice: len out of range")
  else mret (map (fun i => be_dec (take 20 (drop (32 + i * 20) (Extra checkpoint)))) (seq 0 (Z.to_nat n))).

Section snapshot.
(** [known] is the snapshot of a block in memory or on disk. *)
Context (known : Z -> Hash -> option Snapshot) (GetHeader : Hash -> Z -> option Header) (GetHeaderByNumber : Z -> option Header).

Definition base_snapshot (number : Z) (hash : Hash) : outcome (option Snapshot) :=
  match known number hash with
  | Some s => mret (Some s)
  | None =>
      if (number =? 0) || ((number mod Epoch config =? 0) && bool_decide (GetHeaderByNumber (u64 (number - 1)) = None)) then
        match GetHeaderByNumber number with
        | Some checkpoint => sgs ← checkpoint_signers checkpoint; mret (Some (newSnapshot number (Header_Hash checkpoint) sgs))
        | None => mret None
        end
      else mret None
  end.
(** The headers since a snapshot that is known; those in [parents], the last one
    first, need not be in the chain yet. *)
Fixpoint gather_headers (fuel : nat) (number : Z) (hash : Hash) (parents headers : list Header) : outcome (cliqueError + (Snapshot * list Header)) :=
  match fuel with
  | O => OutOfFuel
  | S fuel =>
      base ← base_snapshot number hash;
      match base with
      | Some s => mret (inr (s, headers))
      | None =>
          match parents with
          | header :: parents =>
              if negb (Header_Hash header =? hash) || negb (Uint64 (Number header) =? number) then mret (inl errUnknownAncestor)
              else gather_headers fuel (u64 (number - 1)) (ParentHash header) parents (header :: headers)
          | [] =>
              match GetHeader hash number with
              | None => mret (inl errUnknownAncestor)
              | Some header => gather_headers fuel (u64 (number - 1)) (ParentHash header) [] (header :: headers)
              end
          end
      end
  end.
Definition snapshot (fuel : nat) (number : Z) (hash : Hash) (parents : list Header) : outcome (cliqueError + Snapshot) :=
  r ← gather_headers fuel number hash parents [];
  match r with
  | inl err => mret (inl err)
  | inr (s, headers) => mret (apply s headers)
  end.
End snapshot.

(** ** Turns and seals *)

Definition signers (s : Snapshot) : list Address := merge_sort Z.le (elements (Signers s)).
Fixpoint offset_of (signer : Address) (l : list Address) : Z :=
  match l with [] => 0 | a :: l => if a =? signer then 0 else 1 + offset_of signer l end.
Definition inturn (s : Snapshot) (number : Z) (signer : Address) : outcome bool :=
  let signers := signers s in
  let offset := offset_of signer signers in
  if zlen signers =? 0 then Panic (Msg "integer divide by zero") else mret (number mod zlen signers =? offset).
Definition clique_CalcDifficulty (s : Snapshot) (signer : Address) : outcome Z :=
  turn ← inturn s (u64 (s_Number s + 1)) signer; mret (if turn : bool then 2 else 1).

(** [verifySeal] with the snapshot of the parent; the comparison with
    [number - limit] wraps around. *)
Definition clique_verifySeal (fakeDiff : bool) (s : Snapshot) (header : Header) : outcome (option cliqueError) :=
  let number := Uint64 (Number header) in
  if number =? 0 then mret (Some errUnknownBlock)
  else
    match ecrecover header with
    | inl err => mret (Some err)
    | inr signer =>
        if negb (bool_decide (signer ∈ Signers s)) then mret (Some errUnauthorizedSigner)
        else if bool_decide (map_Exists (fun seen recent => recent = signer /\ u64 (number - sign_limit s) < seen) (Recents s)) then mret (Some errRecentlySigned)
        else if fakeDiff then mret None
        else
          turn ← inturn s number signer;
          mret (if h_Difficulty header =? (if turn : bool then 2 else 1) then None else Some errWrongDifficulty)
    end.
End clique.
