(* ===== verification/CliqueProps.v ===== *)
(** * Properties of the clique engine

    The tallies count the votes, the signers change by majority only, no signer
    signs again too soon, a seal that is verified can be applied, and the cached
    snapshots are of no consequence. *)

From stdpp Require Import gmap.
From S2P Require Import Prelude CommonMath StateIface CoreState CoreEvm Ethash Clique.
Local Open Scope Z_scope.

(** ** The votes of an account *)

Definition votes_on (a : Address) (vs : list Vote) : Z := Z.of_nat (length (filter (fun v => v_Address v = a) vs)).
(** What a tally has to say: nothing when there are no votes. *)
Definition tally_of (n : Z) (authorize : bool) : option Tally := if n =? 0 then None else Some (mkTally authorize n).
Definition proposes (s : Snapshot) (a : Address) : bool := negb (bool_decide (a ∈ Signers s)).
Record votes_ok (s : Snapshot) : Prop := {
  vo_signers v : v ∈ Votes s -> v_Signer v ∈ Signers s;
  vo_proposal v : v ∈ Votes s -> v_Authorize v = proposes s (v_Address v);
  vo_once : NoDup (map (fun v => (v_Signer v, v_Address v)) (Votes s));
  vo_tally a : Tallies s !! a = tally_of (votes_on a (Votes s)) (proposes s a);
}.

Lemma votes_on_app a vs ws : votes_on a (vs ++ ws) = votes_on a vs + votes_on a ws.
Proof. unfold votes_on. rewrite filter_app, length_app. lia. Qed.
Lemma votes_on_cons a v vs : votes_on a (v :: vs) = (if decide (v_Address v = a) then 1 else 0) + votes_on a vs.
Proof. unfold votes_on. rewrite filter_cons. destruct (decide (v_Address v = a)); cbn [length]; lia. Qed.
Lemma votes_on_nonneg a vs : 0 <= votes_on a vs.
Proof. unfold votes_on. lia. Qed.

(** Taking a vote back. *)
Lemma uncast_other s a b auth : Signers (uncast a auth s).2 = Signers s /\ Votes (uncast a auth s).2 = Votes s /\ Recents (uncast a auth s).2 = Recents s /\
  s_Number (uncast a auth s).2 = s_Number s /\ (b <> a -> Tallies (uncast a auth s).2 !! b = Tallies s !! b).
Proof.
  unfold uncast. destruct (Tallies s !! a) as [t|]; [|done]. destruct (negb _); [done|]. destruct (1 <? t_Votes t); cbn; split_conj; try done.
  - intros Hne. by rewrite lookup_insert_ne.
  - intros Hne. by rewrite lookup_delete_ne.
Qed.
Lemma uncast_tally s a n auth : 0 <= n -> Tallies s !! a = tally_of (n + 1) auth -> Tallies (uncast a auth s).2 !! a = tally_of n auth.
Proof.
  intros Hn Ht. unfold tally_of in Ht. destruct (Z.eqb_spec (n + 1) 0); [lia|]. unfold uncast. rewrite Ht. cbn [t_Authorize t_Votes]. rewrite eqb_reflx. cbn [negb].
  destruct (Z.ltb_spec 1 (n + 1)) as [Hlt|Hge]; cbn.
  - rewrite lookup_insert_eq. unfold tally_of. destruct (Z.eqb_spec n 0); [lia|]. do 2 f_equal. lia.
  - rewrite lookup_delete_eq. unfold tally_of. destruct (Z.eqb_spec n 0); [done|lia].
Qed.
Definition tallies_ok (dir : Address -> bool) (s : Snapshot) (vs : list Vote) : Prop := forall a, Tallies s !! a = tally_of (votes_on a vs) (dir a).
Lemma votes_on_Permutation a vs ws : vs ≡ₚ ws -> votes_on a vs = votes_on a ws.
Proof. intros Hp. unfold votes_on. by rewrite Hp. Qed.
Lemma tallies_ok_Permutation dir s vs ws : vs ≡ₚ ws -> tallies_ok dir s vs -> tallies_ok dir s ws.
Proof. intros Hp Ht a. rewrite Ht. by rewrite (votes_on_Permutation a vs ws Hp). Qed.
(** A vote that is among others is taken out with its tally. *)
Lemma uncast_vote dir s v rest : tallies_ok dir s (v :: rest) -> v_Authorize v = dir (v_Address v) -> tallies_ok dir (uncast (v_Address v) (v_Authorize v) s).2 rest.
Proof.
  intros Ht Hp a. destruct (decide (a = v_Address v)) as [->|Hne].
  - rewrite <- Hp. apply uncast_tally; [apply votes_on_nonneg|]. rewrite Ht, votes_on_cons, decide_True, Hp by done. f_equal. lia.
  - rewrite (proj2 (proj2 (proj2 (proj2 (uncast_other s (v_Address v) a (v_Authorize v)))))) by done. by rewrite Ht, votes_on_cons, decide_False.
Qed.

Lemma discard_vote_ok s signer a : votes_ok s ->
  votes_ok (discard_vote signer a s) /\ Signers (discard_vote signer a s) = Signers s /\ Recents (discard_vote signer a s) = Recents s /\ s_Number (discard_vote signer a s) = s_Number s /\
  Votes (discard_vote signer a s) ⊆ Votes s /\ (forall v, v ∈ Votes (discard_vote signer a s) -> ~ (v_Signer v = signer /\ v_Address v = a)).
Proof.
  intros [Hs Hp Ho Ht]. unfold discard_vote. destruct (list_find _ (Votes s)) as [[i v]|] eqn:Hf.
  - apply list_find_Some in Hf as (Hi & [<- <-] & _). set (s' := (uncast (v_Address v) (v_Authorize v) s).2).
    destruct (uncast_other s (v_Address v) (v_Address v) (v_Authorize v)) as (HS & HV & HR & HN & _). fold s' in HS, HV, HR, HN. rewrite HV.
    pose proof (take_drop_middle _ _ _ Hi) as Hsplit. set (rest := take i (Votes s) ++ drop (S i) (Votes s)). assert (Votes s ≡ₚ v :: rest) as Hperm by (rewrite <- Hsplit at 1; unfold rest; symmetry; apply Permutation_middle).
    assert (rest ⊆ Votes s) as Hsub by (intros x Hx; rewrite Hperm; by right).
    assert (NoDup (map (fun v => (v_Signer v, v_Address v)) (v :: rest))) as Hnd by (by rewrite <- Hperm). apply NoDup_cons in Hnd as [Hni Hnd].
    split; [|cbn; split_conj; try done].
    + split; cbn.
      * intros x Hx. rewrite HS. by apply Hs, Hsub.
      * intros x Hx. unfold proposes. cbn. rewrite HS. by apply Hp, Hsub.
      * done.
      * unfold proposes. cbn. rewrite HS. apply (uncast_vote (proposes s) s v rest); [|apply Hp; rewrite Hperm; left]. by apply (tallies_ok_Permutation _ _ _ _ Hperm).
    + intros x Hx [H1 H2]. apply Hni. apply list_elem_of_fmap. exists x. by rewrite H1, H2.
  - apply list_find_None in Hf. rewrite Forall_forall in Hf. split; [done|]. split_conj; try done.
Qed.

Lemma discard_votes_of_ok dir signer votes s kept : tallies_ok dir s (kept ++ votes) -> (forall v, v ∈ votes -> v_Authorize v = dir (v_Address v)) ->
  let r := discard_votes_of signer votes s in
  r.1 = filter (fun v => v_Signer v <> signer) votes /\ tallies_ok dir r.2 (kept ++ r.1) /\ Signers r.2 = Signers s /\ Recents r.2 = Recents s /\ s_Number r.2 = s_Number s.
Proof.
  revert s kept. induction votes as [|v votes IH]; intros s kept Ht Hp; cbn [discard_votes_of]; [done|]. rewrite filter_cons. destruct (Z.eqb_spec (v_Signer v) signer) as [He|Hne].
  - rewrite decide_False by (intros Hx; by apply Hx). set (s' := (uncast (v_Address v) (v_Authorize v) s).2).
    destruct (uncast_other s (v_Address v) (v_Address v) (v_Authorize v)) as (HS & _ & HR & HN & _). fold s' in HS, HR, HN.
    destruct (IH s' kept) as (H1 & H2 & H3 & H4 & H5).
    + apply (uncast_vote dir s v (kept ++ votes)); [|apply Hp; left]. apply (tallies_ok_Permutation _ _ _ _ (symmetry (Permutation_middle kept votes v)) Ht).
    + intros x Hx. apply Hp. by right.
    + split_conj; try done; congruence.
  - rewrite decide_True by done. destruct (IH s (kept ++ [v])) as (H1 & H2 & H3 & H4 & H5); [by rewrite <- app_assoc|intros x Hx; apply Hp; by right|].
    destruct (discard_votes_of signer votes s) as [vs s']. cbn in *. subst vs. split_conj; try done. by rewrite <- app_assoc in H2.
Qed.

(** ** Casting a vote and passing a proposal *)

Definition counted_vote (signer : Address) (number : Z) (a : Address) (auth : bool) (s : Snapshot) : Snapshot :=
  let '(counted, s) := cast a auth s in
  if counted then with_Votes (Votes s ++ [mkVote signer number a auth]) s else s.
Lemma counted_vote_ok s signer number a auth : votes_ok s -> signer ∈ Signers s -> (forall v, v ∈ Votes s -> ~ (v_Signer v = signer /\ v_Address v = a)) ->
  let s' := counted_vote signer number a auth s in
  votes_ok s' /\ Signers s' = Signers s /\ Recents s' = Recents s /\ s_Number s' = s_Number s /\ Votes s' ⊆ Votes s ++ [mkVote signer number a auth].
Proof.
  intros [Hs Hp Ho Ht] Hsig Hnew. unfold counted_vote, cast. destruct (validVote s a auth) eqn:Hvalid; cbn [negb]; [|split_conj; try done; set_solver].
  assert (auth = proposes s a) as Hauth.
  { unfold validVote in Hvalid. unfold proposes. destruct (bool_decide (a ∈ Signers s)), auth; cbn in *; done. }
  set (v := mkVote signer number a auth). set (s1 := with_Tallies (<[a := mkTally auth (votes_on a (Votes s) + 1)]> (Tallies s)) s).
  assert ((match Tallies s !! a with
    | Some old => (true, with_Tallies (<[a := mkTally (t_Authorize old) (t_Votes old + 1)]> (Tallies s)) s)
    | None => (true, with_Tallies (<[a := mkTally auth 1]> (Tallies s)) s) end) = (true, s1)) as ->.
  { unfold s1. rewrite Ht. unfold tally_of. destruct (Z.eqb_spec (votes_on a (Votes s)) 0) as [->|Hne]; [done|]. cbn. by rewrite <- Hauth. }
  split; [|cbn; split_conj; try done]. split; cbn.
  - intros x [Hx| ->%list_elem_of_singleton]%elem_of_app; [by apply Hs|done].
  - intros x [Hx| ->%list_elem_of_singleton]%elem_of_app; [by apply Hp|done].
  - rewrite map_app. apply NoDup_app. split; [done|]. split; [|apply NoDup_singleton]. intros x Hx Hin. apply list_elem_of_fmap in Hx as (w & -> & Hw). cbn in Hin.
    apply list_elem_of_singleton in Hin. injection Hin as H1 H2. by apply (Hnew w Hw).
  - intros b. rewrite votes_on_app, votes_on_cons. cbn [v_Address]. change (votes_on b []) with 0. unfold proposes. cbn. destruct (decide (a = b)) as [<-|Hne].
    + rewrite lookup_insert_eq. unfold tally_of. destruct (Z.eqb_spec (votes_on a (Votes s) + (1 + 0)) 0); [pose proof (votes_on_nonneg a (Votes s)); lia|]. rewrite Z.add_0_r. by rewrite Hauth.
    + rewrite lookup_insert_ne, Ht by done. by rewrite !Z.add_0_r.
Qed.

Lemma votes_on_filter_other a b vs : b <> a -> votes_on b (filter (fun v => v_Address v <> a) vs) = votes_on b vs.
Proof.
  intros Hne. induction vs as [|v vs IH]; [done|]. rewrite filter_cons, (votes_on_cons b v vs). destruct (decide (v_Address v <> a)) as [Hv|Hv].
  - by rewrite votes_on_cons, IH.
  - rewrite IH, decide_False; [done|]. intros Hb. apply Hv. congruence.
Qed.
Lemma votes_on_filter_same a vs : votes_on a (filter (fun v => v_Address v <> a) vs) = 0.
Proof.
  induction vs as [|v vs IH]; [done|]. rewrite filter_cons. destruct (decide (v_Address v <> a)) as [Hv|Hv]; [|done]. by rewrite votes_on_cons, decide_False, IH.
Qed.
Lemma NoDup_map_filter {A B} (f : A -> B) (P : A -> Prop) `{forall x, Decision (P x)} l : NoDup (map f l) -> NoDup (map f (filter P l)).
Proof.
  induction l as [|x l IH]; intros Hnd; [done|]. apply NoDup_cons in Hnd as [Hx Hnd]. rewrite filter_cons. destruct (decide (P x)); [|by apply IH].
  cbn. constructor; [|by apply IH]. intros Hin. apply Hx. apply list_elem_of_fmap in Hin as (y & Hy & [_ Hin]%list_elem_of_filter). apply list_elem_of_fmap. by exists y.
Qed.

(** What a proposal that has passed leaves. *)
Lemma changed_ok s a kept : votes_ok s -> kept ⊆ Votes s -> NoDup (map (fun v => (v_Signer v, v_Address v)) kept) ->
  forall s', (forall b, b <> a -> b ∈ Signers s' <-> b ∈ Signers s) -> (forall v, v ∈ kept -> v_Signer v ∈ Signers s') ->
  (forall b, b <> a -> Tallies s' !! b = tally_of (votes_on b kept) (proposes s b)) ->
  votes_ok (with_Tallies (base.delete a (Tallies s')) (with_Votes (filter (fun v => v_Address v <> a) kept) s')).
Proof.
  intros [Hs Hp Ho Ht] Hsub Hnd s' Hsig Hvot Htal.
  assert (forall b, b <> a -> proposes s' b = proposes s b) as Hprop by (intros b Hb; unfold proposes; f_equal; apply bool_decide_ext; by apply Hsig).
  split; cbn.
  - intros v [_ Hv]%list_elem_of_filter. by apply Hvot.
  - intros v [Hne Hv]%list_elem_of_filter. change (v_Authorize v = proposes s' (v_Address v)). rewrite Hprop by done. by apply Hp, Hsub.
  - by apply NoDup_map_filter.
  - intros b. change (proposes _ b) with (proposes s' b). destruct (decide (b = a)) as [->|Hne].
    + by rewrite lookup_delete_eq, votes_on_filter_same.
    + rewrite lookup_delete_ne, votes_on_filter_other, Hprop by done. by apply Htal.
Qed.

(** A majority of the signers, each with one vote, is behind a change. *)
Definition majority (s : Snapshot) (a : Address) : Prop := Z.of_nat (size (Signers s)) < 2 * votes_on a (Votes s).
Inductive passed (number : Z) (a : Address) (s s' : Snapshot) : Prop :=
| passed_none : Signers s' = Signers s -> Recents s' = Recents s -> passed number a s s'
| passed_add : majority s a -> a ∉ Signers s -> Signers s' = {[a]} ∪ Signers s -> Recents s' = Recents s -> passed number a s s'
| passed_drop : majority s a -> a ∈ Signers s -> Signers s' = Signers s ∖ {[a]} -> Recents s' = Recents (shift_recents number (with_Signers (Signers s') s)) -> passed number a s s'.
Lemma shift_recents_other number s : Signers (shift_recents number s) = Signers s /\ Votes (shift_recents number s) = Votes s /\
  Tallies (shift_recents number s) = Tallies s /\ s_Number (shift_recents number s) = s_Number s.
Proof. unfold shift_recents. by destruct (sign_limit s <=? number). Qed.
Lemma pass_vote_ok number a s : votes_ok s ->
  votes_ok (pass_vote number a s) /\ passed number a s (pass_vote number a s) /\ s_Number (pass_vote number a s) = s_Number s /\ Votes (pass_vote number a s) ⊆ Votes s.
Proof.
  intros Hok. pose proof Hok as [Hs Hp Ho Ht]. unfold pass_vote. rewrite Ht. unfold tally_of. set (n := votes_on a (Votes s)).
  destruct (Z.eqb_spec n 0) as [Hn|Hn]; cbn [default from_option id t_Votes t_Authorize].
  { destruct (Z.ltb_spec (Z.of_nat (size (Signers s)) / 2) 0) as [Hlt|_]; [pose proof (Z.div_pos (Z.of_nat (size (Signers s))) 2); lia|]. split; [done|]. split; [by apply passed_none|done]. }
  destruct (Z.ltb_spec (Z.of_nat (size (Signers s)) / 2) n) as [Hmaj|_]; [|split; [done|]; split; [by apply passed_none|done]].
  assert (majority s a) as HM by (unfold majority; fold n; pose proof (Z.div_mod (Z.of_nat (size (Signers s))) 2 ltac:(lia)); pose proof (Z.mod_pos_bound (Z.of_nat (size (Signers s))) 2 ltac:(lia)); lia).
  destruct (proposes s a) eqn:Hprop.
  - assert (a ∉ Signers s) as Hni by (unfold proposes in Hprop; by apply negb_true_iff, bool_decide_eq_false in Hprop).
    split; [|split; [by apply passed_add|split; [done|by intros v [_ Hv]%list_elem_of_filter]]]. refine (changed_ok s a (Votes s) Hok _ _ (with_Signers ({[a]} ∪ Signers s) s) _ _ _); [done|done|set_solver| |].
    + intros v Hv. cbn. apply elem_of_union_r. by apply Hs.
    + intros b _. apply Ht.
  - assert (a ∈ Signers s) as Hin by (unfold proposes in Hprop; by apply negb_false_iff, bool_decide_eq_true in Hprop).
    set (s1 := with_Signers (Signers s ∖ {[a]}) s). destruct (shift_recents_other number s1) as (HS & HV & HT & HN). set (s2 := shift_recents number s1) in *.
    destruct (discard_votes_of_ok (proposes s) a (Votes s2) s2 []) as (Hk & Htal & HS3 & HR3 & HN3).
    { intros b. rewrite HT, HV. apply Ht. }
    { rewrite HV. apply Hp. }
    destruct (discard_votes_of a (Votes s2) s2) as [vs s3]. cbn [fst snd app] in *. cbn [Votes with_Votes]. rewrite HV in Hk. cbn [Votes s1 with_Signers] in Hk.
    split; [|split; [|split]].
    + refine (changed_ok s a vs Hok _ _ (with_Votes vs s3) _ _ _); cbn.
      * subst vs. intros v [_ Hv]%list_elem_of_filter. done.
      * subst vs. by apply NoDup_map_filter.
      * intros b Hb. rewrite HS3, HS. cbn. set_solver.
      * subst vs. intros v [Hne Hv]%list_elem_of_filter. rewrite HS3, HS. cbn. apply elem_of_difference. split; [by apply Hs|]. intros Heq%elem_of_singleton. by apply Hne.
      * intros b _. apply Htal.
    + apply passed_drop; [done|done| |]; cbn; [by rewrite HS3, HS|]. rewrite HR3. unfold s2, s1. do 2 f_equal. by rewrite HS3, HS.
    + cbn. by rewrite HN3, HN.
    + subst vs. cbn. by intros v [_ [_ Hv]%list_elem_of_filter]%list_elem_of_filter.
Qed.

(** ** A header *)

Section headers.
Context `{Crypto} (config : CliqueConfig).
Abbreviation num h := (Uint64 (Number h)).

Lemma shift_recents_Recents number s s' : Signers s' = Signers s -> Recents s' = Recents s -> Recents (shift_recents number s') = Recents (shift_recents number s).
Proof. intros HS HR. unfold shift_recents, sign_limit. rewrite HS. destruct (_ <=? number); [|done]. cbn. by rewrite HR. Qed.

(** What it takes for a header to be applied, with the snapshot in which its vote
    is counted. *)
Record applied (s : Snapshot) (header : Header) (s' : Snapshot) (signer : Address) (auth : bool) (s1 : Snapshot) : Prop := {
  ap_signer : ecrecover header = inr signer;
  ap_authorized : signer ∈ Signers s;
  ap_recent : ~ map_Exists (fun _ recent => recent = signer) (Recents (shift_recents (num header) s));
  ap_votes : votes_ok s1;
  ap_signers : Signers s1 = Signers s;
  ap_recents : Recents s1 = <[num header := signer]> (Recents (shift_recents (num header) s));
  ap_vote : vote_of (h_Nonce header) = Some auth;
  ap_cast v : v ∈ Votes s1 ->
    v ∈ Votes s /\ ~ (v_Signer v = signer /\ v_Address v = h_Coinbase header) /\ num header mod Epoch config <> 0 \/ v = mkVote signer (num header) (h_Coinbase header) auth;
  ap_kept : Votes s' ⊆ Votes s1;
  ap_passed : passed (num header) (h_Coinbase header) s1 s';
  ap_ok : votes_ok s';
  ap_number : s_Number s' = s_Number s;
}.
Lemma reset_ok s number : votes_ok s -> let s' := if number mod Epoch config =? 0 then with_Tallies ∅ (with_Votes [] s) else s in
  votes_ok s' /\ Signers s' = Signers s /\ Recents s' = Recents s /\ s_Number s' = s_Number s /\ (forall v, v ∈ Votes s' -> v ∈ Votes s /\ number mod Epoch config <> 0).
Proof.
  intros Hok. destruct (Z.eqb_spec (number mod Epoch config) 0); [|done]. cbn. split_conj; try done; [|by intros v ?%not_elem_of_nil].
  split; cbn; try (by intros v ?%not_elem_of_nil); [constructor|]. intros a. by rewrite lookup_empty.
Qed.
Lemma with_Recents_ok r s : votes_ok s -> votes_ok (with_Recents r s).
Proof. intros [? ? ? ?]. by split. Qed.
Lemma shift_recents_ok number s : votes_ok s -> votes_ok (shift_recents number s).
Proof. intros Hok. unfold shift_recents. destruct (_ <=? number); [by apply with_Recents_ok|done]. Qed.
Lemma apply_header_ok s header s' : votes_ok s -> apply_header config s header = inr s' -> exists signer auth s1, applied s header s' signer auth s1.
Proof.
  intros Hok Ha. unfold apply_header in Ha. destruct (reset_ok s (num header) Hok) as (Hok0 & HS0 & HR0 & HN0 & HV0).
  set (s0 := if num header mod Epoch config =? 0 then _ else s) in *. destruct (shift_recents_other (num header) s0) as (HS1 & HV1 & _ & HN1).
  pose proof (shift_recents_Recents (num header) s s0 HS0 HR0) as HR1. pose proof (shift_recents_ok (num header) s0 Hok0) as Hok1. set (s1 := shift_recents (num header) s0) in *.
  destruct (ecrecover header) as [err|signer] eqn:He; [done|]. destruct (bool_decide_reflect (signer ∈ Signers s1)) as [Hin|]; [|done]. cbn [negb] in Ha.
  destruct (bool_decide_reflect (map_Exists (fun _ recent => recent = signer) (Recents s1))) as [|Hrec]; [done|].
  set (s2 := with_Recents (<[num header := signer]> (Recents s1)) s1) in *. assert (votes_ok s2) as Hok2 by (by apply with_Recents_ok).
  destruct (discard_vote_ok s2 signer (h_Coinbase header) Hok2) as (Hok3 & HS3 & HR3 & HN3 & HV3 & Hnew). set (s3 := discard_vote signer (h_Coinbase header) s2) in *.
  destruct (vote_of (h_Nonce header)) as [auth|] eqn:Hvote; [|done].
  destruct (counted_vote_ok s3 signer (num header) (h_Coinbase header) auth Hok3 ltac:(by rewrite HS3) Hnew) as (Hok4 & HS4 & HR4 & HN4 & HV4).
  assert (inr s' = (inr (pass_vote (num header) (h_Coinbase header) (counted_vote signer (num header) (h_Coinbase header) auth s3)) : cliqueError + Snapshot)) as Heq.
  { rewrite <- Ha. unfold counted_vote. by destruct (cast (h_Coinbase header) auth s3) as [[] s4]. }
  injection Heq as ->. set (s4 := counted_vote signer (num header) (h_Coinbase header) auth s3) in *. destruct (pass_vote_ok (num header) (h_Coinbase header) s4 Hok4) as (Hok5 & Hp & HN5 & HV5).
  exists signer, auth, s4. cbn in HS3, HR3, HN3, HV3. split; try done.
  - by rewrite <- HS0, <- HS1.
  - by rewrite <- HR1.
  - congruence.
  - by rewrite HR4, HR3, HR1.
  - intros v Hv. apply HV4 in Hv. apply elem_of_app in Hv as [Hv|Hv%list_elem_of_singleton]; [left|by right]. destruct (HV0 v) as [Hold Hne]; [rewrite <- HV1; by apply HV3|]. split; [done|]. split; [by apply Hnew|done].
  - congruence.
Qed.

(** ** Chains of headers *)

(** The headers that were applied since a checkpoint, the last one first. *)
Inductive reached (number : Z) (sgs : list Address) : list Header -> Snapshot -> Prop :=
| reached_start hash : reached number sgs [] (newSnapshot number hash sgs)
| reached_next hs s header s' : reached number sgs hs s -> num header = number + zlen hs + 1 -> apply_header config s header = inr s' -> reached number sgs (header :: hs) s'.

Lemma newSnapshot_ok number hash sgs : votes_ok (newSnapshot number hash sgs).
Proof. split; cbn; try (by intros v ?%not_elem_of_nil); [constructor|]. intros a. by rewrite lookup_empty. Qed.
Lemma reached_votes number sgs hs s : reached number sgs hs s -> votes_ok s.
Proof. induction 1 as [hash|hs s header s' _ IH _ Ha]; [apply newSnapshot_ok|]. destruct (apply_header_ok s header s' IH Ha) as (signer & auth & s1 & Hap). apply (ap_ok _ _ _ _ _ _ Hap). Qed.

(** The signers of the last blocks: those of the window are remembered, and no
    others. *)
Record recents_ok (n : Z) (hs : list Header) (s : Snapshot) : Prop := {
  ro_window k x : Recents s !! k = Some x -> 0 < k /\ n - sign_limit s < k <= n;
  ro_signer h : h ∈ hs -> num h <= n /\ (n + 1 - sign_limit s < num h -> exists signer, ecrecover h = inr signer /\ Recents s !! num h = Some signer);
}.
Lemma sign_limit_pos s : 1 <= sign_limit s.
Proof. unfold sign_limit. pose proof (Z.div_pos (Z.of_nat (size (Signers s))) 2). lia. Qed.
Lemma sign_limit_add s s' a : a ∉ Signers s -> Signers s' = {[a]} ∪ Signers s -> sign_limit s <= sign_limit s' <= sign_limit s + 1.
Proof.
  intros Hni HS. unfold sign_limit. rewrite HS, size_union, size_singleton by set_solver.
  set (m := Z.of_nat (size (Signers s))). replace (Z.of_nat (1 + size (Signers s))) with (m + 1) by lia.
  pose proof (Z.div_mod m 2 ltac:(lia)). pose proof (Z.div_mod (m + 1) 2 ltac:(lia)). pose proof (Z.mod_pos_bound m 2 ltac:(lia)). pose proof (Z.mod_pos_bound (m + 1) 2 ltac:(lia)). lia.
Qed.
Lemma sign_limit_drop s s' a : a ∈ Signers s -> Signers s' = Signers s ∖ {[a]} -> sign_limit s - 1 <= sign_limit s' <= sign_limit s.
Proof.
  intros Hin HS. assert (sign_limit s' <= sign_limit s <= sign_limit s' + 1) as Hl; [|lia]. apply (sign_limit_add s' s a); [set_solver|].
  rewrite HS. apply set_eq. intros x. destruct (decide (x = a)); set_solver.
Qed.
Lemma shift_lookup number s k x : Recents (shift_recents number s) !! k = Some x <-> Recents s !! k = Some x /\ (sign_limit s <= number -> k <> number - sign_limit s).
Proof.
  unfold shift_recents. destruct (Z.leb_spec (sign_limit s) number) as [Hle|Hgt]; cbn.
  - rewrite lookup_delete_Some. split; [intros [Hne Hl]; split; [done|]; intros _ He; by apply Hne|intros [Hl Hne]; split; [|done]; intros He; by apply (Hne Hle)].
  - split; [intros Hl; split; [done|lia]|by intros [? _]].
Qed.
Lemma recents_step n hs s header s' signer auth s1 : recents_ok n hs s -> 0 <= n -> num header = n + 1 -> applied s header s' signer auth s1 -> recents_ok (n + 1) (header :: hs) s'.
Proof.
  intros [Hw Hs] Hn Hnum Hap. pose proof (sign_limit_pos s) as Hpos. pose proof (sign_limit_pos s') as Hpos'.
  assert (forall k x, Recents s1 !! k = Some x <-> k = n + 1 /\ x = signer \/ k <> n + 1 /\ Recents s !! k = Some x /\ (sign_limit s <= n + 1 -> k <> n + 1 - sign_limit s)) as Hr1.
  { intros k x. rewrite (ap_recents _ _ _ _ _ _ Hap), Hnum, lookup_insert_Some, shift_lookup. naive_solver. }
  assert (Signers s1 = Signers s) as HS1 by apply Hap.
  assert (Recents s' = Recents s1 /\ sign_limit s <= sign_limit s' <= sign_limit s + 1 \/
    sign_limit s - 1 <= sign_limit s' <= sign_limit s /\ Recents s' = Recents (shift_recents (n + 1) (with_Signers (Signers s') s1))) as [[HR HL]|[HL HR]].
  { destruct (ap_passed _ _ _ _ _ _ Hap) as [HS HR|_ Hni HS HR|_ Hin HS HR]; rewrite ?HS1, ?Hnum in *; [left|left|right].
    - split; [done|]. unfold sign_limit. rewrite HS. lia.
    - split; [done|]. by apply (sign_limit_add s s' (h_Coinbase header)).
    - split; [|done]. by apply (sign_limit_drop s s' (h_Coinbase header)). }
  - split.
    + intros k x. rewrite HR, Hr1. intros [[-> ->]|(Hne & Hl & Hd)]; [lia|]. destruct (Hw k x Hl). lia.
    + intros h [->|Hh]%elem_of_cons; [split; [lia|]; intros _; exists signer; split; [apply Hap|]; rewrite HR, Hr1; left; lia|].
      destruct (Hs h Hh) as [Hle Hk]. split; [lia|]. intros Hgt. destruct Hk as (x & He & Hl); [lia|]. exists x. split; [done|]. rewrite HR, Hr1. right. split; [lia|]. split; [done|lia].
  - change (sign_limit (with_Signers (Signers s') s1)) with (sign_limit s') in *.
    assert (forall k x, Recents s' !! k = Some x <-> Recents s1 !! k = Some x /\ (sign_limit s' <= n + 1 -> k <> n + 1 - sign_limit s')) as Hr'.
    { intros k x. rewrite HR, shift_lookup. done. }
    split.
    + intros k x. rewrite Hr', Hr1. intros [[[-> ->]|(Hne & Hl & Hd)] Hd']; [lia|]. destruct (Hw k x Hl). lia.
    + intros h [->|Hh]%elem_of_cons; [split; [lia|]; intros _; exists signer; split; [apply Hap|]; rewrite Hr', Hr1, Hnum; split; [by left|lia]|].
      destruct (Hs h Hh) as [Hle Hk]. split; [lia|]. intros Hgt. destruct Hk as (x & He & Hl); [lia|]. exists x. split; [done|]. rewrite Hr', Hr1. split; [|lia]. right. split; [lia|]. split; [done|lia].
Qed.

Lemma reached_recents number sgs hs s : 0 <= number -> reached number sgs hs s -> recents_ok (number + zlen hs) hs s.
Proof.
  intros Hn. induction 1 as [hash|hs s header s' Hr IH Hnum Ha].
  - split; [intros k x; cbn; by rewrite lookup_empty|]. by intros h ?%not_elem_of_nil.
  - destruct (apply_header_ok s header s' (reached_votes _ _ _ _ Hr) Ha) as (signer & auth & s1 & Hap). rewrite zlen_cons, Z.add_assoc.
    apply (recents_step _ hs s header s' signer auth s1 IH); [pose proof (zlen_nonneg hs); lia|lia|done].
Qed.

(** A vote is that of a header since the last checkpoint block, and its signer has
    not voted on the account again. *)
Record cast_by (n : Z) (hs : list Header) (v : Vote) : Prop := {
  cb_header : exists h, h ∈ hs /\ num h = v_Block v /\ ecrecover h = inr (v_Signer v) /\ h_Coinbase h = v_Address v /\ vote_of (h_Nonce h) = Some (v_Authorize v);
  cb_latest h : h ∈ hs -> ecrecover h = inr (v_Signer v) -> h_Coinbase h = v_Address v -> num h <= v_Block v;
  cb_epoch k : v_Block v < k <= n -> k mod Epoch config <> 0;
}.
Lemma cast_step n hs s header s' signer auth s1 v : (forall v, v ∈ Votes s -> cast_by n hs v) -> (forall h, h ∈ hs -> num h <= n) -> num header = n + 1 ->
  applied s header s' signer auth s1 -> v ∈ Votes s1 -> cast_by (num header) (header :: hs) v.
Proof.
  intros Hc Hle Hnum Hap Hv. destruct (ap_cast _ _ _ _ _ _ Hap v Hv) as [(Hold & Hother & Hmod)| ->].
  - destruct (Hc v Hold) as [(h & Hh & Hf) Hl He]. split.
    + exists h. split; [by right|done].
    + intros h' [->|Hh']%elem_of_cons Hs Ha; [|by apply Hl]. exfalso. apply Hother. rewrite (ap_signer _ _ _ _ _ _ Hap) in Hs. by injection Hs.
    + intros k Hk. destruct (decide (k = num header)) as [->|Hne]; [done|]. apply He. lia.
  - split; cbn.
    + exists header. split; [left|]. split_conj; [done|apply Hap|done|apply Hap].
    + intros h' [->|Hh']%elem_of_cons _ _; [lia|]. specialize (Hle h' Hh'). lia.
    + lia.
Qed.
Lemma reached_cast number sgs hs s v : 0 <= number -> reached number sgs hs s -> v ∈ Votes s -> cast_by (number + zlen hs) hs v.
Proof.
  intros Hn Hr. revert v. induction Hr as [hash|hs s header s' Hr IH Hnum Ha]; intros v Hv; [by apply not_elem_of_nil in Hv|].
  destruct (apply_header_ok s header s' (reached_votes _ _ _ _ Hr) Ha) as (signer & auth & s1 & Hap). rewrite zlen_cons, Z.add_assoc, <- Hnum.
  apply (cast_step (number + zlen hs) hs s header s' signer auth s1); [done| |done|done|by apply (ap_kept _ _ _ _ _ _ Hap)].
  intros h Hh. by apply (ro_signer _ _ _ (reached_recents _ _ _ _ Hn Hr)).
Qed.
Lemma cast_by_perm n hs hs' v : (forall h, h ∈ hs <-> h ∈ hs') -> cast_by n hs v -> cast_by n hs' v.
Proof.
  intros Hp [(h & Hh & Hf) Hl He]. split; [exists h; split; [by apply Hp|done]| |done]. intros h' Hh'. by apply Hl, Hp.
Qed.
(** [apply] goes through the headers one by one. *)
Lemma apply_headers_reached number sgs hs s headers s' : 0 <= number -> number + zlen hs + zlen headers < 2 ^ 63 -> reached number sgs hs s ->
  contiguous (number + zlen hs) headers = true -> apply_headers config s headers = inr s' -> reached number sgs (rev headers ++ hs) s'.
Proof.
  intros Hn. revert hs s. induction headers as [|h headers IH]; intros hs s Hb Hr Hc Ha; cbn in Hc, Ha; [by injection Ha as <-|].
  apply andb_true_iff in Hc as [Hh%Z.eqb_eq Hc]. rewrite zlen_cons in Hb. pose proof (zlen_nonneg hs). pose proof (zlen_nonneg headers). rewrite u64_id in Hh by (unfold is_u64; lia).
  destruct (apply_header config s h) as [err|s1] eqn:Ha1; [done|]. cbn. rewrite <- app_assoc. cbn. apply (IH (h :: hs) s1); [rewrite zlen_cons; lia|by apply (reached_next _ _ hs s)| |done].
  by rewrite zlen_cons, Z.add_assoc, <- Hh.
Qed.

(** The snapshot of a chain of headers since a checkpoint, as [apply] computes
    it. *)
Definition snapshot_of (number : Z) (hash : Hash) (sgs : list Address) (headers : list Header) (s : Snapshot) : Prop :=
  0 <= number /\ number + zlen headers < 2 ^ 62 /\ apply config (newSnapshot number hash sgs) headers = inr s.
Lemma reached_number number sgs hs s : reached number sgs hs s -> s_Number s = number.
Proof.
  induction 1 as [hash|hs s header s' Hr IH _ Ha]; [done|]. destruct (apply_header_ok s header s' (reached_votes _ _ _ _ Hr) Ha) as (signer & auth & s1 & Hap).
  by rewrite (ap_number _ _ _ _ _ _ Hap).
Qed.
Lemma snapshot_facts number hash sgs headers s : snapshot_of number hash sgs headers s ->
  votes_ok s /\ recents_ok (number + zlen headers) headers s /\ s_Number s = number + zlen headers /\
  (forall v, v ∈ Votes s -> cast_by (number + zlen headers) headers v).
Proof.
  intros (Hn & Hb & Ha). unfold apply in Ha. destruct (last headers) as [l|] eqn:Hl.
  - destruct (contiguous _ headers) eqn:Hc; [|done]. cbn [negb] in Ha. destruct (apply_headers _ _ headers) as [err|s0] eqn:Hh; [done|]. injection Ha as <-.
    pose proof (apply_headers_reached number sgs [] _ headers s0 Hn ltac:(rewrite zlen_nil; lia) (reached_start _ _ hash)) as Hr. rewrite zlen_nil, Z.add_0_r, app_nil_r in Hr.
    specialize (Hr Hc Hh). pose proof (reached_recents _ _ _ _ Hn Hr) as [Hw Hs]. pose proof (reached_votes _ _ _ _ Hr) as [? ? ? ?].
    assert (forall h, h ∈ headers <-> h ∈ rev headers) as Hrev by (intros h; by rewrite !list_elem_of_In, <- in_rev).
    assert (zlen (rev headers) = zlen headers) as Hz by (unfold zlen; by rewrite length_rev). rewrite Hz in *. split; [by split|]. split; [|split].
    + split; [done|]. intros h Hh'. by apply Hs, Hrev.
    + cbn. rewrite (reached_number _ _ _ _ Hr). rewrite u64_id; [done|]. pose proof (zlen_nonneg headers). unfold is_u64. lia.
    + intros v Hv. pose proof (reached_cast _ _ _ _ v Hn Hr Hv) as Hcast. rewrite Hz in Hcast. revert Hcast. apply cast_by_perm. intros h. by rewrite Hrev.
  - apply last_None in Hl as ->. injection Ha as <-. rewrite zlen_nil, Z.add_0_r. split; [apply newSnapshot_ok|]. split; [|split; [done|by intros v ?%not_elem_of_nil]].
    pose proof (reached_recents number sgs [] _ Hn (reached_start _ _ hash)) as Hr. by rewrite zlen_nil, Z.add_0_r in Hr.
Qed.
(** The next header, with the number it must have. *)
Lemma apply_one number hash sgs headers s header s' : snapshot_of number hash sgs headers s -> apply config s [header] = inr s' ->
  num header = number + zlen headers + 1 /\ exists s0 signer auth s1, applied s header s0 signer auth s1 /\ Signers s' = Signers s0.
Proof.
  intros Hsn Ha. destruct (snapshot_facts _ _ _ _ _ Hsn) as (Hv & Hr & HN & _). destruct Hsn as (Hn & Hb & _). unfold apply in Ha. cbn [last contiguous] in Ha.
  rewrite HN, andb_true_r in Ha. destruct (Z.eqb_spec (num header) (u64 (number + zlen headers + 1))) as [He|]; [|done].
  rewrite u64_id in He by (unfold is_u64; pose proof (zlen_nonneg headers); lia). split; [done|]. cbn [negb apply_headers] in Ha.
  destruct (apply_header config s header) as [err|s0] eqn:Hh; [done|]. injection Ha as <-. destruct (apply_header_ok s header s0 Hv Hh) as (signer & auth & s1 & Hap).
  by exists s0, signer, auth, s1.
Qed.

(** C29. The signers change by majority: when a header is applied to the snapshot of
    a chain of headers and the signers change, it is by the account the header
    votes on, which is dropped when it is a signer and added when it is not, and
    more than half of the signers before have voted for that, each once. The
    vote of each is one that a header of the chain, or this one, has cast: signed
    by that signer, with that account and with the nonce of that direction, the
    last vote of the signer on the account, and with no checkpoint block (one
    whose number is a multiple of the epoch) after it. The vote of the header
    itself need not be among them: where it has the other direction it is not
    counted, and an earlier majority passes when the signers have become
    fewer. The chain starts after a checkpoint that lists the signers, and its
    numbers are below [2 ^ 62]. *)
Theorem signers_change_by_majority number hash sgs headers s header s' :
  snapshot_of number hash sgs headers s -> apply config s [header] = inr s' -> Signers s' <> Signers s ->
  let a := h_Coinbase header in
  Signers s' = (if bool_decide (a ∈ Signers s) then Signers s ∖ {[a]} else {[a]} ∪ Signers s) /\
  exists votes, Z.of_nat (size (Signers s)) < 2 * zlen votes /\ NoDup (map v_Signer votes) /\
    forall v, v ∈ votes -> v_Signer v ∈ Signers s /\ v_Address v = a /\ v_Authorize v = negb (bool_decide (a ∈ Signers s)) /\
      cast_by (Uint64 (Number header)) (header :: headers) v.
Proof.
  intros Hsn Ha Hch a. destruct (apply_one _ _ _ _ _ _ _ Hsn Ha) as (Hnum & s0 & signer & auth & s1 & Hap & HS'). rewrite HS' in *.
  destruct (snapshot_facts _ _ _ _ _ Hsn) as (_ & [_ Hle] & _ & Hcast). pose proof (fun v => cast_step _ _ _ _ _ _ _ _ v Hcast (fun h Hh => proj1 (Hle h Hh)) Hnum Hap) as Hstep.
  destruct Hap as [He Hauth _ [Hs Hp Ho _] HS1 _ _ _ _ Hpass _ _]. fold a in Hpass.
  assert (majority s1 a /\ Signers s0 = (if bool_decide (a ∈ Signers s) then Signers s ∖ {[a]} else {[a]} ∪ Signers s)) as [Hmaj Heq].
  { destruct Hpass as [HS|Hm Hni HS|Hm Hin HS]; rewrite HS1 in *; [done| |]; (split; [done|]); [by rewrite bool_decide_false|by rewrite bool_decide_true]. }
  split; [done|]. exists (filter (fun v => v_Address v = a) (Votes s1)). split; [by unfold majority in Hmaj; rewrite HS1 in Hmaj|]. split.
  - apply (NoDup_fmap_1 (fun x => (x, a))). rewrite <- list_fmap_compose. apply (NoDup_map_filter _ (fun v => v_Address v = a)) in Ho. rewrite (list_fmap_ext _ (fun v => (v_Signer v, v_Address v))); [done|].
    intros i v Hv%list_elem_of_lookup_2. apply list_elem_of_filter in Hv as [Hv _]. cbn. by rewrite Hv.
  - intros v [Hva Hv]%list_elem_of_filter. split; [rewrite <- HS1; by apply Hs|]. split; [done|]. split; [rewrite (Hp v Hv), Hva; unfold proposes; by rewrite HS1|]. by apply Hstep.
Qed.

(** C30. Signers take turns: the signer of a header that is applied is authorized,
    and has signed none of the headers before it that are less than half the
    number of signers, plus one, away. *)
Theorem signers_take_turns number hash sgs headers s header s' :
  snapshot_of number hash sgs headers s -> apply config s [header] = inr s' ->
  exists signer, ecrecover header = inr signer /\ signer ∈ Signers s /\
    forall h, h ∈ headers -> Uint64 (Number header) - Uint64 (Number h) < Z.of_nat (size (Signers s)) / 2 + 1 -> ecrecover h <> inr signer.
Proof.
  intros Hsn Ha. destruct (apply_one _ _ _ _ _ _ _ Hsn Ha) as (Hnum & s0 & signer & auth & s1 & Hap & _). destruct (snapshot_facts _ _ _ _ _ Hsn) as (_ & [Hw Hs] & _ & _).
  exists signer. split; [apply Hap|]. split; [apply Hap|]. intros h Hh Hd He.
  destruct (Hs h Hh) as [Hle Hk]. fold (sign_limit s) in Hd. destruct Hk as (x & Hx & Hl); [lia|]. rewrite He in Hx. injection Hx as <-.
  apply (ap_recent _ _ _ _ _ _ Hap). exists (num h), signer. split; [|done]. apply shift_lookup. split; [done|]. lia.
Qed.

(** A seal that is verified on the snapshot of the parent can be applied to it,
    once as many blocks have passed as the signers wait. *)
Lemma verified_seal_applies number hash sgs headers s header fakeDiff : snapshot_of number hash sgs headers s ->
  num header = number + zlen headers + 1 -> sign_limit s <= num header -> vote_of (h_Nonce header) <> None ->
  clique_verifySeal fakeDiff s header = Ok None -> exists s', apply config s [header] = inr s'.
Proof.
  intros Hsn Hnum Hlim Hvote Hv. destruct (snapshot_facts _ _ _ _ _ Hsn) as (_ & [Hw _] & HN & _). destruct Hsn as (Hn & Hb & _). pose proof (zlen_nonneg headers) as Hz.
  unfold apply. cbn [last contiguous apply_headers]. rewrite HN, andb_true_r, u64_id, Hnum, Z.eqb_refl by (unfold is_u64; lia). cbn [negb]. unfold clique_verifySeal in Hv.
  destruct (Z.eqb_spec (num header) 0) as [|_]; [lia|]. unfold apply_header. destruct (ecrecover header) as [err|signer]; [done|].
  set (s0 := if num header mod Epoch config =? 0 then _ else s). assert (Signers s0 = Signers s /\ Recents s0 = Recents s) as [HS HR] by (unfold s0; by destruct (_ =? 0)).
  destruct (shift_recents_other (num header) s0) as (HS1 & _). rewrite HS1, HS. destruct (bool_decide (signer ∈ Signers s)); [|done]. cbn [negb] in *.
  rewrite bool_decide_false.
  - destruct (vote_of (h_Nonce header)) as [auth|]; [|done]. destruct (cast _ _ _) as [[] s2]; by eexists.
  - rewrite (shift_recents_Recents (num header) s s0 HS HR). intros (k & x & Hk & ->). apply shift_lookup in Hk as [Hk Hne].
    destruct (bool_decide_reflect (map_Exists (fun seen recent => recent = signer /\ u64 (num header - sign_limit s) < seen) (Recents s))) as [|Hno]; [done|].
    apply Hno. exists k, signer. split; [done|]. split; [done|]. destruct (Hw k signer Hk). specialize (Hne Hlim). pose proof (sign_limit_pos s). rewrite u64_id by (unfold is_u64; lia). lia.
Qed.

(** ** Snapshots of snapshots *)

(** The number and the hash play no part when a header is applied. *)
Definition stamp (number : Z) (hash : Hash) (s : Snapshot) : Snapshot := mkSnapshot number hash (Signers s) (Recents s) (Votes s) (Tallies s).
Lemma shift_recents_stamp n h number s : shift_recents number (stamp n h s) = stamp n h (shift_recents number s).
Proof. unfold shift_recents. change (sign_limit (stamp n h s)) with (sign_limit s). by destruct (sign_limit s <=? number). Qed.
Lemma uncast_stamp n h a auth s : (uncast a auth (stamp n h s)).2 = stamp n h (uncast a auth s).2.
Proof. unfold uncast. cbn [Tallies stamp]. destruct (Tallies s !! a) as [t|]; [|done]. destruct (negb _); [done|]. by destruct (1 <? t_Votes t). Qed.
Lemma discard_votes_of_stamp n h signer votes s : discard_votes_of signer votes (stamp n h s) = ((discard_votes_of signer votes s).1, stamp n h (discard_votes_of signer votes s).2).
Proof.
  revert s. induction votes as [|v votes IH]; intros s; cbn; [done|]. destruct (v_Signer v =? signer); [by rewrite uncast_stamp, IH|].
  rewrite IH. by destruct (discard_votes_of signer votes s).
Qed.
Lemma discard_vote_stamp n h signer a s : discard_vote signer a (stamp n h s) = stamp n h (discard_vote signer a s).
Proof. unfold discard_vote. cbn [Votes stamp]. destruct (list_find _ _) as [[i v]|]; [|done]. by rewrite uncast_stamp. Qed.
Lemma counted_vote_stamp n h signer number a auth s : counted_vote signer number a auth (stamp n h s) = stamp n h (counted_vote signer number a auth s).
Proof.
  unfold counted_vote, cast. change (validVote (stamp n h s) a auth) with (validVote s a auth). cbn [Tallies stamp]. destruct (validVote s a auth); [|done]. cbn. by destruct (Tallies s !! a).
Qed.
Lemma pass_vote_stamp n h number a s : pass_vote number a (stamp n h s) = stamp n h (pass_vote number a s).
Proof.
  unfold pass_vote. cbn [Signers Tallies stamp]. destruct (_ <? _); [|done]. destruct (t_Authorize _); [done|].
  change (with_Signers (Signers s ∖ {[a]}) (stamp n h s)) with (stamp n h (with_Signers (Signers s ∖ {[a]}) s)). rewrite shift_recents_stamp. set (s1 := shift_recents number (with_Signers _ s)).
  change (Votes (stamp n h s1)) with (Votes s1). rewrite discard_votes_of_stamp. by destruct (discard_votes_of a (Votes s1) s1).
Qed.
Lemma apply_header_counted s header : apply_header config s header =
  let number := num header in
  let s := shift_recents number (if number mod Epoch config =? 0 then with_Tallies ∅ (with_Votes [] s) else s) in
  match ecrecover header with
  | inl err => inl err
  | inr signer =>
      if negb (bool_decide (signer ∈ Signers s)) then inl errUnauthorizedSigner
      else if bool_decide (map_Exists (fun _ recent => recent = signer) (Recents s)) then inl errRecentlySigned
      else match vote_of (h_Nonce header) with
           | None => inl errInvalidVote
           | Some auth => inr (pass_vote number (h_Coinbase header) (counted_vote signer number (h_Coinbase header) auth (discard_vote signer (h_Coinbase header) (with_Recents (<[number := signer]> (Recents s)) s))))
           end
  end.
Proof.
  unfold apply_header, counted_vote. cbv zeta. destruct (ecrecover header) as [|signer]; [done|]. destruct (negb _); [done|]. destruct (bool_decide _); [done|].
  destruct (vote_of _) as [auth|]; [|done]. by destruct (cast _ _ _) as [[] s1].
Qed.
Lemma apply_header_stamp n h s header : apply_header config (stamp n h s) header = match apply_header config s header with inl err => inl err | inr s' => inr (stamp n h s') end.
Proof.
  rewrite !apply_header_counted. cbv zeta.
  replace (if num header mod Epoch config =? 0 then with_Tallies ∅ (with_Votes [] (stamp n h s)) else stamp n h s) with (stamp n h (if num header mod Epoch config =? 0 then with_Tallies ∅ (with_Votes [] s) else s)) by (by destruct (_ =? 0)).
  rewrite shift_recents_stamp. set (s1 := shift_recents _ _). destruct (ecrecover header) as [|signer]; [done|]. cbn [Signers Recents stamp]. destruct (negb _); [done|]. destruct (bool_decide _); [done|].
  destruct (vote_of _) as [auth|]; [|done]. f_equal. rewrite <- pass_vote_stamp, <- counted_vote_stamp, <- discard_vote_stamp. done.
Qed.

Lemma apply_headers_stamp n h s headers : apply_headers config (stamp n h s) headers = match apply_headers config s headers with inl err => inl err | inr s' => inr (stamp n h s') end.
Proof. revert s. induction headers as [|hd headers IH]; intros s; cbn; [done|]. rewrite apply_header_stamp. destruct (apply_header config s hd); [done|apply IH]. Qed.
Lemma apply_header_number s header s' : apply_header config s header = inr s' -> s_Number s' = s_Number s.
Proof.
  intros Ha. assert (s = stamp (s_Number s) (s_Hash s) s) as Hs by (by destruct s). rewrite Hs, apply_header_stamp in Ha. destruct (apply_header config s header); [done|]. by injection Ha as <-.
Qed.
Lemma apply_headers_number s headers s' : apply_headers config s headers = inr s' -> s_Number s' = s_Number s.
Proof.
  revert s. induction headers as [|hd headers IH]; intros s Ha; cbn in Ha; [by injection Ha as <-|]. destruct (apply_header config s hd) as [|s1] eqn:H1; [done|].
  rewrite (IH s1 Ha). by apply (apply_header_number s hd).
Qed.
Lemma apply_headers_app s pre post : apply_headers config s (pre ++ post) = match apply_headers config s pre with inl err => inl err | inr m => apply_headers config m post end.
Proof. revert s. induction pre as [|hd pre IH]; intros s; cbn; [done|]. by destruct (apply_header config s hd). Qed.
Lemma contiguous_app n pre post : 0 <= n -> n + zlen pre < 2 ^ 62 -> contiguous n (pre ++ post) = contiguous n pre && contiguous (n + zlen pre) post.
Proof.
  revert n. induction pre as [|hd pre IH]; intros n Hn Hb; cbn [app contiguous]; [by rewrite zlen_nil, Z.add_0_r|]. rewrite zlen_cons in *. pose proof (zlen_nonneg pre).
  rewrite u64_id by (unfold is_u64; lia). destruct (Z.eqb_spec (num hd) (n + 1)) as [->|]; [|done]. rewrite IH by lia. cbn [andb]. do 2 f_equal. lia.
Qed.
(** Headers may be applied in parts. *)
Lemma apply_app s pre post : 0 <= s_Number s -> s_Number s + zlen pre + zlen post < 2 ^ 62 -> contiguous (s_Number s) (pre ++ post) = true ->
  apply config s (pre ++ post) = match apply config s pre with inl err => inl err | inr m => apply config m post end.
Proof.
  intros Hn Hb Hc. pose proof (zlen_nonneg pre) as Hp. pose proof (zlen_nonneg post) as Hq. unfold apply at 1. rewrite last_app, Hc. rewrite contiguous_app in Hc by lia. apply andb_true_iff in Hc as [Hc1 Hc2].
  rewrite apply_headers_app. unfold apply at 1. rewrite Hc1. cbn [negb]. destruct (last pre) as [l|] eqn:Hl.
  - destruct (apply_headers config s pre) as [err|m] eqn:Ha; [by destruct (last post)|]. rewrite (apply_headers_number _ _ _ Ha), u64_id by (unfold is_u64; lia).
    fold (stamp (s_Number s + zlen pre) (Header_Hash l) m). unfold apply. cbn [s_Number stamp]. rewrite Hc2. destruct (last post) as [l'|] eqn:Hl'.
    + cbn [negb]. rewrite apply_headers_stamp. destruct (apply_headers config m post) as [|m'] eqn:Hm; [done|]. f_equal. unfold stamp. cbn. f_equal.
      rewrite (apply_headers_number _ _ _ Hm), (apply_headers_number _ _ _ Ha). f_equal. rewrite zlen_app. lia.
    + apply last_None in Hl' as ->. cbn. rewrite app_nil_r. unfold stamp. rewrite (apply_headers_number _ _ _ Ha), u64_id by (unfold is_u64; lia). done.
  - apply last_None in Hl as ->. cbn. unfold apply. rewrite zlen_nil, Z.add_0_r in Hc2. rewrite Hc2. by destruct (last post).
Qed.

Section snapshots.
Context (known : Z -> Hash -> option Snapshot) (GetHeader : Hash -> Z -> option Header) (GetHeaderByNumber : Z -> option Header).
Context (first_block : Header) (sgs : list Address).
(** The headers of the chain, and those of the parents that are handed over. *)
Fixpoint with_parents (parents : list Header) (h : Hash) (n : Z) : option Header :=
  match parents with
  | [] => GetHeader h n
  | p :: parents => if (Header_Hash p =? h) && (num p =? n) then Some p else with_parents parents h n
  end.
(** The parents, the last one first, are the ancestors of a block. *)
Fixpoint consecutive (n : Z) (h : Hash) (parents : list Header) : Prop :=
  match parents with [] => True | p :: parents => Header_Hash p = h /\ num p = n /\ consecutive (n - 1) (ParentHash p) parents end.
(** All headers of a chain from number 1 up to a block. *)
Fixpoint ancestors (chain : Hash -> Z -> option Header) (n : nat) (h : Hash) (headers : list Header) : option (list Header) :=
  match n with
  | O => Some headers
  | S n' => match chain h (Z.of_nat n) with None => None | Some header => ancestors chain n' (ParentHash header) (header :: headers) end
  end.
(** The snapshot of a block: the signers of the genesis block and all the headers
    since. *)
Definition snapshot_from_genesis (chain : Hash -> Z -> option Header) (number : Z) (h : Hash) : cliqueError + Snapshot :=
  match ancestors chain (Z.to_nat number) h [] with
  | None => inl errUnknownAncestor
  | Some headers => apply config (newSnapshot 0 (Header_Hash first_block) sgs) headers
  end.
(** The chain finds a header by its hash and number, its canonical blocks have no
    gap below them, and the genesis block lists the signers; a snapshot in memory
    or on disk is that of its block. *)
Record chain_laws (parents : list Header) : Prop := {
  cl_header h n header : GetHeader h n = Some header -> Header_Hash header = h /\ num header = n;
  cl_genesis : GetHeaderByNumber 0 = Some first_block;
  cl_signers : checkpoint_signers first_block = Ok sgs;
  cl_gapless n : 0 < n -> GetHeaderByNumber (n - 1) = None -> GetHeaderByNumber n = None;
  cl_known n h s : 0 <= n -> known n h = Some s -> snapshot_from_genesis (with_parents parents) n h = inr s;
}.
Lemma with_parents_header parents h n header : chain_laws parents -> with_parents parents h n = Some header -> Header_Hash header = h /\ num header = n.
Proof.
  intros Hlaws. generalize parents at 1. intros ps. induction ps as [|p ps IH]; cbn; [apply (cl_header _ Hlaws)|].
  destruct (Z.eqb_spec (Header_Hash p) h) as [<-|]; [|exact IH]. destruct (Z.eqb_spec (num p) n) as [<-|]; [|exact IH]. by intros [= <-].
Qed.

Section laws.
Context (P : list Header) (Hlaws : chain_laws P).
Abbreviation chain := (with_parents P).
Abbreviation start := (newSnapshot 0 (Header_Hash first_block) sgs).
Lemma ancestors_app n h headers : ancestors chain n h headers = match ancestors chain n h [] with None => None | Some pre => Some (pre ++ headers) end.
Proof.
  revert h headers. induction n as [|n IH]; intros h headers; [done|]. cbn [ancestors]. destruct (chain h (Z.of_nat (S n))) as [header|]; [|done].
  rewrite IH, (IH (ParentHash header) [header]). destruct (ancestors chain n (ParentHash header) []) as [pre|]; [|done]. by rewrite <- app_assoc.
Qed.
Lemma ancestors_contiguous n h headers hs : Z.of_nat n + zlen headers < 2 ^ 62 -> contiguous (Z.of_nat n) headers = true -> ancestors chain n h headers = Some hs ->
  contiguous 0 hs = true /\ zlen hs = Z.of_nat n + zlen headers.
Proof.
  revert h headers. induction n as [|n IH]; intros h headers Hb Hc Ha; [by injection Ha as <-|]. cbn [ancestors] in Ha. destruct (chain h (Z.of_nat (S n))) as [header|] eqn:Hg; [|done].
  destruct (with_parents_header _ _ _ _ Hlaws Hg) as [_ Hnum]. pose proof (zlen_nonneg headers). destruct (IH (ParentHash header) (header :: headers)) as [H1 H2]; [rewrite zlen_cons; lia| |done|rewrite zlen_cons in H2; split; [done|lia]].
  cbn. rewrite Hnum, u64_id, Hc by (unfold is_u64; lia). rewrite andb_true_r. apply Z.eqb_eq. lia.
Qed.
Lemma base_snapshot_ok n h : 0 <= n < 2 ^ 62 -> exists o, base_snapshot config known GetHeaderByNumber n h = Ok o /\
  match o with Some s => snapshot_from_genesis chain n h = inr s | None => 0 < n end.
Proof.
  intros Hn. unfold base_snapshot. destruct (known n h) as [s|] eqn:Hk; [exists (Some s); split; [done|]; apply (cl_known _ Hlaws); [lia|done]|].
  destruct (Z.eqb_spec n 0) as [->|Hne]; cbn [orb].
  - rewrite (cl_genesis _ Hlaws), (cl_signers _ Hlaws). by eexists.
  - rewrite u64_id by (unfold is_u64; lia). exists None. split; [|lia]. destruct (n mod Epoch config =? 0); [|done]. destruct (bool_decide_reflect (GetHeaderByNumber (n - 1) = None)) as [Hg|]; [|done].
    cbn [andb]. by rewrite (cl_gapless _ Hlaws n ltac:(lia) Hg).
Qed.
(** The search has found the headers since a snapshot, or misses one. *)
Lemma gather_headers_ok fuel n h parents headers : 0 <= n -> n < Z.of_nat fuel -> n + zlen headers < 2 ^ 61 -> consecutive n h parents ->
  (forall h m, m <= n -> chain h m = with_parents parents h m) -> contiguous n headers = true ->
  exists r, gather_headers config known GetHeader GetHeaderByNumber fuel n h parents headers = Ok r /\
    match r with inl err => inl err | inr (s, hs) => apply config s hs end =
    match ancestors chain (Z.to_nat n) h headers with None => inl errUnknownAncestor | Some hs => apply config start hs end.
Proof.
  revert n h parents headers. induction fuel as [|fuel IH]; intros n h parents headers Hn Hf Hb Hp Hchain Hc; [lia|]. cbn [gather_headers]. pose proof (zlen_nonneg headers) as Hz.
  destruct (base_snapshot_ok n h) as ([s|] & -> & Hbase); [lia| |]; cbn [mbind outcome_bind].
  - eexists. split; [reflexivity|]. cbn beta iota. rewrite ancestors_app. unfold snapshot_from_genesis in Hbase. destruct (ancestors chain (Z.to_nat n) h []) as [pre|] eqn:Hpre; [|done].
    destruct (ancestors_contiguous (Z.to_nat n) h headers (pre ++ headers)) as [Hcont Hlen]; [lia|by rewrite Z2Nat.id by lia|by rewrite ancestors_app, Hpre|]. rewrite zlen_app in Hlen.
    rewrite apply_app, Hbase; [done|cbn; lia|cbn; lia|done].
  - assert (exists n', Z.to_nat n = S n' /\ Z.of_nat n' = n - 1) as (n' & Hn' & Hn1) by (exists (Z.to_nat (n - 1)); lia). rewrite u64_id by (unfold is_u64; lia).
    rewrite Hn'. cbn [ancestors]. replace (Z.of_nat (S n')) with n by lia.
    assert (forall header ps, chain h n = Some header -> consecutive (n - 1) (ParentHash header) ps -> (forall h m, m <= n - 1 -> chain h m = with_parents ps h m) ->
      exists r, gather_headers config known GetHeader GetHeaderByNumber fuel (n - 1) (ParentHash header) ps (header :: headers) = Ok r /\
        match r with inl err => inl err | inr (s, hs) => apply config s hs end =
        match ancestors chain n' (ParentHash header) (header :: headers) with None => inl errUnknownAncestor | Some hs => apply config start hs end) as Hnext.
    { intros header ps Hg Hps Hch. destruct (with_parents_header _ _ _ _ Hlaws Hg) as [_ Hnum]. replace n' with (Z.to_nat (n - 1)) by lia. apply IH; [lia|lia|rewrite zlen_cons; lia|done|done|].
      cbn. rewrite Hnum, u64_id, Hc by (unfold is_u64; lia). rewrite andb_true_r. apply Z.eqb_eq. lia. }
    destruct parents as [|header parents].
    + pose proof (Hchain h n ltac:(lia)) as Hg. cbn in Hg. rewrite <- Hg. destruct (chain h n) as [header|] eqn:Hgh; [|by eexists]. apply Hnext; [done|done|]. intros h' m Hm. apply Hchain. lia.
    + destruct Hp as (Hh & Hnum & Hp). rewrite Hh, Hnum, !Z.eqb_refl. cbn [negb orb]. assert (chain h n = Some header) as Hgh by (rewrite Hchain by lia; cbn; by rewrite Hh, Hnum, !Z.eqb_refl).
      rewrite Hgh. apply Hnext; [done|done|]. intros h' m Hm. rewrite Hchain by lia. cbn. rewrite Hnum. destruct (Z.eqb_spec n m); [lia|]. by rewrite andb_false_r.
Qed.
(** A snapshot has the number of its block, and the hash it is found by again. *)
Lemma snapshot_from_genesis_key number hash s : 0 <= number < 2 ^ 61 -> snapshot_from_genesis chain number hash = inr s ->
  s_Number s = number /\ snapshot_from_genesis chain number (s_Hash s) = inr s.
Proof.
  intros Hn Hs. pose proof Hs as Ha. unfold snapshot_from_genesis in Ha. destruct (ancestors chain (Z.to_nat number) hash []) as [hs|] eqn:Hanc; [|done].
  destruct (ancestors_contiguous (Z.to_nat number) hash [] hs) as [Hc Hlen]; [change (zlen []) with 0; lia|done|done|]. change (zlen []) with 0 in Hlen.
  unfold apply in Ha. destruct (last hs) as [l|] eqn:Hl.
  - cbn [s_Number newSnapshot] in Ha. rewrite Hc in Ha. cbn [negb] in Ha. destruct (apply_headers config start hs) as [|m] eqn:Hm; [done|]. injection Ha as Ha.
    assert (s_Number s = number) as HN by (rewrite <- Ha; cbn; rewrite (apply_headers_number _ _ _ Hm); cbn; rewrite u64_id by (unfold is_u64; lia); lia).
    split; [done|]. assert (s_Hash s = Header_Hash l) as -> by (by rewrite <- Ha). assert (Header_Hash l = hash) as ->; [|done].
    destruct (Z.to_nat number) as [|n'] eqn:Hn'; [injection Hanc as <-; done|]. cbn [ancestors] in Hanc. destruct (chain hash (Z.of_nat (S n'))) as [header|] eqn:Hg; [|done].
    destruct (with_parents_header _ _ _ _ Hlaws Hg) as [Hh _]. rewrite ancestors_app in Hanc. destruct (ancestors chain n' (ParentHash header) []) as [pre|]; [|done]. injection Hanc as <-.
    rewrite last_snoc in Hl. by injection Hl as <-.
  - apply last_None in Hl as ->. injection Ha as <-. change (zlen []) with 0 in Hlen. assert (number = 0) as -> by lia. split; reflexivity.
Qed.

(** C31. The caches do not matter: whatever snapshots are at hand in memory or on
    disk, as long as each is that of its block, the search for the snapshot of a
    block ends, with the result of taking the signers of the genesis block and
    applying all the headers from the first one up to the block, or with the
    same error where one of them cannot be applied or is missing. Parents that
    are handed over stand for headers of the chain. The snapshot it finds, which
    is put into the cache under its hash, is again that of its block. The
    numbers are below [2 ^ 61]; the chain finds a header by its hash and number,
    has no gap above its genesis block, and that lists the signers. *)
Theorem snapshot_from_any_cache fuel number hash : 0 <= number < 2 ^ 61 -> number < Z.of_nat fuel -> consecutive number hash P ->
  snapshot config known GetHeader GetHeaderByNumber fuel number hash P = Ok (snapshot_from_genesis chain number hash) /\
  forall s, snapshot_from_genesis chain number hash = inr s -> s_Number s = number /\ snapshot_from_genesis chain number (s_Hash s) = inr s.
Proof.
  intros Hn Hf Hp. split; [|intros s; by apply snapshot_from_genesis_key].
  destruct (gather_headers_ok fuel number hash P []) as (r & Hg & Hr); [lia|done|change (zlen []) with 0; lia|done|done|done|].
  unfold snapshot, snapshot_from_genesis. rewrite Hg, <- Hr. cbn [mbind outcome_bind]. by destruct r as [err|[s headers]].
Qed.
End laws.
End snapshots.
End headers.

(** ** An instance *)

(** The public key is read off the signature, so that the signer is what the
    extra data says. *)
Definition plain_keccak (d : bytes) : bytes := be_enc 32 (be_dec d mod (2 ^ 255 - 19)).
Definition clique_Crypto : Crypto := {|
  keccak := plain_keccak; sha256_Sum256 := fun _ => zeros 32; ripemd160_Sum := fun _ => zeros 20; secp256k1_Ecrecover := fun _ sig => Some sig;
  bn_G1 := unit; bn_G2 := unit; G1_Unmarshal := fun _ => Some tt; G2_Unmarshal := fun _ => Some tt; G1_Add := fun _ _ => tt; G1_ScalarMult := fun _ _ => tt;
  G1_Marshal := fun _ => zeros 64; PairingCheck := fun _ _ => true |}.
Definition signed_header (n signer target : Z) (auth : bool) : Header :=
  mkHeader 0 0 target 0 0 0 (zeros 256) 1 n 0 0 n (zeros 32 ++ be_enc 65 signer) 0 (replicate 8 (if auth then 255 else 0)).
Definition demo_config : CliqueConfig := mkCliqueConfig 15 30000.
(** Two of three signers vote for a fourth. *)
Definition voting : list Header := [signed_header 1 11 99 true].
Definition deciding : Header := signed_header 2 12 99 true.
Definition voted : Snapshot := Eval vm_compute in
  match apply (H := clique_Crypto) demo_config (newSnapshot 0 0 [11; 12; 13]) voting with inr s => s | inl _ => newSnapshot 0 0 [] end.
Definition decided : Snapshot := Eval vm_compute in match apply (H := clique_Crypto) demo_config voted [deciding] with inr s => s | inl _ => newSnapshot 0 0 [] end.
Lemma voted_snapshot : snapshot_of (H := clique_Crypto) demo_config 0 0 [11; 12; 13] voting voted.
Proof. split; [lia|]. split; [vm_compute; reflexivity|]. vm_compute. reflexivity. Qed.
Lemma decided_applies : apply (H := clique_Crypto) demo_config voted [deciding] = inr decided.
Proof. vm_compute. reflexivity. Qed.
Lemma signers_change_by_majority_witness : Signers decided = {[99]} ∪ Signers voted /\ exists votes, 3 < 2 * zlen votes /\ NoDup (map v_Signer votes) /\
  forall v, v ∈ votes -> cast_by (H := clique_Crypto) demo_config 2 (deciding :: voting) v.
Proof.
  destruct (signers_change_by_majority (H := clique_Crypto) demo_config 0 0 [11; 12; 13] voting voted deciding decided voted_snapshot decided_applies) as [HS (votes & Hm & Hnd & Hv)].
  - intros Heq. apply (f_equal size) in Heq. vm_compute in Heq. discriminate Heq.
  - split; [exact HS|]. exists votes. split; [exact Hm|]. split; [exact Hnd|]. intros v Hin. destruct (Hv v Hin) as (_ & _ & _ & Hc). exact Hc.
Defined.
(** A change that has its majority only since there are fewer signers passes when
    a header votes on the account, even one with a vote against it. *)
Definition on_touch : list Header :=
  [signed_header 1 11 13 false; signed_header 2 12 0 false; signed_header 3 13 0 false; signed_header 4 11 14 false; signed_header 5 12 13 false; signed_header 6 13 0 false;
   signed_header 7 11 0 false; signed_header 8 12 14 false; signed_header 9 13 14 false; signed_header 10 11 0 false].
Lemma passes_on_touch : match apply (H := clique_Crypto) demo_config (newSnapshot 0 0 [11; 12; 13; 14]) on_touch with
  | inr s => elements (Signers s) = elements ({[11; 12; 13]} : gset Address) /\
      match apply (H := clique_Crypto) demo_config s [signed_header 11 13 13 true] with inr s' => elements (Signers s') = elements ({[11; 12]} : gset Address) | inl _ => False end
  | inl _ => False end.
Proof. vm_compute. split; reflexivity. Qed.
Lemma signers_take_turns_witness : exists signer, ecrecover (H := clique_Crypto) deciding = inr signer /\ signer ∈ Signers voted /\
  ecrecover (H := clique_Crypto) (signed_header 1 11 99 true) <> inr signer.
Proof.
  destruct (signers_take_turns (H := clique_Crypto) demo_config 0 0 [11; 12; 13] voting voted deciding decided voted_snapshot decided_applies) as (signer & He & Hin & Hturn).
  exists signer. split; [exact He|]. split; [exact Hin|]. apply Hturn; [left|vm_compute; reflexivity].
Defined.

(** Before that many blocks have passed, the verification of a seal lets a recent
    signer through that [apply] rejects: the subtraction wraps around. *)
Definition early : Snapshot := Eval vm_compute in
  match apply (H := clique_Crypto) demo_config (newSnapshot 0 0 [11; 12; 13; 14]) [signed_header 1 11 0 false] with inr s => s | inl _ => newSnapshot 0 0 [] end.
Lemma early_recent_signer_verified :
  snapshot_of (H := clique_Crypto) demo_config 0 0 [11; 12; 13; 14] [signed_header 1 11 0 false] early /\
  clique_verifySeal (H := clique_Crypto) true early (signed_header 2 11 0 false) = Ok None /\
  apply (H := clique_Crypto) demo_config early [signed_header 2 11 0 false] = inl errRecentlySigned.
Proof. split; [split; [lia|]; split; vm_compute; reflexivity|]. split; vm_compute; reflexivity. Qed.

(** A chain of two blocks: the snapshot of the first one is at hand, and the
    second one is handed over. *)
Definition genesis : Header := Eval vm_compute in
  mkHeader 0 0 0 0 0 0 (zeros 256) 1 0 0 0 0 (zeros 32 ++ be_enc 20 11 ++ be_enc 20 12 ++ be_enc 20 13 ++ zeros 65) 0 (zeros 8).
Definition genesis_hash : Hash := Eval vm_compute in Header_Hash (H := clique_Crypto) genesis.
Definition first_header : Header := Eval vm_compute in
  mkHeader genesis_hash 0 99 0 0 0 (zeros 256) 1 1 0 0 1 (zeros 32 ++ be_enc 65 11) 0 (replicate 8 255).
Definition first_hash : Hash := Eval vm_compute in Header_Hash (H := clique_Crypto) first_header.
Definition second_header : Header := Eval vm_compute in
  mkHeader first_hash 0 99 0 0 0 (zeros 256) 1 2 0 0 2 (zeros 32 ++ be_enc 65 12) 0 (replicate 8 255).
Definition second_hash : Hash := Eval vm_compute in Header_Hash (H := clique_Crypto) second_header.
Definition two_blocks (h : Hash) (n : Z) : option Header := if (h =? first_hash) && (n =? 1) then Some first_header else None.
Definition by_number (n : Z) : option Header := if n =? 0 then Some genesis else if n =? 1 then Some first_header else None.
Definition first_snapshot : Snapshot := Eval vm_compute in
  match apply (H := clique_Crypto) demo_config (newSnapshot 0 genesis_hash [11; 12; 13]) [first_header] with inr s => s | inl _ => newSnapshot 0 0 [] end.
Definition one_cached (n : Z) (h : Hash) : option Snapshot := if (n =? 1) && (h =? first_hash) then Some first_snapshot else None.
Lemma two_blocks_laws : chain_laws (H := clique_Crypto) demo_config one_cached two_blocks by_number genesis [11; 12; 13] [second_header].
Proof.
  split.
  - intros h n header. unfold two_blocks. destruct ((h =? first_hash) && (n =? 1)) eqn:Hc; [|discriminate]. apply andb_true_iff in Hc as [->%Z.eqb_eq ->%Z.eqb_eq]. intros [= <-]. split; vm_compute; reflexivity.
  - reflexivity.
  - vm_compute. reflexivity.
  - intros n Hn. unfold by_number. destruct (Z.eqb_spec (n - 1) 0); [discriminate|]. destruct (Z.eqb_spec (n - 1) 1); [discriminate|]. intros _. destruct (Z.eqb_spec n 0); [lia|]. destruct (Z.eqb_spec n 1); [lia|reflexivity].
  - intros n h s _. unfold one_cached. destruct ((n =? 1) && (h =? first_hash)) eqn:Hc; [|discriminate]. apply andb_true_iff in Hc as [->%Z.eqb_eq ->%Z.eqb_eq]. intros [= <-]. vm_compute. reflexivity.
Qed.
Lemma snapshot_from_any_cache_witness : exists s, snapshot (H := clique_Crypto) demo_config one_cached two_blocks by_number 3 2 second_hash [second_header] = Ok (inr s) /\
  s_Number s = 2 /\ 99 ∈ Signers s.
Proof.
  destruct (snapshot_from_any_cache (H := clique_Crypto) demo_config one_cached two_blocks by_number genesis [11; 12; 13] [second_header] two_blocks_laws 3 2 second_hash) as [Hs Hr].
  - lia.
  - lia.
  - split; [vm_compute; reflexivity|]. split; [vm_compute; reflexivity|exact I].
  - destruct (snapshot_from_genesis _ _ _ _ _ _) as [err|s] eqn:Hg; [vm_compute in Hg; discriminate Hg|]. exists s. split; [exact Hs|]. destruct (Hr s eq_refl) as [HN _]. split; [exact HN|].
    vm_compute in Hg. injection Hg as <-. apply (bool_decide_unpack _). vm_compute. exact I.
Defined.
