(* ===== verification/FinaliseProps.v ===== *)
(** * The end of a transaction

    [Finalise] of [core/state/statedb.go] against the trie: what it writes is
    what a fresh state database over the trie reads. The laws of a trie and of
    the decoder of accounts are those of a map and of an inverse. *)

From stdpp Require Import gmap.
From S2P Require Import Prelude CommonMath Rlp RlpSpec StateIface CoreState CoreStateOk ConcreteCrypto Concrete.
Local Open Scope Z_scope.
#[local] Arguments Address_Bytes _ : simpl never.
#[local] Arguments Hash_Bytes _ : simpl never.

(** An account whose fields have their widths. *)
Definition account_range (a : Account) : Prop :=
  is_u64 (Nonce a) /\ is_u256 (Balance a) /\ is_hash (Root a) /\ hash_ok (acc_CodeHash a).

(** The keys and the values that are used: addresses and words, and short
    encodings. *)
Definition trie_key (k : bytes) : Prop := bytes_ok k /\ (length k = 20%nat \/ length k = 32%nat).
Definition value_fits (v : bytes) : Prop := bytes_ok v /\ zlen v < 2 ^ 32.
(** The laws hold for the tries with [good], which the operations keep. *)
Class TrieLaws (T : Type) `{Database T} (good : T -> Prop) : Prop := {
  TryUpdate_good k v t : good t -> trie_key k -> value_fits v -> good (snd (TryUpdate k v t));
  TryUpdate_get k v t t' : good t -> trie_key k -> value_fits v -> TryUpdate k v t = (None, t') -> TryGet t' k = inr v;
  TryUpdate_other k v t t' k' : good t -> trie_key k -> trie_key k' -> length k' = length k -> value_fits v ->
    TryUpdate k v t = (None, t') -> k' <> k -> TryGet t' k' = TryGet t k';
  TryDelete_good k t : good t -> trie_key k -> good (snd (TryDelete k t));
  TryDelete_get k t t' : good t -> trie_key k -> TryDelete k t = (None, t') -> TryGet t' k = inr [];
  TryDelete_other k t t' k' : good t -> trie_key k -> trie_key k' -> length k' = length k ->
    TryDelete k t = (None, t') -> k' <> k -> TryGet t' k' = TryGet t k';
  Trie_Hash_range t : good t -> is_hash (Trie_Hash t);
  DecodeAccount_encode a enc : account_range a -> encode_Account a = Some enc -> DecodeAccount enc = Some a;
}.
Lemma Address_key a : trie_key (Address_Bytes a).
Proof. split; [apply be_enc_ok|]. left. apply length_be_enc. Qed.
Lemma Address_key_length a b : length (Address_Bytes a) = length (Address_Bytes b).
Proof. unfold Address_Bytes. by rewrite !length_be_enc. Qed.
Lemma Hash_key h : trie_key (Hash_Bytes h).
Proof. split; [apply be_enc_ok|]. right. apply length_be_enc. Qed.

(** ** The encoding of an account *)

Definition account_payload (a : Account) : bytes :=
  rlp_string (big_bytes (Nonce a)) ++ rlp_string (big_bytes (Balance a)) ++
  rlp_string (Hash_Bytes (Root a)) ++ rlp_string (acc_CodeHash a).

Lemma rlp_string_short b : zlen b <= 32 -> zlen (rlp_string b) <= 33.
Proof.
  intros Hb. assert (zlen (rlp_head 0x80 0xb7 (zlen b) ++ b) <= 33) as Hh.
  { unfold rlp_head. destruct (Z.ltb_spec (zlen b) 56); [|lia]. rewrite zlen_app, zlen_cons, zlen_nil. lia. }
  unfold rlp_string. destruct b as [|x [|y b]]; [done| |done]. case_match; [done|exact Hh].
Qed.
Lemma account_strings a :
  account_range a -> zlen (big_bytes (Nonce a)) <= 32 /\ zlen (big_bytes (Balance a)) <= 32 /\
    zlen (Hash_Bytes (Root a)) <= 32 /\ zlen (acc_CodeHash a) <= 32.
Proof.
  intros (Hn & Hb & Hr & Hc & Hl). unfold is_u64 in Hn. unfold is_u256 in Hb.
  assert (forall x, 0 <= x < 2 ^ 256 -> zlen (big_bytes x) <= 32) as Hbig.
  { intros x Hx. apply length_big_bytes_le; [lia..|]. change (256 ^ 32) with (2 ^ 256). lia. }
  split_and!; [apply Hbig; lia|apply Hbig; lia| |]; unfold zlen; [|lia]. unfold Hash_Bytes. rewrite length_be_enc. lia.
Qed.
Lemma account_payload_short a : account_range a -> 0 <= zlen (account_payload a) <= 132.
Proof.
  intros (H1 & H2 & H3 & H4)%account_strings. split; [apply zlen_nonneg|]. unfold account_payload. rewrite !zlen_app.
  pose proof (rlp_string_short _ H1). pose proof (rlp_string_short _ H2). pose proof (rlp_string_short _ H3).
  pose proof (rlp_string_short _ H4). lia.
Qed.
Lemma encode_Account_bytes a : account_range a -> encode_Account a = Some (rlp_list (account_payload a)).
Proof.
  intros Ha. pose proof (account_payload_short a Ha) as Hlen. destruct Ha as (Hn & Hb & Hr & Hc & Hl).
  unfold encode_Account.
  assert (rlp (IList [IUint (Nonce a); IBig (Balance a); IBytes (Hash_Bytes (Root a)); IBytes (acc_CodeHash a)])
    = Some (rlp_list (account_payload a))) as Hrlp.
  { cbn [rlp mbind option_bind]. destruct (Z.ltb_spec (Balance a) 0); [unfold is_u256 in Hb; lia|]. cbn [mbind option_bind].
    rewrite app_nil_r. done. }
  apply EncodeToBytes_rlp; [|exact Hrlp|].
  - cbn. split_and!; try done. apply hash_ok_Bytes.
  - unfold rlp_list, rlp_head. rewrite zlen_app. case_match; rewrite ?zlen_cons, ?zlen_nil; [lia|].
    pose proof (zlen_big_bytes_u64 (zlen (account_payload a))) as Hz. apply Z.ltb_ge in H. lia.
Qed.
Lemma rlp_list_nonempty b : (zlen (rlp_list b) =? 0) = false.
Proof.
  unfold rlp_list, rlp_head. apply Z.eqb_neq. case_match; rewrite zlen_app, zlen_cons; pose proof (zlen_nonneg b);
    [rewrite zlen_nil; lia|]. pose proof (zlen_nonneg (big_bytes (zlen b))). lia.
Qed.

(** The decoder of the concrete machine is such an inverse. *)
Lemma demo_decode_encode a enc : account_range a -> encode_Account a = Some enc -> demo_decode enc = Some a.
Proof.
  intros Ha. rewrite (encode_Account_bytes a Ha). intros [= <-]. pose proof (account_payload_short a Ha) as Hlen.
  pose proof (account_strings a Ha) as (L1 & L2 & L3 & L4). pose proof Ha as (Hn & Hb & Hr & Hc & Hl).
  unfold demo_decode, SplitList. rewrite <- (app_nil_r (rlp_list _)), Split_list by (rewrite zlen_nil; lia).
  unfold account_payload. unfold account_payload in Hlen. rewrite !zlen_app in Hlen.
  pose proof (zlen_nonneg (rlp_string (big_bytes (Nonce a)))). pose proof (zlen_nonneg (rlp_string (big_bytes (Balance a)))).
  pose proof (zlen_nonneg (rlp_string (Hash_Bytes (Root a)))). pose proof (zlen_nonneg (rlp_string (acc_CodeHash a))).
  rewrite SplitString_string by (apply big_bytes_ok || (rewrite !zlen_app; lia)).
  rewrite SplitString_string by (apply big_bytes_ok || (rewrite !zlen_app; lia)).
  rewrite SplitString_string by (apply hash_ok_Bytes || (rewrite ?zlen_app; lia)).
  rewrite <- (app_nil_r (rlp_string (acc_CodeHash a))), SplitString_string by (done || rewrite zlen_nil; lia).
  unfold is_u64 in Hn. unfold is_u256 in Hb. unfold is_hash in Hr.
  rewrite !be_dec_big_bytes by lia. unfold Hash_Bytes. rewrite be_dec_enc, Z.mod_small by (change (256 ^ Z.of_nat 32) with (2 ^ 256); lia).
  by destruct a.
Qed.
#[export] Instance demo_TrieLaws : TrieLaws demo_trie (fun _ => True).
Proof.
  split; cbn; try done.
  - intros k v t t' _ _ _ [= <-]. by rewrite lookup_insert_eq.
  - intros k v t t' k' _ _ _ _ _ [= <-] Hne. by rewrite lookup_insert_ne.
  - intros k t t' _ _ [= <-]. by rewrite lookup_delete_eq.
  - intros k t t' k' _ _ _ _ [= <-] Hne. by rewrite lookup_delete_ne.
  - intros t _. apply Z.mod_pos_bound. lia.
  - apply demo_decode_encode.
Qed.

(** ** What the trie has *)

Section finalise.
Context {T : Type} `{Database T} `{Crypto} {CL : CryptoLaws} {DL : DatabaseLaws T}.
Implicit Types (s : stateDB T) (o : stateObject T) (tr : T).

Definition removed_by (deleteEmptyObjects : bool) o : bool := suicided o || (deleteEmptyObjects && empty o).
(** The account of [a] in the trie is the one of the object, or gone. *)
Definition written (d : bool) o tr (a : Address) : Prop :=
  if removed_by d o then stored tr a = None
  else exists x, stored tr a = Some x /\ ac_balance x = Balance (data o) /\ ac_nonce x = Nonce (data o) /\
    ac_codehash x = BytesToHash (acc_CodeHash (data o)).

Lemma stored_ext tr tr' a : TryGet tr' (Address_Bytes a) = TryGet tr (Address_Bytes a) -> stored tr' a = stored tr a.
Proof. intros Hg. unfold stored. by rewrite Hg. Qed.
Lemma Address_Bytes_inj a b : is_address a -> is_address b -> Address_Bytes a = Address_Bytes b -> a = b.
Proof.
  intros Ha Hb Heq. unfold is_address in *. unfold Address_Bytes in Heq. apply (f_equal be_dec) in Heq.
  rewrite !be_dec_enc, !Z.mod_small in Heq by (change (256 ^ Z.of_nat 20) with (2 ^ 160); lia). done.
Qed.

Lemma updateTrie_entries l o tr :
  data (fold_right updateTrie_entry (o, tr) l).1 = data o.
Proof.
  induction l as [|[k v] l IH]; [done|]. cbn [fold_right]. destruct (fold_right updateTrie_entry (o, tr) l) as [o' tr'].
  unfold updateTrie_entry. case_match; [exact IH|]. destruct (if v =? 0 then _ else _) as [err tr'']. cbn.
  unfold object_setError. case_match; exact IH.
Qed.

(** The state with the object at [a] replaced. *)
Definition with_object (a : Address) o s : stateDB T := s_set_objects (<[a := o]> (stateObjects s)) s.

Lemma wp_replace_object PN FU a o f Q s :
  stateObjects s !! a = Some o -> Q tt (with_object a (f o) s) -> wp PN FU (update_object a f) Q s.
Proof. apply wp_update_object. Qed.
Lemma with_object_object a o o' s : with_object a o' (with_object a o s) = with_object a o' s.
Proof. unfold with_object, s_set_objects. cbn. by rewrite insert_insert_eq. Qed.
Lemma with_object_lookup a o s : stateObjects (with_object a o s) !! a = Some o.
Proof. apply lookup_insert_eq. Qed.
Lemma with_object_id a o s : stateObjects s !! a = Some o -> with_object a o s = s.
Proof. intros Ho. unfold with_object, s_set_objects. rewrite insert_id by done. by destruct s. Qed.

Lemma getTrie_object PN FU a o s Q :
  stateObjects s !! a = Some o ->
  (forall o' t, data o' = data o -> dirtyStorage o' = dirtyStorage o -> originStorage o' = originStorage o -> storage_of o = Some t ->
     Q t (with_object a o' s)) -> wp PN FU (getTrie a) Q s.
Proof.
  intros Ho HQ. unfold storage_of in HQ. apply wp_bind. eapply wp_deref; [exact Ho|]. destruct (trie o) as [t|] eqn:Ht.
  { apply wp_ret. rewrite <- (with_object_id a o s Ho). by apply HQ. }
  destruct (OpenStorageTrie _ (Root (data o))) as [err|t] eqn:Hopen.
  - destruct (OpenStorageTrie_empty (addrHash o)) as (t & He & _). rewrite He in HQ |- *. apply wp_bind. eapply wp_of_option; [reflexivity|].
    apply wp_bind. eapply wp_replace_object; [exact Ho|]. apply wp_ret, HQ; [unfold object_setError; by case_match..|done].
  - apply wp_bind. eapply wp_replace_object; [exact Ho|]. by apply wp_ret, HQ.
Qed.
(** The trie does not depend on the rest of the object. *)
Lemma updateTrie_trie l o o' tr :
  originStorage o = originStorage o' ->
  (fold_right updateTrie_entry (o, tr) l).2 = (fold_right updateTrie_entry (o', tr) l).2 /\
  originStorage (fold_right updateTrie_entry (o, tr) l).1 = originStorage (fold_right updateTrie_entry (o', tr) l).1.
Proof.
  intros Ho. induction l as [|[k v] l [IH1 IH2]]; [done|]. cbn [fold_right].
  destruct (fold_right updateTrie_entry (o, tr) l) as [o1 t1], (fold_right updateTrie_entry (o', tr) l) as [o2 t2]. cbn in IH1, IH2. subst t2.
  unfold updateTrie_entry. cbn [originStorage o_dirtyStorage]. rewrite IH2. case_match; [done|].
  destruct (if v =? 0 then _ else _) as [err t]. unfold object_setError. cbn. by repeat case_match; cbn; rewrite ?IH2.
Qed.
(** The storage root of an object when its changes are in the trie. *)
Definition root_after o : Hash :=
  match storage_of o with
  | Some t => Trie_Hash (fold_right updateTrie_entry (o, t) (map_to_list (dirtyStorage o))).2
  | None => 0
  end.
Lemma updateRoot_object PN FU a o s Q :
  stateObjects s !! a = Some o ->
  (forall o', data o' = set_Root (root_after o) (data o) -> Q tt (with_object a o' s)) -> wp PN FU (updateRoot a) Q s.
Proof.
  intros Ho HQ. apply wp_bind, wp_bind. eapply getTrie_object; [exact Ho|]. intros o1 t Hd1 Hs1 Ho1 Hsrc.
  apply wp_bind. eapply wp_deref; [apply with_object_lookup|].
  destruct (fold_right _ (o1, t) _) as [o2 t2] eqn:Hf.
  apply wp_bind. eapply wp_replace_object; [apply with_object_lookup|]. apply wp_ret.
  rewrite with_object_object. eapply wp_replace_object; [apply with_object_lookup|]. rewrite with_object_object.
  apply HQ. unfold root_after. rewrite Hsrc, <- Hs1, (proj1 (updateTrie_trie _ o o1 t (eq_sym Ho1))), Hf. cbn.
  pose proof (updateTrie_entries (map_to_list (dirtyStorage o1)) o1 t) as Hd2. rewrite Hf in Hd2. cbn in Hd2. by rewrite Hd2, Hd1.
Qed.

(** [Finalise] panics on a dirty account without an object, and on one that cannot
    be encoded. *)
Definition finalise_panic (r : reason) : Prop := r = TypeAssertion \/ r = Msg "can't encode object".

Context {good : T -> Prop} {TL : TrieLaws T good}.

(** The storage of an object can be written. *)
Definition storage_good o : Prop :=
  (forall t, storage_of o = Some t -> good t) /\ (forall k v, dirtyStorage o !! k = Some v -> is_hash v).
Lemma storage_value_fits v : is_hash v -> value_fits (default [] (EncodeToBytes (IBytes (big_bytes v)))).
Proof.
  intros Hv. unfold is_hash in Hv. assert (zlen (big_bytes v) <= 32) as Hl.
  { apply length_big_bytes_le; [lia..|]. change (256 ^ 32) with (2 ^ 256). lia. }
  pose proof (rlp_string_short _ Hl) as Hs. rewrite (EncodeToBytes_rlp (IBytes (big_bytes v)) (rlp_string (big_bytes v))); [|apply big_bytes_ok|done|lia].
  split; [apply rlp_string_bytes; [apply big_bytes_ok|lia]|]. change (zlen (rlp_string (big_bytes v)) < 2 ^ 32). lia.
Qed.
Lemma updateTrie_good l o tr :
  (forall k v, (k, v) ∈ l -> is_hash v) -> good tr -> good (fold_right updateTrie_entry (o, tr) l).2.
Proof.
  intros Hl Htr. induction l as [|[k v] l IH]; [done|]. cbn [fold_right].
  assert (good (fold_right updateTrie_entry (o, tr) l).2) as Hg by (apply IH; intros k' v' Hin; apply (Hl k'); by right).
  destruct (fold_right updateTrie_entry (o, tr) l) as [o' tr']. cbn [snd] in Hg. unfold updateTrie_entry. case_match; [done|].
  destruct (if v =? 0 then _ else _) as [err tr''] eqn:He. cbn [snd]. destruct (v =? 0).
  - pose proof (TryDelete_good (Hash_Bytes k) tr' Hg (Hash_key k)) as Hd. by rewrite He in Hd.
  - pose proof (TryUpdate_good (Hash_Bytes k) _ tr' Hg (Hash_key k) (storage_value_fits v (Hl k v ltac:(left)))) as Hd. by rewrite He in Hd.
Qed.
Lemma root_after_range o : storage_good o -> is_hash (root_after o).
Proof.
  intros [Hg Hv]. unfold root_after. destruct (storage_of o) as [t|] eqn:Ht; [|done]. apply Trie_Hash_range, updateTrie_good; [|by apply Hg].
  intros k v Hin. apply elem_of_map_to_list in Hin. by apply (Hv k).
Qed.
Lemma account_fits a : account_range a -> value_fits (rlp_list (account_payload a)).
Proof.
  intros Ha. pose proof (account_payload_short a Ha) as Hl. destruct Ha as (Hn & Hb & Hr & Hc & Hlc). split.
  - apply rlp_list_bytes; [|lia]. unfold account_payload. unfold account_payload in Hl. rewrite !zlen_app in Hl.
    pose proof (zlen_rlp_string (big_bytes (Nonce a))). pose proof (zlen_rlp_string (big_bytes (Balance a))).
    pose proof (zlen_rlp_string (Hash_Bytes (Root a))). pose proof (zlen_rlp_string (acc_CodeHash a)).
    pose proof (zlen_nonneg (big_bytes (Nonce a))). pose proof (zlen_nonneg (big_bytes (Balance a))).
    pose proof (zlen_nonneg (Hash_Bytes (Root a))). pose proof (zlen_nonneg (acc_CodeHash a)).
    unfold bytes_ok. rewrite !Forall_app. split_and!; apply rlp_string_bytes; try lia; [apply big_bytes_ok..|apply hash_ok_Bytes|done].
  - unfold rlp_list, rlp_head. rewrite zlen_app. destruct (Z.ltb_spec (zlen (account_payload a)) 56); rewrite zlen_cons; [rewrite zlen_nil; lia|].
    pose proof (zlen_big_bytes_u64 (zlen (account_payload a)) ltac:(lia)). lia.
Qed.

(** What is written for an account. *)
Definition account_value o : bytes := rlp_list (account_payload (set_Root (root_after o) (data o))).
Definition write_account d (a : Address) o tr : option Z * T :=
  if removed_by d o then TryDelete (Address_Bytes a) tr else TryUpdate (Address_Bytes a) (account_value o) tr.
Lemma account_range_after o : account_range (data o) -> storage_good o -> account_range (set_Root (root_after o) (data o)).
Proof. intros (? & ? & _ & ?) Hs. split_and!; try done. by apply root_after_range. Qed.
Lemma Finalise_account_runs d a o s :
  stateObjects s !! a = Some o -> account_range (data o) -> storage_good o ->
  wp never False (Finalise_account d a) (fun _ s' =>
    (exists o', stateObjects s' = <[a := o']> (stateObjects s)) /\ s_journal s' = s_journal s /\
    s_trie s' = snd (write_account d a o (s_trie s)) /\
    (s_dbErr s' = None -> s_dbErr s = None /\ fst (write_account d a o (s_trie s)) = None)) s.
Proof.
  intros Ho Hr Hsg. unfold Finalise_account. apply wp_bind, wp_gets, wp_bind. eapply wp_of_option; [exact Ho|].
  unfold write_account. fold (removed_by d o). apply wp_bind. destruct (removed_by d o) eqn:Hrm.
  - apply wp_bind. eapply wp_replace_object; [exact Ho|]. apply wp_bind, wp_gets. cbn [s_trie with_object s_set_objects].
    destruct (TryDelete (Address_Bytes a) (s_trie s)) as [err tr]. apply wp_bind, wp_modify. apply wp_modify, wp_modify.
    destruct (s_dbErr s) as [e|] eqn:He; cbn; rewrite He; cbn; (split; [by eexists|]; split; [done|]; split; [done|]); [by rewrite He|].
    by intros ->%fmap_None.
  - apply wp_bind. eapply updateRoot_object; [exact Ho|]. intros o' Hdata. pose proof (account_range_after o Hr Hsg) as Hr'. rewrite <- Hdata in Hr'.
    apply wp_bind. eapply wp_deref; [apply with_object_lookup|]. apply wp_bind.
    eapply wp_of_option; [apply (encode_Account_bytes _ Hr')|]. apply wp_bind, wp_gets. cbn [s_trie with_object s_set_objects]. rewrite Hdata.
    fold (account_value o). destruct (TryUpdate (Address_Bytes a) (account_value o) (s_trie s)) as [err tr].
    apply wp_bind, wp_modify. apply wp_modify, wp_modify.
    destruct (s_dbErr s) as [e|] eqn:He; cbn; rewrite He; cbn; (split; [by eexists|]; split; [done|]; split; [done|]); [by rewrite He|].
    by intros ->%fmap_None.
Qed.
Lemma write_account_good d a o tr :
  account_range (data o) -> storage_good o -> good tr -> good (snd (write_account d a o tr)).
Proof.
  intros Hr Hsg Hg. unfold write_account. destruct (removed_by d o); [by apply TryDelete_good; [|apply Address_key]|].
  apply TryUpdate_good; [done|apply Address_key|]. by apply account_fits, account_range_after.
Qed.
Lemma write_account_written d a o tr :
  account_range (data o) -> storage_good o -> good tr -> fst (write_account d a o tr) = None ->
  written d o (snd (write_account d a o tr)) a /\
  forall k, trie_key k -> length k = 20%nat -> k <> Address_Bytes a -> TryGet (snd (write_account d a o tr)) k = TryGet tr k.
Proof.
  intros Hr Hsg Hg. assert (forall k : bytes, length k = 20%nat -> length k = length (Address_Bytes a)) as Hlen.
  { intros k Hk. unfold Address_Bytes. by rewrite length_be_enc. }
  pose proof (account_range_after o Hr Hsg) as Hr'. unfold write_account, written. destruct (removed_by d o).
  - destruct (TryDelete (Address_Bytes a) tr) as [err tr'] eqn:Hd. cbn. intros ->. split.
    + unfold stored. by rewrite (TryDelete_get _ _ _ Hg (Address_key a) Hd).
    + intros k Hk Hl. by apply (TryDelete_other (Address_Bytes a)); [|apply Address_key|..]; auto.
  - pose proof (account_fits _ Hr') as Hfit. fold (account_value o) in Hfit.
    destruct (TryUpdate (Address_Bytes a) (account_value o) tr) as [err tr'] eqn:Hd. cbn. intros ->. split.
    + unfold stored. rewrite (TryUpdate_get _ _ _ _ Hg (Address_key a) Hfit Hd). unfold account_value.
      rewrite rlp_list_nonempty, (DecodeAccount_encode _ _ Hr' (encode_Account_bytes _ Hr')). eexists. split; [reflexivity|].
      destruct Hr' as (_ & _ & _ & _ & Hl). unfold acct_of, newObject. cbn in *. unfold zlen. by rewrite Hl.
    + intros k Hk Hl. by apply (TryUpdate_other (Address_Bytes a) (account_value o)); [|apply Address_key|..]; auto.
Qed.
(** One account goes to the trie. *)
Lemma Finalise_account_ok d a o s :
  stateObjects s !! a = Some o -> account_range (data o) -> storage_good o -> good (s_trie s) ->
  wp never False (Finalise_account d a) (fun _ s' =>
    (exists o', stateObjects s' = <[a := o']> (stateObjects s)) /\ s_journal s' = s_journal s /\ good (s_trie s') /\
    (s_dbErr s' = None -> s_dbErr s = None /\ written d o (s_trie s') a /\
       forall k, trie_key k -> length k = 20%nat -> k <> Address_Bytes a -> TryGet (s_trie s') k = TryGet (s_trie s) k)) s.
Proof.
  intros Ho Hr Hsg Hg. eapply wp_mono; [by apply (Finalise_account_runs d a o)|]. intros [] s' (Hobjs & Hj & Ht & He).
  split; [done|]. split; [done|]. rewrite Ht. split; [by apply write_account_good|]. intros Hn. destruct (He Hn) as [Hn0 Hw].
  split; [done|]. by apply write_account_written.
Qed.

(** An account that can be written. *)
Definition writable s (a : Address) : Prop :=
  is_address a /\ exists o, stateObjects s !! a = Some o /\ account_range (data o) /\ storage_good o.

Lemma Finalise_accounts_ok d l s :
  NoDup l -> Forall (writable s) l -> good (s_trie s) ->
  wp never False (Finalise_accounts d l) (fun _ s' =>
    good (s_trie s') /\
    (s_dbErr s' = None -> s_dbErr s = None /\
      (forall a o, a ∈ l -> stateObjects s !! a = Some o -> written d o (s_trie s') a) /\
      forall k, trie_key k -> length k = 20%nat -> (forall a, a ∈ l -> k <> Address_Bytes a) -> TryGet (s_trie s') k = TryGet (s_trie s) k)) s.
Proof.
  revert s. induction l as [|a l IH]; intros s Hnd Hw Hg; cbn [Finalise_accounts].
  { apply wp_ret. split; [done|]. intros Hn. split_and!; try done. by intros a o Hin%elem_of_nil. }
  apply NoDup_cons in Hnd as [Hnin Hnd]. apply Forall_cons in Hw as [(Haddr & o & Ho & Hr & Hsg) Hw].
  apply wp_bind. eapply wp_mono; [by apply (Finalise_account_ok d a o)|]. intros [] s1 ([o1 Hobjs] & _ & Hg1 & Hone).
  assert (forall b, b ∈ l -> stateObjects s1 !! b = stateObjects s !! b) as Hsame.
  { intros b Hb. rewrite Hobjs. apply lookup_insert_ne. intros ->. done. }
  assert (Forall (writable s1) l) as Hw1.
  { rewrite Forall_forall in Hw |- *. intros b Hb. destruct (Hw b Hb) as (Hab & ob & Hob & Hrb). split; [done|].
    exists ob. by rewrite Hsame. }
  eapply wp_mono; [by apply IH|]. intros [] s2 [Hg2 Hrest]. split; [done|]. intros Hn. destruct (Hrest Hn) as (Hn1 & Hwr & Hother).
  destruct (Hone Hn1) as (Hn0 & Ha & Hkeep). split; [done|]. split.
  - intros b ob [->|Hb]%elem_of_cons Hob.
    + rewrite Ho in Hob. injection Hob as <-. unfold written in Ha |- *. rewrite (stored_ext (s_trie s1) (s_trie s2)); [done|].
      apply Hother; [apply Address_key|apply length_be_enc|]. intros b Hb Heq. rewrite Forall_forall in Hw. destruct (Hw b Hb) as [Hab _].
      by rewrite (Address_Bytes_inj a b Haddr Hab Heq) in Hnin.
    + apply Hwr; [done|]. by rewrite Hsame.
  - intros k Hkk Hkl Hk. rewrite Hother by (done || intros b Hb; apply Hk; by right). apply Hkeep; [done..|]. apply Hk. left.
Qed.

(** The tries the accounts are written to, one after the other. *)
Definition write_accounts d (objs : gmap Z (stateObject T)) (l : list Address) tr : T :=
  foldl (fun tr a => match objs !! a with Some o => snd (write_account d a o tr) | None => tr end) tr l.
Lemma Finalise_accounts_runs d l s :
  NoDup l -> Forall (writable s) l ->
  wp never False (Finalise_accounts d l) (fun _ s' => s_trie s' = write_accounts d (stateObjects s) l (s_trie s)) s.
Proof.
  revert s. induction l as [|a l IH]; intros s Hnd Hw; cbn [Finalise_accounts]; [by apply wp_ret|].
  apply NoDup_cons in Hnd as [Hnin Hnd]. apply Forall_cons in Hw as [(Haddr & o & Ho & Hr & Hsg) Hw].
  apply wp_bind. eapply wp_mono; [by apply (Finalise_account_runs d a o)|]. intros [] s1 ([o1 Hobjs] & _ & Ht & _).
  assert (forall b, b ∈ l -> stateObjects s1 !! b = stateObjects s !! b) as Hsame.
  { intros b Hb. rewrite Hobjs. apply lookup_insert_ne. intros ->. done. }
  eapply wp_mono; [apply IH; [done|]|].
  { rewrite Forall_forall in Hw |- *. intros b Hb. destruct (Hw b Hb) as (Hab & ob & Hob & Hrb). split; [done|]. exists ob. by rewrite Hsame. }
  intros [] s2 ->. unfold write_accounts. cbn [foldl]. rewrite Ho, Ht. clear -Hsame.
  generalize (snd (write_account d a o (s_trie s))) as tr. induction l as [|b l IHl]; intros tr; [done|]. cbn [foldl].
  rewrite (Hsame b) by left. apply IHl. intros b' Hb'. apply Hsame. by right.
Qed.

(** At the end of a transaction every account it has changed is in the
    trie: a fresh state database over the trie shows its balance, nonce and
    code hash, unless it has destroyed itself or is empty and the empty ones are
    to be deleted, and then it is gone; the other accounts are as they were. If
    the trie has failed, the error is recorded. *)
Theorem Finalise_persists d s :
  (forall a n, dirties (s_journal s) !! a = Some n -> writable s a) -> good (s_trie s) ->
  wp never False (Finalise d) (fun _ s' =>
    entries (s_journal s') = [] /\ good (s_trie s') /\
    (s_dbErr s' = None -> forall a, is_address a ->
       match dirties (s_journal s) !! a with
       | Some _ => forall o, stateObjects s !! a = Some o -> written d o (s_trie s') a
       | None => stored (s_trie s') a = stored (s_trie s) a
       end)) s.
Proof.
  intros Hd Hg. apply wp_bind, wp_gets, wp_bind.
  assert (forall a, a ∈ map fst (map_to_list (dirties (s_journal s))) <-> is_Some (dirties (s_journal s) !! a)) as Hin.
  { intros a. change (a ∈ (map_to_list (dirties (s_journal s))).*1 <-> is_Some (dirties (s_journal s) !! a)).
    rewrite list_elem_of_fmap. split.
    - intros ([b n] & -> & Hb%elem_of_map_to_list). by exists n.
    - intros [n Hn]. exists (a, n). by rewrite elem_of_map_to_list. }
  eapply wp_mono; [apply Finalise_accounts_ok|].
  - apply (NoDup_fst_map_to_list (dirties (s_journal s))).
  - apply Forall_forall. intros a [n Hn]%Hin. by eapply Hd.
  - done.
  - intros [] s' [Hg' Hall]. apply wp_modify. cbn. split; [done|]. split; [done|]. intros Hn a Ha. destruct (Hall Hn) as (_ & Hwr & Hother).
    destruct (dirties (s_journal s) !! a) as [n|] eqn:Hda.
    + intros o Ho. apply Hwr; [|done]. by apply Hin; rewrite Hda.
    + apply stored_ext, Hother; [apply Address_key|apply length_be_enc|]. intros b Hb%Hin Heq. destruct Hb as [n Hb]. destruct (Hd b n Hb) as [Hab _].
      rewrite (Address_Bytes_inj a b Ha Hab Heq) in Hda. congruence.
Qed.
End finalise.

(** The accounts of the concrete state are written. *)
Definition writableb (s : demo_state) (a : Address) : bool :=
  (0 <=? a) && (a <? 2 ^ 160) &&
  match stateObjects s !! a with
  | Some o =>
      (0 <=? Nonce (data o)) && (Nonce (data o) <? 2 ^ 64) && (0 <=? Balance (data o)) && (Balance (data o) <? 2 ^ 256) &&
      (0 <=? Root (data o)) && (Root (data o) <? 2 ^ 256) &&
      forallb (fun b => (0 <=? b) && (b <? 256)) (acc_CodeHash (data o)) && (length (acc_CodeHash (data o)) =? 32)%nat &&
      forallb (fun p => (0 <=? p.2) && (p.2 <? 2 ^ 256)) (map_to_list (dirtyStorage o))
  | None => false
  end.
Lemma writableb_ok s a : writableb s a = true -> writable (good := fun _ => True) s a.
Proof.
  unfold writableb. destruct (stateObjects s !! a) as [o|] eqn:Ho; [|by rewrite andb_false_r].
  rewrite !andb_true_iff, !Z.leb_le, !Z.ltb_lt, Nat.eqb_eq, !forallb_forall. intros [Ha [[[Hn Hc] Hl] Hd]].
  unfold writable, storage_good, is_address, account_range, is_u64, is_u256, is_hash, hash_ok. split; [lia|]. exists o. split; [done|].
  split; [|split; [done|]].
  - split; [lia|]. split; [lia|]. split; [lia|]. split; [|done]. apply Forall_forall. intros b Hb.
    apply list_elem_of_In, Hc in Hb. rewrite andb_true_iff, Z.leb_le, Z.ltb_lt in Hb. exact Hb.
  - intros k v Hv. specialize (Hd (k, v)). rewrite andb_true_iff, Z.leb_le, Z.ltb_lt in Hd.
    apply Hd, list_elem_of_In, elem_of_map_to_list. done.
Qed.
Lemma forallb_keys (m : gmap Z Z) (f : Z -> bool) :
  forallb (fun p => f p.1) (map_to_list m) = true -> forall a n, m !! a = Some n -> f a = true.
Proof.
  intros Hb a n Hn. rewrite forallb_forall in Hb. apply (Hb (a, n)). by apply list_elem_of_In, elem_of_map_to_list.
Qed.
Lemma demo_writable a n : dirties (s_journal demo_db) !! a = Some n -> writable (good := fun _ => True) demo_db a.
Proof.
  intros Hn. apply writableb_ok. revert a n Hn. apply forallb_keys. vm_compute. reflexivity.
Qed.
Definition end_state {S A} (default : S) (x : outcome (A * S)) : S := match x with Ok (_, s) => s | _ => default end.
Definition finalised_db : demo_state := end_state demo_db (Finalise (T := demo_trie) true demo_db).
Lemma demo_finalises : match Finalise true demo_db with Ok _ => true | _ => false end = true.
Proof. vm_compute. reflexivity. Qed.
Lemma demo_no_error : s_dbErr finalised_db = None.
Proof. vm_compute. reflexivity. Qed.
Lemma alice_dirty : exists n o, dirties (s_journal demo_db) !! alice = Some n /\ stateObjects demo_db !! alice = Some o /\
  removed_by true o = false /\ Balance (data o) = 10 ^ 18.
Proof. do 2 eexists. split_and!; vm_compute; reflexivity. Qed.

Lemma Finalise_persists_witness :
  exists x, stored (s_trie finalised_db) alice = Some x /\ ac_balance x = 10 ^ 18.
Proof.
  pose proof (Finalise_persists true demo_db demo_writable Logic.I) as Hw. unfold wp in Hw.
  pose proof demo_finalises as Hf. pose proof demo_no_error as Hn. unfold finalised_db, end_state in *.
  destruct (Finalise true demo_db) as [[[] s]| |]; [|by destruct (diff_false_true Hf)..].
  destruct Hw as (_ & _ & Hw). specialize (Hw Hn alice ltac:(split; [discriminate|reflexivity])).
  destruct alice_dirty as (n & o & Hd & Ho & Hrm & Hb). rewrite Hd in Hw. specialize (Hw o Ho). unfold written in Hw.
  rewrite Hrm in Hw. destruct Hw as (x & Hx & Hbal & _). exists x. split; [exact Hx|]. rewrite Hbal. exact Hb.
Defined.
