(* ===== verification/StateDirty.v ===== *)
(** * The dirty accounts

    The journal of [core/state/journal.go] counts the changes of every account,
    and [Finalise] of [core/state/statedb.go] goes through the accounts that
    have some. The counts are right, and every account with changes has an
    object: the one exception is the account at address 3, which stays dirty
    when a touch of it is undone. So that is the only account on which
    [Finalise] can panic at the end of a transaction. *)

From stdpp Require Import gmap.
From S2P Require Import Prelude CommonMath Rlp RlpSpec StateIface CoreState CoreStateOk ConcreteCrypto Concrete FinaliseProps.
Local Open Scope Z_scope.

Section dirty.
Context {T : Type} `{Database T} `{Crypto} {CL : CryptoLaws} {DL : DatabaseLaws T}.
Implicit Types s : stateDB T.

(** There is an object at the address that is not deleted. *)
Definition live s (a : Address) : Prop := exists o, stateObjects s !! a = Some o /\ deleted o = false.
(** The changes of an account among journal entries. *)
Definition changes (a : Address) (es : list (journalEntry T)) : nat := length (filter (fun ch => dirtied ch = Some a) es).
(** The state when the journal is down to [es]. *)
Record dirty_for (es : list (journalEntry T)) s : Prop := {
  df_count a : a <> ripemd -> dirties (s_journal s) !! a = if Nat.eqb (changes a es) 0 then None else Some (Z.of_nat (changes a es));
  df_live a : (0 < changes a es)%nat -> live s a;
  df_created es1 a es2 : es = es1 ++ createObjectChange a :: es2 -> changes a es1 = O;
  df_reset o : resetObjectChange o ∈ es -> deleted o = false;
}.
Definition dirty_ok s : Prop := dirty_for (entries (s_journal s)) s.

Lemma changes_app a es1 es2 : changes a (es1 ++ es2) = (changes a es1 + changes a es2)%nat.
Proof. unfold changes. by rewrite filter_app, length_app. Qed.
Lemma changes_one a ch : changes a [ch] = if decide (dirtied ch = Some a) then 1%nat else O.
Proof. unfold changes. rewrite filter_cons. by destruct (decide (dirtied ch = Some a)). Qed.

(** ** Steps that make no journal entry *)

Definition grows s s' : Prop := s_journal s' = s_journal s /\ forall a, live s a -> live s' a.
Lemma grows_refl s : grows s s.
Proof. done. Qed.
Lemma grows_trans s1 s2 s3 : grows s1 s2 -> grows s2 s3 -> grows s1 s3.
Proof. intros [H1 H2] [H3 H4]. split; [congruence|auto]. Qed.
Lemma grows_for es s s' : grows s s' -> dirty_for es s -> dirty_for es s'.
Proof. intros [Hj Hl] [Hc Hv Hn Hr]. split; [by rewrite Hj|auto..]. Qed.
Lemma grows_ok s s' : grows s s' -> dirty_ok s -> dirty_ok s'.
Proof. intros Hg. unfold dirty_ok. rewrite (proj1 Hg). by apply grows_for. Qed.
Lemma grows_same s s' : s_journal s' = s_journal s -> stateObjects s' = stateObjects s -> grows s s'.
Proof. intros Hj Ho. split; [done|]. intros a. unfold live. by rewrite Ho. Qed.
Lemma live_insert s a o b : deleted o = false -> live s b -> live (s_set_objects (<[a := o]> (stateObjects s)) s) b.
Proof.
  intros Hd (x & Hx & Hdx). unfold live. cbn. destruct (decide (a = b)) as [->|Hne]; [exists o; by rewrite lookup_insert_eq|exists x; by rewrite lookup_insert_ne].
Qed.

(** All that is asked here is what holds when an operation returns. *)
Abbreviation any := (fun _ : reason => True).
Abbreviation after m Q s := (wp any True m Q s).
Ltac step :=
  lazymatch goal with
  | |- wp _ _ (mbind _ _) _ _ => apply wp_bind
  | |- wp _ _ (mret _) _ _ => apply wp_ret
  | |- wp _ _ (gets _) _ _ => apply wp_gets
  | |- wp _ _ (modify _) _ _ => apply wp_modify
  | |- wp _ _ (StateDB_setError _) _ _ => apply wp_modify
  | |- wp _ _ (setStateObject _) _ _ => apply wp_modify
  | |- wp _ _ (journal_append _) _ _ => apply wp_modify
  | |- wp _ _ (journal_dirty _) _ _ => apply wp_modify
  | |- wp _ _ (when _ _) _ _ => apply wp_when; intros ?
  end.
Lemma after_option {A} r (o : option A) (Q : A -> stateDB T -> Prop) s : (forall x, o = Some x -> Q x s) -> after (of_option r o) Q s.
Proof. intros HQ. destruct o as [x|]; [by apply HQ|done]. Qed.
Lemma setError_grows err s : grows s (match s_dbErr s with None => s_set_dbErr err s | Some _ => s end).
Proof. by destruct (s_dbErr s). Qed.
Lemma after_getStateObject a s (Q : option (stateObject T) -> stateDB T -> Prop) :
  (forall so s', grows s s' -> match so with Some o => stateObjects s' !! a = Some o /\ deleted o = false | None => ~ live s' a end -> Q so s') -> after (getStateObject a) Q s.
Proof.
  intros HQ. unfold getStateObject. do 2 step. destruct (stateObjects s !! a) as [o|] eqn:Ho.
  { step. apply HQ; [done|]. destruct (deleted o) eqn:Hd; [|done]. intros (x & Hx & Hdx). rewrite Ho in Hx. injection Hx as <-. congruence. }
  assert (forall s', stateObjects s' = stateObjects s -> ~ live s' a) as Hn by (intros s' Hs' (x & Hx & _); rewrite Hs', Ho in Hx; done).
  do 2 step. destruct (TryGet _ _) as [err|enc].
  { do 3 step. apply HQ; [apply setError_grows|]. apply Hn. by destruct (s_dbErr s). }
  destruct (zlen enc =? 0); [step; apply HQ; [done|by apply Hn]|]. destruct (DecodeAccount enc) as [d|]; [|step; apply HQ; [done|by apply Hn]].
  do 3 step. apply HQ; [|cbn; by rewrite lookup_insert_eq]. split; [done|]. intros b. by apply live_insert.
Qed.
Lemma after_update_object a f s (Q : unit -> stateDB T -> Prop) : (forall o, deleted (f o) = deleted o) -> (forall s', grows s s' -> Q tt s') -> after (update_object a f) Q s.
Proof.
  intros Hf HQ. unfold update_object, deref. do 3 step. apply after_option. intros o Ho. step. apply HQ. split; [done|]. intros b (x & Hx & Hdx). unfold live. cbn.
  destruct (decide (a = b)) as [<-|Hne]; [|exists x; by rewrite lookup_insert_ne]. exists (f o). rewrite lookup_insert_eq, Hf. rewrite Ho in Hx. injection Hx as <-. done.
Qed.
Lemma after_deref a s (Q : stateObject T -> stateDB T -> Prop) : (forall o, stateObjects s !! a = Some o -> Q o s) -> after (deref a) Q s.
Proof. intros HQ. unfold deref. do 2 step. by apply after_option. Qed.
Lemma object_setError_deleted err (o : stateObject T) : deleted (object_setError err o) = deleted o.
Proof. unfold object_setError. by destruct (dbErr o). Qed.
Lemma after_getTrie a s (Q : T -> stateDB T -> Prop) : (forall t s', grows s s' -> Q t s') -> after (getTrie a) Q s.
Proof.
  intros HQ. unfold getTrie. step. apply after_deref. intros o _. destruct (trie o); [step; by apply HQ|]. destruct (OpenStorageTrie _ (Root _)).
  - step. apply after_option. intros t _. step. apply after_update_object; [intros x; by rewrite object_setError_deleted|]. intros s' Hg. step. by apply HQ.
  - step. apply after_update_object; [done|]. intros s' Hg. step. by apply HQ.
Qed.
Lemma after_GetCommittedState a k s (Q : Hash -> stateDB T -> Prop) : (forall v s', grows s s' -> Q v s') -> after (stateObject_GetCommittedState a k) Q s.
Proof.
  intros HQ. unfold stateObject_GetCommittedState. step. apply after_deref. intros o _. destruct (originStorage o !! k); [step; by apply HQ|].
  step. apply after_getTrie. intros t s1 H1. destruct (TryGet t (Hash_Bytes k)) as [err|enc].
  - step. apply after_update_object; [apply object_setError_deleted|]. intros s2 H2. step. apply HQ. by eapply grows_trans.
  - step. eapply wp_mono with (Q := fun _ s2 => grows s s2).
    + destruct (0 <? zlen enc); [|by step]. destruct (Split enc) as [|[[? ?] ?]]; [|by step]. step. apply after_update_object; [apply object_setError_deleted|]. intros s2 H2. step. by eapply grows_trans.
    + intros v s2 H2. step. apply after_update_object; [done|]. intros s3 H3. step. apply HQ. by eapply grows_trans.
Qed.
Lemma after_GetState a k s (Q : Hash -> stateDB T -> Prop) : (forall v s', grows s s' -> Q v s') -> after (stateObject_GetState a k) Q s.
Proof. intros HQ. unfold stateObject_GetState. step. apply after_deref. intros o _. destruct (dirtyStorage o !! k); [step; by apply HQ|by apply after_GetCommittedState]. Qed.
Lemma after_Code a s (Q : bytes -> stateDB T -> Prop) : (forall c s', grows s s' -> Q c s') -> after (stateObject_Code a) Q s.
Proof.
  intros HQ. unfold stateObject_Code. step. apply after_deref. intros o _. destruct (negb _); [step; by apply HQ|]. destruct (bytes_eqb _ _); [step; by apply HQ|].
  destruct (ContractCode _ _) as [c err]. step. apply after_update_object; [|intros s' Hg; step; by apply HQ]. intros x. cbn. destruct err; [apply object_setError_deleted|done].
Qed.

(** ** Journal entries *)

Record appended (ch : journalEntry T) s s' : Prop := {
  ap_entries : entries (s_journal s') = entries (s_journal s) ++ [ch];
  ap_dirties a : a <> ripemd -> dirties (s_journal s') !! a = match dirtied ch with Some b => bump 1 b (dirties (s_journal s)) | None => dirties (s_journal s) end !! a;
  ap_live a : live s a \/ dirtied ch = Some a -> live s' a;
  ap_created a : ch = createObjectChange a -> ~ live s a;
  ap_reset o : ch = resetObjectChange o -> deleted o = false;
}.
Lemma appended_ok ch s s' : appended ch s s' -> dirty_ok s -> dirty_ok s'.
Proof.
  intros [He Hd Hl Hn Hr] [Hc Hv Hcr Hre]. unfold dirty_ok. rewrite He. split.
  - intros a Ha. rewrite changes_app, changes_one, (Hd a Ha). pose proof (Hc a Ha) as Hca. destruct (dirtied ch) as [b|] eqn:Hch.
    + unfold bump. destruct (decide (Some b = Some a)) as [[= ->]|Hne].
      * rewrite lookup_insert_eq, Hca. destruct (Nat.eqb_spec (changes a (entries (s_journal s))) 0) as [Hz|Hz]; destruct (Nat.eqb_spec (changes a (entries (s_journal s)) + 1) 0); cbn; try lia; f_equal; lia.
      * rewrite lookup_insert_ne by congruence. by rewrite Nat.add_0_r.
    + rewrite decide_False by done. by rewrite Nat.add_0_r.
  - intros a. rewrite changes_app, changes_one. destruct (decide (dirtied ch = Some a)) as [Hch|_]; intros Hpos; apply Hl; [by right|left]. apply Hv. lia.
  - intros es1 a es2 Hes. destruct es2 as [|x es2 _] using rev_ind.
    + apply app_inj_tail in Hes as [<- ->]. destruct (decide (changes a (entries (s_journal s)) = O)) as [|Hpos]; [done|]. exfalso. apply (Hn a eq_refl), Hv. lia.
    + rewrite app_comm_cons, app_assoc in Hes. apply app_inj_tail in Hes as [Hes _]. by apply (Hcr es1 a es2).
  - intros o [Ho|Ho%list_elem_of_singleton]%elem_of_app; [by apply Hre|by apply Hr].
Qed.
(** An entry for an account that has an object, and an update of that. *)
Lemma after_journal_update ch a f s (Q : unit -> stateDB T -> Prop) : live s a -> dirtied ch = Some a -> (forall b, ch <> createObjectChange b) -> (forall o, deleted (f o) = deleted o) ->
  (forall s', appended ch s s' -> Q tt s') -> after (journal_append ch;; update_object a f) Q s.
Proof.
  intros Hl Hch Hne Hf HQ. do 2 step. apply after_update_object; [done|]. intros s' [Hj Hg]. apply HQ. split.
  - by rewrite Hj.
  - intros b _. by rewrite Hj.
  - intros b [Hb|Hb]; apply Hg; [done|]. rewrite Hch in Hb. by injection Hb as <-.
  - intros b ->. by destruct (Hne b).
  - intros o ->. done.
Qed.
(** An entry that is for no account. *)
Lemma appended_other ch s s' : dirtied ch = None -> (forall o, ch <> resetObjectChange o) ->
  s_journal s' = mkJournal (entries (s_journal s) ++ [ch]) (dirties (s_journal s)) -> stateObjects s' = stateObjects s -> appended ch s s'.
Proof.
  intros Hch Hne Hj Ho. split; rewrite ?Hj, ?Hch; try done.
  - intros a [Ha|Ha]; [|done]. unfold live. by rewrite Ho.
  - by intros a ->.
  - intros o Hr. by destruct (Hne o).
Qed.
Lemma after_createObject a s (Q : option (stateObject T) -> stateDB T -> Prop) : dirty_ok s -> (forall so s', dirty_ok s' -> live s' a -> Q so s') -> after (createObject a) Q s.
Proof.
  intros Hok HQ. unfold createObject. step. apply after_getStateObject. intros so s1 Hg Hso. do 5 step. set (s2 := s_set_objects _ _).
  assert (live s2 a) as Hl2 by (eexists; split; [apply lookup_insert_eq|done]). apply HQ; [|done].
  apply (appended_ok (match so with None => createObjectChange a | Some prev => resetObjectChange prev end) s1); [|by apply (grows_ok s)]. split; [done|done| | |].
  - intros b [Hb|Hb]; [by apply (live_insert (s_set_journal _ s1))|]. destruct so; [done|]. by injection Hb as <-.
  - intros b Hb. destruct so; [done|]. by injection Hb as <-.
  - intros o Ho. destruct so; [|done]. injection Ho as <-. apply Hso.
Qed.
Lemma after_GetOrNew a s (Q : unit -> stateDB T -> Prop) : dirty_ok s -> (forall s', dirty_ok s' -> live s' a -> Q tt s') -> after (GetOrNewStateObject a) Q s.
Proof.
  intros Hok HQ. unfold GetOrNewStateObject. step. apply after_getStateObject. intros so s1 Hg Hso. pose proof (grows_ok _ _ Hg Hok) as Hok1. destruct so as [o|].
  - step. apply HQ; [done|]. by exists o.
  - step. apply after_createObject; [done|]. intros so s2 Hok2 Hl2. step. by apply HQ.
Qed.

(** ** The operations *)

Abbreviation keeps m := (forall s, dirty_ok s -> after m (fun _ => dirty_ok) s).
Lemma after_on_account a (m : M (stateDB T) unit) : (forall s, dirty_ok s -> live s a -> after m (fun _ => dirty_ok) s) -> keeps (GetOrNewStateObject a;; m).
Proof. intros Hm s Hok. step. apply after_GetOrNew; [done|]. intros s' Hok' Hl. by apply Hm. Qed.
Lemma after_read {A} a (m : option (stateObject T) -> M (stateDB T) A) : (forall so s, dirty_ok s -> after (m so) (fun _ => dirty_ok) s) -> keeps (so ← getStateObject a; m so).
Proof. intros Hm s Hok. step. apply after_getStateObject. intros so s' Hg _. apply Hm. by apply (grows_ok s). Qed.
Lemma SetBalance_keeps a v s : dirty_ok s -> live s a -> after (stateObject_SetBalance a v) (fun _ => dirty_ok) s.
Proof. intros Hok Hl. unfold stateObject_SetBalance. step. apply after_deref. intros o _. eapply after_journal_update; [done..|]. intros s' Ha. by eapply appended_ok. Qed.
Lemma SetNonce_keeps a v s : dirty_ok s -> live s a -> after (stateObject_SetNonce a v) (fun _ => dirty_ok) s.
Proof. intros Hok Hl. unfold stateObject_SetNonce. step. apply after_deref. intros o _. eapply after_journal_update; [done..|]. intros s' Ha. by eapply appended_ok. Qed.
Lemma AddBalance_keeps a v s : dirty_ok s -> live s a -> after (stateObject_AddBalance a v) (fun _ => dirty_ok) s.
Proof.
  intros Hok Hl. unfold stateObject_AddBalance. step. apply after_deref. intros o _. destruct (v =? 0); [|by apply SetBalance_keeps]. step; [|done]. unfold stateObject_touch. do 2 step.
  assert (forall d, (forall b, b <> ripemd -> d !! b = bump 1 a (dirties (s_journal s)) !! b) -> dirty_ok (s_set_journal (mkJournal (entries (s_journal s) ++ [touchChange a]) d) s)) as Hd.
  { intros d Hd. apply (appended_ok (touchChange a) s); [|done]. split; try done. intros b [Hb|[= <-]]; done. }
  step; [step|]; apply Hd; [|done]. intros b Hb. match goal with Hr : (a =? ripemd) = true |- _ => apply Z.eqb_eq in Hr as -> end. unfold bump at 1. by rewrite lookup_insert_ne.
Qed.
Lemma SubBalance_keeps a v s : dirty_ok s -> live s a -> after (stateObject_SubBalance a v) (fun _ => dirty_ok) s.
Proof. intros Hok Hl. unfold stateObject_SubBalance. step. apply after_deref. intros o _. step; [by apply SetBalance_keeps|done]. Qed.
Lemma SetState_keeps a k v s : dirty_ok s -> live s a -> after (stateObject_SetState a k v) (fun _ => dirty_ok) s.
Proof.
  intros Hok Hl. unfold stateObject_SetState. step. apply after_GetState. intros prev s1 Hg. pose proof (grows_ok _ _ Hg Hok) as Hok1. step; [|done].
  eapply after_journal_update; [by apply Hg|done..|]. intros s' Ha. by eapply appended_ok.
Qed.
Lemma SetCode_keeps a h c s : dirty_ok s -> live s a -> after (stateObject_SetCode a h c) (fun _ => dirty_ok) s.
Proof.
  intros Hok Hl. unfold stateObject_SetCode. step. apply after_Code. intros prev s1 Hg. pose proof (grows_ok _ _ Hg Hok) as Hok1. step. apply after_deref. intros o _.
  eapply after_journal_update; [by apply Hg|done..|]. intros s' Ha. by eapply appended_ok.
Qed.
Lemma CreateAccount_keeps a : keeps (StateDB_CreateAccount a).
Proof.
  intros s Hok. unfold StateDB_CreateAccount. step. apply after_createObject; [done|]. intros [prev|] s1 Hok1 _; [|by step]. apply after_update_object; [done|]. intros s2 Hg. by apply (grows_ok s1).
Qed.
Lemma Suicide_keeps a : keeps (StateDB_Suicide a).
Proof.
  intros s Hok. unfold StateDB_Suicide. step. apply after_getStateObject. intros [o|] s1 Hg Ho; pose proof (grows_ok _ _ Hg Hok) as Hok1; [|by step]. apply wp_assoc.
  eapply after_journal_update; [by exists o|done..|]. intros s' Ha. step. by eapply appended_ok.
Qed.
Lemma AddLog_keeps l : keeps (StateDB_AddLog l).
Proof. intros s Hok. unfold StateDB_AddLog. do 5 step. by apply (appended_ok (addLogChange (thash s)) s); [apply appended_other|]. Qed.
Lemma AddPreimage_keeps h d : keeps (StateDB_AddPreimage h d).
Proof. intros s Hok. unfold StateDB_AddPreimage. do 2 step. destruct (preimages s !! h); [by step|]. do 3 step. by apply (appended_ok (addPreimageChange h) s); [apply appended_other|]. Qed.
Lemma AddRefund_keeps g : keeps (StateDB_AddRefund g).
Proof. intros s Hok. unfold StateDB_AddRefund. do 5 step. by apply (appended_ok (refundChange (refund s)) s); [apply appended_other|]. Qed.
Lemma SubRefund_keeps g : keeps (StateDB_SubRefund g).
Proof. intros s Hok. unfold StateDB_SubRefund. do 4 step. destruct (refund s <? g); [done|]. step. by apply (appended_ok (refundChange (refund s)) s); [apply appended_other|]. Qed.

(** ** Undoing *)

(** What undoing an entry does to the objects. *)
Lemma after_undo_entry es ch s : dirty_for (es ++ [ch]) s ->
  after (journalEntry_revert ch) (fun _ s' => s_journal s' = s_journal s /\ forall a, (0 < changes a es)%nat -> live s' a) s.
Proof.
  intros [Hc Hv Hcr Hre]. assert (forall a, (0 < changes a es)%nat -> live s a) as Hl by (intros a Ha; apply Hv; rewrite changes_app; lia).
  assert (forall s', grows s s' -> s_journal s' = s_journal s /\ forall a, (0 < changes a es)%nat -> live s' a) as Hg by (intros s' [Hj Hg]; auto).
  assert (forall a f, (forall o : stateObject T, deleted (f o) = deleted o) -> after (obj ← getStateObject a; of_option NilDeref obj;; update_object a f)
    (fun _ s' => s_journal s' = s_journal s /\ forall a, (0 < changes a es)%nat -> live s' a) s) as Hupd.
  { intros a f Hf. step. apply after_getStateObject. intros so s1 H1 _. step. apply after_option. intros o _. apply after_update_object; [done|]. intros s2 H2. apply Hg. by eapply grows_trans. }
  destruct ch as [a|prev|a prev pb|a prev|a prev|a k v|a pc ph|prev|h|h|a]; cbn [journalEntry_revert]; try (by apply Hupd); try (step; by apply Hg).
  - step. split; [done|]. intros b Hb. destruct (Hl b Hb) as (o & Ho & Hd). exists o. split; [|done]. cbn. rewrite lookup_delete_ne; [done|]. intros ->.
    rewrite (Hcr es b [] eq_refl) in Hb. lia.
  - step. split; [done|]. intros b Hb. apply live_insert; [|by apply Hl]. apply Hre. apply elem_of_app. right. apply list_elem_of_singleton. done.
  - step. apply after_getStateObject. intros [o|] s1 H1 _; [|step; by apply Hg]. apply after_update_object; [done|]. intros s2 H2. apply Hg. by eapply grows_trans.
Qed.
Lemma after_undo es ch s : dirty_for (es ++ [ch]) s -> after (journal_undo ch) (fun _ s' => dirty_for es s' /\ entries (s_journal s') = entries (s_journal s)) s.
Proof.
  intros Hd. unfold journal_undo. step. eapply wp_mono; [by apply (after_undo_entry es)|]. intros [] s1 [Hj Hl]. destruct Hd as [Hc Hv Hcr Hre].
  assert (forall d, (forall a, a <> ripemd -> d !! a = if Nat.eqb (changes a es) 0 then None else Some (Z.of_nat (changes a es))) -> forall s', stateObjects s' = stateObjects s1 ->
    dirties (s_journal s') = d -> dirty_for es s') as Hfor.
  { intros d Hd s' Ho' Hd'. split.
    - by rewrite Hd'.
    - intros a Ha. unfold live. rewrite Ho'. by apply Hl.
    - intros es1 a es2 ->. apply (Hcr es1 a (es2 ++ [ch])). by rewrite <- app_assoc.
    - intros o Ho. apply Hre. apply elem_of_app. by left. }
  assert (forall a, a <> ripemd -> dirties (s_journal s1) !! a = if Nat.eqb (changes a es + changes a [ch]) 0 then None else Some (Z.of_nat (changes a es + changes a [ch]))) as Hc1.
  { intros a Ha. rewrite Hj, <- changes_app. by apply Hc. }
  destruct (dirtied ch) as [b|] eqn:Hch.
  - step. split; [|cbn; by rewrite Hj]. eapply Hfor; [|done|reflexivity]. intros a Ha. cbn [s_journal s_set_journal dirties]. unfold bump. rewrite lookup_insert_eq. cbn [default from_option id].
    specialize (Hc1 a Ha). rewrite changes_one, Hch in Hc1. destruct (decide (a = b)) as [<-|Hne].
    + rewrite decide_True in Hc1 by done. destruct (Nat.eqb_spec (changes a es + 1) 0); [lia|]. rewrite Hc1. cbn [default from_option id].
      destruct (Nat.eqb_spec (changes a es) 0) as [Hz|Hz]; destruct (Z.eqb_spec (Z.of_nat (changes a es + 1) + -1) 0); try lia; [by rewrite lookup_delete_eq|rewrite lookup_insert_eq; f_equal; lia].
    + rewrite decide_False in Hc1 by congruence. rewrite Nat.add_0_r in Hc1. rewrite <- Hc1. destruct (_ =? 0); [rewrite lookup_delete_ne by done|]; by rewrite lookup_insert_ne.
  - step. split; [|by rewrite Hj]. eapply Hfor; [|done|reflexivity]. intros a Ha. rewrite (Hc1 a Ha), changes_one, Hch, decide_False by done. by rewrite Nat.add_0_r.
Qed.
Lemma after_undo_all es1 es2 s : dirty_for (es1 ++ es2) s -> after (journal_undo_all (reverse es2)) (fun _ s' => dirty_for es1 s' /\ entries (s_journal s') = entries (s_journal s)) s.
Proof.
  revert s. induction es2 as [|ch es2 IH] using rev_ind; intros s Hd; [rewrite app_nil_r in Hd; by apply wp_ret|]. rewrite reverse_snoc. cbn [journal_undo_all]. step.
  rewrite app_assoc in Hd. eapply wp_mono; [by apply (after_undo (es1 ++ es2))|]. intros [] s1 [Hd1 He1]. eapply wp_mono; [by apply IH|]. intros [] s2 [Hd2 He2]. split; [done|congruence].
Qed.
Lemma RevertToSnapshot_keeps id : keeps (StateDB_RevertToSnapshot id).
Proof.
  intros s Hok. unfold StateDB_RevertToSnapshot. do 2 step. destruct (zindex _ _) as [r|]; [|done]. destruct (rev_id r =? id); [|done]. unfold journal_revert. do 4 step.
  set (k := Z.to_nat (journalIndex r)). eapply wp_mono; [apply (after_undo_all (take k (entries (s_journal s))) (drop k (entries (s_journal s)))); by rewrite take_drop|].
  intros [] s1 [[Hc Hv Hcr Hre] He]. do 2 step. unfold dirty_ok. cbn [s_journal s_set_revisions s_set_journal entries]. rewrite He. by split.
Qed.
Lemma Snapshot_keeps : keeps StateDB_Snapshot.
Proof. intros s Hok. unfold StateDB_Snapshot. do 5 step. by apply (grows_ok s). Qed.

(** ** The laws of the state database, with this invariant *)

Lemma wp_keeps {A} PN FU (m : M (stateDB T) A) (Q Q' : A -> stateDB T -> Prop) s :
  wp PN FU m Q s -> after m (fun _ => dirty_ok) s -> (forall a s', Q a s' -> dirty_ok s' -> Q' a s') -> wp PN FU m Q' s.
Proof. unfold wp. destruct (m s) as [[a s']| |]; auto. Qed.
Abbreviation dirty_inv := (fun s : stateDB T => state_inv s /\ dirty_ok s).
Lemma becomes_keeps s w s' : becomes state_inv state_view state_revs s w s' -> dirty_ok s' -> becomes dirty_inv state_view state_revs s w s'.
Proof. by intros (Hi & Hv & Hr) Hd. Qed.
Lemma read_keeps {A} a (f : option (stateObject T) -> A) : keeps (so ← getStateObject a; mret (f so)).
Proof. apply after_read. intros so s Hok. by step. Qed.
Lemma GetCode_keeps a : keeps (StateDB_GetCode a).
Proof. apply after_read. intros [o|] s Hok; [|by step]. apply after_Code. intros c s' Hg. by apply (grows_ok s). Qed.
Lemma GetCodeSize_keeps a : keeps (StateDB_GetCodeSize a).
Proof.
  apply after_read. intros [o|] s Hok; [|by step]. destruct (negb _); [by step|]. destruct (ContractCodeSize _ _) as [size err]. do 3 step. apply (grows_ok s); [apply setError_grows|done].
Qed.
Lemma StateDB_GetState_keeps a k : keeps (StateDB_GetState a k).
Proof. apply after_read. intros [o|] s Hok; [|by step]. apply after_GetState. intros v s' Hg. by apply (grows_ok s). Qed.
Lemma StateDB_GetCommittedState_keeps a k : keeps (StateDB_GetCommittedState a k).
Proof. apply after_read. intros [o|] s Hok; [|by step]. apply after_GetCommittedState. intros v s' Hg. by apply (grows_ok s). Qed.

Definition dirty_Laws : StateDBLaws (stateDB T).
Proof.
  refine {| inv := dirty_inv; view := state_view; revs := state_revs |}; intros s.
  - intros a [Hi Hd]. eapply wp_keeps; [by apply law_CreateAccount|by apply CreateAccount_keeps|]. intros []. apply becomes_keeps.
  - intros a v [Hi Hd]. eapply wp_keeps; [by apply law_SubBalance|apply (after_on_account a); [|done]; intros; by apply SubBalance_keeps|]. intros []. apply becomes_keeps.
  - intros a v [Hi Hd]. eapply wp_keeps; [by apply law_AddBalance|apply (after_on_account a); [|done]; intros; by apply AddBalance_keeps|]. intros []. apply becomes_keeps.
  - intros a [Hi Hd]. eapply wp_keeps; [by apply law_GetBalance|by apply read_keeps|]. intros v s' [Hv Hb] Hd'. split; [done|by apply becomes_keeps].
  - intros a [Hi Hd]. eapply wp_keeps; [by apply law_GetNonce|by apply read_keeps|]. intros v s' [Hv Hb] Hd'. split; [done|by apply becomes_keeps].
  - intros a v [Hi Hd]. eapply wp_keeps; [by apply law_SetNonce|apply (after_on_account a); [|done]; intros; by apply SetNonce_keeps|]. intros []. apply becomes_keeps.
  - intros a [Hi Hd]. eapply wp_keeps; [by apply law_GetCodeHash|by apply read_keeps|]. intros v s' [Hv Hb] Hd'. split; [done|by apply becomes_keeps].
  - intros a [Hi Hd]. eapply wp_keeps; [by apply law_GetCode|by apply GetCode_keeps|]. intros v s' [Hv Hb] Hd'. split; [done|by apply becomes_keeps].
  - intros a c [Hi Hd]. eapply wp_keeps; [by apply law_SetCode|apply (after_on_account a); [|done]; intros; by apply SetCode_keeps|]. intros []. apply becomes_keeps.
  - intros a [Hi Hd]. eapply wp_keeps; [by apply law_GetCodeSize|by apply GetCodeSize_keeps|]. intros v s' [Hv Hb] Hd'. split; [done|by apply becomes_keeps].
  - intros g [Hi Hd]. eapply wp_keeps; [by apply law_AddRefund|by apply AddRefund_keeps|]. intros []. apply becomes_keeps.
  - intros g [Hi Hd]. eapply wp_keeps; [exact (law_SubRefund s g Hi)|by apply SubRefund_keeps|]. intros [] s' [Hv Hb] Hd'. split; [done|by apply becomes_keeps].
  - intros [Hi Hd]. eapply wp_keeps; [by apply law_GetRefund|done|]. intros v s' [Hv Hb] Hd'. split; [done|by apply becomes_keeps].
  - intros a k [Hi Hd]. eapply wp_keeps; [by apply law_GetCommittedState|by apply StateDB_GetCommittedState_keeps|]. intros v s' [Hv Hb] Hd'. split; [done|by apply becomes_keeps].
  - intros a k [Hi Hd]. eapply wp_keeps; [by apply law_GetState|by apply StateDB_GetState_keeps|]. intros v s' [Hv Hb] Hd'. split; [done|by apply becomes_keeps].
  - intros a k v [Hi Hd]. eapply wp_keeps; [by apply law_SetState|apply (after_on_account a); [|done]; intros; by apply SetState_keeps|]. intros []. apply becomes_keeps.
  - intros a [Hi Hd]. eapply wp_keeps; [by apply law_Suicide|by apply Suicide_keeps|]. intros v s' [Hv Hb] Hd'. split; [done|by apply becomes_keeps].
  - intros a [Hi Hd]. eapply wp_keeps; [by apply law_HasSuicided|by apply read_keeps|]. intros v s' [Hv Hb] Hd'. split; [done|by apply becomes_keeps].
  - intros a [Hi Hd]. eapply wp_keeps; [by apply law_Exist|by apply read_keeps|]. intros v s' [Hv Hb] Hd'. split; [done|by apply becomes_keeps].
  - intros a [Hi Hd]. eapply wp_keeps; [by apply law_Empty|by apply read_keeps|]. intros v s' [Hv Hb] Hd'. split; [done|by apply becomes_keeps].
  - intros id w l1 l2 [Hi Hd] Hr. eapply wp_keeps; [by eapply law_RevertToSnapshot|by apply RevertToSnapshot_keeps|]. by intros [] s' (Hi' & Hv & Hr') Hd'.
  - intros [Hi Hd]. eapply wp_keeps; [by apply law_Snapshot|by apply Snapshot_keeps|]. by intros id s' (Hi' & Hv & Hr') Hd'.
  - intros l [Hi Hd]. eapply wp_keeps; [by apply law_AddLog|by apply AddLog_keeps|]. intros [] s' (l' & ? & ? & ? & ? & Hb) Hd'. exists l'. split_conj; try done. by apply becomes_keeps.
  - intros h d [Hi Hd]. eapply wp_keeps; [by apply law_AddPreimage|by apply AddPreimage_keeps|]. intros []. apply becomes_keeps.
Defined.

(** ** The end of a transaction *)

Lemma encode_Account_Some (a : Account) : is_u64 (Nonce a) -> is_u256 (Balance a) -> hash_ok (acc_CodeHash a) -> is_Some (encode_Account a).
Proof.
  intros Hn Hb Hc. set (a' := set_Root (Root a mod 256 ^ Z.of_nat 32) a). assert (encode_Account a = encode_Account a') as ->.
  { unfold encode_Account, a'. cbn [Nonce Balance Root acc_CodeHash set_Root]. unfold Hash_Bytes. by rewrite be_enc_mod. }
  assert (account_range a') as Ha; [|rewrite (encode_Account_bytes a' Ha); by eexists]. split; [done|]. split; [done|]. split; [|done]. apply Z.mod_pos_bound. lia.
Qed.
(** Finalising an account leaves the other objects alone, and panics only when the
    account has no object or has fields out of their ranges. *)
Lemma Finalise_account_object d a s :
  wp (fun r => finalise_panic r /\ forall o, stateObjects s !! a = Some o -> ~ (is_u64 (Nonce (data o)) /\ is_u256 (Balance (data o)) /\ hash_ok (acc_CodeHash (data o)))) False
    (Finalise_account d a) (fun _ s' => forall b, b <> a -> stateObjects s' !! b = stateObjects s !! b) s.
Proof.
  unfold Finalise_account. apply wp_bind, wp_gets, wp_bind. destruct (stateObjects s !! a) as [o|] eqn:Ho; [|apply wp_panic; by split; [left|]].
  assert (forall o' b, b <> a -> stateObjects (with_object a o' s) !! b = stateObjects s !! b) as Hother by (intros o' b Hb; cbn; by rewrite lookup_insert_ne).
  eapply wp_of_option; [reflexivity|]. apply wp_bind. destruct (_ || _).
  - apply wp_bind. eapply wp_replace_object; [exact Ho|]. apply wp_bind, wp_gets. destruct (TryDelete _ _). apply wp_bind, wp_modify, wp_modify, wp_modify.
    intros b Hb. rewrite <- (Hother (o_deleted true o) b Hb). by destruct (s_dbErr s) eqn:He; cbn; rewrite He.
  - apply wp_bind. eapply updateRoot_object; [exact Ho|]. intros o' Hdata. apply wp_bind. eapply wp_deref; [apply with_object_lookup|]. apply wp_bind.
    destruct (encode_Account (data o')) as [enc|] eqn:Henc.
    + eapply wp_of_option; [reflexivity|]. apply wp_bind, wp_gets. destruct (TryUpdate _ _ _). apply wp_bind, wp_modify, wp_modify, wp_modify.
      intros b Hb. rewrite <- (Hother o' b Hb). by destruct (s_dbErr s) eqn:He; cbn; rewrite He.
    + apply wp_panic. split; [by right|]. intros x [= <-] (Hn & Hb & Hc). destruct (encode_Account_Some (data o')) as [enc He]; [by rewrite Hdata..|]. by rewrite Henc in He.
Qed.
Lemma live_range s a : state_inv s -> world_ok (state_view s) -> live s a ->
  exists o, stateObjects s !! a = Some o /\ is_u64 (Nonce (data o)) /\ is_u256 (Balance (data o)) /\ hash_ok (acc_CodeHash (data o)).
Proof.
  intros Hi (Hw & _ & Hsup) (o & Ho & Hd). exists o. split; [done|]. assert (w_acct (state_view s) a = Some (acct_of o)) as Ha by (cbn; unfold account_at; by rewrite Ho, Hd).
  destruct (Hw a _ Ha) as (Hb & Hn & _). split; [exact Hn|]. split; [|apply (proj1 (inv_objects s Hi a o Ho))].
  specialize (Hsup [a] (NoDup_singleton a)). unfold total, w_balance, w_get in Hsup. rewrite Ha in Hsup. cbn in Hb, Hsup. unfold is_u256. lia.
Qed.
(** The account at address 3 is dirty without an object. *)
Definition reverted_touch s : Prop := is_Some (dirties (s_journal s) !! ripemd) /\ ~ live s ripemd.
Lemma Finalise_accounts_dirty d l s : NoDup l -> (forall a, a ∈ l -> reverted_touch s \/
    exists o, stateObjects s !! a = Some o /\ is_u64 (Nonce (data o)) /\ is_u256 (Balance (data o)) /\ hash_ok (acc_CodeHash (data o))) ->
  wp (fun r => finalise_panic r /\ reverted_touch s) False (Finalise_accounts d l) (fun _ _ => True) s.
Proof.
  intros Hnd. enough (forall (P : Prop) s, (forall a, a ∈ l -> P \/ exists o, stateObjects s !! a = Some o /\ is_u64 (Nonce (data o)) /\ is_u256 (Balance (data o)) /\ hash_ok (acc_CodeHash (data o))) ->
    wp (fun r => finalise_panic r /\ P) False (Finalise_accounts d l) (fun _ _ => True) s) as Hall by (by apply Hall).
  clear s. intros P. induction Hnd as [|a l Ha Hnd IH]; intros s Hl; cbn [Finalise_accounts]; [by apply wp_ret|]. apply wp_bind.
  eapply wp_mono; [eapply wp_weaken; [apply (Finalise_account_object d a)| |done]|].
  - intros r [Hr Hbad]. split; [done|]. destruct (Hl a (list_elem_of_here _ _)) as [HP|(o & Ho & Hrange)]; [done|]. by destruct (Hbad o Ho).
  - intros [] s1 Hsame. apply IH. intros b Hb. rewrite Hsame by (intros ->; done). apply Hl. by right.
Qed.
(** [Finalise] ends; it panics only when the account at address 3 has been left
    dirty without an object. *)
Lemma Finalise_dirty d s : state_inv s -> dirty_ok s -> world_ok (state_view s) ->
  wp (fun r => finalise_panic r /\ reverted_touch s) False (Finalise d) (fun _ _ => True) s.
Proof.
  intros Hi Hd Hw. apply wp_bind, wp_gets, wp_bind. eapply wp_mono; [apply (Finalise_accounts_dirty d)|by intros [] s' _; apply wp_modify].
  - apply NoDup_fst_map_to_list.
  - intros a Ha. assert (is_Some (dirties (s_journal s) !! a)) as [n Hn].
    { apply list_elem_of_fmap in Ha as ([b n] & -> & Hin). apply elem_of_map_to_list in Hin. by eexists. }
    destruct (decide (stateObjects s !! a = None)) as [Hno|Hsome].
    + destruct (decide (a = ripemd)) as [->|Hne]; [left; split; [by eexists|]; by intros (o & Ho & _); rewrite Ho in Hno|].
      exfalso. rewrite (df_count _ _ Hd a Hne) in Hn. destruct (Nat.eqb_spec (changes a (entries (s_journal s))) 0); [done|].
      destruct (df_live _ _ Hd a) as (o & Ho & _); [lia|]. by rewrite Ho in Hno.
    + destruct (decide (0 < changes a (entries (s_journal s)))%nat) as [Hpos|Hz]; [right; apply live_range; [done|done|by apply Hd]|].
      destruct (decide (a = ripemd)) as [->|Hne].
      * destruct (stateObjects s !! ripemd) as [o|] eqn:Ho; [|done]. destruct (deleted o) eqn:Hdel.
        -- left. split; [by eexists|]. intros (x & Hx & Hdx). rewrite Ho in Hx. injection Hx as <-. congruence.
        -- right. rewrite <- Ho. apply live_range; [done|done|by exists o].
      * exfalso. rewrite (df_count _ _ Hd a Hne) in Hn. destruct (Nat.eqb_spec (changes a (entries (s_journal s))) 0); [done|lia].
Qed.
(** After [New] and [Finalise] there is no change. *)
Lemma dirty_ok_empty s : s_journal s = newJournal -> dirty_ok s.
Proof.
  intros Hj. unfold dirty_ok. rewrite Hj. split; cbn.
  - intros a _. rewrite Hj. cbn. apply lookup_empty.
  - intros a Ha. unfold changes in Ha. cbn in Ha. lia.
  - intros es1 a es2 Hes. by destruct es1.
  - by intros o ?%not_elem_of_nil.
Qed.
End dirty.

Lemma demo_dirty_ok : dirty_ok demo_db.
Proof.
  assert (wp (fun _ => True) True demo_setup (fun _ => dirty_ok) (StateDB_New ∅)) as Hw.
  { assert (dirty_ok (StateDB_New (∅ : demo_trie))) as Hok by (by apply dirty_ok_empty). unfold demo_setup.
    apply wp_bind. eapply wp_mono; [apply (after_on_account alice); [|exact Hok]; intros; by apply AddBalance_keeps|]. intros [] s1 H1.
    apply wp_bind. eapply wp_mono; [apply (after_on_account answer); [|exact H1]; intros; by apply SetCode_keeps|]. intros [] s2 H2.
    apply wp_bind. eapply wp_mono; [apply (after_on_account answer); [|exact H2]; intros; by apply AddBalance_keeps|]. intros [] s3 H3.
    apply (after_on_account failing); [|exact H3]. intros. by apply SetCode_keeps. }
  unfold wp in Hw. unfold demo_db. destruct (demo_setup _) as [[? ?]| |]; [exact Hw|by apply dirty_ok_empty..].
Qed.
