(* ===== verification/StateDatabase.v ===== *)
(** * The database of the state

    Models [core/state/database.go]: the account trie is opened from the tries
    that were committed last or from the nodes, storage tries from the nodes,
    and code by its hash. The tries, with the nodes of one moment, are the
    [Database] of the state database, and satisfy the laws its theorems need. *)

From stdpp Require Import gmap.
From S2P Require Import Prelude CommonMath Rlp RlpSpec StateIface ConcreteCrypto TrieKey TrieNode Trie TrieSpec TrieProps TrieDatabase Hasher TrieCodec HasherProps DatabaseProps TrieCommit SecureTrie.
From S2P Require Import CoreState CoreStateOk FinaliseProps.
Local Open Scope Z_scope.
#[local] Arguments Hash_Bytes _ : simpl never.
#[local] Arguments Address_Bytes _ : simpl never.

(** ** cachingDB *)

(** The last of [pastTries] is the latest. [codeSizeCache] may forget entries. *)
Record cachingDB : Type := mkCachingDB {
  cdb_db : TrieDB;
  pastTries : list SecureTrie;
  codeSizeCache : gmap Hash Z;
}.
Definition MaxTrieCacheGen : Z := 120.
Definition maxPastTries : nat := 12.
(** An operation on the nodes. *)
Definition on_nodes {A} (m : M TrieDB A) : M cachingDB A := fun c =>
  '(a, db) ← m (cdb_db c); Ok (a, mkCachingDB db (pastTries c) (codeSizeCache c)).
Definition set_pastTries (l : list SecureTrie) (c : cachingDB) : cachingDB := mkCachingDB (cdb_db c) l (codeSizeCache c).

Section cachingDB.
Context `{Crypto}.

(** From the latest on, the first trie with this hash; the hashes are kept in
    the tries. *)
Fixpoint find_past (root : Hash) (rev_tries : list SecureTrie) : M cachingDB (option SecureTrie * list SecureTrie) :=
  match rev_tries with
  | [] => mret (None, [])
  | t :: ts =>
      '(h, t) ← on_nodes (Secure_Hash t);
      if h =? root then mret (Some (Secure_Copy t), t :: ts)
      else '(r, ts) ← find_past root ts; mret (r, t :: ts)
  end.
Definition open_secure (root : Hash) (cachelimit : Z) : M cachingDB (SecureTrie + MissingNodeError) :=
  fun c => match NewSecure (lookup_node (cdb_db c)) root cachelimit with Ok r => Ok (r, c) | Panic e => Panic e | OutOfFuel => OutOfFuel end.
Definition OpenTrie (root : Hash) : M cachingDB (SecureTrie + MissingNodeError) :=
  c ← gets id;
  '(found, ts) ← find_past root (reverse (pastTries c));
  modify (set_pastTries (reverse ts));;
  match found with
  | Some t => mret (inl t)
  | None => open_secure root MaxTrieCacheGen
  end.
Definition pushTrie (t : SecureTrie) (c : cachingDB) : cachingDB :=
  set_pastTries (if Nat.leb maxPastTries (length (pastTries c)) then drop 1 (pastTries c) ++ [t] else pastTries c ++ [t]) c.
Definition OpenStorageTrie_of (root : Hash) : M cachingDB (SecureTrie + MissingNodeError) := open_secure root 0.
(** [None] is the error. *)
Definition ContractCode_of (codeHash : Hash) : M cachingDB (option bytes) :=
  code ← on_nodes (db_Node codeHash);
  match code with
  | Some code => modify (fun c => mkCachingDB (cdb_db c) (pastTries c) (<[codeHash := zlen code]> (codeSizeCache c)));; mret (Some code)
  | None => mret None
  end.
Definition ContractCodeSize_of (codeHash : Hash) : M cachingDB (option Z) :=
  c ← gets id;
  match codeSizeCache c !! codeHash with
  | Some size => mret (Some size)
  | None => code ← ContractCode_of codeHash; mret (zlen <$> code)
  end.
(** [Commit] of the account trie. *)
Definition cachedTrie_Commit (onleaf : bytes -> Hash -> M TrieDB unit) (t : SecureTrie) : M cachingDB (Hash * SecureTrie) :=
  '(root, t) ← on_nodes (Secure_Commit onleaf t);
  modify (pushTrie t);;
  mret (root, t).
End cachingDB.

(** ** Opening the account trie *)

Section opening.
Context `{Crypto} {CL : CryptoLaws} (Q : bytes -> Prop) {CF : CollisionFree Q}.
Implicit Types (db : TrieDB) (t : SecureTrie) (c : cachingDB).

(** The hash [h] can only be that of a trie with the map [f]. *)
Definition binds db (h : Hash) (f : bytes -> bytes) : Prop :=
  forall db1, db_ok Q db1 -> nodes_le db db1 -> exists db2, db_ok Q db2 /\ nodes_le db1 db2 /\ opens db2 h f.
Lemma binds_le db db' h f : nodes_le db db' -> binds db h f -> binds db' h f.
Proof. intros Hle Hb db1 Hdb1 Hle1. apply Hb; [done|by etransitivity]. Qed.
Lemma opens_binds db h f : opens db h f -> binds db h f.
Proof. intros Ho db1 Hdb1 Hle. exists db1. split; [done|]. split; [done|by eapply opens_le]. Qed.
Lemma encs_bind db t f :
  secure_ok (lookup_node db) (clean_inv db) t f -> all_encs Q (root_node (secure_trie t)) -> binds db (root_hash (root_node (secure_trie t))) f.
Proof. intros Ht HQ db1 Hdb1 Hle. apply (root_stored Q); [done|by apply (on_le db)|done]. Qed.
Lemma binds_unique db h f f' : db_ok Q db -> binds db h f -> binds db h f' -> forall k, key_ok k -> f k = f' k.
Proof.
  intros Hdb Hb Hb'. destruct (Hb db Hdb) as (db1 & Hdb1 & Hle1 & Ho); [done|]. destruct (Hb' db1 Hdb1 Hle1) as (db2 & Hdb2 & Hle2 & Ho').
  apply (opens_unique Q db2 h f f' Hdb2); [by eapply opens_le|done].
Qed.

(** A past trie is bound by its hash, whatever its owner has done to it since. *)
Definition past_ok db t : Prop :=
  exists f, secure_ok (lookup_node db) (clean_inv db) t f /\ binds db (root_hash (root_node (secure_trie t))) f.
Record caching_ok c : Prop := {
  co_db : db_ok Q (cdb_db c);
  co_past : Forall (past_ok (cdb_db c)) (pastTries c);
}.
Lemma secure_le db db' t f :
  nodes_le db db' -> secure_ok (lookup_node db) (clean_inv db) t f -> secure_ok (lookup_node db') (clean_inv db') t f.
Proof. apply on_le. Qed.
Lemma past_le db db' t : nodes_le db db' -> past_ok db t -> past_ok db' t.
Proof. intros Hle (f & Ht & Hb). exists f. split; [by eapply secure_le|by eapply binds_le]. Qed.

Lemma Secure_Hash_ok db t f :
  secure_ok (lookup_node db) (clean_inv db) t f ->
  exists t', Secure_Hash t db = Ok (root_hash (root_node (secure_trie t)), t', db) /\ secure_ok (lookup_node db) (clean_inv db) t' f /\
    root_hash (root_node (secure_trie t')) = root_hash (root_node (secure_trie t)).
Proof.
  intros Ht. destruct (TrieHash_ok (lookup_node db) (clean_inv db) (secure_trie t) f db Ht) as (tr & He & Htr).
  eexists. split; [unfold Secure_Hash; by rewrite (run_bind _ _ _ _ _ He)|]. split; [done|]. by apply (root_hash_unique _ _ _ _ _ _ f f Htr Ht).
Qed.
(** The search finds a trie with the hash, or there is none. *)
Lemma find_past_ok root ts c :
  Forall (past_ok (cdb_db c)) ts ->
  exists r ts', find_past root ts c = Ok (r, ts', c) /\ Forall (past_ok (cdb_db c)) ts' /\
    forall t, r = Some t -> exists f, secure_ok (lookup_node (cdb_db c)) (clean_inv (cdb_db c)) t f /\ binds (cdb_db c) root f.
Proof.
  induction 1 as [|t ts (f & Ht & Hb) Hts (r & ts' & IH & IHp & IHr)]; [by exists None, []|].
  destruct (Secure_Hash_ok (cdb_db c) t f Ht) as (t' & He & Ht' & Hh). cbn [find_past].
  assert (on_nodes (Secure_Hash t) c = Ok (root_hash (root_node (secure_trie t)), t', c)) as Hon.
  { unfold on_nodes. rewrite He. by destruct c. }
  rewrite (run_bind _ _ _ _ _ Hon). cbn beta iota. assert (past_ok (cdb_db c) t') as Hp by (exists f; by rewrite Hh).
  destruct (Z.eqb_spec (root_hash (root_node (secure_trie t))) root) as [<-|Hne].
  - exists (Some (Secure_Copy t')), (t' :: ts). split; [done|]. split; [by constructor|]. intros t0 [= <-]. by exists f.
  - rewrite (run_bind _ _ _ _ _ IH). exists r, (t' :: ts'). split; [done|]. split; [by constructor|done].
Qed.

(** [OpenTrie] gives the trie of the hash, whether it comes from the tries that
    were committed last, whose owners may have changed them since, or from the
    nodes. *)
Lemma OpenTrie_ok root f c :
  caching_ok c -> opens (cdb_db c) root f ->
  exists t c' g, OpenTrie root c = Ok (inl t, c') /\ caching_ok c' /\ cdb_db c' = cdb_db c /\
    secure_ok (lookup_node (cdb_db c)) (clean_inv (cdb_db c)) t g /\ (forall k, key_ok k -> g k = f k).
Proof.
  intros [Hdb Hp] Ho. unfold OpenTrie. rewrite (run_bind (gets id) _ c _ c eq_refl). cbn [id].
  destruct (find_past_ok root (reverse (pastTries c)) c) as (r & ts & Hf & Hp' & Hr); [by apply Forall_reverse|].
  rewrite (run_bind _ _ _ _ _ Hf). cbn beta iota. rewrite (run_bind (modify _) _ _ _ _ eq_refl). set (c' := set_pastTries (reverse ts) c).
  assert (caching_ok c') as Hc' by (split; [done|by apply Forall_reverse]). destruct r as [t|].
  - destruct (Hr t eq_refl) as (g & Ht & Hb). exists t, c', g. split_and!; try done.
    apply (binds_unique (cdb_db c) root); [done..|by apply opens_binds].
  - destruct (opens_New Q (cdb_db c) root f Hdb Ho) as (n & Hnew & Hon). exists (mkSecure (mkTrie n 0 MaxTrieCacheGen) ∅ false), c', f.
    split; [unfold open_secure, NewSecure; cbn [cdb_db c' set_pastTries]; by rewrite Hnew|]. split_and!; try done.
Qed.
End opening.

(** ** The interface of the state database *)

Section instance.
Context `{Crypto} (decode : bytes -> option Account).

(** With the nodes [db]. A missing node is an error with its hash; nothing
    panics on the tries of [good_trie]. *)
Definition secure_Database (db : TrieDB) : Database SecureTrie := {|
  TryGet := fun t k =>
    match Secure_TryGet (lookup_node db) k t with
    | Ok (v, None, _) => inr v
    | Ok (_, Some e, _) => inl (NodeHash e)
    | _ => inl 0
    end;
  TryUpdate := fun k v t =>
    match Secure_TryUpdate (lookup_node db) k v t with
    | Ok (err, t') => (NodeHash <$> err, t')
    | _ => (Some 0, t)
    end;
  TryDelete := fun k t =>
    match Secure_TryDelete (lookup_node db) k t with
    | Ok (err, t') => (NodeHash <$> err, t')
    | _ => (Some 0, t)
    end;
  Trie_Hash := fun t => match Secure_Hash t db with Ok (h, _, _) => h | _ => 0 end;
  OpenStorageTrie := fun _ root =>
    match NewSecure (lookup_node db) root 0 with
    | Ok (inl t) => inr t
    | Ok (inr e) => inl (NodeHash e)
    | _ => inl 0
    end;
  ContractCode := fun _ codeHash =>
    match db_Node codeHash db with
    | Ok (Some code, _) => (code, None)
    | _ => ([], Some codeHash)
    end;
  ContractCodeSize := fun _ codeHash =>
    match db_Node codeHash db with
    | Ok (Some code, _) => (zlen code, None)
    | _ => (0, Some codeHash)
    end;
  DecodeAccount := decode;
|}.

Definition good_trie (db : TrieDB) (t : SecureTrie) : Prop := exists f, secure_ok (lookup_node db) (clean_inv db) t f.

Section laws.
Context {CL : CryptoLaws} {KH : KeyHashes} (Q : bytes -> Prop) {CF : CollisionFree Q} (db : TrieDB) (Hdb : db_ok Q db).
Context (Hdecode : forall a enc, account_range a -> encode_Account a = Some enc -> decode enc = Some a).
#[local] Instance nodes_Database : Database SecureTrie := secure_Database db.
#[local] Instance nodes_loads : Loads (lookup_node db) (clean_inv db) := clean_inv_loads Q db Hdb.

#[local] Ltac open_db := cbn [TryGet TryUpdate TryDelete Trie_Hash ContractCode ContractCodeSize nodes_Database secure_Database].
Lemma TryGet_map t f k : secure_ok (lookup_node db) (clean_inv db) t f -> TryGet t k = inr (f (hashKey k)).
Proof. intros Ht. open_db. by destruct (secure_get_ok (lookup_node db) (clean_inv db) t f k Ht) as (t' & -> & _). Qed.
Lemma TryUpdate_map t f k v :
  secure_ok (lookup_node db) (clean_inv db) t f -> value_fits v ->
  exists t', TryUpdate k v t = (None, t') /\ secure_ok (lookup_node db) (clean_inv db) t' (upd f (hashKey k) v).
Proof.
  intros Ht [Hv Hl]. open_db. destruct (secure_update_ok (lookup_node db) (clean_inv db) t f k v Ht Hv Hl) as (t' & -> & Ht'). by exists t'.
Qed.
Lemma TryDelete_map t f k :
  secure_ok (lookup_node db) (clean_inv db) t f ->
  exists t', TryDelete k t = (None, t') /\ secure_ok (lookup_node db) (clean_inv db) t' (upd f (hashKey k) []).
Proof. intros Ht. open_db. destruct (secure_delete_ok (lookup_node db) (clean_inv db) t f k Ht) as (t' & -> & Ht'). by exists t'. Qed.
Lemma hashed_other k k' : trie_key k -> trie_key k' -> length k' = length k -> k' <> k -> hashKey k' <> hashKey k.
Proof. intros Hk Hk' Hl Hne Heq. by apply Hne, hashKey_inj. Qed.
Lemma root_hash_range n F K : node_ok (lookup_node db) (clean_inv db) true K n F -> is_hash (root_hash n).
Proof.
  intros Hn. destruct n as [| | |h|v]; try done; cbn; try apply is_hash_BytesToHash, keccak_hash_ok.
  inversion Hn as [| | |fo K' h' m F' Hm Hin HK Hok Hh]; subst. destruct (Hh 0) as [-> _]. apply is_hash_BytesToHash, keccak_hash_ok.
Qed.
Lemma Trie_Hash_map t f :
  secure_ok (lookup_node db) (clean_inv db) t f -> Trie_Hash t = root_hash (root_node (secure_trie t)) /\ is_hash (Trie_Hash t).
Proof.
  intros Ht. destruct (TrieHash_ok (lookup_node db) (clean_inv db) _ f db Ht) as (t' & He & _).
  assert (Trie_Hash t = root_hash (root_node (secure_trie t))) as Heq by (open_db; unfold Secure_Hash; by rewrite (run_bind _ _ _ _ _ He)).
  split; [done|]. rewrite Heq. destruct Ht as (F & [[-> _]|(K & HK & Hn)] & _); [done|]. by eapply root_hash_range.
Qed.

(** The tries satisfy the laws of the state database. *)
#[local] Instance secure_TrieLaws : TrieLaws SecureTrie (good_trie db).
Proof.
  split.
  - intros k v t [f Hf] _ Hv. destruct (TryUpdate_map t f k v Hf Hv) as (t' & -> & Ht'). by eexists.
  - intros k v t t' [f Hf] _ Hv He. destruct (TryUpdate_map t f k v Hf Hv) as (t1 & He1 & Ht1). rewrite He in He1. injection He1 as <-.
    by rewrite (TryGet_map _ _ _ Ht1), upd_eq.
  - intros k v t t' k' [f Hf] Hk Hk' Hl Hv He Hne. destruct (TryUpdate_map t f k v Hf Hv) as (t1 & He1 & Ht1). rewrite He in He1. injection He1 as <-.
    rewrite (TryGet_map _ _ _ Ht1), (TryGet_map _ _ _ Hf), upd_ne; [done|]. by apply hashed_other.
  - intros k t [f Hf] _. destruct (TryDelete_map t f k Hf) as (t' & -> & Ht'). by eexists.
  - intros k t t' [f Hf] _ He. destruct (TryDelete_map t f k Hf) as (t1 & He1 & Ht1). rewrite He in He1. injection He1 as <-.
    by rewrite (TryGet_map _ _ _ Ht1), upd_eq.
  - intros k t t' k' [f Hf] Hk Hk' Hl He Hne. destruct (TryDelete_map t f k Hf) as (t1 & He1 & Ht1). rewrite He in He1. injection He1 as <-.
    rewrite (TryGet_map _ _ _ Ht1), (TryGet_map _ _ _ Hf), upd_ne; [done|]. by apply hashed_other.
  - intros t [f Hf]. by apply (Trie_Hash_map t f).
  - exact Hdecode.
Qed.
Lemma db_Node_enc h : h <> 0 -> match db_Node h db with Ok (r, _) => Some r | _ => None end = Some (enc_at db h).
Proof.
  intros Hh. unfold db_Node, enc_at. rewrite (run_bind (gets id) _ db _ db eq_refl). cbn [id]. destruct (clean_get h db); [done|].
  destruct (TrieDatabase.dirties db !! h) as [c|] eqn:Hc; [|by destruct (diskdb db !! Hash_Bytes h)].
  destruct (db_dirty Q db Hdb h c Hh Hc) as (e & He & _). unfold lift. rewrite He. done.
Qed.
#[local] Instance secure_DatabaseLaws : Q [] -> DatabaseLaws SecureTrie.
Proof.
  intros HQ. split.
  - intros h. exists (mkSecure (mkTrie None 0 0) ∅ false). split; [done|]. intros k.
    by apply (TryGet_map _ (fun _ => [])), trie_map_empty.
  - intros h ch. open_db. destruct (db_Node ch db) as [[[code|] db']| |]; done.
  - intros h. open_db. assert (emptyCodeHash = BytesToHash (keccak [])) as Heq.
    { unfold emptyCodeHash, Keccak256Hash. cbn [concat app]. rewrite <- (Bytes_BytesToHash (keccak [])) at 1 by apply keccak_hash_ok.
      unfold Hash_Bytes. rewrite be_dec_enc. apply Z.mod_small. apply (is_hash_BytesToHash _ (keccak_hash_ok [])). }
    assert (emptyCodeHash <> 0) as H0 by (rewrite Heq; by apply cf_zero). pose proof (db_Node_enc emptyCodeHash H0) as Hn.
    destruct (db_Node emptyCodeHash db) as [[[code|] db']| |]; try done. injection Hn as Hn. symmetry in Hn. rewrite Heq in Hn.
    by apply (enc_at_unique Q db) in Hn.
Qed.
End laws.
End instance.
