(* ===== verification/StateCommit.v ===== *)
(** * Committing the state

    Models [Commit], [New] and [Reset] of [core/state/statedb.go] and
    [CommitTrie] of [core/state/state_object.go] on the tries of
    [core/state/database.go]. The state is that of the state database together
    with that of the database under it. The objects of a [sync.Map] come in any
    order; here in that of [map_to_list]. *)

From stdpp Require Import gmap.
From S2P Require Import Prelude CommonMath Rlp RlpSpec StateIface ConcreteCrypto TrieKey TrieNode Trie TrieSpec TrieProps TrieDatabase Hasher TrieCodec HasherProps DatabaseProps TrieCommit SecureTrie.
From S2P Require Import CoreState CoreStateOk Concrete FinaliseProps StateDatabase.
Local Open Scope Z_scope.
#[local] Arguments Hash_Bytes _ : simpl never.
#[local] Arguments Address_Bytes _ : simpl never.

Section commit.
Context `{Crypto} (decode : bytes -> option Account).
Abbreviation state := (stateDB SecureTrie).
Abbreviation SC := (M (state * cachingDB)).

(** An operation of the state database with the nodes there are, and one of the
    database. *)
Definition on_state {A} (m : Database SecureTrie -> M state A) : SC A := fun '(s, c) =>
  match m (secure_Database decode (cdb_db c)) s with
  | Ok (a, s') => Ok (a, (s', c))
  | Panic r => Panic r
  | OutOfFuel => OutOfFuel
  end.
Definition on_caching {A} (m : M cachingDB A) : SC A := fun '(s, c) =>
  match m c with
  | Ok (a, c') => Ok (a, (s, c'))
  | Panic r => Panic r
  | OutOfFuel => OutOfFuel
  end.

(** The error of the object, if it has one. The trie is changed in place. *)
Definition CommitTrie (addr : Address) : SC (option dbError) :=
  on_state (fun D => updateTrie (H := D) addr);;
  o ← on_state (fun _ => deref addr);
  match dbErr o with
  | Some err => mret (Some err)
  | None =>
      tr ← on_state (fun _ => of_option NilDeref (trie o));
      '(root, tr) ← on_caching (on_nodes (Secure_Commit no_leaf tr));
      on_state (fun _ => update_object addr (fun o => o_trie (Some tr) (o_data (set_Root root (data o)) o)));;
      mret None
  end.

(** One object; whether to go on. The source asks whether the code is nil; here
    nil and an empty code are one list, and it is not written: nobody looks up
    the hash of the empty code. *)
Definition Commit_object (deleteEmptyObjects : bool) (addr : Address) : SC bool :=
  o ← on_state (fun _ => deref addr);
  dirty ← on_state (fun _ => gets stateObjectsDirty);
  let isDirty := bool_decide (is_Some (dirty !! addr)) in
  go_on ← (if suicided o || (isDirty && deleteEmptyObjects && empty o) then on_state (fun D => deleteStateObject (H := D) addr);; mret true
           else if isDirty then
             when (negb (zlen (code o) =? 0) && dirtyCode o)
               (on_caching (on_nodes (InsertBlob (BytesToHash (acc_CodeHash (data o))) (code o)));;
                on_state (fun _ => update_object addr (o_dirtyCode false)));;
             err ← CommitTrie addr;
             match err with
             | Some _ => mret false
             | None => on_state (fun D => updateStateObject (H := D) addr);; mret true
             end
           else mret true);
  when go_on (on_state (fun _ => modify (fun s => s_set_dirty (base.delete addr (stateObjectsDirty s)) s)));;
  mret go_on.
Fixpoint Commit_objects (deleteEmptyObjects : bool) (addrs : list Address) : SC bool :=
  match addrs with
  | [] => mret true
  | a :: l =>
      go_on ← Commit_object deleteEmptyObjects a;
      if go_on : bool then Commit_objects deleteEmptyObjects l else mret false
  end.

(** The callback: a leaf of the account trie refers to the storage and the code
    of the account. [emptyState] and [emptyCode] are one hash. *)
Definition account_references (leaf : bytes) (parent : Hash) : M TrieDB unit :=
  match decode leaf with
  | None => mret tt
  | Some account =>
      when (negb (Root account =? emptyCodeHash)) (db_reference (Root account) parent);;
      let code := BytesToHash (acc_CodeHash account) in
      when (negb (code =? emptyCodeHash)) (db_reference code parent)
  end.
Definition mark_dirties (s : state) : state :=
  s_set_dirty (map_fold (fun addr _ dirty => <[addr := tt]> dirty) (stateObjectsDirty s) (dirties (s_journal s))) s.
(** The error of an object does not get out of the closure: the root is zero and
    there is no error. *)
Definition StateDB_Commit (deleteEmptyObjects : bool) : SC Hash :=
  on_state (fun _ => modify mark_dirties);;
  objs ← on_state (fun _ => gets stateObjects);
  writeToTrie ← Commit_objects deleteEmptyObjects (map fst (map_to_list objs));
  root ← (if writeToTrie : bool then
            tr ← on_state (fun _ => gets s_trie);
            '(root, tr) ← on_caching (cachedTrie_Commit account_references tr);
            on_state (fun _ => modify (s_set_trie tr));;
            mret root
          else mret 0);
  on_state (fun _ => clearJournalAndRefund);;
  mret root.

Definition State_New (root : Hash) : M cachingDB (state + MissingNodeError) :=
  r ← OpenTrie root;
  mret (match r with inl tr => inl (StateDB_New tr) | inr e => inr e end).
(** The error of the database stays. *)
Definition Reset (root : Hash) : SC (option MissingNodeError) :=
  r ← on_caching (OpenTrie root);
  match r with
  | inr e => mret (Some e)
  | inl tr =>
      on_state (fun _ => modify (fun s =>
        mkStateDB tr ∅ ∅ (s_dbErr s) 0 0 0 0 ∅ 0 ∅ newJournal [] (nextRevisionId s)));;
      mret None
  end.
End commit.

(** ** What is committed can be opened *)

Section nodes.
Context `{Crypto} {CL : CryptoLaws} (Q : bytes -> Prop) {CF : CollisionFree Q}.
Implicit Types (db : TrieDB) (t : SecureTrie) (c : cachingDB).

Lemma insertPreimage_same h p db : exists db', insertPreimage h p db = Ok (tt, db') /\ same_content db db'.
Proof.
  unfold insertPreimage. rewrite (run_bind (gets id) _ db _ db eq_refl). cbn [id]. destruct (TrieDatabase.preimages db !! h); [by exists db|].
  eexists. split; [reflexivity|]. by split.
Qed.
Lemma for_each_same {A} (g : A -> M TrieDB unit) l db :
  (forall x db, exists db', g x db = Ok (tt, db') /\ same_content db db') -> exists db', for_each g l db = Ok (tt, db') /\ same_content db db'.
Proof.
  intros Hg. revert db. induction l as [|x l IH]; intros db; [by exists db|]. cbn [for_each]. destruct (Hg x db) as (db1 & H1 & Hs1).
  rewrite (run_bind _ _ _ _ _ H1). destruct (IH db1) as (db2 & H2 & Hs2). exists db2. split; [done|by etransitivity].
Qed.
Lemma Secure_Commit_ok onleaf t f db :
  leaf_ok onleaf -> db_ok Q db -> secure_ok (lookup_node db) (clean_inv db) t f -> all_encs Q (root_node (secure_trie t)) ->
  exists t' db', Secure_Commit onleaf t db = Ok (root_hash (root_node (secure_trie t)), t', db') /\ db_ok Q db' /\ nodes_le db db' /\
    secure_ok (lookup_node db') (clean_inv db') t' f /\ opens db' (root_hash (root_node (secure_trie t))) f.
Proof.
  intros Hl Hdb Ht HQ. unfold Secure_Commit.
  assert (secure_trie (getSecKeyCache t) = secure_trie t) as Hg by (unfold getSecKeyCache; by destruct (secKeyCacheOwner t)). rewrite Hg.
  destruct (for_each_same (fun '(hk, key) => insertPreimage (BytesToHash hk) key) (map_to_list (secKeyCache (getSecKeyCache t))) db) as (db1 & H1 & Hs1).
  { intros [hk key] db0. apply insertPreimage_same. }
  destruct (same_content_ok Q db db1 Hs1 Hdb) as [Hdb1 Hle1]. rewrite (run_bind _ _ _ _ _ H1).
  destruct (Commit_ok Q (SN := db_stores Q onleaf Hl) (secure_trie t) f db1 Hdb1 (on_le db db1 _ _ Hle1 Ht) HQ) as (tr & db2 & Hrun & Hdb2 & Hle2 & Hon & Ho).
  rewrite (run_bind _ _ _ _ _ Hrun). eexists _, db2. split; [reflexivity|]. split; [done|]. split; [by etransitivity|]. by split.
Qed.
Lemma on_nodes_run {A} (m : M TrieDB A) c a db : m (cdb_db c) = Ok (a, db) -> on_nodes m c = Ok (a, mkCachingDB db (pastTries c) (codeSizeCache c)).
Proof. intros Hm. unfold on_nodes. by rewrite Hm. Qed.
Lemma caching_ok_le c db : caching_ok Q c -> db_ok Q db -> nodes_le (cdb_db c) db -> caching_ok Q (mkCachingDB db (pastTries c) (codeSizeCache c)).
Proof.
  intros [_ Hp] Hdb Hle. split; [done|]. apply (Forall_impl _ _ _ Hp). intros t. by apply past_le.
Qed.
Lemma pushTrie_ok t c : past_ok Q (cdb_db c) t -> caching_ok Q c -> caching_ok Q (pushTrie t c) /\ cdb_db (pushTrie t c) = cdb_db c.
Proof.
  intros Ht [Hdb Hp]. unfold pushTrie. split; [|done]. split; [done|]. cbn [pastTries set_pastTries cdb_db].
  destruct (Nat.leb maxPastTries (length (pastTries c))); apply Forall_app; (split; [|by constructor]); [by apply Forall_drop|done].
Qed.
Lemma cachedTrie_Commit_ok onleaf t f c :
  leaf_ok onleaf -> caching_ok Q c -> secure_ok (lookup_node (cdb_db c)) (clean_inv (cdb_db c)) t f -> all_encs Q (root_node (secure_trie t)) ->
  exists t' c', cachedTrie_Commit onleaf t c = Ok (root_hash (root_node (secure_trie t)), t', c') /\ caching_ok Q c' /\ nodes_le (cdb_db c) (cdb_db c') /\
    secure_ok (lookup_node (cdb_db c')) (clean_inv (cdb_db c')) t' f /\ opens (cdb_db c') (root_hash (root_node (secure_trie t))) f.
Proof.
  intros Hl Hc Ht HQ. destruct (Secure_Commit_ok onleaf t f (cdb_db c) Hl (co_db Q c Hc) Ht HQ) as (t' & db' & Hrun & Hdb' & Hle & Ht' & Ho).
  unfold cachedTrie_Commit. rewrite (run_bind _ _ _ _ _ (on_nodes_run _ c _ _ Hrun)). cbn beta iota. rewrite (run_bind (modify _) _ _ _ _ eq_refl).
  set (c1 := mkCachingDB db' (pastTries c) (codeSizeCache c)).
  assert (root_hash (root_node (secure_trie t')) = root_hash (root_node (secure_trie t))) as Hh by (by apply (root_hash_unique _ _ _ _ _ _ f f Ht' Ht)).
  destruct (pushTrie_ok t' c1) as [Hc' Heq].
  { exists f. split; [done|]. rewrite Hh. by apply opens_binds. }
  { by apply caching_ok_le. }
  exists t', (pushTrie t' c1). split; [reflexivity|]. split; [done|]. rewrite Heq. by split_and!.
Qed.
End nodes.

Section persists.
Context `{Crypto} (decode : bytes -> option Account) {CL : CryptoLaws} (Q : bytes -> Prop) {CF : CollisionFree Q}.

Lemma when_same b (m : M TrieDB unit) db :
  (exists db', m db = Ok (tt, db') /\ same_content db db') -> exists db', when b m db = Ok (tt, db') /\ same_content db db'.
Proof. destruct b; [done|]. intros _. by exists db. Qed.
Lemma account_references_ok : leaf_ok (account_references decode).
Proof.
  intros leaf parent db Hp. unfold account_references. destruct (decode leaf) as [account|]; [|by exists db].
  destruct (when_same (negb (Root account =? emptyCodeHash)) (db_reference (Root account) parent) db) as (db1 & H1 & Hs1); [by apply db_reference_same|].
  rewrite (run_bind _ _ _ _ _ H1). cbv zeta.
  destruct (when_same (negb (BytesToHash (acc_CodeHash account) =? emptyCodeHash)) (db_reference (BytesToHash (acc_CodeHash account)) parent) db1) as (db2 & H2 & Hs2).
  { apply db_reference_same. by eapply same_is_Some. }
  exists db2. split; [done|by etransitivity].
Qed.

(** The account of an address in the trie. *)
Definition account_in (db : TrieDB) (t : SecureTrie) (a : Address) : option Account :=
  match TryGet (Database := secure_Database decode db) t (Address_Bytes a) with
  | inr enc => if zlen enc =? 0 then None else decode enc
  | inl _ => None
  end.
Lemma account_same db db' t t' f g :
  db_ok Q db -> db_ok Q db' ->
  secure_ok (lookup_node db) (clean_inv db) t f -> secure_ok (lookup_node db') (clean_inv db') t' g -> (forall k, key_ok k -> f k = g k) ->
  forall a, account_in db t a = account_in db' t' a.
Proof.
  intros Hdb Hdb' Ht Ht' Heq a. unfold account_in. pose proof (TryGet_map decode Q db Hdb t f (Address_Bytes a) Ht) as Hg.
  pose proof (TryGet_map decode Q db' Hdb' t' g (Address_Bytes a) Ht') as Hg'. unfold nodes_Database in Hg, Hg'. rewrite Hg, Hg'.
  by rewrite (Heq _ (hashed_key_ok (Address_Bytes a))).
Qed.

(** C23. When the objects have been written to the account trie, [Commit] ends and
    returns the hash of that trie. A new state database that is opened with the
    hash has the same accounts, and every storage trie and every code there was
    can be read as before. *)
Theorem Commit_persists d s c s1 c1 f :
  Commit_objects decode d (map fst (map_to_list (stateObjects s))) (mark_dirties s, c) = Ok (true, (s1, c1)) ->
  caching_ok Q c1 -> secure_ok (lookup_node (cdb_db c1)) (clean_inv (cdb_db c1)) (s_trie s1) f ->
  all_encs Q (root_node (secure_trie (s_trie s1))) ->
  exists root s2 c2 s3 c3,
    StateDB_Commit decode d (s, c) = Ok (root, (s2, c2)) /\ root = root_hash (root_node (secure_trie (s_trie s1))) /\
    State_New root c2 = Ok (inl s3, c3) /\ stateObjects s3 = ∅ /\
    (forall a, account_in (cdb_db c3) (s_trie s3) a = account_in (cdb_db c1) (s_trie s1) a) /\
    (forall h g, opens (cdb_db c1) h g -> opens (cdb_db c3) h g) /\
    (forall h code, enc_at (cdb_db c1) h = Some code -> enc_at (cdb_db c3) h = Some code).
Proof.
  intros Hobjs Hc1 Ht HQ.
  destruct (cachedTrie_Commit_ok Q (account_references decode) (s_trie s1) f c1 account_references_ok Hc1 Ht HQ) as (t2 & c2 & Hrun & Hc2 & Hle & Ht2 & Ho).
  set (root := root_hash (root_node (secure_trie (s_trie s1)))) in *.
  destruct (OpenTrie_ok Q root f c2 Hc2 Ho) as (t3 & c3 & g & Hopen & Hc3 & Hdb3 & Ht3 & Hg).
  eexists root, _, c2, (StateDB_New t3), c3. split; [|split; [done|]; split; [|split; [done|split; [|split]]]].
  - unfold StateDB_Commit. rewrite (run_bind (on_state decode (fun _ => modify mark_dirties)) _ (s, c) tt (mark_dirties s, c) eq_refl).
    rewrite (run_bind (on_state decode (fun _ => gets stateObjects)) _ (mark_dirties s, c) (stateObjects s) (mark_dirties s, c) eq_refl), (run_bind _ _ _ _ _ Hobjs). cbn beta iota.
    set (cont := fun root : Hash => _). rewrite (run_bind _ cont (s1, c1) root (s_set_trie t2 s1, c2)); [reflexivity|].
    rewrite (run_bind (on_state decode (fun _ => gets s_trie)) _ (s1, c1) (s_trie s1) (s1, c1) eq_refl). unfold on_caching.
    unfold mbind, M_bind. by rewrite Hrun.
  - unfold State_New. by rewrite (run_bind _ _ _ _ _ Hopen).
  - intros a. rewrite Hdb3. symmetry. apply (account_same _ _ _ _ f g (co_db Q c1 Hc1) (co_db Q c2 Hc2) Ht Ht3). intros k Hk. by rewrite Hg.
  - intros h g' Ho'. rewrite Hdb3. by eapply opens_le.
  - intros h e He. rewrite Hdb3. by apply (le_enc _ _ Hle).
Qed.
End persists.

(** ** A concrete commit *)

(** An account with funds in a new state. *)
Definition no_accounts : SecureTrie := mkSecure (mkTrie None 0 MaxTrieCacheGen) ∅ false.
Definition demo_caching : cachingDB := mkCachingDB (NewDatabase ∅) [] ∅.
Definition funded_state : stateDB SecureTrie :=
  end_state (StateDB_New no_accounts) (StateDB_AddBalance (H := secure_Database demo_decode (NewDatabase ∅)) alice 7 (StateDB_New no_accounts)).
Definition objects_written : outcome (bool * (stateDB SecureTrie * cachingDB)) :=
  Commit_objects demo_decode true (map fst (map_to_list (stateObjects funded_state))) (mark_dirties funded_state, demo_caching).
Definition written_state : stateDB SecureTrie := match objects_written with Ok (_, (s, _)) => s | _ => funded_state end.
Definition alice_enc : bytes := rlp_list (account_payload (mkAccount 0 7 emptyRoot (Hash_Bytes emptyCodeHash))).
Lemma objects_written_eq : objects_written = Ok (true, (written_state, demo_caching)).
Proof. vm_compute. reflexivity. Qed.
Lemma written_trie :
  Secure_TryUpdate (lookup_node (NewDatabase ∅)) (Address_Bytes alice) alice_enc no_accounts = Ok (None, s_trie written_state).
Proof. vm_compute. reflexivity. Qed.
(** Its only node. *)
Definition demo_commit_Q (e : bytes) : Prop := e = node_enc (root_node (secure_trie (s_trie written_state))).
#[export] Instance demo_commit_CF : CollisionFree demo_commit_Q.
Proof.
  split.
  - intros x y -> ->. done.
  - intros x ->. vm_compute. discriminate.
  - intros x ->. vm_compute. discriminate.
Qed.
Lemma demo_commit_encs : all_encs demo_commit_Q (root_node (secure_trie (s_trie written_state))).
Proof. vm_compute. done. Qed.
Lemma demo_caching_ok : caching_ok demo_commit_Q demo_caching.
Proof. split; [apply NewDatabase_ok|constructor]. Qed.
Definition written_map : bytes -> bytes := upd (fun _ => []) (hashKey (Address_Bytes alice)) alice_enc.
Lemma written_trie_map : secure_ok (lookup_node (NewDatabase ∅)) (clean_inv (NewDatabase ∅)) (s_trie written_state) written_map.
Proof.
  pose proof (clean_inv_loads demo_commit_Q (NewDatabase ∅) (NewDatabase_ok _)) as Hl.
  destruct (secure_update_ok (lookup_node (NewDatabase ∅)) (clean_inv (NewDatabase ∅)) no_accounts (fun _ => []) (Address_Bytes alice) alice_enc) as (t & He & Ht).
  - apply trie_map_empty.
  - apply account_fits. vm_compute. repeat split; try discriminate; repeat constructor; discriminate.
  - vm_compute. reflexivity.
  - rewrite written_trie in He. injection He as <-. exact Ht.
Qed.
Lemma Commit_persists_witness :
  exists root s2 c2 s3 c3 a,
    StateDB_Commit demo_decode true (funded_state, demo_caching) = Ok (root, (s2, c2)) /\ State_New root c2 = Ok (inl s3, c3) /\
    account_in demo_decode (cdb_db c3) (s_trie s3) alice = Some a /\ Balance a = 7.
Proof.
  destruct (Commit_persists demo_decode demo_commit_Q true funded_state demo_caching written_state demo_caching written_map objects_written_eq demo_caching_ok
    written_trie_map demo_commit_encs) as (root & s2 & c2 & s3 & c3 & H1 & _ & H2 & _ & H3 & _).
  exists root, s2, c2, s3, c3, (mkAccount 0 7 emptyRoot (Hash_Bytes emptyCodeHash)). split; [exact H1|]. split; [exact H2|]. split; [|reflexivity].
  rewrite H3. vm_compute. reflexivity.
Defined.
