(* ===== verification/StateRoot.v ===== *)
(** * The root of the state

    The hash of the account trie does not depend on the order in which [Finalise]
    takes the accounts from a Go map. *)

From stdpp Require Import gmap.
From S2P Require Import Prelude CommonMath Rlp RlpSpec StateIface ConcreteCrypto TrieKey TrieNode Trie TrieSpec TrieProps TrieDatabase Hasher TrieCodec HasherProps DatabaseProps TrieCommit SecureTrie.
From S2P Require Import CoreState CoreStateOk Concrete FinaliseProps StateDatabase StateCommit.
Local Open Scope Z_scope.
#[local] Arguments Hash_Bytes _ : simpl never.
#[local] Arguments Address_Bytes _ : simpl never.

(** ** Updates in any order *)

Lemma upd_all_In kvs f k v : NoDup kvs.*1 -> (k, v) ∈ kvs -> upd_all kvs f k = v.
Proof.
  induction kvs as [|[k' v'] kvs IH] using rev_ind; [by intros _ ?%elem_of_nil|]. rewrite fmap_app, NoDup_app. cbn. intros (Hnd & Hd & _) Hin.
  unfold upd_all. rewrite foldl_snoc. fold (upd_all kvs f). apply elem_of_app in Hin as [Hin|Hin%list_elem_of_singleton].
  - rewrite upd_ne; [by apply IH|]. intros ->. apply (Hd k'); [|by left]. change k' with ((k', v).1). by apply list_elem_of_fmap_2.
  - injection Hin as -> ->. apply upd_eq.
Qed.
Lemma upd_all_notin kvs f k : k ∉ kvs.*1 -> upd_all kvs f k = f k.
Proof.
  induction kvs as [|[k' v'] kvs IH] using rev_ind; [done|]. rewrite fmap_app, elem_of_app. cbn. intros Hk.
  unfold upd_all. rewrite foldl_snoc. fold (upd_all kvs f). rewrite upd_ne; [apply IH; tauto|]. intros ->. apply Hk. right. by left.
Qed.
Lemma upd_all_perm kvs kvs' f k : kvs ≡ₚ kvs' -> NoDup kvs.*1 -> upd_all kvs f k = upd_all kvs' f k.
Proof.
  intros Hp Hnd. assert (NoDup kvs'.*1) as Hnd' by (by rewrite <- Hp). destruct (decide (k ∈ kvs.*1)) as [Hin|Hin].
  - apply list_elem_of_fmap in Hin as ([k1 v] & -> & Hv). cbn [fst]. rewrite (upd_all_In kvs f k1 v), (upd_all_In kvs' f k1 v); [done..| |done|done]. by rewrite <- Hp.
  - rewrite !upd_all_notin; [done| |done]. by rewrite <- Hp.
Qed.

Section root.
Context `{Crypto} (decode : bytes -> option Account) {CL : CryptoLaws} {KH : KeyHashes} (Q : bytes -> Prop) {CF : CollisionFree Q}.
Context (db : TrieDB) (Hdb : db_ok Q db) (HQ0 : Q []).
Context (Hdecode : forall a enc, account_range a -> encode_Account a = Some enc -> decode enc = Some a).
#[local] Hint Extern 0 (Database SecureTrie) => exact (nodes_Database decode db) : typeclass_instances.
#[local] Instance root_TrieLaws : TrieLaws SecureTrie (good_trie db) := secure_TrieLaws decode Q db Hdb Hdecode.
#[local] Instance root_DatabaseLaws : DatabaseLaws SecureTrie := secure_DatabaseLaws decode Q db Hdb HQ0.
Abbreviation ok_in t f := (secure_ok (lookup_node db) (clean_inv db) t f).
Implicit Types (s : stateDB SecureTrie) (o : stateObject SecureTrie).

(** The entry of an account in the map of the trie. *)
Definition account_entry (d : bool) s (a : Address) : bytes * bytes :=
  (hashKey (Address_Bytes a), match stateObjects s !! a with Some o => if removed_by d o then [] else account_value o | None => [] end).
Lemma write_account_map d a o tr f :
  account_range (data o) -> storage_good (good := good_trie db) o -> ok_in tr f ->
  ok_in (snd (write_account d a o tr)) (upd f (hashKey (Address_Bytes a)) (if removed_by d o then [] else account_value o)).
Proof.
  intros Hr Hsg Ht. unfold write_account. destruct (removed_by d o).
  - by destruct (TryDelete_map decode Q db Hdb tr f (Address_Bytes a) Ht) as (t' & -> & Ht').
  - destruct (TryUpdate_map decode Q db Hdb tr f (Address_Bytes a) (account_value o) Ht) as (t' & -> & Ht'); [|done].
    by apply account_fits, (account_range_after (good := good_trie db)).
Qed.
Lemma write_accounts_map d s l : forall tr f,
  Forall (writable (good := good_trie db) s) l -> ok_in tr f ->
  ok_in (write_accounts d (stateObjects s) l tr) (upd_all (map (account_entry d s) l) f).
Proof.
  induction l as [|a l IH]; intros tr f Hw Ht; [done|]. apply Forall_cons in Hw as [(Haddr & o & Ho & Hr & Hsg) Hw].
  unfold write_accounts. cbn [foldl map]. rewrite Ho. apply IH; [done|]. unfold account_entry. rewrite Ho. by apply write_account_map.
Qed.
Lemma account_keys_distinct d s l : NoDup l -> Forall (writable (good := good_trie db) s) l -> NoDup (map (account_entry d s) l).*1.
Proof.
  intros Hnd Hw. rewrite <- list_fmap_compose. apply NoDup_fmap_2_strong; [|done]. intros a b Ha Hb Heq. cbn in Heq.
  rewrite Forall_forall in Hw. destruct (Hw a Ha) as [Haa _]. destruct (Hw b Hb) as [Hbb _]. apply (Address_Bytes_inj a b Haa Hbb).
  apply hashKey_inj; [apply Address_key..|apply Address_key_length|done].
Qed.

(** C24. The root of the state does not depend on the order in which [Finalise]
    takes the accounts from the Go map of the changed ones: for accounts that
    have objects whose fields have their widths, in every order the loop ends,
    and the account tries have the same hash and the same accounts. The keys of
    the trie are the hashes of the addresses, and no two addresses have the same
    one. *)
Theorem Finalise_order_irrelevant d s l l' :
  l ≡ₚ l' -> NoDup l -> Forall (writable (good := good_trie db) s) l -> good_trie db (s_trie s) ->
  exists s1 s2, Finalise_accounts d l s = Ok (tt, s1) /\ Finalise_accounts d l' s = Ok (tt, s2) /\
    Trie_Hash (s_trie s1) = Trie_Hash (s_trie s2) /\
    forall a, account_in decode db (s_trie s1) a = account_in decode db (s_trie s2) a.
Proof.
  intros Hp Hnd Hw [f Hf]. assert (NoDup l') as Hnd' by (by rewrite <- Hp). assert (Forall (writable (good := good_trie db) s) l') as Hw' by (by rewrite <- Hp).
  pose proof (Finalise_accounts_runs d l s Hnd Hw) as H1. pose proof (Finalise_accounts_runs d l' s Hnd' Hw') as H2. unfold wp in H1, H2.
  destruct (Finalise_accounts d l s) as [[[] s1]| |]; [|done..]. destruct (Finalise_accounts d l' s) as [[[] s2]| |]; [|done..].
  exists s1, s2. split; [done|]. split; [done|]. rewrite H1, H2.
  pose proof (write_accounts_map d s l (s_trie s) f Hw Hf) as M1. pose proof (write_accounts_map d s l' (s_trie s) f Hw' Hf) as M2.
  assert (forall k, key_ok k -> upd_all (map (account_entry d s) l) f k = upd_all (map (account_entry d s) l') f k) as Heq.
  { intros k _. apply upd_all_perm; [by apply Permutation_map|by apply account_keys_distinct]. }
  destruct (Trie_Hash_map decode db _ _ M1) as [-> _]. destruct (Trie_Hash_map decode db _ _ M2) as [-> _]. split.
  - by apply (root_hash_unique _ _ _ _ _ _ _ _ M1 M2).
  - by apply (account_same decode Q _ _ _ _ _ _ Hdb Hdb M1 M2).
Qed.

End root.

(** ** Concrete accounts *)

#[export] Instance demo_KeyHashes : KeyHashes.
Proof.
  intros k k' [Hk Hl] [Hk' Hl'] Hlen Heq.
  change (be_enc 32 (2 ^ 255 + be_dec k + 2 ^ 200 * zlen k) = be_enc 32 (2 ^ 255 + be_dec k' + 2 ^ 200 * zlen k')) in Heq.
  apply (f_equal be_dec) in Heq. rewrite !be_dec_enc in Heq. change (256 ^ Z.of_nat 32) with (2 ^ 256) in Heq. unfold zlen in Heq. rewrite Hlen in Heq.
  assert (forall l, bytes_ok l -> length l = length k' -> 0 <= be_dec l < 2 ^ 256) as Hb.
  { intros l Hok Hll. pose proof (be_dec_bound l Hok) as Hb. rewrite Hll in Hb.
    assert (256 ^ Z.of_nat (length k') <= 2 ^ 256); [|lia]. destruct Hl' as [-> | ->]; by vm_compute. }
  pose proof (Hb k Hk Hlen). pose proof (Hb k' Hk' eq_refl). set (c := 2 ^ 200 * Z.of_nat (length k')) in *.
  assert (be_dec k = be_dec k') as Hd.
  { pose proof (Z.div_mod (2 ^ 255 + be_dec k + c) (2 ^ 256) ltac:(lia)). pose proof (Z.div_mod (2 ^ 255 + be_dec k' + c) (2 ^ 256) ltac:(lia)).
    rewrite Heq in *. set (q := (2 ^ 255 + be_dec k + c) / 2 ^ 256) in *. set (q' := (2 ^ 255 + be_dec k' + c) / 2 ^ 256) in *. nia. }
  rewrite <- (be_enc_dec k Hk), <- (be_enc_dec k' Hk'). by rewrite Hd, Hlen.
Qed.
Definition bob_addr : Address := 0xb0b.
Definition two_accounts : stateDB SecureTrie :=
  end_state (StateDB_New no_accounts)
    ((StateDB_AddBalance (H := secure_Database demo_decode (NewDatabase ∅)) alice 7;;
      StateDB_AddBalance (H := secure_Database demo_decode (NewDatabase ∅)) bob_addr 9) (StateDB_New no_accounts)).
Definition empty_Q (e : bytes) : Prop := e = [].
#[export] Instance empty_CF : CollisionFree empty_Q.
Proof. split; [by intros x y -> ->|intros x ->; vm_compute; discriminate|intros x ->; vm_compute; discriminate]. Qed.
Abbreviation demo_D := (nodes_Database demo_decode (NewDatabase ∅)).
Definition object_of (a : Address) : stateObject SecureTrie :=
  default (newObject a (mkAccount 0 0 0 [])) (stateObjects two_accounts !! a).
Lemma two_writable : Forall (writable (H := demo_D) (good := good_trie (NewDatabase ∅)) two_accounts) [alice; bob_addr].
Proof.
  assert (forall a, is_address a -> stateObjects two_accounts !! a = Some (object_of a) -> account_range (data (object_of a)) ->
    storage_of (H := demo_D) (object_of a) = Some (mkSecure (mkTrie None 0 0) ∅ false) -> dirtyStorage (object_of a) = ∅ ->
    writable (H := demo_D) (good := good_trie (NewDatabase ∅)) two_accounts a) as Hw.
  { intros a Ha Ho Hr Hs Hd. split; [done|]. exists (object_of a). split; [done|]. split; [done|]. split.
    - intros t Ht. rewrite Hs in Ht. injection Ht as <-. exists (fun _ => []). apply trie_map_empty.
    - intros k v. rewrite Hd. by rewrite lookup_empty. }
  constructor; [|constructor; [|constructor]]; apply Hw; try (vm_compute; reflexivity); vm_compute; repeat split; try discriminate; repeat constructor; discriminate.
Qed.
Lemma Finalise_order_irrelevant_witness :
  exists s1 s2, Finalise_accounts (H := demo_D) true [alice; bob_addr] two_accounts = Ok (tt, s1) /\
    Finalise_accounts (H := demo_D) true [bob_addr; alice] two_accounts = Ok (tt, s2) /\
    Trie_Hash (Database := demo_D) (s_trie s1) = Trie_Hash (Database := demo_D) (s_trie s2).
Proof.
  destruct (Finalise_order_irrelevant demo_decode empty_Q (NewDatabase ∅) (NewDatabase_ok empty_Q) eq_refl demo_decode_encode true two_accounts
    [alice; bob_addr] [bob_addr; alice]) as (s1 & s2 & H1 & H2 & H3 & _).
  - apply perm_swap.
  - apply (bool_decide_unpack _). vm_compute. exact I.
  - exact two_writable.
  - exists (fun _ => []). apply trie_map_empty.
  - exists s1, s2. exact (conj H1 (conj H2 H3)).
Defined.
