(* ===== verification/StateTransition.v ===== *)
(** * Applying a message

    Models [core/state_transition.go] and, for one thread, [core/gaspool.go]:
    the purchase of gas, the intrinsic cost of a message, its execution by the
    virtual machine, the refund and the payment of the miner. [GasPool] has
    the pool shared by many threads. *)

From S2P Require Import Prelude CommonMath Params StateIface Machine EvmTypes Evm Interpreter.
From S2P Require Import EvmInv InstrSafe CallSafe LoopSafe.
Local Open Scope Z_scope.

(** ** Messages and errors *)

(** [types.Message], and the interface [Message] it implements. *)
Record Message : Type := mkMessage {
  msg_to : option Address;
  msg_from : Address;
  msg_nonce : Z;
  msg_amount : Z;
  msg_gasLimit : Z;
  msg_gasPrice : Z;
  msg_data : bytes;
  msg_checkNonce : bool;
}.

Inductive coreError : Type :=
| ErrGasLimitReached
| ErrNonceTooHigh
| ErrNonceTooLow
| errInsufficientBalanceForGas
| VmError (e : Error).

(** ** gaspool.go *)

Definition AddGas (amount : Z) : M Z unit :=
  gp ← gets id;
  if MaxUint64 - amount <? gp then panic (Msg "gas pool pushed above uint64")
  else modify (fun gp => u64 (gp + amount)).
(** A thread that runs alone swaps at the first attempt. *)
Definition SubGas (amount : Z) : M Z (option coreError) :=
  gaspool ← gets id;
  if gaspool <? amount then mret (Some ErrGasLimitReached)
  else modify (fun _ => gaspool - amount);; mret None.

(** ** state_transition.go *)

Definition nonzero_bytes (data : bytes) : Z :=
  fold_left (fun nz byt => if byt =? 0 then nz else u64 (nz + 1)) data 0.

Definition IntrinsicGas (data : bytes) (contractCreation homestead : bool) : Error + Z :=
  let gas := if contractCreation && homestead then TxGasContractCreation else TxGas in
  if 0 <? zlen data then
    let nz := nonzero_bytes data in
    if (MaxUint64 - gas) / TxDataNonZeroGas <? nz then inl ErrOutOfGas
    else
      let gas := u64 (gas + u64 (nz * TxDataNonZeroGas)) in
      let z := u64 (zlen data - nz) in
      if (MaxUint64 - gas) / TxDataZeroGas <? z then inl ErrOutOfGas
      else inr (u64 (gas + u64 (z * TxDataZeroGas)))
  else inr gas.

(** The changing fields; the message, the gas price, the value and the data
    are those of the message throughout. *)
Record StateTransition (S : Type) : Type := mkTransition {
  gp : Z;
  st_gas : Z;
  initialGas : Z;
  st_evm : EVM S;
}.
Arguments mkTransition {S}.
Arguments gp {S}.
Arguments st_gas {S}.
Arguments initialGas {S}.
Arguments st_evm {S}.

Section transition.
Context {S : Type} `{StateDB S} `{Crypto}.
Context (env : Env S) (fuel : nat) (msg : Message).
Abbreviation ST := (StateTransition S).

Definition st_set_gp (x : Z) (st : ST) : ST := mkTransition x (st_gas st) (initialGas st) (st_evm st).
Definition st_set_gas (x : Z) (st : ST) : ST := mkTransition (gp st) x (initialGas st) (st_evm st).
Definition st_set_initial (x : Z) (st : ST) : ST := mkTransition (gp st) (st_gas st) x (st_evm st).
Definition st_set_evm (x : EVM S) (st : ST) : ST := mkTransition (gp st) (st_gas st) (initialGas st) x.
Definition on_pool {A} (m : M Z A) : M ST A := zoom gp st_set_gp m.
Definition st_on_evm {A} (m : M (EVM S) A) : M ST A := zoom st_evm st_set_evm m.
(** [st.state] is the state database of [st.evm]. *)
Definition st_state {A} (m : M S A) : M ST A := st_on_evm (on_db m).

Definition NewStateTransition (e : EVM S) (pool : Z) : ST := mkTransition pool 0 0 e.

Definition st_to : Address := default 0 (msg_to msg).

Definition useGas (amount : Z) : M ST (option coreError) :=
  g ← gets st_gas;
  if g <? amount then mret (Some (VmError ErrOutOfGas))
  else modify (fun st => st_set_gas (u64 (st_gas st - amount)) st);; mret None.

Definition buyGas : M ST (option coreError) :=
  let mgval := msg_gasLimit msg * msg_gasPrice msg in
  b ← st_state (GetBalance (msg_from msg));
  if b <? mgval then mret (Some errInsufficientBalanceForGas)
  else
    err ← on_pool (SubGas (msg_gasLimit msg));
    match err with
    | Some e => mret (Some e)
    | None =>
        modify (fun st => st_set_gas (u64 (st_gas st + msg_gasLimit msg)) st);;
        modify (st_set_initial (msg_gasLimit msg));;
        st_state (SubBalance (msg_from msg) mgval);;
        mret None
    end.

Definition preCheck : M ST (option coreError) :=
  if msg_checkNonce msg then buyGas
  else if msg_checkNonce msg then
    nonce ← st_state (GetNonce (msg_from msg));
    if nonce <? msg_nonce msg then mret (Some ErrNonceTooHigh)
    else if msg_nonce msg <? nonce then mret (Some ErrNonceTooLow)
    else buyGas
  else buyGas.

Definition gasUsed (st : ST) : Z := u64 (initialGas st - st_gas st).

Definition refundGas : M ST unit :=
  used ← gets gasUsed;
  let refund := used / 2 in
  r ← st_state GetRefund;
  refund ← (if r <? refund then st_state GetRefund else mret refund);
  modify (fun st => st_set_gas (u64 (st_gas st + refund)) st);;
  g ← gets st_gas;
  st_state (AddBalance (msg_from msg) (g * msg_gasPrice msg));;
  on_pool (AddGas g).

(** The call or creation that executes the message: the result, the gas left
    and the error of the virtual machine. *)
Definition execute : M ST (bytes * option Error) :=
  g ← gets st_gas;
  let sender := AccountRef (msg_from msg) in
  match msg_to msg with
  | None =>
      r ← st_on_evm (EVM_Create env fuel sender (msg_data msg) g (msg_amount msg));
      let '(ret, _, g, vmerr) := r in
      modify (st_set_gas g);; mret (ret, vmerr)
  | Some _ =>
      n ← st_state (GetNonce (ContractRef_Address sender));
      st_state (SetNonce (msg_from msg) (u64 (n + 1)));;
      r ← st_on_evm (EVM_Call env fuel sender st_to (msg_data msg) g (msg_amount msg));
      let '(ret, g, vmerr) := r in
      modify (st_set_gas g);; mret (ret, vmerr)
  end.

(** The refund and the fee of the miner. *)
Definition settle : M ST unit :=
  refundGas;;
  used ← gets gasUsed;
  st_state (AddBalance (Coinbase (context env)) (used * msg_gasPrice msg)).

Definition TransitionDb : M ST (bytes * Z * bool * option coreError) :=
  err ← preCheck;
  match err with
  | Some e => mret ([], 0, false, Some e)
  | None =>
      let homestead := IsHomestead (chainConfig env) (number env) in
      let contractCreation := match msg_to msg with None => true | Some _ => false end in
      match IntrinsicGas (msg_data msg) contractCreation homestead with
      | inl e => mret ([], 0, false, Some (VmError e))
      | inr gas =>
          err ← useGas gas;
          match err with
          | Some e => mret ([], 0, false, Some e)
          | None =>
              '(ret, vmerr) ← execute;
              if decide (vmerr = Some ErrInsufficientBalance)
              then mret ([], 0, false, Some (VmError ErrInsufficientBalance))
              else
                settle;;
                used ← gets gasUsed;
                mret (ret, used, match vmerr with Some _ => true | None => false end, None)
          end
      end
  end.

Definition ApplyMessage (e : EVM S) (pool : Z) : outcome (bytes * Z * bool * option coreError * ST) :=
  TransitionDb (NewStateTransition e pool).
End transition.

(** ** The intrinsic gas *)

Lemma nonzero_bytes_spec data :
  zlen data < 2 ^ 63 -> nonzero_bytes data = zlen (filter (fun b => b <> 0) data) /\ 0 <= nonzero_bytes data <= zlen data.
Proof.
  assert (forall acc, 0 <= acc -> acc + zlen data < 2 ^ 64 ->
    fold_left (fun nz byt => if byt =? 0 then nz else u64 (nz + 1)) data acc
      = acc + zlen (filter (fun b => b <> 0) data) /\
    zlen (filter (fun b => b <> 0) data) <= zlen data) as Hacc.
  { induction data as [|b data IH]; intros acc H0 Hl; [split; [change (acc = acc + 0); lia|done]|]. rewrite zlen_cons in Hl |- *.
    pose proof (zlen_nonneg data). cbn [fold_left]. rewrite filter_cons. destruct (Z.eqb_spec b 0) as [->|Hb].
    - rewrite decide_False by (by intros []). destruct (IH acc) as [-> ?]; [lia..|]. split; [done|lia].
    - rewrite decide_True, zlen_cons by done. rewrite u64_id by (unfold is_u64; lia).
      destruct (IH (acc + 1)) as [-> ?]; [lia..|]. split; lia. }
  intros Hl. pose proof (zlen_nonneg (filter (fun b => b <> 0) data)). destruct (Hacc 0) as [He Hle]; [lia..|].
  unfold nonzero_bytes. rewrite He. split; lia.
Qed.

(** The cost of the data of a message, in the integers. *)
Definition intrinsic_cost (data : bytes) (contractCreation homestead : bool) : Z :=
  let nz := zlen (filter (fun b => b <> 0) data) in
  (if contractCreation && homestead then TxGasContractCreation else TxGas)
  + TxDataNonZeroGas * nz + TxDataZeroGas * (zlen data - nz).

Lemma div_bound_iff x y : 0 <= x <= MaxUint64 -> 0 < y -> forall n, MaxUint64 < x + n * y <-> (MaxUint64 - x) / y < n.
Proof.
  intros Hx Hy n. split; intros Hn.
  - apply Z.div_lt_upper_bound; lia.
  - pose proof (Z.div_mod (MaxUint64 - x) y). pose proof (Z.mod_pos_bound (MaxUint64 - x) y). nia.
Qed.

Lemma intrinsic_cost_ok data c h :
  zlen data < 2 ^ 63 ->
  IntrinsicGas data c h =
    if intrinsic_cost data c h <? 2 ^ 64 then inr (intrinsic_cost data c h) else inl ErrOutOfGas.
Proof.
  intros Hl. destruct (nonzero_bytes_spec data Hl) as [Hnz Hr]. unfold IntrinsicGas, intrinsic_cost.
  rewrite <- Hnz. pose proof (zlen_nonneg data). set (nz := nonzero_bytes data) in *.
  set (base := if c && h then TxGasContractCreation else TxGas).
  assert (0 <= base <= 53000) as Hb by (unfold base; destruct (c && h); done).
  destruct (Z.ltb_spec 0 (zlen data)).
  2: { assert (zlen data = 0) as -> by lia. assert (nz = 0) as -> by lia.
       destruct (Z.ltb_spec (base + TxDataNonZeroGas * 0 + TxDataZeroGas * (0 - 0)) (2 ^ 64)); [f_equal; lia|lia]. }
  pose proof (div_bound_iff base TxDataNonZeroGas ltac:(unfold MaxUint64; lia) ltac:(done) nz) as Hn1.
  unfold MaxUint64 in *.
  destruct (Z.ltb_spec ((2 ^ 64 - 1 - base) / 68) nz) as [Hd|Hd].
  - apply Hn1 in Hd. destruct (Z.ltb_spec (base + 68 * nz + 4 * (zlen data - nz)) (2 ^ 64)); [lia|done].
  - assert (base + nz * 68 <= 2 ^ 64 - 1) by lia. rewrite (u64_id (nz * 68)) by (unfold is_u64; lia).
    rewrite (u64_id (base + nz * 68)), (u64_id (zlen data - nz)) by (unfold is_u64; lia).
    pose proof (div_bound_iff (base + nz * 68) 4 ltac:(unfold MaxUint64; lia) ltac:(done) (zlen data - nz)) as Hz.
    unfold MaxUint64 in Hz. destruct (Z.ltb_spec ((2 ^ 64 - 1 - (base + nz * 68)) / 4) (zlen data - nz)) as [He|He].
    + apply Hz in He. destruct (Z.ltb_spec (base + 68 * nz + 4 * (zlen data - nz)) (2 ^ 64)); [lia|done].
    + assert (base + nz * 68 + (zlen data - nz) * 4 <= 2 ^ 64 - 1) by lia.
      rewrite (u64_id ((zlen data - nz) * 4)), u64_id by (unfold is_u64; lia).
      destruct (Z.ltb_spec (base + 68 * nz + 4 * (zlen data - nz)) (2 ^ 64)); [f_equal; lia|lia].
Qed.
(** The intrinsic gas of a message is exactly the sum of the base cost and
    the costs of its zero and nonzero bytes, and it is refused exactly when
    that sum does not fit 64 bits. *)
Theorem IntrinsicGas_exact data c h :
  zlen data < 2 ^ 63 ->
  IntrinsicGas data c h =
    if intrinsic_cost data c h <? 2 ^ 64 then inr (intrinsic_cost data c h) else inl ErrOutOfGas.
Proof. apply intrinsic_cost_ok. Qed.
Lemma IntrinsicGas_exact_witness : IntrinsicGas [0; 1; 2] false true = inr (21000 + 2 * 68 + 4).
Proof. rewrite (IntrinsicGas_exact [0; 1; 2] false true); reflexivity. Defined.

(** ** The transition *)

Section transition_safety.
Context {S : Type} `{StateDB S} `{Crypto} {SL : StateDBLaws S} {CL : CryptoLaws}.
Context (env : Env S) (Hctx : context_ok (context env)) (fuel : nat) (msg : Message).
Abbreviation ST := (StateTransition S).
Implicit Types st : ST.

(** What a message may contain, and where a transition may start. *)
Definition msg_ok : Prop :=
  data_ok (msg_data msg) /\ 0 <= msg_gasLimit msg < MaxGas /\ 0 <= msg_gasPrice msg /\ is_u256 (msg_amount msg).
Definition st_world st : World := view (statedb (st_evm st)).
Definition st_ok st : Prop := evm_ok (st_evm st) /\ static env (st_evm st) = false.

Lemma wp_st_state {A} PN FU (m : M S A) Q st :
  wp PN FU m (fun a s' => Q a (st_set_evm (set_statedb s' (st_evm st)) st)) (statedb (st_evm st)) ->
  wp PN FU (st_state m) Q st.
Proof. intros Hm. apply wp_zoom, wp_zoom. exact Hm. Qed.

(** Reads of the state database leave the transition as it is, up to the
    caches of the database. *)
Definition same_st st st' : Prop :=
  st_ok st' /\ st_world st' = st_world st /\
  gp st' = gp st /\ st_gas st' = st_gas st /\ initialGas st' = initialGas st.
Lemma wp_st_read {A} PN FU (m : M S A) (P : A -> Prop) Q st :
  st_ok st ->
  wp never False m (fun a s' => P a /\ becomes inv view revs (statedb (st_evm st)) (st_world st) s')
    (statedb (st_evm st)) ->
  (forall a st', P a -> same_st st st' -> Q a st') -> wp PN FU (st_state m) Q st.
Proof.
  intros [He Hst] Hm HQ. apply wp_st_state. eapply wp_mono; [eapply wp_weaken; [exact Hm|done|done]|].
  intros a s' [HP (Hi & Hv & Hr)]. apply HQ; [done|]. split; [|by split_and!].
  split; [|done]. destruct He as (_ & Hw & Hj & Hrd & Hd). split_and!; try done. cbn. by rewrite Hv.
Qed.
(** Writes end in the world they should, if it is a good one. *)
Definition st_becomes st (w : World) st' : Prop :=
  st_ok st' /\ st_world st' = w /\
  gp st' = gp st /\ st_gas st' = st_gas st /\ initialGas st' = initialGas st.
Lemma wp_st_write {A} PN FU (m : M S A) w Q st :
  st_ok st -> world_ok w ->
  wp never False m (fun _ s' => becomes inv view revs (statedb (st_evm st)) w s') (statedb (st_evm st)) ->
  (forall a st', st_becomes st w st' -> Q a st') -> wp PN FU (st_state m) Q st.
Proof.
  intros [He Hst] Hw Hm HQ. apply wp_st_state. eapply wp_mono; [eapply wp_weaken; [exact Hm|done|done]|].
  intros a s' (Hi & Hv & Hr). apply HQ. split; [|by split_and!].
  split; [|done]. destruct He as (_ & _ & Hj & Hrd & Hd). split_and!; try done. cbn. by rewrite Hv.
Qed.

(** The price of all the gas of the message. *)
Definition mgval : Z := msg_gasLimit msg * msg_gasPrice msg.

(** Buying the gas fails without any change, or takes the gas from the pool and
    its price from the sender. *)
Lemma buyGas_ok st :
  msg_ok -> st_ok st -> is_u64 (gp st) -> st_gas st = 0 ->
  wp never False (buyGas msg) (fun r st' =>
    match r with
    | Some e => same_st st st' /\
        (e = errInsufficientBalanceForGas /\ w_balance (st_world st) (msg_from msg) < mgval \/
         e = ErrGasLimitReached /\ gp st < msg_gasLimit msg)
    | None =>
        0 <= mgval <= w_balance (st_world st) (msg_from msg) /\ gp st' = gp st - msg_gasLimit msg /\
        st_gas st' = msg_gasLimit msg /\ initialGas st' = msg_gasLimit msg /\ msg_gasLimit msg <= gp st /\
        st_ok st' /\ st_world st' = w_add_balance (msg_from msg) (- mgval) (st_world st)
    end) st.
Proof.
  intros (_ & Hg & Hp & _) Hst Hgp Hz. unfold buyGas. fold mgval.
  assert (0 <= mgval) by (unfold mgval; nia). apply wp_bind.
  eapply wp_st_read; [exact Hst|apply law_GetBalance, Hst|]. intros b st1 -> Hsame.
  fold (st_world st). destruct (Z.ltb_spec (w_balance (st_world st) (msg_from msg)) mgval) as [Hb|Hb].
  { apply wp_ret. split; [done|]. left. done. }
  pose proof Hsame as (Hst1 & Hw1 & Hgp1 & Hgas1 & Hin1).
  apply wp_bind, wp_zoom. unfold SubGas. apply wp_bind, wp_gets. unfold id. rewrite Hgp1.
  destruct (Z.ltb_spec (gp st) (msg_gasLimit msg)) as [Hl|Hl].
  { apply wp_ret, wp_ret. split; [|right; done]. destruct st1. cbn in *. by subst. }
  apply wp_bind, wp_modify, wp_ret. apply wp_bind, wp_modify. apply wp_bind, wp_modify. cbn [st_gas gp st_set_gp].
  rewrite Hgas1, Hz, Z.add_0_l, u64_id by (unfold is_u64, MaxGas in *; lia). apply wp_bind.
  eapply (wp_st_write _ _ _ (w_add_balance (msg_from msg) (- mgval) (st_world st))); [done| | |].
  - apply world_ok_burn; [apply Hst|done].
  - rewrite <- Hw1. apply law_SubBalance, Hst1.
  - intros [] st' (Hst' & Hw' & Hgp' & Hgas' & Hin'). apply wp_ret. cbn in *. by split_and!.
Qed.

Lemma preCheck_buyGas : preCheck msg = buyGas msg (S := S).
Proof. unfold preCheck. by destruct (msg_checkNonce msg). Qed.

(** The execution returns at most the gas it got, and the world evolves by the
    steps of the virtual machine; a call that fails changes the nonce only. *)
Lemma execute_ok st :
  msg_ok -> st_ok st -> 0 <= st_gas st < MaxGas ->
  wp (allowed env) (Z.of_nat fuel <= st_gas st) (execute env fuel msg) (fun r st' =>
    0 <= st_gas st' <= st_gas st /\ st_ok st' /\ wtrace false (st_world st) (st_world st') /\
    gp st' = gp st /\ initialGas st' = initialGas st /\
    (is_Some (msg_to msg) -> is_Some r.2 ->
       st_world st' = w_upd (msg_from msg)
         (set_nonce (u64 (ac_nonce (w_get (st_world st) (msg_from msg)) + 1))) (st_world st))) st.
Proof.
  intros (Hd & _ & _ & Ha) Hst Hg. pose proof (EVMInterpreter_Run_ok env Hctx fuel) as HRun.
  unfold execute. apply wp_bind, wp_gets. destruct (msg_to msg) as [to|].
  - apply wp_bind. eapply wp_st_read; [exact Hst|apply law_GetNonce, Hst|].
    intros n st1 -> (Hst1 & Hw1 & Hgp1 & Hgas1 & Hin1). apply wp_bind.
    set (w := w_upd (msg_from msg) (set_nonce (u64 (ac_nonce (w_get (st_world st) (msg_from msg)) + 1))) (st_world st)).
    assert (wstep false (st_world st) w) as Hstep by (apply ws_nonce, u64_range).
    eapply (wp_st_write _ _ _ w); [exact Hst1|eapply wstep_ok; [exact Hstep|apply Hst]| |].
    { unfold w. change (view (statedb (st_evm st))) with (st_world st). rewrite <- Hw1. apply law_SetNonce, Hst1. }
    intros [] st2 (Hst2 & Hw2 & Hgp2 & Hgas2 & Hin2). apply wp_bind, wp_zoom.
    eapply wp_mono; [apply (Call_ok env _ _ HRun Hctx); try done; [by rewrite (proj2 Hst2)|apply Hst2]|].
    intros [[ret g] err] e' (_ & Hgas & (He' & _ & Hro & _ & Ht & _) & Hf). apply wp_bind, wp_modify, wp_ret. cbn.
    unfold st_world in Hw2 |- *. cbn. rewrite Hw2 in Ht, Hf. rewrite (proj2 Hst2) in Ht.
    split; [lia|]. split; [split; [done|]|].
    { unfold static. cbn. rewrite Hro. apply Hst2. }
    split; [by eapply rtc_l|]. split; [congruence|]. split; [congruence|].
    intros _ [x Hx]. cbn in Hx. apply Hf. by rewrite Hx.
  - apply wp_bind, wp_zoom.
    eapply wp_mono; [apply (Create_ok env _ _ HRun Hctx); try done; apply Hst|].
    intros [[[ret a] g] err] e' (_ & Hgas & (He' & _ & Hro & _ & Ht & _)). apply wp_bind, wp_modify, wp_ret. cbn.
    split; [done|]. split; [split; [done|]|].
    { unfold static. cbn. rewrite Hro. apply Hst. }
    by split_and!.
Qed.

(** The gas handed back at the end: what is left and the refund, which is at
    most half of what was used. *)
Definition gas_back st : Z :=
  st_gas st + Z.min ((initialGas st - st_gas st) / 2) (w_refund (st_world st)).

Lemma gas_back_range st :
  st_ok st -> 0 <= st_gas st <= initialGas st -> st_gas st <= gas_back st <= initialGas st.
Proof.
  intros [(_ & (_ & Hr & _) & _) _] Hg. unfold gas_back. unfold is_u64 in Hr. fold (st_world st) in Hr.
  pose proof (Z.div_pos (initialGas st - st_gas st) 2). pose proof (Z.div_le_upper_bound (initialGas st - st_gas st) 2
    (initialGas st - st_gas st)). lia.
Qed.

Lemma settle_ok n st :
  st_ok st -> 0 <= st_gas st <= initialGas st -> 0 <= gp st -> gp st + initialGas st < 2 ^ 64 ->
  0 <= msg_gasPrice msg -> supply_le n (st_world st) -> n + initialGas st * msg_gasPrice msg <= 2 ^ 256 - 1 ->
  wp never False (settle env msg) (fun _ st' =>
    st_ok st' /\ gp st' = gp st + gas_back st /\ gasUsed st' = initialGas st - gas_back st /\
    st_world st' = w_add_balance (Coinbase (context env)) ((initialGas st - gas_back st) * msg_gasPrice msg)
      (w_add_balance (msg_from msg) (gas_back st * msg_gasPrice msg) (st_world st))) st.
Proof.
  intros Hst Hg Hgp0 Hgp1 Hp Hs Hn. pose proof (gas_back_range st Hst Hg) as Hb.
  set (g := gas_back st) in *. set (used := initialGas st - g).
  assert (0 <= g * msg_gasPrice msg /\ 0 <= used * msg_gasPrice msg /\
    g * msg_gasPrice msg + used * msg_gasPrice msg = initialGas st * msg_gasPrice msg) as (Hm1 & Hm2 & Hm3)
    by (unfold used; nia).
  unfold settle, refundGas. apply wp_bind, wp_bind, wp_gets.
  assert (gasUsed st = initialGas st - st_gas st) as -> by (apply u64_id; unfold is_u64; lia). apply wp_bind.
  eapply wp_st_read; [exact Hst|apply law_GetRefund, Hst|]. intros r st1 -> Hsame1.
  fold (st_world st). set (half := (initialGas st - st_gas st) / 2) in *. apply wp_bind.
  assert (forall Q : Z -> ST -> Prop, (forall st', same_st st st' -> Q (Z.min half (w_refund (st_world st))) st') ->
    wp never False (if w_refund (st_world st) <? half then st_state GetRefund else mret half) Q st1) as Hmin.
  { intros Q HQ. destruct (Z.ltb_spec (w_refund (st_world st)) half).
    - destruct Hsame1 as (Hst1 & Hw1 & ? & ? & ?).
      eapply wp_st_read; [exact Hst1|apply law_GetRefund, Hst1|]. intros r st2 -> (Hst2 & Hw2 & ? & ? & ?).
      fold (st_world st1). rewrite Hw1. replace (w_refund (st_world st)) with (Z.min half (w_refund (st_world st))) at 1 by lia.
      apply HQ. split_and!; try done; congruence.
    - apply wp_ret. replace half with (Z.min half (w_refund (st_world st))) at 1 by lia. by apply HQ. }
  apply Hmin. clear Hmin Hsame1 st1. intros st1 (Hst1 & Hw1 & Hgp & Hgas & Hin).
  apply wp_bind, wp_modify, wp_bind, wp_gets. cbn [st_gas st_set_gas]. rewrite Hgas.
  assert (st_gas st + Z.min half (w_refund (st_world st)) = g) as -> by done.
  rewrite (u64_id g) by (unfold is_u64; lia). apply wp_bind.
  set (w1 := w_add_balance (msg_from msg) (g * msg_gasPrice msg) (st_world st)).
  assert (supply_le (n + g * msg_gasPrice msg) w1) as Hs1 by (by apply supply_le_mint).
  assert (world_ok w1) as Hok1 by (apply (world_ok_mint n); [apply Hst|done|lia|lia]).
  eapply (wp_st_write _ _ _ w1); [exact Hst1|exact Hok1|unfold w1; rewrite <- Hw1; apply law_AddBalance, Hst1|].
  intros [] st2 (Hst2 & Hw2 & Hgp2 & Hgas2 & Hin2). cbn in Hgp2, Hgas2, Hin2.
  apply wp_zoom. unfold AddGas. apply wp_bind, wp_gets. unfold id.
  destruct (Z.ltb_spec (MaxUint64 - g) (gp st2)); [unfold MaxUint64 in *; lia|]. apply wp_modify.
  apply wp_bind, wp_gets. set (st3 := st_set_gp _ st2).
  assert (gasUsed st3 = used) as ->.
  { unfold gasUsed. cbn. rewrite Hin2, Hgas2, Hin. apply u64_id. unfold is_u64. lia. }
  set (w2 := w_add_balance (Coinbase (context env)) (used * msg_gasPrice msg) w1).
  eapply (wp_st_write _ _ _ w2); [exact Hst2|apply (world_ok_mint (n + g * msg_gasPrice msg)); [done|done|lia|lia]| |].
  { unfold w2. rewrite <- Hw2. apply law_AddBalance, Hst2. }
  intros [] st4 (Hst4 & Hw4 & Hgp4 & Hgas4 & Hin4). cbn in Hgp4, Hgas4, Hin4.
  split; [done|]. unfold gasUsed.
  rewrite Hin4, Hgas4, Hin2, Hgas2, Hin, Hgp4, Hgp2, Hgp, !u64_id by (unfold is_u64; lia). by split_and!.
Qed.

(** The intrinsic gas of the message. *)
Definition msg_cost : Z :=
  intrinsic_cost (msg_data msg) (match msg_to msg with None => true | Some _ => false end)
    (IsHomestead (chainConfig env) (number env)).
Lemma msg_cost_nonneg : 0 <= msg_cost.
Proof.
  unfold msg_cost, intrinsic_cost. set (data := msg_data msg).
  assert (zlen (filter (fun b => b <> 0) data) <= zlen data) by (unfold zlen; pose proof (length_filter (fun b => b <> 0) data); lia).
  pose proof (zlen_nonneg (filter (fun b => b <> 0) data)).
  destruct (_ && _); lia.
Qed.
(** The sender has paid [used] gas to the miner and used a nonce. *)
Definition fee_paid (used : Z) (w : World) : World :=
  let w1 := w_add_balance (msg_from msg) (- mgval) w in
  let w2 := w_upd (msg_from msg) (set_nonce (u64 (ac_nonce (w_get w1 (msg_from msg)) + 1))) w1 in
  w_add_balance (Coinbase (context env)) (used * msg_gasPrice msg)
    (w_add_balance (msg_from msg) ((msg_gasLimit msg - used) * msg_gasPrice msg) w2).

(** The sender has paid for all the gas of the message, and the virtual machine
    has made [w'] of that. *)
Definition executed_to (w w' : World) : Prop := wtrace false (w_add_balance (msg_from msg) (- mgval) w) w'.
(** The rest of the gas is paid back to the sender, and the gas used is paid to
    the miner. *)
Definition settled (used : Z) (w' : World) : World :=
  w_add_balance (Coinbase (context env)) (used * msg_gasPrice msg) (w_add_balance (msg_from msg) ((msg_gasLimit msg - used) * msg_gasPrice msg) w').

(** What a transition does: on an error the pool has lost nothing or all the gas
    of the message; otherwise exactly what was used, which is more than half
    of what the execution used up. *)
Definition transition_post (n pool : Z) (w : World) (r : bytes * Z * bool * option coreError) st : Prop :=
  let '(ret, used, failed, err) := r in
  st_ok st /\ supply_le n (st_world st) /\
  match err with
  | Some e => used = 0 /\ failed = false /\
      (gp st = pool /\ st_world st = w \/ gp st = pool - msg_gasLimit msg /\ executed_to w (st_world st))
  | None =>
      gp st = pool - used /\ msg_gasLimit msg <= pool /\ msg_cost <= msg_gasLimit msg /\
      msg_cost <= 2 * used /\ used <= msg_gasLimit msg /\
      (failed = true -> is_Some (msg_to msg) -> st_world st = fee_paid used w) /\
      exists w', executed_to w w' /\ supply_le (n - mgval) w' /\ st_world st = settled used w'
  end.

Lemma useGas_cost st g :
  0 <= st_gas st < MaxGas -> 0 <= g ->
  useGas g st = if st_gas st <? g then Ok (Some (VmError ErrOutOfGas), st)
                else Ok (None, st_set_gas (st_gas st - g) st).
Proof.
  intros Hg H1. unfold useGas, gets, mbind, M_bind. destruct (Z.ltb_spec (st_gas st) g); [done|].
  unfold modify, mret, M_ret. rewrite u64_id by (unfold is_u64, MaxGas in *; lia). done.
Qed.

Lemma TransitionDb_ok n pool e :
  msg_ok -> evm_ok e -> static env e = false -> is_u64 pool -> supply_le n (view (statedb e)) -> n <= 2 ^ 256 - 1 ->
  wp (allowed env) (Z.of_nat fuel <= msg_gasLimit msg) (TransitionDb env fuel msg)
    (transition_post n pool (view (statedb e))) (NewStateTransition e pool).
Proof.
  intros Hm He Hst Hpool Hs Hn. pose proof Hm as ([Hd Hdl] & Hg & Hp & _). set (st0 := NewStateTransition e pool).
  assert (st_ok st0) as Hst0 by done. unfold TransitionDb. rewrite preCheck_buyGas. apply wp_bind.
  eapply wp_mono; [eapply wp_weaken; [by apply (buyGas_ok st0)|done|done]|]. intros [err|] st1 H1.
  { destruct H1 as [(Hst1 & Hw1 & Hgp1 & _) _]. apply wp_ret. split; [done|]. rewrite Hw1. split; [done|].
    split; [done|]. split; [done|]. by left. }
  destruct H1 as (Hmg & Hgp1 & Hgas1 & Hin1 & Hle & Hst1 & Hw1). cbn in Hmg, Hgp1, Hle, Hw1.
  assert (supply_le (n - mgval) (st_world st1)) as Hs1 by (rewrite Hw1; by apply supply_le_burn).
  assert (forall st2 r, supply_le (n - mgval) (st_world st2) -> wtrace false (st_world st1) (st_world st2) -> st_ok st2 -> gp st2 = gp st1 ->
    transition_post n pool (view (statedb e)) ([], 0, false, Some r) st2) as Herr.
  { intros st2 r Hs2 Ht2 Hst2 Hgp2. split; [done|]. rewrite Hgp2.
    split; [intros l Hl; specialize (Hs2 l Hl); lia|]. split; [done|]. split; [done|]. right. split; [done|]. rewrite Hw1 in Ht2. exact Ht2. }
  rewrite (intrinsic_cost_ok _ _ _ Hdl). fold msg_cost. pose proof msg_cost_nonneg as Hc0.
  destruct (Z.ltb_spec msg_cost (2 ^ 64)) as [Hc|Hc]; [|apply wp_ret; by apply Herr].
  apply wp_bind. unfold wp at 1. rewrite useGas_cost by (done || lia). rewrite Hgas1.
  destruct (Z.ltb_spec (msg_gasLimit msg) msg_cost) as [Hc1|Hc1]; [apply wp_ret; by apply Herr|].
  set (st2 := st_set_gas (msg_gasLimit msg - msg_cost) st1). apply wp_bind.
  eapply wp_mono; [eapply wp_weaken; [apply (execute_ok st2); [done|done|cbn; lia]|done|cbn; lia]|].
  intros [ret vmerr] st3 (Hg3 & Hst3 & Ht3 & Hgp3 & Hin3 & Hf3). cbn in Hg3, Hgp3, Hin3.
  assert (supply_le (n - mgval) (st_world st3)) as Hs3 by (eapply (wtrace_supply _ false); [exact Ht3|apply Hst1|done]).
  destruct (decide (vmerr = Some ErrInsufficientBalance)) as [Hib|Hib]; [apply wp_ret; by apply Herr|].
  assert (0 <= st_gas st3 <= initialGas st3) as Hg3' by lia. pose proof (gas_back_range st3 Hst3 Hg3') as Hb.
  apply wp_bind. eapply wp_mono; [eapply wp_weaken; [apply (settle_ok (n - mgval) st3); try done; unfold is_u64, mgval in *; lia|done|done]|].
  intros [] st4 (Hst4 & Hgp4 & Hu4 & Hw4). apply wp_bind, wp_gets, wp_ret.
  assert (gas_back st3 - st_gas st3 <= (msg_gasLimit msg - st_gas st3) / 2) as Hhalf by (unfold gas_back; rewrite Hin3, Hin1; lia).
  pose proof (Z.mul_div_le (msg_gasLimit msg - st_gas st3) 2 ltac:(lia)). rewrite Hu4, Hin3, Hin1 in *.
  split; [done|]. split; [|split_and!; try lia].
  - rewrite Hw4. replace n with (n - mgval + gas_back st3 * msg_gasPrice msg
      + (msg_gasLimit msg - gas_back st3) * msg_gasPrice msg) by (unfold mgval; lia).
    apply supply_le_mint; [nia|]. apply supply_le_mint; [nia|done].
  - intros Hfail Hto. rewrite Hw4. unfold fee_paid.
    replace (msg_gasLimit msg - (msg_gasLimit msg - gas_back st3)) with (gas_back st3) by lia.
    rewrite (Hf3 Hto) by (by destruct vmerr). change (st_world st2) with (st_world st1). by rewrite Hw1.
  - exists (st_world st3). split; [change (st_world st2) with (st_world st1) in Ht3; rewrite Hw1 in Ht3; exact Ht3|]. split; [done|]. rewrite Hw4. unfold settled. do 3 f_equal. lia.
Qed.
End transition_safety.
