(* ===== verification/StateProcessor.v ===== *)
(** * Processing a block

    Models [core/state_processor.go] with [AsMessage] of
    [core/types/transaction.go]: a transaction becomes a message, is applied
    to the state, the state is finalised, and a receipt is made. The engine's
    own work at the end of a block is a parameter. *)

From S2P Require Import Prelude CommonMath Params Rlp StateIface Transaction Receipt Machine EvmTypes Evm Interpreter.
From S2P Require Import EvmInv InstrSafe CallSafe LoopSafe CoreState CoreStateOk CoreEvm Concrete Dao FinaliseProps StateDirty StateTransition.
Local Open Scope Z_scope.

Inductive processError : Type :=
| SenderError (e : txError)
| MessageError (e : coreError).

Section processor.
Context {T : Type} `{Database T} `{Crypto}.
(** The chain configuration and the options of the virtual machine; what
    [NewEVMContext] takes from the chain: the look-up of block hashes and the
    author of a header; the abort flag of the virtual machine. *)
Context (config : ChainConfig) (cfg : Config) (header : Header) (getHash : Z -> Hash) (Author : Header -> Address)
  (abort : nat -> bool) (fuel : nat).

Definition AsMessage (s : Signer) (tx : Transaction) : outcome (txError + Message) :=
  let d := tx_data tx in
  match Sender s tx with
  | Ok (inl err, _) => Ok (inl err)
  | Ok (inr from, _) =>
      Ok (inr (mkMessage (Recipient d) from (AccountNonce d) (Amount d) (tx_GasLimit d) (Price d) (Payload d) true))
  | Panic r => Panic r
  | OutOfFuel => OutOfFuel
  end.

(** The gas pool, the gas used by the block so far, and the state. *)
Record progress : Type := mkProgress {
  p_pool : Z;
  p_usedGas : Z;
  p_statedb : stateDB T;
}.

Definition message_env (msg : Message) (author : option Address) : Env (stateDB T) :=
  mkEnv (NewEVMContext (msg_from msg) (msg_gasPrice msg) header getHash Author author) config cfg abort.
(** The end of the transaction in the state, with the root of the receipt. *)
Definition finish_transaction : M (stateDB T) bytes :=
  if IsByzantium config (Some (Number header)) then Finalise true;; mret []
  else root ← IntermediateRoot (IsEIP158 config (Some (Number header))); mret (Hash_Bytes root).

Definition ApplyTransaction (author : option Address) (tx : Transaction)
  : M progress (processError + (Receipt * Z)) := fun p =>
  match AsMessage (MakeSigner config (Some (Number header))) tx with
  | Panic r => Panic r
  | OutOfFuel => OutOfFuel
  | Ok (inl err) => Ok (inl (SenderError err), p)
  | Ok (inr msg) =>
      let env := message_env msg author in
      match NewEVM env (p_statedb p) with
      | Panic r => Panic r
      | OutOfFuel => OutOfFuel
      | Ok vmenv =>
          match ApplyMessage env fuel msg vmenv (p_pool p) with
          | Panic r => Panic r
          | OutOfFuel => OutOfFuel
          | Ok (_, _, _, Some err, st) => Ok (inl (MessageError err), mkProgress (gp st) (p_usedGas p) (statedb (st_evm st)))
          | Ok (_, gas, failed, None, st) =>
              match finish_transaction (statedb (st_evm st)) with
              | Panic r => Panic r
              | OutOfFuel => OutOfFuel
              | Ok (root, s) =>
                  let usedGas := u64 (p_usedGas p + gas) in
                  let receipt := NewReceipt root failed usedGas in
                  let contract := match msg_to msg with
                                  | None => CreateAddress (msg_from msg) (AccountNonce (tx_data tx))
                                  | Some _ => 0
                                  end in
                  let logs := default [] (logs s !! Transaction_Hash tx) in
                  let receipt := mkReceipt (PostState receipt) (Receipt.Status receipt) (CumulativeGasUsed receipt)
                                   (r_Bloom receipt) logs (Transaction_Hash tx) contract gas in
                  match CreateBloom [receipt] with
                  | None => Panic (Msg "bloom bytes too big")
                  | Some bloom =>
                      let receipt := mkReceipt (PostState receipt) (Receipt.Status receipt) (CumulativeGasUsed receipt)
                                       bloom (r_Logs receipt) (r_TxHash receipt) (ContractAddress receipt) (r_GasUsed receipt) in
                      Ok (inr (receipt, gas), mkProgress (gp st) usedGas s)
                  end
              end
          end
      end
  end.

(** [block.Hash] and the work of the consensus engine at the end of a block. *)
Context (blockHash : Hash) (engine_Finalize : list Transaction -> list Receipt -> M (stateDB T) unit).

Definition p_on_state {A} (m : M (stateDB T) A) : M progress A :=
  zoom p_statedb (fun s p => mkProgress (p_pool p) (p_usedGas p) s) m.

Fixpoint Process_transactions (i : Z) (txs : list Transaction) : M progress (processError + list Receipt) :=
  match txs with
  | [] => mret (inr [])
  | tx :: txs' =>
      p_on_state (Prepare (Transaction_Hash tx) blockHash i);;
      r ← ApplyTransaction None tx;
      match r with
      | inl err => mret (inl err)
      | inr (receipt, _) =>
          rest ← Process_transactions (i + 1) txs';
          mret (match rest with inl err => inl err | inr receipts => inr (receipt :: receipts) end)
      end
  end.

Definition Process (txs : list Transaction) : M (stateDB T) (processError + (list Receipt * list Log * Z)) := fun s =>
  match AddGas (h_GasLimit header) 0 with
  | Panic r => Panic r
  | OutOfFuel => OutOfFuel
  | Ok (_, pool) =>
      let daofork := DAOForkSupport config && bool_decide (DAOForkBlock config = Some (Number header)) in
      match (when daofork ApplyDAOHardFork) s with
      | Panic r => Panic r
      | OutOfFuel => OutOfFuel
      | Ok (_, s) =>
          match Process_transactions 0 txs (mkProgress pool 0 s) with
          | Panic r => Panic r
          | OutOfFuel => OutOfFuel
          | Ok (inl err, p) => Ok (inl err, p_statedb p)
          | Ok (inr receipts, p) =>
              match engine_Finalize txs receipts (p_statedb p) with
              | Panic r => Panic r
              | OutOfFuel => OutOfFuel
              | Ok (_, s) => Ok (inr (receipts, concat (map r_Logs receipts), p_usedGas p), s)
              end
          end
      end
  end.

(** ** One transaction *)

Context {CL : CryptoLaws} {DL : DatabaseLaws T}.





(** ** All transactions *)

(** The receipts of the transactions [txs], when the block had used [used] gas
    before: one for each, in order, with the running total. *)
Fixpoint receipts_of (used : Z) (txs : list Transaction) (receipts : list Receipt) : Prop :=
  match txs, receipts with
  | [], [] => True
  | tx :: txs', r :: receipts' =>
      r_TxHash r = Transaction_Hash tx /\ CumulativeGasUsed r = u64 (used + r_GasUsed r) /\
      receipts_of (CumulativeGasUsed r) txs' receipts'
  | _, _ => False
  end.

Lemma ApplyTransaction_fields author tx p receipt gas p' :
  ApplyTransaction author tx p = Ok (inr (receipt, gas), p') ->
  r_TxHash receipt = Transaction_Hash tx /\ CumulativeGasUsed receipt = u64 (p_usedGas p + r_GasUsed receipt) /\
  p_usedGas p' = CumulativeGasUsed receipt.
Proof.
  unfold ApplyTransaction. destruct (AsMessage _ tx) as [[err|msg]| |]; [done| |done..].
  destruct (NewEVM _ _) as [vmenv| |]; [|done..].
  destruct (ApplyMessage _ _ _ _ _) as [[[[[ret g] failed] [err|]] st]| |]; [done| |done..].
  destruct (finish_transaction _) as [[root s]| |]; [|done..]. destruct (CreateBloom _) as [bloom|]; [|done].
  intros [= <- <- <-]. done.
Qed.

(** A block that is processed has a receipt for every transaction, with the
    running total of the gas, and the total of the last one is the gas used. *)
Lemma Process_transactions_receipts i txs p receipts p' :
  Process_transactions i txs p = Ok (inr receipts, p') ->
  receipts_of (p_usedGas p) txs receipts /\ p_usedGas p' = default (p_usedGas p) (CumulativeGasUsed <$> last receipts).
Proof.
  revert i p receipts p'. induction txs as [|tx txs IH]; intros i p receipts p'; cbn [Process_transactions].
  { unfold mret, M_ret. intros [= <- <-]. done. }
  unfold mbind, M_bind, p_on_state, zoom, Prepare, modify. cbn [p_pool p_usedGas p_statedb].
  match goal with |- context [ApplyTransaction None tx ?p0] => set (p1 := p0) end.
  destruct (ApplyTransaction None tx p1) as [[[err|[receipt gas]] p2]| |] eqn:Ha; [done| |done..].
  destruct (ApplyTransaction_fields None tx p1 receipt gas p2 Ha) as (Hh & Hc & Hu).
  destruct (Process_transactions (i + 1) txs p2) as [[[err|rest] p3]| |] eqn:Hr; [done| |done..].
  unfold mret, M_ret. intros [= <- <-]. destruct (IH _ _ _ _ Hr) as [Hrest Hlast]. rewrite Hu in Hrest, Hlast.
  split; [by split_and!|]. rewrite Hlast. destruct rest as [|r' rest]; [done|]. rewrite last_cons_cons.
  destruct (last (r' :: rest)) eqn:Hl; [done|]. by apply last_None in Hl.
Qed.
End processor.
