(* ===== verification/StateProps.v ===== *)
(** * Properties of the state database

    The operations of [core/state/statedb.go] against their effect on a world,
    snapshots around arbitrary sequences of operations, and the end of a
    transaction. *)

From S2P Require Import Prelude CommonMath Params Rlp StateIface CoreState CoreStateOk ConcreteCrypto Concrete.
Local Open Scope Z_scope.

(** ** Sequences of operations *)

Inductive db_op : Type :=
| OCreateAccount (a : Address)
| OAddBalance (a : Address) (v : Z)
| OSubBalance (a : Address) (v : Z)
| OSetNonce (a : Address) (n : Z)
| OSetCode (a : Address) (c : bytes)
| OSetState (a : Address) (k v : Hash)
| OSuicide (a : Address)
| OAddRefund (g : Z)
| OSubRefund (g : Z)
| OAddLog (l : Log)
| OAddPreimage (h : Hash) (d : bytes).

(** A sequence of operations, with snapshots and reverts nested in it. *)
Inductive db_step : Type :=
| Do (op : db_op)
| Mark
| Undo.

Section operations.
Context {S : Type} `{StateDB S} `{Crypto}.

Definition exec_op (op : db_op) : M S unit :=
  match op with
  | OCreateAccount a => CreateAccount a
  | OAddBalance a v => AddBalance a v
  | OSubBalance a v => SubBalance a v
  | OSetNonce a n => SetNonce a n
  | OSetCode a c => SetCode a c
  | OSetState a k v => SetState a k v
  | OSuicide a => Suicide a;; mret tt
  | OAddRefund g => AddRefund g
  | OSubRefund g => SubRefund g
  | OAddLog l => AddLog l
  | OAddPreimage h d => AddPreimage h d
  end.

(** The effect on a world. The state database fills in where a log comes from. *)
Definition world_op (op : db_op) (w w' : World) : Prop :=
  match op with
  | OCreateAccount a => w' = w_create a w
  | OAddBalance a v => w' = w_add_balance a v w
  | OSubBalance a v => w' = w_add_balance a (- v) w
  | OSetNonce a n => w' = w_upd a (set_nonce n) w
  | OSetCode a c => w' = w_upd a (set_code (Keccak256Hash [c]) c) w
  | OSetState a k v => w' = w_upd a (set_state k v) w
  | OSuicide a => w' = w_suicide a w
  | OAddRefund g => w' = w_set_refund (u64 (w_refund w + g)) w
  | OSubRefund g => g <= w_refund w /\ w' = w_set_refund (w_refund w - g) w
  | OAddLog l => exists l', log_Address l' = log_Address l /\ log_Topics l' = log_Topics l /\
      log_Data l' = log_Data l /\ log_BlockNumber l' = log_BlockNumber l /\
      w' = w_set_logs (w_logs w ++ [l']) w
  | OAddPreimage h d => w' = w_add_preimage h d w
  end.

(** [ids] are the snapshots taken so far, newest first; an [Undo] with none
    left does nothing. *)
Fixpoint exec_steps (ids : list Z) (steps : list db_step) : M S unit :=
  match steps with
  | [] => mret tt
  | Do op :: steps' => exec_op op;; exec_steps ids steps'
  | Mark :: steps' => id ← Snapshot; exec_steps (id :: ids) steps'
  | Undo :: steps' =>
      match ids with
      | id :: ids' => RevertToSnapshot id;; exec_steps ids' steps'
      | [] => exec_steps [] steps'
      end
  end.

Context {SL : StateDBLaws S}.

Lemma run_op_ok op s :
  inv s ->
  wp refund_panic False (exec_op op) (fun _ s' =>
    inv s' /\ world_op op (view s) (view s') /\ revs s' = revs s) s.
Proof.
  intros Hi.
  assert (forall (m : M S unit) (P : World -> Prop),
    wp never False m (fun _ s' => exists w, P w /\ becomes inv view revs s w s') s ->
    wp refund_panic False m (fun _ s' => inv s' /\ P (view s') /\ revs s' = revs s) s) as Hw.
  { intros m P Hm. eapply wp_mono; [apply (wp_weaken never _ False); [exact Hm|done|done]|].
    intros [] s' (w & HP & Hi' & Hv & Hr). by rewrite Hv. }
  assert (forall (m : M S unit) w, wp never False m (fun _ => becomes inv view revs s w) s ->
    wp refund_panic False m (fun _ s' => inv s' /\ view s' = w /\ revs s' = revs s) s) as Hd.
  { intros m w Hm. apply (Hw m (fun w' => w' = w)). eapply wp_mono; [exact Hm|]. intros [] s' Hb. by exists w. }
  destruct op; cbn [exec_op world_op].
  - by apply Hd, law_CreateAccount.
  - by apply Hd, law_AddBalance.
  - by apply Hd, law_SubBalance.
  - by apply Hd, law_SetNonce.
  - by apply Hd, law_SetCode.
  - by apply Hd, law_SetState.
  - apply Hd. apply wp_bind. eapply wp_mono; [by apply law_Suicide|]. intros b s' [_ Hb]. by apply wp_ret.
  - by apply Hd, law_AddRefund.
  - eapply wp_mono; [apply (wp_weaken _ refund_panic _ False _ _ _ (law_SubRefund s g Hi)); [by intros r []|done]|].
    intros [] s' (Hg & Hi' & Hv & Hr). by rewrite Hv.
  - apply (Hw _ (fun w' => exists l', _ /\ _ /\ _ /\ _ /\ w' = _)). eapply wp_mono; [by apply law_AddLog|].
    intros [] s' (l' & H1 & H2 & H3 & H4 & Hb). eexists. split; [|exact Hb]. exists l'. by split_and!.
  - by apply Hd, law_AddPreimage.
Qed.

(** Reverting to a snapshot forgets it and all the later ones. *)
Lemma exec_steps_ok steps base inner s :
  inv s -> revs s = base ++ inner ->
  wp refund_panic False (exec_steps (reverse (map fst inner)) steps) (fun _ s' =>
    inv s' /\ exists inner', revs s' = base ++ inner') s.
Proof.
  revert inner s. induction steps as [|[op| |] steps IH]; intros inner s Hi Hr; cbn [exec_steps].
  - apply wp_ret. split; [done|]. by exists inner.
  - apply wp_bind. eapply wp_mono; [by apply run_op_ok|]. intros [] s1 (Hi1 & _ & Hr1).
    apply IH; [done|congruence].
  - apply wp_bind. eapply wp_mono; [apply (wp_weaken never _ False); [by apply law_Snapshot|done|done]|].
    intros id s1 (Hi1 & _ & Hr1). replace (id :: reverse (map fst inner)) with (reverse (map fst (inner ++ [(id, view s)])))
      by (by rewrite map_app, reverse_app).
    apply IH; [done|]. by rewrite Hr1, Hr, app_assoc.
  - destruct inner as [|[id w] inner _] using rev_ind; [by apply (IH [])|].
    rewrite map_app, reverse_app. cbn [map fst app]. apply wp_bind. rewrite app_assoc in Hr.
    eapply wp_mono; [apply (wp_weaken never _ False); [by apply (law_RevertToSnapshot s id w (base ++ inner) [])|done|done]|].
    intros [] s1 (Hi1 & _ & Hr1). by apply IH.
Qed.

(** The steps done under a snapshot that is then reverted. *)
Definition under_snapshot (steps : list db_step) : M S unit :=
  id ← Snapshot; exec_steps [] steps;; RevertToSnapshot id.

Lemma under_snapshot_ok steps s :
  inv s ->
  wp refund_panic False (under_snapshot steps) (fun _ s' =>
    inv s' /\ view s' = view s /\ revs s' = revs s) s.
Proof.
  intros Hi. apply wp_bind. eapply wp_mono; [apply (wp_weaken never _ False); [by apply law_Snapshot|done|done]|].
  intros id s1 (Hi1 & Hv1 & Hr1). apply wp_bind.
  eapply wp_mono; [by apply (exec_steps_ok steps (revs s ++ [(id, view s)]) []); [|rewrite app_nil_r]|].
  intros [] s2 (Hi2 & inner & Hr2). rewrite <- app_assoc in Hr2.
  eapply wp_mono; [apply (wp_weaken never _ False); [by apply (law_RevertToSnapshot s2 id (view s) (revs s) inner)|done|done]|].
  done.
Qed.
End operations.

(** ** Properties *)

Section properties.
Context {T : Type} `{Database T} `{Crypto} {CL : CryptoLaws} {DL : DatabaseLaws T}.
Implicit Types s : stateDB T.

(** C3. The state database implements the world: behind its caches, dirty maps
    and journal, every operation has on the accounts, the refund counter, the
    logs and the preimages the effect that it has on a world, and it keeps the
    snapshots. The one panic is a refund counter that would become negative. *)
Theorem state_refines_world op s :
  state_inv s ->
  wp refund_panic False (exec_op (S := stateDB T) op) (fun _ s' =>
    state_inv s' /\ world_op op (state_view s) (state_view s') /\ state_revs s' = state_revs s) s.
Proof. exact (run_op_ok (SL := stateDB_Laws) op s). Qed.

(** C25. Reverting to a snapshot undoes everything done since, including what
    was done under snapshots nested in it, reverted or not: the world and the
    older snapshots are those from before. *)
Theorem revert_restores steps s :
  state_inv s ->
  wp refund_panic False (under_snapshot (S := stateDB T) steps) (fun _ s' =>
    state_inv s' /\ state_view s' = state_view s /\ state_revs s' = state_revs s) s.
Proof. exact (under_snapshot_ok (SL := stateDB_Laws) steps s). Qed.

(** A fresh state database over a well-formed trie satisfies the invariant
    and shows the accounts of the trie. *)
Theorem New_refines_trie tr :
  trie_ok tr ->
  state_inv (StateDB_New tr) /\ forall a, w_acct (state_view (StateDB_New tr)) a = stored tr a.
Proof.
  intros Ht. split; [split; cbn|].
  - done.
  - intros a o. by rewrite lookup_empty.
  - constructor.
  - done.
  - by exists 0.
  - intros a. cbn. unfold account_at. by rewrite lookup_empty.
Qed.
End properties.

(** What a snapshot is taken around, in the examples. *)
Definition demo_steps : list db_step :=
  [Do (OAddBalance 1 10); Mark; Do (OSetState 1 7 8); Do (OSuicide answer); Undo; Do (OSetNonce 3 4);
   Mark; Do (OCreateAccount 1); Do (OAddLog (mkLog 1 [] [] 5 0 0 0 0))].

Lemma state_refines_world_witness :
  wp refund_panic False (exec_op (OSuicide answer)) (fun _ s' =>
    state_inv s' /\ state_view s' = w_suicide answer (state_view demo_db) /\
    state_revs s' = state_revs demo_db) demo_db.
Proof. exact (state_refines_world (OSuicide answer) demo_db (proj1 demo_db_ok)). Defined.

Lemma revert_restores_witness :
  exists s', under_snapshot demo_steps demo_db = Ok (tt, s') /\ state_view s' = state_view demo_db.
Proof.
  pose proof (revert_restores demo_steps demo_db (proj1 demo_db_ok)) as Hw. unfold wp in Hw.
  assert (match under_snapshot demo_steps demo_db with Ok _ => true | _ => false end = true) as Hr
    by (vm_compute; reflexivity).
  destruct (under_snapshot demo_steps demo_db) as [[[] s']| |]; [|by destruct (diff_false_true Hr)..].
  exists s'. split; [reflexivity|apply Hw].
Defined.

(** A trie with one account. *)
Definition bob : Address := 0xb0b.
Definition bob_account : Account := mkAccount 3 1000 0 (Hash_Bytes emptyCodeHash).
Definition bob_trie : demo_trie := {[Address_Bytes bob := default [] (encode_Account bob_account)]}.
Lemma New_refines_trie_witness :
  state_inv (StateDB_New bob_trie) /\ w_balance (state_view (StateDB_New bob_trie)) bob = 1000.
Proof.
  destruct (New_refines_trie bob_trie) as [Hi Hs].
  - intros a enc d. change (TryGet bob_trie ?k) with (inr (A := Z) (default [] (bob_trie !! k))).
    unfold bob_trie. destruct (decide (Address_Bytes a = Address_Bytes bob)) as [->|Hne].
    + rewrite lookup_singleton_eq. intros [= <-]. vm_compute. intros [= <-]. right. vm_compute. repeat constructor; done.
    + rewrite lookup_singleton_ne by done. by intros [= <-].
  - split; [exact Hi|]. unfold w_balance, w_get. rewrite (Hs bob). vm_compute. reflexivity.
Defined.

(** The precompiled contract at address 3 is touched by a call that then runs
    out of gas, as in block 1714175. *)
Definition touch_reverted : M demo_state unit :=
  id ← Snapshot; AddBalance ripemd 0;; RevertToSnapshot id.

(** [Finalise] panics after the touch of the account at address 3 has been
    reverted: the account is dirty and not in the map of objects, and the
    result of the look-up is cast to an object before the code asks whether
    there is one. *)
Theorem finalise_panics_on_reverted_touch :
  exists s, touch_reverted (StateDB_New ∅) = Ok (tt, s) /\
    dirties (s_journal s) !! ripemd = Some 1 /\ stateObjects s !! ripemd = None /\
    Finalise true s = Panic TypeAssertion.
Proof.
  eexists. split; [vm_compute; reflexivity|]. split; [vm_compute; reflexivity|].
  split; vm_compute; reflexivity.
Qed.
