(* ===== verification/EvmProps.v ===== *)
(** * Properties of the virtual machine

    What the calls and the creation of contracts of [core/vm/evm.go], with the
    interpreter of [core/vm/interpreter.go], guarantee on every state database
    that keeps its promises, and on that of [core/state] with the transfer
    functions of [core/evm.go] in particular. *)

From S2P Require Import Prelude CommonMath Params Opcodes StateIface Machine EvmTypes Precompiles GasTable Evm.
From S2P Require Import Instructions JumpTable InstrSpec Interpreter EvmInv InstrSafe CallSafe OpSafe TableSafe LoopSafe.
From S2P Require Import CoreState CoreStateOk CoreEvm ConcreteCrypto Concrete.
Local Open Scope Z_scope.

Section properties.
Context {S : Type} `{StateDB S} `{Crypto} {SL : StateDBLaws S} {CL : CryptoLaws}.
Context (env : Env S) (Hctx : context_ok (context env)).

(** The code returns, or panics in one of two ways: the analysis [bits] that is
    cached for the program [code] is that of another program with the same hash,
    or, under the rules of EIP-1283, the refund counter would fall below zero. *)
Definition finishes {A} (o : outcome A) : Prop :=
  match o with
  | Ok _ => True
  | Panic (BadAnalysis code bits) =>
      exists c, codeBitmap c = Some bits /\ c <> code /\ Keccak256Hash [c] = Keccak256Hash [code]
  | Panic r => refund_panic r /\ eip1283 env = true
  | OutOfFuel => False
  end.

Lemma wp_finishes {A} (m : M (EVM S) A) Q FU e : wp (allowed env) FU m Q e -> ~ FU -> finishes (m e).
Proof. unfold wp, finishes. intros Hm HF. by destruct (m e) as [[a e']| |]; [|exact Hm|exact (HF Hm)]. Qed.

(** C1. Gas bounds the work: on fuel above the gas, which one round of the
    interpreter loop or one nested call uses up, every kind of call and of
    creation comes to its end. It returns a result or an error, and there are
    two panics that are not excluded: under the rules of EIP-1283 alone
    (Constantinople before Petersburg) that of the refund counter falling below
    zero, and the index out of range of a jump in a program for which the
    analysis of a different program with the same Keccak hash is cached. The
    machine and its state are well formed ([evm_ok]), the input is shorter than
    [2 ^ 63] bytes, the gas is below [2 ^ 60] and the value a 256-bit number.
    Where writes are refused,
    CALL has no value and there is no creation, as the interpreter makes sure
    of; the caller of DELEGATECALL is a contract with a value. *)
Theorem evm_finishes fuel cl addr input gas value salt e :
  evm_ok e -> data_ok input -> 0 <= gas < MaxGas -> is_u256 value -> gas < Z.of_nat fuel ->
  ((static env e = true -> value = 0) -> finishes (EVM_Call env fuel cl addr input gas value e)) /\
  finishes (EVM_CallCode env fuel cl addr input gas value e) /\
  ((exists a b x, cl = RefContract a b (Some x) /\ is_u256 x) -> finishes (EVM_DelegateCall env fuel cl addr input gas e)) /\
  finishes (EVM_StaticCall env fuel cl addr input gas e) /\
  (static env e = false ->
    finishes (EVM_Create env fuel cl input gas value e) /\ finishes (EVM_Create2 env fuel cl input gas value salt e)).
Proof.
  intros He Hin Hg Hv Hf. pose proof (EVMInterpreter_Run_ok env Hctx fuel) as HRun.
  split_and!; intros; split_and?; (eapply wp_finishes; [|apply Z.lt_nge; exact Hf]).
  - by apply (Call_ok env _ _ HRun Hctx).
  - by apply (CallCode_ok env _ _ HRun Hctx).
  - by apply (DelegateCall_ok env _ _ HRun).
  - by apply (StaticCall_ok env _ _ HRun).
  - by apply (Create_ok env _ _ HRun Hctx).
  - by apply (Create2_ok env _ _ HRun Hctx).
Qed.

(** A call returns at most the gas it was given, and leaves the call depth
    and the read-only flag as they were. *)
Theorem call_gas_bound fuel cl addr input gas value e ret g err e' :
  evm_ok e -> data_ok input -> 0 <= gas < MaxGas -> is_u256 value -> static env e = false ->
  EVM_Call env fuel cl addr input gas value e = Ok (ret, g, err, e') ->
  0 <= g <= gas /\ depth e' = depth e /\ readOnly e' = readOnly e /\ evm_ok e'.
Proof.
  intros He Hin Hg Hv Hst Hcall. pose proof (EVMInterpreter_Run_ok env Hctx fuel) as HRun.
  assert (static env e = true -> value = 0) as Hz by (by rewrite Hst).
  destruct (wp_ok_inv _ _ _ _ _ _ _ (Call_ok env _ _ HRun Hctx cl addr input gas value e Hin Hg Hv Hz He) Hcall)
    as (_ & Hgas & (He' & Hd & Hr & _) & _). done.
Qed.

(** C20. A call that fails, for whatever reason and however deep, leaves the
    world as it found it: balances, nonces, code, storage, logs and the refund
    counter. *)
Theorem failed_call_restores fuel cl addr input gas value e ret g err e' :
  evm_ok e -> data_ok input -> 0 <= gas < MaxGas -> is_u256 value -> static env e = false ->
  EVM_Call env fuel cl addr input gas value e = Ok (ret, g, Some err, e') ->
  view (statedb e') = view (statedb e).
Proof.
  intros He Hin Hg Hv Hst Hcall. pose proof (EVMInterpreter_Run_ok env Hctx fuel) as HRun.
  assert (static env e = true -> value = 0) as Hz by (by rewrite Hst).
  destruct (wp_ok_inv _ _ _ _ _ _ _ (Call_ok env _ _ HRun Hctx cl addr input gas value e Hin Hg Hv Hz He) Hcall)
    as (_ & _ & _ & Hview). by apply Hview.
Qed.

(** C16. No call and no creation makes funds: no set of accounts holds more
    afterwards than all the accounts held before. *)
Theorem no_funds_created fuel cl addr input gas value salt n e :
  evm_ok e -> data_ok input -> 0 <= gas < MaxGas -> is_u256 value -> static env e = false ->
  supply_le n (view (statedb e)) ->
  (forall r e', EVM_Call env fuel cl addr input gas value e = Ok (r, e') -> supply_le n (view (statedb e'))) /\
  (forall r e', EVM_Create env fuel cl input gas value e = Ok (r, e') -> supply_le n (view (statedb e'))) /\
  (forall r e', EVM_Create2 env fuel cl input gas value salt e = Ok (r, e') -> supply_le n (view (statedb e'))).
Proof.
  intros He Hin Hg Hv Hst Hs. pose proof (EVMInterpreter_Run_ok env Hctx fuel) as HRun.
  assert (static env e = true -> value = 0) as Hz by (by rewrite Hst).
  assert (forall ro e', evm_le ro e e' -> supply_le n (view (statedb e'))) as Hle.
  { intros ro e' (_ & _ & _ & _ & Ht & _). apply (wtrace_supply n ro _ _ Ht); [apply He|done]. }
  split_and!.
  - intros [[ret g] err] e' Hc.
    by destruct (wp_ok_inv _ _ _ _ _ _ _ (Call_ok env _ _ HRun Hctx cl addr input gas value e Hin Hg Hv Hz He) Hc)
      as (_ & _ & Hl & _); eapply Hle.
  - intros [[[ret a] g] err] e' Hc.
    by destruct (wp_ok_inv _ _ _ _ _ _ _ (Create_ok env _ _ HRun Hctx cl input gas value e Hin Hg Hv Hst He) Hc)
      as (_ & _ & Hl); eapply Hle.
  - intros [[[ret a] g] err] e' Hc.
    by destruct (wp_ok_inv _ _ _ _ _ _ _ (Create2_ok env _ _ HRun Hctx cl input gas value salt e Hin Hg Hv Hst He) Hc)
      as (_ & _ & Hl); eapply Hle.
Qed.

(** C21. From Byzantium on, a static call changes no account, no log and no
    refund, whatever code it runs and whatever that code calls. *)
Theorem static_call_preserves fuel cl addr input gas e r e' :
  evm_ok e -> data_ok input -> 0 <= gas < MaxGas -> R_IsByzantium (chainRules env) = true ->
  EVM_StaticCall env fuel cl addr input gas e = Ok (r, e') ->
  same_accounts (view (statedb e)) (view (statedb e')).
Proof.
  intros He Hin Hg Hb Hcall. pose proof (EVMInterpreter_Run_ok env Hctx fuel) as HRun.
  pose proof (wp_ok_inv _ _ _ _ _ _ _ (StaticCall_ok env _ _ HRun cl addr input gas e Hin Hg He) Hcall) as Hp.
  destruct r as [[ret g] err]. destruct Hp as (_ & _ & (_ & _ & _ & _ & Ht & _) & _).
  unfold static_under in Ht. rewrite Hb, orb_true_r in Ht. by apply wtrace_readonly.
Qed.

(** C37. Between two rounds of the interpreter loop the stack holds at most
    1024 words of 256 bits, memory and gas are within their bounds and the
    state database keeps its invariant, for every instruction set and with
    nested calls of any depth. *)
Theorem loop_invariant fuel f r f' :
  frame_ok f -> zlen (stack f) <= StackLimit ->
  iteration env (instructionSet env (EVMInterpreter_Run env fuel)) f = Ok (r, f') ->
  frame_ok f' /\ zlen (stack f') <= StackLimit /\ Gas (contract f') <= Gas (contract f).
Proof.
  intros Hf Hs Hit. pose proof (EVMInterpreter_Run_ok env Hctx fuel) as HRun.
  destruct (wp_ok_inv _ _ _ _ _ _ _ (iteration_ok env Hctx _ _ HRun f (conj Hf Hs)) Hit) as ([Hf' Hs'] & _ & Hg & _).
  done.
Qed.

(** A call that is too deep or that moves more than the caller has is
    refused with the error for it and all its gas, before anything changes. *)
Theorem call_refused_early fuel cl addr input gas value e :
  evm_ok e -> NoRecursion (vmConfig env) = false ->
  (CallCreateDepth < depth e ->
     EVM_Call env fuel cl addr input gas value e = Ok ([], gas, Some ErrDepth, e)) /\
  (depth e <= CallCreateDepth -> w_balance (view (statedb e)) (ContractRef_Address cl) < value ->
     exists e', EVM_Call env fuel cl addr input gas value e = Ok ([], gas, Some ErrInsufficientBalance, e') /\
       view (statedb e') = view (statedb e) /\ revs (statedb e') = revs (statedb e)).
Proof.
  intros (Hi & _) Hnr. unfold EVM_Call, Call, gets, mbind, M_bind. rewrite Hnr. cbn [andb]. split.
  - intros Hd. by rewrite (proj2 (Z.ltb_lt _ _) Hd).
  - intros Hd Hv. rewrite (proj2 (Z.ltb_ge _ _) Hd). destruct Hctx as (_ & Hcan & _).
    specialize (Hcan (statedb e) (ContractRef_Address cl) value Hi). unfold wp in Hcan. unfold on_db, zoom.
    destruct (CanTransfer (context env) (ContractRef_Address cl) value (statedb e)) as [[ok s']| |]; [|done..].
    destruct Hcan as [-> (_ & Hview & Hrevs)]. rewrite (proj2 (Z.leb_gt _ _) Hv).
    exists (set_statedb s' e). by split_and!.
Qed.
End properties.

(** ** The concrete machine *)

Definition demo_config : ChainConfig :=
  {| ChainID := Some 1; HomesteadBlock := Some 0; DAOForkBlock := None; DAOForkSupport := false;
     EIP150Block := Some 0; EIP150Hash := 0; EIP155Block := Some 0; EIP158Block := Some 0; ByzantiumBlock := Some 0;
     ConstantinopleBlock := None; PetersburgBlock := None; EWASMBlock := None |}.
Definition demo_header : Header :=
  {| ParentHash := 0; UncleHash := 0; h_Coinbase := 0xc0; h_Root := 0; TxHash := 0; ReceiptHash := 0;
     Bloom := []; h_Difficulty := 1000; Number := 100; h_GasLimit := 8000000; GasUsed := 0; h_Time := 1500;
     Extra := []; MixDigest := 0; h_Nonce := [] |}.
Definition demo_env : Env demo_state :=
  {| context := NewEVMContext alice 1 demo_header (fun _ => 0) h_Coinbase None;
     chainConfig := demo_config; vmConfig := mkConfig false false; abort := fun _ => false |}.
Definition demo_evm : EVM demo_state := mkEVM demo_db 0 0 false [] ∅ 0.

Lemma demo_context_ok : context_ok (context demo_env).
Proof. by apply NewEVMContext_ok. Qed.
Lemma demo_evm_ok : evm_ok demo_evm.
Proof.
  destruct demo_db_ok as [Hi Hw]. split; [exact Hi|]. split; [exact Hw|].
  split; [intros h bits; cbn; by rewrite lookup_empty|]. split; [apply data_ok_nil|done].
Qed.
Lemma demo_gas : 0 <= 100000 < MaxGas.
Proof. done. Qed.
Lemma small_gas : 0 <= 20 < MaxGas.
Proof. done. Qed.
Lemma demo_static : static demo_env demo_evm = false.
Proof. vm_compute. reflexivity. Qed.
Lemma demo_value : is_u256 5.
Proof. done. Qed.

(** The contract answers 42, on 18 gas. *)
Definition demo_call : outcome (bytes * Z * option Error * EVM demo_state) :=
  EVM_Call demo_env 30 (AccountRef alice) answer [] 20 5 demo_evm.
Definition failing_call : outcome (bytes * Z * option Error * EVM demo_state) :=
  EVM_Call demo_env 200 (AccountRef alice) failing [] 100000 5 demo_evm.

(** The result of a call without the state it ends in. *)
Definition result_of {A} (o : outcome (A * EVM demo_state)) : option A :=
  match o with Ok (r, _) => Some r | _ => None end.

Lemma evm_finishes_witness :
  finishes demo_env demo_call /\ result_of demo_call = Some (be_enc 32 42, 2, None) /\
  finishes demo_env (EVM_DelegateCall demo_env 30 (RefContract alice alice (Some 5)) answer [] 20 demo_evm).
Proof.
  split; [|split; [vm_compute; reflexivity|]].
  - unfold demo_call. destruct (evm_finishes demo_env demo_context_ok 30 (AccountRef alice) answer [] 20 5 0 demo_evm)
      as [Hf _]; [exact demo_evm_ok|exact data_ok_nil|exact small_gas|exact demo_value|done|]. apply Hf. rewrite demo_static. discriminate.
  - destruct (evm_finishes demo_env demo_context_ok 30 (RefContract alice alice (Some 5)) answer [] 20 5 0 demo_evm)
      as (_ & _ & Hf & _); [exact demo_evm_ok|exact data_ok_nil|exact small_gas|exact demo_value|done|]. apply Hf.
    exists alice, alice, 5. split; [reflexivity|exact demo_value].
Defined.

Lemma call_gas_bound_witness :
  exists r g err e', demo_call = Ok (r, g, err, e') /\ 0 <= g <= 20 /\ depth e' = 0.
Proof.
  assert (is_Some (result_of demo_call)) as Hr by (vm_compute; eexists; reflexivity).
  destruct demo_call as [[[[r g] err] e']| |] eqn:Hc; [|by destruct Hr..]. unfold demo_call in Hc.
  destruct (call_gas_bound demo_env demo_context_ok 30 (AccountRef alice) answer [] 20 5 demo_evm r g err e')
    as (Hg & Hd & _ & _); [exact demo_evm_ok|exact data_ok_nil|exact small_gas|exact demo_value|exact demo_static|exact Hc|].
  exists r, g, err, e'. split; [reflexivity|]. split; [exact Hg|exact Hd].
Defined.

Lemma failed_call_restores_witness :
  exists r g e', failing_call = Ok (r, g, Some errExecutionReverted, e') /\
    view (statedb e') = view demo_db.
Proof.
  assert (exists r g, result_of failing_call = Some (r, g, Some errExecutionReverted)) as (r & g & Hr)
    by (eexists _, _; vm_compute; reflexivity).
  destruct failing_call as [[[[r' g'] err] e']| |] eqn:Hc; [|done..]. unfold failing_call in Hc.
  cbn in Hr. injection Hr as -> -> ->. exists r, g, e'. split; [reflexivity|].
  apply (failed_call_restores demo_env demo_context_ok 200 (AccountRef alice) failing [] 100000 5
    demo_evm r g errExecutionReverted e');
    [exact demo_evm_ok|exact data_ok_nil|exact demo_gas|exact demo_value|exact demo_static|exact Hc].
Defined.

Lemma no_funds_created_witness :
  exists r e', demo_call = Ok (r, e') /\ supply_le (2 ^ 256 - 1) (view (statedb e')).
Proof.
  destruct (no_funds_created demo_env demo_context_ok 30 (AccountRef alice) answer [] 20 5 0 (2 ^ 256 - 1) demo_evm)
    as [Hf _]; [exact demo_evm_ok|exact data_ok_nil|exact small_gas|exact demo_value|exact demo_static|apply demo_evm_ok|].
  assert (is_Some (result_of demo_call)) as Hr by (vm_compute; eexists; reflexivity).
  destruct demo_call as [[[[r g] err] e']| |] eqn:Hc; [|by destruct Hr..]. unfold demo_call in Hc.
  exists (r, g, err), e'. split; [reflexivity|]. exact (Hf _ _ Hc).
Defined.

Definition demo_static_call : outcome (bytes * Z * option Error * EVM demo_state) :=
  EVM_StaticCall demo_env 30 (AccountRef alice) answer [] 20 demo_evm.
Lemma static_call_preserves_witness :
  exists r e', demo_static_call = Ok (r, e') /\ same_accounts (view demo_db) (view (statedb e')).
Proof.
  assert (is_Some (result_of demo_static_call)) as Hr by (vm_compute; eexists; reflexivity).
  destruct demo_static_call as [[[[r g] err] e']| |] eqn:Hc; [|by destruct Hr..]. unfold demo_static_call in Hc.
  exists (r, g, err), e'. split; [reflexivity|].
  apply (static_call_preserves demo_env demo_context_ok 30 (AccountRef alice) answer [] 20 demo_evm (r, g, err));
    [exact demo_evm_ok|exact data_ok_nil|exact small_gas|reflexivity|exact Hc].
Defined.

(** The frame a call of the contract starts in. *)
Definition demo_frame : Frame demo_state :=
  mkFrame 0 (SetCallCode (Some answer) (Keccak256Hash [demo_code]) demo_code
    (fst (NewContract (AccountRef alice) answer (Some 5) 20 ∅))) NewMemory newstack demo_evm.
Definition demo_iteration : outcome (option (bytes * option Error) * Frame demo_state) :=
  iteration demo_env (instructionSet demo_env (EVMInterpreter_Run demo_env 10)) demo_frame.
Lemma loop_invariant_witness :
  exists r f', demo_iteration = Ok (r, f') /\
    frame_ok f' /\ zlen (stack f') <= StackLimit /\ Gas (contract f') <= 20.
Proof.
  assert (match demo_iteration with Ok _ => true | _ => false end = true) as Hr by (vm_compute; reflexivity).
  destruct demo_iteration as [[r f']| |] eqn:Hc; [|done..]. exists r, f'. split; [reflexivity|].
  unfold demo_iteration in Hc. revert Hc. apply (loop_invariant demo_env demo_context_ok 10 demo_frame); [|done].
  assert (data_ok demo_code) as Hd by (split; [repeat constructor; lia|done]).
  split; [|split; [split; [constructor|done]|split; [constructor|split; [done|exact demo_evm_ok]]]].
  split; [split; [exact Hd|split; [by right|done]]|]. split; [exact data_ok_nil|].
  split; [exists 5; done|done].
Defined.

Lemma call_refused_early_witness :
  exists e', EVM_Call demo_env 1 (AccountRef alice) answer [] 7 (2 ^ 100) demo_evm
    = Ok ([], 7, Some ErrInsufficientBalance, e').
Proof.
  destruct (call_refused_early demo_env demo_context_ok 1 (AccountRef alice) answer [] 7 (2 ^ 100) demo_evm
    demo_evm_ok eq_refl) as [_ Hb].
  destruct Hb as (e' & He & _); [done|vm_compute; reflexivity|]. exists e'. exact He.
Defined.

(** The one overflow of the signed division wraps around to itself. *)
Lemma instructions_compute_witness :
  exists o, assoc Z.eqb SDIV (instructionSet demo_env (EVMInterpreter_Run demo_env 30)) = Some o /\
    evaluates (execute o) [2 ^ 255; 2 ^ 256 - 1] (2 ^ 255).
Proof.
  destruct (instructions_compute demo_env (EVMInterpreter_Run demo_env 30) (2 ^ 255) (2 ^ 256 - 1) 7) as [Hw _]; [done..|].
  destruct (proj1 (Forall_lookup _ _) Hw 7%nat (SDIV, [2 ^ 255; 2 ^ 256 - 1], word (Z.quot (signed (2 ^ 255)) (signed (2 ^ 256 - 1)))) eq_refl)
    as (o & Ho & _ & He).
  exists o. exact (conj Ho He).
Defined.
