(* ===== verification/TransitionProps.v ===== *)
(** * Properties of state transitions

    What applying a message guarantees, on every state database that keeps its
    promises, and the machine of [Concrete] as an example. *)

From S2P Require Import Prelude CommonMath Params StateIface Machine EvmTypes Evm Interpreter EvmInv InstrSafe.
From S2P Require Import Transaction Receipt StateTransition StateProcessor CoreState CoreStateOk CoreEvm ConcreteCrypto Concrete StateDirty EvmProps.
Local Open Scope Z_scope.

Section properties.
Context {S : Type} `{StateDB S} `{Crypto} {SL : StateDBLaws S} {CL : CryptoLaws}.
Context (env : Env S) (Hctx : context_ok (context env)) (fuel : nat) (msg : Message).

(** C2. Applying a message ends, on fuel above its gas limit, and accounts for
    the gas: without an error, the pool loses exactly the gas used, which is at
    most the limit of the message and, with the refund, still at least half of
    its intrinsic cost; a message whose limit is below its intrinsic cost or
    above the gas of the pool is never executed. *)
Theorem transition_accounts_gas pool e :
  msg_ok msg -> evm_ok e -> static env e = false -> is_u64 pool -> msg_gasLimit msg < Z.of_nat fuel ->
  match ApplyMessage env fuel msg e pool with
  | Ok (_, used, _, None, st) =>
      gp st = pool - used /\ 0 <= used <= msg_gasLimit msg /\ msg_cost env msg <= 2 * used /\
      msg_cost env msg <= msg_gasLimit msg <= pool
  | Ok (_, used, _, Some _, st) => used = 0 /\ (gp st = pool \/ gp st = pool - msg_gasLimit msg)
  | Panic r => allowed env r
  | OutOfFuel => False
  end.
Proof.
  intros Hm He Hst Hp Hf. pose proof He as (_ & (_ & _ & Hs) & _).
  pose proof (TransitionDb_ok env Hctx fuel msg _ pool e Hm He Hst Hp Hs (Z.le_refl _)) as Hw.
  unfold wp in Hw. unfold ApplyMessage. pose proof (msg_cost_nonneg env msg).
  destruct (TransitionDb env fuel msg (NewStateTransition e pool)) as [[[[[ret used] failed] [err|]] st]| |].
  - destruct Hw as (_ & _ & -> & _ & [[Hgp _]|[Hgp _]]); auto.
  - destruct Hw as (_ & _ & Hgp & ? & ? & ? & ? & _). split; [exact Hgp|]. lia.
  - done.
  - lia.
Qed.

(** C26. Applying a message makes no funds, and settles the price of the gas: the
    sender pays the price of the gas limit, the virtual machine goes on from
    there, and of that price the part of the gas not used is paid back to the
    sender and that of the gas used to the miner. No set of accounts holds more
    afterwards than all of them held before, if that was below [2 ^ 256]. With
    an error, either nothing has changed, or the price of the gas limit is paid
    and not settled after what the virtual machine has done. The fields of the
    message have their widths, its gas limit is below [2 ^ 60], the machine and
    its state are well formed, and writes are not refused. *)
Theorem transition_conserves_funds n pool e ret used failed err st :
  msg_ok msg -> evm_ok e -> static env e = false -> is_u64 pool -> n <= 2 ^ 256 - 1 ->
  supply_le n (view (statedb e)) ->
  ApplyMessage env fuel msg e pool = Ok (ret, used, failed, err, st) ->
  supply_le n (view (statedb (st_evm st))) /\ evm_ok (st_evm st) /\
  let paid := w_add_balance (msg_from msg) (- (msg_gasLimit msg * msg_gasPrice msg)) (view (statedb e)) in
  match err with
  | None => exists w', wtrace false paid w' /\ supply_le (n - msg_gasLimit msg * msg_gasPrice msg) w' /\
      view (statedb (st_evm st)) =
        w_add_balance (Coinbase (context env)) (used * msg_gasPrice msg)
          (w_add_balance (msg_from msg) ((msg_gasLimit msg - used) * msg_gasPrice msg) w')
  | Some _ => view (statedb (st_evm st)) = view (statedb e) \/ wtrace false paid (view (statedb (st_evm st)))
  end.
Proof.
  intros Hm He Hst Hp Hn Hs Hr.
  pose proof (wp_ok_inv _ _ _ _ _ _ _ (TransitionDb_ok env Hctx fuel msg n pool e Hm He Hst Hp Hs Hn) Hr) as ([He' _] & Hs' & Hpost).
  split; [done|]. split; [done|]. cbv zeta. destruct err as [err|].
  - destruct Hpost as (_ & _ & [[_ Hw]|[_ Hw]]); [by left|by right].
  - destruct Hpost as (_ & _ & _ & _ & _ & _ & w' & Ht & Hsw & Hw). exists w'. split; [exact Ht|]. split; [exact Hsw|exact Hw].
Qed.

(** C36. A call message that fails in the virtual machine changes nothing but the
    nonce of the sender and the fee: the price of the gas used moves from the
    sender to the miner. *)
Theorem failed_message_only_pays pool e ret used st to :
  msg_ok msg -> evm_ok e -> static env e = false -> is_u64 pool -> msg_to msg = Some to ->
  ApplyMessage env fuel msg e pool = Ok (ret, used, true, None, st) ->
  view (statedb (st_evm st)) = fee_paid env msg used (view (statedb e)).
Proof.
  intros Hm He Hst Hp Hto Hr. pose proof He as (_ & (_ & _ & Hs) & _).
  pose proof (wp_ok_inv _ _ _ _ _ _ _
    (TransitionDb_ok env Hctx fuel msg _ pool e Hm He Hst Hp Hs (Z.le_refl _)) Hr) as (_ & _ & _ & _ & _ & _ & _ & Hfail & _).
  apply Hfail; [done|by rewrite Hto].
Qed.
End properties.

Definition with_nonce (n : Z) (msg : Message) : Message :=
  mkMessage (msg_to msg) (msg_from msg) n (msg_amount msg) (msg_gasLimit msg) (msg_gasPrice msg) (msg_data msg)
    (msg_checkNonce msg).

(** The nonce of a message is never looked at: whether or not the message
    asks for the check, the result does not depend on it, so a message can be
    applied again. *)
Theorem nonce_is_never_checked {S} `{StateDB S} `{Crypto} (env : Env S) fuel msg n e pool :
  ApplyMessage env fuel (with_nonce n msg) e pool = ApplyMessage env fuel msg e pool.
Proof. unfold ApplyMessage, TransitionDb, preCheck. cbn. by destruct (msg_checkNonce msg). Qed.

(** ** Examples *)

(** A message to the contract that answers 42, and one to the contract that
    fails. *)
Definition demo_message (to : Address) : Message := mkMessage (Some to) alice 0 5 41100 1 [] true.
Definition demo_fuel : nat := Z.to_nat 41101.
Definition apply_demo (to : Address) : outcome (bytes * Z * bool * option coreError * StateTransition demo_state) :=
  ApplyMessage demo_env demo_fuel (demo_message to) demo_evm 8000000.

Lemma demo_message_ok to : msg_ok (demo_message to).
Proof. split; [exact data_ok_nil|]. by split_and!. Qed.
Lemma demo_pool : is_u64 8000000.
Proof. done. Qed.
Lemma demo_fuel_enough to : msg_gasLimit (demo_message to) < Z.of_nat demo_fuel.
Proof. unfold demo_fuel. rewrite Z2Nat.id; done. Qed.
Lemma demo_cost to : msg_cost demo_env (demo_message to) = 21000.
Proof. reflexivity. Qed.

(** The result of a message without the state. *)
Definition summary (o : outcome (bytes * Z * bool * option coreError * StateTransition demo_state)) : option (bytes * Z * bool) :=
  match o with Ok (ret, used, failed, None, _) => Some (ret, used, failed) | _ => None end.
Definition message_result (to : Address) : option (bytes * Z * bool) := summary (apply_demo to).
Lemma answer_result : message_result answer = Some (be_enc 32 42, 21018, false).
Proof. vm_compute. reflexivity. Qed.
Lemma failing_result : message_result failing = Some ([], 41012, true).
Proof. vm_compute. reflexivity. Qed.

Lemma transition_accounts_gas_witness :
  exists ret failed st, apply_demo answer = Ok (ret, 21018, failed, None, st) /\ gp st = 8000000 - 21018.
Proof.
  pose proof (transition_accounts_gas demo_env demo_context_ok demo_fuel (demo_message answer) 8000000 demo_evm
    (demo_message_ok answer) demo_evm_ok demo_static demo_pool (demo_fuel_enough answer)) as Ht.
  pose proof answer_result as Hr. unfold message_result, summary in Hr. fold (apply_demo answer) in Ht.
  destruct (apply_demo answer) as [[[[[ret used] failed] [err|]] st]| |]; [discriminate Hr| |discriminate Hr..].
  injection Hr as -> -> ->. eexists _, _, _. split; [reflexivity|]. exact (proj1 Ht).
Defined.

Lemma transition_conserves_funds_witness :
  exists ret failed st w', apply_demo answer = Ok (ret, 21018, failed, None, st) /\ supply_le (2 ^ 256 - 1) (view (statedb (st_evm st))) /\
    view (statedb (st_evm st)) = w_add_balance (Coinbase (context demo_env)) (21018 * 1) (w_add_balance alice ((41100 - 21018) * 1) w').
Proof.
  pose proof answer_result as Hr. unfold message_result, summary in Hr.
  destruct (apply_demo answer) as [[[[[ret used] failed] [err|]] st]| |] eqn:Ha; [discriminate Hr| |discriminate Hr..]. injection Hr as -> -> ->.
  destruct (transition_conserves_funds demo_env demo_context_ok demo_fuel (demo_message answer) (2 ^ 256 - 1) 8000000 demo_evm
    (be_enc 32 42) 21018 false None st (demo_message_ok answer) demo_evm_ok demo_static demo_pool (Z.le_refl _)) as (Hs & _ & w' & _ & _ & Hw); [apply demo_evm_ok|exact Ha|].
  exists (be_enc 32 42), false, st, w'. split; [reflexivity|]. split; [exact Hs|exact Hw].
Defined.

Lemma failed_message_only_pays_witness :
  exists st, apply_demo failing = Ok ([], 41012, true, None, st) /\
    view (statedb (st_evm st)) = fee_paid demo_env (demo_message failing) 41012 (view demo_db).
Proof.
  pose proof failing_result as Hr. unfold message_result, summary in Hr.
  destruct (apply_demo failing) as [[[[[ret used] failed] [err|]] st]| |] eqn:Ha; [discriminate Hr| |discriminate Hr..].
  injection Hr as -> -> ->. exists st. split; [reflexivity|].
  apply (failed_message_only_pays demo_env demo_context_ok demo_fuel (demo_message failing) 8000000 demo_evm
    [] 41012 st failing (demo_message_ok failing) demo_evm_ok demo_static demo_pool eq_refl). exact Ha.
Defined.


